(* ===== verification/_CoqProject ===== *)
-Q . S2P
Prelude.v
PyData.v
PyTime.v
Enums.v
Errors.v
StateMachine.v
Sha256.v
Ed25519.v
PyText.v
PyDates.v
ValueObjects.v
Redaction.v
JsonText.v
Observability.v
Policies.v
Entities.v
RequestFacts.v
Workflow.v
Records.v
Store.v
Journal.v
Ports.v
Settlement.v
Dispatcher.v
Samples.v
DispatcherFacts.v
CreateRequest.v
Operator.v
WebhookIngestion.v
Reconciliation.v
Outbox.v
Workers.v
Queries.v
WorkflowStore.v
Orchestrator.v
OrchestratorFacts.v
System.v
Sagas.v
Schema.v
SchemaFacts.v
Mappers.v
Redis.v
CircuitBreaker.v
RateLimiter.v
Coordination.v
Resilient.v
Transport.v
TransportFacts.v
Signatures.v
Adapters.v
AdapterFacts.v
Access.v
Api.v
Config.v
Fields.v
Messaging.v
Edge.v
Sandbox.v
Process.v
SandboxWebhooks.v
SandboxFacts.v
SandboxTheorems.v
