(* ===== verification/Prelude.v ===== *)
(** * A verification development of the integration orchestrator

    The program (under [src/src/integration_orchestrator/]) takes requests from
    its API, sends each to one of several external providers, and keeps track of
    it until it succeeds, fails, is cancelled or is handed to an operator.
    Providers answer at once, later through signed webhooks, or not at all, so a
    request is also driven by background workers: retries, reconciliation with
    the provider, deferred webhooks, and publication of an outbox of events.
    Every change of a request is written with an audit row and an outbox event
    in one transaction. Calls to providers pass a rate limiter, a circuit
    breaker shared through Redis and a bulkhead. Multi-step workflows run over
    the same requests: each step sends one, its outcome (reported by the
    dispatcher, a webhook or a poll) settles the step, and a failed, cancelled or
    expired workflow is unwound by sending compensating requests. Three adapters
    translate between the platform and the providers over a common HTTP client
    with shared tokens; the API in front checks tokens, scopes and ownership.

    ** Files

    - [Prelude] (this file): record update, the monad [M E S A] of Python calls
      (state and exceptions; an exception keeps the state reached), weakest
      preconditions [wp] and their tactics.
    - [PyData], [PyTime]: strings, JSON values and dictionaries, UUIDs,
      datetimes in microseconds with their zone, and ISO 8601 text. [PyText],
      [PyDates], [JsonText]: what the program uses of Python's text functions
      ([split], [int], [float], UTF-8, base64, [UUID]), of [fromisoformat] and
      the dates of mail headers, and of [json.loads] and [json.dumps], with the
      lemma that what was printed is read back.
    - [Enums], [Errors], [StateMachine], [ValueObjects], [Policies],
      [Entities], [Workflow], [Records]: [domain/enums.py], [errors.py],
      [state_machine.py], [value_objects.py] (with SHA-256 in [Sha256]),
      [policies.py], [entities.py], [workflow.py] with
      [workflow_state_machine.py], and [records.py], [events.py],
      [contracts.py]. [RequestFacts] holds the invariant of a request.
    - [Store]: tables, constraints, sessions and repositories
      ([infrastructure/db/]). A session works on its own copy of the tables;
      [commit] publishes it, [with_uow] is [async with uow_factory()].
    - [Journal]: [application/services/journal.py] and the invariant
      [Journaled]: the audit rows of a request replay to its stored status.
    - [Ports]: the gateway interface, the registry, the policies, and the
      effect classes the other files are proved against: [calm] (a handler
      leaves the committed tables journaled and only grown) and [journaling]
      (the body of a unit of work).
    - [Settlement], [Dispatcher], [DispatcherFacts]:
      [application/services/dispatcher.py]; [CreateRequest], [Operator],
      [WebhookIngestion]: the use cases of [application/use_cases/];
      [Reconciliation]: [application/services/reconciliation.py]; [Outbox] and
      [Workers]: the workers of [workers/]; [Samples]: concrete worlds for the
      witnesses.
    - [WorkflowStore]: [infrastructure/db/workflow_repositories.py] and the
      workflow mappers. [Orchestrator]:
      [application/services/workflow_orchestrator.py], its catalog of
      definitions, the use cases of [start_workflow.py] and
      [workers/workflow_worker.py]; each method is its transactions (named
      [open_...], [close_...], [..._tx]) with the dispatch between them.
      [OrchestratorFacts]: every transaction keeps the journal and moves
      executions along their machines.
    - [System]: all handlers as steps over one database, with the orchestrator
      as the dispatcher's and the webhooks' hook.
    - [Sagas]: theorems on workflows in the running system.
    - [Redis]: the server as a class of commands with their documented laws, an
      in-memory instance, the client and the key names. [CircuitBreaker],
      [RateLimiter], [Coordination]: the scripts and clients of
      [infrastructure/redis/] and the bulkhead of
      [infrastructure/resilience/bulkhead.py]. [Resilient]: the decorator of
      [infrastructure/providers/resilient.py] over an interface of guards, and
      the process that [composition.py] wires.
    - [Redaction]: [observability/redaction.py]. [Queries]: filters, cursors and
      read use cases ([application/dto/queries.py],
      [application/use_cases/queries.py]) with the listing of the repository.
    - [Transport], [TransportFacts]: [http.py], [errors.py] and [auth.py] of
      [infrastructure/providers/], and the token cache of
      [infrastructure/redis/token_cache.py]. [Signatures], [Adapters],
      [AdapterFacts]: [signatures.py], [base.py], [northstar.py],
      [meridian.py], [cobalt.py] and the construction in [registry.py].
    - [Access]: tokens, scopes, ownership and error answers
      ([infrastructure/security/tokens.py], [api/security.py],
      [api/ownership.py], [api/errors.py]). [Api]: the endpoints of
      [api/routers/] behind their dependencies. [Edge]: size and rate limits
      ([api/middleware.py]), the provider catalogue
      ([application/use_cases/list_providers.py]) and readiness.
    - [Config], [Fields]: [config/settings.py], its validators and its declared
      fields, with the policies of [infrastructure/resilience/policies.py].
      [Messaging]: [infrastructure/messaging/].
    - [Schema]: the revisions of [migrations/versions/] as lists of DDL
      operations with their interpreter, the models of
      [infrastructure/db/models.py] as tables, [migrations/env.py] and
      [scripts/check_migrations.py]. [SchemaFacts]: rows and constraints of a
      schema, and the store of [Store] against them. [Mappers]:
      [infrastructure/db/mappers.py], column by column, and the assignments of
      the UPDATE statements.
    - [Sandbox]: the simulated providers of
      [infrastructure/providers/sandbox/], their objects shared between
      handlers and deliveries as in Python. [SandboxWebhooks],
      [SandboxFacts], [SandboxTheorems]: signed deliveries, the invariant and
      the theorems.
    - [Process]: start-up and shutdown ([composition.py]), the supervisor of the
      workers as a transition system ([workers/runner.py]), the heartbeat, the
      life of the application ([api/app.py]) and the command line ([cli.py]).
      [Observability]: context variables, log lines and metrics
      ([observability/]).

    ** What the theorems show

    - System ([System]): in every reachable database the audit trail of each
      request explains its status, a step never rewrites history, and statuses
      only move along the transition table.
    - Workflows ([Sagas], [Workflow]): stored executions and steps follow their
      state machines for ever; an outcome is borne out by the steps (SUCCEEDED:
      all carried out; COMPENSATED, CANCELLED: nothing left done or in flight);
      compensation takes the latest step first; exactly the steps whose
      dependencies succeeded become ready; and (a defect) a step that the
      dispatcher's report has already settled makes the call that ran it raise.
    - Use cases: creation is idempotent under its key, refuses a reused key and
      is durable before the provider is called; settling an attempt follows the
      retry policy and never overwrites a newer state; a webhook is recorded
      first, applied atomically, and ignored when redelivered or unverified;
      reconciliation follows the provider and waits before it escalates;
      cancellation follows the provider.
    - Workers: claims are exclusive and exact, batches settle exactly, deferred
      webhooks age out, and the poll loop survives every failure.
    - Resilience: the shared breaker decides as the pure policy does, trips, and
      (a defect) cannot close when it wants more successes than probes; a
      refused call never reaches the adapter, a create that the provider does
      not collapse is sent at most once, slots never leak; the limiter admits at
      most burst plus rate times elapsed although its key expires; the lock
      excludes and its poll loop decides.
    - Domain: well-formed requests stay so, histories replay, delays stay within
      their bounds, equal bodies have equal fingerprints, stored webhook events
      are read back.
    - Adapters ([AdapterFacts]): a delivery is vouched for exactly when its
      signature and time are genuine; no outcome is reported that the provider
      did not; what is raised is a provider error; the registry holds exactly
      the enabled providers; and the system of [System] run with these adapters
      keeps its audit trail.
    - Transport ([TransportFacts]): answers are classified by status, a call is
      sent at most twice, the token used is fresh or newly issued, and a cached
      token is read back until it expires.
    - API ([Access], [Api], [Edge]): a scope is granted exactly as the token
      says; a call without it changes nothing; what others own is out of reach
      by name; every call is answered; calls keep the audit trail; limits fail
      closed; readiness is truthful.
    - Others: redaction does not depend on what it hides ([Redaction]); paging
      is the listing, page by page, and stays in order under writes ([Queries]);
      an accepted configuration can be started ([Config]); a published batch
      reaches the broker in order ([Messaging]).
    - Database ([SchemaFacts], [Mappers]): the migrations build the schema the
      models declare from every revision and can be undone to every revision;
      the store refuses a row exactly when that schema's constraints do; what
      the system stores passes the CHECKs; every entity is read back from its
      row as it was written; a row gives every column a value of its type; an
      UPDATE leaves the identifying columns alone.
    - Sandbox ([SandboxTheorems]): whatever requests and deliveries interleave,
      identifiers, keys and scheduled events stay consistent; a webhook it sends
      is accepted and understood by the platform's own adapter; repeated keys
      are collapsed by the providers that promise it.
    - Processes ([Process], [Observability]): shutdown is orderly and completes;
      an accepted deployment runs no local convenience; redriving touches the
      named dead letters only; a live process has a fresh heartbeat; scopes do
      not leak identifiers, log lines keep secrets and only declared series
      exist.
    - Settings ([Config], [Fields]): overrides keep the defaults; accepted
      settings are in range, give every provider valid policies and limits, and
      are printed without their secrets.
    - Examples named in [Api], [AdapterFacts], [Queries], [Config] and
      [Messaging] run the model on inputs the code does not treat as its
      comments say.

    ** Bounds and fuel

    Recursions are structural or run on a count from the code: the lock's poll
    loop has [wait / 0.05 + 2] turns, enough because each turn but the last
    sleeps at least 0.05 seconds; the attempt loop has the code's number of
    attempts; the worker's loop is indexed by its number of batches. A report
    of a finished request may dispatch further requests, which report in turn:
    these nested calls, and the mutual recursion of the compensation, carry a
    [depth] and raise [RecursionError] beyond it, as the interpreter does. Every
    theorem on the system holds for every depth. The reader of JSON text counts
    down from the length of the text, which every step shortens ([enough]); the
    walk over pages ([browse]) is proved to end within one page per row and one
    more.

    ** Idealised

    Floats are exact rationals. Code points are below 256. A transaction is
    atomic and isolated from begin to commit; between transactions, and while a
    provider is called, any other handler may run. A flush inserts rows in the
    order they were added; rows that SQL leaves unordered, the steps
    of an execution among them, come in the model's order. An execution's row
    holds its step rows. Clock, identifiers and jitter are streams of the environment. Redis
    and its clients share one clock, and a numeric reply is the number it
    denotes. [asyncio.gather] is a sequence. The infinities of [float] are
    the rationals of that size, zone offsets are whole seconds, and text that
    leaves the code points of the model is an outcome of its own
    ([Unmodelled]), never taken for a parse error.

    ** Parameters

    httpx ([Net]), PyJWT ([jwt_decode]), Fernet ([encrypt], [decrypt] with
    [FernetOk]), Ed25519 verification and, for the sandbox, signing with its
    clock and token source ([Machine] with [MachineOk]), Alembic's
    [compare_metadata] ([compares]), the aiokafka producer ([Producer]), the
    Redis server ([Redis] with [RedisOk]), and Python's [repr] of floats and of
    JSON values ([float_repr], [py_repr]).

    ** Not modelled

    Logging and metrics have no effect on the state and are modelled apart from
    the handlers that report them ([Observability]); the set-up of tracing and
    of log handlers, the console formatter and the text form of metrics are left
    out. So are the construction of engines and clients from settings
    ([infrastructure/db/session.py], most of [build_container]), the reading of
    settings from the text of the environment (pydantic),
    argument parsing (argparse), routing and the bytes of responses (FastAPI),
    the liveness and metrics endpoints. Column types are kept by the mappers and
    the schema; the lengths of free text are not enforced by [Store]. The other
    programs of [scripts/] ([compose_e2e.py], [chaos_subset.py],
    [recon_matrix.py], [demo.py], [load_baseline.py],
    [dual_api_rate_limit.py], [dev_token.py]) drive a deployed stack over HTTP
    and docker and print reports; they have no state or decision of the platform
    of their own. *)

From stdpp Require Export prelude gmap strings list sorting pretty.
From Stdlib Require Export ZArith QArith Qround Qpower Lia Lqa.

#[global] Open Scope string_scope.
#[global] Open Scope list_scope.
#[global] Open Scope Z_scope.
#[global] Unset Printing Records.

(** * Record update

    [r <| field := v |>] is the Python assignment [r.field = v] on a record
    seen as a value. Each record lists its fields once, in an [Eta] instance;
    the setter of a field is found from it. *)

Class Eta (R : Type) := eta : R → R.
Class Setter {R F : Type} (getter : R → F) := mk_setter { set : (F → F) → R → R }.
Arguments mk_setter {R F} getter set.
Arguments set {R F} getter {Setter} f r.

Ltac find_setter R getter :=
  let inst := constr:(_ : Eta R) in
  let e := eval hnf in inst in
  lazymatch eval pattern getter in e with
  | ?u _ =>
      let s := eval cbv beta in (fun f => u (fun r => f (getter r))) in
      exact (mk_setter getter s)
  end.

#[export] Hint Extern 1 (@Setter ?R ?F ?getter) => find_setter R getter : typeclass_instances.

Declare Scope record_scope.
#[global] Open Scope record_scope.
Notation "r <| f := v |>" := (set f (λ _, v) r)
  (at level 1, f at level 1, left associativity) : record_scope.
Notation "r <| f ::= g |>" := (set f g r)
  (at level 1, f at level 1, left associativity) : record_scope.

(** * Computations that may raise

    [M E S A] is a Python call: it reads and writes a state [S] and either
    returns an [A] or raises an [E]. The state reached before the exception
    stays visible, as it does in Python: an assignment made before a [raise]
    is not undone by the [raise]. *)

Inductive outcome (E A : Type) : Type :=
  | Ret (a : A)
  | Raise (e : E).
Arguments Ret {E A} a.
Arguments Raise {E A} e.

#[export] Instance outcome_eq_dec {E A} `{EqDecision E, EqDecision A} :
  EqDecision (outcome E A).
Proof. solve_decision. Defined.

Definition M (E S A : Type) : Type := S → outcome E A * S.

Section Monad.
Context {E S : Type}.

Definition ret {A} (a : A) : M E S A := λ s, (Ret a, s).
Definition raise {A} (e : E) : M E S A := λ s, (Raise e, s).
Definition bind {A B} (m : M E S A) (k : A → M E S B) : M E S B := λ s,
  match m s with
  | (Ret a, s') => k a s'
  | (Raise e, s') => (Raise e, s')
  end.
Definition getS : M E S S := λ s, (Ret s, s).
Definition gets {A} (f : S → A) : M E S A := λ s, (Ret (f s), s).
Definition putS (s : S) : M E S unit := λ _, (Ret tt, s).
Definition modifyS (f : S → S) : M E S unit := λ s, (Ret tt, f s).

(** [try m except h]: [h e] is [Some] handler for the exceptions the clause
    names and [None] for the ones that propagate. *)
Definition try_except {A} (m : M E S A) (h : E → option (M E S A)) : M E S A := λ s,
  match m s with
  | (Ret a, s') => (Ret a, s')
  | (Raise e, s') => match h e with
                     | Some k => k s'
                     | None => (Raise e, s')
                     end
  end.

(** [lift o]: a pure call that returns or raises and touches no state. *)
Definition lift {A} (o : outcome E A) : M E S A := λ s, (o, s).

(** [for x in l: body x] *)
Fixpoint for_each {A} (l : list A) (body : A → M E S unit) : M E S unit :=
  match l with
  | [] => ret tt
  | x :: l' => bind (body x) (λ _, for_each l' body)
  end.
End Monad.

Declare Scope monad_scope.
#[global] Open Scope monad_scope.
Notation "'let*' x ':=' c 'in' k" := (bind c (λ x, k))
  (at level 10, x pattern, c at level 100, k at level 200)
  : monad_scope.
Notation "c ';;;' k" := (bind c (λ _, k))
  (at level 199, k at level 200, right associativity) : monad_scope.

(** [within m]: a method call on an object held in a local variable. The
    method runs on that object; the caller gets the mutated object back. *)
Definition on {E S O A} (o : O) (m : M E O A) : M E S (A * O) := λ s,
  match m o with
  | (Ret a, o') => (Ret (a, o'), s)
  | (Raise e, _) => (Raise e, s)
  end.

(** * Weakest preconditions

    [wp m Q X s]: run from [s], [m] either returns [a] in a state satisfying
    [Q a] or raises [e] in a state satisfying [X e]. Runs are total and
    deterministic, so a [wp] is a statement about the one result of the run. *)

Definition wp {E S A} (m : M E S A) (Q : A → S → Prop) (X : E → S → Prop) (s : S) : Prop :=
  match m s with
  | (Ret a, s') => Q a s'
  | (Raise e, s') => X e s'
  end.

Section Wp.
Context {E S : Type}.
Implicit Types s : S.

Lemma wp_ret {A} (a : A) (Q : A → S → Prop) (X : E → S → Prop) s :
  Q a s → wp (ret a) Q X s.
Proof. done. Qed.

Lemma wp_raise {A} (e : E) (Q : A → S → Prop) (X : E → S → Prop) s :
  X e s → wp (raise e) Q X s.
Proof. done. Qed.

Lemma wp_bind {A B} (m : M E S A) (k : A → M E S B) (Q : B → S → Prop) (X : E → S → Prop) s :
  wp m (λ a s', wp (k a) Q X s') X s → wp (bind m k) Q X s.
Proof. unfold wp, bind. by destruct (m s) as [[a|e] s']. Qed.

Lemma wp_bind_inv {A B} (m : M E S A) (k : A → M E S B) (Q : B → S → Prop) (X : E → S → Prop) s :
  wp (bind m k) Q X s → wp m (λ a s', wp (k a) Q X s') X s.
Proof. unfold wp, bind. by destruct (m s) as [[a|e] s']. Qed.

Lemma wp_conseq {A} (m : M E S A) (Q Q' : A → S → Prop) (X X' : E → S → Prop) s :
  wp m Q X s → (∀ a s', Q a s' → Q' a s') → (∀ e s', X e s' → X' e s') →
  wp m Q' X' s.
Proof. unfold wp. destruct (m s) as [[a|e] s']; auto. Qed.

Lemma wp_and {A} (m : M E S A) (Q Q' : A → S → Prop) (X X' : E → S → Prop) s :
  wp m Q X s → wp m Q' X' s →
  wp m (λ a s', Q a s' ∧ Q' a s') (λ e s', X e s' ∧ X' e s') s.
Proof. unfold wp. destruct (m s) as [[a|e] s']; auto. Qed.

Lemma wp_getS (Q : S → S → Prop) (X : E → S → Prop) s : Q s s → wp getS Q X s.
Proof. done. Qed.

Lemma wp_gets {A} (f : S → A) (Q : A → S → Prop) (X : E → S → Prop) s :
  Q (f s) s → wp (gets f) Q X s.
Proof. done. Qed.

Lemma wp_putS s0 (Q : unit → S → Prop) (X : E → S → Prop) s :
  Q tt s0 → wp (putS s0) Q X s.
Proof. done. Qed.

Lemma wp_modifyS f (Q : unit → S → Prop) (X : E → S → Prop) s :
  Q tt (f s) → wp (modifyS f) Q X s.
Proof. done. Qed.

Lemma wp_lift {A} (o : outcome E A) (Q : A → S → Prop) (X : E → S → Prop) s :
  match o with Ret a => Q a s | Raise e => X e s end → wp (lift o) Q X s.
Proof. by destruct o. Qed.

Lemma wp_on {O A} (o : O) (m : M E O A) (Q : A * O → S → Prop) (X : E → S → Prop) s :
  wp m (λ a o', Q (a, o') s) (λ e _, X e s) o → wp (on o m) Q X s.
Proof. unfold wp, on. by destruct (m o) as [[a|e] o']. Qed.

Lemma wp_try {A} (m : M E S A) h (Q : A → S → Prop) (X : E → S → Prop) s :
  wp m Q (λ e s', match h e with
                  | Some k => wp k Q X s'
                  | None => X e s'
                  end) s →
  wp (try_except m h) Q X s.
Proof.
  unfold wp, try_except. destruct (m s) as [[a|e] s']; [done|].
  by destruct (h e).
Qed.

(** A computation that cannot raise returns. *)
Lemma wp_total {A} (m : M E S A) (Q : A → S → Prop) s :
  wp m Q (λ _ _, False) s → ∃ a s', m s = (Ret a, s') ∧ Q a s'.
Proof. unfold wp. destruct (m s) as [[a|e] s']; [eauto|done]. Qed.

(** A loop keeps an invariant its body keeps. *)
Lemma wp_for_each {A} (l : list A) (body : A → M E S unit) (I : S → Prop) (X : E → S → Prop) s :
  I s →
  (∀ x s', x ∈ l → I s' → wp (body x) (λ _, I) X s') →
  wp (for_each l body) (λ _, I) X s.
Proof.
  revert s. induction l as [|x l IH]; intros s Hs Hbody; [done|]. cbn.
  apply wp_bind. eapply wp_conseq; [apply Hbody; [left|done]| |done].
  intros [] s' Hs'. apply IH; [done|]. intros y s'' Hy. apply Hbody. by right.
Qed.
End Wp.

(** One step of symbolic execution; [wp_go] runs the whole straight line. *)
Ltac wp_step :=
  lazymatch goal with
  | |- wp (bind _ _) _ _ _ => apply wp_bind
  | |- wp (ret _) _ _ _ => apply wp_ret
  | |- wp (raise _) _ _ _ => apply wp_raise
  | |- wp getS _ _ _ => apply wp_getS
  | |- wp (gets _) _ _ _ => apply wp_gets
  | |- wp (putS _) _ _ _ => apply wp_putS
  | |- wp (modifyS _) _ _ _ => apply wp_modifyS
  | |- wp (lift _) _ _ _ => apply wp_lift
  | |- wp (on _ _) _ _ _ => apply wp_on
  | |- wp (try_except _ _) _ _ _ => apply wp_try
  | |- wp (if ?b then _ else _) _ _ _ => let H := fresh "Hb" in destruct b eqn:H
  | |- wp (match ?o with _ => _ end) _ _ _ => let H := fresh "Ho" in destruct o eqn:H
  end.
Ltac wp_go := repeat wp_step.
(** The same, stopping at every branch. *)
Ltac wp_line :=
  repeat (lazymatch goal with |- wp (match _ with _ => _ end) _ _ _ => fail | _ => wp_step end).
