(* ===== verification/PyData.v ===== *)
(** Python values the program computes with: [str], truthiness, [UUID],
    JSON-shaped [dict]s and timezone-aware [datetime]s.

    A [str] is a [string] of code points below 256. A [float] is an exact
    rational [Q]: rounding is not modelled, so a theorem about a delay is a
    theorem about the real-number value of the expression in the source. *)

From S2P Require Import Prelude.
From Stdlib Require Import HexadecimalString HexadecimalN.

(** * Strings *)

Module Str.
Definition code (c : Ascii.ascii) : Z := Z.of_nat (Ascii.nat_of_ascii c).

(** [str.isspace] of one character. *)
Definition isspace (c : Ascii.ascii) : bool :=
  let n := code c in
  ((9 <=? n) && (n <=? 13)) || ((28 <=? n) && (n <=? 32)) || (n =? 133) || (n =? 160).

(** [str.lower] of one character. *)
Definition lower_char (c : Ascii.ascii) : Ascii.ascii :=
  let n := code c in
  if ((65 <=? n) && (n <=? 90)) || ((192 <=? n) && (n <=? 222) && negb (n =? 215))
  then Ascii.ascii_of_nat (Z.to_nat (n + 32)) else c.

Fixpoint map_chars (f : Ascii.ascii → Ascii.ascii) (s : string) : string :=
  match s with
  | EmptyString => EmptyString
  | String c s' => String (f c) (map_chars f s')
  end.
Definition lower (s : string) : string := map_chars lower_char s.

Fixpoint lstrip (s : string) : string :=
  match s with
  | String c s' => if isspace c then lstrip s' else s
  | EmptyString => EmptyString
  end.
Fixpoint rstrip (s : string) : string :=
  match s with
  | EmptyString => EmptyString
  | String c s' =>
      match rstrip s' with
      | EmptyString => if isspace c then EmptyString else String c EmptyString
      | t => String c t
      end
  end.
(** [s.strip()] *)
Definition strip (s : string) : string := rstrip (lstrip s).

Definition len (s : string) : Z := Z.of_nat (String.length s).
(** [s[:n]] *)
Fixpoint take (n : nat) (s : string) : string :=
  match n, s with
  | S n', String c s' => String c (take n' s')
  | _, _ => EmptyString
  end.

(** [bool(s)] *)
Definition truthy (s : string) : bool := negb (bool_decide (s = "")).

Fixpoint all_chars (p : Ascii.ascii → bool) (s : string) : bool :=
  match s with
  | EmptyString => true
  | String c s' => p c && all_chars p s'
  end.

Fixpoint contains (sub s : string) : bool :=
  String.prefix sub s ||
  match s with
  | EmptyString => false
  | String _ s' => contains sub s'
  end.

Lemma truthy_true s : truthy s = true ↔ s ≠ "".
Proof. unfold truthy. case_bool_decide; naive_solver. Qed.

Lemma len_nonneg s : 0 ≤ len s.
Proof. unfold len. lia. Qed.

Lemma length_take n s : String.length (take n s) = Nat.min n (String.length s).
Proof. revert s. induction n as [|n IH]; intros [|c s]; cbn; [done..|by rewrite IH]. Qed.

Lemma take_all n s : (String.length s ≤ n)%nat → take n s = s.
Proof.
  revert s. induction n as [|n IH]; intros [|c s]; cbn; try done; intros Hn; [lia|].
  rewrite IH; [done|lia].
Qed.

Lemma rstrip_idem s : rstrip (rstrip s) = rstrip s.
Proof.
  induction s as [|c s IH]; [done|]. cbn.
  destruct (rstrip s) as [|d t] eqn:Hs.
  - destruct (isspace c) eqn:Hc; [done|]. cbn. by rewrite Hc.
  - cbn in *. by rewrite IH.
Qed.

Lemma lstrip_rstrip s : lstrip s = s → lstrip (rstrip s) = rstrip s.
Proof.
  destruct s as [|c s]; [done|]. cbn. destruct (isspace c) eqn:Hc.
  - intros H. exfalso.
    assert (∀ t, (String.length (lstrip t) ≤ String.length t)%nat) as Hl.
    { induction t as [|d t IHt]; cbn; [lia|]. destruct (isspace d); cbn; lia. }
    specialize (Hl s). rewrite H in Hl. cbn in Hl. lia.
  - intros _. destruct (rstrip s); cbn; by rewrite Hc.
Qed.

Lemma lstrip_idem s : lstrip (lstrip s) = lstrip s.
Proof. induction s as [|c s IH]; [done|]. cbn. destruct (isspace c) eqn:Hc; [done|]. cbn. by rewrite Hc. Qed.

Lemma strip_idem s : strip (strip s) = strip s.
Proof.
  unfold strip. rewrite (lstrip_rstrip (lstrip s)); [apply rstrip_idem|apply lstrip_idem].
Qed.
End Str.

(** Truthiness of an [Optional[str]] and the operators [or] / [and] on it. *)
Definition truthy_opt (o : option string) : bool :=
  match o with Some s => Str.truthy s | None => false end.
Definition or_else (o : option string) (d : string) : string :=
  match o with Some s => if Str.truthy s then s else d | None => d end.
Definition or_opt (o o' : option string) : option string :=
  if truthy_opt o then o else o'.

Lemma truthy_opt_true o : truthy_opt o = true ↔ ∃ s, o = Some s ∧ s ≠ "".
Proof.
  destruct o as [s|]; cbn; [rewrite Str.truthy_true|]; naive_solver.
Qed.

Lemma truthy_opt_false o : truthy_opt o = false ↔ o = None ∨ o = Some "".
Proof.
  destruct o as [s|]; cbn; [|naive_solver].
  unfold Str.truthy. case_bool_decide; naive_solver.
Qed.

(** * UUIDs *)

(** A UUID is its 128-bit integer; [str(uuid)] is ['%032x' % int] cut at 8, 12,
    16 and 20. *)
Abbreviation UUID := N (only parsing).

Definition hex_uint (n : N) : Hexadecimal.uint :=
  let d := N.to_hex_uint n in
  Nat.iter (32 - Hexadecimal.nb_digits d) Hexadecimal.D0 d.
Definition hex32 (n : N) : string := NilEmpty.string_of_uint (hex_uint n).
Definition dash_char : Ascii.ascii := Ascii.ascii_of_nat 45.
Definition dash (l : list Ascii.ascii) : list Ascii.ascii :=
  take 8 l ++ [dash_char] ++ take 4 (drop 8 l) ++ [dash_char] ++ take 4 (drop 12 l) ++
  [dash_char] ++ take 4 (drop 16 l) ++ [dash_char] ++ drop 20 l.
Definition uuid_str (n : UUID) : string :=
  String.string_of_list_ascii (dash (String.list_ascii_of_string (hex32 n))).
(** [uuid.hex[:8]] *)
Definition uuid_hex8 (n : UUID) : string := Str.take 8 (hex32 n).

Lemma of_hex_uint_pad k d : N.of_hex_uint (Nat.iter k Hexadecimal.D0 d) = N.of_hex_uint d.
Proof. induction k as [|k IH]; [done|]. cbn [Nat.iter]. rewrite <- IH. done. Qed.

Lemma hex32_inj : Inj (=) (=) hex32.
Proof.
  intros n m H. unfold hex32 in H.
  assert (Some (hex_uint n) = Some (hex_uint m)) as [= Hu].
  { rewrite <- !NilEmpty.usu. by rewrite H. }
  apply (f_equal N.of_hex_uint) in Hu. unfold hex_uint in Hu.
  rewrite !of_hex_uint_pad, !HexadecimalN.Unsigned.of_to in Hu. done.
Qed.

Lemma length_string_of_uint d :
  length (String.list_ascii_of_string (NilEmpty.string_of_uint d)) = Hexadecimal.nb_digits d.
Proof. induction d; cbn; congruence. Qed.

Lemma nb_digits_iter_D0 k d :
  Hexadecimal.nb_digits (Nat.iter k Hexadecimal.D0 d) = (k + Hexadecimal.nb_digits d)%nat.
Proof. induction k as [|k IH]; [done|]. change (S (Hexadecimal.nb_digits (Nat.iter k Hexadecimal.D0 d)) = S (k + Hexadecimal.nb_digits d)). by rewrite IH. Qed.

Lemma hex32_length n : (32 ≤ length (String.list_ascii_of_string (hex32 n)))%nat.
Proof.
  unfold hex32, hex_uint. cbn zeta. rewrite length_string_of_uint, nb_digits_iter_D0. lia.
Qed.

(** A 128-bit identifier has no more than 32 digits. *)
Lemma of_hex_uint_acc_ge d acc :
  (Zpos acc * 16 ^ Z.of_nat (Hexadecimal.nb_digits d) ≤ Zpos (Pos.of_hex_uint_acc d acc))%Z.
Proof.
  revert acc. induction d as [|d IH|d IH|d IH|d IH|d IH|d IH|d IH|d IH|d IH|d IH|d IH|d IH|d IH|d IH|d IH|d IH];
    intros acc; cbn [Hexadecimal.nb_digits Pos.of_hex_uint_acc]; [lia|..];
    (etransitivity; [|apply IH]); rewrite Nat2Z.inj_succ, Z.pow_succ_r by lia; nia.
Qed.

Lemma nb_digits_to_hex_uint n :
  (n < 2 ^ 128)%N → (Hexadecimal.nb_digits (N.to_hex_uint n) ≤ 32)%nat.
Proof.
  intros Hn. pose proof (HexadecimalN.Unsigned.of_to n) as Hof.
  pose proof (HexadecimalN.Unsigned.to_of (N.to_hex_uint n)) as Hnorm. rewrite Hof in Hnorm.
  assert (∀ d acc, (Hexadecimal.nb_digits d ≤ 31)%nat ∨
    (2 ^ 128 ≤ Zpos (Pos.of_hex_uint_acc d acc))%Z) as Hbig.
  { intros d acc. destruct (decide (Hexadecimal.nb_digits d ≤ 31)%nat) as [|Hd]; [by left|right].
    etransitivity; [|apply of_hex_uint_acc_ge].
    transitivity (16 ^ Z.of_nat (Hexadecimal.nb_digits d))%Z; [|nia].
    change (2 ^ 128)%Z with (16 ^ 32)%Z. apply Z.pow_le_mono_r; lia. }
  destruct (N.to_hex_uint n) as [|d|d|d|d|d|d|d|d|d|d|d|d|d|d|d|d]; cbn in Hof |- *; [lia|..];
    try match goal with
        | H : Npos (Pos.of_hex_uint_acc ?d ?a) = _ |- _ =>
            destruct (Hbig d a) as [?|Hb]; [lia|]; subst n;
            apply N2Z.inj_lt in Hn; change (Z.of_N (2 ^ 128)) with (2 ^ 128)%Z in Hn; lia
        end.
  assert (∀ d', Hexadecimal.nzhead d ≠ Hexadecimal.D0 d') as Hz.
  { clear. intros d'. induction d; cbn; congruence. }
  unfold Hexadecimal.unorm in Hnorm. cbn in Hnorm.
  destruct (Hexadecimal.nzhead d) eqn:Hd; try done.
  - injection Hnorm as ->. cbn. lia.
  - by destruct (Hz u).
Qed.

Lemma length_list_ascii_of_string s :
  length (String.list_ascii_of_string s) = String.length s.
Proof. induction s as [|c s IH]; cbn; congruence. Qed.

Lemma length_hex32 n : (n < 2 ^ 128)%N → String.length (hex32 n) = 32%nat.
Proof.
  intros Hn. rewrite <- length_list_ascii_of_string.
  unfold hex32, hex_uint. cbn zeta. rewrite length_string_of_uint, nb_digits_iter_D0.
  pose proof (nb_digits_to_hex_uint n Hn). lia.
Qed.

Lemma length_uuid_str n : (n < 2 ^ 128)%N → String.length (uuid_str n) = 36%nat.
Proof.
  intros Hn. unfold uuid_str.
  rewrite <- length_list_ascii_of_string, String.list_ascii_of_string_of_list_ascii.
  pose proof (length_hex32 n Hn) as Hl. rewrite <- length_list_ascii_of_string in Hl.
  unfold dash. rewrite !length_app, !length_take, !length_drop, Hl. done.
Qed.

Lemma dash_inj l l' :
  (32 ≤ length l)%nat → (32 ≤ length l')%nat → dash l = dash l' → l = l'.
Proof.
  intros Hl Hl' H. unfold dash in H.
  apply app_inj_1 in H as [H1 H]; [|rewrite !length_take; lia]. apply app_inj_1 in H as [_ H]; [|done].
  apply app_inj_1 in H as [H2 H]; [|rewrite !length_take, !length_drop; lia].
  apply app_inj_1 in H as [_ H]; [|done].
  apply app_inj_1 in H as [H3 H]; [|rewrite !length_take, !length_drop; lia].
  apply app_inj_1 in H as [_ H]; [|done].
  apply app_inj_1 in H as [H4 H]; [|rewrite !length_take, !length_drop; lia].
  apply app_inj_1 in H as [_ H]; [|done].
  rewrite <- (take_drop 8 l), <- (take_drop 8 l'), H1. f_equal.
  rewrite <- (take_drop 4 (drop 8 l)), <- (take_drop 4 (drop 8 l')), H2. f_equal.
  rewrite !drop_drop. cbn [Nat.add].
  rewrite <- (take_drop 4 (drop 12 l)), <- (take_drop 4 (drop 12 l')), H3. f_equal.
  rewrite !drop_drop. cbn [Nat.add].
  rewrite <- (take_drop 4 (drop 16 l)), <- (take_drop 4 (drop 16 l')), H4. f_equal.
  by rewrite !drop_drop.
Qed.

(** Distinct identifiers print differently: an [aggregate_id] column names one
    aggregate. *)
#[export] Instance uuid_str_inj : Inj (=) (=) uuid_str.
Proof.
  intros n m H. apply hex32_inj. unfold uuid_str in H.
  apply (f_equal String.list_ascii_of_string) in H.
  rewrite !String.list_ascii_of_string_of_list_ascii in H.
  apply dash_inj in H; [|apply hex32_length..].
  apply (f_equal String.string_of_list_ascii) in H.
  by rewrite !String.string_of_list_ascii_of_string in H.
Qed.

(** * JSON values *)

(** A [dict] is its list of items in insertion order. *)
#[local] Set Warnings "-register-all".
Inductive json : Type :=
  | JNull
  | JBool (b : bool)
  | JInt (z : Z)
  | JFloat (q : Q)
  | JStr (s : string)
  | JList (l : list json)
  | JObj (o : list (string * json)).

Abbreviation dict := (list (string * json)) (only parsing).

(** [d.get(k)], and [d[k] = v] / [{**d, k: v}], which keeps the position of a
    key already present. *)
Definition dict_get (k : string) (d : dict) : option json :=
  match list_find (λ kv, kv.1 = k) d with
  | Some (_, kv) => Some kv.2
  | None => None
  end.
Fixpoint dict_set (k : string) (v : json) (d : dict) : dict :=
  match d with
  | [] => [(k, v)]
  | (k', v') :: d' => if bool_decide (k' = k) then (k, v) :: d' else (k', v') :: dict_set k v d'
  end.
(** [{**d, **e}] *)
Definition dict_merge (d e : dict) : dict :=
  foldl (λ acc kv, dict_set kv.1 kv.2 acc) d e.
Definition jopt (o : option string) : json :=
  match o with Some s => JStr s | None => JNull end.

Lemma dict_get_cons k k' v d :
  dict_get k ((k', v) :: d) = if bool_decide (k' = k) then Some v else dict_get k d.
Proof.
  unfold dict_get. cbn. case_decide as Hk; [by rewrite bool_decide_true|].
  rewrite bool_decide_false by done. by destruct (list_find _ d) as [[]|].
Qed.
Lemma dict_get_nil k : dict_get k [] = None.
Proof. done. Qed.

(** Looks keys up in a literal dictionary. *)
Ltac dict_simpl :=
  repeat first
    [ rewrite dict_get_cons | rewrite dict_get_nil
    | match goal with |- context [bool_decide (?a = ?b)] =>
        let v := eval vm_compute in (bool_decide (a = b)) in
        lazymatch v with
        | true => change (bool_decide (a = b)) with true
        | false => change (bool_decide (a = b)) with false
        end; cbv iota
      end ].

Lemma dict_get_set_eq k v d : dict_get k (dict_set k v d) = Some v.
Proof.
  unfold dict_get. induction d as [|[k' v'] d IH]; cbn.
  - by rewrite decide_True.
  - case_bool_decide; cbn; [by rewrite decide_True|].
    rewrite decide_False by done. by destruct (list_find _ _) as [[]|].
Qed.

Lemma dict_get_set_ne k k' v d : k ≠ k' → dict_get k (dict_set k' v d) = dict_get k d.
Proof.
  intros Hne. unfold dict_get. induction d as [|[k0 v0] d IH]; cbn.
  - by rewrite decide_False by done.
  - case_bool_decide as Hk; cbn.
    + subst. by rewrite !decide_False by done.
    + case_decide; cbn; [done|]. by destruct (list_find _ (dict_set _ _ _)) as [[]|], (list_find _ d) as [[]|].
Qed.

Lemma uuid_str_truthy n : Str.truthy (uuid_str n) = true.
Proof.
  apply Str.truthy_true. intros Heq. apply (f_equal String.list_ascii_of_string) in Heq.
  unfold uuid_str in Heq. rewrite String.list_ascii_of_string_of_list_ascii in Heq.
  apply (f_equal length) in Heq. unfold dash in Heq. rewrite !length_app in Heq. cbn in Heq. lia.
Qed.

(** [bool(v)] *)
Definition json_truthy (v : json) : bool :=
  match v with
  | JNull => false
  | JBool b => b
  | JInt z => negb (z =? 0)
  | JFloat q => negb (Qeq_bool q 0)
  | JStr s => Str.truthy s
  | JList l => negb (bool_decide (length l = O))
  | JObj o => negb (bool_decide (length o = O))
  end.

(** [str(v)], given [repr] of a float, a list or a dict. *)
Definition py_str (py_repr : json → string) (v : json) : string :=
  match v with
  | JStr s => s
  | JNull => "None"
  | JBool true => "True"
  | JBool false => "False"
  | JInt z => pretty z
  | _ => py_repr v
  end.
(** [d.get(k)] where an absent key reads as [None], and [a or b]. *)
Definition get_item (k : string) (d : dict) : json := default JNull (dict_get k d).
Definition json_or (a b : json) : json := if json_truthy a then a else b.
(** [None if v is None else str(v)] *)
Definition optional_str (py_repr : json → string) (v : json) : option string :=
  match v with JNull => None | _ => Some (py_str py_repr v) end.
