(* ===== verification/PyTime.v ===== *)
(** [datetime], [timedelta] and ISO-8601 text, as the program uses them.

    A timestamp is a wall clock in microseconds since 0001-01-01T00:00:00 and
    an optional UTC offset in seconds: [None] is a naive timestamp. Arithmetic
    on two timestamps that are not both aware (or both naive) is Python's
    [TypeError], [None] here. *)

From S2P Require Import Prelude PyData.

Record datetime := mk_datetime {
  wall_us : Z;
  utc_offset : option Z;
}.

#[export] Instance datetime_eq_dec : EqDecision datetime.
Proof. solve_decision. Defined.

Definition us_per_second : Z := 1000000.

(** [value.tzinfo is not None and value.tzinfo.utcoffset(value) is not None] *)
Definition is_aware (d : datetime) : bool :=
  match utc_offset d with Some _ => true | None => false end.

(** Microseconds on the UTC time line (the wall clock of a naive value). *)
Definition instant (d : datetime) : Z :=
  wall_us d - default 0 (utc_offset d) * us_per_second.

Definition utc (us : Z) : datetime := mk_datetime us (Some 0).

Lemma instant_utc us : instant (utc us) = us.
Proof. unfold instant, us_per_second. cbn. lia. Qed.

(** [a - b] in microseconds. *)
Definition dt_sub (a b : datetime) : option Z :=
  if Bool.eqb (is_aware a) (is_aware b) then Some (instant a - instant b) else None.
(** [a <= b] *)
Definition dt_le (a b : datetime) : option bool :=
  if Bool.eqb (is_aware a) (is_aware b) then Some (instant a <=? instant b) else None.
(** [a + timedelta] *)
Definition dt_add (a : datetime) (us : Z) : datetime :=
  mk_datetime (wall_us a + us) (utc_offset a).

(** [td.total_seconds()] *)
Definition total_seconds (us : Z) : Q := us # 1000000.

(** Round half to even, as [timedelta] does with a fraction of a microsecond. *)
Definition round_half_even (q : Q) : Z :=
  let f := Qfloor q in
  let r := Qminus q (inject_Z f) in
  if Qeq_bool r (1 # 2) then (if Z.even f then f else f + 1)
  else if Qle_bool r (1 # 2) then f else f + 1.
(** [timedelta(seconds=q)] *)
Definition timedelta_seconds (q : Q) : Z := round_half_even (Qmult q (1000000 # 1)).

Lemma is_aware_add d us : is_aware (dt_add d us) = is_aware d.
Proof. done. Qed.

Lemma instant_add d us : instant (dt_add d us) = instant d + us.
Proof. unfold instant, dt_add. cbn. lia. Qed.

Lemma dt_sub_aware a b :
  is_aware a = true → is_aware b = true → dt_sub a b = Some (instant a - instant b).
Proof. intros Ha Hb. unfold dt_sub. by rewrite Ha, Hb. Qed.

Lemma dt_le_aware a b :
  is_aware a = true → is_aware b = true → dt_le a b = Some (instant a <=? instant b).
Proof. intros Ha Hb. unfold dt_le. by rewrite Ha, Hb. Qed.

(** Rounding stays within half a microsecond, so it is monotone and exact on
    whole microseconds. *)
Lemma round_half_even_bounds q :
  (inject_Z (round_half_even q) - (1 # 2) <= q <= inject_Z (round_half_even q) + (1 # 2))%Q.
Proof.
  unfold round_half_even. cbn zeta.
  pose proof (Qfloor_le q) as Hlo. pose proof (Qlt_floor q) as Hhi.
  rewrite inject_Z_plus in Hhi. change (inject_Z 1) with (1%Q) in Hhi.
  destruct (Qeq_bool _ _) eqn:He.
  - apply Qeq_bool_iff in He. destruct (Z.even _); rewrite ?inject_Z_plus;
      change (inject_Z 1) with (1%Q); split; lra.
  - destruct (Qle_bool _ _) eqn:Hl.
    + apply Qle_bool_iff in Hl. split; lra.
    + assert (¬ (q - inject_Z (Qfloor q) <= 1 # 2)%Q) as Hn.
      { intros Hc. apply Qle_bool_iff in Hc. congruence. }
      rewrite inject_Z_plus. change (inject_Z 1) with (1%Q). split; lra.
Qed.

Lemma round_half_even_le_int q z : (q <= inject_Z z)%Q → round_half_even q ≤ z.
Proof.
  intros Hq. pose proof (round_half_even_bounds q) as [Hl _].
  assert (inject_Z (round_half_even q) < inject_Z (z + 1))%Q as Hlt.
  { rewrite inject_Z_plus. change (inject_Z 1) with (1%Q). lra. }
  rewrite <- Zlt_Qlt in Hlt. lia.
Qed.

Lemma round_half_even_ge_int q z : (inject_Z z <= q)%Q → z ≤ round_half_even q.
Proof.
  intros Hq. pose proof (round_half_even_bounds q) as [_ Hu].
  assert (inject_Z z < inject_Z (round_half_even q + 1))%Q as Hlt.
  { rewrite inject_Z_plus. change (inject_Z 1) with (1%Q). lra. }
  rewrite <- Zlt_Qlt in Hlt. lia.
Qed.

(** * ISO-8601 *)

Module Iso.
Definition is_leap (y : Z) : bool :=
  (y mod 4 =? 0) && (negb (y mod 100 =? 0) || (y mod 400 =? 0)).
(** [_days_before_year], [_days_before_month] of the [datetime] module. *)
Definition days_before_year (y : Z) : Z :=
  let y := y - 1 in y * 365 + y / 4 - y / 100 + y / 400.
Definition days_before_month (y m : Z) : Z :=
  match m with
  | 1 => 0 | 2 => 31 | 3 => 59 | 4 => 90 | 5 => 120 | 6 => 151
  | 7 => 181 | 8 => 212 | 9 => 243 | 10 => 273 | 11 => 304 | _ => 334
  end + (if (2 <? m) && is_leap y then 1 else 0).

(** [_ord2ymd], on the zero-based day number. *)
Definition month_of (y d : Z) : Z :=
  let ge m := days_before_month y m <=? d in
  if ge 12 then 12 else if ge 11 then 11 else if ge 10 then 10 else if ge 9 then 9
  else if ge 8 then 8 else if ge 7 then 7 else if ge 6 then 6 else if ge 5 then 5
  else if ge 4 then 4 else if ge 3 then 3 else if ge 2 then 2 else 1.
Definition ymd_of_day (n : Z) : Z * Z * Z :=
  let n400 := n / 146097 in let n := n mod 146097 in
  let n100 := n / 36524 in let n' := n mod 36524 in
  let n4 := n' / 1461 in let n'' := n' mod 1461 in
  let n1 := n'' / 365 in let d := n'' mod 365 in
  let y := n400 * 400 + n100 * 100 + n4 * 4 + n1 + 1 in
  if (n1 =? 4) || (n100 =? 4) then (y - 1, 12, 31)
  else let m := month_of y d in (y, m, d - days_before_month y m + 1).
Definition day_of_ymd (y m d : Z) : Z := days_before_year y + days_before_month y m + d - 1.

Definition digit (n : Z) : Ascii.ascii := Ascii.ascii_of_nat (48 + Z.to_nat (n mod 10)).
(** ['%0kd' % n] for [0 <= n < 10^k]. *)
Fixpoint digits (k : nat) (n : Z) : string :=
  match k with
  | O => ""
  | S k' => digits k' (n / 10) +:+ String (digit n) ""
  end.

Definition offset_text (o : option Z) : string :=
  match o with
  | None => ""
  | Some s =>
      let a := Z.abs s in
      (if s <? 0 then "-" else "+") +:+ digits 2 (a / 3600) +:+ ":" +:+
      digits 2 (a / 60 mod 60) +:+ (if a mod 60 =? 0 then "" else ":" +:+ digits 2 (a mod 60))
  end.

(** [d.isoformat()] *)
Definition isoformat (d : datetime) : string :=
  let us := wall_us d in
  let day := us / 86400000000 in
  let t := us mod 86400000000 in
  let s := t / us_per_second in
  let f := t mod us_per_second in
  let '(y, m, dd) := ymd_of_day day in
  digits 4 y +:+ "-" +:+ digits 2 m +:+ "-" +:+ digits 2 dd +:+ "T" +:+
  digits 2 (s / 3600) +:+ ":" +:+ digits 2 (s / 60 mod 60) +:+ ":" +:+ digits 2 (s mod 60) +:+
  (if f =? 0 then "" else "." +:+ digits 6 f) +:+ offset_text (utc_offset d).

Example iso_epoch :
  isoformat (utc (62135596800 * us_per_second)) = "1970-01-01T00:00:00+00:00".
Proof. reflexivity. Qed.

Example iso_leap :
  isoformat (mk_datetime (63844823106 * us_per_second + 42) (Some (-19800))) =
  "2024-02-29T17:05:06.000042-05:30".
Proof. vm_compute. reflexivity. Qed.

(** ** [datetime.fromisoformat], on the texts [isoformat] writes (other
    spellings Python accepts are never produced by the platform) *)

Definition digit_value (c : Ascii.ascii) : option Z :=
  let n := Str.code c - 48 in if (0 <=? n) && (n <=? 9) then Some n else None.
Fixpoint take_num (k : nat) (acc : Z) (s : string) : option (Z * string) :=
  match k with
  | O => Some (acc, s)
  | S k' => match s with
            | String c s' => match digit_value c with
                             | Some d => take_num k' (acc * 10 + d) s'
                             | None => None
                             end
            | EmptyString => None
            end
  end.
Definition expect (c : Ascii.ascii) (s : string) : option string :=
  match s with
  | String c' s' => if bool_decide (c' = c) then Some s' else None
  | EmptyString => None
  end.

Definition dash : Ascii.ascii := Ascii.ascii_of_nat 45.
Definition colon : Ascii.ascii := Ascii.ascii_of_nat 58.
Definition dot : Ascii.ascii := Ascii.ascii_of_nat 46.
Definition plus : Ascii.ascii := Ascii.ascii_of_nat 43.
Definition tee : Ascii.ascii := Ascii.ascii_of_nat 84.

Definition days_in_month (y m : Z) : Z :=
  (if m =? 12 then 365 + (if is_leap y then 1 else 0) else days_before_month y (m + 1)) -
  days_before_month y m.

Definition take_fraction (s : string) : option (Z * string) :=
  match expect dot s with
  | Some s' => take_num 6 0 s'
  | None => Some (0, s)
  end.

Definition take_offset (s : string) : option (option Z) :=
  match s with
  | EmptyString => Some None
  | String c s1 =>
      if bool_decide (c = plus) || bool_decide (c = dash) then
        '(h, s2) ← take_num 2 0 s1;
        s3 ← expect colon s2;
        '(m, s4) ← take_num 2 0 s3;
        sec ← match s4 with
              | EmptyString => Some 0
              | _ => s5 ← expect colon s4;
                     '(x, s6) ← take_num 2 0 s5;
                     if bool_decide (s6 = "") then Some x else None
              end;
        let a := h * 3600 + m * 60 + sec in
        if (m <? 60) && (sec <? 60) && (a <? 86400)
        then Some (Some (if bool_decide (c = dash) then - a else a)) else None
      else None
  end.

Definition fromisoformat (s : string) : option datetime :=
  '(y, s) ← take_num 4 0 s;
  s ← expect dash s;
  '(m, s) ← take_num 2 0 s;
  s ← expect dash s;
  '(d, s) ← take_num 2 0 s;
  s ← expect tee s;
  '(h, s) ← take_num 2 0 s;
  s ← expect colon s;
  '(mi, s) ← take_num 2 0 s;
  s ← expect colon s;
  '(sec, s) ← take_num 2 0 s;
  '(us, s) ← take_fraction s;
  off ← take_offset s;
  if (1 <=? y) && (1 <=? m) && (m <=? 12) && (1 <=? d) && (d <=? days_in_month y m) &&
     (h <? 24) && (mi <? 60) && (sec <? 60)
  then Some (mk_datetime
         (day_of_ymd y m d * 86400000000 + ((h * 60 + mi) * 60 + sec) * us_per_second + us) off)
  else None.

(** The range of the type: years 1 to 9999, offsets below a day. *)
Definition representable (d : datetime) : Prop :=
  0 ≤ wall_us d < 3652059 * 86400000000 ∧
  match utc_offset d with Some o => -86400 < o < 86400 | None => True end.

Lemma digit_value_digit n : digit_value (digit n) = Some (n mod 10).
Proof.
  assert (0 ≤ n mod 10 < 10) as Hn by (apply Z.mod_pos_bound; lia).
  unfold digit. generalize dependent (n mod 10). intros d Hd.
  assert (d = 0 ∨ d = 1 ∨ d = 2 ∨ d = 3 ∨ d = 4 ∨ d = 5 ∨ d = 6 ∨ d = 7 ∨ d = 8 ∨ d = 9) as Hc by lia.
  by repeat destruct Hc as [-> |Hc]; subst.
Qed.

Lemma string_app_assoc (a b c : string) : (a +:+ b) +:+ c = a +:+ (b +:+ c).
Proof. induction a as [|x a IH]; [done|]. change (String x ((a +:+ b) +:+ c) = String x (a +:+ b +:+ c)). by rewrite IH. Qed.

Lemma take_num_add k j acc s :
  take_num (k + j) acc s = '(a, s') ← take_num k acc s; take_num j a s'.
Proof.
  revert acc s. induction k as [|k IH]; intros acc s; [done|]. cbn.
  destruct s as [|c s]; [done|]. by destruct (digit_value c).
Qed.

Lemma take_num_digits k n acc rest : 0 ≤ n < 10 ^ Z.of_nat k →
  take_num k acc (digits k n +:+ rest) = Some (acc * 10 ^ Z.of_nat k + n, rest).
Proof.
  revert n acc rest. induction k as [|k IH]; intros n acc rest Hn.
  - cbn in *. do 2 f_equal. lia.
  - rewrite Nat2Z.inj_succ, Z.pow_succ_r in * by lia. cbn [digits]. rewrite string_app_assoc.
    replace (S k) with (k + 1)%nat by lia. rewrite take_num_add, IH.
    + change (match digit_value (digit n) with
              | Some d => Some ((acc * 10 ^ Z.of_nat k + n / 10) * 10 + d, rest)
              | None => None
              end = Some (acc * (10 * 10 ^ Z.of_nat k) + n, rest)).
      rewrite digit_value_digit. do 2 f_equal. pose proof (Z.div_mod n 10). lia.
    + split; [apply Z.div_pos; lia|]. apply Z.div_lt_upper_bound; lia.
Qed.

Lemma take_num_2 n rest : 0 ≤ n < 100 → take_num 2 0 (digits 2 n +:+ rest) = Some (n, rest).
Proof. intros Hn. by rewrite take_num_digits. Qed.
Lemma take_num_4 n rest : 0 ≤ n < 10000 → take_num 4 0 (digits 4 n +:+ rest) = Some (n, rest).
Proof. intros Hn. by rewrite take_num_digits. Qed.
Lemma take_num_6 n rest : 0 ≤ n < 1000000 → take_num 6 0 (digits 6 n +:+ rest) = Some (n, rest).
Proof. intros Hn. by rewrite take_num_digits. Qed.

(** The calendar. *)
Lemma month_of_bounds y d : 0 ≤ d < 365 + (if is_leap y then 1 else 0) →
  let m := month_of y d in
  1 ≤ m ≤ 12 ∧ days_before_month y m ≤ d < days_before_month y m + days_in_month y m ∧
  days_in_month y m ≤ 31.
Proof.
  unfold month_of, days_in_month, days_before_month. destruct (is_leap y); intros Hd; cbn in *;
    repeat match goal with |- context [?a <=? d] => destruct (Z.leb_spec a d); cbn end;
    repeat match goal with |- context [match ?a + 1 with _ => _ end] =>
             let v := eval vm_compute in (a + 1) in change (a + 1) with v; cbn end; lia.
Qed.

Lemma leap_unfold y : is_leap y = true ↔ y mod 4 = 0 ∧ (y mod 100 ≠ 0 ∨ y mod 400 = 0).
Proof.
  unfold is_leap. rewrite andb_true_iff, orb_true_iff, negb_true_iff, !Z.eqb_eq, Z.eqb_neq. done.
Qed.

Lemma year_end y : is_leap y = true → 1 ≤ y →
  day_of_ymd y 12 31 = days_before_year y + 365 ∧ days_in_month y 12 = 31.
Proof. unfold day_of_ymd, days_in_month, days_before_month. intros -> _. cbn. lia. Qed.

Lemma day_of_ymd_of_day n : 0 ≤ n < 3652059 →
  let '(y, m, d) := ymd_of_day n in
  day_of_ymd y m d = n ∧ 1 ≤ y ≤ 9999 ∧ 1 ≤ m ≤ 12 ∧ 1 ≤ d ≤ 31 ∧ d ≤ days_in_month y m.
Proof.
  intros Hn. unfold ymd_of_day.
  set (a := n / 146097). set (n0 := n mod 146097). set (b := n0 / 36524). set (n1 := n0 mod 36524).
  set (c := n1 / 1461). set (n2 := n1 mod 1461). set (e := n2 / 365). set (d0 := n2 mod 365).
  assert (n = 146097 * a + n0 ∧ 0 ≤ n0 < 146097 ∧ n0 = 36524 * b + n1 ∧ 0 ≤ n1 < 36524 ∧
          n1 = 1461 * c + n2 ∧ 0 ≤ n2 < 1461 ∧ n2 = 365 * e + d0 ∧ 0 ≤ d0 < 365)
    as (H1 & H2 & H3 & H4 & H5 & H6 & H7 & H8).
  { unfold a, n0, b, n1, c, n2, e, d0. split_and!;
      try (apply Z.div_mod; lia); apply Z.mod_pos_bound; lia. }
  clearbody a n0 b n1 c n2 e d0.
  assert (0 ≤ a ≤ 24 ∧ 0 ≤ b ≤ 4 ∧ 0 ≤ c ≤ 24 ∧ 0 ≤ e ≤ 4) as (? & ? & ? & ?) by lia.
  set (y := a * 400 + b * 100 + c * 4 + e + 1).
  destruct ((e =? 4) || (b =? 4)) eqn:Hlast.
  - apply orb_true_iff in Hlast. rewrite !Z.eqb_eq in Hlast.
    assert (is_leap (y - 1) = true) as Hleap.
    { apply leap_unfold. unfold y. split; [Z.div_mod_to_equations; lia|].
      destruct Hlast as [-> | ->]; [left|right]; Z.div_mod_to_equations; lia. }
    destruct (year_end (y - 1)) as [Hd Hdm]; [done|unfold y; lia|].
    rewrite Hd, Hdm. split_and!; try lia; unfold y in *.
    unfold days_before_year. destruct Hlast as [-> | ->]; Z.div_mod_to_equations; lia.
  - apply orb_false_iff in Hlast. rewrite !Z.eqb_neq in Hlast.
    destruct (month_of_bounds y d0) as (Hm & Hd & Hdm); [destruct (is_leap y); lia|].
    split_and!; try lia; unfold y in *. clear Hm Hd Hdm.
    unfold day_of_ymd, days_before_year. Z.div_mod_to_equations; lia.
Qed.

Lemma expect_colon s : expect colon (":" +:+ s) = Some s.
Proof. reflexivity. Qed.
Lemma expect_dash s : expect dash ("-" +:+ s) = Some s.
Proof. reflexivity. Qed.
Lemma expect_tee s : expect tee ("T" +:+ s) = Some s.
Proof. reflexivity. Qed.
Lemma string_app_nil (s : string) : s +:+ "" = s.
Proof. induction s as [|x s IH]; [done|]. change (String x (s +:+ "") = String x s). by rewrite IH. Qed.

Lemma take_offset_text o :
  match o with Some z => -86400 < z < 86400 | None => True end → take_offset (offset_text o) = Some o.
Proof.
  destruct o as [z|]; [|done]. intros Hz. unfold offset_text, take_offset.
  set (a := Z.abs z). assert (0 ≤ a < 86400) as Ha by lia.
  assert ((if bool_decide ((if z <? 0 then dash else plus) = dash) then - a else a) = z) as Hza
    by (unfold a; destruct (Z.ltb_spec z 0);
        [rewrite bool_decide_true by done|rewrite bool_decide_false by done]; lia).
  assert (0 ≤ a / 3600 < 24 ∧ 0 ≤ a / 60 mod 60 < 60 ∧ 0 ≤ a mod 60 < 60 ∧
          a / 3600 * 3600 + a / 60 mod 60 * 60 + a mod 60 = a) as (? & ? & ? & Hsum)
    by (Z.div_mod_to_equations; lia).
  assert (∀ s, (if z <? 0 then "-" else "+") +:+ s =
               String (if z <? 0 then dash else plus) s) as -> by (by destruct (z <? 0)).
  replace (bool_decide (_ = plus) || bool_decide (_ = dash)) with true by (by destruct (z <? 0)).
  rewrite take_num_2 by lia. cbn [mbind option_bind]. rewrite expect_colon. cbn [mbind option_bind].
  rewrite take_num_2 by lia. cbn [mbind option_bind].
  destruct (Z.eqb_spec (a mod 60) 0) as [Hz0|Hz0]; cbn [mbind option_bind].
  - rewrite Hz0, Z.add_0_r in Hsum. rewrite Z.add_0_r, Hsum, !(proj2 (Z.ltb_lt _ _)) by lia. cbn. by rewrite Hza.
  - change (match ":" +:+ digits 2 (a mod 60) with "" => Some 0 | String _ _ => ?x end) with x.
    rewrite expect_colon. cbn [mbind option_bind].
    rewrite <- (string_app_nil (digits 2 (a mod 60))), take_num_2 by lia. cbn [mbind option_bind].
    rewrite (bool_decide_true ("" = "")) by done. cbn [mbind option_bind].
    rewrite Hsum, !(proj2 (Z.ltb_lt _ _)) by lia. cbn. by rewrite Hza.
Qed.

Lemma take_fraction_text f o : 0 ≤ f < us_per_second →
  take_fraction ((if f =? 0 then "" else "." +:+ digits 6 f) +:+ offset_text o) = Some (f, offset_text o).
Proof.
  unfold us_per_second. intros Hf. destruct (Z.eqb_spec f 0) as [-> |Hne].
  - unfold offset_text, take_fraction. destruct o as [z|]; [|done].
    assert (∀ s, (if z <? 0 then "-" else "+") +:+ s =
                 String (if z <? 0 then dash else plus) s) as -> by (by destruct (z <? 0)).
    by destruct (z <? 0).
  - rewrite string_app_assoc. unfold take_fraction.
    change (expect dot ("." +:+ ?s)) with (Some s). cbv beta iota. by rewrite take_num_6.
Qed.

(** What [isoformat] writes, [fromisoformat] reads back. *)
Lemma fromisoformat_isoformat d : representable d → fromisoformat (isoformat d) = Some d.
Proof.
  intros [Hw Ho]. unfold isoformat, fromisoformat.
  set (t := wall_us d mod 86400000000). set (day := wall_us d / 86400000000).
  assert (wall_us d = 86400000000 * day + t ∧ 0 ≤ t < 86400000000) as [Hd Ht].
  { unfold t, day. split; [apply Z.div_mod; lia|apply Z.mod_pos_bound; lia]. }
  clearbody t day. set (s := t / us_per_second). set (f := t mod us_per_second).
  assert (t = us_per_second * s + f ∧ 0 ≤ f < us_per_second) as [Hs Hf].
  { unfold s, f. unfold us_per_second. split; [apply Z.div_mod; lia|apply Z.mod_pos_bound; lia]. }
  clearbody s f. assert (0 ≤ s < 86400) as Hsb by (unfold us_per_second in *; lia).
  pose proof (day_of_ymd_of_day day) as Hday. destruct (ymd_of_day day) as [[y m] dd].
  destruct Hday as (Hord & Hy & Hm & Hdd & Hdm); [lia|].
  assert (0 ≤ s / 3600 < 24 ∧ 0 ≤ s / 60 mod 60 < 60 ∧ 0 ≤ s mod 60 < 60 ∧
          (s / 3600 * 60 + s / 60 mod 60) * 60 + s mod 60 = s) as (? & ? & ? & Hsum)
    by (Z.div_mod_to_equations; lia).
  rewrite take_num_4 by lia. cbn [mbind option_bind]. rewrite expect_dash. cbn [mbind option_bind].
  rewrite take_num_2 by lia. cbn [mbind option_bind]. rewrite expect_dash. cbn [mbind option_bind].
  rewrite take_num_2 by lia. cbn [mbind option_bind]. rewrite expect_tee. cbn [mbind option_bind].
  rewrite take_num_2 by lia. cbn [mbind option_bind]. rewrite expect_colon. cbn [mbind option_bind].
  rewrite take_num_2 by lia. cbn [mbind option_bind]. rewrite expect_colon. cbn [mbind option_bind].
  rewrite take_num_2 by lia. cbn [mbind option_bind].
  rewrite take_fraction_text by done. cbn [mbind option_bind].
  rewrite take_offset_text by done. cbn [mbind option_bind].
  rewrite !(proj2 (Z.leb_le _ _)), !(proj2 (Z.ltb_lt _ _)) by lia. cbn [andb].
  rewrite Hord, Hsum. destruct d as [w o]. cbn in *. do 2 f_equal. unfold us_per_second in *. lia.
Qed.
End Iso.
Export Iso (isoformat, fromisoformat).
