(* ===== verification/Enums.v ===== *)
(** The enumerations of [domain/enums.py].

    Each [StrEnum] is a module holding the inductive type [t] of its members;
    the class [StrEnum] gives the members, their string values and the lookup
    [of_value] that Python's call syntax [RequestStatus("pending")] performs. *)

From S2P Require Import Prelude PyData.

(** * The [StrEnum] interface *)

Class StrEnum (T : Type) `{EqDecision T} := {
  members : list T;
  value : T → string;
  members_all : ∀ x : T, x ∈ members;
  value_inj :: Inj (=) (=) value;
}.

(** [T(s)]: the member whose value is [s]; [None] is Python's [ValueError]. *)
Definition of_value {T} `{StrEnum T} (s : string) : option T :=
  match list_find (λ x, value x = s) members with
  | Some (_, x) => Some x
  | None => None
  end.

Lemma of_value_value {T} `{StrEnum T} (x : T) : of_value (value x) = Some x.
Proof.
  unfold of_value. destruct (list_find _ _) as [[i y]|] eqn:Hf.
  - apply list_find_Some in Hf as (_ & Hy & _). by apply value_inj in Hy as ->.
  - rewrite list_find_None in Hf. rewrite Forall_forall in Hf.
    by destruct (Hf x (members_all x)).
Qed.

Lemma of_value_Some {T} `{StrEnum T} (s : string) (x : T) :
  of_value s = Some x ↔ s = value x.
Proof.
  split; [|intros ->; apply of_value_value].
  unfold of_value. destruct (list_find _ _) as [[i y]|] eqn:Hf; [|done].
  intros [= ->]. by apply list_find_Some in Hf as (_ & <- & _).
Qed.

(** A statement about every member is checked member by member. *)
Lemma members_forall {T} `{StrEnum T} (P : T → Prop) :
  Forall P members → ∀ x, P x.
Proof. intros HP x. rewrite Forall_forall in HP. apply HP, members_all. Qed.

Ltac solve_members := intros []; set_unfold; tauto.
Ltac solve_value_inj := intros [] [] Heq; by simplify_eq/=.

Module RequestStatus.
Inductive t : Type :=
  | RECEIVED
  | VALIDATING
  | DISPATCHING
  | PENDING
  | SUCCEEDED
  | FAILED
  | RETRY_SCHEDULED
  | CANCELLED
  | MANUAL_REVIEW.

#[export] Instance t_eq_dec : EqDecision t.
Proof. solve_decision. Defined.

Definition value_of (x : t) : string :=
  match x with
  | RECEIVED => "received"
  | VALIDATING => "validating"
  | DISPATCHING => "dispatching"
  | PENDING => "pending"
  | SUCCEEDED => "succeeded"
  | FAILED => "failed"
  | RETRY_SCHEDULED => "retry_scheduled"
  | CANCELLED => "cancelled"
  | MANUAL_REVIEW => "manual_review"
  end.

#[export] Instance str_enum : StrEnum t.
Proof.
  refine {| members := [RECEIVED; VALIDATING; DISPATCHING; PENDING; SUCCEEDED; FAILED; RETRY_SCHEDULED; CANCELLED; MANUAL_REVIEW];
            value := value_of |}; [solve_members|solve_value_inj].
Defined.

(** [_TERMINAL_STATUSES] and the two properties of the class. *)
Definition is_terminal (x : t) : bool := bool_decide (x ∈ [SUCCEEDED; CANCELLED]).
Definition is_in_flight (x : t) : bool := bool_decide (x ∈ [DISPATCHING; PENDING]).
End RequestStatus.
Export (hints) RequestStatus.

Module OperationType.
Inductive t : Type :=
  | RESOURCE_PROVISION
  | RESOURCE_DEPROVISION
  | RESOURCE_UPDATE
  | ACCESS_GRANT
  | ACCESS_REVOKE.

#[export] Instance t_eq_dec : EqDecision t.
Proof. solve_decision. Defined.

Definition value_of (x : t) : string :=
  match x with
  | RESOURCE_PROVISION => "resource_provision"
  | RESOURCE_DEPROVISION => "resource_deprovision"
  | RESOURCE_UPDATE => "resource_update"
  | ACCESS_GRANT => "access_grant"
  | ACCESS_REVOKE => "access_revoke"
  end.

#[export] Instance str_enum : StrEnum t.
Proof.
  refine {| members := [RESOURCE_PROVISION; RESOURCE_DEPROVISION; RESOURCE_UPDATE; ACCESS_GRANT; ACCESS_REVOKE];
            value := value_of |}; [solve_members|solve_value_inj].
Defined.
End OperationType.
Export (hints) OperationType.

Module NormalizedStatus.
Inductive t : Type :=
  | ACCEPTED
  | PENDING
  | SUCCEEDED
  | FAILED
  | CANCELLED
  | UNKNOWN.

#[export] Instance t_eq_dec : EqDecision t.
Proof. solve_decision. Defined.

Definition value_of (x : t) : string :=
  match x with
  | ACCEPTED => "accepted"
  | PENDING => "pending"
  | SUCCEEDED => "succeeded"
  | FAILED => "failed"
  | CANCELLED => "cancelled"
  | UNKNOWN => "unknown"
  end.

#[export] Instance str_enum : StrEnum t.
Proof.
  refine {| members := [ACCEPTED; PENDING; SUCCEEDED; FAILED; CANCELLED; UNKNOWN];
            value := value_of |}; [solve_members|solve_value_inj].
Defined.
End NormalizedStatus.
Export (hints) NormalizedStatus.

Module WebhookProcessingStatus.
Inductive t : Type :=
  | RECEIVED
  | PROCESSED
  | DUPLICATE
  | DEFERRED
  | REJECTED
  | FAILED
  | ABANDONED.

#[export] Instance t_eq_dec : EqDecision t.
Proof. solve_decision. Defined.

Definition value_of (x : t) : string :=
  match x with
  | RECEIVED => "received"
  | PROCESSED => "processed"
  | DUPLICATE => "duplicate"
  | DEFERRED => "deferred"
  | REJECTED => "rejected"
  | FAILED => "failed"
  | ABANDONED => "abandoned"
  end.

#[export] Instance str_enum : StrEnum t.
Proof.
  refine {| members := [RECEIVED; PROCESSED; DUPLICATE; DEFERRED; REJECTED; FAILED; ABANDONED];
            value := value_of |}; [solve_members|solve_value_inj].
Defined.
End WebhookProcessingStatus.
Export (hints) WebhookProcessingStatus.

Module CircuitState.
Inductive t : Type :=
  | CLOSED
  | OPEN
  | HALF_OPEN.

#[export] Instance t_eq_dec : EqDecision t.
Proof. solve_decision. Defined.

Definition value_of (x : t) : string :=
  match x with
  | CLOSED => "closed"
  | OPEN => "open"
  | HALF_OPEN => "half_open"
  end.

#[export] Instance str_enum : StrEnum t.
Proof.
  refine {| members := [CLOSED; OPEN; HALF_OPEN];
            value := value_of |}; [solve_members|solve_value_inj].
Defined.

(** The gauge encoding. *)
Definition numeric (x : t) : Z :=
  match x with CLOSED => 0 | HALF_OPEN => 1 | OPEN => 2 end.
End CircuitState.
Export (hints) CircuitState.

Module ErrorCategory.
Inductive t : Type :=
  | VALIDATION
  | AUTHENTICATION
  | AUTHORIZATION
  | PROVIDER_VALIDATION
  | PROVIDER_AUTHENTICATION
  | PROVIDER_RATE_LIMIT
  | PROVIDER_TIMEOUT
  | PROVIDER_UNAVAILABLE
  | CONFLICT
  | NOT_FOUND
  | UNSUPPORTED_OPERATION
  | INTERNAL.

#[export] Instance t_eq_dec : EqDecision t.
Proof. solve_decision. Defined.

Definition value_of (x : t) : string :=
  match x with
  | VALIDATION => "validation"
  | AUTHENTICATION => "authentication"
  | AUTHORIZATION => "authorization"
  | PROVIDER_VALIDATION => "provider_validation"
  | PROVIDER_AUTHENTICATION => "provider_authentication"
  | PROVIDER_RATE_LIMIT => "provider_rate_limit"
  | PROVIDER_TIMEOUT => "provider_timeout"
  | PROVIDER_UNAVAILABLE => "provider_unavailable"
  | CONFLICT => "conflict"
  | NOT_FOUND => "not_found"
  | UNSUPPORTED_OPERATION => "unsupported_operation"
  | INTERNAL => "internal"
  end.

#[export] Instance str_enum : StrEnum t.
Proof.
  refine {| members := [VALIDATION; AUTHENTICATION; AUTHORIZATION; PROVIDER_VALIDATION; PROVIDER_AUTHENTICATION; PROVIDER_RATE_LIMIT; PROVIDER_TIMEOUT; PROVIDER_UNAVAILABLE; CONFLICT; NOT_FOUND; UNSUPPORTED_OPERATION; INTERNAL];
            value := value_of |}; [solve_members|solve_value_inj].
Defined.
End ErrorCategory.
Export (hints) ErrorCategory.

Module WorkflowStatus.
Inductive t : Type :=
  | CREATED
  | QUEUED
  | RUNNING
  | WAITING
  | RETRY_SCHEDULED
  | COMPENSATING
  | COMPENSATED
  | SUCCEEDED
  | FAILED
  | CANCELLED
  | MANUAL_REVIEW
  | DEAD_LETTERED
  | TIMED_OUT.

#[export] Instance t_eq_dec : EqDecision t.
Proof. solve_decision. Defined.

Definition value_of (x : t) : string :=
  match x with
  | CREATED => "created"
  | QUEUED => "queued"
  | RUNNING => "running"
  | WAITING => "waiting"
  | RETRY_SCHEDULED => "retry_scheduled"
  | COMPENSATING => "compensating"
  | COMPENSATED => "compensated"
  | SUCCEEDED => "succeeded"
  | FAILED => "failed"
  | CANCELLED => "cancelled"
  | MANUAL_REVIEW => "manual_review"
  | DEAD_LETTERED => "dead_lettered"
  | TIMED_OUT => "timed_out"
  end.

#[export] Instance str_enum : StrEnum t.
Proof.
  refine {| members := [CREATED; QUEUED; RUNNING; WAITING; RETRY_SCHEDULED; COMPENSATING; COMPENSATED; SUCCEEDED; FAILED; CANCELLED; MANUAL_REVIEW; DEAD_LETTERED; TIMED_OUT];
            value := value_of |}; [solve_members|solve_value_inj].
Defined.

(** [_WORKFLOW_TERMINAL]. *)
Definition is_terminal (x : t) : bool :=
  bool_decide (x ∈ [SUCCEEDED; COMPENSATED; FAILED; CANCELLED; DEAD_LETTERED]).
End WorkflowStatus.
Export (hints) WorkflowStatus.

Module WorkflowStepStatus.
Inductive t : Type :=
  | PENDING
  | READY
  | RUNNING
  | WAITING
  | RETRY_SCHEDULED
  | SUCCEEDED
  | FAILED
  | SKIPPED
  | COMPENSATING
  | COMPENSATED
  | CANCELLED
  | DEAD_LETTERED.

#[export] Instance t_eq_dec : EqDecision t.
Proof. solve_decision. Defined.

Definition value_of (x : t) : string :=
  match x with
  | PENDING => "pending"
  | READY => "ready"
  | RUNNING => "running"
  | WAITING => "waiting"
  | RETRY_SCHEDULED => "retry_scheduled"
  | SUCCEEDED => "succeeded"
  | FAILED => "failed"
  | SKIPPED => "skipped"
  | COMPENSATING => "compensating"
  | COMPENSATED => "compensated"
  | CANCELLED => "cancelled"
  | DEAD_LETTERED => "dead_lettered"
  end.

#[export] Instance str_enum : StrEnum t.
Proof.
  refine {| members := [PENDING; READY; RUNNING; WAITING; RETRY_SCHEDULED; SUCCEEDED; FAILED; SKIPPED; COMPENSATING; COMPENSATED; CANCELLED; DEAD_LETTERED];
            value := value_of |}; [solve_members|solve_value_inj].
Defined.

(** [_STEP_TERMINAL]. *)
Definition is_terminal (x : t) : bool :=
  bool_decide (x ∈ [SUCCEEDED; FAILED; SKIPPED; COMPENSATED; CANCELLED; DEAD_LETTERED]).
End WorkflowStepStatus.
Export (hints) WorkflowStepStatus.

Module AuditAction.
Inductive t : Type :=
  | REQUEST_RECEIVED
  | REQUEST_VALIDATED
  | PROVIDER_SELECTED
  | DISPATCH_ATTEMPTED
  | PROVIDER_ACCEPTED
  | PROVIDER_REJECTED
  | PROVIDER_FAILED
  | RETRY_SCHEDULED
  | RETRY_REQUESTED
  | RETRIES_EXHAUSTED
  | WEBHOOK_RECEIVED
  | WEBHOOK_REJECTED
  | WEBHOOK_DUPLICATE_IGNORED
  | WEBHOOK_DEFERRED
  | WEBHOOK_APPLIED
  | WEBHOOK_ABANDONED
  | STATE_RECONCILED
  | RECONCILIATION_MISMATCH
  | MOVED_TO_MANUAL_REVIEW
  | REQUEST_CANCELLED
  | CANCELLATION_REJECTED
  | CIRCUIT_OPENED
  | CIRCUIT_CLOSED
  | INVALID_TRANSITION_ATTEMPTED
  | WORKFLOW_STARTED
  | WORKFLOW_STEP_READY
  | WORKFLOW_STEP_STARTED
  | WORKFLOW_STEP_SUCCEEDED
  | WORKFLOW_STEP_FAILED
  | WORKFLOW_WAITING
  | WORKFLOW_COMPENSATING
  | WORKFLOW_COMPENSATED
  | WORKFLOW_SUCCEEDED
  | WORKFLOW_FAILED
  | WORKFLOW_MANUAL_REVIEW
  | WORKFLOW_CANCELLED
  | WORKFLOW_TIMED_OUT.

#[export] Instance t_eq_dec : EqDecision t.
Proof. solve_decision. Defined.

Definition value_of (x : t) : string :=
  match x with
  | REQUEST_RECEIVED => "request.received"
  | REQUEST_VALIDATED => "request.validated"
  | PROVIDER_SELECTED => "provider.selected"
  | DISPATCH_ATTEMPTED => "dispatch.attempted"
  | PROVIDER_ACCEPTED => "provider.accepted"
  | PROVIDER_REJECTED => "provider.rejected"
  | PROVIDER_FAILED => "provider.failed"
  | RETRY_SCHEDULED => "retry.scheduled"
  | RETRY_REQUESTED => "retry.requested"
  | RETRIES_EXHAUSTED => "retry.exhausted"
  | WEBHOOK_RECEIVED => "webhook.received"
  | WEBHOOK_REJECTED => "webhook.rejected"
  | WEBHOOK_DUPLICATE_IGNORED => "webhook.duplicate_ignored"
  | WEBHOOK_DEFERRED => "webhook.deferred"
  | WEBHOOK_APPLIED => "webhook.applied"
  | WEBHOOK_ABANDONED => "webhook.abandoned"
  | STATE_RECONCILED => "state.reconciled"
  | RECONCILIATION_MISMATCH => "state.reconciliation_mismatch"
  | MOVED_TO_MANUAL_REVIEW => "state.manual_review"
  | REQUEST_CANCELLED => "request.cancelled"
  | CANCELLATION_REJECTED => "request.cancellation_rejected"
  | CIRCUIT_OPENED => "provider.circuit_opened"
  | CIRCUIT_CLOSED => "provider.circuit_closed"
  | INVALID_TRANSITION_ATTEMPTED => "state.invalid_transition"
  | WORKFLOW_STARTED => "workflow.started"
  | WORKFLOW_STEP_READY => "workflow.step_ready"
  | WORKFLOW_STEP_STARTED => "workflow.step_started"
  | WORKFLOW_STEP_SUCCEEDED => "workflow.step_succeeded"
  | WORKFLOW_STEP_FAILED => "workflow.step_failed"
  | WORKFLOW_WAITING => "workflow.waiting"
  | WORKFLOW_COMPENSATING => "workflow.compensating"
  | WORKFLOW_COMPENSATED => "workflow.compensated"
  | WORKFLOW_SUCCEEDED => "workflow.succeeded"
  | WORKFLOW_FAILED => "workflow.failed"
  | WORKFLOW_MANUAL_REVIEW => "workflow.manual_review"
  | WORKFLOW_CANCELLED => "workflow.cancelled"
  | WORKFLOW_TIMED_OUT => "workflow.timed_out"
  end.

#[export] Instance str_enum : StrEnum t.
Proof.
  refine {| members := [REQUEST_RECEIVED; REQUEST_VALIDATED; PROVIDER_SELECTED; DISPATCH_ATTEMPTED; PROVIDER_ACCEPTED; PROVIDER_REJECTED; PROVIDER_FAILED; RETRY_SCHEDULED; RETRY_REQUESTED; RETRIES_EXHAUSTED; WEBHOOK_RECEIVED; WEBHOOK_REJECTED; WEBHOOK_DUPLICATE_IGNORED; WEBHOOK_DEFERRED; WEBHOOK_APPLIED; WEBHOOK_ABANDONED; STATE_RECONCILED; RECONCILIATION_MISMATCH; MOVED_TO_MANUAL_REVIEW; REQUEST_CANCELLED; CANCELLATION_REJECTED; CIRCUIT_OPENED; CIRCUIT_CLOSED; INVALID_TRANSITION_ATTEMPTED; WORKFLOW_STARTED; WORKFLOW_STEP_READY; WORKFLOW_STEP_STARTED; WORKFLOW_STEP_SUCCEEDED; WORKFLOW_STEP_FAILED; WORKFLOW_WAITING; WORKFLOW_COMPENSATING; WORKFLOW_COMPENSATED; WORKFLOW_SUCCEEDED; WORKFLOW_FAILED; WORKFLOW_MANUAL_REVIEW; WORKFLOW_CANCELLED; WORKFLOW_TIMED_OUT];
            value := value_of |}; [solve_members|solve_value_inj].
Defined.
End AuditAction.
Export (hints) AuditAction.

Module ActorType.
Inductive t : Type :=
  | API_CLIENT
  | WEBHOOK
  | RETRY_WORKER
  | RECONCILIATION_WORKER
  | OUTBOX_PUBLISHER
  | WORKFLOW_WORKER
  | SYSTEM.

#[export] Instance t_eq_dec : EqDecision t.
Proof. solve_decision. Defined.

Definition value_of (x : t) : string :=
  match x with
  | API_CLIENT => "api_client"
  | WEBHOOK => "webhook"
  | RETRY_WORKER => "retry_worker"
  | RECONCILIATION_WORKER => "reconciliation_worker"
  | OUTBOX_PUBLISHER => "outbox_publisher"
  | WORKFLOW_WORKER => "workflow_worker"
  | SYSTEM => "system"
  end.

#[export] Instance str_enum : StrEnum t.
Proof.
  refine {| members := [API_CLIENT; WEBHOOK; RETRY_WORKER; RECONCILIATION_WORKER; OUTBOX_PUBLISHER; WORKFLOW_WORKER; SYSTEM];
            value := value_of |}; [solve_members|solve_value_inj].
Defined.
End ActorType.
Export (hints) ActorType.
