(* ===== verification/Errors.v ===== *)
(** The error model of [domain/errors.py].

    An exception is a value of [exn]: a [domain_error], whose class is kept so
    that an [except] clause can test it the way [isinstance] does, or one of
    the few built-in exceptions the program's own code can raise. *)

From S2P Require Import Prelude PyData Enums.

(** * The class hierarchy *)

Module ErrorClass.
Inductive t : Type :=
  | DomainError
  | ValidationError
  | NotFoundError
  | ConflictError
  | IdempotencyConflictError
  | InvalidStateTransitionError
  | ConcurrencyConflictError
  | UnsupportedOperationError
  | AuthenticationError
  | AuthorizationError
  | ProviderError
  | ProviderValidationError
  | ProviderAuthenticationError
  | ProviderRateLimitError
  | ProviderTimeoutError
  | ProviderUnavailableError
  | ProviderNotFoundError
  | ProviderResponseError
  | ProviderNotConfiguredError
  | CircuitOpenError
  | BulkheadRejectedError
  | WebhookVerificationError
  | WebhookPayloadError
  | LockAcquisitionError
  | EventPublicationError.

#[export] Instance t_eq_dec : EqDecision t.
Proof. solve_decision. Defined.

(** The base class of each class; [None] for [DomainError], whose base is
    [Exception]. *)
Definition base (c : t) : option t :=
  match c with
  | DomainError => None
  | IdempotencyConflictError | ConcurrencyConflictError => Some ConflictError
  | ProviderValidationError | ProviderAuthenticationError | ProviderRateLimitError
  | ProviderTimeoutError | ProviderUnavailableError | ProviderNotFoundError
  | ProviderResponseError | CircuitOpenError | BulkheadRejectedError => Some ProviderError
  | ProviderNotConfiguredError | WebhookPayloadError => Some ValidationError
  | _ => Some DomainError
  end.

(** The [__mro__], which is at most three classes deep. *)
Definition mro (c : t) : list t :=
  c :: match base c with
       | None => []
       | Some b => b :: match base b with None => [] | Some b' => [b'] end
       end.

Definition subclass (c d : t) : bool := bool_decide (d ∈ mro c).

(** The class attribute [code]. *)
Definition code_of (c : t) : string :=
  match c with
  | DomainError => "internal_error"
  | ValidationError => "validation_failed"
  | NotFoundError => "not_found"
  | ConflictError => "conflict"
  | IdempotencyConflictError => "idempotency_key_reused"
  | InvalidStateTransitionError => "invalid_state_transition"
  | ConcurrencyConflictError => "concurrent_modification"
  | UnsupportedOperationError => "unsupported_operation"
  | AuthenticationError => "authentication_failed"
  | AuthorizationError => "insufficient_scope"
  | ProviderError => "provider_error"
  | ProviderValidationError => "provider_rejected_request"
  | ProviderAuthenticationError => "provider_authentication_failed"
  | ProviderRateLimitError => "provider_rate_limited"
  | ProviderTimeoutError => "provider_timeout"
  | ProviderUnavailableError => "provider_unavailable"
  | ProviderNotFoundError => "provider_operation_not_found"
  | ProviderResponseError => "provider_response_malformed"
  | ProviderNotConfiguredError => "provider_not_configured"
  | CircuitOpenError => "provider_circuit_open"
  | BulkheadRejectedError => "provider_concurrency_exhausted"
  | WebhookVerificationError => "webhook_verification_failed"
  | WebhookPayloadError => "webhook_payload_invalid"
  | LockAcquisitionError => "lock_unavailable"
  | EventPublicationError => "event_publication_failed"
  end.

(** The class attribute [category]; a class that does not set one inherits it. *)
Definition category_of (c : t) : ErrorCategory.t :=
  match c with
  | DomainError | LockAcquisitionError | EventPublicationError => ErrorCategory.INTERNAL
  | ValidationError | ProviderNotConfiguredError | WebhookPayloadError => ErrorCategory.VALIDATION
  | NotFoundError => ErrorCategory.NOT_FOUND
  | ConflictError | IdempotencyConflictError | InvalidStateTransitionError
  | ConcurrencyConflictError => ErrorCategory.CONFLICT
  | UnsupportedOperationError => ErrorCategory.UNSUPPORTED_OPERATION
  | AuthenticationError | WebhookVerificationError => ErrorCategory.AUTHENTICATION
  | AuthorizationError => ErrorCategory.AUTHORIZATION
  | ProviderError | ProviderUnavailableError | ProviderResponseError
  | CircuitOpenError | BulkheadRejectedError => ErrorCategory.PROVIDER_UNAVAILABLE
  | ProviderValidationError | ProviderNotFoundError => ErrorCategory.PROVIDER_VALIDATION
  | ProviderAuthenticationError => ErrorCategory.PROVIDER_AUTHENTICATION
  | ProviderRateLimitError => ErrorCategory.PROVIDER_RATE_LIMIT
  | ProviderTimeoutError => ErrorCategory.PROVIDER_TIMEOUT
  end.

Definition name (c : t) : string :=
  match c with
  | DomainError => "DomainError" | ValidationError => "ValidationError"
  | NotFoundError => "NotFoundError" | ConflictError => "ConflictError"
  | IdempotencyConflictError => "IdempotencyConflictError"
  | InvalidStateTransitionError => "InvalidStateTransitionError"
  | ConcurrencyConflictError => "ConcurrencyConflictError"
  | UnsupportedOperationError => "UnsupportedOperationError"
  | AuthenticationError => "AuthenticationError"
  | AuthorizationError => "AuthorizationError"
  | ProviderError => "ProviderError"
  | ProviderValidationError => "ProviderValidationError"
  | ProviderAuthenticationError => "ProviderAuthenticationError"
  | ProviderRateLimitError => "ProviderRateLimitError"
  | ProviderTimeoutError => "ProviderTimeoutError"
  | ProviderUnavailableError => "ProviderUnavailableError"
  | ProviderNotFoundError => "ProviderNotFoundError"
  | ProviderResponseError => "ProviderResponseError"
  | ProviderNotConfiguredError => "ProviderNotConfiguredError"
  | CircuitOpenError => "CircuitOpenError"
  | BulkheadRejectedError => "BulkheadRejectedError"
  | WebhookVerificationError => "WebhookVerificationError"
  | WebhookPayloadError => "WebhookPayloadError"
  | LockAcquisitionError => "LockAcquisitionError"
  | EventPublicationError => "EventPublicationError"
  end.
End ErrorClass.
Export (hints) ErrorClass.

(** * Errors *)

(** [retry_after_seconds] is an attribute of [ProviderError] only; it is [None]
    on the other classes, where no code reads it. *)
Record domain_error := mk_domain_error {
  cls : ErrorClass.t;
  message : string;
  err_code : string;
  category : ErrorCategory.t;
  retryable : bool;
  err_provider : option string;
  err_provider_code : option string;
  err_correlation_id : option string;
  metadata : dict;
  retry_after_seconds : option Q;
}.

#[export] Instance eta_domain_error : Eta domain_error := λ e,
  mk_domain_error (cls e) (message e) (err_code e) (category e) (retryable e) (err_provider e)
    (err_provider_code e) (err_correlation_id e) (metadata e) (retry_after_seconds e).

Inductive exn : Type :=
  | EDomain (e : domain_error)
  | EValueError (msg : string)
  | ETypeError (msg : string)
  | EKeyError (key : string)
  | EStopIteration
  | EAssertion
  | EOther (msg : string).

(** [isinstance(e, c)] for a domain error class [c]. *)
Definition isinstance (e : exn) (c : ErrorClass.t) : bool :=
  match e with
  | EDomain d => ErrorClass.subclass (cls d) c
  | _ => false
  end.

(** The keyword arguments of [DomainError.__init__]; [None] is an argument left
    at its default. *)
Record kwargs := mk_kwargs {
  k_code : option string;
  k_category : option ErrorCategory.t;
  k_retryable : option bool;
  k_provider : option string;
  k_provider_code : option string;
  k_correlation_id : option string;
  k_retry_after_seconds : option Q;
  k_metadata : dict;
}.
#[export] Instance eta_kwargs : Eta kwargs := λ k,
  mk_kwargs (k_code k) (k_category k) (k_retryable k) (k_provider k) (k_provider_code k)
    (k_correlation_id k) (k_retry_after_seconds k) (k_metadata k).
Definition no_kwargs : kwargs := mk_kwargs None None None None None None None [].

Definition _RETRYABLE_BY_DEFAULT : list ErrorCategory.t :=
  [ErrorCategory.PROVIDER_RATE_LIMIT; ErrorCategory.PROVIDER_TIMEOUT;
   ErrorCategory.PROVIDER_UNAVAILABLE].

(** [DomainError.__init__] *)
Definition domain_error_init (c : ErrorClass.t) (msg : string) (k : kwargs) : domain_error :=
  let cat := default (ErrorClass.category_of c) (k_category k) in
  {| cls := c;
     message := msg;
     err_code := or_else (k_code k) (ErrorClass.code_of c);
     category := cat;
     retryable := default (bool_decide (cat ∈ _RETRYABLE_BY_DEFAULT)) (k_retryable k);
     err_provider := k_provider k;
     err_provider_code := k_provider_code k;
     err_correlation_id := k_correlation_id k;
     metadata := k_metadata k;
     retry_after_seconds := k_retry_after_seconds k |}.

(** Errors raised with the plain constructor of their class. *)
Definition error (c : ErrorClass.t) (msg : string) (k : kwargs) : exn :=
  EDomain (domain_error_init c msg k).

(** [kwargs.setdefault("retryable", b)] *)
Definition setdefault_retryable (b : bool) (k : kwargs) : kwargs :=
  k <| k_retryable := Some (default b (k_retryable k)) |>.

(** The default each provider error class passes for [retryable]. *)
Definition provider_default_retryable (c : ErrorClass.t) : option bool :=
  match c with
  | ErrorClass.ProviderValidationError | ErrorClass.ProviderAuthenticationError
  | ErrorClass.ProviderNotFoundError | ErrorClass.ProviderResponseError => Some false
  | ErrorClass.ProviderRateLimitError | ErrorClass.ProviderTimeoutError
  | ErrorClass.ProviderUnavailableError => Some true
  | _ => None
  end.

(** The constructors of [ProviderError] and of its keyword-forwarding
    subclasses. *)
Definition provider_error (c : ErrorClass.t) (msg provider : string) (k : kwargs) : domain_error :=
  let k := match provider_default_retryable c with
           | Some b => setdefault_retryable b k
           | None => k
           end in
  domain_error_init c msg (k <| k_provider := Some provider |>).

(** * Constructors with their own signature *)

Definition InvalidStateTransitionError {T} `{StrEnum T} (current requested : T)
    (aggregate_id correlation_id msg : option string) : exn :=
  let cv := value current in
  let rv := value requested in
  error ErrorClass.InvalidStateTransitionError
    (or_else msg ("cannot transition from '" +:+ cv +:+ "' to '" +:+ rv +:+ "'"))
    (no_kwargs <| k_correlation_id := correlation_id |> <| k_retryable := Some false |>
       <| k_metadata := [("current_status", JStr cv); ("requested_status", JStr rv)] ++
            match aggregate_id with
            | Some a => if Str.truthy a then [("aggregate_id", JStr a)] else []
            | None => []
            end |>).

Definition ConcurrencyConflictError (aggregate_id : string) (correlation_id : option string) : exn :=
  error ErrorClass.ConcurrencyConflictError
    "the request was modified concurrently; retry the operation"
    (no_kwargs <| k_correlation_id := correlation_id |> <| k_retryable := Some true |>
       <| k_metadata := [("aggregate_id", JStr aggregate_id)] |>).

Definition UnsupportedOperationError (msg : string) (provider correlation_id : option string)
    (md : dict) : exn :=
  error ErrorClass.UnsupportedOperationError msg
    (no_kwargs <| k_provider := provider |> <| k_correlation_id := correlation_id |>
       <| k_retryable := Some false |> <| k_metadata := md |>).

Definition AuthorizationError (required_scope : string) (correlation_id : option string) : exn :=
  error ErrorClass.AuthorizationError
    ("the required scope '" +:+ required_scope +:+ "' is not granted to this token")
    (no_kwargs <| k_correlation_id := correlation_id |> <| k_retryable := Some false |>
       <| k_metadata := [("required_scope", JStr required_scope)] |>).

Definition ProviderNotConfiguredError (provider : string) (correlation_id : option string) : exn :=
  error ErrorClass.ProviderNotConfiguredError
    ("provider '" +:+ provider +:+ "' is not configured or is disabled")
    (no_kwargs <| k_correlation_id := correlation_id |> <| k_retryable := Some false |>
       <| k_metadata := [("provider", JStr provider)] |>).

Definition CircuitOpenError (provider : string) (retry_after : option Q)
    (correlation_id : option string) : exn :=
  EDomain (provider_error ErrorClass.CircuitOpenError
    ("the circuit breaker for provider '" +:+ provider +:+ "' is open") provider
    (no_kwargs <| k_retryable := Some true |> <| k_retry_after_seconds := retry_after |>
       <| k_correlation_id := correlation_id |>)).

Definition BulkheadRejectedError (provider : string) (limit : Z)
    (correlation_id : option string) : exn :=
  EDomain (provider_error ErrorClass.BulkheadRejectedError
    ("provider '" +:+ provider +:+ "' has no free concurrency slots") provider
    (no_kwargs <| k_retryable := Some true |> <| k_correlation_id := correlation_id |>
       <| k_metadata := [("concurrency_limit", JInt limit)] |>)).

Definition WebhookVerificationError (reason provider : string)
    (correlation_id : option string) : exn :=
  error ErrorClass.WebhookVerificationError "webhook verification failed"
    (no_kwargs <| k_provider := Some provider |> <| k_correlation_id := correlation_id |>
       <| k_retryable := Some false |> <| k_metadata := [("verification_failure", JStr reason)] |>).

Definition LockAcquisitionError (resource : string) (correlation_id : option string) : exn :=
  error ErrorClass.LockAcquisitionError ("could not acquire the lock for '" +:+ resource +:+ "'")
    (no_kwargs <| k_correlation_id := correlation_id |> <| k_retryable := Some true |>
       <| k_metadata := [("resource", JStr resource)] |>).

Definition EventPublicationError (msg : string) (event_id : option string) : exn :=
  error ErrorClass.EventPublicationError msg
    (no_kwargs <| k_retryable := Some true |>
       <| k_metadata := match event_id with
                        | Some i => if Str.truthy i then [("event_id", JStr i)] else []
                        | None => []
                        end |>).

(** * [ErrorDetail] *)

(** [DomainError.detail] copies every attribute but the class and the
    retry-after hint, so an [ErrorDetail] is read off the error directly. *)
Definition detail_to_dict (e : domain_error) : dict :=
  [("code", JStr (err_code e)); ("message", JStr (message e));
   ("category", JStr (value (category e))); ("retryable", JBool (retryable e))] ++
  (if truthy_opt (err_provider e) then [("provider", jopt (err_provider e))] else []) ++
  (if truthy_opt (err_provider_code e) then [("provider_code", jopt (err_provider_code e))] else []) ++
  (if truthy_opt (err_correlation_id e) then [("correlation_id", jopt (err_correlation_id e))] else []) ++
  (if bool_decide (metadata e ≠ []) then [("metadata", JObj (metadata e))] else []).
