(* ===== verification/StateMachine.v ===== *)
(** The request state machine of [domain/state_machine.py]: the transition
    table, the sets derived from it, the projection of provider statuses, and
    the facts about reachability the rest of the development relies on. *)

From S2P Require Import Prelude PyData Enums Errors.

Import RequestStatus.

(** * The transition table *)

Definition _TRANSITIONS (current : RequestStatus.t) : list RequestStatus.t :=
  match current with
  | RECEIVED => [VALIDATING; FAILED; CANCELLED]
  | VALIDATING => [DISPATCHING; FAILED; CANCELLED]
  | DISPATCHING => [PENDING; SUCCEEDED; FAILED; RETRY_SCHEDULED; MANUAL_REVIEW; CANCELLED]
  | PENDING => [SUCCEEDED; FAILED; CANCELLED; MANUAL_REVIEW]
  | FAILED => [RETRY_SCHEDULED; MANUAL_REVIEW; CANCELLED]
  | RETRY_SCHEDULED => [DISPATCHING; FAILED; CANCELLED; MANUAL_REVIEW]
  | MANUAL_REVIEW => [DISPATCHING; RETRY_SCHEDULED; SUCCEEDED; FAILED; CANCELLED]
  | SUCCEEDED => []
  | CANCELLED => []
  end.

Definition CLAIMABLE_FOR_RETRY : list RequestStatus.t := [RETRY_SCHEDULED].
Definition RECONCILABLE_STATUSES : list RequestStatus.t := [DISPATCHING; PENDING].
Definition MANUALLY_RETRYABLE_STATUSES : list RequestStatus.t := [FAILED; MANUAL_REVIEW].
Definition CANCELLABLE_STATUSES : list RequestStatus.t :=
  [RECEIVED; VALIDATING; PENDING; RETRY_SCHEDULED; FAILED; MANUAL_REVIEW].

Definition _STATUS_PROJECTION (s : NormalizedStatus.t) : option RequestStatus.t :=
  match s with
  | NormalizedStatus.ACCEPTED => Some PENDING
  | NormalizedStatus.PENDING => Some PENDING
  | NormalizedStatus.SUCCEEDED => Some SUCCEEDED
  | NormalizedStatus.FAILED => Some FAILED
  | NormalizedStatus.CANCELLED => Some CANCELLED
  | NormalizedStatus.UNKNOWN => None
  end.

Definition allowed_transitions (current : RequestStatus.t) : list RequestStatus.t :=
  _TRANSITIONS current.

Definition can_transition (current requested : RequestStatus.t) : bool :=
  bool_decide (requested ∈ _TRANSITIONS current).

(** [assert_transition_allowed]: [None] when the transition is legal, the
    exception it raises otherwise. *)
Definition assert_transition_allowed (current requested : RequestStatus.t)
    (aggregate_id correlation_id : option string) : outcome exn unit :=
  if negb (can_transition current requested)
  then Raise (InvalidStateTransitionError current requested aggregate_id correlation_id None)
  else Ret tt.

Definition project_normalized_status (s : NormalizedStatus.t) : option RequestStatus.t :=
  _STATUS_PROJECTION s.

Definition is_forward_progress (current candidate : RequestStatus.t) : bool :=
  if bool_decide (current = candidate) then false
  else if is_terminal current then false
  else can_transition current candidate.

(** * Lifecycles *)

(** One legal status change, and a lifecycle: any number of them. *)
Definition transition (s t : RequestStatus.t) : Prop := can_transition s t = true.
Definition lifecycle : RequestStatus.t → RequestStatus.t → Prop := rtc transition.

#[export] Instance transition_dec : RelDecision transition.
Proof. intros s t. unfold transition. apply _. Defined.

(** A replay of recorded [(previous, current)] pairs: each starts where the
    one before ended, and each is legal. *)
Fixpoint replays (s : RequestStatus.t) (l : list (RequestStatus.t * RequestStatus.t))
    (t : RequestStatus.t) : Prop :=
  match l with
  | [] => s = t
  | (a, b) :: l' => s = a ∧ transition a b ∧ replays b l' t
  end.

Lemma replays_app s l1 l2 t :
  replays s (l1 ++ l2) t ↔ ∃ u, replays s l1 u ∧ replays u l2 t.
Proof.
  revert s. induction l1 as [|[a b] l1 IH]; intros s; cbn; [naive_solver|].
  rewrite IH. naive_solver.
Qed.

Lemma replays_snoc s l a b :
  replays s l a → transition a b → replays s (l ++ [(a, b)]) b.
Proof. intros Hl Hab. apply replays_app. exists a. by cbn. Qed.

Lemma replays_lifecycle s l t : replays s l t → lifecycle s t.
Proof.
  revert s. induction l as [|[a b] l IH]; intros s; cbn; [by intros ->|].
  intros (-> & Hab & Hl). by eapply rtc_l; [|apply IH].
Qed.

Lemma transition_irrefl s : ¬ transition s s.
Proof. by destruct s. Qed.

Lemma transition_not_terminal s t : transition s t → is_terminal s = false.
Proof. by destruct s, t. Qed.

Lemma lifecycle_terminal s t : lifecycle s t → is_terminal s = true → t = s.
Proof.
  intros Hl Hs. inversion Hl as [|? u ? Hsu]; [done|].
  apply transition_not_terminal in Hsu. congruence.
Qed.

Lemma forward_progress_transition s t :
  is_forward_progress s t = true ↔ transition s t.
Proof. unfold transition. by destruct s, t. Qed.

Lemma assert_transition_ok s t a c :
  transition s t → assert_transition_allowed s t a c = Ret tt.
Proof. unfold assert_transition_allowed, transition. by intros ->. Qed.

Lemma assert_transition_raises s t a c :
  ¬ transition s t →
  assert_transition_allowed s t a c = Raise (InvalidStateTransitionError s t a c None).
Proof.
  unfold assert_transition_allowed, transition. by destruct (can_transition s t).
Qed.

(** The order in which a request moves when nothing sends it back to the
    provider. *)
Definition stage (s : RequestStatus.t) : nat :=
  match s with
  | RECEIVED => 0 | VALIDATING => 1 | DISPATCHING => 2 | PENDING => 3
  | FAILED => 4 | RETRY_SCHEDULED => 5 | MANUAL_REVIEW => 5
  | SUCCEEDED => 6 | CANCELLED => 6
  end.

(** Statuses from which the provider is called again. *)
Definition resumes (s : RequestStatus.t) : bool :=
  bool_decide (s ∈ [RETRY_SCHEDULED; MANUAL_REVIEW]).

Lemma stage_increases s t : transition s t → resumes s = false → (stage s < stage t)%nat.
Proof. unfold transition. destruct s, t; cbn; (done || lia). Qed.

(** * Theorems *)

(** The terminal statuses of the enum are exactly the statuses with no
    outgoing transition, and a lifecycle that reaches one stays there: the two
    places that define "terminal" agree and no sequence of legal changes ever
    leaves a terminal status. *)
Theorem terminal_iff_absorbing (s : RequestStatus.t) :
  is_terminal s = true ↔ ∀ t, lifecycle s t → t = s.
Proof.
  split; [intros Hs t Hl; by apply lifecycle_terminal|].
  intros Habs. destruct (is_terminal s) eqn:Hs; [done|].
  assert (CANCELLED = s) as <-; [|done].
  apply Habs, rtc_once. unfold transition. by destruct s.
Qed.

(** Every lifecycle between two statuses that never leaves RETRY_SCHEDULED
    or MANUAL_REVIEW has at most six changes: without a retry or an operator a
    request cannot loop, so DISPATCHING (a provider call) is entered at most
    once. *)
Theorem no_loop_without_retry (n : nat) (s t : RequestStatus.t) :
  nsteps (λ a b, transition a b ∧ resumes a = false) n s t → (n ≤ 6)%nat.
Proof.
  intros Hn. assert (n + stage s ≤ stage t)%nat as Hb.
  { induction Hn as [|n a b c [Hab Ha] _ IH]; [done|].
    pose proof (stage_increases a b Hab Ha). lia. }
  assert (stage t ≤ 6)%nat by (destruct t; cbn; lia). lia.
Qed.

Lemma no_loop_without_retry_witness : (3 ≤ 6)%nat.
Proof.
  apply (no_loop_without_retry 3 RECEIVED PENDING).
  apply (nsteps_l _ _ _ VALIDATING); [done|].
  apply (nsteps_l _ _ _ DISPATCHING); [done|].
  apply (nsteps_l _ _ _ PENDING); [done|]. constructor.
Defined.

(** Out-of-order provider news is harmless: whatever status a provider
    reports, and whatever was reported before it, news that
    [is_forward_progress] accepts is a legal transition, a request whose
    outcome is final accepts none, and a repeated report is never accepted. *)
Theorem out_of_order_harmless (s : RequestStatus.t) (n : NormalizedStatus.t) (c : RequestStatus.t) :
  project_normalized_status n = Some c →
  (is_forward_progress s c = true → can_transition s c = true ∧ is_terminal s = false) ∧
  (is_terminal s = true → is_forward_progress s c = false) ∧
  is_forward_progress c c = false.
Proof. intros Hn. destruct s, n; simplify_eq/=; naive_solver. Qed.

Lemma out_of_order_harmless_witness :
  is_forward_progress SUCCEEDED PENDING = false ∧ is_forward_progress PENDING SUCCEEDED = true.
Proof.
  split; [|reflexivity].
  apply (out_of_order_harmless SUCCEEDED NormalizedStatus.PENDING PENDING); reflexivity.
Defined.
