(* ===== verification/Sha256.v ===== *)
(** [hashlib.sha256] and [hmac] as the program calls them: bytes are integers
    below 256, words are integers reduced modulo 2^32. *)

From S2P Require Import Prelude PyData.

(** * Words *)

Definition word (n : Z) : Z := n mod 2 ^ 32.
Definition rotr (k x : Z) : Z :=
  Z.lor (Z.shiftr x k) (word (Z.shiftl x (32 - k))).
Definition wnot (x : Z) : Z := Z.lxor x 0xffffffff.

Definition big_sigma0 (x : Z) : Z := Z.lxor (rotr 2 x) (Z.lxor (rotr 13 x) (rotr 22 x)).
Definition big_sigma1 (x : Z) : Z := Z.lxor (rotr 6 x) (Z.lxor (rotr 11 x) (rotr 25 x)).
Definition small_sigma0 (x : Z) : Z := Z.lxor (rotr 7 x) (Z.lxor (rotr 18 x) (Z.shiftr x 3)).
Definition small_sigma1 (x : Z) : Z := Z.lxor (rotr 17 x) (Z.lxor (rotr 19 x) (Z.shiftr x 10)).
Definition ch (x y z : Z) : Z := Z.lxor (Z.land x y) (Z.land (wnot x) z).
Definition maj (x y z : Z) : Z := Z.lxor (Z.land x y) (Z.lxor (Z.land x z) (Z.land y z)).

(** The constants, as FIPS 180-4 defines them: the first 32 bits of the
    fractional parts of the square roots of the first eight primes and of the
    cube roots of the first sixty-four. *)
Definition is_prime (n : nat) : bool :=
  (1 <? n)%nat && forallb (λ d, negb (n mod d =? 0)%nat) (seq 2 (n - 2)).
Definition primes_below (n : nat) : list Z := Z.of_nat <$> List.filter is_prime (seq 0 n).

(** The greatest [r] with [r ^ 3 <= x], found bit by bit. *)
Fixpoint cube_root_from (bits : nat) (r x : Z) : Z :=
  match bits with
  | O => r
  | S b =>
      let r' := r + 2 ^ Z.of_nat b in
      cube_root_from b (if r' * r' * r' <=? x then r' else r) x
  end.

Definition round_constants : list Z := Eval vm_compute in
  (λ p, word (cube_root_from 36 0 (p * 2 ^ 96))) <$> primes_below 312.
Definition initial_hash : list Z := Eval vm_compute in
  (λ p, word (Z.sqrt (p * 2 ^ 64))) <$> primes_below 20.

(** * The compression function *)

(** The message schedule, newest word first: [w] holds the sixteen (or more)
    words computed so far. *)
Fixpoint schedule (n : nat) (w : list Z) : list Z :=
  match n with
  | O => w
  | S n' =>
      let x := word (small_sigma1 (nth 1 w 0) + nth 6 w 0 + small_sigma0 (nth 14 w 0) + nth 15 w 0) in
      schedule n' (x :: w)
  end.

Definition round (st : list Z) (kw : Z * Z) : list Z :=
  match st with
  | [a; b; c; d; e; f; g; h] =>
      let t1 := word (h + big_sigma1 e + ch e f g + kw.1 + kw.2) in
      let t2 := word (big_sigma0 a + maj a b c) in
      [word (t1 + t2); a; b; c; word (d + t1); e; f; g]
  | _ => st
  end.

Definition compress (st block : list Z) : list Z :=
  let w := rev (schedule 48 (rev block)) in
  zip_with (λ a b, word (a + b)) st (foldl round st (zip round_constants w)).

(** * Padding and output *)

Fixpoint bytes_of (k : nat) (n : Z) : list Z :=
  match k with
  | O => []
  | S k' => bytes_of k' (n / 256) ++ [n mod 256]
  end.

Definition pad (m : list Z) : list Z :=
  let len := length m in
  let zeros := ((119 - len mod 64) mod 64)%nat in
  m ++ [128] ++ replicate zeros 0 ++ bytes_of 8 (8 * Z.of_nat len).

Fixpoint words_of (m : list Z) : list Z :=
  match m with
  | a :: b :: c :: d :: m' => (((a * 256 + b) * 256 + c) * 256 + d) :: words_of m'
  | _ => []
  end.

(** Blocks of sixteen words; the fuel is the number of words, an upper bound on
    the number of blocks. *)
Fixpoint blocks (fuel : nat) (w : list Z) : list (list Z) :=
  match fuel with
  | O => []
  | S fuel' => match w with
               | [] => []
               | _ => take 16 w :: blocks fuel' (drop 16 w)
               end
  end.

Definition sha256 (m : list Z) : list Z :=
  let w := words_of (pad m) in
  mjoin (bytes_of 4 <$> foldl compress initial_hash (blocks (length w) w)).

Definition hex_digit (n : Z) : Ascii.ascii :=
  Ascii.ascii_of_nat (Z.to_nat (if n <? 10 then 48 + n else 87 + n)).
Fixpoint hex_of_bytes (m : list Z) : string :=
  match m with
  | [] => ""
  | b :: m' => String (hex_digit (b / 16)) (String (hex_digit (b mod 16)) (hex_of_bytes m'))
  end.

(** [s.encode("utf-8")] *)
Fixpoint utf8 (s : string) : list Z :=
  match s with
  | EmptyString => []
  | String c s' =>
      let n := Str.code c in
      (if n <? 128 then [n] else [192 + n / 64; 128 + n mod 64]) ++ utf8 s'
  end.

(** [hashlib.sha256(m).hexdigest()] *)
Definition sha256_hexdigest (m : list Z) : string := hex_of_bytes (sha256 m).

(** [hmac.new(key, m, hashlib.sha256).digest()] *)
Definition hmac_sha256 (key m : list Z) : list Z :=
  let key := if (64 <? length key)%nat then sha256 key else key in
  let key := key ++ replicate (64 - length key) 0 in
  sha256 ((Z.lxor 0x5c <$> key) ++ sha256 ((Z.lxor 0x36 <$> key) ++ m)).

(** * The digest has 64 characters *)

Lemma length_compress st block : length st = 8%nat → length (compress st block) = 8%nat.
Proof.
  intros Hst. unfold compress. rewrite length_zip_with.
  assert (∀ l st0, length st0 = 8%nat → length (foldl round st0 l) = 8%nat) as Hf.
  { induction l as [|kw l IH]; intros st0 H0; [done|]. apply IH.
    do 9 (destruct st0 as [|? st0]; [done|]). done. }
  rewrite Hf by done. lia.
Qed.

Lemma length_bytes_of k n : length (bytes_of k n) = k.
Proof. revert n. induction k as [|k IH]; intros n; cbn; [done|]. rewrite length_app, IH. cbn. lia. Qed.

Lemma length_sha256 m : length (sha256 m) = 32%nat.
Proof.
  unfold sha256. set (b := blocks _ _).
  assert (length (foldl compress initial_hash b) = 8%nat) as Hf.
  { generalize initial_hash (eq_refl : length initial_hash = 8%nat).
    induction b as [|x b IH]; intros st Hst; [done|]. by apply IH, length_compress. }
  destruct (foldl _ _ _) as [|h0 st]; [done|].
  do 8 (destruct st as [|? st]; [done|]). done.
Qed.

Lemma length_hex_of_bytes m : String.length (hex_of_bytes m) = (2 * length m)%nat.
Proof. induction m as [|b m IH]; [done|]. cbn. rewrite IH. lia. Qed.

Lemma sha256_hexdigest_length m : String.length (sha256_hexdigest m) = 64%nat.
Proof. unfold sha256_hexdigest. by rewrite length_hex_of_bytes, length_sha256. Qed.

(** * Test vectors *)

Example sha256_empty :
  sha256_hexdigest (utf8 "") = "e3b0c44298fc1c149afbf4c8996fb92427ae41e4649b934ca495991b7852b855".
Proof. vm_compute. reflexivity. Qed.

Example sha256_abc :
  sha256_hexdigest (utf8 "abc") = "ba7816bf8f01cfea414140de5dae2223b00361a396177a9cb410ff61f20015ad".
Proof. vm_compute. reflexivity. Qed.

Example sha256_two_blocks :
  sha256_hexdigest (utf8 "abcdbcdecdefdefgefghfghighijhijkijkljklmklmnlmnomnopnopq") =
  "248d6a61d20638b8e5c026930c3e6039a33ce45964ff2167f6ecedd419db06c1".
Proof. vm_compute. reflexivity. Qed.

Example hmac_rfc4231_2 :
  hex_of_bytes (hmac_sha256 (utf8 "Jefe") (utf8 "what do ya want for nothing?")) =
  "5bdcc146bf60754e6a042426089575c75a003f089d2739839dec58b964ec3843".
Proof. vm_compute. reflexivity. Qed.
