(* ===== verification/Ed25519.v ===== *)
(** The public key of an Ed25519 seed, as RFC 8032 (section 5.1.5) computes it:
    SHA-512, the clamped scalar, its multiple of the base point on the twisted
    Edwards curve over the integers modulo 2^255 - 19, and the encoding of a point.
    The cryptography package that signs and verifies stays a parameter of the
    model; this file is what its key derivation is documented to be. *)

From S2P Require Import Prelude PyData Sha256.

(** * SHA-512 (FIPS 180-4), on 64-bit words *)

Module Sha512.
Definition word (n : Z) : Z := n mod 2 ^ 64.
Definition rotr (k x : Z) : Z := Z.lor (Z.shiftr x k) (word (Z.shiftl x (64 - k))).
Definition wnot (x : Z) : Z := Z.lxor x 0xffffffffffffffff.
Definition xor3 (x y z : Z) : Z := Z.lxor x (Z.lxor y z).
Definition big_sigma0 (x : Z) : Z := xor3 (rotr 28 x) (rotr 34 x) (rotr 39 x).
Definition big_sigma1 (x : Z) : Z := xor3 (rotr 14 x) (rotr 18 x) (rotr 41 x).
Definition small_sigma0 (x : Z) : Z := xor3 (rotr 1 x) (rotr 8 x) (Z.shiftr x 7).
Definition small_sigma1 (x : Z) : Z := xor3 (rotr 19 x) (rotr 61 x) (Z.shiftr x 6).

(** The first 64 bits of the fractional parts of the cube roots of the first
    eighty primes and of the square roots of the first eight. *)
Definition round_constants : list Z := Eval vm_compute in
  (λ p, word (cube_root_from 68 0 (p * 2 ^ 192))) <$> primes_below 410.
Definition initial_hash : list Z := Eval vm_compute in
  (λ p, word (Z.sqrt (p * 2 ^ 128))) <$> primes_below 20.

Fixpoint schedule (n : nat) (w : list Z) : list Z :=
  match n with
  | O => w
  | S n' =>
      schedule n' (word (small_sigma1 (nth 1 w 0) + nth 6 w 0 + small_sigma0 (nth 14 w 0) + nth 15 w 0) :: w)
  end.
Definition round (st : list Z) (kw : Z * Z) : list Z :=
  match st with
  | [a; b; c; d; e; f; g; h] =>
      let t1 := word (h + big_sigma1 e + Z.lxor (Z.land e f) (Z.land (wnot e) g) + kw.1 + kw.2) in
      let t2 := word (big_sigma0 a + xor3 (Z.land a b) (Z.land a c) (Z.land b c)) in
      [word (t1 + t2); a; b; c; word (d + t1); e; f; g]
  | _ => st
  end.
Definition compress (st block : list Z) : list Z :=
  zip_with (λ a b, word (a + b)) st (foldl round st (zip round_constants (rev (schedule 64 (rev block))))).

Definition pad (m : list Z) : list Z :=
  let len := length m in
  m ++ [128] ++ replicate ((239 - len mod 128) mod 128)%nat 0 ++ bytes_of 16 (8 * Z.of_nat len).
Fixpoint words_of (fuel : nat) (m : list Z) : list Z :=
  match fuel, m with
  | S fuel', _ :: _ => foldl (λ n b, n * 256 + b) 0 (take 8 m) :: words_of fuel' (drop 8 m)
  | _, _ => []
  end.
Definition sha512 (m : list Z) : list Z :=
  let padded := pad m in
  let w := words_of (length padded) padded in
  mjoin (bytes_of 8 <$> foldl compress initial_hash (blocks (length w) w)).

(** The digests that FIPS 180-4's examples give, up to the leading bytes. *)
Example sha512_abc : take 8 (sha512 (utf8 "abc")) = [0xdd; 0xaf; 0x35; 0xa1; 0x93; 0x61; 0x7a; 0xba].
Proof. vm_compute. reflexivity. Qed.
Example sha512_two_blocks :
  take 8 (sha512 (utf8 (String.concat "" ["abcdefghbcdefghicdefghijdefghijkefghijklfghijklmghijklmn";
                                           "hijklmnoijklmnopjklmnopqklmnopqrlmnopqrsmnopqrstnopqrstu"]))) =
    [0x8e; 0x95; 0x9b; 0x75; 0xda; 0xe3; 0x13; 0xda].
Proof. vm_compute. reflexivity. Qed.
End Sha512.

(** * The curve *)

Module Rfc8032.
Definition p25519 : Z := 2 ^ 255 - 19.
(** Reduction modulo the prime, without division: 2^255 is 19 there. *)
Definition fold19 (x : Z) : Z := Z.land x (2 ^ 255 - 1) + 19 * Z.shiftr x 255.
Definition reduce (x : Z) : Z := fold19 (fold19 x).
Lemma fold19_mod x : fold19 x mod p25519 = x mod p25519.
Proof.
  unfold fold19. change (2 ^ 255 - 1) with (Z.ones 255). rewrite Z.land_ones, Z.shiftr_div_pow2 by lia.
  rewrite (Z.div_mod x (2 ^ 255)) at 3 by lia.
  replace (2 ^ 255 * (x / 2 ^ 255) + x mod 2 ^ 255)
    with (x mod 2 ^ 255 + 19 * (x / 2 ^ 255) + x / 2 ^ 255 * p25519) by (unfold p25519; lia).
  by rewrite Z_mod_plus_full.
Qed.
Lemma reduce_mod x : reduce x mod p25519 = x mod p25519.
Proof. unfold reduce. by rewrite !fold19_mod. Qed.

(** [x ^ n] modulo the prime, [n] by its binary digits. *)
Fixpoint power_mod (x : Z) (n : positive) : Z :=
  match n with
  | xH => x
  | xO n' => power_mod (reduce (x * x)) n'
  | xI n' => reduce (x * power_mod (reduce (x * x)) n')
  end.
Definition inverse (x : Z) : Z := power_mod (x mod p25519) (Z.to_pos (p25519 - 2)).
Definition curve_d : Z := Eval vm_compute in (-121665) * inverse 121666 mod p25519.

(** Points in extended homogeneous coordinates [X], [Y], [Z], [T]: the complete
    addition, and the doubling it gives for equal points (RFC 8032, section 5.1.4). *)
Record point := mk_point { px : Z; py : Z; pz : Z; pt : Z }.
Definition twice_d : Z := Eval vm_compute in 2 * curve_d mod p25519.
Definition of_halves (e f g h : Z) : point :=
  mk_point (reduce (e * f)) (reduce (g * h)) (reduce (f * g)) (reduce (e * h)).
Definition point_add (p q : point) : point :=
  let a := reduce ((py p - px p) * (py q - px q)) in
  let b := reduce ((py p + px p) * (py q + px q)) in
  let c := reduce (reduce (pt p * pt q) * twice_d) in
  let d := reduce (2 * pz p * pz q) in
  of_halves (b - a) (d - c) (d + c) (b + a).
Definition point_double (p : point) : point :=
  let a := reduce (px p * px p) in
  let b := reduce (py p * py p) in
  let c := reduce (2 * pz p * pz p) in
  let h := a + b in
  let x := px p + py p in
  let g := a - b in
  of_halves (reduce (h - x * x)) (reduce (c + g)) g h.
Fixpoint point_mul (n : positive) (p : point) : point :=
  match n with
  | xH => p
  | xO n' => point_mul n' (point_double p)
  | xI n' => point_add p (point_mul n' (point_double p))
  end.

(** The even root of the curve equation at [y]. *)
Definition sqrt_minus_one : Z := Eval vm_compute in power_mod 2 (Z.to_pos ((p25519 - 1) / 4)) mod p25519.
Definition recover_even_x (y : Z) : Z :=
  let x2 := (y * y - 1) * inverse (curve_d * y * y + 1) mod p25519 in
  let x := power_mod x2 (Z.to_pos ((p25519 + 3) / 8)) mod p25519 in
  let x := if (x * x - x2) mod p25519 =? 0 then x else x * sqrt_minus_one mod p25519 in
  if Z.even x then x else p25519 - x.
Definition base_point : point := Eval vm_compute in
  let y := 4 * inverse 5 mod p25519 in
  let x := recover_even_x y in mk_point x y 1 (x * y mod p25519).
Example base_point_on_the_curve :
  (py base_point ^ 2 - px base_point ^ 2 - 1 - curve_d * px base_point ^ 2 * py base_point ^ 2) mod p25519 = 0.
Proof. vm_compute. reflexivity. Qed.

(** * The key *)

Definition little_endian (m : list Z) : Z := foldr (λ b n, b + 256 * n) 0 m.
Definition point_compress (p : point) : list Z :=
  let i := inverse (pz p) in
  let x := px p * i mod p25519 in
  let y := py p * i mod p25519 in
  rev (bytes_of 32 (Z.lor y (Z.shiftl (Z.land x 1) 255))).
(** The lowest three bits and the highest cleared, the second highest set. *)
Definition clamp (n : Z) : Z := Z.lor (Z.land n (2 ^ 254 - 8)) (2 ^ 254).
Definition public_key (seed : list Z) : list Z :=
  point_compress (point_mul (Z.to_pos (clamp (little_endian (take 32 (Sha512.sha512 seed))))) base_point).

(** A key is thirty-two bytes. *)
Lemma bytes_of_length k : ∀ n, length (bytes_of k n) = k.
Proof. induction k as [|k IH]; intros n; [done|]. cbn. rewrite length_app, IH. cbn. lia. Qed.
Lemma bytes_of_range k : ∀ n, Forall (λ b, 0 ≤ b < 256) (bytes_of k n).
Proof.
  induction k as [|k IH]; intros n; [constructor|]. cbn. apply Forall_app. split; [apply IH|].
  repeat constructor; apply Z.mod_pos_bound; lia.
Qed.
Lemma public_key_bytes seed : Forall (λ b, 0 ≤ b < 256) (public_key seed) ∧ public_key seed ≠ [].
Proof.
  unfold public_key, point_compress. split; [apply Forall_rev, bytes_of_range|].
  intros Hn. apply (f_equal length) in Hn. by rewrite length_rev, bytes_of_length in Hn.
Qed.
End Rfc8032.
