(* ===== verification/PyText.v ===== *)
(** Text functions of the Python library that read input from outside:
    [str.split] and its relatives, [int(text)], [float(text)], UTF-8, base64 and
    [UUID(text)].

    [None] is the [ValueError] (or a subclass of it) that Python raises. *)

From S2P Require Import Prelude PyData PyTime Sha256.
From Stdlib Require Import HexadecimalString HexadecimalN.

(** * Strings *)

Lemma length_append (s t : string) : String.length (s +:+ t) = (String.length s + String.length t)%nat.
Proof. induction s as [|c s IH]; [done|]. change (S (String.length (s +:+ t)) = S (String.length s + String.length t)). by rewrite IH. Qed.
Lemma append_cons c (s t : string) : String c s +:+ t = String c (s +:+ t).
Proof. done. Qed.
Lemma append_nil_l (t : string) : "" +:+ t = t.
Proof. done. Qed.
Lemma all_chars_append p (s t : string) :
  Str.all_chars p (s +:+ t) = Str.all_chars p s && Str.all_chars p t.
Proof. induction s as [|c s IH]; [done|]. rewrite append_cons. cbn. by rewrite IH, andb_assoc. Qed.

Module Text.
Definition chr (n : Z) : Ascii.ascii := Ascii.ascii_of_nat (Z.to_nat n).
Definition is_code (n : Z) (c : Ascii.ascii) : bool := Str.code c =? n.
Definition is_digit (c : Ascii.ascii) : bool := (48 <=? Str.code c) && (Str.code c <=? 57).

(** [s.replace(pat, rep)] for a pattern that is not empty; [skip] characters of
    a match are still to be dropped. *)
Fixpoint replace_from (pat rep : string) (skip : nat) (s : string) : string :=
  match s with
  | EmptyString => EmptyString
  | String c s' =>
      match skip with
      | S k => replace_from pat rep k s'
      | O => if String.prefix pat s then rep +:+ replace_from pat rep (String.length pat - 1) s'
             else String c (replace_from pat rep O s')
      end
  end.
Definition replace (pat rep s : string) : string := replace_from pat rep O s.

(** [s.strip(chars)], the characters given by a predicate. *)
Fixpoint lstrip_of (p : Ascii.ascii → bool) (s : string) : string :=
  match s with
  | String c s' => if p c then lstrip_of p s' else s
  | EmptyString => EmptyString
  end.
Fixpoint rstrip_of (p : Ascii.ascii → bool) (s : string) : string :=
  match s with
  | EmptyString => EmptyString
  | String c s' =>
      match rstrip_of p s' with
      | EmptyString => if p c then EmptyString else String c EmptyString
      | t => String c t
      end
  end.
Definition strip_of (p : Ascii.ascii → bool) (s : string) : string := rstrip_of p (lstrip_of p s).

(** [s.split(c)] *)
Fixpoint split (p : Ascii.ascii → bool) (s : string) : list string :=
  match s with
  | EmptyString => [""]
  | String c s' =>
      if p c then "" :: split p s'
      else match split p s' with
           | w :: ws => String c w :: ws
           | [] => [String c ""]
           end
  end.
(** [s.split()] *)
Definition words (s : string) : list string := List.filter Str.truthy (split Str.isspace s).

(** [s.partition(c)[2]] when [c] occurs in [s]. *)
Fixpoint after_first (p : Ascii.ascii → bool) (s : string) : option string :=
  match s with
  | EmptyString => None
  | String c s' => if p c then Some s' else after_first p s'
  end.

(** [s.find(c)] *)
Fixpoint find_from (p : Ascii.ascii → bool) (i : nat) (s : string) : option nat :=
  match s with
  | EmptyString => None
  | String c s' => if p c then Some i else find_from p (S i) s'
  end.
Definition find (p : Ascii.ascii → bool) (s : string) : option nat := find_from p O s.
(** [s[n:]] *)
Fixpoint drop (n : nat) (s : string) : string :=
  match n, s with
  | S n', String _ s' => drop n' s'
  | _, _ => s
  end.
Fixpoint last_char (s : string) : option Ascii.ascii :=
  match s with
  | EmptyString => None
  | String c EmptyString => Some c
  | String _ s' => last_char s'
  end.
(** [s[:-1]] *)
Definition but_last (s : string) : string := Str.take (String.length s - 1) s.

Definition upper_char (c : Ascii.ascii) : Ascii.ascii :=
  let n := Str.code c in
  if ((97 <=? n) && (n <=? 122)) || ((224 <=? n) && (n <=? 254) && negb (n =? 247)) then chr (n - 32) else c.
(** [s.isascii()] *)
Definition isascii (s : string) : bool := Str.all_chars (λ c, Str.code c <? 128) s.
End Text.

(** * Numbers *)

Module Num.
Definition digit_value (c : Ascii.ascii) : option Z :=
  let n := Str.code c in
  if (48 <=? n) && (n <=? 57) then Some (n - 48)
  else if (97 <=? n) && (n <=? 122) then Some (n - 87)
  else if (65 <=? n) && (n <=? 90) then Some (n - 55) else None.
Definition digit_in (base : Z) (c : Ascii.ascii) : option Z :=
  match digit_value c with
  | Some d => if d <? base then Some d else None
  | None => None
  end.

(** Digits with single underscores between them; [after] says the last
    character was a digit. *)
Fixpoint digits (base acc : Z) (after : bool) (s : string) : option Z :=
  match s with
  | EmptyString => if after then Some acc else None
  | String c s' =>
      if Text.is_code 95 c then (if after then digits base acc false s' else None)
      else match digit_in base c with
           | Some d => digits base (acc * base + d) true s'
           | None => None
           end
  end.
Definition count_digits (s : string) : Z :=
  Z.of_nat (length (List.filter Text.is_digit (String.list_ascii_of_string s))).

Definition signed (s : string) : Z * string :=
  match s with
  | String c s' => if Text.is_code 45 c then (-1, s') else if Text.is_code 43 c then (1, s') else (1, s)
  | EmptyString => (1, s)
  end.

(** [int(s)]; the interpreter refuses more than 4300 digits. *)
Definition int (s : string) : option Z :=
  let '(sg, d) := signed (Str.strip s) in
  if 4300 <? count_digits d then None else Z.mul sg <$> digits 10 0 false d.

(** [int(s, 16)]: an optional [0x], which an underscore may follow. *)
Definition hex_prefix (s : string) : string :=
  match s with
  | String z (String x s') =>
      if Text.is_code 48 z && (Text.is_code 120 x || Text.is_code 88 x) then
        match s' with
        | String u s'' => if Text.is_code 95 u then s'' else s'
        | EmptyString => s'
        end
      else s
  | _ => s
  end.
Definition int16 (s : string) : option Z :=
  let '(sg, d) := signed (Str.strip s) in Z.mul sg <$> digits 16 0 false (hex_prefix d).

(** [float(s)]. A number beyond the range of the type is an infinity, and an
    infinity is [2 ^ 1024], which exceeds every finite float; [Some None] is
    NaN. *)
Definition infinity : Q := inject_Z (2 ^ 1024).
(** Half a unit in the last place above the greatest finite float. *)
Definition overflow : Q := inject_Z (2 ^ 1024 - 2 ^ 970).
Definition clamp (q : Q) : Q :=
  if Qle_bool overflow q then infinity
  else if Qle_bool q (- overflow) then (- infinity)%Q else q.

(** Underscores stand between digits only; [prev] is the character before. *)
Fixpoint underscores_ok (prev : option Ascii.ascii) (s : string) : bool :=
  let digit_before := match prev with Some p => Text.is_digit p | None => false end in
  let under_before := match prev with Some p => Text.is_code 95 p | None => false end in
  match s with
  | EmptyString => negb under_before
  | String c s' =>
      (if Text.is_code 95 c then digit_before else negb under_before || Text.is_digit c) &&
      underscores_ok (Some c) s'
  end.
Fixpoint without_underscores (s : string) : string :=
  match s with
  | EmptyString => ""
  | String c s' => if Text.is_code 95 c then without_underscores s' else String c (without_underscores s')
  end.

(** The digits at the head of [s]: their value, their number and the rest. *)
Fixpoint span_digits (acc n : Z) (s : string) : Z * Z * string :=
  match s with
  | String c s' =>
      match digit_in 10 c with
      | Some d => span_digits (acc * 10 + d) (n + 1) s'
      | None => (acc, n, s)
      end
  | EmptyString => (acc, n, s)
  end.
Definition power10 (e : Z) : Q := (inject_Z 10 ^ e)%Q.
Definition exponent (s : string) : option Z :=
  match s with
  | EmptyString => Some 0
  | String c s' =>
      if Text.is_code 101 c || Text.is_code 69 c then
        let '(sg, d) := signed s' in
        let '(e, n, rest) := span_digits 0 0 d in
        if (0 <? n) && bool_decide (rest = "") then Some (sg * e) else None
      else None
  end.
Definition decimal (s : string) : option Q :=
  let '(i, ni, s1) := span_digits 0 0 s in
  let '(m, nf, s2) := match s1 with
                      | String c s' => if Text.is_code 46 c then span_digits i 0 s' else (i, 0, s1)
                      | EmptyString => (i, 0, s1)
                      end in
  if 0 <? ni + nf then
    match exponent s2 with
    | Some e => Some (inject_Z m * power10 (e - nf))%Q
    | None => None
    end
  else None.
Definition float (s : string) : option (option Q) :=
  let t := Str.strip s in
  if negb (underscores_ok None t) then None
  else
    let '(sg, d) := signed (without_underscores t) in
    let word := Str.lower d in
    if bool_decide (word = "inf") || bool_decide (word = "infinity") then Some (Some (inject_Z sg * infinity))%Q
    else if bool_decide (word = "nan") then Some None
    else match decimal d with
         | Some q => Some (Some (clamp (inject_Z sg * q)))%Q
         | None => None
         end.

Example float_samples :
  map float [" 12.5 "; "1e3"; ".5e-1"; "-4_0."; "1__0"; "abc"; "1e400"; "NaN"; "."; "+.5e"] =
  [Some (Some (125 # 10)); Some (Some (1000 # 1)); Some (Some (5 # 100)); Some (Some (-40 # 1));
   None; None; Some (Some infinity); Some None; None; None].
Proof. vm_compute. reflexivity. Qed.
Example int_samples :
  map int ["42"; " -7 "; "1_000"; "_1"; "1_"; ""; "4 2"; "+3"] =
  [Some 42; Some (-7); Some 1000; None; None; None; None; Some 3].
Proof. vm_compute. reflexivity. Qed.
End Num.

(** * UTF-8 *)

Module Utf8.
Definition cont (b : Z) : bool := (128 <=? b) && (b <? 192).
Definition between (lo hi b : Z) : bool := (lo <=? b) && (b <=? hi).

(** [data.decode("utf-8")] as code points; [surrogates] is the error handler
    [surrogatepass]. *)
Fixpoint decode (surrogates : bool) (l : list Z) : option (list Z) :=
  match l with
  | [] => Some []
  | a :: l1 =>
      if a <? 128 then cons a <$> decode surrogates l1
      else match l1 with
      | [] => None
      | b :: l2 =>
          if between 194 223 a then
            if cont b then cons ((a - 192) * 64 + (b - 128)) <$> decode surrogates l2 else None
          else match l2 with
          | [] => None
          | c :: l3 =>
              if between 224 239 a then
                if cont b && cont c && (negb (a =? 224) || (160 <=? b)) &&
                   (negb (a =? 237) || (b <? 160) || surrogates)
                then cons ((a - 224) * 4096 + (b - 128) * 64 + (c - 128)) <$> decode surrogates l3 else None
              else match l3 with
              | [] => None
              | d :: l4 =>
                  if between 240 244 a && cont b && cont c && cont d &&
                     (negb (a =? 240) || (144 <=? b)) && (negb (a =? 244) || (b <? 144))
                  then cons ((a - 240) * 262144 + (b - 128) * 4096 + (c - 128) * 64 + (d - 128)) <$>
                         decode surrogates l4
                  else None
              end
          end
      end
  end.

(** Code points as a [string]: those of the model are below 256. *)
Fixpoint text (l : list Z) : option string :=
  match l with
  | [] => Some ""
  | n :: l' => if n <? 256 then String (Text.chr n) <$> text l' else None
  end.
Fixpoint codes (s : string) : list Z :=
  match s with
  | EmptyString => []
  | String c s' => Str.code c :: codes s'
  end.

Lemma code_range c : 0 ≤ Str.code c < 256.
Proof. unfold Str.code. pose proof (Ascii.nat_ascii_bounded c). lia. Qed.
Lemma chr_code c : Text.chr (Str.code c) = c.
Proof. unfold Text.chr, Str.code. rewrite Nat2Z.id. apply Ascii.ascii_nat_embedding. Qed.

Lemma text_codes s : text (codes s) = Some s.
Proof.
  induction s as [|c s IH]; [done|]. cbn. rewrite (proj2 (Z.ltb_lt _ _)) by apply code_range.
  by rewrite IH, chr_code.
Qed.

(** What [encode] writes, [decode] reads back. *)
Lemma decode_utf8 b s : decode b (utf8 s) = Some (codes s).
Proof.
  induction s as [|c s IH]; [done|]. cbn [utf8 codes]. pose proof (code_range c) as Hc.
  destruct (Z.ltb_spec (Str.code c) 128) as [Hlt|Hge]; cbn -[Z.div Z.modulo Z.mul Z.add Z.sub].
  - by rewrite (proj2 (Z.ltb_lt _ _)), IH.
  - assert (2 ≤ Str.code c / 64 < 4 ∧ 0 ≤ Str.code c mod 64 < 64 ∧
            Str.code c = 64 * (Str.code c / 64) + Str.code c mod 64) as (H1 & H2 & H3)
      by (Z.div_mod_to_equations; lia).
    unfold between, cont.
    rewrite (proj2 (Z.ltb_ge (192 + _) 128)), !(proj2 (Z.leb_le _ _)), (proj2 (Z.ltb_lt _ _)) by lia.
    cbn -[Z.div Z.modulo Z.mul Z.add Z.sub]. rewrite IH. cbn -[Z.div Z.modulo Z.mul Z.add Z.sub]. do 2 f_equal. lia.
Qed.
End Utf8.

(** * Base64 *)

Module Base64.
Definition alphabet : string := "ABCDEFGHIJKLMNOPQRSTUVWXYZabcdefghijklmnopqrstuvwxyz0123456789".
(** The digit [n]; the two last ones depend on the alphabet. *)
Definition digit (url : bool) (n : Z) : Ascii.ascii :=
  match String.get (Z.to_nat n) (alphabet +:+ if url then "-_" else "+/") with
  | Some c => c
  | None => Ascii.zero
  end.
(** The value of a character; [url] also reads ["-_"]. *)
Definition value (url : bool) (c : Ascii.ascii) : option Z :=
  let n := Str.code c in
  if (65 <=? n) && (n <=? 90) then Some (n - 65)
  else if (97 <=? n) && (n <=? 122) then Some (n - 71)
  else if (48 <=? n) && (n <=? 57) then Some (n + 4)
  else if (n =? 43) || (url && (n =? 45)) then Some 62
  else if (n =? 47) || (url && (n =? 95)) then Some 63
  else None.
Definition pad : Ascii.ascii := Text.chr 61.

(** [b64encode] and [urlsafe_b64encode] *)
Fixpoint encode (url : bool) (l : list Z) : string :=
  match l with
  | [] => ""
  | [a] => String (digit url (a / 4)) (String (digit url (a mod 4 * 16)) (String pad (String pad "")))
  | [a; b] =>
      String (digit url (a / 4)) (String (digit url (a mod 4 * 16 + b / 16))
        (String (digit url (b mod 16 * 4)) (String pad "")))
  | a :: b :: c :: l' =>
      String (digit url (a / 4)) (String (digit url (a mod 4 * 16 + b / 16))
        (String (digit url (b mod 16 * 4 + c / 64)) (String (digit url (c mod 64)) (encode url l'))))
  end.

(** [binascii.a2b_base64], not strict: characters outside the alphabet are
    skipped, and a full padding ends the data. [quad] is the position in the
    group of four, [left] the bits kept of the last digit. *)
Fixpoint a2b (url : bool) (quad left pads : Z) (s : string) : option (list Z) :=
  match s with
  | EmptyString => if quad =? 0 then Some [] else None
  | String c s' =>
      if bool_decide (c = pad) then
        if 2 <=? quad then
          if 4 <=? quad + (pads + 1) then Some [] else a2b url quad left (pads + 1) s'
        else a2b url quad left pads s'
      else match value url c with
      | None => a2b url quad left pads s'
      | Some v =>
          if quad =? 0 then a2b url 1 v 0 s'
          else if quad =? 1 then cons (left * 4 + v / 16) <$> a2b url 2 (v mod 16) 0 s'
          else if quad =? 2 then cons (left * 16 + v / 4) <$> a2b url 3 (v mod 4) 0 s'
          else cons (left * 64 + v) <$> a2b url 0 0 0 s'
      end
  end.
(** [b64decode(s)], [urlsafe_b64decode(s)]: the text has to be ASCII. *)
Definition decode (url : bool) (s : string) : option (list Z) :=
  if Text.isascii s then a2b url 0 0 0 s else None.

(** ["=" * (-len(s) % 4)] *)
Definition padding (s : string) : string :=
  String.string_of_list_ascii (replicate (Z.to_nat (- Str.len s mod 4)) pad).
(** [s.rstrip("=")] *)
Definition rstrip_pad (s : string) : string := Text.rstrip_of (λ c, bool_decide (c = pad)) s.

Definition byte (n : Z) : Prop := 0 ≤ n < 256.

Lemma all_digits (P : Z → Prop) :
  Forall P (Z.of_nat <$> seq 0 64) → ∀ n, 0 ≤ n < 64 → P n.
Proof.
  rewrite Forall_forall. intros HP n Hn. replace n with (Z.of_nat (Z.to_nat n)) by lia.
  apply HP, list_elem_of_fmap_2, elem_of_seq. lia.
Qed.

Lemma digit_ok url n : 0 ≤ n < 64 →
  value url (digit url n) = Some n ∧ digit url n ≠ pad ∧ (Str.code (digit url n) <? 128) = true.
Proof.
  revert n. apply all_digits. destruct url; apply Forall_forall; intros n Hn;
    repeat (apply elem_of_cons in Hn as [->|Hn]; [by vm_compute|]); by apply not_elem_of_nil in Hn.
Qed.

Lemma a2b_digit url quad left pads n s : 0 ≤ n < 64 →
  a2b url quad left pads (String (digit url n) s) =
    if quad =? 0 then a2b url 1 n 0 s
    else if quad =? 1 then cons (left * 4 + n / 16) <$> a2b url 2 (n mod 16) 0 s
    else if quad =? 2 then cons (left * 16 + n / 4) <$> a2b url 3 (n mod 4) 0 s
    else cons (left * 64 + n) <$> a2b url 0 0 0 s.
Proof.
  intros Hn. destruct (digit_ok url n Hn) as (Hv & Hp & _). cbn [a2b].
  by rewrite bool_decide_false, Hv by done.
Qed.

Lemma a2b_pad2 url left : a2b url 2 left 0 (String pad (String pad "")) = Some [].
Proof. reflexivity. Qed.
Lemma a2b_pad1 url left : a2b url 3 left 0 (String pad "") = Some [].
Proof. reflexivity. Qed.

(** Induction in groups of three. *)
Lemma bytes_ind (P : list Z → Prop) :
  P [] → (∀ a, byte a → P [a]) → (∀ a b, byte a → byte b → P [a; b]) →
  (∀ a b c l, byte a → byte b → byte c → Forall byte l → P l → P (a :: b :: c :: l)) →
  ∀ l, Forall byte l → P l.
Proof.
  intros H0 H1 H2 H3. fix go 1. intros l Hl.
  destruct l as [|a [|b [|c l]]]; [done|..].
  - apply H1. by apply Forall_inv in Hl.
  - apply H2; [by apply Forall_inv in Hl|]. by apply Forall_inv_tail, Forall_inv in Hl.
  - pose proof (Forall_inv Hl). apply Forall_inv_tail in Hl. pose proof (Forall_inv Hl).
    apply Forall_inv_tail in Hl. pose proof (Forall_inv Hl). apply Forall_inv_tail in Hl.
    apply H3; [done..|]. by apply go.
Qed.

Lemma rstrip_pad_cons c s : c ≠ pad → rstrip_pad (String c s) = String c (rstrip_pad s).
Proof.
  intros Hc. unfold rstrip_pad. cbn. destruct (Text.rstrip_of _ s); [|done].
  by rewrite bool_decide_false.
Qed.

Lemma len_cons c s : Str.len (String c s) = Str.len s + 1.
Proof. unfold Str.len. cbn. lia. Qed.
Lemma padding_cons4 a b c d s :
  padding (String a (String b (String c (String d s)))) = padding s.
Proof. unfold padding. rewrite !len_cons. do 3 f_equal. Z.div_mod_to_equations. lia. Qed.

Ltac digit_bounds := unfold byte in *; Z.div_mod_to_equations; lia.

(** What [Cursor.encode] does to bytes, [Cursor.decode] undoes: padding that was
    stripped is put back. *)
Lemma decode_encode url l : Forall byte l →
  decode url (rstrip_pad (encode url l) +:+ padding (rstrip_pad (encode url l))) = Some l.
Proof.
  unfold decode. revert l.
  apply (bytes_ind (λ l, (let s := rstrip_pad (encode url l) in
    if Text.isascii (s +:+ padding s) then a2b url 0 0 0 (s +:+ padding s) else None) = Some l)); [done|..]; cbn zeta.
  - intros a Ha. set (x := a / 4). set (y := a mod 4 * 16).
    assert (0 ≤ x < 64 ∧ 0 ≤ y < 64) as [Hx Hy] by (subst x y; digit_bounds).
    destruct (digit_ok url x Hx) as (_ & Hpx & Hax), (digit_ok url y Hy) as (_ & Hpy & Hay).
    cbn [encode]. fold x y. rewrite !rstrip_pad_cons by done.
    change (rstrip_pad (String pad (String pad ""))) with "". rewrite !append_cons.
    change (padding (String _ (String _ ""))) with (String pad (String pad "")). rewrite append_nil_l.
    unfold Text.isascii. cbn [Str.all_chars]. rewrite Hax, Hay.
    change ((_ <? 128) && ((_ <? 128) && true)) with true. cbn [andb]. rewrite a2b_digit by done. cbn [Z.eqb Pos.eqb].
    rewrite a2b_digit by done. cbn [Z.eqb Pos.eqb]. rewrite a2b_pad2.
    cbn -[Z.div Z.modulo Z.mul Z.add]. f_equal. f_equal. subst x y. digit_bounds.
  - intros a b Ha Hb. set (x := a / 4). set (y := a mod 4 * 16 + b / 16). set (z := b mod 16 * 4).
    assert (0 ≤ x < 64 ∧ 0 ≤ y < 64 ∧ 0 ≤ z < 64) as (Hx & Hy & Hz) by (subst x y z; digit_bounds).
    destruct (digit_ok url x Hx) as (_ & Hpx & Hax), (digit_ok url y Hy) as (_ & Hpy & Hay),
      (digit_ok url z Hz) as (_ & Hpz & Haz).
    cbn [encode]. fold x y z. rewrite !rstrip_pad_cons by done.
    change (rstrip_pad (String pad "")) with "". rewrite !append_cons.
    change (padding (String _ (String _ (String _ "")))) with (String pad ""). rewrite append_nil_l.
    unfold Text.isascii. cbn [Str.all_chars]. rewrite Hax, Hay, Haz.
    change ((_ <? 128) && true) with true. cbn [andb]. rewrite a2b_digit by done. cbn [Z.eqb Pos.eqb].
    rewrite a2b_digit by done. cbn [Z.eqb Pos.eqb]. rewrite a2b_digit by done. cbn [Z.eqb Pos.eqb]. rewrite a2b_pad1.
    cbn -[Z.div Z.modulo Z.mul Z.add]. f_equal.
    apply f_equal2; [|apply f_equal2; [|done]]; subst x y z; digit_bounds.
  - intros a b c l Ha Hb Hc Hl IH.
    set (x := a / 4). set (y := a mod 4 * 16 + b / 16). set (z := b mod 16 * 4 + c / 64). set (w := c mod 64).
    assert (0 ≤ x < 64 ∧ 0 ≤ y < 64 ∧ 0 ≤ z < 64 ∧ 0 ≤ w < 64) as (Hx & Hy & Hz & Hw)
      by (subst x y z w; digit_bounds).
    destruct (digit_ok url x Hx) as (_ & Hpx & Hax), (digit_ok url y Hy) as (_ & Hpy & Hay),
      (digit_ok url z Hz) as (_ & Hpz & Haz), (digit_ok url w Hw) as (_ & Hpw & Haw).
    cbn [encode]. fold x y z w. rewrite !rstrip_pad_cons, padding_cons4, !append_cons by done.
    unfold Text.isascii in *. cbn [Str.all_chars]. rewrite Hax, Hay, Haz, Haw. cbn [andb].
    destruct (Str.all_chars _ _); [|done].
    rewrite a2b_digit by done. cbn [Z.eqb Pos.eqb]. rewrite a2b_digit by done. cbn [Z.eqb Pos.eqb].
    rewrite a2b_digit by done. cbn [Z.eqb Pos.eqb]. rewrite a2b_digit by done. cbn [Z.eqb Pos.eqb]. rewrite IH.
    cbn -[Z.div Z.modulo Z.mul Z.add]. f_equal.
    apply f_equal2; [|apply f_equal2; [|apply f_equal2; [|done]]]; subst x y z w; digit_bounds.
Qed.
End Base64.

Lemma utf8_bytes s : Forall Base64.byte (utf8 s).
Proof.
  induction s as [|c s IH]; [constructor|]. cbn. apply Forall_app. split; [|done].
  pose proof (Utf8.code_range c). unfold Base64.byte.
  destruct (Z.ltb_spec (Str.code c) 128); repeat constructor; Z.div_mod_to_equations; lia.
Qed.

(** * UUID text *)

Definition brace (c : Ascii.ascii) : bool := Text.is_code 123 c || Text.is_code 125 c.
(** [UUID(text)] *)
Definition uuid_of (s : string) : option UUID :=
  let h := Text.replace "-" "" (Text.strip_of brace (Text.replace "uuid:" "" (Text.replace "urn:" "" s))) in
  if Str.len h =? 32 then
    match Num.int16 h with
    | Some z => if (0 <=? z) && (z <? 2 ^ 128) then Some (Z.to_N z) else None
    | None => None
    end
  else None.

Module UuidFacts.
(** The value of hexadecimal digits read after [acc]. *)
Fixpoint hexval (acc : Z) (d : Hexadecimal.uint) : Z :=
  match d with
  | Hexadecimal.Nil => acc
  | Hexadecimal.D0 d => hexval (acc * 16 + 0) d
  | Hexadecimal.D1 d => hexval (acc * 16 + 1) d
  | Hexadecimal.D2 d => hexval (acc * 16 + 2) d
  | Hexadecimal.D3 d => hexval (acc * 16 + 3) d
  | Hexadecimal.D4 d => hexval (acc * 16 + 4) d
  | Hexadecimal.D5 d => hexval (acc * 16 + 5) d
  | Hexadecimal.D6 d => hexval (acc * 16 + 6) d
  | Hexadecimal.D7 d => hexval (acc * 16 + 7) d
  | Hexadecimal.D8 d => hexval (acc * 16 + 8) d
  | Hexadecimal.D9 d => hexval (acc * 16 + 9) d
  | Hexadecimal.Da d => hexval (acc * 16 + 10) d
  | Hexadecimal.Db d => hexval (acc * 16 + 11) d
  | Hexadecimal.Dc d => hexval (acc * 16 + 12) d
  | Hexadecimal.Dd d => hexval (acc * 16 + 13) d
  | Hexadecimal.De d => hexval (acc * 16 + 14) d
  | Hexadecimal.Df d => hexval (acc * 16 + 15) d
  end.

Lemma of_hex_uint_acc d p : Zpos (Pos.of_hex_uint_acc d p) = hexval (Zpos p) d.
Proof. revert p. induction d; intros p; cbn [hexval Pos.of_hex_uint_acc]; try rewrite IHd; try done; f_equal; lia. Qed.
Lemma of_hex_uint d : Z.of_N (N.of_hex_uint d) = hexval 0 d.
Proof.
  induction d as [|d IH|d IH|d IH|d IH|d IH|d IH|d IH|d IH|d IH|d IH|d IH|d IH|d IH|d IH|d IH|d IH];
    [done|exact IH|..]; refine (of_hex_uint_acc d _).
Qed.

Lemma digits_string_of_uint d acc b : b = true ∨ d ≠ Hexadecimal.Nil →
  Num.digits 16 acc b (NilEmpty.string_of_uint d) = Some (hexval acc d).
Proof.
  revert acc b. induction d; intros acc b Hb; cbn; try (apply IHd; by left).
  by destruct Hb as [-> |].
Qed.

(** A lower-case hexadecimal digit. *)
Definition is_hex (c : Ascii.ascii) : bool :=
  (48 <=? Str.code c) && (Str.code c <=? 57) || (97 <=? Str.code c) && (Str.code c <=? 102).
Lemma string_of_uint_hex d : Str.all_chars is_hex (NilEmpty.string_of_uint d) = true.
Proof. induction d; cbn; try done. Qed.

Lemma prefix_cons a p c s :
  String.prefix (String a p) (String c s) = Ascii.eqb a c && String.prefix p s.
Proof.
  change (String.prefix (String a p) (String c s)) with
    (if Ascii.ascii_dec a c then String.prefix p s else false).
  destruct (Ascii.ascii_dec a c) as [->|Hne]; [by rewrite Ascii.eqb_refl|].
  apply Ascii.eqb_neq in Hne. by rewrite Hne.
Qed.
Lemma replace_none pat rep s a p :
  pat = String a p → Str.all_chars (λ c, negb (Ascii.eqb a c)) s = true → Text.replace pat rep s = s.
Proof.
  intros -> Hs. unfold Text.replace. induction s as [|c s IH]; [done|].
  cbn [Text.replace_from Str.all_chars] in *. apply andb_true_iff in Hs as [Hc%negb_true_iff Hs].
  rewrite prefix_cons, Hc. cbn [andb]. by rewrite IH.
Qed.
Lemma strip_of_none p s : Str.all_chars (λ c, negb (p c)) s = true → Text.strip_of p s = s.
Proof.
  intros Hs. unfold Text.strip_of. assert (Text.lstrip_of p s = s) as ->.
  { destruct s as [|c s]; [done|]. cbn in *. by apply andb_true_iff in Hs as [->%negb_true_iff _]. }
  induction s as [|c s IH]; [done|]. cbn in Hs |- *. apply andb_true_iff in Hs as [Hc%negb_true_iff Hs].
  rewrite IH by done. destruct s; by rewrite ?Hc.
Qed.
Lemma all_chars_mono (p q : Ascii.ascii → bool) s :
  (∀ c, p c = true → q c = true) → Str.all_chars p s = true → Str.all_chars q s = true.
Proof.
  intros Hpq. induction s as [|c s IH]; cbn; [done|]. rewrite !andb_true_iff. intros [Hc Hs]. auto.
Qed.
Lemma all_chars_list p l :
  Str.all_chars p (String.string_of_list_ascii l) = forallb p l.
Proof. induction l as [|c l IH]; cbn; [done|]. by rewrite IH. Qed.
Lemma list_all_chars p s : forallb p (String.list_ascii_of_string s) = Str.all_chars p s.
Proof. induction s as [|c s IH]; cbn; [done|]. by rewrite IH. Qed.

(** Removing the dashes of a list without others. *)
Lemma replace_dash l :
  Text.replace "-" "" (String.string_of_list_ascii l) =
  String.string_of_list_ascii (List.filter (λ c, negb (Ascii.eqb dash_char c)) l).
Proof.
  unfold Text.replace. induction l as [|c l IH]; [done|].
  cbn [Text.replace_from String.string_of_list_ascii List.filter].
  change "-" with (String dash_char "") at 1. rewrite prefix_cons.
  assert (∀ t, String.prefix "" t = true) as -> by (by intros []).
  destruct (Ascii.eqb dash_char c); cbn [andb negb]; [exact IH|].
  cbn [String.string_of_list_ascii]. by rewrite IH.
Qed.
Lemma filter_hex l : forallb is_hex l = true → List.filter (λ c, negb (Ascii.eqb dash_char c)) l = l.
Proof.
  induction l as [|c l IH]; [done|]. cbn. intros [Hc Hl]%andb_true_iff. rewrite IH by done.
  destruct (Ascii.eqb dash_char c) eqn:Hd; [|done]. apply Ascii.eqb_eq in Hd. by subst.
Qed.

(** Hexadecimal text is free of blanks, signs and prefixes. *)
Lemma is_hex_plain c : is_hex c = true →
  Str.isspace c = false ∧ Text.is_code 45 c = false ∧ Text.is_code 43 c = false ∧
  Text.is_code 120 c = false ∧ Text.is_code 88 c = false.
Proof.
  unfold is_hex, Str.isspace, Text.is_code. rewrite orb_true_iff, !andb_true_iff, !Z.leb_le.
  rewrite !orb_false_iff, !andb_false_iff, !Z.leb_gt, !Z.eqb_neq. lia.
Qed.
Lemma strip_hex s : Str.all_chars is_hex s = true → Str.strip s = s.
Proof.
  intros Hs. assert (Str.all_chars (λ c, negb (Str.isspace c)) s = true) as Hs'.
  { revert Hs. apply all_chars_mono. intros c Hc. by destruct (is_hex_plain c Hc) as [-> _]. }
  clear Hs. unfold Str.strip. assert (Str.lstrip s = s) as ->.
  { destruct s as [|c s]; [done|]. cbn in *. by apply andb_true_iff in Hs' as [->%negb_true_iff _]. }
  induction s as [|c s IH]; [done|]. cbn in Hs' |- *. apply andb_true_iff in Hs' as [Hc%negb_true_iff Hs].
  rewrite IH by done. destruct s; by rewrite ?Hc.
Qed.
Lemma int16_hex32 n : Num.int16 (hex32 n) = Some (Z.of_N n).
Proof.
  unfold Num.int16. assert (Str.all_chars is_hex (hex32 n) = true) as Hh by apply string_of_uint_hex.
  rewrite strip_hex by done.
  assert (Num.digits 16 0 false (hex32 n) = Some (Z.of_N n)) as Hd.
  { unfold hex32. rewrite digits_string_of_uint.
    - rewrite <- of_hex_uint. unfold hex_uint. by rewrite of_hex_uint_pad, HexadecimalN.Unsigned.of_to.
    - right. intros Hnil. pose proof (hex32_length n) as Hl. unfold hex32 in Hl. rewrite Hnil in Hl. cbn in Hl. lia. }
  destruct (hex32 n) as [|a s]; [done|]. cbn [Str.all_chars] in Hh. apply andb_true_iff in Hh as [Ha Hs].
  destruct (is_hex_plain a Ha) as (_ & H1 & H2 & _). unfold Num.signed. rewrite H1, H2.
  assert (Num.hex_prefix (String a s) = String a s) as ->.
  { destruct s as [|b s]; [done|]. cbn [Str.all_chars] in Hs. apply andb_true_iff in Hs as [Hb _].
    destruct (is_hex_plain b Hb) as (_ & _ & _ & H3 & H4). unfold Num.hex_prefix. rewrite H3, H4.
    by rewrite andb_false_r. }
  rewrite Hd. cbn. f_equal. lia.
Qed.

(** What [dash] puts between the digits, and taking it out again. *)
Lemma forallb_Forall {A} (p : A → bool) l : forallb p l = true ↔ Forall (λ x, p x = true) l.
Proof.
  induction l as [|x l IH]; [done|]. cbn. by rewrite andb_true_iff, IH, Forall_cons.
Qed.
Lemma dash_chars l : forallb is_hex l = true →
  forallb (λ c, is_hex c || Ascii.eqb dash_char c) (dash l) = true.
Proof.
  rewrite !forallb_Forall. intros Hl.
  assert (Forall (λ c, is_hex c || Ascii.eqb dash_char c = true) l) as Hl'
    by (eapply Forall_impl; [exact Hl|]; cbn; by intros c ->).
  unfold dash. repeat (apply Forall_app; split); try (by repeat constructor);
    eauto using Forall_take, Forall_drop.
Qed.
Lemma undash l : forallb is_hex l = true → List.filter (λ c, negb (Ascii.eqb dash_char c)) (dash l) = l.
Proof.
  intros Hl. unfold dash. rewrite !List.filter_app. cbn [List.filter]. rewrite !Ascii.eqb_refl. cbn [negb app].
  rewrite <- !List.filter_app.
  assert (take 8 l ++ take 4 (drop 8 l) ++ take 4 (drop 12 l) ++ take 4 (drop 16 l) ++ drop 20 l = l) as ->.
  { change 20%nat with (16 + 4)%nat. rewrite <- (drop_drop l 4 16), take_drop. change 16%nat with (12 + 4)%nat.
    rewrite <- (drop_drop l 4 12), take_drop. change 12%nat with (8 + 4)%nat.
    rewrite <- (drop_drop l 4 8), take_drop. apply take_drop. }
  by apply filter_hex.
Qed.
Lemma dashed_free l (p : Ascii.ascii → bool) :
  forallb is_hex l = true → (∀ c, is_hex c || Ascii.eqb dash_char c = true → p c = true) →
  Str.all_chars p (String.string_of_list_ascii (dash l)) = true.
Proof.
  intros Hl%dash_chars Hp. rewrite all_chars_list. rewrite forallb_forall in Hl |- *. auto.
Qed.

(** [UUID(str(u))] is [u]. *)
Lemma uuid_of_str n : (n < 2 ^ 128)%N → uuid_of (uuid_str n) = Some n.
Proof.
  intros Hn. unfold uuid_of, uuid_str.
  assert (forallb is_hex (String.list_ascii_of_string (hex32 n)) = true) as Hhex
    by (rewrite list_all_chars; apply string_of_uint_hex).
  assert (∀ a c, is_hex a || Ascii.eqb dash_char a = false → is_hex c || Ascii.eqb dash_char c = true →
                 negb (Ascii.eqb a c) = true) as Hne.
  { intros a c Ha Hc. destruct (Ascii.eqb a c) eqn:Hu; [|done]. apply Ascii.eqb_eq in Hu. congruence. }
  rewrite (replace_none "urn:" _ _ _ _ eq_refl) by (apply dashed_free; auto).
  rewrite (replace_none "uuid:" _ _ _ _ eq_refl) by (apply dashed_free; auto).
  rewrite strip_of_none.
  2:{ apply dashed_free; [done|]. intros c Hc. unfold brace, Text.is_code.
      destruct (Ascii.eqb dash_char c) eqn:Hd; [apply Ascii.eqb_eq in Hd; by subst|].
      unfold is_hex in Hc. rewrite orb_false_r, orb_true_iff, !andb_true_iff, !Z.leb_le in Hc.
      rewrite negb_true_iff, orb_false_iff, !Z.eqb_neq. lia. }
  rewrite replace_dash, undash, String.string_of_list_ascii_of_string by done.
  unfold Str.len. rewrite length_hex32 by done. change (Z.of_nat 32 =? 32) with true. cbv iota.
  by rewrite int16_hex32, (proj2 (Z.leb_le _ _)), (proj2 (Z.ltb_lt _ _)), N2Z.id by lia.
Qed.
End UuidFacts.
