(* ===== verification/PyDates.v ===== *)
(** Dates in text from outside: [datetime.fromisoformat] in full, as the C
    implementation of Python 3.12 reads it, [datetime.fromtimestamp], and
    [email.utils.parsedate_to_datetime].

    [None] is the exception each caller catches. Offsets are whole seconds: text
    with a fraction of a second in its offset is outside the model. *)

From S2P Require Import Prelude PyData PyTime PyText.
Import Iso.

(** * The components *)

(** [datetime(y, m, d, h, mi, s, us, tzinfo)] *)
Definition datetime_make (y m d h mi s us : Z) (off : option Z) : option datetime :=
  if (1 <=? y) && (y <=? 9999) && (1 <=? m) && (m <=? 12) && (1 <=? d) && (d <=? days_in_month y m) &&
     (0 <=? h) && (h <? 24) && (0 <=? mi) && (mi <? 60) && (0 <=? s) && (s <? 60) &&
     match off with Some o => (-86400 <? o) && (o <? 86400) | None => true end
  then Some (mk_datetime
         (day_of_ymd y m d * 86400000000 + ((h * 60 + mi) * 60 + s) * us_per_second + us) off)
  else None.

(** [datetime.fromtimestamp(t, tz=UTC)]; the epoch is a wall clock. *)
Definition epoch_us : Z := 62135596800000000.
Definition fromtimestamp (t : Q) : option datetime :=
  let us := epoch_us + round_half_even (t * 1000000) in
  if (0 <=? us) && (us <? 3652059 * 86400000000) then Some (utc us) else None.

(** * ISO 8601 *)

Module Iso8601.
Definition char_is (n : Z) (c : option Ascii.ascii) : bool :=
  match c with Some c => Text.is_code n c | None => false end.
Definition digit_at (i : nat) (s : string) : bool :=
  match String.get i s with Some c => Text.is_digit c | None => false end.

(** The digits at the head of [s]. *)
Fixpoint skip_digits (s : string) : string :=
  match s with
  | String c s' => if Text.is_digit c then skip_digits s' else s
  | EmptyString => s
  end.

(** [_find_isoformat_datetime_separator] *)
Definition separator_location (s : string) : option nat :=
  let len := String.length s in
  if (len =? 7)%nat then Some 7%nat
  else if char_is 45 (String.get 4 s) then
    if char_is 87 (String.get 5 s) then
      if (8 <? len)%nat && char_is 45 (String.get 8 s) then
        if (len =? 9)%nat then None
        else if digit_at 10 s then Some 8%nat else Some 10%nat
      else Some 8%nat
    else Some 10%nat
  else if char_is 87 (String.get 4 s) then
    let pos := (len - String.length (skip_digits (Text.drop 7 s)))%nat in
    if (pos <? 9)%nat then Some pos else if Nat.even pos then Some 7%nat else Some 8%nat
  else Some 8%nat.

(** [iso_to_ymd] *)
Definition week1_monday (y : Z) : Z :=
  let first_day := days_before_year y + 1 in
  let first_weekday := (first_day + 6) mod 7 in
  first_day - first_weekday + (if 3 <? first_weekday then 7 else 0).
Definition iso_to_ymd (y week day : Z) : option (Z * Z * Z) :=
  let first_weekday := (days_before_year y + 1 + 6) mod 7 in
  let long_year := (first_weekday =? 3) || ((first_weekday =? 2) && is_leap y) in
  if (1 <=? y) && (1 <=? week) && ((week <? 53) || ((week =? 53) && long_year)) &&
     (1 <=? day) && (day <? 8)
  then Some (ymd_of_day (week1_monday y + (week - 1) * 7 + day - 1 - 1))
  else None.

(** [parse_isoformat_date] *)
Definition parse_date (s : string) : option (Z * Z * Z) :=
  '(y, s1) ← take_num 4 0 s;
  let sep := char_is 45 (String.get 0 s1) in
  let s2 := if sep then Text.drop 1 s1 else s1 in
  if char_is 87 (String.get 0 s2) then
    '(week, s3) ← take_num 2 0 (Text.drop 1 s2);
    if bool_decide (s3 = "") then iso_to_ymd y week 1
    else
      s4 ← (if sep then expect dash s3 else Some s3);
      '(day, _) ← take_num 1 0 s4;
      iso_to_ymd y week day
  else
    '(m, s3) ← take_num 2 0 s2;
    s4 ← (if sep then expect dash s3 else Some s3);
    '(d, s5) ← take_num 2 0 s4;
    if bool_decide (s5 = "") then Some (y, m, d) else None.

(** The two-digit fields of [parse_hh_mm_ss_ff]: how the loop over them ends,
    and whether text follows what was read. [more] says that a zone follows the
    time. *)
Inductive stage := Stop (trailing : bool) | Fraction (rest : string).
Fixpoint fields (k : nat) (first sep : bool) (t : string) (more : bool) : option (list Z * stage) :=
  match k with
  | O => Some ([], Fraction t)
  | S k' =>
      '(v, r) ← take_num 2 0 t;
      match r with
      | EmptyString => Some ([v], Stop more)
      | String c EmptyString => Some ([v], Stop (negb (Text.is_code 0 c)))
      | String c r' =>
          let sep := if first then Text.is_code 58 c else sep in
          if sep && Text.is_code 58 c then '(vs, st) ← fields k' false sep r' more; Some (v :: vs, st)
          else if Text.is_code 46 c || Text.is_code 44 c then Some ([v], Fraction r')
          else if negb sep then '(vs, st) ← fields k' false sep r more; Some (v :: vs, st)
          else None
      end
  end.

(** [parse_hh_mm_ss_ff]: the fields, the microseconds, and whether text
    follows. *)
Definition parse_clock (t : string) (more : bool) : option (list Z * Z * bool) :=
  '(vs, st) ← fields 3 true true t more;
  match st with
  | Stop trailing => Some (vs, 0, trailing)
  | Fraction f =>
      let n := Nat.min 6 (String.length f) in
      '(v, r) ← take_num n 0 f;
      Some (vs, v * 10 ^ (6 - Z.of_nat n), negb (bool_decide (skip_digits r = "")) || more)
  end.

Definition zone_char (c : Ascii.ascii) : bool :=
  Text.is_code 43 c || Text.is_code 45 c || Text.is_code 90 c.
(** The time before the first zone character, and the rest. *)
Fixpoint split_zone (t : string) : string * string :=
  match t with
  | EmptyString => ("", "")
  | String c t' => if zone_char c then ("", t) else let '(a, b) := split_zone t' in (String c a, b)
  end.

Definition parse_zone (z : string) : option Z :=
  match z with
  | EmptyString => None
  | String c r =>
      if Text.is_code 90 c then (if bool_decide (r = "") then Some 0 else None)
      else
        '(vs, us, trailing) ← parse_clock r false;
        if trailing || negb (us =? 0) then None
        else Some ((if Text.is_code 45 c then -1 else 1) *
                   (nth 0 vs 0 * 3600 + nth 1 vs 0 * 60 + nth 2 vs 0))
  end.

(** [parse_isoformat_time] *)
Definition parse_time (t : string) : option (list Z * Z * option Z) :=
  let '(a, z) := split_zone t in
  '(vs, us, trailing) ← parse_clock a (negb (bool_decide (z = "")));
  if bool_decide (z = "") then (if trailing : bool then None else Some (vs, us, None))
  else off ← parse_zone z; Some (vs, us, Some off).

(** [datetime.fromisoformat] *)
Definition fromisoformat (s : string) : option datetime :=
  if (String.length s <? 7)%nat then None
  else
    loc ← separator_location s;
    '(y, m, d) ← parse_date (Str.take loc s);
    let t := Text.drop (S loc) s in
    if bool_decide (t = "") then datetime_make y m d 0 0 0 0 None
    else
      '(vs, us, off) ← parse_time t;
      datetime_make y m d (nth 0 vs 0) (nth 1 vs 0) (nth 2 vs 0) us off.

Definition at_ (y m d h mi s us : Z) (off : option Z) : option datetime := datetime_make y m d h mi s us off.
Example iso_samples :
  map fromisoformat
    ["2024-02-29"; "20240229T10"; "2024-02-29 10:05:06.5Z"; "2024-W09-4T1005+01:30"; "2024W094";
     "2024-02-30"; "2024-02-29T25:00"; "2024-02-29T10:05:06,1234567-00:30"; "now"; "2024-02-29T10:05:06+24:00"] =
    [at_ 2024 2 29 0 0 0 0 None; at_ 2024 2 29 10 0 0 0 None; at_ 2024 2 29 10 5 6 500000 (Some 0);
     at_ 2024 2 29 10 5 0 0 (Some 5400); at_ 2024 2 29 0 0 0 0 None;
     None; None; at_ 2024 2 29 10 5 6 123456 (Some (-1800)); None; None].
Proof. vm_compute. reflexivity. Qed.

(** ** What [isoformat] writes is read back *)

Lemma digit_code n : 48 ≤ Str.code (digit n) ≤ 57.
Proof.
  pose proof (digit_value_digit n) as Hd. unfold digit_value in Hd.
  destruct ((0 <=? _) && _) eqn:Hb; [|done]. apply andb_true_iff in Hb. rewrite !Z.leb_le in Hb. lia.
Qed.
Lemma digit_not n k : k < 48 ∨ 57 < k → Text.is_code k (digit n) = false.
Proof. intros Hk. unfold Text.is_code. pose proof (digit_code n). apply Z.eqb_neq. lia. Qed.
Lemma digits2 n r : digits 2 n +:+ r = String (digit (n / 10)) (String (digit n) r).
Proof. reflexivity. Qed.
Lemma all_chars_digits p k n : (∀ n, p (digit n) = true) → Str.all_chars p (digits k n) = true.
Proof.
  intros Hp. revert n. induction k as [|k IH]; intros n; [done|]. cbn [digits].
  by rewrite all_chars_append, IH; cbn; rewrite Hp.
Qed.

Lemma split_zone_app t z :
  Str.all_chars (λ c, negb (zone_char c)) t = true →
  match z with EmptyString => True | String c _ => zone_char c = true end →
  split_zone (t +:+ z) = (t, z).
Proof.
  intros Ht Hz. induction t as [|c t IH].
  - rewrite append_nil_l. destruct z as [|c z]; [done|]. cbn. by rewrite Hz.
  - cbn [Str.all_chars] in Ht. apply andb_true_iff in Ht as [Hc%negb_true_iff Ht].
    rewrite append_cons. cbn. by rewrite Hc, IH.
Qed.

Definition fraction_text (f : Z) : string := if f =? 0 then "" else "." +:+ digits 6 f.
Lemma fields_two v r more k first :
  0 ≤ v < 100 → r ≠ "" →
  fields (S k) first true (digits 2 v +:+ ":" +:+ r) more =
  '(vs, st) ← fields k false true r more; Some (v :: vs, st).
Proof.
  intros Hv Hr. cbn [fields]. rewrite take_num_2 by done. cbn [mbind option_bind].
  destruct r as [|c r]; [done|]. change (":" +:+ String c r) with (String colon (String c r)). cbv beta iota.
  change (Text.is_code 58 colon) with true. by destruct first.
Qed.
Lemma fields_last v f more :
  0 ≤ v < 100 →
  fields 1 false true (digits 2 v +:+ fraction_text f) more =
  Some ([v], if f =? 0 then Stop more else Fraction (digits 6 f)).
Proof.
  intros Hv. cbn [fields]. rewrite take_num_2 by done. cbn [mbind option_bind]. unfold fraction_text.
  destruct (f =? 0); [done|]. reflexivity.
Qed.

Lemma length_digits k n : String.length (digits k n) = k.
Proof. revert n. induction k as [|k IH]; intros n; [done|]. cbn [digits]. rewrite length_append, IH. cbn. lia. Qed.

Lemma parse_clock_text h mi sec f more :
  0 ≤ h < 24 → 0 ≤ mi < 60 → 0 ≤ sec < 60 → 0 ≤ f < us_per_second →
  parse_clock (digits 2 h +:+ ":" +:+ digits 2 mi +:+ ":" +:+ digits 2 sec +:+ fraction_text f) more =
  Some ([h; mi; sec], f, more).
Proof.
  unfold us_per_second. intros Hh Hm Hs Hf. unfold parse_clock.
  rewrite fields_two, fields_two, fields_last by (rewrite ?digits2; try done; lia). cbn [mbind option_bind].
  destruct (Z.eqb_spec f 0) as [-> |Hne]; [done|].
  rewrite length_digits. change (Nat.min 6 6) with 6%nat.
  rewrite <- (string_app_nil (digits 6 f)), take_num_6 by lia. cbn [mbind option_bind skip_digits].
  rewrite bool_decide_true by done. cbn [negb orb]. do 3 f_equal. lia.
Qed.

Lemma parse_clock_offset a :
  0 ≤ a < 86400 →
  parse_clock (digits 2 (a / 3600) +:+ ":" +:+ digits 2 (a / 60 mod 60) +:+
    (if a mod 60 =? 0 then "" else ":" +:+ digits 2 (a mod 60))) false =
  Some (if a mod 60 =? 0 then [a / 3600; a / 60 mod 60] else [a / 3600; a / 60 mod 60; a mod 60], 0, false).
Proof.
  intros Ha. assert (0 ≤ a / 3600 < 24 ∧ 0 ≤ a / 60 mod 60 < 60 ∧ 0 ≤ a mod 60 < 60) as (? & ? & ?)
    by (Z.div_mod_to_equations; lia).
  destruct (Z.eqb_spec (a mod 60) 0) as [_|_].
  - unfold parse_clock. rewrite fields_two by (rewrite ?digits2; try done; lia).
    change (digits 2 (a / 60 mod 60) +:+ "") with (digits 2 (a / 60 mod 60) +:+ ""). cbn [fields].
    rewrite take_num_2 by lia. reflexivity.
  - unfold parse_clock. rewrite fields_two, fields_two by (rewrite ?digits2; try done; lia).
    rewrite <- (string_app_nil (digits 2 (a mod 60))). cbn [fields]. rewrite take_num_2 by lia. reflexivity.
Qed.

Lemma parse_zone_text o : -86400 < o < 86400 → parse_zone (offset_text (Some o)) = Some o.
Proof.
  intros Ho. unfold offset_text. set (a := Z.abs o). assert (0 ≤ a < 86400) as Ha by lia.
  assert (∀ s, (if o <? 0 then "-" else "+") +:+ s = String (if o <? 0 then dash else plus) s) as ->
    by (by destruct (o <? 0)).
  unfold parse_zone. replace (Text.is_code 90 _) with false by (by destruct (o <? 0)).
  rewrite parse_clock_offset by done. cbn [mbind option_bind Z.eqb negb orb].
  assert (a / 3600 * 3600 + a / 60 mod 60 * 60 + a mod 60 = a) as Hsum by (Z.div_mod_to_equations; lia).
  replace (Text.is_code 45 _) with (o <? 0) by (by destruct (o <? 0)).
  f_equal. destruct (Z.eqb_spec (a mod 60) 0), (Z.ltb_spec o 0); cbn [nth]; lia.
Qed.

Lemma parse_time_text h mi sec f o :
  0 ≤ h < 24 → 0 ≤ mi < 60 → 0 ≤ sec < 60 → 0 ≤ f < us_per_second →
  match o with Some z => -86400 < z < 86400 | None => True end →
  parse_time (digits 2 h +:+ ":" +:+ digits 2 mi +:+ ":" +:+ digits 2 sec +:+ fraction_text f +:+ offset_text o) =
  Some ([h; mi; sec], f, o).
Proof.
  intros Hh Hm Hs Hf Ho. unfold parse_time.
  replace (digits 2 h +:+ ":" +:+ digits 2 mi +:+ ":" +:+ digits 2 sec +:+ fraction_text f +:+ offset_text o)
    with ((digits 2 h +:+ ":" +:+ digits 2 mi +:+ ":" +:+ digits 2 sec +:+ fraction_text f) +:+ offset_text o)
    by (by rewrite !string_app_assoc).
  rewrite split_zone_app.
  - rewrite parse_clock_text by done. cbn [mbind option_bind]. destruct o as [z|]; [|done].
    rewrite parse_zone_text by done.
    rewrite bool_decide_false; [done|]. unfold offset_text. by destruct (z <? 0).
  - assert (∀ k n, Str.all_chars (λ c, negb (zone_char c)) (digits k n) = true) as Hd.
    { intros k n. apply all_chars_digits. intros j. unfold zone_char. by rewrite !digit_not by lia. }
    rewrite !all_chars_append, !Hd. unfold fraction_text.
    destruct (f =? 0); [done|]. by rewrite all_chars_append, Hd.
  - destruct o as [z|]; [|done]. unfold offset_text. by destruct (z <? 0).
Qed.

Lemma parse_date_text y m d : 0 ≤ y < 10000 → 0 ≤ m < 100 → 0 ≤ d < 100 →
  parse_date (digits 4 y +:+ "-" +:+ digits 2 m +:+ "-" +:+ digits 2 d) = Some (y, m, d).
Proof.
  intros Hy Hm Hd. unfold parse_date. rewrite take_num_4 by done. cbn [mbind option_bind].
  change (char_is 45 (String.get 0 ("-" +:+ ?x))) with true. cbv zeta iota.
  change (Text.drop 1 ("-" +:+ ?x)) with x. rewrite digits2.
  change (char_is 87 (String.get 0 (String ?c ?x))) with (Text.is_code 87 c).
  rewrite digit_not by lia. rewrite <- digits2, take_num_2 by done. cbn [mbind option_bind].
  rewrite expect_dash. cbn [mbind option_bind]. rewrite <- (string_app_nil (digits 2 d)), take_num_2 by done.
  reflexivity.
Qed.

Lemma separator_text y m d t :
  separator_location (digits 4 y +:+ "-" +:+ digits 2 m +:+ "-" +:+ digits 2 d +:+ String tee t) = Some 10%nat.
Proof.
  unfold separator_location. change (String.length _ =? 7)%nat with false. cbv iota zeta.
  change (char_is 45 (String.get 4 _)) with true. change (String.get 5 _) with (Some (digit (m / 10))).
  unfold char_is at 1. by rewrite digit_not by lia.
Qed.

(** What [isoformat] writes, [fromisoformat] reads back. *)
Lemma fromisoformat_text d : representable d → fromisoformat (isoformat d) = Some d.
Proof.
  intros [Hw Ho]. unfold isoformat, fromisoformat.
  set (t := wall_us d mod 86400000000). set (day := wall_us d / 86400000000).
  assert (wall_us d = 86400000000 * day + t ∧ 0 ≤ t < 86400000000) as [Hd Ht].
  { unfold t, day. split; [apply Z.div_mod; lia|apply Z.mod_pos_bound; lia]. }
  clearbody t day. set (s := t / us_per_second). set (f := t mod us_per_second).
  assert (t = us_per_second * s + f ∧ 0 ≤ f < us_per_second) as [Hs Hf].
  { unfold s, f. unfold us_per_second. split; [apply Z.div_mod; lia|apply Z.mod_pos_bound; lia]. }
  clearbody s f. assert (0 ≤ s < 86400) as Hsb by (unfold us_per_second in *; lia).
  pose proof (day_of_ymd_of_day day) as Hday. destruct (ymd_of_day day) as [[y m] dd].
  destruct Hday as (Hord & Hy & Hm & Hdd & Hdm); [lia|].
  assert (0 ≤ s / 3600 < 24 ∧ 0 ≤ s / 60 mod 60 < 60 ∧ 0 ≤ s mod 60 < 60 ∧
          (s / 3600 * 60 + s / 60 mod 60) * 60 + s mod 60 = s) as (? & ? & ? & Hsum)
    by (Z.div_mod_to_equations; lia).
  change (if f =? 0 then "" else "." +:+ digits 6 f) with (fraction_text f).
  set (T := digits 2 (s / 3600) +:+ _).
  change (digits 4 y +:+ "-" +:+ digits 2 m +:+ "-" +:+ digits 2 dd +:+ "T" +:+ T) with
    (digits 4 y +:+ "-" +:+ digits 2 m +:+ "-" +:+ digits 2 dd +:+ String tee T).
  change (String.length _ <? 7)%nat with false. cbv iota.
  rewrite separator_text. cbn [mbind option_bind].
  change (Str.take 10 _) with (digits 4 y +:+ "-" +:+ digits 2 m +:+ "-" +:+ digits 2 dd).
  rewrite parse_date_text by lia. cbn [mbind option_bind].
  change (Text.drop 11 _) with T. rewrite bool_decide_false by (unfold T; by rewrite digits2).
  unfold T. rewrite parse_time_text by done. cbn [mbind option_bind nth]. unfold datetime_make.
  rewrite !(proj2 (Z.leb_le _ _)), !(proj2 (Z.ltb_lt _ _)) by lia. cbn [andb].
  assert (match utc_offset d with Some o => (-86400 <? o) && (o <? 86400) | None => true end = true) as ->.
  { destruct (utc_offset d); [|done]. by rewrite !(proj2 (Z.ltb_lt _ _)) by lia. }
  rewrite Hord, Hsum. destruct d as [w o]. cbn in *. do 2 f_equal. unfold us_per_second in *. lia.
Qed.
End Iso8601.

(** * The dates of mail and HTTP headers *)

Module MailDate.
Definition daynames : list string := ["mon"; "tue"; "wed"; "thu"; "fri"; "sat"; "sun"].
Definition monthnames : list string :=
  ["jan"; "feb"; "mar"; "apr"; "may"; "jun"; "jul"; "aug"; "sep"; "oct"; "nov"; "dec";
   "january"; "february"; "march"; "april"; "may"; "june"; "july"; "august"; "september"; "october";
   "november"; "december"].
Definition timezones : list (string * Z) :=
  [("UT", 0); ("UTC", 0); ("GMT", 0); ("Z", 0); ("AST", -400); ("ADT", -300); ("EST", -500);
   ("EDT", -400); ("CST", -600); ("CDT", -500); ("MST", -700); ("MDT", -600); ("PST", -800); ("PDT", -700)].

Definition comma : Ascii.ascii → bool := Text.is_code 44.
Definition ends_with_comma (s : string) : bool :=
  match Text.last_char s with Some c => comma c | None => false end.
(** [s[s.rfind(',') + 1:]] when there is one. *)
Fixpoint after_last_comma (s : string) : option string :=
  match s with
  | EmptyString => None
  | String c s' => match after_last_comma s' with
                   | Some t => Some t
                   | None => if comma c then Some s' else None
                   end
  end.
Definition drop_comma (s : string) : string := if ends_with_comma s then Text.but_last s else s.
Definition index_of (x : string) (l : list string) : option Z :=
  match list_find (eq x) l with Some (i, _) => Some (Z.of_nat i) | None => None end.
(** [c.isdigit()]: also the superscript digits. *)
Definition isdigit (c : Ascii.ascii) : bool :=
  Text.is_digit c || Text.is_code 178 c || Text.is_code 179 c || Text.is_code 185 c.
Definition starts_with_digit (s : string) : bool :=
  match s with String c _ => isdigit c | EmptyString => false end.

(** The day of the week is optional. *)
Definition drop_day (data : list string) : list string :=
  match data with
  | [] => []
  | w :: ws =>
      if ends_with_comma w || bool_decide (Str.lower w ∈ daynames) then ws
      else match after_last_comma w with Some t => t :: ws | None => data end
  end.
(** RFC 850 dates join day, month and year. *)
Definition split_day (data : list string) : list string :=
  match data with
  | [a; b; c] => let stuff := Text.split (Text.is_code 45) a in
                 if (length stuff =? 3)%nat then stuff ++ [b; c] else data
  | _ => data
  end.
(** A zone glued to the time. *)
Definition split_tz (data : list string) : list string :=
  match data with
  | [a; b; c; s] =>
      let i := match Text.find (Text.is_code 43) s with
               | Some i => Some i
               | None => Text.find (Text.is_code 45) s
               end in
      match i with
      | Some (S i') => [a; b; c; Str.take (S i') s; Text.drop (S i') s]
      | _ => [a; b; c; s; ""]
      end
  | _ => data
  end.

Definition clock_fields (tm : string) : option (string * string * string) :=
  match Text.split (Text.is_code 58) tm with
  | [h; m] => Some (h, m, "0")
  | [h; m; s] => Some (h, m, s)
  | [t] => match Text.split (Text.is_code 46) t with
           | [h; m] => Some (h, m, "0")
           | [h; m; s] => Some (h, m, s)
           | _ => None
           end
  | _ => None
  end.

(** The zone in seconds; [None] when it is unknown or ["-0000"]. *)
Definition tz_offset (tz : string) : option Z :=
  let tz := Str.map_chars Text.upper_char tz in
  let o := match list_find (λ kv, kv.1 = tz) timezones with
           | Some (_, kv) => Some kv.2
           | None =>
               match Num.int tz with
               | Some 0 => if String.prefix "-" tz then None else Some 0
               | o => o
               end
           end in
  match o with
  | Some o => Some (Z.sgn o * (Z.abs o / 100 * 3600 + Z.abs o mod 100 * 60))
  | None => None
  end.

(** What [parsedate_to_datetime] comes to: a date, one of the errors that a caller
    expects of a text that is no date ([TypeError], [ValueError], [IndexError]), or
    an [OverflowError]. *)
Inductive date_result : Type :=
  | Date (d : datetime)
  | NoDate
  | Overflows.
Definition fits_c_int (z : Z) : bool := (-2147483648 <=? z) && (z <=? 2147483647).
(** [datetime(..., tzinfo=timezone(timedelta(seconds=off)))]: the zone is built
    first, from at most 999999999 days, and the fields must be C integers before
    their ranges are looked at. *)
Definition datetime_of_fields (y month d h m s : Z) (off : option Z) : date_result :=
  if match off with Some o => (o <? -999999999 * 86400) || (1000000000 * 86400 <=? o) | None => false end then Overflows
  else if match off with Some o => (o <=? -86400) || (86400 <=? o) | None => false end then NoDate
  else if negb (forallb fits_c_int [y; month; d; h; m; s]) then Overflows
  else match datetime_make y month d h m s 0 off with Some t => Date t | None => NoDate end.

(** [_parsedate_tz] after the words are split, and [parsedate_to_datetime]. *)
Definition parse_words (dd mm yy tm tz : string) : option date_result :=
  '(dd, mm) ← match index_of (Str.lower mm) monthnames with
              | Some i => Some (dd, i)
              | None => match index_of (Str.lower dd) monthnames with
                        | Some i => Some (Str.lower mm, i)
                        | None => None
                        end
              end;
  let month := if 12 <? mm + 1 then mm + 1 - 12 else mm + 1 in
  let dd := drop_comma dd in
  let '(yy, tm) := match Text.find (Text.is_code 58) yy with Some (S _) => (tm, yy) | _ => (yy, tm) end in
  let yy := drop_comma yy in
  if negb (Str.truthy yy) then None
  else
    let '(yy, tz) := if starts_with_digit yy then (yy, tz) else (tz, yy) in
    '(h, m, s) ← clock_fields (drop_comma tm);
    y ← Num.int yy; d ← Num.int dd; h ← Num.int h; m ← Num.int m; s ← Num.int s;
    let y := if y <? 100 then (if 68 <? y then y + 1900 else y + 2000) else y in
    Some (datetime_of_fields y month d h m s (tz_offset tz)).
Definition parsedate_to_datetime (s : string) : date_result :=
  match take 5 (split_tz (split_day (drop_day (Text.words s)))) with
  | [dd; mm; yy; tm; tz] =>
      if Str.truthy dd && Str.truthy mm && Str.truthy yy then default NoDate (parse_words dd mm yy tm tz) else NoDate
  | _ => NoDate
  end.

Example mail_dates :
  map parsedate_to_datetime
    ["Wed, 21 Oct 2015 07:28:00 GMT"; "Sunday, 06-Nov-94 08:49:37 GMT"; "21 Oct 2015 07:28 -0500"; "120s"; "";
     "21 Oct 2015 07:28:00 -0000"; "Wed, 01 Jan 20000 00:00:00 GMT"; "Wed, 01 Jan 99999999999 00:00:00 GMT"] =
  let date y m d h mi s off := match datetime_make y m d h mi s 0 off with Some t => Date t | None => NoDate end in
  [date 2015 10 21 7 28 0 (Some 0); date 1994 11 6 8 49 37 (Some 0); date 2015 10 21 7 28 0 (Some (-18000)); NoDate; NoDate;
   date 2015 10 21 7 28 0 None; NoDate; Overflows].
Proof. vm_compute. reflexivity. Qed.
End MailDate.
