(* ===== verification/ValueObjects.v ===== *)
(** The value objects of [domain/value_objects.py].

    A value object is represented by its [value] string; its module holds the
    validating constructor [make] ([__post_init__]) and the class methods. The
    second half is canonical JSON and the request fingerprint. *)

From S2P Require Import Prelude PyData Enums Errors Sha256.

(** * Anchored patterns *)

(** [re.compile("^" + body + "$").match(s)]: the ["$"] anchor also matches just
    before one trailing newline. [body] is the language between the anchors. *)
Definition newline : Ascii.ascii := Ascii.ascii_of_nat 10.

Fixpoint without_final_newline (s : string) : option string :=
  match s with
  | EmptyString => None
  | String c EmptyString => if Ascii.eqb c newline then Some "" else None
  | String c s' => String c <$> without_final_newline s'
  end.

Definition pattern_match (body : string → bool) (s : string) : bool :=
  body s || match without_final_newline s with Some w => body w | None => false end.

Definition is_lower (c : Ascii.ascii) : bool := (97 <=? Str.code c) && (Str.code c <=? 122).
Definition is_upper (c : Ascii.ascii) : bool := (65 <=? Str.code c) && (Str.code c <=? 90).
Definition is_digit (c : Ascii.ascii) : bool := (48 <=? Str.code c) && (Str.code c <=? 57).
Definition one_of (cs : string) (c : Ascii.ascii) : bool :=
  existsb (Ascii.eqb c) (String.list_ascii_of_string cs).

Definition slug_char (c : Ascii.ascii) : bool := is_lower c || is_digit c || one_of "_-" c.

(** [[a-z][a-z0-9_-]{1,39}] *)
Definition slug_body (s : string) : bool :=
  match s with
  | EmptyString => false
  | String c s' => is_lower c && Str.all_chars slug_char s' &&
                   ((1 <=? Str.len s') && (Str.len s' <=? 39))
  end.

(** [[A-Za-z0-9._:@/-]{8,255}] *)
Definition key_char (c : Ascii.ascii) : bool :=
  is_upper c || is_lower c || is_digit c || one_of "._:@/-" c.
Definition key_body (s : string) : bool :=
  Str.all_chars key_char s && ((8 <=? Str.len s) && (Str.len s <=? 255)).

(** * The classes *)

Module ProviderSlug.
Definition make (v : string) : outcome exn string :=
  if negb (pattern_match slug_body v)
  then Raise (error ErrorClass.ValidationError
    "a provider slug must be lowercase alphanumeric with dashes or underscores, 2 to 40 characters"
    (no_kwargs <| k_metadata := [("provider", JStr v)] |>))
  else Ret v.

Definition parse (v : string) : outcome exn string :=
  if negb (Str.truthy (Str.strip v))
  then Raise (error ErrorClass.ValidationError "a provider must be supplied" no_kwargs)
  else make (Str.lower (Str.strip v)).
End ProviderSlug.

Module CorrelationId.
Definition make (v : string) : outcome exn string :=
  if negb (Str.truthy v) || (128 <? Str.len v)
  then Raise (error ErrorClass.ValidationError "a correlation id must be 1 to 128 characters" no_kwargs)
  else Ret v.

(** [generate], given the UUID that [uuid.uuid4()] draws. *)
Definition generate (u : UUID) : outcome exn string := make (uuid_str u).

Definition parse (u : UUID) (v : option string) : outcome exn string :=
  match v with
  | None => generate u
  | Some v => if negb (Str.truthy (Str.strip v)) then generate u
              else make (Str.take 128 (Str.strip v))
  end.
End CorrelationId.

Definition _MAX_EXTERNAL_REFERENCE_LENGTH : Z := 255.

Module ExternalReference.
Definition make (v : string) : outcome exn string :=
  if negb (Str.truthy v) || negb (Str.truthy (Str.strip v))
  then Raise (error ErrorClass.ValidationError "an external reference must not be empty" no_kwargs)
  else if _MAX_EXTERNAL_REFERENCE_LENGTH <? Str.len v
  then Raise (error ErrorClass.ValidationError
    "an external reference must be at most 255 characters" no_kwargs)
  else Ret v.
End ExternalReference.

Module IdempotencyKey.
Definition make (v : string) : outcome exn string :=
  if negb (pattern_match key_body v)
  then Raise (error ErrorClass.ValidationError
    "an idempotency key must be 8 to 255 characters using letters, digits, or the characters . _ : @ / -"
    no_kwargs)
  else Ret v.

Definition parse (v : option string) : outcome exn (option string) :=
  match v with
  | None => Ret None
  | Some v => if negb (Str.truthy (Str.strip v)) then Ret None
              else match make (Str.strip v) with
                   | Ret k => Ret (Some k)
                   | Raise e => Raise e
                   end
  end.
End IdempotencyKey.

Record signature_metadata := mk_signature_metadata {
  scheme : string;
  key_id : option string;
  sig_timestamp : option string;
  algorithm : option string;
  verified : bool;
}.

Definition signature_to_dict (m : signature_metadata) : dict :=
  [("scheme", JStr (scheme m)); ("key_id", jopt (key_id m));
   ("timestamp", jopt (sig_timestamp m)); ("algorithm", jopt (algorithm m));
   ("verified", JBool (verified m))].

(** * Canonical JSON *)

(** [_by_key] is the identity on the string keys of a JSON object, so sorting by
    it is sorting by key. *)
Definition key_le {A} (p q : string * A) : Prop := stdpp.strings.String.le p.1 q.1.
#[export] Instance key_le_dec {A} : RelDecision (@key_le A).
Proof. intros p q. unfold key_le. apply _. Defined.

Definition sort_items {A} (o : list (string * A)) : list (string * A) := merge_sort key_le o.

(** [_normalize] *)
Fixpoint _normalize (v : json) : json :=
  match v with
  | JObj o => JObj (sort_items (map (λ kv, (kv.1, _normalize kv.2)) o))
  | JList l => JList (map _normalize l)
  | JFloat q => if Qeq_bool q (inject_Z (Qfloor q)) then JInt (Qfloor q) else JFloat q
  | _ => v
  end.

(** The escapes of [json.encoder.ESCAPE_ASCII]. *)
Definition escape_char (c : Ascii.ascii) : string :=
  let n := Str.code c in
  if n =? 34 then "\" +:+ String c ""
  else if n =? 92 then "\\"
  else if n =? 10 then "\n"
  else if n =? 13 then "\r"
  else if n =? 9 then "\t"
  else if n =? 12 then "\f"
  else if n =? 8 then "\b"
  else if (32 <=? n) && (n <=? 126) then String c ""
  else "\u00" +:+ String (hex_digit (n / 16)) (String (hex_digit (n mod 16)) "").
Fixpoint escape (s : string) : string :=
  match s with
  | EmptyString => ""
  | String c s' => escape_char c +:+ escape s'
  end.
Definition quote_char : Ascii.ascii := Ascii.ascii_of_nat 34.
Definition quoted (s : string) : string := String quote_char (escape s +:+ String quote_char "").

Section CanonicalJson.
(** [float.__repr__] of a float that is not a whole number. *)
Context (float_repr : Q → string).

(** [json.dumps(v, sort_keys=True, separators=(",", ":"), ensure_ascii=True)] *)
Fixpoint dumps (v : json) : string :=
  match v with
  | JNull => "null"
  | JBool true => "true"
  | JBool false => "false"
  | JInt z => pretty z
  | JFloat q => float_repr q
  | JStr s => quoted s
  | JList l => "[" +:+ String.concat "," (map dumps l) +:+ "]"
  | JObj o =>
      "{" +:+ String.concat ","
        (map (λ kv, quoted kv.1 +:+ ":" +:+ kv.2) (sort_items (map (λ kv, (kv.1, dumps kv.2)) o)))
      +:+ "}"
  end.

Definition canonical_json (v : json) : string := dumps (_normalize v).

(** [RequestFingerprint.of]; the length check of the constructor is
    [fingerprint_make]. *)
Definition fingerprint_make (v : string) : outcome exn string :=
  if negb (Str.len v =? 64)
  then Raise (error ErrorClass.ValidationError
    "a request fingerprint must be a 64 character SHA-256 digest" no_kwargs)
  else Ret v.

Definition fingerprint_of (provider operation_type external_reference : string)
    (payload : dict) : outcome exn string :=
  let canonical := canonical_json (JObj
    [("provider", JStr provider); ("operation_type", JStr operation_type);
     ("external_reference", JStr external_reference); ("payload", JObj payload)]) in
  fingerprint_make (sha256_hexdigest (utf8 canonical)).
End CanonicalJson.

(** * Equivalent bodies *)

(** The smallest congruence that lets a client reorder the keys of an object
    and write a whole number as a float. *)
Inductive json_equiv : json → json → Prop :=
  | je_refl v : json_equiv v v
  | je_sym v w : json_equiv v w → json_equiv w v
  | je_trans u v w : json_equiv u v → json_equiv v w → json_equiv u w
  | je_number q z : (q == inject_Z z)%Q → json_equiv (JFloat q) (JInt z)
  | je_order o o' : o ≡ₚ o' → NoDup o.*1 → json_equiv (JObj o) (JObj o')
  | je_item l1 v w l2 : json_equiv v w → json_equiv (JList (l1 ++ v :: l2)) (JList (l1 ++ w :: l2))
  | je_field o1 k v w o2 :
      json_equiv v w → json_equiv (JObj (o1 ++ (k, v) :: o2)) (JObj (o1 ++ (k, w) :: o2)).

#[export] Instance json_equiv_equivalence : Equivalence json_equiv.
Proof. split; red; eauto using json_equiv. Qed.

#[export] Instance key_le_total {A} : Total (@key_le A).
Proof. intros p q. apply (total stdpp.strings.String.le). Qed.
#[export] Instance key_le_trans {A} : Transitive (@key_le A).
Proof. intros p q r. unfold key_le. apply transitivity. Qed.

Lemma sorted_items_unique {A} (l l' : list (string * A)) :
  StronglySorted key_le l → StronglySorted key_le l' → l ≡ₚ l' → NoDup l.*1 → l = l'.
Proof.
  intros Hl. revert l'. induction Hl as [|p l Hl IH Hp]; intros l' Hl' Hperm Hnd.
  - by apply Permutation_nil_l in Hperm as ->.
  - destruct l' as [|q l']; [by apply Permutation_nil_r in Hperm|].
    inversion Hl' as [|? ? Hl'' Hq]; subst. cbn in Hnd. apply NoDup_cons in Hnd as [Hp_fresh Hnd].
    assert (p = q) as <-.
    { assert (p ∈ q :: l') as [->|Hin]%elem_of_cons by (rewrite <- Hperm; left); [done|].
      assert (q ∈ p :: l) as [->|Hin']%elem_of_cons by (rewrite Hperm; left); [done|].
      rewrite Forall_forall in Hp, Hq.
      assert (p.1 = q.1) as Heq by (apply (anti_symm stdpp.strings.String.le); [by apply Hp|by apply Hq]).
      destruct Hp_fresh. rewrite Heq. by apply list_elem_of_fmap_2. }
    f_equal. apply IH; [done| |done]. by apply Permutation_cons_inv in Hperm.
Qed.

Lemma sort_items_perm {A} (o o' : list (string * A)) :
  o ≡ₚ o' → NoDup o.*1 → sort_items o = sort_items o'.
Proof.
  intros Hp Hnd. apply sorted_items_unique.
  - apply StronglySorted_merge_sort; apply _.
  - apply StronglySorted_merge_sort; apply _.
  - unfold sort_items. by rewrite !merge_sort_Permutation.
  - unfold sort_items. by rewrite merge_sort_Permutation.
Qed.

Lemma fst_map_snd {A B} (f : A → B) (o : list (string * A)) :
  (map (λ kv, (kv.1, f kv.2)) o).*1 = o.*1.
Proof. induction o as [|kv o IH]; cbn; [done|]. by rewrite IH. Qed.

Lemma sort_items_Permutation {A} (o : list (string * A)) : sort_items o ≡ₚ o.
Proof. apply merge_sort_Permutation. Qed.
Lemma dict_get_perm k (o o' : dict) : o ≡ₚ o' → NoDup o.*1 → dict_get k o = dict_get k o'.
Proof.
  assert (∀ k v (o : dict), NoDup o.*1 → dict_get k o = Some v ↔ (k, v) ∈ o) as Hin.
  { clear. intros k v o. induction o as [|[k' v'] o IH]; intros Hnd.
    - rewrite dict_get_nil, elem_of_nil. done.
    - cbn in Hnd. apply NoDup_cons in Hnd as [Hk Hnd]. rewrite dict_get_cons, elem_of_cons. case_bool_decide as He.
      + subst k'. split; [intros [= ->]; by left|]. intros [[= ->]|H]; [done|]. destruct Hk. by eapply (list_elem_of_fmap_2 fst) in H.
      + rewrite IH by done. split; [by right|]. by intros [[= <- _]|]. }
  intros Hp Hnd. assert (NoDup o'.*1) as Hnd' by by rewrite <- Hp.
  apply option_eq. intros v. rewrite !Hin by done. by rewrite Hp.
Qed.

#[export] Instance _normalize_proper : Proper (json_equiv ==> eq) _normalize.
Proof.
  intros v w Hvw. induction Hvw; cbn; try congruence.
  - assert (Qfloor q = z) as -> by (rewrite H; apply Qfloor_Z).
    by apply Qeq_bool_iff in H as ->.
  - f_equal. apply sort_items_perm; [by apply Permutation_map|by rewrite fst_map_snd].
  - rewrite !map_app. cbn. by rewrite IHHvw.
  - rewrite !map_app. cbn. by rewrite IHHvw.
Qed.

(** * Theorems *)

Lemma all_chars_impl (p q : Ascii.ascii → bool) s :
  (∀ c, p c = true → q c = true) → Str.all_chars p s = true → Str.all_chars q s = true.
Proof.
  intros Hpq. induction s as [|c s IH]; cbn; [done|].
  rewrite !andb_true_iff. intros [Hc Hs]. auto.
Qed.

Lemma char_cases (P : Ascii.ascii → Prop) :
  Forall P (map Ascii.ascii_of_nat (seq 0 256)) → ∀ c, P c.
Proof.
  rewrite Forall_forall. intros HP c. rewrite <- (Ascii.ascii_nat_embedding c).
  apply HP, list_elem_of_In, in_map, in_seq. pose proof (Ascii.nat_ascii_bounded c). lia.
Qed.

Ltac by_char := intros c; pattern c; apply char_cases; repeat constructor.

Lemma slug_char_not_space c : slug_char c = true → Str.isspace c = false.
Proof. revert c. by_char; vm_compute; congruence. Qed.
Lemma slug_char_lower c : slug_char c = true → Str.lower_char c = c.
Proof. revert c. by_char; vm_compute; congruence. Qed.
Lemma is_lower_slug_char c : is_lower c = true → slug_char c = true.
Proof. unfold slug_char. by intros ->. Qed.
Lemma lower_char_space c : Str.isspace (Str.lower_char c) = Str.isspace c.
Proof. revert c. by_char; vm_compute; reflexivity. Qed.

Lemma map_chars_id f s : (∀ c, slug_char c = true → f c = c) →
  Str.all_chars slug_char s = true → Str.map_chars f s = s.
Proof.
  intros Hf. induction s as [|c s IH]; cbn; [done|].
  rewrite andb_true_iff. intros [Hc Hs]. by rewrite Hf, IH.
Qed.

Lemma rstrip_no_space s :
  Str.all_chars (λ c, negb (Str.isspace c)) s = true → Str.rstrip s = s.
Proof.
  induction s as [|c s IH]; cbn; [done|]. rewrite andb_true_iff, negb_true_iff.
  intros [Hc Hs]. rewrite IH by done. destruct s; by rewrite ?Hc.
Qed.

Lemma strip_no_space s :
  Str.all_chars (λ c, negb (Str.isspace c)) s = true → Str.strip s = s.
Proof.
  intros Hs. unfold Str.strip. assert (Str.lstrip s = s) as ->.
  { destruct s as [|c s]; [done|]. cbn in *.
    by apply andb_true_iff in Hs as [->%negb_true_iff _]. }
  by apply rstrip_no_space.
Qed.

Lemma without_final_newline_rstrip s w :
  without_final_newline (Str.lower (Str.rstrip s)) = Some w → False.
Proof.
  revert w. induction s as [|c s IH]; cbn; [done|]. intros w.
  destruct (Str.rstrip s) as [|d t] eqn:Hs.
  - destruct (Str.isspace c) eqn:Hc; [done|]. cbn.
    destruct (Ascii.eqb _ _) eqn:He; [|done].
    apply Ascii.eqb_eq in He. rewrite <- (lower_char_space c), He in Hc. done.
  - cbn. intros [w' [Hw' _]]%fmap_Some. by eapply IH.
Qed.

Lemma slug_body_chars s : slug_body s = true → Str.all_chars slug_char s = true.
Proof.
  destruct s as [|c s]; [done|]. cbn.
  rewrite !andb_true_iff. intros [[Hc Hs] _]. by auto using is_lower_slug_char.
Qed.

(** A provider slug obtained with [parse] matches the documented pattern
    exactly (a lowercase letter then 1 to 39 of [a-z0-9_-], no trailing
    newline), and parsing it again returns it unchanged: normalisation is
    idempotent and an accepted slug needs no further checks. *)
Theorem slug_parse_normalized (v s : string) :
  ProviderSlug.parse v = Ret s → slug_body s = true ∧ ProviderSlug.parse s = Ret s.
Proof.
  unfold ProviderSlug.parse, ProviderSlug.make. destruct (negb (Str.truthy _)); [done|].
  destruct (pattern_match _ _) eqn:Hm; cbn; [|done]. intros [= <-].
  assert (slug_body (Str.lower (Str.strip v)) = true) as Hb.
  { apply orb_true_iff in Hm as [Hm|Hm]; [done|].
    destruct (without_final_newline _) as [w|] eqn:Hw; [|done].
    by apply without_final_newline_rstrip in Hw. }
  generalize dependent (Str.lower (Str.strip v)). intros s _ Hb. split; [done|].
  apply slug_body_chars in Hb as Hc.
  assert (Str.strip s = s) as ->.
  { apply strip_no_space. revert Hc. apply all_chars_impl. intros c Hc.
    by rewrite slug_char_not_space. }
  assert (Str.lower s = s) as -> by (apply map_chars_id; auto using slug_char_lower).
  unfold pattern_match. rewrite Hb. by destruct s.
Qed.

Lemma slug_parse_normalized_witness :
  slug_body "north-star" = true ∧ ProviderSlug.parse "north-star" = Ret "north-star".
Proof. apply (slug_parse_normalized "  North-Star "); reflexivity. Defined.

Lemma without_final_newline_app s : without_final_newline (s +:+ String newline "") = Some s.
Proof.
  induction s as [|c s IH]; [done|].
  change (String c s +:+ String newline "") with (String c (s +:+ String newline "")).
  assert (s +:+ String newline "" ≠ "") as Hne by (by destruct s).
  revert IH. destruct (s +:+ _) as [|d t]; [done|]. intros IH.
  change (String c <$> without_final_newline (String d t) = Some (String c s)). by rewrite IH.
Qed.

(** The constructor itself is laxer than its error message: [ProviderSlug]
    applied to a valid slug followed by a newline succeeds, because the
    pattern is anchored with a dollar sign and tested with [match]. *)
Theorem slug_constructor_accepts_newline (s : string) :
  slug_body s = true →
  ProviderSlug.make (s +:+ String newline "") = Ret (s +:+ String newline "").
Proof.
  intros Hb. unfold ProviderSlug.make, pattern_match. rewrite without_final_newline_app, Hb.
  by rewrite orb_true_r.
Qed.

Lemma slug_constructor_accepts_newline_witness :
  ProviderSlug.make ("cobalt" +:+ String newline "") = Ret ("cobalt" +:+ String newline "").
Proof. apply (slug_constructor_accepts_newline "cobalt"); reflexivity. Defined.

(** A correlation id obtained with [parse] always has 1 to 128 characters
    and [parse] never raises, whatever the caller sent: absent, blank or
    oversized values are replaced or cut. *)
Theorem correlation_parse_total (u : UUID) (v : option string) :
  (u < 2 ^ 128)%N →
  ∃ s, CorrelationId.parse u v = Ret s ∧ 1 ≤ Str.len s ≤ 128.
Proof.
  intros Hu.
  assert (∀ s, s ≠ "" → Str.len s ≤ 128 →
    ∃ s', CorrelationId.make s = Ret s' ∧ 1 ≤ Str.len s' ≤ 128) as Hmake.
  { intros s Hs Hlen. exists s. unfold CorrelationId.make.
    apply Str.truthy_true in Hs as Ht. rewrite Ht. cbn.
    replace (128 <? Str.len s) with false by (symmetry; apply Z.ltb_ge; done).
    split; [done|]. split; [|done]. destruct s; [done|]. unfold Str.len. cbn. lia. }
  assert (∃ s, CorrelationId.generate u = Ret s ∧ 1 ≤ Str.len s ≤ 128) as Hgen.
  { apply Hmake; [|unfold Str.len; by rewrite length_uuid_str].
    intros Heq. pose proof (length_uuid_str u Hu) as Hl. by rewrite Heq in Hl. }
  destruct v as [v|]; [|done]. unfold CorrelationId.parse.
  destruct (Str.truthy (Str.strip v)) eqn:Ht; [|done].
  apply Hmake.
  - apply Str.truthy_true in Ht. by destruct (Str.strip v).
  - unfold Str.len. rewrite Str.length_take. lia.
Qed.

Lemma correlation_parse_total_witness :
  ∃ s, CorrelationId.parse 1 (Some "  ") = Ret s ∧ 1 ≤ Str.len s ≤ 128.
Proof. apply (correlation_parse_total 1 (Some "  ")). reflexivity. Defined.

(** Two creation bodies that differ only in the order of object keys or in
    writing a whole number as a float, at any depth, have the same canonical
    JSON and so the same fingerprint: a client that re-serialises its body on
    retry is never told its idempotency key conflicts. *)
Theorem fingerprint_respects_equiv (float_repr : Q → string) (p op er : string) (o o' : dict) :
  json_equiv (JObj o) (JObj o') →
  fingerprint_of float_repr p op er o = fingerprint_of float_repr p op er o' ∧
  ∃ f, fingerprint_of float_repr p op er o = Ret f.
Proof.
  intros Ho. unfold fingerprint_of, canonical_json. split.
  - erewrite (_normalize_proper (JObj [_; _; _; ("payload", JObj o)])); [reflexivity|].
    apply (je_field [("provider", JStr p); ("operation_type", JStr op);
                     ("external_reference", JStr er)] "payload" _ _ []), Ho.
  - unfold fingerprint_make, Str.len. rewrite sha256_hexdigest_length. eexists. reflexivity.
Qed.

Lemma fingerprint_respects_equiv_witness :
  let a := [("b", JFloat (2 # 1)); ("a", JList [JBool true])] in
  let b := [("a", JList [JBool true]); ("b", JInt 2)] in
  fingerprint_of (λ _, "") "cobalt" "access_grant" "ref" a =
  fingerprint_of (λ _, "") "cobalt" "access_grant" "ref" b.
Proof.
  cbn zeta. apply fingerprint_respects_equiv.
  transitivity (JObj [("b", JInt 2); ("a", JList [JBool true])]).
  - apply (je_field []). apply je_number. reflexivity.
  - apply je_order; [apply perm_swap|]. by apply (bool_decide_unpack _).
Defined.
