(* ===== verification/Redaction.v ===== *)
(** Redaction of what leaves the process ([observability/redaction.py]), and
    what an observer of its output can learn. *)

From S2P Require Import Prelude PyData PyText Enums Errors ValueObjects.

Definition REDACTED : string := "[redacted]".

(** The fragments that mark a key as sensitive, and the keys that contain one
    without being so. *)
Definition _SENSITIVE_KEY_FRAGMENTS : list string :=
  ["password"; "passwd"; "secret"; "token"; "apikey"; "api_key"; "authorization"; "auth";
   "credential"; "signature"; "privatekey"; "private_key"; "sessionid"; "cookie"; "ssn"; "taxid";
   "cardnumber"; "cvv"; "iban"; "accountnumber"; "email"; "phone"; "address"; "dateofbirth";
   "date_of_birth"].
Definition _ALLOWED_KEYS : list string :=
  ["authtype"; "auth_type"; "authenticationtype"; "authentication_type"; "tokentype"; "token_type";
   "hasapikey"; "signaturescheme"; "signature_scheme"; "emaildomain"].

Definition MAX_DEPTH : nat := 6.
Definition MAX_SEQUENCE_ITEMS : nat := 50.
Definition MAX_STRING_LENGTH : nat := 512.
#[global] Arguments MAX_DEPTH : simpl never.
#[global] Arguments MAX_SEQUENCE_ITEMS : simpl never.
#[global] Arguments MAX_STRING_LENGTH : simpl never.

(** The characters of [s] that satisfy [p]. *)
Fixpoint keep_chars (p : Ascii.ascii → bool) (s : string) : string :=
  match s with
  | EmptyString => EmptyString
  | String c s' => if p c then String c (keep_chars p s') else keep_chars p s'
  end.
(** [_NON_ALNUM.sub("", key.lower())] *)
Definition normalised (key : string) : string :=
  keep_chars (λ c, is_lower c || is_digit c) (Str.lower key).
(** [fragment.replace("_", "")] *)
Definition without_underscores (s : string) : string :=
  keep_chars (λ c, negb (one_of "_" c)) s.

Definition is_sensitive_key (key : string) : bool :=
  if bool_decide (normalised key ∈ _ALLOWED_KEYS) then false
  else if existsb (λ allowed, bool_decide (allowed = normalised key)) _ALLOWED_KEYS then false
  else existsb (λ fragment, Str.contains (without_underscores fragment) (normalised key))
         _SENSITIVE_KEY_FRAGMENTS.

Definition _summarise (v : json) : string :=
  match v with
  | JObj o => "[dict with " +:+ pretty (Z.of_nat (length o)) +:+ " keys]"
  | JList l => "[sequence with " +:+ pretty (Z.of_nat (length l)) +:+ " items]"
  | _ => "[truncated]"
  end.

(** [redact(value, depth=depth)]. The items of a list are redacted before the
    first fifty are kept, which yields the same list as the other order. *)
Fixpoint redact (depth : nat) (v : json) : json :=
  if (MAX_DEPTH <=? depth)%nat then JStr (_summarise v)
  else match v with
  | JObj o =>
      JObj (dict_merge [] (map (λ kv, (kv.1, if is_sensitive_key kv.1 then JStr REDACTED
                                             else redact (S depth) kv.2)) o))
  | JList l =>
      JList (take MAX_SEQUENCE_ITEMS (map (redact (S depth)) l) ++
             if (MAX_SEQUENCE_ITEMS <? length l)%nat
             then [JStr ("[" +:+ pretty (Z.of_nat (length l - MAX_SEQUENCE_ITEMS)) +:+ " more items omitted]")]
             else [])
  | JStr s => if (MAX_STRING_LENGTH <? String.length s)%nat
              then JStr (Str.take MAX_STRING_LENGTH s +:+ "...[truncated]") else v
  | _ => v
  end.

Definition redact_headers (headers : list (string * string)) : list (string * string) :=
  map (λ kv, (kv.1, if is_sensitive_key kv.1 then REDACTED else kv.2)) headers.

(** [value[-visible:]] *)
Definition last_chars (n : nat) (s : string) : string :=
  let l := String.list_ascii_of_string s in
  String.string_of_list_ascii (if (n =? 0)%nat then l else drop (length l - n) l).
Definition mask_secret (v : option string) (visible : nat) : string :=
  match v with
  | None => REDACTED
  | Some s => if negb (Str.truthy s) then REDACTED
              else if (String.length s <=? visible)%nat then REDACTED
              else "********" +:+ last_chars visible s
  end.

(** * Induction on JSON values *)

Section JsonInd.
Context (P : json → Prop).
Context (Hatom : ∀ v, match v with JList _ | JObj _ => True | _ => P v end).
Context (Hlist : ∀ l, Forall P l → P (JList l)).
Context (Hobj : ∀ o, Forall (λ kv, P kv.2) o → P (JObj o)).
Fixpoint json_ind' (v : json) : P v :=
  match v with
  | JList l => Hlist l ((fix go l := match l return Forall P l with
                                     | [] => Forall_nil_2 _
                                     | x :: l' => Forall_cons_2 _ _ _ (json_ind' x) (go l')
                                     end) l)
  | JObj o => Hobj o ((fix go o := match o return Forall (λ kv : string * json, P kv.2) o with
                                   | [] => Forall_nil_2 _
                                   | kv :: o' => Forall_cons_2 _ _ _ (json_ind' kv.2) (go o')
                                   end) o)
  | JNull => Hatom JNull
  | JBool b => Hatom (JBool b)
  | JInt z => Hatom (JInt z)
  | JFloat q => Hatom (JFloat q)
  | JStr s => Hatom (JStr s)
  end.
End JsonInd.

(** * What redaction hides *)

#[local] Set Warnings "-register-all".
(** Two values that agree on everything but what stands under a sensitive key. *)
Inductive same_public : json → json → Prop :=
  | sp_atom v : same_public v v
  | sp_list l l' : Forall2 same_public l l' → same_public (JList l) (JList l')
  | sp_obj o o' :
      Forall2 (λ kv kv', kv.1 = kv'.1 ∧ (is_sensitive_key kv.1 = true ∨ same_public kv.2 kv'.2)) o o' →
      same_public (JObj o) (JObj o').

(** Every value under a sensitive key is the marker, at any depth. *)
Fixpoint masked (v : json) : bool :=
  match v with
  | JList l => forallb masked l
  | JObj o => forallb (λ kv, (if is_sensitive_key kv.1 then match kv.2 with JStr s => bool_decide (s = REDACTED) | _ => false end else true)
                             && masked kv.2) o
  | _ => true
  end.

(** What stands for a part that was left out. *)
Definition note (s : string) : Prop :=
  ∃ n : nat, s = "[dict with " +:+ pretty (Z.of_nat n) +:+ " keys]" ∨
             s = "[sequence with " +:+ pretty (Z.of_nat n) +:+ " items]" ∨
             s = "[" +:+ pretty (Z.of_nat n) +:+ " more items omitted]".

(** At most [n] levels of containers, short lists and short texts. *)
Inductive small : nat → json → Prop :=
  | small_atom n v : match v with JStr _ | JList _ | JObj _ => False | _ => True end → small n v
  | small_text n s : (String.length s ≤ MAX_STRING_LENGTH + 14)%nat ∨ note s → small n (JStr s)
  | small_list n l : (length l ≤ MAX_SEQUENCE_ITEMS + 1)%nat → Forall (small n) l → small (S n) (JList l)
  | small_obj n o : Forall (λ kv, small n kv.2) o → small (S n) (JObj o).

Lemma redact_deep d v : (MAX_DEPTH <= d)%nat → redact d v = JStr (_summarise v).
Proof. intros Hd. apply Nat.leb_le in Hd. destruct v; cbn; by rewrite Hd. Qed.
Lemma redact_shallow d v : (d < MAX_DEPTH)%nat →
  redact d v =
  match v with
  | JObj o =>
      JObj (dict_merge [] (map (λ kv, (kv.1, if is_sensitive_key kv.1 then JStr REDACTED
                                             else redact (S d) kv.2)) o))
  | JList l =>
      JList (take MAX_SEQUENCE_ITEMS (map (redact (S d)) l) ++
             if (MAX_SEQUENCE_ITEMS <? length l)%nat
             then [JStr ("[" +:+ pretty (Z.of_nat (length l - MAX_SEQUENCE_ITEMS)) +:+ " more items omitted]")]
             else [])
  | JStr s => if (MAX_STRING_LENGTH <? String.length s)%nat
              then JStr (Str.take MAX_STRING_LENGTH s +:+ "...[truncated]") else v
  | _ => v
  end.
Proof. intros Hd. apply Nat.leb_gt in Hd. destruct v; cbn [redact]; by rewrite Hd. Qed.

(** Dictionaries built item by item. *)
Lemma dict_set_forall (P : string * json → Prop) k v d :
  P (k, v) → Forall P d → Forall P (dict_set k v d).
Proof.
  intros Hkv. induction 1 as [|[k' v'] d Hp Hd IH]; cbn; [by constructor|].
  case_bool_decide; by constructor.
Qed.
Lemma dict_merge_forall (P : string * json → Prop) d e :
  Forall P d → Forall P e → Forall P (dict_merge d e).
Proof.
  intros Hd He. revert d Hd. induction He as [|[k v] e Hkv He IH]; intros d Hd; [done|].
  apply IH. by apply dict_set_forall.
Qed.

(** A property of every value [redact] builds, from its parts. *)
Lemma redact_ind (P : nat → json → Prop) :
  (∀ d v, (MAX_DEPTH <= d)%nat → P d (JStr (_summarise v))) →
  (∀ d o, (d < MAX_DEPTH)%nat →
     Forall (λ kv, if is_sensitive_key kv.1 then kv.2 = JStr REDACTED else P (S d) kv.2) o → P d (JObj o)) →
  (∀ d l tl, (d < MAX_DEPTH)%nat → (length l ≤ MAX_SEQUENCE_ITEMS)%nat →
     tl = [] ∨ (∃ n, tl = [JStr ("[" +:+ pretty (Z.of_nat n) +:+ " more items omitted]")]) →
     Forall (P (S d)) l → P d (JList (l ++ tl))) →
  (∀ d s, (d < MAX_DEPTH)%nat → (String.length s ≤ MAX_STRING_LENGTH + 14)%nat → P d (JStr s)) →
  (∀ d v, (d < MAX_DEPTH)%nat → match v with JStr _ | JList _ | JObj _ => True | _ => P d v end) →
  ∀ v d, P d (redact d v).
Proof.
  intros Hdeep Hobj Hlist Hstr Hatom v. pattern v. apply json_ind'; clear v; [intros v|intros l IH|intros o IH].
  - destruct v as [|b|z|q|s|l|o]; try done; intros d;
      (destruct (decide (MAX_DEPTH <= d)%nat) as [Hd|Hd]; [rewrite redact_deep by done; by apply Hdeep|]);
      rewrite redact_shallow by lia.
    1: apply (Hatom d JNull); lia. 1: apply (Hatom d (JBool b)); lia.
    1: apply (Hatom d (JInt z)); lia. 1: apply (Hatom d (JFloat q)); lia.
    destruct (Nat.ltb_spec MAX_STRING_LENGTH (String.length s)) as [Hs|Hs]; apply Hstr; try lia.
    rewrite length_append, Str.length_take. change (String.length "...[truncated]") with 14%nat. lia.
  - intros d. destruct (decide (MAX_DEPTH <= d)%nat) as [Hd|Hd]; [rewrite redact_deep by done; by apply Hdeep|].
    rewrite redact_shallow by lia.
    apply Hlist; [lia|rewrite length_take; lia| |].
    + destruct (MAX_SEQUENCE_ITEMS <? length l)%nat; [right; by eexists|by left].
    + apply Forall_take, Forall_map. eapply Forall_impl; [exact IH|]. intros x Hx. apply Hx.
  - intros d. destruct (decide (MAX_DEPTH <= d)%nat) as [Hd|Hd]; [rewrite redact_deep by done; by apply Hdeep|].
    rewrite redact_shallow by lia. apply Hobj; [lia|]. apply dict_merge_forall; [constructor|].
    apply Forall_map. eapply Forall_impl; [exact IH|]. intros [k x] Hx. cbn in *.
    destruct (is_sensitive_key k); [done|apply Hx].
Qed.

Lemma redact_masked v d : masked (redact d v) = true.
Proof.
  revert v d. apply (redact_ind (λ _ v, masked v = true)); try done.
  - intros d o _ Ho. cbn. apply forallb_forall. intros [k x] Hin%list_elem_of_In. rewrite Forall_forall in Ho.
    specialize (Ho _ Hin). cbn in *. destruct (is_sensitive_key k); [by subst|done].
  - intros d l tl _ _ Htl Hl. cbn. rewrite forallb_app. apply andb_true_iff. split.
    + apply forallb_forall. intros x Hin%list_elem_of_In. rewrite Forall_forall in Hl. by apply Hl.
    + by destruct Htl as [->|[n ->]].
  - by intros d [].
Qed.

Lemma redact_public (v v' : json) (depth : nat) : same_public v v' → redact depth v = redact depth v'.
Proof.
  revert v' depth. pattern v. apply json_ind'; clear v; [intros v|intros l IH|intros o IH].
  - destruct v; try done; intros v' d Hv; by inversion Hv.
  - intros v' d Hv. inversion Hv as [|? l' Hl|]; subst; [done|].
    destruct (decide (MAX_DEPTH <= d)%nat) as [Hd|Hd].
    { rewrite !redact_deep by done. cbn. by rewrite (Forall2_length _ _ _ Hl). }
    rewrite !redact_shallow, (Forall2_length _ _ _ Hl) by lia.
    do 3 f_equal. clear Hv Hd. induction Hl as [|x y l l' Hxy Hl IHl]; [done|].
    apply Forall_cons in IH as [Hx IH]. cbn. f_equal; [by apply Hx|by apply IHl].
  - intros v' d Hv. inversion Hv as [| |? o' Ho]; subst; [done|].
    destruct (decide (MAX_DEPTH <= d)%nat) as [Hd|Hd].
    { rewrite !redact_deep by done. cbn. by rewrite (Forall2_length _ _ _ Ho). }
    rewrite !redact_shallow by lia. do 2 f_equal. clear Hv Hd.
    induction Ho as [|[k x] [k' y] o o' [Hk Hxy] Ho IHo]; [done|]. cbn in Hk, Hxy. subst k'.
    apply Forall_cons in IH as [Hx IH]. cbn -[redact]. f_equal; [|by apply IHo]. f_equal.
    destruct (is_sensitive_key k) eqn:Hs; [done|]. destruct Hxy; [done|]. by apply Hx.
Qed.

(** Redaction leaks nothing it should hide: two payloads that differ only in
    what stands under sensitive keys, at any depth, are redacted to the same
    value. *)
Theorem redaction_noninterference (v v' : json) (depth : nat) :
  same_public v v' → redact depth v = redact depth v'.
Proof. apply redact_public. Qed.

Lemma redaction_noninterference_witness :
  let body secret := JObj [("spec", JList [JObj [("Client-Secret", JStr secret); ("size", JInt 3)]])] in
  redact 0 (body "hunter2") = redact 0 (body "correct horse").
Proof.
  cbn zeta. apply redaction_noninterference. constructor. constructor; [|constructor]. split; [done|right].
  constructor. constructor; [|constructor]. constructor.
  constructor; [split; [done|by left]|constructor; [split; [done|right; constructor]|constructor]].
Defined.

(** Redacted values are harmless and small: in the result every value under a
    sensitive key is the marker, nothing is nested deeper than six levels, no
    list has more than fifty items and a note, and no text is longer than the
    limit and its truncation mark. *)
Theorem redaction_bounds (v : json) : masked (redact 0 v) = true ∧ small MAX_DEPTH (redact 0 v).
Proof.
  split; [apply redact_masked|].
  enough (∀ d, (d ≤ MAX_DEPTH)%nat → small (MAX_DEPTH - d) (redact d v)) as Hs by (apply (Hs O); lia).
  intros d. pattern d, (redact d v). apply redact_ind; clear d v.
  - intros d v _ _. apply small_text. unfold note. destruct v as [| | | | |l|o]; try (left; cbn; lia); right; eauto.
  - intros d o Hd Ho _. replace (MAX_DEPTH - d)%nat with (S (MAX_DEPTH - S d)) by lia. apply small_obj.
    eapply Forall_impl; [exact Ho|]. intros [k x]. cbn. destruct (is_sensitive_key k).
    + intros ->. apply small_text. left. cbn. lia.
    + intros Hx. apply Hx. lia.
  - intros d l tl Hd Hl Htl Hall _. replace (MAX_DEPTH - d)%nat with (S (MAX_DEPTH - S d)) by lia. apply small_list.
    + rewrite length_app. destruct Htl as [->|[n ->]]; cbn; lia.
    + apply Forall_app. split; [eapply Forall_impl; [exact Hall|]; intros x Hx; apply Hx; lia|].
      destruct Htl as [->|[n ->]]; [constructor|constructor; [apply small_text; right; unfold note; eauto|constructor]].
  - intros d s _ Hs _. apply small_text. by left.
  - intros d v Hd. destruct v; try done; intros _; by constructor.
Qed.
