(* ===== verification/JsonText.v ===== *)
(** JSON text: [json.loads] and [json.dumps] of the Python library.

    The reader runs on fuel, twice the length of the text and one more, which
    is enough ([parse_no_fuel]). Text beyond the code points of the model (above
    255), UTF-16 and UTF-32 input, [NaN] and [Infinity] are read as
    [Unmodelled]. *)

From S2P Require Import Prelude PyData PyTime PyText Sha256 Enums Errors ValueObjects Redaction.

(** * Reading *)

Inductive json_error : Type :=
  | JSONDecodeError
  | UnicodeDecodeError
  | TooManyDigits
  | Unmodelled.

Inductive parsed (A : Type) : Type :=
  | Parsed (a : A) (rest : string)
  | Failed (e : json_error)
  | NoFuel.
Arguments Parsed {A} a rest.
Arguments Failed {A} e.
Arguments NoFuel {A}.
Definition and_then {A B} (p : parsed A) (k : A → string → parsed B) : parsed B :=
  match p with
  | Parsed a rest => k a rest
  | Failed e => Failed e
  | NoFuel => NoFuel
  end.

Definition is_ws (c : Ascii.ascii) : bool := one_of " " c || one_of (String (Text.chr 9) (String (Text.chr 10) (String (Text.chr 13) ""))) c.
Fixpoint skip_ws (s : string) : string :=
  match s with
  | String c s' => if is_ws c then skip_ws s' else s
  | EmptyString => s
  end.

Definition prepend (c : Ascii.ascii) (p : parsed string) : parsed string :=
  and_then p (λ t rest, Parsed (String c t) rest).

(** The character an escape of one letter stands for. *)
Definition escaped (c : Ascii.ascii) : option Ascii.ascii :=
  let n := Str.code c in
  if (n =? 34) || (n =? 92) || (n =? 47) then Some c
  else if n =? 98 then Some (Text.chr 8)
  else if n =? 102 then Some (Text.chr 12)
  else if n =? 110 then Some (Text.chr 10)
  else if n =? 114 then Some (Text.chr 13)
  else if n =? 116 then Some (Text.chr 9)
  else None.
Definition hex4 (a b c d : Ascii.ascii) : option Z :=
  match Num.digit_in 16 a, Num.digit_in 16 b, Num.digit_in 16 c, Num.digit_in 16 d with
  | Some a, Some b, Some c, Some d => Some (((a * 16 + b) * 16 + c) * 16 + d)
  | _, _, _, _ => None
  end.

(** [scanstring], after the opening quote. *)
Fixpoint scan (s : string) : parsed string :=
  match s with
  | EmptyString => Failed JSONDecodeError
  | String c s1 =>
      if Text.is_code 34 c then Parsed "" s1
      else if Text.is_code 92 c then
        match s1 with
        | EmptyString => Failed JSONDecodeError
        | String e s2 =>
            if Text.is_code 117 e then
              match s2 with
              | String h1 (String h2 (String h3 (String h4 s3))) =>
                  match hex4 h1 h2 h3 h4 with
                  | Some n => if n <? 256 then prepend (Text.chr n) (scan s3) else Failed Unmodelled
                  | None => Failed JSONDecodeError
                  end
              | _ => Failed JSONDecodeError
              end
            else match escaped e with
                 | Some x => prepend x (scan s2)
                 | None => Failed JSONDecodeError
                 end
        end
      else if Str.code c <? 32 then Failed JSONDecodeError
      else prepend c (scan s1)
  end.

(** [_match_number]: the integer part, then a fraction and an exponent when
    they are complete. *)
Definition number (s : string) : parsed json :=
  let '(sg, s1) := match s with
                   | String c s' => if Text.is_code 45 c then (-1, s') else (1, s)
                   | EmptyString => (1, s)
                   end in
  match s1 with
  | EmptyString => Failed JSONDecodeError
  | String c s2 =>
      if negb (Text.is_digit c) then Failed JSONDecodeError
      else
        let '(i, ni, r) := if Text.is_code 48 c then (0, 1, s2) else Num.span_digits 0 0 s1 in
        let '(m, nf, r1) := match r with
                            | String d r' =>
                                if Text.is_code 46 d then
                                  let '(m, nf, r'') := Num.span_digits i 0 r' in
                                  if 0 <? nf then (m, nf, r'') else (i, 0, r)
                                else (i, 0, r)
                            | EmptyString => (i, 0, r)
                            end in
        let '(e, ne, r2) := match r1 with
                            | String d r' =>
                                if Text.is_code 101 d || Text.is_code 69 d then
                                  let '(sge, r'') := Num.signed r' in
                                  let '(e, ne, r3) := Num.span_digits 0 0 r'' in
                                  if 0 <? ne then (sge * e, ne, r3) else (0, 0, r1)
                                else (0, 0, r1)
                            | EmptyString => (0, 0, r1)
                            end in
        if (nf =? 0) && (ne =? 0) then
          (if 4300 <? ni then Failed TooManyDigits else Parsed (JInt (sg * i)) r2)
        else Parsed (JFloat (Num.clamp (inject_Z (sg * m) * Num.power10 (e - nf)))) r2
  end.

(** [s] without the prefix [p]. *)
Definition literal (p s : string) (v : parsed json) : parsed json :=
  if String.prefix p s then match v with Parsed a _ => Parsed a (Text.drop (String.length p) s) | _ => v end
  else Failed JSONDecodeError.

(** [scan_once] and the loops of [JSONArray] and [JSONObject]: [items] reads
    from an element on, [members] from the quote of a key on. *)
Fixpoint parse (fuel : nat) (s : string) : parsed json :=
  match fuel with
  | O => NoFuel
  | S n =>
      match s with
      | EmptyString => Failed JSONDecodeError
      | String c s1 =>
          if Text.is_code 34 c then and_then (scan s1) (λ t r, Parsed (JStr t) r)
          else if Text.is_code 91 c then
            let s2 := skip_ws s1 in
            match s2 with
            | String d s3 => if Text.is_code 93 d then Parsed (JList []) s3
                             else and_then (items n s2) (λ l r, Parsed (JList l) r)
            | EmptyString => Failed JSONDecodeError
            end
          else if Text.is_code 123 c then
            let s2 := skip_ws s1 in
            match s2 with
            | String d s3 => if Text.is_code 125 d then Parsed (JObj []) s3
                             else and_then (members n s2) (λ l r, Parsed (JObj (dict_merge [] l)) r)
            | EmptyString => Failed JSONDecodeError
            end
          else if Text.is_code 110 c then literal "null" s (Parsed JNull "")
          else if Text.is_code 116 c then literal "true" s (Parsed (JBool true) "")
          else if Text.is_code 102 c then literal "false" s (Parsed (JBool false) "")
          else if Text.is_code 78 c then literal "NaN" s (Failed Unmodelled)
          else if Text.is_code 73 c then literal "Infinity" s (Failed Unmodelled)
          else if String.prefix "-Infinity" s then Failed Unmodelled
          else number s
      end
  end
with items (fuel : nat) (s : string) : parsed (list json) :=
  match fuel with
  | O => NoFuel
  | S n =>
      and_then (parse n s) (λ v r,
        match skip_ws r with
        | String c r' =>
            if Text.is_code 93 c then Parsed [v] r'
            else if Text.is_code 44 c then and_then (items n (skip_ws r')) (λ l r'', Parsed (v :: l) r'')
            else Failed JSONDecodeError
        | EmptyString => Failed JSONDecodeError
        end)
  end
with members (fuel : nat) (s : string) : parsed (list (string * json)) :=
  match fuel with
  | O => NoFuel
  | S n =>
      match s with
      | String q s1 =>
          if Text.is_code 34 q then
            and_then (scan s1) (λ k r,
              match skip_ws r with
              | String c r1 =>
                  if Text.is_code 58 c then
                    and_then (parse n (skip_ws r1)) (λ v r2,
                      match skip_ws r2 with
                      | String d r3 =>
                          if Text.is_code 125 d then Parsed [(k, v)] r3
                          else if Text.is_code 44 d then
                            and_then (members n (skip_ws r3)) (λ l r4, Parsed ((k, v) :: l) r4)
                          else Failed JSONDecodeError
                      | EmptyString => Failed JSONDecodeError
                      end)
                  else Failed JSONDecodeError
              | EmptyString => Failed JSONDecodeError
              end)
          else Failed JSONDecodeError
      | EmptyString => Failed JSONDecodeError
      end
  end.

(** [json.loads(text)] *)
Definition enough (s : string) : nat := S (2 * String.length s).
Definition loads_text (s : string) : json_error + json :=
  match parse (enough s) (skip_ws s) with
  | Parsed v rest => if bool_decide (skip_ws rest = "") then inr v else inl JSONDecodeError
  | Failed e => inl e
  | NoFuel => inl Unmodelled
  end.

(** [json.detect_encoding]: whether the bytes are read as UTF-8, and what
    follows a byte order mark. *)
Definition utf8_input (b : list Z) : option (list Z) :=
  match b with
  | 254 :: 255 :: _ | 255 :: 254 :: _ => None
  | 239 :: 187 :: 191 :: b' => Some b'
  | [x; y] => if (x =? 0) || (y =? 0) then None else Some b
  | x :: y :: _ :: _ :: _ => if (x =? 0) || (y =? 0) then None else Some b
  | _ => Some b
  end.
(** [json.loads(data)] *)
Definition loads (b : list Z) : json_error + json :=
  match utf8_input b with
  | None => inl Unmodelled
  | Some b =>
      match Utf8.decode true b with
      | None => inl UnicodeDecodeError
      | Some codes => match Utf8.text codes with
                      | None => inl Unmodelled
                      | Some s => loads_text s
                      end
      end
  end.

(** * Writing *)

Section Print.
(** [float.__repr__], and what follows a comma or a colon: nothing for
    [separators=(",", ":")], a blank for the default. *)
Context (float_repr : Q → string) (sp : string).

(** [json.dumps(v)] *)
Fixpoint print (v : json) : string :=
  match v with
  | JNull => "null"
  | JBool true => "true"
  | JBool false => "false"
  | JInt z => pretty z
  | JFloat q => float_repr q
  | JStr s => quoted s
  | JList l => "[" +:+ String.concat ("," +:+ sp) (map print l) +:+ "]"
  | JObj o => "{" +:+ String.concat ("," +:+ sp) (map (λ kv, quoted kv.1 +:+ ":" +:+ sp +:+ print kv.2) o) +:+ "}"
  end.
End Print.

(** * Fuel *)

Lemma skip_ws_length s : (String.length (skip_ws s) ≤ String.length s)%nat.
Proof. induction s as [|c s IH]; cbn; [lia|]. destruct (is_ws c); cbn; lia. Qed.
Lemma span_digits_length acc n s : (String.length (Num.span_digits acc n s).2 ≤ String.length s)%nat.
Proof.
  revert acc n. induction s as [|c s IH]; intros acc n; cbn; [lia|].
  destruct (Num.digit_in 10 c); cbn; [|lia]. etransitivity; [apply IH|lia].
Qed.
Lemma drop_length n s : (String.length (Text.drop n s) = String.length s - n)%nat.
Proof. revert s. induction n as [|n IH]; intros [|c s]; cbn; try lia. by rewrite IH. Qed.

(** What a reader that has fuel answers: never [NoFuel], and it consumes. *)
Definition consumes {A} (s : string) (p : parsed A) : Prop :=
  match p with
  | Parsed _ r => (String.length r < String.length s)%nat
  | Failed _ => True
  | NoFuel => False
  end.

Lemma consumes_then {A B} (s : string) (p : parsed A) (k : A → string → parsed B) :
  consumes s p → (∀ a r, (String.length r < String.length s)%nat → consumes s (k a r)) →
  consumes s (and_then p k).
Proof. destruct p; cbn; auto. Qed.
Lemma consumes_weaken {A} s s' (p : parsed A) :
  consumes s p → (String.length s ≤ String.length s')%nat → consumes s' p.
Proof. destruct p; cbn; auto. lia. Qed.

Lemma scan_consumes s : consumes s (scan s).
Proof.
  enough (∀ n s, (String.length s ≤ n)%nat → consumes s (scan s)) as Hn by (by eapply Hn).
  clear s. induction n as [|n IH]; intros [|c s] Hs; cbn in Hs; try done; [lia|].
  cbn [scan]. destruct (Text.is_code 34 c); [cbn; lia|].
  assert (∀ c' s', (String.length s' ≤ n)%nat → (String.length s' < String.length (String c s))%nat →
    consumes (String c s) (prepend c' (scan s'))) as Hp.
  { intros c' s' Hle Hlt. apply consumes_then; [|intros a r Hr; exact Hr].
    eapply consumes_weaken; [by apply IH|lia]. }
  destruct (Text.is_code 92 c).
  - destruct s as [|e s]; [done|]. cbn in Hs. destruct (Text.is_code 117 e).
    + destruct s as [|h1 [|h2 [|h3 [|h4 s]]]]; try done. cbn in Hs. destruct (hex4 h1 h2 h3 h4) as [z|]; [|done].
      destruct (z <? 256); [|done]. apply Hp; cbn; lia.
    + destruct (escaped e); [|done]. apply Hp; cbn; lia.
  - destruct (Str.code c <? 32); [done|]. apply Hp; cbn; lia.
Qed.

Lemma number_consumes s : consumes s (number s).
Proof.
  unfold number. destruct (match s with String c s' => _ | "" => _ end) as [sg s1] eqn:Hs1.
  assert (String.length s1 ≤ String.length s)%nat as Hle.
  { destruct s as [|c s]; [by injection Hs1 as <- <-|]. destruct (Text.is_code 45 c); injection Hs1 as <- <-; cbn; lia. }
  destruct s1 as [|c s2]; [done|]. destruct (negb (Text.is_digit c)) eqn:Hd; [done|].
  destruct (if Text.is_code 48 c then _ else _) as [[i ni] r] eqn:Hi.
  assert (String.length r < String.length s)%nat as Hr.
  { destruct (Text.is_code 48 c); [injection Hi as <- <- <-; cbn in Hle; lia|].
    cbn [Num.span_digits] in Hi. unfold Text.is_digit in Hd. apply negb_false_iff in Hd.
    unfold Num.digit_in, Num.digit_value in Hi. rewrite Hd in Hi.
    apply andb_true_iff in Hd. rewrite !Z.leb_le in Hd. rewrite (proj2 (Z.ltb_lt _ _)) in Hi by lia.
    match type of Hi with Num.span_digits ?a ?n s2 = _ => pose proof (span_digits_length a n s2) as Hl end.
    rewrite Hi in Hl. cbn in Hl, Hle. lia. }
  destruct (match r with String d r' => _ | "" => _ end) as [[m nf] r1] eqn:Hf.
  assert (String.length r1 ≤ String.length r)%nat as Hr1.
  { destruct r as [|d r]; [by injection Hf as <- <- <-|]. destruct (Text.is_code 46 d); [|by injection Hf as <- <- <-].
    pose proof (span_digits_length i 0 r) as Hl. destruct (Num.span_digits i 0 r) as [[m' nf'] r''].
    destruct (0 <? nf'); injection Hf as <- <- <-; cbn in *; lia. }
  destruct (match r1 with String d r' => _ | "" => _ end) as [[e ne] r2] eqn:He.
  assert (String.length r2 ≤ String.length r1)%nat as Hr2.
  { destruct r1 as [|d r1]; [by injection He as <- <- <-|].
    destruct (Text.is_code 101 d || Text.is_code 69 d); [|by injection He as <- <- <-].
    assert (String.length (Num.signed r1).2 ≤ String.length r1)%nat as Hsg.
    { destruct r1 as [|x r1]; [done|]. cbn. destruct (Text.is_code 45 x), (Text.is_code 43 x); cbn; lia. }
    destruct (Num.signed r1) as [sge r'']. pose proof (span_digits_length 0 0 r'') as Hl.
    destruct (Num.span_digits 0 0 r'') as [[e' ne'] r3].
    destruct (0 <? ne'); injection He as <- <- <-; cbn in *; lia. }
  destruct ((nf =? 0) && (ne =? 0)); [destruct (4300 <? ni); [done|]|]; cbn; lia.
Qed.

Lemma literal_consumes p s v : p ≠ "" →
  match v with NoFuel => False | _ => True end → consumes s (literal p s v).
Proof.
  intros Hp Hv. unfold literal. destruct (String.prefix p s) eqn:Hpre; [|done].
  destruct v; try done. cbn. rewrite drop_length. destruct p as [|x p]; [done|]. destruct s; [done|].
  cbn. lia.
Qed.

(** Twice the length and one more is enough fuel, for every text. *)
Lemma parse_consumes n : ∀ s,
  ((2 * String.length s + 1 ≤ n)%nat → consumes s (parse n s)) ∧
  ((2 * String.length s + 2 ≤ n)%nat → consumes s (items n s) ∧ consumes s (members n s)).
Proof.
  induction n as [|n IH]; intros s; [split; lia|]. split.
  - intros Hn. destruct s as [|c s1]; [done|]. cbn [parse]. cbn in Hn.
    pose proof (skip_ws_length s1) as Hws.
    repeat match goal with
      | |- consumes _ (if Text.is_code ?k c then _ else _) => destruct (Text.is_code k c)
      | |- consumes _ (literal _ _ _) => by apply literal_consumes
      end.
    + apply consumes_then; [|done]. eapply consumes_weaken; [apply scan_consumes|cbn; lia].
    + cbv zeta. destruct (skip_ws s1) as [|d s3] eqn:Hs; [done|]. rewrite <- Hs in *.
      destruct (Text.is_code 93 d); [rewrite Hs in Hws; cbn in *; lia|].
      apply consumes_then; [|done]. eapply consumes_weaken; [apply IH; lia|cbn; lia].
    + cbv zeta. destruct (skip_ws s1) as [|d s3] eqn:Hs; [done|]. rewrite <- Hs in *.
      destruct (Text.is_code 125 d); [rewrite Hs in Hws; cbn in *; lia|].
      apply consumes_then; [|done]. eapply consumes_weaken; [apply IH; lia|cbn; lia].
    + destruct (String.prefix "-Infinity" (String c s1)); [done|]. apply number_consumes.
  - intros Hn. split.
    + cbn [items]. apply consumes_then; [apply IH; lia|]. intros v r Hr.
      pose proof (skip_ws_length r). destruct (skip_ws r) as [|c r']; [done|]. cbn in *.
      destruct (Text.is_code 93 c); [cbn; lia|]. destruct (Text.is_code 44 c); [|done].
      pose proof (skip_ws_length r'). apply consumes_then; [|done].
      eapply consumes_weaken; [apply IH; lia|lia].
    + cbn [members]. destruct s as [|q s1]; [done|]. destruct (Text.is_code 34 q); [|done]. cbn in Hn.
      apply consumes_then; [eapply consumes_weaken; [apply scan_consumes|cbn; lia]|]. intros k r Hr.
      pose proof (skip_ws_length r). destruct (skip_ws r) as [|c r1]; [done|]. cbn in *.
      destruct (Text.is_code 58 c); [|done]. pose proof (skip_ws_length r1).
      apply consumes_then; [eapply consumes_weaken; [apply IH; lia|cbn; lia]|]. intros v r2 Hr2.
      pose proof (skip_ws_length r2). destruct (skip_ws r2) as [|d r3]; [done|]. cbn in *.
      destruct (Text.is_code 125 d); [cbn; lia|]. destruct (Text.is_code 44 d); [|done].
      pose proof (skip_ws_length r3). apply consumes_then; [|done].
      eapply consumes_weaken; [apply IH; lia|cbn; lia].
Qed.

Lemma parse_no_fuel s : parse (enough s) (skip_ws s) ≠ NoFuel.
Proof.
  intros Hf. pose proof (skip_ws_length s). unfold enough in Hf.
  assert (consumes (skip_ws s) (parse (S (2 * String.length s)) (skip_ws s))) as Hc
    by (apply parse_consumes; lia).
  by rewrite Hf in Hc.
Qed.

(** * Round trip *)

(** Values whose text is read back: no floats, integers of at most 4300 digits,
    distinct keys. *)
Fixpoint readable (v : json) : bool :=
  match v with
  | JFloat _ => false
  | JInt z => Z.abs z <? 10 ^ 4300
  | JList l => forallb readable l
  | JObj o => bool_decide (NoDup o.*1) && forallb (λ kv, readable kv.2) o
  | _ => true
  end.

(** Text after which a number ends. *)
Definition ends (rest : string) : Prop :=
  match rest with
  | EmptyString => True
  | String c _ => Num.digit_in 10 c = None ∧ Text.is_code 46 c = false ∧
                  Text.is_code 101 c = false ∧ Text.is_code 69 c = false
  end.

Lemma scan_escape_char c t : scan (escape_char c +:+ t) = prepend c (scan t).
Proof. revert c. by_char; vm_compute; reflexivity. Qed.
Lemma scan_escape s rest : scan (escape s +:+ String quote_char rest) = Parsed s rest.
Proof.
  induction s as [|c s IH]; [done|]. cbn [escape].
  rewrite Iso.string_app_assoc, scan_escape_char, IH. done.
Qed.
Lemma parse_quoted n s rest : parse (S n) (quoted s +:+ rest) = Parsed (JStr s) rest.
Proof.
  unfold quoted. rewrite append_cons, Iso.string_app_assoc. cbn [parse].
  change (Text.is_code 34 quote_char) with true. cbv iota.
  change (String quote_char "" +:+ rest) with (String quote_char rest). by rewrite scan_escape.
Qed.

(** Decimal digits. *)
Lemma pretty_N_char_digit d : (d < 10)%N →
  Num.digit_in 10 (pretty_N_char d) = Some (Z.of_N d) ∧ Text.is_digit (pretty_N_char d) = true ∧
  (Text.is_code 48 (pretty_N_char d) = true ↔ d = 0%N).
Proof.
  intros Hd. assert (d ∈ [0; 1; 2; 3; 4; 5; 6; 7; 8; 9]%N) as Hin.
  { rewrite !elem_of_cons, elem_of_nil. lia. }
  repeat (apply elem_of_cons in Hin as [->|Hin]; [by vm_compute|]). by apply elem_of_nil in Hin.
Qed.
Lemma pretty_N_go_append x s t : pretty_N_go x s +:+ t = pretty_N_go x (s +:+ t).
Proof.
  revert s. induction (N.lt_wf_0 x) as [x _ IH]; intros s.
  destruct (decide (x = 0%N)) as [->|Hx]; [by rewrite !pretty_N_go_0|].
  rewrite !(pretty_N_go_step x) by lia. apply IH. apply N.div_lt; lia.
Qed.

(** The digits of a positive number: how many, and what reading them gives. *)
Lemma pretty_N_go_spec x : (0 < x)%N →
  ∃ k, 1 ≤ k ∧ 10 ^ (k - 1) ≤ Z.of_N x ∧ ∀ s,
    (∀ acc n, Num.span_digits acc n (pretty_N_go x s) = Num.span_digits (acc * 10 ^ k + Z.of_N x) (n + k) s) ∧
    ∃ c t, pretty_N_go x s = String c t ∧ Text.is_digit c = true ∧ Text.is_code 48 c = false.
Proof.
  induction (N.lt_wf_0 x) as [x _ IH]; intros Hx.
  pose proof (pretty_N_char_digit (x mod 10) (N.mod_lt x 10 ltac:(lia))) as (Hd & Hdig & Hz).
  assert (Z.of_N x = 10 * Z.of_N (x / 10) + Z.of_N (x mod 10)) as Hdiv.
  { rewrite <- (N2Z.inj_mul 10), <- N2Z.inj_add, <- N.div_mod by lia. done. }
  destruct (decide (x / 10 = 0)%N) as [H0|H0].
  - exists 1. split; [lia|]. split; [change (10 ^ (1 - 1)) with 1; lia|]. intros s.
    rewrite pretty_N_go_step, H0, pretty_N_go_0 by done. rewrite H0 in Hdiv. split.
    + intros acc n. cbn [Num.span_digits]. rewrite Hd. f_equal; lia.
    + do 2 eexists. split; [reflexivity|]. split; [done|].
      destruct (Text.is_code 48 _); [|done]. destruct Hz as [Hz _]. rewrite Hz in Hdiv by done. lia.
  - destruct (IH (x / 10)%N) as (k & Hk & Hlow & Hs); [apply N.div_lt; lia|by apply N.neq_0_lt_0|].
    exists (k + 1). split; [lia|]. split.
    { replace (k + 1 - 1) with (1 + (k - 1)) by lia. rewrite Z.pow_add_r by lia. change (10 ^ 1) with 10.
      rewrite Hdiv. pose proof (N2Z.is_nonneg (x mod 10)). clear - Hlow H. lia. }
    intros s. rewrite pretty_N_go_step by done. destruct (Hs (String (pretty_N_char (x mod 10)) s)) as [Hspan Hhead].
    split; [|done]. intros acc n. rewrite Hspan. cbn [Num.span_digits]. rewrite Hd.
    f_equal; [|lia]. rewrite Z.pow_add_r by lia. change (10 ^ 1) with 10. rewrite Hdiv. clear. lia.
Qed.

(** A number's text, read from its first digit. *)
Lemma span_stops acc n rest : ends rest → Num.span_digits acc n rest = (acc, n, rest).
Proof. destruct rest as [|c r]; [done|]. intros [Hc _]. cbn. by rewrite Hc. Qed.

Definition unsigned_text (x : N) : string := if decide (x = 0%N) then "0" else pretty_N_go x "".
Lemma pretty_int z : pretty z = (if z <? 0 then "-" else "") +:+ unsigned_text (Z.to_N (Z.abs z)).
Proof. by destruct z. Qed.

(** The bound on the digits is a variable here: [10 ^ 4300] is never computed. *)
Lemma integer_part L x rest : 1 ≤ L → ends rest → Z.of_N x < 10 ^ L →
  ∃ c s2 k, unsigned_text x +:+ rest = String c s2 ∧ Text.is_digit c = true ∧ k ≤ L ∧
    (if Text.is_code 48 c then (0, 1, s2) else Num.span_digits 0 0 (String c s2)) = (Z.of_N x, k, rest).
Proof.
  intros HL Hr Hx. unfold unsigned_text. case_decide as H0.
  - subst x. exists (Text.chr 48), rest, 1. by split_and!.
  - destruct (pretty_N_go_spec x ltac:(lia)) as (k & Hk & Hlow & Hs). rewrite pretty_N_go_append, append_nil_l.
    destruct (Hs rest) as [Hspan (c & t & Heq & Hc & H48)]. exists c, t, k. split_and!; [done|done| |].
    + assert (10 ^ (k - 1) < 10 ^ L) as Hlt by lia. apply Z.pow_lt_mono_r_iff in Hlt; lia.
    + rewrite H48, <- Heq, Hspan, span_stops by done. done.
Qed.

Lemma number_int L z rest : 1 ≤ L → L ≤ 4300 → ends rest → Z.abs z < 10 ^ L → number (pretty z +:+ rest) = Parsed (JInt z) rest.
Proof.
  intros HL HL' Hr Hz. rewrite pretty_int, Iso.string_app_assoc.
  destruct (integer_part L (Z.to_N (Z.abs z)) rest) as (c & s2 & k & Heq & Hc & Hk & Hi); [done|done|lia|].
  assert (Text.is_code 45 c = false) as H45.
  { unfold Text.is_digit, Text.is_code in *. apply andb_true_iff in Hc. rewrite !Z.leb_le in Hc. apply Z.eqb_neq. lia. }
  assert (∃ s1, number ((if z <? 0 then "-" else "") +:+ unsigned_text (Z.to_N (Z.abs z)) +:+ rest) = s1 ∧
    s1 = Parsed (JInt ((if z <? 0 then -1 else 1) * Z.abs z)) rest) as (? & -> & ->).
  { eexists. split; [reflexivity|]. rewrite Heq. unfold number.
    assert ((match (if z <? 0 then "-" else "") +:+ String c s2 with
             | "" => (1, (if z <? 0 then "-" else "") +:+ String c s2)
             | String c0 s' => if Text.is_code 45 c0 then (-1, s') else (1, (if z <? 0 then "-" else "") +:+ String c s2)
             end) = (if z <? 0 then -1 else 1, String c s2)) as ->.
    { destruct (z <? 0); [done|]. rewrite append_nil_l. by rewrite H45. }
    cbv beta iota. rewrite Hc. cbn [negb]. rewrite Hi. cbv beta iota.
    assert (∀ {A} (x : A) f, match rest with "" => x | String d r' => if Text.is_code 46 d then f d r' else x end = x) as H46.
    { intros A x f. destruct rest as [|d r]; [done|]. destruct Hr as (_ & -> & _). done. }
    rewrite H46. cbv beta iota.
    assert (∀ {A} (x : A) f, match rest with "" => x | String d r' => if Text.is_code 101 d || Text.is_code 69 d then f d r' else x end = x) as H101.
    { intros A x f. destruct rest as [|d r]; [done|]. destruct Hr as (_ & _ & -> & ->). done. }
    rewrite H101. cbn [Z.eqb andb]. rewrite (proj2 (Z.ltb_ge _ _)) by lia. do 3 f_equal. lia. }
  do 2 f_equal. destruct (Z.ltb_spec z 0); lia.
Qed.

(** The first character of a printed value: neither blank nor a closing
    bracket. *)
Definition opens (c : Ascii.ascii) : bool :=
  negb (is_ws c) && negb (Text.is_code 93 c) && negb (Text.is_code 125 c).
Lemma digit_opens c : Text.is_digit c = true → opens c = true.
Proof. revert c. by_char; vm_compute; congruence. Qed.
Lemma skip_ws_opens c s : opens c = true → skip_ws (String c s) = String c s.
Proof. unfold opens. cbn. by destruct (is_ws c). Qed.

Lemma concat_cons sep (a b : string) l :
  String.concat sep (a :: b :: l) = a +:+ sep +:+ String.concat sep (b :: l).
Proof. done. Qed.

Section RoundTrip.
Context (fr : Q → string) (sp : string) (Hsp : sp = "" ∨ sp = " ").

Lemma skip_sp c s : opens c = true → skip_ws (sp +:+ String c s) = String c s.
Proof. intros Hc. destruct Hsp as [->| ->]; exact (skip_ws_opens c s Hc). Qed.

Lemma print_opens v rest : readable v = true →
  ∃ c t, print fr sp v +:+ rest = String c t ∧ opens c = true.
Proof.
  intros Hv. destruct v as [|[]|z|q|s|l|o]; try (do 2 eexists; split; reflexivity); [|done].
  cbn [print]. rewrite pretty_int. destruct (z <? 0); [do 2 eexists; split; reflexivity|].
  rewrite append_nil_l. unfold unsigned_text. case_decide as H0; [do 2 eexists; split; reflexivity|].
  destruct (pretty_N_go_spec (Z.to_N (Z.abs z)) ltac:(lia)) as (k & _ & _ & Hs).
  rewrite pretty_N_go_append. destruct (Hs ("" +:+ rest)) as [_ (c & t & -> & Hc & _)].
  do 2 eexists. split; [reflexivity|by apply digit_opens].
Qed.

Lemma literal_app p rest v : literal p (p +:+ rest) (Parsed v "") = Parsed v rest.
Proof.
  unfold literal. assert (String.prefix p (p +:+ rest) = true) as ->.
  { induction p as [|c p IH]; [by destruct rest|]. rewrite append_cons, UuidFacts.prefix_cons.
    by rewrite Ascii.eqb_refl, IH. }
  f_equal. by induction p.
Qed.

(** [parse] reads back the text of [v], whatever follows it. *)
Definition reads (v : json) : Prop :=
  readable v = true → ∀ n rest, ends rest → (2 * String.length (print fr sp v) ≤ n)%nat →
  parse n (print fr sp v +:+ rest) = Parsed v rest.

Lemma reads_int z : reads (JInt z).
Proof.
  intros Hv n rest Hr Hn. cbn in Hv. apply Z.ltb_lt in Hv. pose proof (number_int 4300 z rest ltac:(done) (Z.le_refl _) Hr Hv) as Hnum.
  cbn [print] in *. assert (Z.of_N (Z.to_N (Z.abs z)) < 10 ^ 4300) as Hv' by (rewrite Z2N.id by apply Z.abs_nonneg; exact Hv).
  destruct (integer_part 4300 (Z.to_N (Z.abs z)) rest ltac:(done) Hr Hv') as (c & s2 & k & Heq & Hc & _). clear Hv Hv'.
  assert (∃ c' t, pretty z +:+ rest = String c' t ∧ (Text.is_digit c' = true ∨ c' = Text.chr 45 ∧ t = String c s2))
    as (c' & t & Hp & Hc').
  { rewrite pretty_int, Iso.string_app_assoc, Heq. destruct (z <? 0); [|by do 2 eexists; split; [reflexivity|left]].
    do 2 eexists. split; [reflexivity|by right]. }
  assert (String.length (pretty z) ≠ O) as Hlen.
  { rewrite pretty_int. destruct (z <? 0); [done|]. unfold unsigned_text. rewrite append_nil_l. case_decide; [done|].
    destruct (pretty_N_go_spec (Z.to_N (Z.abs z)) ltac:(lia)) as (k' & _ & _ & Hs).
    destruct (Hs "") as [_ (x & y & -> & _)]. done. }
  destruct n as [|n]; [lia|]. cbn [parse]. rewrite Hp, <- Hp.
  assert (∀ k, k ∈ [34; 91; 123; 110; 116; 102; 78; 73] → Text.is_code k c' = false) as Hno.
  { intros j Hj. unfold Text.is_code. apply Z.eqb_neq. destruct Hc' as [Hd|[-> _]].
    - unfold Text.is_digit in Hd. apply andb_true_iff in Hd. rewrite !Z.leb_le in Hd.
      rewrite !elem_of_cons, elem_of_nil in Hj. lia.
    - rewrite !elem_of_cons, elem_of_nil in Hj. change (Str.code (Text.chr 45)) with 45. lia. }
  rewrite !Hno by set_solver.
  assert (String.prefix "-Infinity" (pretty z +:+ rest) = false) as ->; [|exact Hnum].
  rewrite Hp. change "-Infinity" with (String (Text.chr 45) (String (Text.chr 73) "nfinity")).
  rewrite UuidFacts.prefix_cons. destruct Hc' as [Hd|[-> ->]].
  - destruct (Ascii.eqb (Text.chr 45) c') eqn:He; [|done]. apply Ascii.eqb_eq in He. by subst c'.
  - rewrite UuidFacts.prefix_cons. destruct (Ascii.eqb (Text.chr 73) c) eqn:He; [|done].
    apply Ascii.eqb_eq in He. by subst c.
Qed.

Lemma reads_items l : Forall reads l → l ≠ [] → forallb readable l = true → ∀ n rest,
  (2 * String.length (String.concat ("," +:+ sp) (map (print fr sp) l)) + 1 ≤ n)%nat →
  items n (String.concat ("," +:+ sp) (map (print fr sp) l) +:+ "]" +:+ rest) = Parsed l rest.
Proof.
  induction 1 as [|v l Hv Hl IH]; [done|]. intros _ Hok n rest Hn. cbn [forallb] in Hok.
  apply andb_true_iff in Hok as [Hokv Hokl]. destruct n as [|n]; [lia|]. cbn [items].
  destruct l as [|v' l].
  - cbn [map String.concat] in *. rewrite Hv; [|done|done|lia]. cbn [and_then]. reflexivity.
  - cbn [map] in *. rewrite concat_cons in *. rewrite !length_append in Hn. rewrite Iso.string_app_assoc.
    rewrite Hv; [|done|destruct Hsp as [->| ->]; by split_and!|lia]. cbn [and_then].
    rewrite !Iso.string_app_assoc. change ("," +:+ ?x) with (String (Text.chr 44) x).
    change (skip_ws (String (Text.chr 44) ?x)) with (String (Text.chr 44) x). cbv iota.
    change (Text.is_code 93 (Text.chr 44)) with false. change (Text.is_code 44 (Text.chr 44)) with true. cbv iota.
    assert (∃ c t, String.concat ("," +:+ sp) (print fr sp v' :: map (print fr sp) l) +:+ "]" +:+ rest = String c t ∧
      opens c = true) as (c & t & Heq & Hc).
    { cbn [forallb] in Hokl. apply andb_true_iff in Hokl as [Hok' _].
      destruct l as [|v'' l]; cbn [map]; [|rewrite concat_cons, Iso.string_app_assoc]; by apply print_opens. }
    change (String.concat (String (Text.chr 44) sp)) with (String.concat ("," +:+ sp)).
    rewrite Heq, skip_sp, <- Heq by done. rewrite IH; [done|done|done|].
    change (String.length ",") with 1%nat in Hn. lia.
Qed.

Definition member_text (kv : string * json) : string := quoted kv.1 +:+ ":" +:+ sp +:+ print fr sp kv.2.
Lemma member_opens kv rest : ∃ t, member_text kv +:+ rest = String quote_char t.
Proof. by eexists. Qed.

Lemma reads_members o : Forall (λ kv, reads kv.2) o → o ≠ [] → forallb (λ kv, readable kv.2) o = true → ∀ n rest,
  (2 * String.length (String.concat ("," +:+ sp) (map member_text o)) + 1 ≤ n)%nat →
  members n (String.concat ("," +:+ sp) (map member_text o) +:+ "}" +:+ rest) = Parsed o rest.
Proof.
  induction 1 as [|[k v] o Hv Ho IH]; [done|]. intros _ Hok n rest Hn. cbn [forallb] in Hok.
  apply andb_true_iff in Hok as [Hokv Hoko]. destruct n as [|n]; [lia|]. cbn [members].
  assert (∀ tail m, ends tail → (2 * String.length (member_text (k, v)) ≤ m)%nat →
    ∃ t, member_text (k, v) +:+ tail = String quote_char t ∧
      scan t = Parsed k (":" +:+ sp +:+ print fr sp v +:+ tail) ∧
      parse m (skip_ws (sp +:+ print fr sp v +:+ tail)) = Parsed v tail) as Hone.
  { intros tail m Htail Hm. unfold member_text in *. cbn [fst snd] in *. rewrite !length_append in Hm.
    eexists. split; [rewrite Iso.string_app_assoc; unfold quoted; rewrite append_cons; reflexivity|]. split.
    - rewrite !Iso.string_app_assoc. change (String quote_char "" +:+ ?x) with (String quote_char x).
      apply scan_escape.
    - destruct (print_opens v tail Hokv) as (c & t & Heq & Hc). rewrite Heq, skip_sp, <- Heq by done.
      apply Hv; [done|done|lia]. }
  destruct o as [|kv' o].
  - cbn [map String.concat] in *. destruct (Hone ("}" +:+ rest) n) as (t & -> & Hscan & Hparse); [by split_and!|lia|].
    change (Text.is_code 34 quote_char) with true. cbv iota. rewrite Hscan. cbn [and_then].
    change (skip_ws (":" +:+ ?x)) with (String (Text.chr 58) x). cbv iota.
    change (Text.is_code 58 (Text.chr 58)) with true. cbv iota. rewrite Hparse. reflexivity.
  - cbn [map] in *. rewrite concat_cons in *. rewrite !length_append in Hn. rewrite Iso.string_app_assoc.
    set (tail := (("," +:+ sp) +:+ _) +:+ "}" +:+ rest).
    destruct (Hone tail n) as (t & -> & Hscan & Hparse); [destruct Hsp as [->| ->]; by split_and!|lia|].
    change (Text.is_code 34 quote_char) with true. cbv iota. rewrite Hscan. cbn [and_then].
    change (skip_ws (":" +:+ ?x)) with (String (Text.chr 58) x). cbv iota.
    change (Text.is_code 58 (Text.chr 58)) with true. cbv iota. rewrite Hparse. cbn [and_then].
    unfold tail. rewrite !Iso.string_app_assoc. change ("," +:+ ?x) with (String (Text.chr 44) x).
    change (skip_ws (String (Text.chr 44) ?x)) with (String (Text.chr 44) x). cbv iota.
    change (Text.is_code 125 (Text.chr 44)) with false. change (Text.is_code 44 (Text.chr 44)) with true. cbv iota.
    change (String.concat (String (Text.chr 44) sp)) with (String.concat ("," +:+ sp)).
    assert (∃ t', String.concat ("," +:+ sp) (member_text kv' :: map member_text o) +:+ "}" +:+ rest =
      String quote_char t') as (t' & Heq).
    { destruct o as [|kv'' o]; cbn [map]; [|rewrite concat_cons, Iso.string_app_assoc]; apply member_opens. }
    rewrite Heq, skip_sp, <- Heq by done. rewrite IH; [done|done|done|].
    change (String.length ",") with 1%nat in Hn. lia.
Qed.

Lemma dict_set_fresh k v (d : dict) : k ∉ d.*1 → dict_set k v d = d ++ [(k, v)].
Proof.
  induction d as [|[k' v'] d IH]; [done|]. cbn. rewrite not_elem_of_cons. intros [Hne Hk].
  rewrite bool_decide_false by congruence. by rewrite IH.
Qed.
Lemma dict_merge_fresh (d e : dict) : NoDup (d ++ e).*1 → dict_merge d e = d ++ e.
Proof.
  revert d. induction e as [|[k v] e IH]; intros d Hnd; [by rewrite app_nil_r|].
  change (dict_merge d ((k, v) :: e)) with (dict_merge (dict_set k v d) e).
  rewrite dict_set_fresh.
  - rewrite IH; by rewrite <- app_assoc.
  - rewrite fmap_app in Hnd. apply NoDup_app in Hnd as (_ & Hnd & _). intros Hk. apply (Hnd k Hk). by left.
Qed.

Lemma reads_all v : reads v.
Proof.
  pattern v. apply json_ind'; clear v.
  - intros [|[]|z|q|s|l|o]; try done.
    1: intros _ [|n] rest _ Hn; [cbn in Hn; lia|exact (literal_app "null" rest JNull)].
    1: intros _ [|n] rest _ Hn; [cbn in Hn; lia|exact (literal_app "true" rest (JBool true))].
    1: intros _ [|n] rest _ Hn; [cbn in Hn; lia|exact (literal_app "false" rest (JBool false))].
    + apply reads_int.
    + intros _ [|n] rest _ Hn; [cbn in Hn; lia|]. apply parse_quoted.
  - intros l Hl Hok n rest _ Hn. cbn [print readable] in *. rewrite !length_append in Hn.
    change (String.length "[") with 1%nat in Hn. change (String.length "]") with 1%nat in Hn.
    destruct n as [|n]; [lia|]. rewrite !Iso.string_app_assoc. cbn [parse].
    change ("[" +:+ ?x) with (String (Text.chr 91) x). cbv iota.
    change (Text.is_code 34 (Text.chr 91)) with false. change (Text.is_code 91 (Text.chr 91)) with true. cbv iota zeta.
    destruct l as [|v l]; [reflexivity|].
    assert (∃ c t, String.concat ("," +:+ sp) (map (print fr sp) (v :: l)) +:+ "]" +:+ rest = String c t ∧
      opens c = true) as (c & t & Heq & Hc).
    { cbn [forallb] in Hok. apply andb_true_iff in Hok as [Hok' _].
      destruct l as [|v'' l]; cbn [map]; [|rewrite concat_cons, Iso.string_app_assoc]; by apply print_opens. }
    rewrite Heq, skip_ws_opens by done.
    assert (Text.is_code 93 c = false) as ->.
    { unfold opens in Hc. destruct (Text.is_code 93 c); [|done]. by rewrite andb_false_r in Hc. }
    rewrite <- Heq, reads_items; [done|done|done|done|lia].
  - intros o Ho Hok n rest _ Hn. cbn [print readable] in *. apply andb_true_iff in Hok as [Hnd%bool_decide_eq_true Hok].
    rewrite !length_append in Hn.
    change (String.length "{") with 1%nat in Hn. change (String.length "}") with 1%nat in Hn.
    destruct n as [|n]; [lia|]. rewrite !Iso.string_app_assoc. cbn [parse].
    change ("{" +:+ ?x) with (String (Text.chr 123) x). cbv iota.
    change (Text.is_code 34 (Text.chr 123)) with false. change (Text.is_code 91 (Text.chr 123)) with false.
    change (Text.is_code 123 (Text.chr 123)) with true. cbv iota zeta.
    change (λ kv : string * json, quoted kv.1 +:+ ":" +:+ sp +:+ print fr sp kv.2) with member_text in *.
    destruct o as [|kv o]; [reflexivity|].
    assert (∃ t, String.concat ("," +:+ sp) (map member_text (kv :: o)) +:+ "}" +:+ rest = String quote_char t) as (t & Heq).
    { destruct o as [|kv'' o]; cbn [map]; [|rewrite concat_cons, Iso.string_app_assoc]; apply member_opens. }
    rewrite Heq, skip_ws_opens by done. change (Text.is_code 125 quote_char) with false. cbv iota.
    rewrite <- Heq, reads_members; [|done|done|done|lia]. cbn [and_then]. by rewrite dict_merge_fresh.
Qed.

(** What [json.dumps] writes, [json.loads] reads back. *)
Lemma loads_print v : readable v = true → loads_text (print fr sp v) = inr v.
Proof.
  intros Hv. unfold loads_text. pose proof (print_opens v "" Hv) as (c & t & Heq & Hc).
  rewrite Iso.string_app_nil in Heq.
  assert (skip_ws (print fr sp v) = print fr sp v) as -> by (rewrite Heq; by apply skip_ws_opens).
  rewrite <- (Iso.string_app_nil (print fr sp v)) at 2. rewrite reads_all; [done|done|done|]. unfold enough. lia.
Qed.
End RoundTrip.

Example loads_samples :
  map loads_text
    [" [ 1 , -2.5e1,true ] "; "{}"; "-0"; "1e2"; "[1,]"; "01"; "[1 2]"; "1."; "-"; "nul"; "[]x"; ""; "{1:2}"; "NaN"] =
  [inr (JList [JInt 1; JFloat (-25 # 1); JBool true]); inr (JObj []); inr (JInt 0); inr (JFloat (100 # 1))] ++
  replicate 9 (inl JSONDecodeError) ++ [inl Unmodelled].
Proof. vm_compute. reflexivity. Qed.
