(* ===== verification/Observability.v ===== *)
(** What the processes tell about themselves: the identifiers bound to a context
    ([observability/correlation.py]), log lines ([observability/logging.py]) and
    metrics ([observability/metrics.py]).

    The standard library's logging and the Prometheus client are read as
    documented: a record carries its extra attributes, a metric has one series per
    combination of label values. A Prometheus counter refuses a negative amount,
    which no call site reports. *)

From S2P Require Import Prelude PyData PyTime PyText PyDates JsonText Errors ValueObjects Redaction.

(** * Context *)

(** The three context variables. *)
Record Ctx := mk_ctx {
  ctx_correlation_id : option string;
  ctx_request_id : option string;
  ctx_integration_request_id : option string;
}.
#[export] Instance eta_Ctx : Eta Ctx := λ c, mk_ctx (ctx_correlation_id c) (ctx_request_id c) (ctx_integration_request_id c).

Definition set_correlation_id (v : option string) (c : Ctx) : Ctx := c <| ctx_correlation_id := v |>.
Definition set_request_id (v : option string) (c : Ctx) : Ctx := c <| ctx_request_id := v |>.
Definition set_integration_request_id (v : option string) (c : Ctx) : Ctx := c <| ctx_integration_request_id := v |>.

(** A token of [ContextVar.set]: how to put back the value from before. *)
Definition token : Type := Ctx → Ctx.
Definition bind_variable (get : Ctx → option string) (put : option string → Ctx → Ctx) (v : option string)
    (s : list token * Ctx) : list token * Ctx :=
  match v with
  | Some _ => (s.1 ++ [put (get s.2)], put v s.2)
  | None => s
  end.
Definition correlation_scope {A} (correlation_id request_id integration_request_id : option string) (block : M exn Ctx A) :
    M exn Ctx A := λ c,
  let '(tokens, bound) :=
    bind_variable ctx_integration_request_id set_integration_request_id integration_request_id
      (bind_variable ctx_request_id set_request_id request_id
        (bind_variable ctx_correlation_id set_correlation_id correlation_id ([], c))) in
  let '(o, c') := block bound in
  (o, foldl (λ c (t : token), t c) c' (rev tokens)).

Definition context_fields (c : Ctx) : dict :=
  (if truthy_opt (ctx_correlation_id c) then [("correlation_id", jopt (ctx_correlation_id c))] else []) ++
  (if truthy_opt (ctx_request_id c) then [("request_id", jopt (ctx_request_id c))] else []) ++
  (if truthy_opt (ctx_integration_request_id c) then [("integration_request_id", jopt (ctx_integration_request_id c))] else []).

(** How the retry and the reconciliation worker go through a batch: each record in a
    scope of its own. *)
Definition labelled : Type := option string * option string.
Fixpoint each_in_scope (work : labelled → M exn Ctx unit) (records : list labelled) : M exn Ctx unit :=
  match records with
  | [] => ret tt
  | r :: rs => correlation_scope r.1 None r.2 (work r) ;;; each_in_scope work rs
  end.

(** * Logging *)

(** Attributes of every record. *)
Definition _STANDARD_RECORD_ATTRS : list string :=
  ["args"; "asctime"; "created"; "exc_info"; "exc_text"; "filename"; "funcName"; "levelname"; "levelno"; "lineno"; "module";
   "msecs"; "message"; "msg"; "name"; "pathname"; "process"; "processName"; "relativeCreated"; "stack_info"; "taskName";
   "thread"; "threadName"].

(** A record: [rec_attributes] is its [__dict__] with values JSON can show. *)
Record LogRecord := mk_log_record {
  rec_created : datetime;
  rec_levelname : string;
  rec_name : string;
  rec_message : string;
  rec_attributes : dict;
  rec_exception : option string;
  rec_stack : option string;
}.
Record JsonFormatter := mk_formatter {
  fmt_service : string;
  fmt_environment : string;
  fmt_version : string;
}.
Definition caller_supplied (key : string) : bool :=
  negb (bool_decide (key ∈ _STANDARD_RECORD_ATTRS)) && negb (String.prefix "_" key).

Section Format.
Context (float_repr : Q → string).

Definition log_payload (f : JsonFormatter) (c : Ctx) (r : LogRecord) : dict :=
  let payload :=
    [("timestamp", JStr (Iso.isoformat (utc (instant (rec_created r))))); ("level", JStr (rec_levelname r));
     ("service", JStr (fmt_service f)); ("environment", JStr (fmt_environment f)); ("version", JStr (fmt_version f));
     ("logger", JStr (rec_name r)); ("message", JStr (rec_message r))] in
  let payload := dict_merge payload (context_fields c) in
  let payload := dict_merge payload (List.filter (λ kv, caller_supplied kv.1) (rec_attributes r)) in
  let payload := match rec_exception r with Some t => dict_set "exception" (JStr t) payload | None => payload end in
  match rec_stack r with Some t => dict_set "stack" (JStr t) payload | None => payload end.
(** [JsonFormatter.format] *)
Definition format (f : JsonFormatter) (c : Ctx) (r : LogRecord) : string :=
  print float_repr "" (redact 0 (JObj (log_payload f c r))).
End Format.

(** * Metrics *)

Inductive metric_kind := CounterKind | HistogramKind | GaugeKind.
#[export] Instance metric_kind_eq_dec : EqDecision metric_kind.
Proof. solve_decision. Defined.

(** [_declare]: kind, name and label names. *)
Definition declared : list (metric_kind * string * list string) :=
  [(CounterKind, "integration_requests_total", ["provider"; "operation_type"; "outcome"]);
   (HistogramKind, "integration_request_duration_seconds", ["provider"; "operation_type"; "status"]);
   (CounterKind, "provider_requests_total", ["provider"; "operation"; "outcome"]);
   (CounterKind, "provider_http_requests_total", ["provider"; "operation"; "outcome"]);
   (HistogramKind, "provider_request_duration_seconds", ["provider"; "operation"]);
   (CounterKind, "provider_failures_total", ["provider"; "error_category"]);
   (CounterKind, "provider_timeouts_total", ["provider"]);
   (CounterKind, "provider_rate_limits_total", ["provider"]);
   (CounterKind, "provider_bulkhead_rejections_total", ["provider"]);
   (GaugeKind, "provider_circuit_state", ["provider"]);
   (GaugeKind, "provider_in_flight_requests", ["provider"]);
   (CounterKind, "webhook_received_total", ["provider"]);
   (CounterKind, "webhook_rejected_total", ["provider"; "reason"]);
   (CounterKind, "webhook_duplicate_total", ["provider"]);
   (CounterKind, "webhook_deferred_total", ["provider"]);
   (CounterKind, "retries_scheduled_total", ["provider"; "error_category"]);
   (CounterKind, "retries_exhausted_total", ["provider"]);
   (CounterKind, "reconciliation_mismatches_total", ["provider"; "kind"]);
   (CounterKind, "idempotency_conflicts_total", []);
   (GaugeKind, "outbox_pending_total", []);
   (GaugeKind, "outbox_dead_lettered_total", []);
   (CounterKind, "outbox_dead_lettered_events_total", ["event_type"]);
   (CounterKind, "outbox_redriven_total", []);
   (CounterKind, "outbox_purged_total", []);
   (CounterKind, "outbox_publish_failures_total", ["event_type"]);
   (CounterKind, "outbox_published_total", ["event_type"]);
   (CounterKind, "inbound_rate_limit_total", ["limit"; "outcome"]);
   (CounterKind, "workflow_executions_total", ["definition"; "status"]);
   (HistogramKind, "worker_batch_duration_seconds", ["worker"]);
   (CounterKind, "worker_batch_failures_total", ["worker"]);
   (CounterKind, "api_requests_total", ["method"; "route"; "status"]);
   (HistogramKind, "api_request_duration_seconds", ["method"; "route"])].
(** [self._counters.get(name)] and the like: the label names of a declared metric. *)
Definition label_names (k : metric_kind) (name : string) : option (list string) :=
  match List.find (λ d, bool_decide (d.1.1 = k) && bool_decide (d.1.2 = name)) declared with
  | Some d => Some d.2
  | None => None
  end.

(** A series is a metric with its label values. *)
Definition series : Type := string * list string.
Record PrometheusMetrics := mk_metrics {
  mt_counters : gmap series Q;
  mt_gauges : gmap series Q;
  mt_observations : gmap series (list Q);
}.
#[export] Instance eta_metrics : Eta PrometheusMetrics := λ m, mk_metrics (mt_counters m) (mt_gauges m) (mt_observations m).
Definition no_metrics : PrometheusMetrics := mk_metrics ∅ ∅ ∅.

(** [labels.get(name)] *)
Definition label_get (name : string) (labels : list (string * string)) : option string :=
  match list_find (λ kv, kv.1 = name) labels with Some (_, kv) => Some kv.2 | None => None end.
Definition _apply (names : list string) (labels : option (list (string * string))) : list string :=
  map (λ name, default "unknown" (label_get name (default [] labels))) names.
Definition increment (name : string) (labels : option (list (string * string))) (amount : Q) (m : PrometheusMetrics) : PrometheusMetrics :=
  match label_names CounterKind name with
  | None => m
  | Some names => m <| mt_counters ::= λ s, <[(name, _apply names labels) := (default 0 (s !! (name, _apply names labels)) + amount)%Q]> s |>
  end.
Definition observe (name : string) (value : Q) (labels : option (list (string * string))) (m : PrometheusMetrics) : PrometheusMetrics :=
  match label_names HistogramKind name with
  | None => m
  | Some names => m <| mt_observations ::= λ s, <[(name, _apply names labels) := default [] (s !! (name, _apply names labels)) ++ [value]]> s |>
  end.
Definition set_gauge (name : string) (value : Q) (labels : option (list (string * string))) (m : PrometheusMetrics) : PrometheusMetrics :=
  match label_names GaugeKind name with
  | None => m
  | Some names => m <| mt_gauges ::= <[(name, _apply names labels) := value]> |>
  end.

Inductive sink_call : Type :=
  | Increment (name : string) (labels : option (list (string * string))) (amount : Q)
  | Observe (name : string) (value : Q) (labels : option (list (string * string)))
  | SetGauge (name : string) (value : Q) (labels : option (list (string * string))).
Definition sink (c : sink_call) (m : PrometheusMetrics) : PrometheusMetrics :=
  match c with
  | Increment name labels amount => increment name labels amount m
  | Observe name v labels => observe name v labels m
  | SetGauge name v labels => set_gauge name v labels m
  end.

(** * Facts *)

(** A scope puts back what it bound and lets the block run in between. *)
Definition restored (v before after : option string) : option string := match v with Some _ => before | None => after end.
Lemma correlation_scope_spec {A} cid rid iid (block : M exn Ctx A) c :
  let bound := mk_ctx (restored cid cid (ctx_correlation_id c)) (restored rid rid (ctx_request_id c))
                 (restored iid iid (ctx_integration_request_id c)) in
  correlation_scope cid rid iid block c =
  ((block bound).1, let c' := (block bound).2 in
     mk_ctx (restored cid (ctx_correlation_id c) (ctx_correlation_id c')) (restored rid (ctx_request_id c) (ctx_request_id c'))
       (restored iid (ctx_integration_request_id c) (ctx_integration_request_id c'))).
Proof.
  destruct c as [a b d]. destruct cid, rid, iid; cbn; unfold correlation_scope; cbn;
    match goal with |- context [block ?x] => destruct (block x) as [o []] end; done.
Qed.
Lemma each_in_scope_restores work records c :
  (∀ r, r ∈ records → is_Some r.1 ∧ is_Some r.2) →
  ctx_correlation_id (each_in_scope work records c).2 = ctx_correlation_id c ∧
  ctx_integration_request_id (each_in_scope work records c).2 = ctx_integration_request_id c.
Proof.
  revert c. induction records as [|[cid iid] rs IH]; intros c Hr; [done|].
  destruct (Hr (cid, iid)) as [[x Hx] [y Hy]]; [left|]. cbn in Hx, Hy. subst cid iid.
  cbn [each_in_scope]. unfold bind. rewrite correlation_scope_spec. cbn.
  match goal with |- context [work ?r ?x] => destruct (work r x) as [[u|e] c1] end; cbn; [|done].
  apply (IH (mk_ctx (ctx_correlation_id c) (ctx_request_id c1) (ctx_integration_request_id c))). intros r Hin. apply Hr. by right.
Qed.

(** Dictionaries that agree up to what stands under sensitive keys. *)
Definition same_fields (d d' : dict) : Prop :=
  Forall2 (λ kv kv', kv.1 = kv'.1 ∧ (is_sensitive_key kv.1 = true ∨ same_public kv.2 kv'.2)) d d'.
Lemma same_fields_refl d : same_fields d d.
Proof. apply Forall_Forall2_diag, Forall_forall. intros kv _. split; [done|right; constructor]. Qed.
Lemma same_fields_set k v v' d d' :
  is_sensitive_key k = true ∨ same_public v v' → same_fields d d' → same_fields (dict_set k v d) (dict_set k v' d').
Proof.
  intros Hv. induction 1 as [|[a x] [b y] d d' [Hab Hxy] Hd IH]; cbn in *; [apply Forall2_cons_2; [done|constructor]|]. subst b.
  case_bool_decide; constructor; done.
Qed.
Lemma same_fields_merge d d' e e' : same_fields d d' → same_fields e e' → same_fields (dict_merge d e) (dict_merge d' e').
Proof.
  intros Hd He. revert d d' Hd. induction He as [|[a x] [b y] e e' [Hab Hxy] He IH]; intros d d' Hd; [done|].
  cbn in *. subst b. apply IH. by apply same_fields_set.
Qed.
Lemma same_fields_supplied d d' : same_fields d d' →
  same_fields (List.filter (λ kv, caller_supplied kv.1) d) (List.filter (λ kv, caller_supplied kv.1) d').
Proof.
  induction 1 as [|[a x] [b y] d d' [Hab Hxy] Hd IH]; [constructor|]. cbn in *. subst b.
  destruct (caller_supplied a); [by constructor|done].
Qed.

(** Series that were declared, with as many values as labels. *)
Definition well_labelled (k : metric_kind) (s : series) : Prop :=
  ∃ names, label_names k s.1 = Some names ∧ length s.2 = length names.
Record metrics_inv (m : PrometheusMetrics) : Prop := {
  inv_counters s : is_Some (mt_counters m !! s) → well_labelled CounterKind s;
  inv_gauges s : is_Some (mt_gauges m !! s) → well_labelled GaugeKind s;
  inv_observations s : is_Some (mt_observations m !! s) → well_labelled HistogramKind s;
}.
Lemma insert_labelled {A} (k : metric_kind) (name : string) (names : list string) (labels : option (list (string * string)))
    (m : gmap series A) (v : A) (s : series) :
  label_names k name = Some names → (is_Some (m !! s) → well_labelled k s) →
  is_Some (<[(name, _apply names labels) := v]> m !! s) → well_labelled k s.
Proof.
  intros Hn Hm [x Hx]. destruct (decide (s = (name, _apply names labels))) as [->|Hne].
  - exists names. split; [done|]. apply length_map.
  - rewrite lookup_insert_ne in Hx by done. apply Hm. eauto.
Qed.
Lemma sink_inv c m : metrics_inv m → metrics_inv (sink c m).
Proof.
  intros [Hc Hg Ho]. destruct c as [name labels v|name v labels|name v labels]; cbn; unfold increment, observe, set_gauge;
    destruct (label_names _ name) as [names|] eqn:Hn; try done; constructor; cbn; try done; intros s; eapply insert_labelled; eauto.
Qed.

(** * Theorems *)

Module ObservabilityTheorems.

(** Identifiers do not leak from one record into the next. Whatever a block does to
    the context variables and whether it returns or raises, a scope runs it with
    the identifiers it binds and puts back the ones from before; so a worker that
    handles each record in a scope of its own starts every record with that
    record's identifiers and ends with those it began with. *)
Theorem scopes_do_not_leak {A} (cid rid iid : string) (block : M exn Ctx A) (work : labelled → M exn Ctx unit)
    (records : list labelled) (c : Ctx) :
  (∀ r, r ∈ records → is_Some r.1 ∧ is_Some r.2) →
  correlation_scope (Some cid) (Some rid) (Some iid) block c = ((block (mk_ctx (Some cid) (Some rid) (Some iid))).1, c) ∧
  ctx_correlation_id (each_in_scope work records c).2 = ctx_correlation_id c ∧
  ctx_integration_request_id (each_in_scope work records c).2 = ctx_integration_request_id c.
Proof.
  intros Hr. split; [|by apply each_in_scope_restores]. rewrite correlation_scope_spec. cbn. by destruct c.
Qed.


(** The metrics stay bounded. Whatever is reported, only declared metrics have
    series, each with exactly the declared labels, and a name that is not declared
    changes nothing. *)
Theorem only_declared_series (calls : list sink_call) :
  metrics_inv (foldl (λ m c, sink c m) no_metrics calls) ∧
  ∀ name labels amount m, label_names CounterKind name = None → increment name labels amount m = m.
Proof.
  split.
  - assert (∀ m, metrics_inv m → metrics_inv (foldl (λ m c, sink c m) m calls)) as Hm; [|apply Hm; constructor; cbn; intros s [? Hs]; by rewrite lookup_empty in Hs].
    induction calls as [|c calls IH]; intros m Hm; [done|]. by apply IH, sink_inv.
  - intros name labels amount m Hn. unfold increment. by rewrite Hn.
Qed.

Lemma scopes_do_not_leak_witness :
  let work : labelled → M exn Ctx unit := λ r, modifyS (λ c, c <| ctx_correlation_id := Some "changed" |> <| ctx_integration_request_id := None |>) in
  let c := mk_ctx (Some "outer") None None in
  ctx_correlation_id (each_in_scope work [(Some "a", Some "1"); (Some "b", Some "2")] c).2 = Some "outer".
Proof.
  intros work c. apply (scopes_do_not_leak "x" "y" "z" (ret tt) work [(Some "a", Some "1"); (Some "b", Some "2")] c).
  intros r Hr. rewrite !elem_of_cons, elem_of_nil in Hr. destruct Hr as [->|[->|[]]]; cbn; eauto.
Defined.
(** A counter the webhooks report is not declared, so it is never exposed. *)
Example replays_are_not_counted m : increment "webhook_signature_replay_total" (Some [("provider", "cobalt")]) 1 m = m.
Proof. reflexivity. Qed.
(** Long texts are cut, tracebacks among them. *)
Example tracebacks_are_cut :
  ∃ t, redact 0 (JObj [("exception", JStr (Str.take 600 (String.concat "" (replicate 600 "x"))))]) = JObj [("exception", JStr t)] ∧
       String.length t = 526%nat.
Proof. eexists. split; [vm_compute; reflexivity|vm_compute; reflexivity]. Qed.
End ObservabilityTheorems.
