(* ===== verification/Policies.v ===== *)
(** Retry and circuit-breaker policies of [domain/policies.py].

    Floats are exact rationals. An elapsed time is a difference of two aware
    timestamps; [None] in [elapsed_seconds] is the [TypeError] Python raises on a
    naive operand. *)

From S2P Require Import Prelude PyData PyTime Enums Errors.

Definition Qltb (a b : Q) : bool := negb (Qle_bool b a).
Definition Qminb (a b : Q) : Q := if Qltb b a then b else a.
Definition Qmaxb (a b : Q) : Q := if Qltb a b then b else a.

Lemma Qle_bool_true a b : Qle_bool a b = true ↔ (a <= b)%Q.
Proof. apply Qle_bool_iff. Qed.
Lemma Qle_bool_false a b : Qle_bool a b = false ↔ (b < a)%Q.
Proof.
  rewrite <- not_true_iff_false, Qle_bool_iff. split; [apply Qnot_le_lt|apply Qlt_not_le].
Qed.
Lemma Qltb_true a b : Qltb a b = true ↔ (a < b)%Q.
Proof. unfold Qltb. by rewrite negb_true_iff, Qle_bool_false. Qed.
Lemma Qltb_false a b : Qltb a b = false ↔ (b <= a)%Q.
Proof. unfold Qltb. by rewrite negb_false_iff, Qle_bool_true. Qed.

(** Turns every boolean comparison of rationals in the context into an
    inequality. *)
Ltac qbool :=
  repeat match goal with
  | H : Qltb _ _ = true |- _ => apply Qltb_true in H
  | H : Qltb _ _ = false |- _ => apply Qltb_false in H
  | H : Qle_bool _ _ = true |- _ => apply Qle_bool_true in H
  | H : Qle_bool _ _ = false |- _ => apply Qle_bool_false in H
  end.

Lemma Qminb_spec a b : (Qminb a b <= a ∧ Qminb a b <= b ∧ (Qminb a b = a ∨ Qminb a b = b))%Q.
Proof. unfold Qminb. destruct (Qltb b a) eqn:H; qbool; repeat split; try lra; auto. Qed.
Lemma Qmaxb_spec a b : (a <= Qmaxb a b ∧ b <= Qmaxb a b ∧ (Qmaxb a b = a ∨ Qmaxb a b = b))%Q.
Proof. unfold Qmaxb. destruct (Qltb a b) eqn:H; qbool; repeat split; try lra; auto. Qed.

(** * Retry policy *)

Definition _RETRY_AFTER_JITTER_FRACTION : Q := 1 # 10.
Definition _RETRY_AFTER_JITTER_CAP_SECONDS : Q := 1.

Definition invalid (msg : string) : exn := error ErrorClass.ValidationError msg no_kwargs.

Module RetryPolicy.
Record t := mk {
  max_attempts : Z;
  base_seconds : Q;
  multiplier : Q;
  max_seconds : Q;
  retry_after_cap_seconds : Q;
}.

(** [__post_init__] *)
Definition make (p : t) : outcome exn t :=
  if max_attempts p <? 1 then Raise (invalid "max_attempts must be at least 1")
  else if Qle_bool (base_seconds p) 0 || Qle_bool (max_seconds p) 0
  then Raise (invalid "backoff durations must be positive")
  else if Qltb (multiplier p) 1
  then Raise (invalid "the backoff multiplier must be at least 1.0")
  else Ret p.

Definition has_attempts_remaining (p : t) (attempt_count : Z) : bool :=
  attempt_count <? max_attempts p.

Definition should_retry (p : t) (attempt_count : Z) (retryable : bool) : bool :=
  retryable && has_attempts_remaining p attempt_count.

Definition compute_delay_seconds (p : t) (attempt_count : Z) (jitter : Q)
    (retry_after : option Q) : outcome exn Q :=
  if negb (Qle_bool 0 jitter && Qltb jitter 1)
  then Raise (invalid "jitter must be in the interval [0, 1)")
  else if attempt_count <? 1
  then Raise (invalid "attempt_count must be at least 1 to compute a retry delay")
  else
    let backoff :=
      let exponential := (base_seconds p * multiplier p ^ (attempt_count - 1))%Q in
      let capped := Qminb exponential (max_seconds p) in
      let half := (capped / 2)%Q in
      (half + jitter * half)%Q in
    Ret match retry_after with
        | Some r =>
            if Qltb 0 r then
              let honoured := Qminb r (retry_after_cap_seconds p) in
              let spread := Qminb (honoured * _RETRY_AFTER_JITTER_FRACTION)
                                  _RETRY_AFTER_JITTER_CAP_SECONDS in
              (honoured + jitter * spread)%Q
            else backoff
        | None => backoff
        end.

Definition next_retry_at (p : t) (now : datetime) (attempt_count : Z) (jitter : Q)
    (retry_after : option Q) : outcome exn datetime :=
  match compute_delay_seconds p attempt_count jitter retry_after with
  | Ret delay => Ret (dt_add now (timedelta_seconds delay))
  | Raise e => Raise e
  end.

(** The policies the constructor lets through. *)
Definition valid (p : t) : Prop :=
  1 ≤ max_attempts p ∧ (0 < base_seconds p)%Q ∧ (0 < max_seconds p)%Q ∧ (1 <= multiplier p)%Q.
End RetryPolicy.

(** * Circuit breaker policy *)

Module CircuitBreakerPolicy.
Record t := mk {
  failure_threshold : Z;
  open_seconds : Q;
  success_threshold : Z;
  half_open_max_probes : Z;
}.

Definition make (p : t) : outcome exn t :=
  if failure_threshold p <? 1 then Raise (invalid "failure_threshold must be at least 1")
  else if Qle_bool (open_seconds p) 0 then Raise (invalid "open_seconds must be positive")
  else if success_threshold p <? 1 then Raise (invalid "success_threshold must be at least 1")
  else if half_open_max_probes p <? 1 then Raise (invalid "half_open_max_probes must be at least 1")
  else Ret p.

Definition valid (p : t) : Prop :=
  1 ≤ failure_threshold p ∧ (0 < open_seconds p)%Q ∧ 1 ≤ success_threshold p ∧
  1 ≤ half_open_max_probes p.
End CircuitBreakerPolicy.

Record CircuitSnapshot := mk_snapshot {
  state : CircuitState.t;
  failure_count : Z;
  success_count : Z;
  opened_at : option datetime;
  last_transition_at : option datetime;
  half_open_probes : Z;
}.
#[export] Instance eta_CircuitSnapshot : Eta CircuitSnapshot := λ s,
  mk_snapshot (state s) (failure_count s) (success_count s) (opened_at s)
    (last_transition_at s) (half_open_probes s).

(** [(now - t).total_seconds()] for two aware timestamps. *)
Definition elapsed_seconds (now t : datetime) : Q := total_seconds (instant now - instant t).

Definition snapshot_retry_after_seconds (s : CircuitSnapshot) (now : datetime)
    (p : CircuitBreakerPolicy.t) : option Q :=
  match state s, opened_at s with
  | CircuitState.OPEN, Some t =>
      Some (Qmaxb 0 (CircuitBreakerPolicy.open_seconds p - elapsed_seconds now t))
  | _, _ => None
  end.

Definition evaluate_circuit (s : CircuitSnapshot) (now : datetime)
    (p : CircuitBreakerPolicy.t) : CircuitState.t :=
  match state s with
  | CircuitState.OPEN =>
      match opened_at s with
      | None => CircuitState.OPEN
      | Some t => if Qle_bool (CircuitBreakerPolicy.open_seconds p) (elapsed_seconds now t)
                  then CircuitState.HALF_OPEN else CircuitState.OPEN
      end
  | st => st
  end.

Definition next_state_after_failure (s : CircuitSnapshot) (now : datetime)
    (p : CircuitBreakerPolicy.t) : CircuitState.t :=
  match evaluate_circuit s now p with
  | CircuitState.HALF_OPEN => CircuitState.OPEN
  | CircuitState.OPEN => CircuitState.OPEN
  | CircuitState.CLOSED =>
      if CircuitBreakerPolicy.failure_threshold p <=? failure_count s + 1
      then CircuitState.OPEN else CircuitState.CLOSED
  end.

Definition next_state_after_success (s : CircuitSnapshot) (now : datetime)
    (p : CircuitBreakerPolicy.t) : CircuitState.t :=
  match evaluate_circuit s now p with
  | CircuitState.HALF_OPEN =>
      if CircuitBreakerPolicy.success_threshold p <=? success_count s + 1
      then CircuitState.CLOSED else CircuitState.HALF_OPEN
  | _ => CircuitState.CLOSED
  end.

Definition admits_traffic (s : CircuitSnapshot) (now : datetime)
    (p : CircuitBreakerPolicy.t) : bool :=
  match evaluate_circuit s now p with
  | CircuitState.CLOSED => true
  | CircuitState.OPEN => false
  | CircuitState.HALF_OPEN => half_open_probes s <? CircuitBreakerPolicy.half_open_max_probes p
  end.

(** * Lemmas *)

Lemma Qpower_ge_1 (m : Q) (n : Z) : (1 <= m)%Q → 0 ≤ n → (1 <= m ^ n)%Q.
Proof.
  intros Hm. revert n. apply natlike_ind.
  - apply Qle_refl.
  - intros n Hn IH. unfold Z.succ. rewrite Qpower_plus by lra. cbn. nra.
Qed.

Module RetryFacts.
Import RetryPolicy.

Lemma make_valid p q : make p = Ret q → q = p ∧ valid p.
Proof.
  unfold make, valid. destruct (_ <? _) eqn:H1; [done|].
  destruct (_ || _) eqn:H2; [done|]. destruct (Qltb _ _) eqn:H3; [done|].
  apply orb_false_iff in H2 as [H2 H4]. qbool. intros [= <-].
  apply Z.ltb_ge in H1. auto.
Qed.

(** The exponential term before jitter: between the smaller of the base delay
    and the cap, and the cap. *)
Lemma capped_bounds p n :
  valid p → 1 ≤ n →
  let c := Qminb (base_seconds p * multiplier p ^ (n - 1)) (max_seconds p) in
  (Qminb (base_seconds p) (max_seconds p) <= c <= max_seconds p)%Q.
Proof.
  intros (_ & Hb & Hm & Hmul) Hn. cbn zeta.
  pose proof (Qpower_ge_1 (multiplier p) (n - 1) Hmul ltac:(lia)) as Hpow.
  assert (base_seconds p <= base_seconds p * multiplier p ^ (n - 1))%Q as Hle by nra.
  pose proof (Qminb_spec (base_seconds p) (max_seconds p)) as (H1 & H2 & _).
  pose proof (Qminb_spec (base_seconds p * multiplier p ^ (n - 1)) (max_seconds p))
    as (_ & H3 & [Heq|Heq]); rewrite Heq in *; lra.
Qed.
Lemma delay_within (p : t) (n : Z) (j : Q) (ra : option Q) :
  valid p → 1 ≤ n → (0 <= j < 1)%Q → (0 < retry_after_cap_seconds p)%Q →
  ∃ d, compute_delay_seconds p n j ra = Ret d ∧
    match ra with
    | Some r =>
        if Qltb 0 r then
          let h := Qminb r (retry_after_cap_seconds p) in (0 < h <= d ∧ d <= h + 1)%Q
        else (Qminb (base_seconds p) (max_seconds p) / 2 <= d < max_seconds p)%Q
    | None => (Qminb (base_seconds p) (max_seconds p) / 2 <= d < max_seconds p)%Q
    end.
Proof.
  intros Hp Hn [Hj0 Hj1] Hcap. pose proof (capped_bounds p n Hp Hn) as Hc.
  destruct Hp as (_ & Hb & Hm & _).
  pose proof (Qminb_spec (base_seconds p) (max_seconds p)) as (_ & _ & Hmin).
  unfold compute_delay_seconds.
  assert (Qle_bool 0 j && Qltb j 1 = true) as ->.
  { by rewrite andb_true_iff, Qle_bool_true, Qltb_true. }
  replace (n <? 1) with false by (symmetry; apply Z.ltb_ge; lia).
  cbn zeta in *. cbn [negb]. eexists. split; [reflexivity|].
  set (c := Qminb (_ * _) _) in *.
  assert (Qminb (base_seconds p) (max_seconds p) / 2 <= c / 2 + j * (c / 2) < max_seconds p)%Q
    as Hback.
  { assert (0 < c)%Q by (destruct Hmin as [Heq|Heq]; rewrite Heq in *; lra).
    unfold Qdiv. change (/ 2)%Q with (1 # 2)%Q. split; nra. }
  destruct ra as [r|]; [|done]. destruct (Qltb 0 r) eqn:Hr; [|done]. qbool.
  pose proof (Qminb_spec r (retry_after_cap_seconds p)) as (_ & _ & Hh).
  set (h := Qminb r _) in *.
  assert (0 < h)%Q by (destruct Hh as [Heq|Heq]; rewrite Heq; lra).
  pose proof (Qminb_spec (h * _RETRY_AFTER_JITTER_FRACTION) _RETRY_AFTER_JITTER_CAP_SECONDS)
    as (_ & H2 & Hs).
  set (s := Qminb (h * _) _) in *.
  unfold _RETRY_AFTER_JITTER_FRACTION, _RETRY_AFTER_JITTER_CAP_SECONDS in *.
  assert (0 <= s)%Q by (destruct Hs as [Heq|Heq]; rewrite Heq; lra).
  repeat split; nra.
Qed.
End RetryFacts.

Module RetryTheorems.
Import RetryPolicy.

(** The delay before a retry, for every policy the constructor accepts,
    every attempt number and every jitter in [0,1): without a [Retry-After]
    it lies in [c/2, c) where [c] is the exponential term capped at
    [max_seconds], so it never exceeds [max_seconds] and never drops below half
    of the smaller of [base_seconds] and [max_seconds]; with a positive
    [Retry-After] it lies between the honoured value (the smaller of the value
    and the cap) and that value plus one second. No such call raises. *)
Theorem delay_bounds (p : t) (n : Z) (j : Q) (ra : option Q) :
  valid p → 1 ≤ n → (0 <= j < 1)%Q → (0 < retry_after_cap_seconds p)%Q →
  ∃ d, compute_delay_seconds p n j ra = Ret d ∧
    match ra with
    | Some r =>
        if Qltb 0 r then
          let h := Qminb r (retry_after_cap_seconds p) in (0 < h <= d ∧ d <= h + 1)%Q
        else (Qminb (base_seconds p) (max_seconds p) / 2 <= d < max_seconds p)%Q
    | None => (Qminb (base_seconds p) (max_seconds p) / 2 <= d < max_seconds p)%Q
    end.
Proof. apply RetryFacts.delay_within. Qed.

Lemma delay_bounds_witness :
  ∃ d, compute_delay_seconds (mk 5 (1 # 2) 2 60 300) 3 (1 # 2) None = Ret d ∧
    (Qminb (1 # 2) 60 / 2 <= d < 60)%Q.
Proof.
  apply (delay_bounds (mk 5 (1 # 2) 2 60 300) 3 (1 # 2) None);
    unfold valid; cbn; repeat split; (lia || lra).
Defined.

(** [next_retry_at] is the delay after [now], rounded to the nearest
    microsecond: it keeps the time zone of [now], is never in the past, and is
    at most the larger of [max_seconds] and the [Retry-After] cap plus one
    second away (plus the rounding). *)
Theorem next_retry_at_window (p : t) (now : datetime) (n : Z) (j : Q) (ra : option Q) :
  valid p → 1 ≤ n → (0 <= j < 1)%Q → (0 < retry_after_cap_seconds p)%Q →
  ∃ at_, next_retry_at p now n j ra = Ret at_ ∧
    is_aware at_ = is_aware now ∧ instant now ≤ instant at_ ∧
    (inject_Z (instant at_ - instant now) <=
     Qmaxb (max_seconds p) (retry_after_cap_seconds p + 1) * 1000000 + (1 # 2))%Q.
Proof.
  intros Hp Hn Hj Hcap.
  assert (∃ d, compute_delay_seconds p n j ra = Ret d ∧
    (0 <= d <= Qmaxb (max_seconds p) (retry_after_cap_seconds p + 1))%Q) as (d & Hd & Hlo & Hhi).
  { destruct (RetryFacts.delay_within p n j ra Hp Hn Hj Hcap) as (d & Hd & Hb). exists d. split; [done|].
    destruct Hp as (_ & Hb0 & Hm & _).
    pose proof (Qmaxb_spec (max_seconds p) (retry_after_cap_seconds p + 1)) as (H1 & H2 & _).
    pose proof (Qminb_spec (base_seconds p) (max_seconds p)) as (_ & _ & Hmin).
    assert (0 < Qminb (base_seconds p) (max_seconds p))%Q
      by (destruct Hmin as [Heq|Heq]; rewrite Heq; lra).
    unfold Qdiv in Hb. change (/ 2)%Q with (1 # 2)%Q in Hb.
    destruct ra as [r|]; [|split; lra]. destruct (Qltb 0 r); [|split; lra].
    cbn zeta in Hb. pose proof (Qminb_spec r (retry_after_cap_seconds p)) as (_ & H3 & _).
    split; lra. }
  unfold next_retry_at. rewrite Hd. eexists. split; [reflexivity|]. split; [done|].
  rewrite instant_add. unfold timedelta_seconds.
  pose proof (round_half_even_bounds (d * (1000000 # 1))) as [Hr1 Hr2].
  pose proof (round_half_even_ge_int (d * (1000000 # 1)) 0) as Hr0. change (inject_Z 0) with 0%Q in Hr0.
  split; [assert (0 <= d * (1000000 # 1))%Q by nra; apply Hr0 in H; lia|].
  replace (instant now + round_half_even (d * (1000000 # 1)) - instant now)
    with (round_half_even (d * (1000000 # 1))) by lia.
  change 1000000%Q with (1000000 # 1). nra.
Qed.

Lemma next_retry_at_window_witness :
  ∃ at_, next_retry_at (mk 5 (1 # 2) 2 60 300) (utc 0) 1 0 (Some 30%Q) = Ret at_ ∧
    is_aware at_ = true ∧ 0 ≤ instant at_ ∧
    (inject_Z (instant at_ - 0) <= Qmaxb 60 (300 + 1) * 1000000 + (1 # 2))%Q.
Proof.
  apply (next_retry_at_window (mk 5 (1 # 2) 2 60 300) (utc 0) 1 0 (Some 30%Q));
    unfold valid; cbn; repeat split; (lia || lra).
Defined.
End RetryTheorems.
