(* ===== verification/Entities.v ===== *)
(** The aggregates of [domain/entities.py].

    A mutator is a computation over the object it is called on: it returns or
    raises, and the assignments made before a [raise] stay made. *)

From S2P Require Import Prelude PyData PyTime Enums Errors StateMachine ValueObjects Policies.

(** [_require_aware(value, field_name=...)] *)
Definition _require_aware (v : datetime) (field_name : string) : outcome exn datetime :=
  if negb (is_aware v)
  then Raise (error ErrorClass.ValidationError (field_name +:+ " must be timezone-aware") no_kwargs)
  else Ret v.

Lemma require_aware_ok v f : is_aware v = true → _require_aware v f = Ret v.
Proof. unfold _require_aware. by intros ->. Qed.

Record StatusTransition := mk_transition {
  previous_status : RequestStatus.t;
  new_status : RequestStatus.t;
  occurred_at : datetime;
}.

Record FailureDetail := mk_failure {
  fail_code : string;
  fail_message : string;
  fail_category : string;
  fail_retryable : bool;
  fail_provider_code : option string;
}.

(** * [IntegrationRequest] *)

Module IntegrationRequest.
Record t := mk {
  id : UUID;
  provider : string;
  operation_type : OperationType.t;
  external_reference : string;
  normalized_payload : dict;
  correlation_id : string;
  created_at : datetime;
  updated_at : datetime;
  status : RequestStatus.t;
  provider_payload : option dict;
  provider_reference : option string;
  idempotency_key : option string;
  attempt_count : Z;
  last_error_code : option string;
  last_error_message : option string;
  last_error_category : option string;
  next_retry_at : option datetime;
  completed_at : option datetime;
  manual_review_reason : option string;
  version : Z;
  owner_subject : option string;
}.

#[export] Instance eta_request : Eta t := λ r,
  mk (id r) (provider r) (operation_type r) (external_reference r) (normalized_payload r)
    (correlation_id r) (created_at r) (updated_at r) (status r) (provider_payload r)
    (provider_reference r) (idempotency_key r) (attempt_count r) (last_error_code r)
    (last_error_message r) (last_error_category r) (next_retry_at r) (completed_at r)
    (manual_review_reason r) (version r) (owner_subject r).

(** A method of the class. *)
Definition method (A : Type) : Type := M exn t A.

(** [__post_init__]; the payload is a [dict] by its type. *)
Definition post_init (r : t) : outcome exn t :=
  match _require_aware (created_at r) "created_at" with
  | Raise e => Raise e
  | Ret _ => match _require_aware (updated_at r) "updated_at" with
             | Raise e => Raise e
             | Ret _ => Ret r
             end
  end.

Definition create (request_id : UUID) (prov : string) (op : OperationType.t) (ext_ref : string)
    (payload : dict) (corr : string) (now : datetime) (key owner : option string) : outcome exn t :=
  match _require_aware now "now" with
  | Raise e => Raise e
  | Ret _ => post_init
      {| id := request_id; provider := prov; operation_type := op; external_reference := ext_ref;
         normalized_payload := payload; correlation_id := corr; created_at := now;
         updated_at := now; status := RequestStatus.RECEIVED; provider_payload := None;
         provider_reference := None; idempotency_key := key; attempt_count := 0;
         last_error_code := None; last_error_message := None; last_error_category := None;
         next_retry_at := None; completed_at := None; manual_review_reason := None;
         version := 0; owner_subject := owner |}
  end.

Definition touch (now : datetime) : method unit :=
  let* now := lift (_require_aware now "now") in
  modifyS (λ r, r <| updated_at := now |> <| version ::= (λ v, v + 1) |>).

Definition _transition (requested : RequestStatus.t) (now : datetime) : method StatusTransition :=
  lift (_require_aware now "now") ;;;
  let* r := getS in
  lift (assert_transition_allowed (status r) requested (Some (uuid_str (id r)))
          (Some (correlation_id r))) ;;;
  modifyS (λ r, r <| status := requested |>) ;;;
  touch now ;;;
  ret (mk_transition (status r) requested now).

Definition _apply_failure (f : FailureDetail) : method unit :=
  modifyS (λ r, r <| last_error_code := Some (fail_code f) |>
                  <| last_error_message := Some (fail_message f) |>
                  <| last_error_category := Some (fail_category f) |>).

Definition _clear_error : method unit :=
  modifyS (λ r, r <| last_error_code := None |> <| last_error_message := None |>
                  <| last_error_category := None |>).

Definition begin_validation (now : datetime) : method StatusTransition :=
  _transition RequestStatus.VALIDATING now.

Definition begin_dispatch (now : datetime) : method StatusTransition :=
  let* tr := _transition RequestStatus.DISPATCHING now in
  modifyS (λ r, r <| attempt_count ::= (λ n, n + 1) |> <| next_retry_at := None |>) ;;;
  ret tr.

Definition record_provider_payload (payload : dict) : method unit :=
  modifyS (λ r, r <| provider_payload := Some payload |>).

Definition mark_accepted (reference : string) (now : datetime) : method StatusTransition :=
  if negb (Str.truthy reference)
  then raise (error ErrorClass.ValidationError
    "a provider reference is required to mark a request pending" no_kwargs)
  else
    let* tr := _transition RequestStatus.PENDING now in
    modifyS (λ r, r <| provider_reference := Some reference |>) ;;;
    _clear_error ;;;
    ret tr.

Definition mark_succeeded (now : datetime) (reference : option string) : method StatusTransition :=
  let* tr := _transition RequestStatus.SUCCEEDED now in
  (if truthy_opt reference
   then modifyS (λ r, r <| provider_reference := reference |>) else ret tt) ;;;
  modifyS (λ r, r <| completed_at := Some now |> <| next_retry_at := None |>) ;;;
  _clear_error ;;;
  ret tr.

Definition mark_failed (failure : FailureDetail) (now : datetime) : method StatusTransition :=
  let* tr := _transition RequestStatus.FAILED now in
  _apply_failure failure ;;;
  modifyS (λ r, r <| completed_at := Some now |> <| next_retry_at := None |>) ;;;
  ret tr.

Definition schedule_retry (failure : FailureDetail) (retry_at now : datetime) :
    method StatusTransition :=
  lift (_require_aware retry_at "next_retry_at") ;;;
  let* tr := _transition RequestStatus.RETRY_SCHEDULED now in
  _apply_failure failure ;;;
  modifyS (λ r, r <| next_retry_at := Some retry_at |> <| completed_at := None |>) ;;;
  ret tr.

Definition mark_cancelled (now : datetime) (reason : option string) : method StatusTransition :=
  let* tr := _transition RequestStatus.CANCELLED now in
  modifyS (λ r, r <| completed_at := Some now |> <| next_retry_at := None |>) ;;;
  (if truthy_opt reason
   then modifyS (λ r, r <| manual_review_reason := None |> <| last_error_message := reason |>)
   else ret tt) ;;;
  ret tr.

Definition mark_manual_review (reason : string) (now : datetime) : method StatusTransition :=
  let* tr := _transition RequestStatus.MANUAL_REVIEW now in
  modifyS (λ r, r <| manual_review_reason := Some reason |> <| next_retry_at := None |>) ;;;
  ret tr.

Definition restore_for_retry (retry_at now : datetime) : method StatusTransition :=
  lift (_require_aware retry_at "next_retry_at") ;;;
  let* tr := _transition RequestStatus.RETRY_SCHEDULED now in
  modifyS (λ r, r <| next_retry_at := Some retry_at |> <| completed_at := None |>
                  <| manual_review_reason := None |>) ;;;
  ret tr.

Definition provider_reported_failure : FailureDetail :=
  {| fail_code := "provider_reported_failure";
     fail_message := "the provider reported the operation as failed";
     fail_category := "provider_unavailable"; fail_retryable := false;
     fail_provider_code := None |}.

Definition apply_normalized_status (s : NormalizedStatus.t) (now : datetime)
    (reference : option string) (failure : option FailureDetail) :
    method (option StatusTransition) :=
  match project_normalized_status s with
  | None => ret None
  | Some target =>
      let* r := getS in
      if negb (is_forward_progress (status r) target) then ret None
      else
        (if truthy_opt reference && negb (truthy_opt (provider_reference r))
         then modifyS (λ r, r <| provider_reference := reference |>) else ret tt) ;;;
        match target with
        | RequestStatus.SUCCEEDED =>
            let* tr := mark_succeeded now reference in ret (Some tr)
        | RequestStatus.FAILED =>
            let* tr := mark_failed (default provider_reported_failure failure) now in ret (Some tr)
        | RequestStatus.CANCELLED =>
            let* tr := mark_cancelled now (Some "cancelled by the provider") in ret (Some tr)
        | RequestStatus.PENDING =>
            let* r := getS in
            match or_opt reference (provider_reference r) with
            | Some ref' =>
                if Str.truthy ref' then let* tr := mark_accepted ref' now in ret (Some tr)
                else ret None
            | None => ret None
            end
        | _ => ret None
        end
  end.

Definition attach_provider_reference (reference : string) (now : datetime) : method unit :=
  if negb (Str.truthy reference)
  then raise (error ErrorClass.ValidationError "a provider reference must not be empty" no_kwargs)
  else
    let* r := getS in
    if truthy_opt (provider_reference r) && negb (bool_decide (provider_reference r = Some reference))
    then raise (error ErrorClass.ConflictError
      "the request is already linked to a different provider reference"
      (no_kwargs <| k_metadata :=
         [("existing_provider_reference", jopt (provider_reference r));
          ("supplied_provider_reference", JStr reference)] |>))
    else
      modifyS (λ r, r <| provider_reference := Some reference |>) ;;;
      touch now.

Definition is_terminal (r : t) : bool := RequestStatus.is_terminal (status r).

(** [None] is the [TypeError] of comparing with a naive timestamp. *)
Definition is_due_for_retry (r : t) (now : datetime) : option bool :=
  match status r, next_retry_at r with
  | RequestStatus.RETRY_SCHEDULED, Some at_ => dt_le at_ now
  | _, _ => Some false
  end.

Definition age_seconds (r : t) (now : datetime) : option Q :=
  total_seconds <$> dt_sub now (created_at r).
Definition seconds_since_update (r : t) (now : datetime) : option Q :=
  total_seconds <$> dt_sub now (updated_at r).
End IntegrationRequest.
Export (hints) IntegrationRequest.

(** * [WebhookReceipt] *)

Module WebhookReceipt.
Record t := mk {
  id : UUID;
  provider : string;
  event_id : string;
  event_type : string;
  payload : dict;
  sig_metadata : signature_metadata;
  received_at : datetime;
  provider_reference : option string;
  correlation_id : option string;
  processing_status : WebhookProcessingStatus.t;
  integration_request_id : option UUID;
  processed_at : option datetime;
  failure_reason : option string;
  attempt_count : Z;
  next_attempt_at : option datetime;
}.

#[export] Instance eta_receipt : Eta t := λ w,
  mk (id w) (provider w) (event_id w) (event_type w) (payload w) (sig_metadata w) (received_at w)
    (provider_reference w) (correlation_id w) (processing_status w) (integration_request_id w)
    (processed_at w) (failure_reason w) (attempt_count w) (next_attempt_at w).

Definition method (A : Type) : Type := M exn t A.

(** [__post_init__] *)
Definition make (w : t) : outcome exn t :=
  match _require_aware (received_at w) "received_at" with
  | Raise e => Raise e
  | Ret _ =>
      if negb (Str.truthy (event_id w))
      then Raise (error ErrorClass.ValidationError
        "a webhook receipt requires a provider event id" no_kwargs)
      else Ret w
  end.

Definition mark_processed (now : datetime) (request_id : option UUID) : method unit :=
  modifyS (λ w, w <| processing_status := WebhookProcessingStatus.PROCESSED |>) ;;;
  let* now := lift (_require_aware now "now") in
  modifyS (λ w, w <| processed_at := Some now |> <| failure_reason := None |>
                  <| next_attempt_at := None |>) ;;;
  match request_id with
  | Some i => modifyS (λ w, w <| integration_request_id := Some i |>)
  | None => ret tt
  end.

Definition mark_duplicate (now : datetime) : method unit :=
  modifyS (λ w, w <| processing_status := WebhookProcessingStatus.DUPLICATE |>) ;;;
  let* now := lift (_require_aware now "now") in
  modifyS (λ w, w <| processed_at := Some now |> <| next_attempt_at := None |>).

Definition mark_rejected (reason : string) (now : datetime) : method unit :=
  modifyS (λ w, w <| processing_status := WebhookProcessingStatus.REJECTED |>) ;;;
  let* now := lift (_require_aware now "now") in
  modifyS (λ w, w <| processed_at := Some now |> <| failure_reason := Some reason |>
                  <| next_attempt_at := None |>).

Definition mark_deferred (reason : string) (next_at now : datetime) : method unit :=
  lift (_require_aware next_at "next_attempt_at") ;;;
  modifyS (λ w, w <| processing_status := WebhookProcessingStatus.DEFERRED |>
                  <| failure_reason := Some reason |> <| attempt_count ::= (λ n, n + 1) |>
                  <| next_attempt_at := Some next_at |> <| processed_at := None |>) ;;;
  lift (_require_aware now "now") ;;;
  ret tt.

Definition mark_failed (reason : string) (now : datetime) : method unit :=
  modifyS (λ w, w <| processing_status := WebhookProcessingStatus.FAILED |>
                  <| failure_reason := Some reason |> <| attempt_count ::= (λ n, n + 1) |>) ;;;
  let* now := lift (_require_aware now "now") in
  modifyS (λ w, w <| processed_at := Some now |>).

Definition mark_abandoned (reason : string) (now : datetime) : method unit :=
  modifyS (λ w, w <| processing_status := WebhookProcessingStatus.ABANDONED |>
                  <| failure_reason := Some reason |>) ;;;
  let* now := lift (_require_aware now "now") in
  modifyS (λ w, w <| processed_at := Some now |> <| next_attempt_at := None |>).

Definition is_settled (w : t) : bool :=
  bool_decide (processing_status w ∈
    [WebhookProcessingStatus.PROCESSED; WebhookProcessingStatus.DUPLICATE;
     WebhookProcessingStatus.REJECTED; WebhookProcessingStatus.ABANDONED]).
End WebhookReceipt.
Export (hints) WebhookReceipt.

(** * Provider descriptions *)

Record ProviderDescriptor := mk_descriptor {
  d_slug : string;
  d_display_name : string;
  d_authentication_type : string;
  d_enabled : bool;
  d_supported_operations : list OperationType.t;
  d_supports_cancellation : bool;
  d_supports_status_lookup : bool;
  d_supports_provider_idempotency : bool;
  d_webhook_signature_scheme : string;
  d_max_concurrency : Z;
  d_max_attempts : Z;
  d_total_timeout_seconds : Q;
}.

Definition supports (d : ProviderDescriptor) (op : OperationType.t) : bool :=
  bool_decide (op ∈ d_supported_operations d).
