(* ===== verification/RequestFacts.v ===== *)
(** Facts about [IntegrationRequest]: every call of a mutator, as data; the
    well-formedness invariant; what a call may change. *)

From S2P Require Import Prelude PyData PyTime Enums Errors StateMachine ValueObjects Policies Entities.

Import IntegrationRequest.

(** * Symbolic execution of a status change *)

(** The request after a successful [_transition]. *)
Definition moved (s : RequestStatus.t) (now : datetime) (r : t) : t :=
  r <| status := s |> <| updated_at := now |> <| version ::= (λ v, v + 1) |>.

Lemma wp_transition s now (Q : StatusTransition → t → Prop) (X : exn → t → Prop) r :
  (is_aware now = true → transition (status r) s →
   Q (mk_transition (status r) s now) (moved s now r)) →
  (is_aware now = false ∨ ¬ transition (status r) s → ∀ e, X e r) →
  wp (_transition s now) Q X r.
Proof.
  intros HQ HX. unfold _transition. wp_go. unfold _require_aware.
  destruct (is_aware now) eqn:Hn; cbn; [|by apply HX; left].
  wp_go. destruct (decide (transition (status r) s)) as [Ht|Ht].
  - rewrite assert_transition_ok by done. wp_go. unfold touch. wp_go.
    rewrite require_aware_ok by done. wp_go. by apply HQ.
  - rewrite assert_transition_raises by done. apply HX. by right.
Qed.

(** * Calls *)

Inductive call : Type :=
  | CBeginValidation (now : datetime)
  | CBeginDispatch (now : datetime)
  | CRecordPayload (payload : dict)
  | CMarkAccepted (reference : string) (now : datetime)
  | CMarkSucceeded (now : datetime) (reference : option string)
  | CMarkFailed (failure : FailureDetail) (now : datetime)
  | CScheduleRetry (failure : FailureDetail) (retry_at now : datetime)
  | CMarkCancelled (now : datetime) (reason : option string)
  | CMarkManualReview (reason : string) (now : datetime)
  | CRestoreForRetry (retry_at now : datetime)
  | CApplyStatus (s : NormalizedStatus.t) (now : datetime) (reference : option string)
      (failure : option FailureDetail)
  | CAttachReference (reference : string) (now : datetime)
  | CTouch (now : datetime).

Definition some_transition (m : method StatusTransition) : method (option StatusTransition) :=
  let* tr := m in ret (Some tr).
Definition no_transition (m : method unit) : method (option StatusTransition) :=
  m ;;; ret None.

Definition perform (c : call) : method (option StatusTransition) :=
  match c with
  | CBeginValidation now => some_transition (begin_validation now)
  | CBeginDispatch now => some_transition (begin_dispatch now)
  | CRecordPayload p => no_transition (record_provider_payload p)
  | CMarkAccepted ref now => some_transition (mark_accepted ref now)
  | CMarkSucceeded now ref => some_transition (mark_succeeded now ref)
  | CMarkFailed f now => some_transition (mark_failed f now)
  | CScheduleRetry f at_ now => some_transition (schedule_retry f at_ now)
  | CMarkCancelled now reason => some_transition (mark_cancelled now reason)
  | CMarkManualReview reason now => some_transition (mark_manual_review reason now)
  | CRestoreForRetry at_ now => some_transition (restore_for_retry at_ now)
  | CApplyStatus s now ref f => apply_normalized_status s now ref f
  | CAttachReference ref now => no_transition (attach_provider_reference ref now)
  | CTouch now => no_transition (touch now)
  end.

Create HintDb request_db.
#[export] Hint Unfold perform some_transition no_transition begin_validation begin_dispatch
  record_provider_payload mark_accepted mark_succeeded mark_failed schedule_retry mark_cancelled
  mark_manual_review restore_for_retry attach_provider_reference touch _apply_failure _clear_error
  : request_db.

(** Runs a mutator symbolically down to its leaves. *)
Ltac request_step :=
  first
    [ wp_step
    | lazymatch goal with
      | |- wp (_transition _ _) _ _ _ => apply wp_transition; intros ? ?
      | |- match _require_aware ?v _ with _ => _ end =>
          unfold _require_aware; destruct (is_aware v) eqn:?; cbn [negb]
      end ].
Ltac request_go := autounfold with request_db; repeat request_step.

(** * Well-formedness *)

(** What each status promises about the other fields. *)
Definition status_ok (r : t) : Prop :=
  match status r with
  | RequestStatus.RECEIVED | RequestStatus.VALIDATING =>
      next_retry_at r = None ∧ completed_at r = None ∧ attempt_count r = 0
  | RequestStatus.DISPATCHING => next_retry_at r = None ∧ 1 ≤ attempt_count r
  | RequestStatus.PENDING =>
      next_retry_at r = None ∧ 1 ≤ attempt_count r ∧ truthy_opt (provider_reference r) = true
  | RequestStatus.SUCCEEDED =>
      next_retry_at r = None ∧ is_Some (completed_at r) ∧ last_error_code r = None
  | RequestStatus.FAILED =>
      next_retry_at r = None ∧ is_Some (completed_at r) ∧ is_Some (last_error_code r)
  | RequestStatus.RETRY_SCHEDULED =>
      (∃ d, next_retry_at r = Some d ∧ is_aware d = true) ∧ completed_at r = None
  | RequestStatus.CANCELLED => next_retry_at r = None ∧ is_Some (completed_at r)
  | RequestStatus.MANUAL_REVIEW => next_retry_at r = None ∧ is_Some (manual_review_reason r)
  end.

Record wf (r : t) : Prop := {
  wf_created : is_aware (created_at r) = true;
  wf_updated : is_aware (updated_at r) = true;
  wf_attempts : 0 ≤ attempt_count r;
  wf_version : 0 ≤ version r;
  wf_status : status_ok r;
}.

Lemma wf_create i p op er pl c now k o r :
  create i p op er pl c now k o = Ret r → wf r ∧ status r = RequestStatus.RECEIVED.
Proof.
  unfold create, post_init, _require_aware. cbn.
  destruct (is_aware now) eqn:Hn; cbn; [|done]. intros [= <-].
  split; [|done]. by constructor.
Qed.

Lemma wf_retry_iff r :
  wf r → is_Some (next_retry_at r) ↔ status r = RequestStatus.RETRY_SCHEDULED.
Proof.
  intros [_ _ _ _ Hs]. unfold status_ok in Hs. destruct (status r); split; try done;
    destruct Hs as [Hs ?]; rewrite ?Hs; try (by intros []).
  destruct Hs as (d & -> & _). by eexists.
Qed.

(** The statuses a status can come from. *)
Lemma transition_source s u : transition s u →
  match u with
  | RequestStatus.RECEIVED => False
  | RequestStatus.VALIDATING => s = RequestStatus.RECEIVED
  | RequestStatus.PENDING => s = RequestStatus.DISPATCHING
  | _ => True
  end.
Proof. by destruct s, u. Qed.

Ltac wf_leaf :=
  match goal with
  | Hwf : wf ?r |- wf _ =>
      destruct Hwf as [? ? ? ? Hs]; constructor; cbn; try (done || lia); unfold status_ok in *; cbn;
      repeat match goal with
      | H : negb _ = false |- _ => apply negb_false_iff in H
      | H : _ && _ = true |- _ => apply andb_true_iff in H as [? ?]
      | H : status _ = _ |- _ => rewrite H in *
      end; cbn in *;
      try (match goal with |- context [status ?r] => destruct (status r) end);
      destruct_and?; split_and?; eauto; (done || lia)
  end.

(** Closes the leaves of a symbolic run that keep [wf]. *)
Ltac wf_done :=
  try done; unfold moved;
  try match goal with H : transition _ _ |- _ => apply transition_source in H; cbn in H end;
  try wf_leaf.

Lemma perform_wf c r : wf r → wp (perform c) (λ _, wf) (λ _, wf) r.
Proof.
  intros Hwf. destruct c as [| | | | | | | | | |s now ref f| |].
  11: unfold perform, apply_normalized_status;
      destruct s; cbn [project_normalized_status _STATUS_PROJECTION].
  all: request_go; wf_done.
Qed.

(** * What a call changes *)

(** The fields no mutator assigns. *)
Definition same_identity (r r' : t) : Prop :=
  id r' = id r ∧ provider r' = provider r ∧ operation_type r' = operation_type r ∧
  external_reference r' = external_reference r ∧ normalized_payload r' = normalized_payload r ∧
  correlation_id r' = correlation_id r ∧ created_at r' = created_at r ∧
  idempotency_key r' = idempotency_key r ∧ owner_subject r' = owner_subject r.

(** One entry into DISPATCHING counts one attempt. *)
Definition attempts_of (s : RequestStatus.t) : Z :=
  match s with RequestStatus.DISPATCHING => 1 | _ => 0 end.

Definition unchanged_status (r r' : t) : Prop :=
  status r' = status r ∧ attempt_count r' = attempt_count r ∧ version r ≤ version r' ≤ version r + 1.

Definition effect (r r' : t) (tr : option StatusTransition) : Prop :=
  same_identity r r' ∧
  match tr with
  | None => unchanged_status r r'
  | Some tr =>
      previous_status tr = status r ∧ new_status tr = status r' ∧
      transition (status r) (status r') ∧ version r' = version r + 1 ∧
      attempt_count r' = attempt_count r + attempts_of (status r')
  end.

Ltac effect_leaf :=
  unfold effect, same_identity, unchanged_status, moved; cbn; split_and?; (done || lia).

Lemma perform_effect c r :
  wp (perform c) (λ tr r', effect r r' tr)
     (λ _ r', same_identity r r' ∧ unchanged_status r r' ∧ version r' = version r) r.
Proof.
  destruct c as [| | | | | | | | | |s now ref f| |].
  11: unfold perform, apply_normalized_status;
      destruct s; cbn [project_normalized_status _STATUS_PROJECTION].
  all: request_go; effect_leaf.
Qed.

(** * Runs *)

(** Any sequence of calls on one object; a call that raises is caught by its
    caller, which goes on with the object as the call left it. *)
Fixpoint run_calls (cs : list call) (r : t) : list StatusTransition * t :=
  match cs with
  | [] => ([], r)
  | c :: cs' =>
      match perform c r with
      | (Ret (Some tr), r') => let '(l, r'') := run_calls cs' r' in (tr :: l, r'')
      | (_, r') => run_calls cs' r'
      end
  end.

Definition pair_of (tr : StatusTransition) : RequestStatus.t * RequestStatus.t :=
  (previous_status tr, new_status tr).

Lemma perform_cases c r :
  match perform c r with
  | (Ret (Some tr), r') => effect r r' (Some tr)
  | (_, r') => same_identity r r' ∧ unchanged_status r r'
  end.
Proof.
  pose proof (perform_effect c r) as H. unfold wp in H.
  destruct (perform c r) as [[[tr|]|e] r']; unfold effect in *; naive_solver.
Qed.

Lemma same_identity_trans r1 r2 r3 :
  same_identity r1 r2 → same_identity r2 r3 → same_identity r1 r3.
Proof. unfold same_identity. intuition congruence. Qed.

Lemma run_calls_wf cs r : wf r → wf (run_calls cs r).2.
Proof.
  revert r. induction cs as [|c cs IH]; intros r Hwf; [done|]. cbn.
  pose proof (perform_wf c r Hwf) as Hc. unfold wp in Hc.
  destruct (perform c r) as [[[tr|]|e] r']; [|by auto..].
  specialize (IH r' Hc). by destruct (run_calls cs r').
Qed.

Lemma run_calls_replays cs r :
  let '(l, r') := run_calls cs r in
  replays (status r) (pair_of <$> l) (status r') ∧ same_identity r r' ∧
  attempt_count r' = attempt_count r + Z.of_nat (length (filter (λ tr, new_status tr = RequestStatus.DISPATCHING) l)) ∧
  version r + Z.of_nat (length l) ≤ version r'.
Proof.
  revert r. induction cs as [|c cs IH]; intros r; cbn; [unfold same_identity; naive_solver lia|].
  pose proof (perform_cases c r) as Hc.
  destruct (perform c r) as [[[tr|]|e] r1].
  - specialize (IH r1). destruct (run_calls cs r1) as [l r2].
    destruct IH as (IHr & IHi & IHa & IHv). destruct Hc as (Hi & Hp & Hn & Ht & Hv & Ha).
    rewrite filter_cons, fmap_cons. cbn [length].
    split_and!; [by cbn; rewrite Hp, Hn|by eapply same_identity_trans| |lia].
    unfold attempts_of in Ha. rewrite <- Hn in Ha.
    case_decide as Hd; [rewrite Hd in Ha; cbn [length]; lia|]. destruct (new_status tr); done || lia.
  - specialize (IH r1). destruct (run_calls cs r1) as [l r2].
    destruct Hc as (Hi & Hs & Ha & Hv). rewrite <- Hs, <- Ha.
    destruct IH as (IHr & IHi & IHa & IHv).
    split_and!; [done|by eapply same_identity_trans|done|lia].
  - specialize (IH r1). destruct (run_calls cs r1) as [l r2].
    destruct Hc as (Hi & Hs & Ha & Hv). rewrite <- Hs, <- Ha.
    destruct IH as (IHr & IHi & IHa & IHv).
    split_and!; [done|by eapply same_identity_trans|done|lia].
Qed.

(** * Theorems *)

(** A request built by [create] and then handed to any sequence of mutator
    calls, with any arguments and with calls that raise included, keeps the
    well-formedness invariant: [next_retry_at] is set exactly in
    RETRY_SCHEDULED, a pending request has a provider reference, a finished
    one a completion time, a failed one an error code, an in-flight one at
    least one counted attempt, and timestamps stay timezone-aware. *)
Theorem request_always_wf (i : UUID) (p : string) (op : OperationType.t) (er : string) (pl : dict)
    (c : string) (now : datetime) (k o : option string) (r : t) (cs : list call) :
  create i p op er pl c now k o = Ret r → wf (run_calls cs r).2.
Proof. intros Hr. by apply run_calls_wf, (wf_create _ _ _ _ _ _ _ _ _ _ Hr). Qed.

Definition sample_request : t :=
  match create 7 "cobalt" OperationType.ACCESS_GRANT "ref" [] "corr" (utc 0) None None with
  | Ret r => r
  | Raise _ => mk 0 "" OperationType.ACCESS_GRANT "" [] "" (utc 0) (utc 0) RequestStatus.RECEIVED
                 None None None 0 None None None None None None 0 None
  end.

Lemma request_always_wf_witness :
  wf (run_calls [CBeginValidation (utc 1); CBeginDispatch (utc 2); CMarkAccepted "op-1" (utc 3);
                 CMarkAccepted "op-2" (utc 4)] sample_request).2.
Proof.
  apply (request_always_wf 7 "cobalt" OperationType.ACCESS_GRANT "ref" [] "corr" (utc 0) None None).
  reflexivity.
Defined.

(** For any sequence of mutator calls on a new request, the transitions the
    calls returned, in order, replay through the state machine from RECEIVED
    to the current status; [attempt_count] is exactly the number of entries
    into DISPATCHING; the version grew by at least one per transition; and the
    identity fields never changed. A transition is returned if and only if the
    status moved, so a caller that journals what it gets back loses nothing. *)
Theorem request_history_replays (i : UUID) (p : string) (op : OperationType.t) (er : string)
    (pl : dict) (c : string) (now : datetime) (k o : option string) (r : t) (cs : list call) :
  create i p op er pl c now k o = Ret r →
  let '(l, r') := run_calls cs r in
  replays RequestStatus.RECEIVED (pair_of <$> l) (status r') ∧ same_identity r r' ∧
  attempt_count r' =
    Z.of_nat (length (filter (λ tr, new_status tr = RequestStatus.DISPATCHING) l)) ∧
  Z.of_nat (length l) ≤ version r'.
Proof.
  intros Hr. pose proof (run_calls_replays cs r) as H. destruct (run_calls cs r) as [l r'].
  destruct (wf_create _ _ _ _ _ _ _ _ _ _ Hr) as [[_ _ _ Hv Hst] Hs].
  unfold status_ok in Hst. rewrite Hs in H, Hst.
  destruct H as (H1 & H2 & H3 & H4), Hst as (_ & _ & Ha). rewrite Ha in H3.
  split_and!; [done|done|lia|lia].
Qed.

Lemma request_history_replays_witness :
  let '(l, r') := run_calls [CBeginValidation (utc 1); CBeginDispatch (utc 2);
    CMarkSucceeded (utc 3) None; CMarkCancelled (utc 4) None] sample_request in
  replays RequestStatus.RECEIVED (pair_of <$> l) (status r') ∧ same_identity sample_request r' ∧
  attempt_count r' =
    Z.of_nat (length (filter (λ tr, new_status tr = RequestStatus.DISPATCHING) l)) ∧
  Z.of_nat (length l) ≤ version r'.
Proof.
  apply (request_history_replays 7 "cobalt" OperationType.ACCESS_GRANT "ref" [] "corr" (utc 0)
    None None). reflexivity.
Defined.
