(* ===== verification/Workflow.v ===== *)
(** Workflow executions: the state machines of [domain/workflow_state_machine.py]
    and the aggregates of [domain/workflow.py].

    An execution owns its steps; a method that mutates one step of an execution
    is a function on the whole execution, so that the aliasing of
    [execution.steps] is explicit. *)

From S2P Require Import Prelude PyData PyTime Enums Errors Policies.

(** * State machines *)

Module WS.
Import WorkflowStatus.
Definition _WORKFLOW_TRANSITIONS (s : WorkflowStatus.t) : list WorkflowStatus.t :=
  match s with
  | CREATED => [QUEUED; RUNNING; CANCELLED]
  | QUEUED => [RUNNING; CANCELLED; FAILED; TIMED_OUT]
  | RUNNING => [WAITING; RETRY_SCHEDULED; COMPENSATING; SUCCEEDED; FAILED; CANCELLED;
                MANUAL_REVIEW; TIMED_OUT]
  | WAITING => [RUNNING; COMPENSATING; FAILED; CANCELLED; MANUAL_REVIEW; TIMED_OUT]
  | RETRY_SCHEDULED => [RUNNING; COMPENSATING; FAILED; CANCELLED; MANUAL_REVIEW; TIMED_OUT]
  | TIMED_OUT => [COMPENSATING; CANCELLED; MANUAL_REVIEW; FAILED]
  | COMPENSATING => [COMPENSATED; MANUAL_REVIEW; DEAD_LETTERED; FAILED; CANCELLED]
  | MANUAL_REVIEW => [RUNNING; COMPENSATING; CANCELLED; DEAD_LETTERED]
  | SUCCEEDED => []
  | COMPENSATED => []
  | FAILED => [MANUAL_REVIEW]
  | CANCELLED => []
  | DEAD_LETTERED => []
  end.
End WS.

Module SS.
Import WorkflowStepStatus.
Definition _STEP_TRANSITIONS (s : WorkflowStepStatus.t) : list WorkflowStepStatus.t :=
  match s with
  | PENDING => [READY; SKIPPED; CANCELLED]
  | READY => [RUNNING; SKIPPED; CANCELLED]
  | RUNNING => [WAITING; RETRY_SCHEDULED; SUCCEEDED; FAILED; CANCELLED]
  | WAITING => [RUNNING; SUCCEEDED; FAILED; CANCELLED]
  | RETRY_SCHEDULED => [READY; RUNNING; FAILED; CANCELLED]
  | SUCCEEDED => [COMPENSATING; CANCELLED]
  | FAILED => [DEAD_LETTERED]
  | SKIPPED => []
  | COMPENSATING => [COMPENSATED; RETRY_SCHEDULED; DEAD_LETTERED; FAILED]
  | COMPENSATED => []
  | CANCELLED => []
  | DEAD_LETTERED => []
  end.
End SS.

Definition workflow_transition (s s' : WorkflowStatus.t) : Prop := s' ∈ WS._WORKFLOW_TRANSITIONS s.
Definition step_transition (s s' : WorkflowStepStatus.t) : Prop := s' ∈ SS._STEP_TRANSITIONS s.

Definition assert_workflow_transition (current new : WorkflowStatus.t) : outcome exn unit :=
  if bool_decide (new ∈ WS._WORKFLOW_TRANSITIONS current) then Ret tt
  else Raise (InvalidStateTransitionError current new None None None).

Definition assert_step_transition (current new : WorkflowStepStatus.t) : outcome exn unit :=
  if bool_decide (new ∈ SS._STEP_TRANSITIONS current) then Ret tt
  else Raise (InvalidStateTransitionError current new None None None).

(** * Definitions *)

Record WorkflowStepDefinition := mk_step_def {
  sd_key : string;
  sd_provider : string;
  sd_operation_type : OperationType.t;
  sd_depends_on : list string;
  sd_compensate_operation : option OperationType.t;
  sd_wait_for_webhook : bool;
  sd_max_attempts : Z;
  sd_timeout_seconds : option Z;
  sd_payload_template : dict;
}.

Module WorkflowDefinition.
Record t := mk {
  id : UUID;
  name : string;
  version : Z;
  steps : list WorkflowStepDefinition;
  created_at : datetime;
  immutable : bool;
}.
#[export] Instance eta_definition : Eta t := λ d,
  mk (id d) (name d) (version d) (steps d) (created_at d) (immutable d).

Definition step (d : t) (key : string) : outcome exn WorkflowStepDefinition :=
  match list_find (λ s, sd_key s = key) (steps d) with
  | Some (_, s) => Ret s
  | None => Raise (EKeyError key)
  end.

Definition mark_immutable (d : t) : t := d <| immutable := true |>.
End WorkflowDefinition.
Export (hints) WorkflowDefinition.

(** * Step executions *)

Module Step.
Record t := mk {
  id : UUID;
  workflow_execution_id : UUID;
  step_key : string;
  provider : string;
  operation_type : OperationType.t;
  depends_on : list string;
  compensate_operation : option OperationType.t;
  wait_for_webhook : bool;
  status : WorkflowStepStatus.t;
  attempt_count : Z;
  max_attempts : Z;
  integration_request_id : option UUID;
  compensation_request_id : option UUID;
  input_payload : dict;
  output_payload : option dict;
  error_code : option string;
  error_message : option string;
  created_at : datetime;
  updated_at : datetime;
  completed_at : option datetime;
  version : Z;
}.

#[export] Instance eta_step : Eta t := λ s,
  mk (id s) (workflow_execution_id s) (step_key s) (provider s) (operation_type s) (depends_on s)
    (compensate_operation s) (wait_for_webhook s) (status s) (attempt_count s) (max_attempts s)
    (integration_request_id s) (compensation_request_id s) (input_payload s) (output_payload s)
    (error_code s) (error_message s) (created_at s) (updated_at s) (completed_at s) (version s).

Definition method (A : Type) : Type := M exn t A.

Definition transition_to (new : WorkflowStepStatus.t) (now : datetime) : method unit :=
  let* s := getS in
  lift (assert_step_transition (status s) new) ;;;
  modifyS (λ s, s <| status := new |> <| updated_at := now |>) ;;;
  (if WorkflowStepStatus.is_terminal new || bool_decide (new = WorkflowStepStatus.COMPENSATED)
   then modifyS (λ s, s <| completed_at := Some now |>) else ret tt) ;;;
  modifyS (λ s, s <| version ::= (λ v, v + 1) |>).

Definition mark_ready (now : datetime) : method unit := transition_to WorkflowStepStatus.READY now.
Definition mark_running (now : datetime) : method unit :=
  modifyS (λ s, s <| attempt_count ::= (λ n, n + 1) |>) ;;;
  transition_to WorkflowStepStatus.RUNNING now.
Definition mark_waiting (now : datetime) : method unit :=
  transition_to WorkflowStepStatus.WAITING now.
Definition mark_succeeded (now : datetime) (request_id : UUID) (output : option dict) :
    method unit :=
  modifyS (λ s, s <| integration_request_id := Some request_id |> <| output_payload := output |>) ;;;
  transition_to WorkflowStepStatus.SUCCEEDED now.
Definition mark_failed (now : datetime) (code msg : option string) : method unit :=
  modifyS (λ s, s <| error_code := code |> <| error_message := msg |>) ;;;
  transition_to WorkflowStepStatus.FAILED now.
Definition begin_compensation (now : datetime) : method unit :=
  transition_to WorkflowStepStatus.COMPENSATING now.
Definition mark_compensated (now : datetime) (request_id : option UUID) : method unit :=
  modifyS (λ s, s <| compensation_request_id := request_id |>) ;;;
  transition_to WorkflowStepStatus.COMPENSATED now.
End Step.
Export (hints) Step.

(** * Executions *)

Module WorkflowExecution.
Record t := mk {
  id : UUID;
  definition_id : UUID;
  definition_name : string;
  definition_version : Z;
  status : WorkflowStatus.t;
  correlation_id : string;
  idempotency_key : option string;
  input_payload : dict;
  steps : list Step.t;
  created_at : datetime;
  updated_at : datetime;
  completed_at : option datetime;
  manual_review_reason : option string;
  version : Z;
  owner_subject : option string;
  claim_lease_until : option datetime;
  deadline_at : option datetime;
  cancel_reason : option string;
  deadline_processed_at : option datetime;
}.

#[export] Instance eta_execution : Eta t := λ e,
  mk (id e) (definition_id e) (definition_name e) (definition_version e) (status e)
    (correlation_id e) (idempotency_key e) (input_payload e) (steps e) (created_at e) (updated_at e)
    (completed_at e) (manual_review_reason e) (version e) (owner_subject e) (claim_lease_until e)
    (deadline_at e) (cancel_reason e) (deadline_processed_at e).

Definition method (A : Type) : Type := M exn t A.

Definition transition_to (new : WorkflowStatus.t) (now : datetime) : method unit :=
  let* e := getS in
  lift (assert_workflow_transition (status e) new) ;;;
  modifyS (λ e, e <| status := new |> <| updated_at := now |>) ;;;
  (if WorkflowStatus.is_terminal new
   then modifyS (λ e, e <| completed_at := Some now |>) else ret tt) ;;;
  modifyS (λ e, e <| version ::= (λ v, v + 1) |>).

(** The step object [execution.steps[i]], mutated in place. *)
Definition on_step (i : nat) (m : Step.method unit) : method unit := λ e,
  match steps e !! i with
  | None => (Raise (EOther "IndexError"), e)
  | Some s => match m s with
              | (o, s') => (o, e <| steps := <[i := s']> (steps e) |>)
              end
  end.

Definition step_by_key (e : t) (key : string) : outcome exn Step.t :=
  match list_find (λ s, Step.step_key s = key) (steps e) with
  | Some (_, s) => Ret s
  | None => Raise (EKeyError key)
  end.

Fixpoint deps_satisfied (e : t) (deps : list string) : outcome exn bool :=
  match deps with
  | [] => Ret true
  | d :: deps' =>
      match step_by_key e d with
      | Raise x => Raise x
      | Ret s => if bool_decide (Step.status s = WorkflowStepStatus.SUCCEEDED)
                 then deps_satisfied e deps' else Ret false
      end
  end.
Definition dependencies_satisfied (e : t) (s : Step.t) : outcome exn bool :=
  deps_satisfied e (Step.depends_on s).

(** [promote_ready_steps]; the returned list holds the promoted positions. *)
Definition promote_step (now : datetime) (i : nat) : method (list nat) :=
  let* e := getS in
  match steps e !! i with
  | None => ret []
  | Some s =>
      if bool_decide (Step.status s = WorkflowStepStatus.PENDING) then
        let* ok := lift (dependencies_satisfied e s) in
        if ok then on_step i (Step.mark_ready now) ;;; ret [i] else ret []
      else ret []
  end.
Fixpoint promote_from (now : datetime) (is_ : list nat) : method (list nat) :=
  match is_ with
  | [] => ret []
  | i :: is' =>
      let* l := promote_step now i in
      let* l' := promote_from now is' in
      ret (l ++ l')
  end.
Definition promote_ready_steps (now : datetime) : method (list nat) :=
  let* e := getS in promote_from now (seq 0 (length (steps e))).

(** [sorted(completed, key=lambda s: s.completed_at or s.updated_at,
    reverse=True)]: descending and stable. *)
Definition completion_key (s : Step.t) : Z :=
  instant (default (Step.updated_at s) (Step.completed_at s)).
Fixpoint insert_desc (s : Step.t) (l : list Step.t) : list Step.t :=
  match l with
  | [] => [s]
  | s' :: l' => if completion_key s' <=? completion_key s then s :: l else s' :: insert_desc s l'
  end.
Definition is_succeeded (s : Step.t) : bool :=
  bool_decide (Step.status s = WorkflowStepStatus.SUCCEEDED).
Definition succeeded_in_reverse (e : t) : list Step.t :=
  foldr insert_desc [] (List.filter is_succeeded (steps e)).

Definition all_forward_succeeded (e : t) : bool := forallb is_succeeded (steps e).
Definition any_waiting (e : t) : bool :=
  existsb (λ s, bool_decide (Step.status s = WorkflowStepStatus.WAITING)) (steps e).
(** [None] is the [TypeError] of comparing with a naive deadline. *)
Definition is_past_deadline (e : t) (now : datetime) : option bool :=
  match deadline_at e with
  | None => Some false
  | Some d => dt_le d now
  end.
Definition has_succeeded_steps (e : t) : bool := existsb is_succeeded (steps e).
End WorkflowExecution.
Export (hints) WorkflowExecution.

(** * Theorems *)

Module WorkflowFacts.
Import WorkflowExecution.

Lemma insert_desc_perm s l : insert_desc s l ≡ₚ s :: l.
Proof.
  induction l as [|s' l IH]; cbn; [done|]. destruct (_ <=? _); [done|].
  rewrite IH. apply perm_swap.
Qed.

Definition later (a b : Step.t) : Prop := completion_key b ≤ completion_key a.

Lemma insert_desc_sorted s l : StronglySorted later l → StronglySorted later (insert_desc s l).
Proof.
  intros Hl. induction Hl as [|s' l Hl IH Hs']; cbn; [by repeat constructor|].
  destruct (_ <=? _) eqn:Hle.
  - apply Z.leb_le in Hle. constructor; [by constructor|]. constructor; [done|].
    eapply Forall_impl; [apply Hs'|]. unfold later. intros x Hx. cbn in Hx. lia.
  - apply Z.leb_gt in Hle. constructor; [done|]. rewrite insert_desc_perm.
    constructor; [unfold later; lia|done].
Qed.

(** The one field that changes when a step becomes ready. *)
Definition readied (now : datetime) (s : Step.t) : Step.t :=
  (Step.mark_ready now s).2.

(** [e] after some steps of [e0] were promoted. *)
Definition promoted_from (now : datetime) (e0 e : t) : Prop :=
  length (steps e) = length (steps e0) ∧
  ∀ i s, steps e0 !! i = Some s →
    steps e !! i = Some s ∨
    (Step.status s = WorkflowStepStatus.PENDING ∧ dependencies_satisfied e0 s = Ret true ∧
     steps e !! i = Some (readied now s)).

Lemma readied_spec now s : Step.status s = WorkflowStepStatus.PENDING →
  Step.mark_ready now s = (Ret tt, readied now s) ∧
  Step.status (readied now s) = WorkflowStepStatus.READY ∧
  Step.step_key (readied now s) = Step.step_key s ∧ Step.depends_on (readied now s) = Step.depends_on s.
Proof.
  intros Hs. unfold readied, Step.mark_ready, Step.transition_to, bind, getS, lift, modifyS, ret.
  cbn. unfold assert_step_transition. by rewrite Hs.
Qed.

Lemma promoted_step_by_key now e0 e key : promoted_from now e0 e →
  match step_by_key e0 key with
  | Ret s => ∃ s', step_by_key e key = Ret s' ∧
               (Step.status s' = WorkflowStepStatus.SUCCEEDED ↔ Step.status s = WorkflowStepStatus.SUCCEEDED)
  | Raise x => step_by_key e key = Raise x
  end.
Proof.
  intros [Hlen Hp]. unfold step_by_key.
  generalize dependent (steps e). intros l. clear e.
  assert (∀ l0 : list Step.t, length l = length l0 →
    (∀ i s, l0 !! i = Some s → ∃ s', l !! i = Some s' ∧ Step.step_key s' = Step.step_key s ∧
      (Step.status s' = WorkflowStepStatus.SUCCEEDED ↔ Step.status s = WorkflowStepStatus.SUCCEEDED)) →
    match list_find (λ s, Step.step_key s = key) l0 with
    | Some (_, s) => ∃ j s', list_find (λ s, Step.step_key s = key) l = Some (j, s') ∧
        (Step.status s' = WorkflowStepStatus.SUCCEEDED ↔ Step.status s = WorkflowStepStatus.SUCCEEDED)
    | None => list_find (λ s, Step.step_key s = key) l = None
    end) as Hgen.
  { induction l as [|s' l IH]; intros [|s l0] Hl Hi; try done.
    destruct (Hi 0%nat s eq_refl) as (s'' & [= <-] & Hk & Hs). cbn. rewrite Hk.
    case_decide; [by eexists _, _|].
    assert (length l = length l0) as Hl' by (cbn in Hl; lia).
    specialize (IH l0 Hl' (λ i s0 H0, Hi (S i) s0 H0)).
    destruct (list_find _ l0) as [[j x]|].
    - destruct IH as (j' & x' & -> & Hx). by eexists _, _.
    - by rewrite IH. }
  intros Hlen Hp. specialize (Hgen (steps e0) Hlen).
  destruct (list_find _ (steps e0)) as [[j x]|]; cbn.
  - destruct Hgen as (j' & x' & -> & Hx); [|by eexists].
    intros i s Hi. destruct (Hp i s Hi) as [H|(Hs & _ & H)]; eexists; (split; [exact H|]); [done|].
    destruct (readied_spec now s Hs) as (_ & Hr & Hk & _). rewrite Hr, Hs. naive_solver.
  - rewrite Hgen; [done|].
    intros i s Hi. destruct (Hp i s Hi) as [H|(Hs & _ & H)]; eexists; (split; [exact H|]); [done|].
    destruct (readied_spec now s Hs) as (_ & Hr & Hk & _). rewrite Hr, Hs. naive_solver.
Qed.

Lemma promoted_deps now e0 e deps : promoted_from now e0 e →
  deps_satisfied e deps = deps_satisfied e0 deps.
Proof.
  intros Hp. induction deps as [|d deps IH]; [done|]. cbn.
  pose proof (promoted_step_by_key now e0 e d Hp) as Hd.
  destruct (step_by_key e0 d) as [s|x]; [|by rewrite Hd].
  destruct Hd as (s' & -> & Hs). rewrite IH. by rewrite (bool_decide_ext _ _ Hs).
Qed.

Definition promotable (e : t) (i : nat) (s : Step.t) : Prop :=
  steps e !! i = Some s ∧ Step.status s = WorkflowStepStatus.PENDING ∧
  dependencies_satisfied e s = Ret true.

Lemma promote_step_spec now e0 e i : promoted_from now e0 e → steps e !! i = steps e0 !! i →
  wp (promote_step now i)
    (λ l e', promoted_from now e0 e' ∧ (∀ j, j ≠ i → steps e' !! j = steps e !! j) ∧
       ((∃ s, promotable e0 i s ∧ steps e' !! i = Some (readied now s) ∧ l = [i]) ∨
        ((∀ s, ¬ promotable e0 i s) ∧ l = [] ∧ e' = e)))
    (λ _, promoted_from now e0) e.
Proof.
  intros Hp Hi. unfold promote_step. wp_go; try done.
  - apply bool_decide_eq_true in Hb. unfold dependencies_satisfied.
    rewrite (promoted_deps now e0 e) by done.
    destruct (deps_satisfied e0 _) as [[]|] eqn:Hd; wp_go; try done.
    + pose proof (lookup_lt_Some _ _ _ Ho) as Hlt.
      unfold on_step, wp. rewrite Ho. destruct (readied_spec now t0 Hb) as (-> & _).
      cbn. split_and!.
      * destruct Hp as [Hlen Hp]. split; [cbn; by rewrite length_insert|].
        intros j s Hj. cbn. destruct (decide (i = j)) as [<-|Hne].
        -- right. assert (s = t0) as -> by congruence. split_and!; [done|done|].
           by apply list_lookup_insert_eq.
        -- rewrite list_lookup_insert_ne by done. by apply Hp.
      * intros j Hj. by rewrite list_lookup_insert_ne.
      * left. exists t0. unfold promotable. split_and!; [done|done|done| |done].
        by apply list_lookup_insert_eq.
    + split_and!; [done|done|]. right. split_and!; [|done|done].
      intros s (Hs & _ & Hs'). assert (s = t0) as -> by congruence.
      unfold dependencies_satisfied in Hs'. congruence.
  - apply bool_decide_eq_false in Hb. split_and!; [done|done|]. right. split_and!; [|done|done].
    intros s (Hs & Hs' & _). by assert (s = t0) as -> by congruence.
  - split_and!; [done|done|]. right. split_and!; [|done|done].
    intros s (Hs & _). congruence.
Qed.

Lemma promote_from_spec now e0 is_ e : promoted_from now e0 e → NoDup is_ →
  (∀ i, i ∈ is_ → steps e !! i = steps e0 !! i) →
  wp (promote_from now is_)
    (λ l e', promoted_from now e0 e' ∧ (∀ j, j ∉ is_ → steps e' !! j = steps e !! j) ∧
       l ⊆ is_ ∧
       ∀ i s, i ∈ is_ → steps e0 !! i = Some s →
         (promotable e0 i s → i ∈ l ∧ steps e' !! i = Some (readied now s)) ∧
         (¬ promotable e0 i s → (i ∉ l) ∧ steps e' !! i = Some s))
    (λ _, promoted_from now e0) e.
Proof.
  revert e. induction is_ as [|i is_ IH]; intros e Hp Hnd Hsame; cbn.
  - wp_go. refine (conj Hp (conj _ (conj _ _))); [done|done|]. intros i s Hi. by apply elem_of_nil in Hi.
  - apply NoDup_cons in Hnd as [Hi Hnd]. apply wp_bind.
    eapply wp_conseq; [apply (promote_step_spec now e0 e i Hp), Hsame; left| |done].
    intros l e1 (Hp1 & Hne1 & Hcase). apply wp_bind.
    eapply wp_conseq; [apply (IH e1 Hp1 Hnd)| |done].
    { intros j Hj. rewrite Hne1 by (intros ->; done). apply Hsame. by right. }
    intros l' e2 (Hp2 & Hne2 & Hsub & Hspec). wp_go.
    assert (l ⊆ [i]) as Hl.
    { destruct Hcase as [(? & _ & _ & ->)|(_ & -> & _)]; [done|apply list_subseteq_nil]. }
    refine (conj Hp2 (conj _ (conj _ _)));
      [|intros x Hx; apply elem_of_app in Hx as [Hx%Hl|Hx%Hsub]; [|by right];
        apply list_elem_of_singleton in Hx as ->; left|].
    { intros j Hj. apply not_elem_of_cons in Hj as [Hj1 Hj2]. by rewrite Hne2, Hne1. }
    intros j s Hj Hs. apply elem_of_cons in Hj as [->|Hj].
    + rewrite Hne2 by done. destruct Hcase as [(s' & Hpr & He & ->)|(Hnp & -> & ->)].
      * assert (s' = s) as -> by (destruct Hpr; congruence). split; [|done].
        intros _. split; [left|done].
      * split; [by intros ?%Hnp|]. intros _. split; [by intros Hx%Hsub|].
        rewrite Hsame by left. done.
    + destruct (Hspec j s Hj Hs) as (H1 & H2). assert (j ≠ i) by (by intros ->).
      split; intros Hpr; [destruct (H1 Hpr) as [Hin He]|destruct (H2 Hpr) as [Hin He]];
        (split; [|exact He]); rewrite elem_of_app; [by right|].
      intros [Hx|Hx]; [|done]. apply Hl in Hx. by apply list_elem_of_singleton in Hx.
Qed.
End WorkflowFacts.

Module WorkflowTheorems.
Import WorkflowExecution WorkflowFacts.

(** Compensation visits exactly the steps that succeeded, each once, in
    reverse order of completion: the list [succeeded_in_reverse] is a
    permutation of the succeeded steps and is sorted by completion time,
    latest first. *)
Theorem saga_unwind_order (e : t) :
  succeeded_in_reverse e ≡ₚ List.filter is_succeeded (steps e) ∧
  StronglySorted (λ a b, completion_key b ≤ completion_key a) (succeeded_in_reverse e).
Proof.
  unfold succeeded_in_reverse. induction (List.filter is_succeeded (steps e)) as [|s l [IHp IHs]];
    cbn; [by repeat constructor|].
  split; [by rewrite insert_desc_perm, IHp|by apply insert_desc_sorted].
Qed.

(** [promote_ready_steps] either raises (a dependency names no step) or
    moves to READY exactly the PENDING steps all of whose dependencies have
    SUCCEEDED, returns exactly their positions, and leaves every other step
    untouched: promotion during the loop never enables a further step. *)
Theorem promote_exactly_ready (now : datetime) (e e' : t) (l : list nat) :
  promote_ready_steps now e = (Ret l, e') →
  length (steps e') = length (steps e) ∧
  ∀ i s, steps e !! i = Some s →
    if bool_decide (Step.status s = WorkflowStepStatus.PENDING) &&
       match dependencies_satisfied e s with Ret b => b | Raise _ => false end
    then i ∈ l ∧ ∃ s', steps e' !! i = Some s' ∧ Step.status s' = WorkflowStepStatus.READY
    else (i ∉ l) ∧ steps e' !! i = Some s.
Proof.
  intros Hrun. pose proof (promote_from_spec now e (seq 0 (length (steps e))) e) as Hspec.
  unfold wp in Hspec. change (promote_from now (seq 0 (length (steps e))) e = (Ret l, e')) in Hrun.
  rewrite Hrun in Hspec. destruct Hspec as ([Hlen _] & _ & _ & Hi).
  { split; [done|]. by left. }
  { apply NoDup_seq. }
  { done. }
  split; [done|]. intros i s Hs.
  destruct (Hi i s) as [H1 H2]; [apply elem_of_seq; apply lookup_lt_Some in Hs; lia|done|].
  case_bool_decide as Hp; cbn; [|by apply H2; intros (_ & ? & _)].
  destruct (dependencies_satisfied e s) as [[]|] eqn:Hd.
  - destruct H1 as [Hl Hs']; [done|]. split; [done|]. eexists. split; [done|].
    by apply readied_spec.
  - apply H2. intros (_ & _ & ?). congruence.
  - apply H2. intros (_ & _ & ?). congruence.
Qed.

Definition sample_step (i : N) (key : string) (deps : list string) (st : WorkflowStepStatus.t) : Step.t :=
  Step.mk i 1 key "cobalt" OperationType.ACCESS_GRANT deps None false st 0 3 None None [] None None
    None (utc 0) (utc 0) None 1.
Definition sample_execution (l : list Step.t) : t :=
  mk 1 1 "wf" 1 WorkflowStatus.RUNNING "corr" None [] l (utc 0) (utc 0) None None 1 None None None
    None None.

Definition sample_saga : t :=
  sample_execution
    [sample_step 1 "a" [] WorkflowStepStatus.SUCCEEDED;
     sample_step 2 "b" ["a"] WorkflowStepStatus.PENDING;
     sample_step 3 "c" ["b"] WorkflowStepStatus.PENDING].

Lemma promote_exactly_ready_witness :
  length (steps (promote_ready_steps (utc 5) sample_saga).2) = length (steps sample_saga).
Proof.
  apply (promote_exactly_ready (utc 5) sample_saga _ [1%nat]). vm_compute. reflexivity.
Defined.
End WorkflowTheorems.
