(* ===== verification/Records.v ===== *)
(** Audit, outbox and idempotency records ([domain/records.py]), event payloads
    and the published envelope ([domain/events.py]), and the provider-neutral
    commands and results ([domain/contracts.py]). *)

From S2P Require Import Prelude PyData PyTime Enums Errors StateMachine ValueObjects Policies Entities.

(** [application/dto/commands.py]: who causes an action. *)
Record Actor := mk_actor { actor_type : ActorType.t; actor_id : option string }.
Definition actor_system : Actor := mk_actor ActorType.SYSTEM None.

(** * Audit events *)

Module AuditEvent.
Record t := mk {
  id : UUID;
  aggregate_type : string;
  aggregate_id : string;
  action : AuditAction.t;
  actor : ActorType.t;
  correlation_id : string;
  occurred_at : datetime;
  previous_state : option string;
  new_state : option string;
  actor_id : option string;
  metadata : dict;
}.

(** [__post_init__] *)
Definition make (e : t) : outcome exn t :=
  if negb (is_aware (occurred_at e)) then Raise (invalid "audit timestamps must be timezone-aware")
  else if negb (Str.truthy (aggregate_id e))
  then Raise (invalid "an audit event requires an aggregate id")
  else Ret e.

Definition for_request (event_id request_id : UUID) (act : AuditAction.t) (by_ : ActorType.t)
    (corr : string) (at_ : datetime) (prev new : option RequestStatus.t) (by_id : option string)
    (md : dict) : outcome exn t :=
  make (mk event_id "integration_request" (uuid_str request_id) act by_ corr at_
          (value <$> prev) (value <$> new) by_id md).

Definition for_provider (event_id : UUID) (provider : string) (act : AuditAction.t)
    (by_ : ActorType.t) (corr : string) (at_ : datetime) (prev new : option string)
    (md : dict) : outcome exn t :=
  make (mk event_id "provider" provider act by_ corr at_ prev new None md).

Definition for_webhook (event_id receipt_id : UUID) (act : AuditAction.t) (corr : string)
    (at_ : datetime) (md : dict) : outcome exn t :=
  make (mk event_id "webhook_receipt" (uuid_str receipt_id) act ActorType.WEBHOOK corr at_
          None None None md).
End AuditEvent.

(** * Outbox events *)

Module OutboxEvent.
Record t := mk {
  id : UUID;
  event_id : UUID;
  event_type : string;
  event_version : Z;
  aggregate_type : string;
  aggregate_id : string;
  payload : dict;
  correlation_id : string;
  created_at : datetime;
  causation_id : option string;
  partition_key : option string;
  published_at : option datetime;
  attempt_count : Z;
  next_attempt_at : option datetime;
  last_error : option string;
  dead_lettered_at : option datetime;
}.
#[export] Instance eta_outbox : Eta t := λ e,
  mk (id e) (event_id e) (event_type e) (event_version e) (aggregate_type e) (aggregate_id e)
    (payload e) (correlation_id e) (created_at e) (causation_id e) (partition_key e)
    (published_at e) (attempt_count e) (next_attempt_at e) (last_error e) (dead_lettered_at e).

(** [__post_init__] *)
Definition make (e : t) : outcome exn t :=
  if negb (is_aware (created_at e)) then Raise (invalid "outbox timestamps must be timezone-aware")
  else if event_version e <? 1 then Raise (invalid "an event version must be at least 1")
  else Ret e.

(** The constructor with every optional field at its default. *)
Definition fresh (i ev : UUID) (ty : string) (ver : Z) (aty aid : string) (p : dict) (corr : string)
    (at_ : datetime) (caus part : option string) : outcome exn t :=
  make (mk i ev ty ver aty aid p corr at_ caus part None 0 None None None).

Definition is_published (e : t) : bool := bool_decide (is_Some (published_at e)).
Definition is_dead_lettered (e : t) : bool := bool_decide (is_Some (dead_lettered_at e)).
Definition routing_key (e : t) : string := or_else (partition_key e) (aggregate_id e).

Definition mark_published (now : datetime) (e : t) : t :=
  e <| published_at := Some now |> <| last_error := None |> <| next_attempt_at := None |>.
Definition mark_publish_failed (error : string) (next_at : datetime) (e : t) : t :=
  e <| attempt_count ::= (λ n, n + 1) |> <| last_error := Some (Str.take 1000 error) |>
    <| next_attempt_at := Some next_at |>.
Definition mark_dead_lettered (error : string) (now : datetime) (e : t) : t :=
  e <| attempt_count ::= (λ n, n + 1) |> <| last_error := Some (Str.take 1000 error) |>
    <| next_attempt_at := None |> <| dead_lettered_at := Some now |>.
End OutboxEvent.
Export (hints) OutboxEvent.

(** * Idempotency records *)

Module IdempotencyRecord.
Record t := mk {
  key : string;
  fingerprint : string;
  request_id : UUID;
  response_status : Z;
  created_at : datetime;
  expires_at : option datetime;
}.
Definition make (r : t) : outcome exn t :=
  if negb (is_aware (created_at r))
  then Raise (invalid "idempotency timestamps must be timezone-aware") else Ret r.
Definition matches (r : t) (fp : string) : bool := bool_decide (fingerprint r = fp).
End IdempotencyRecord.

(** * Domain events *)

Definition CURRENT_EVENT_VERSION : Z := 1.
Definition PRODUCER_NAME : string := "integration-orchestrator".

Module EventType.
Definition REQUEST_RECEIVED : string := "integration.request.received.v1".
Definition REQUEST_DISPATCHED : string := "integration.request.dispatched.v1".
Definition REQUEST_PENDING : string := "integration.request.pending.v1".
Definition REQUEST_SUCCEEDED : string := "integration.request.succeeded.v1".
Definition REQUEST_FAILED : string := "integration.request.failed.v1".
Definition REQUEST_RETRY_SCHEDULED : string := "integration.request.retry_scheduled.v1".
Definition REQUEST_CANCELLED : string := "integration.request.cancelled.v1".
Definition REQUEST_MANUAL_REVIEW : string := "integration.request.manual_review.v1".
Definition PROVIDER_CIRCUIT_OPENED : string := "provider.circuit_opened.v1".
Definition PROVIDER_CIRCUIT_CLOSED : string := "provider.circuit_closed.v1".
End EventType.

(** [_STATUS_EVENT_TYPES], a total map, and the lookup that reads it. *)
Definition event_type_for_status (s : RequestStatus.t) : string :=
  match s with
  | RequestStatus.RECEIVED => EventType.REQUEST_RECEIVED
  | RequestStatus.VALIDATING => EventType.REQUEST_RECEIVED
  | RequestStatus.DISPATCHING => EventType.REQUEST_DISPATCHED
  | RequestStatus.PENDING => EventType.REQUEST_PENDING
  | RequestStatus.SUCCEEDED => EventType.REQUEST_SUCCEEDED
  | RequestStatus.FAILED => EventType.REQUEST_FAILED
  | RequestStatus.RETRY_SCHEDULED => EventType.REQUEST_RETRY_SCHEDULED
  | RequestStatus.CANCELLED => EventType.REQUEST_CANCELLED
  | RequestStatus.MANUAL_REVIEW => EventType.REQUEST_MANUAL_REVIEW
  end.

Definition build_request_event_payload (request_id : UUID) (provider operation_type ext_ref : string)
    (status : RequestStatus.t) (previous : option RequestStatus.t) (at_ : datetime)
    (provider_reference : option string) (attempt_count : Z) (error_code error_category : option string)
    (next_retry_at : option datetime) (extra : dict) : dict :=
  dict_merge
    ([("request_id", JStr (uuid_str request_id)); ("provider", JStr provider);
      ("operation_type", JStr operation_type); ("external_reference", JStr ext_ref);
      ("status", JStr (value status)); ("previous_status", jopt (value <$> previous));
      ("provider_reference", jopt provider_reference); ("attempt_count", JInt attempt_count);
      ("occurred_at", JStr (isoformat at_))] ++
     (if truthy_opt error_code then [("error_code", jopt error_code)] else []) ++
     (if truthy_opt error_category then [("error_category", jopt error_category)] else []) ++
     match next_retry_at with Some d => [("next_retry_at", JStr (isoformat d))] | None => [] end)
    extra.

Definition build_circuit_event_payload (provider previous_state new_state : string) (at_ : datetime)
    (failure_count : Z) (reason : option string) : dict :=
  [("provider", JStr provider); ("previous_state", JStr previous_state); ("state", JStr new_state);
   ("failure_count", JInt failure_count); ("occurred_at", JStr (isoformat at_))] ++
  (if truthy_opt reason then [("reason", jopt reason)] else []).

Record EventEnvelope := mk_envelope {
  env_event_id : UUID;
  env_event_type : string;
  env_event_version : Z;
  env_aggregate_type : string;
  env_aggregate_id : string;
  env_occurred_at : datetime;
  env_correlation_id : string;
  env_producer : string;
  env_payload : dict;
  env_causation_id : option string;
  env_metadata : dict;
}.

(** [__post_init__] *)
Definition envelope_make (e : EventEnvelope) : outcome exn EventEnvelope :=
  if negb (is_aware (env_occurred_at e))
  then Raise (invalid "event timestamps must be timezone-aware") else Ret e.

Definition envelope_to_dict (e : EventEnvelope) : dict :=
  [("event_id", JStr (uuid_str (env_event_id e))); ("event_type", JStr (env_event_type e));
   ("event_version", JInt (env_event_version e)); ("aggregate_type", JStr (env_aggregate_type e));
   ("aggregate_id", JStr (env_aggregate_id e));
   ("occurred_at", JStr (isoformat (env_occurred_at e)));
   ("correlation_id", JStr (env_correlation_id e)); ("causation_id", jopt (env_causation_id e));
   ("producer", JStr (env_producer e)); ("payload", JObj (env_payload e));
   ("metadata", JObj (env_metadata e))].

Definition envelope_from_parts (event_id : UUID) (event_type aggregate_type aggregate_id : string)
    (at_ : datetime) (corr : string) (payload : dict) (event_version : Z)
    (causation_id : option string) (md : dict) : outcome exn EventEnvelope :=
  envelope_make (mk_envelope event_id event_type event_version aggregate_type aggregate_id at_ corr
                   PRODUCER_NAME payload causation_id md).

(** * Provider contracts *)

Record CreateProviderOperationCommand := mk_create_cmd {
  cc_request_id : UUID;
  cc_provider : string;
  cc_operation_type : OperationType.t;
  cc_external_reference : string;
  cc_payload : dict;
  cc_correlation_id : string;
  cc_idempotency_key : string;
  cc_attempt : Z;
}.
Definition create_cmd_make (c : CreateProviderOperationCommand) :
    outcome exn CreateProviderOperationCommand :=
  if negb (Str.truthy (cc_idempotency_key c))
  then Raise (invalid "a provider operation command requires an idempotency key")
  else if cc_attempt c <? 1 then Raise (invalid "attempt must be at least 1")
  else Ret c.

Record CancelProviderOperationCommand := mk_cancel_cmd {
  xc_request_id : UUID;
  xc_provider : string;
  xc_provider_reference : string;
  xc_correlation_id : string;
  xc_reason : option string;
}.
Definition cancel_cmd_make (c : CancelProviderOperationCommand) :
    outcome exn CancelProviderOperationCommand :=
  if negb (Str.truthy (xc_provider_reference c))
  then Raise (invalid "cancellation requires a provider reference") else Ret c.

Record ProviderErrorInfo := mk_error_info {
  ei_code : string;
  ei_message : string;
  ei_category : ErrorCategory.t;
  ei_retryable : bool;
  ei_provider_code : option string;
  ei_retry_after_seconds : option Q;
}.
Definition from_error (e : domain_error) : ProviderErrorInfo :=
  {| ei_code := err_code e; ei_message := message e; ei_category := category e;
     ei_retryable := retryable e; ei_provider_code := err_provider_code e;
     ei_retry_after_seconds := retry_after_seconds e |}.
Definition to_failure_detail (i : ProviderErrorInfo) : FailureDetail :=
  {| fail_code := ei_code i; fail_message := ei_message i; fail_category := value (ei_category i);
     fail_retryable := ei_retryable i; fail_provider_code := ei_provider_code i |}.

Record ProviderOperationResult := mk_result {
  res_accepted : bool;
  res_normalized_status : NormalizedStatus.t;
  res_provider_reference : option string;
  res_provider_status : option string;
  res_raw_response_metadata : dict;
  res_error : option ProviderErrorInfo;
  res_occurred_at : option datetime;
}.
(** [__post_init__] *)
Definition result_make (r : ProviderOperationResult) : outcome exn ProviderOperationResult :=
  match res_accepted r, res_error r with
  | true, Some _ => Raise (invalid "an accepted provider result cannot carry an error")
  | false, None => Raise (invalid "a rejected provider result must carry an error")
  | _, _ => Ret r
  end.
Definition res_retryable (r : ProviderOperationResult) : bool :=
  match res_error r with Some e => ei_retryable e | None => false end.
(** [ProviderOperationResult.success] and [.failure] satisfy the check of the
    constructor by construction. *)
Definition result_success (s : NormalizedStatus.t) (reference status : option string) (md : dict)
    (at_ : option datetime) : ProviderOperationResult :=
  mk_result true s reference status md None at_.
Definition result_failure (e : ProviderErrorInfo) (reference status : option string) (md : dict) :
    ProviderOperationResult :=
  mk_result false NormalizedStatus.FAILED reference status md (Some e) None.

Record NormalizedWebhookEvent := mk_webhook_event {
  we_provider : string;
  we_provider_event_id : string;
  we_event_type : string;
  we_normalized_status : NormalizedStatus.t;
  we_occurred_at : datetime;
  we_provider_reference : option string;
  we_external_reference : option string;
  we_correlation_id : option string;
  we_payload_metadata : dict;
  we_error : option ProviderErrorInfo;
}.
Definition webhook_event_make (e : NormalizedWebhookEvent) : outcome exn NormalizedWebhookEvent :=
  if negb (Str.truthy (we_provider_event_id e))
  then Raise (invalid "a normalized webhook event requires a provider event id")
  else if negb (is_aware (we_occurred_at e))
  then Raise (invalid "webhook timestamps must be timezone-aware")
  else Ret e.

Record InboundWebhook := mk_inbound {
  in_provider : string;
  in_headers : list (string * string);
  in_body : list Z;
  in_received_at : datetime;
  in_remote_address : option string;
}.
Definition header (w : InboundWebhook) (name : string) : option string :=
  match list_find (λ kv, kv.1 = Str.lower name) (in_headers w) with
  | Some (_, kv) => Some kv.2
  | None => None
  end.
Definition require_header (w : InboundWebhook) (name : string) : outcome exn string :=
  match header w name with
  | Some v => Ret v
  | None => Raise (invalid ("the '" +:+ name +:+ "' header is required"))
  end.

Record WebhookVerification := mk_verification {
  wv_verified : bool;
  wv_signature_metadata : signature_metadata;
  wv_reason : option string;
}.

Record ProviderHealthProbe := mk_probe {
  hp_healthy : bool;
  hp_checked_at : datetime;
  hp_latency_ms : option Q;
  hp_detail : option string;
}.
