(* ===== verification/Store.v ===== *)
(** The database: tables, the SQLAlchemy session behind a unit of work, and the
    repositories ([infrastructure/db/unit_of_work.py], [repositories.py],
    [workflow_repositories.py], [mappers.py]; constraints from [models.py]).

    A unit of work runs on a working copy of the committed tables. The session
    has [autoflush=False]: rows passed to [add] stay in [pending] until a flush
    or the commit inserts them, checking the unique and foreign-key constraints;
    UPDATE statements act on the working copy at once. Leaving the block without
    a commit discards the working copy. Other processes act on the committed
    tables between blocks. *)

From S2P Require Import Prelude PyData PyTime Enums Errors StateMachine ValueObjects Policies Entities Workflow.
From S2P Require Import Records.

(** * Tables *)

Record tables := mk_tables {
  t_requests : gmap N IntegrationRequest.t;
  t_receipts : gmap N WebhookReceipt.t;
  t_audit : list AuditEvent.t;
  t_outbox : list OutboxEvent.t;
  t_idempotency : gmap string IdempotencyRecord.t;
  t_definitions : gmap N WorkflowDefinition.t;
  t_executions : gmap N WorkflowExecution.t;
}.
#[export] Instance eta_tables : Eta tables := λ t,
  mk_tables (t_requests t) (t_receipts t) (t_audit t) (t_outbox t) (t_idempotency t)
    (t_definitions t) (t_executions t).
Definition empty_tables : tables := mk_tables ∅ ∅ [] [] ∅ ∅ ∅.

Inductive new_row : Type :=
  | NewRequest (r : IntegrationRequest.t)
  | NewReceipt (w : WebhookReceipt.t)
  | NewAudit (a : AuditEvent.t)
  | NewOutbox (o : OutboxEvent.t)
  | NewIdempotency (i : IdempotencyRecord.t)
  | NewDefinition (d : WorkflowDefinition.t)
  | NewExecution (e : WorkflowExecution.t).

(** ** Constraints *)

(** What an INSERT violates: a unique constraint, by name, or a foreign key. *)
Inductive violation : Type :=
  | Unique (constraint : string)
  | ForeignKey (constraint : string).

Definition some_request (T : tables) (p : IntegrationRequest.t → bool) : bool :=
  existsb (λ kv, p kv.2) (map_to_list (t_requests T)).

(** [UniqueConstraint("provider", "provider_reference")], NULLs being distinct:
    another row than [i] already has the reference. *)
Definition reference_taken (T : tables) (i : UUID) (provider : string) (ref : option string) : bool :=
  match ref with
  | None => false
  | Some _ => some_request T (λ r, negb (bool_decide (IntegrationRequest.id r = i)) &&
                bool_decide (IntegrationRequest.provider r = provider) &&
                bool_decide (IntegrationRequest.provider_reference r = ref))
  end.

Definition violated (T : tables) (n : new_row) : option violation :=
  match n with
  | NewRequest r =>
      if bool_decide (is_Some (t_requests T !! IntegrationRequest.id r))
      then Some (Unique "pk_integration_requests")
      else if match IntegrationRequest.idempotency_key r with
              | None => false
              | Some k => some_request T (λ r', bool_decide (IntegrationRequest.idempotency_key r' = Some k))
              end
      then Some (Unique "uq_integration_requests_idempotency_key")
      else if reference_taken T (IntegrationRequest.id r) (IntegrationRequest.provider r)
                (IntegrationRequest.provider_reference r)
      then Some (Unique "uq_integration_requests_provider_provider_reference")
      else None
  | NewReceipt w =>
      if bool_decide (is_Some (t_receipts T !! WebhookReceipt.id w))
      then Some (Unique "pk_webhook_receipts")
      else if existsb (λ kv, bool_decide (WebhookReceipt.provider kv.2 = WebhookReceipt.provider w) &&
                             bool_decide (WebhookReceipt.event_id kv.2 = WebhookReceipt.event_id w))
                (map_to_list (t_receipts T))
      then Some (Unique "uq_webhook_receipts_provider_event_id")
      else match WebhookReceipt.integration_request_id w with
           | Some i => if bool_decide (is_Some (t_requests T !! i)) then None
                       else Some (ForeignKey "fk_webhook_receipts_integration_request_id_integration_requests")
           | None => None
           end
  | NewAudit a =>
      if existsb (λ a', bool_decide (AuditEvent.id a' = AuditEvent.id a)) (t_audit T)
      then Some (Unique "pk_audit_events") else None
  | NewOutbox o =>
      if existsb (λ o', bool_decide (OutboxEvent.id o' = OutboxEvent.id o)) (t_outbox T)
      then Some (Unique "pk_outbox_events")
      else if existsb (λ o', bool_decide (OutboxEvent.event_id o' = OutboxEvent.event_id o)) (t_outbox T)
      then Some (Unique "uq_outbox_events_event_id") else None
  | NewIdempotency i =>
      if bool_decide (is_Some (t_idempotency T !! IdempotencyRecord.key i))
      then Some (Unique "pk_idempotency_records")
      else if bool_decide (is_Some (t_requests T !! IdempotencyRecord.request_id i)) then None
      else Some (ForeignKey "fk_idempotency_records_request_id_integration_requests")
  | NewDefinition d =>
      if bool_decide (is_Some (t_definitions T !! WorkflowDefinition.id d))
      then Some (Unique "pk_workflow_definitions")
      else if existsb (λ kv, bool_decide (WorkflowDefinition.name kv.2 = WorkflowDefinition.name d) &&
                             (WorkflowDefinition.version kv.2 =? WorkflowDefinition.version d))
                (map_to_list (t_definitions T))
      then Some (Unique "uq_workflow_definitions_name_version") else None
  | NewExecution e =>
      if bool_decide (is_Some (t_executions T !! WorkflowExecution.id e))
      then Some (Unique "pk_workflow_executions")
      else if match WorkflowExecution.idempotency_key e with
              | None => false
              | Some k => existsb (λ kv, bool_decide (WorkflowExecution.idempotency_key kv.2 = Some k))
                            (map_to_list (t_executions T))
              end
      then Some (Unique "uq_workflow_executions_idempotency_key")
      else if negb (bool_decide (is_Some (t_definitions T !! WorkflowExecution.definition_id e)))
      then Some (ForeignKey "fk_workflow_executions_definition_id")
      else if negb (bool_decide (NoDup (Step.id <$> WorkflowExecution.steps e))) ||
              existsb (λ kv, existsb (λ s, bool_decide (Step.id s ∈ Step.id <$> WorkflowExecution.steps e))
                               (WorkflowExecution.steps kv.2)) (map_to_list (t_executions T))
      then Some (Unique "pk_workflow_step_executions")
      else if negb (bool_decide (NoDup (Step.step_key <$> WorkflowExecution.steps e)))
      then Some (Unique "uq_workflow_step_executions_execution_step")
      else None
  end.

(** The INSERT itself; a key that is already present (the constraint above
    refuses it) is left alone. *)
Definition insert_absent `{Countable K} {A} (k : K) (a : A) (m : gmap K A) : gmap K A :=
  match m !! k with Some _ => m | None => <[k := a]> m end.

Definition insert_row (T : tables) (n : new_row) : tables :=
  match n with
  | NewRequest r => T <| t_requests ::= insert_absent (IntegrationRequest.id r) r |>
  | NewReceipt w => T <| t_receipts ::= insert_absent (WebhookReceipt.id w) w |>
  | NewAudit a => T <| t_audit ::= (λ l, l ++ [a]) |>
  | NewOutbox o => T <| t_outbox ::= (λ l, l ++ [o]) |>
  | NewIdempotency i => T <| t_idempotency ::= insert_absent (IdempotencyRecord.key i) i |>
  | NewDefinition d => T <| t_definitions ::= insert_absent (WorkflowDefinition.id d) d |>
  | NewExecution e => T <| t_executions ::= insert_absent (WorkflowExecution.id e) e |>
  end.

Fixpoint insert_all (T : tables) (l : list new_row) : violation + tables :=
  match l with
  | [] => inr T
  | n :: l' => match violated T n with
               | Some v => inl v
               | None => insert_all (insert_row T n) l'
               end
  end.

(** [translate_integrity_error]: a unique violation is a domain conflict, any
    other integrity error propagates as it is. *)
Definition translate_integrity_error (v : violation) : exn :=
  match v with
  | Unique c => error ErrorClass.ConflictError "the operation conflicts with an existing record"
      (no_kwargs <| k_retryable := Some false |> <| k_metadata := [("constraint", JStr c)] |>)
  | ForeignKey c => EOther ("IntegrityError: " +:+ c)
  end.

(** * The world *)

Record session := mk_session {
  working : tables;
  pending : list new_row;
  loaded_versions : gmap N Z;
}.
#[export] Instance eta_session : Eta session := λ s,
  mk_session (working s) (pending s) (loaded_versions s).

(** The clock, the identifier generator and the jitter source are read in
    sequence: [ticks], [drawn] and [rolls] count the readings. *)
Record World := mk_world {
  db : tables;
  sess : session;
  ticks : nat;
  drawn : nat;
  rolls : nat;
}.
#[export] Instance eta_World : Eta World := λ w,
  mk_world (db w) (sess w) (ticks w) (drawn w) (rolls w).

Class Env := {
  clock_at : nat → datetime;
  uuid_at : nat → UUID;
  jitter_at : nat → Q;
}.

(** What [SystemClock], [UuidGenerator] and [RandomJitter] promise. *)
Class EnvOk (E : Env) : Prop := {
  clock_aware n : is_aware (clock_at n) = true;
  jitter_range n : (0 <= jitter_at n < 1)%Q;
}.

Definition H (A : Type) : Type := M exn World A.

Definition now `{Env} : H datetime := λ w, (Ret (clock_at (ticks w)), w <| ticks ::= S |>).
Definition new_id `{Env} : H UUID := λ w, (Ret (uuid_at (drawn w)), w <| drawn ::= S |>).
Definition jitter `{Env} : H Q := λ w, (Ret (jitter_at (rolls w)), w <| rolls ::= S |>).

Definition open_session (T : tables) : session := mk_session T [] ∅.

(** [async with uow_factory() as uow: body] *)
Definition with_uow {A} (body : H A) : H A := λ w,
  let '(o, w') := body (w <| sess := open_session (db w) |>) in (o, w' <| sess := sess w |>).

Definition modify_session (f : session → session) : H unit := modifyS (λ w, w <| sess ::= f |>).
Definition add_row (n : new_row) : H unit := modify_session (λ s, s <| pending ::= (λ l, l ++ [n]) |>).
Definition modify_working (f : tables → tables) : H unit :=
  modify_session (λ s, s <| working ::= f |>).
Definition reading {A} (f : tables → A) : H A := gets (λ w, f (working (sess w))).

(** The transaction is over and nothing of it remains. *)
Definition rollback : H unit :=
  modifyS (λ w, w <| sess ::= (λ s, s <| working := db w |> <| pending := [] |>) |>).

Definition flush : H unit :=
  let* w := getS in
  match insert_all (working (sess w)) (pending (sess w)) with
  | inr T => modify_session (λ s, s <| working := T |> <| pending := [] |>)
  | inl v => rollback ;;; raise (translate_integrity_error v)
  end.

Definition commit : H unit :=
  flush ;;;
  modifyS (λ w, w <| db := working (sess w) |>).

(** * Mappers *)

(** [as_utc] *)
Definition as_utc (d : datetime) : datetime := utc (instant d).

Definition request_to_domain (r : IntegrationRequest.t) : IntegrationRequest.t :=
  r <| IntegrationRequest.created_at ::= as_utc |> <| IntegrationRequest.updated_at ::= as_utc |>
    <| IntegrationRequest.next_retry_at ::= fmap as_utc |>
    <| IntegrationRequest.completed_at ::= fmap as_utc |>.

(** [request_update_values]: the mutable columns of [row] set from [r]. *)
Definition request_update_values (r row : IntegrationRequest.t) : IntegrationRequest.t :=
  row <| IntegrationRequest.normalized_payload := IntegrationRequest.normalized_payload r |>
      <| IntegrationRequest.provider_payload := IntegrationRequest.provider_payload r |>
      <| IntegrationRequest.provider_reference := IntegrationRequest.provider_reference r |>
      <| IntegrationRequest.status := IntegrationRequest.status r |>
      <| IntegrationRequest.attempt_count := IntegrationRequest.attempt_count r |>
      <| IntegrationRequest.last_error_code := IntegrationRequest.last_error_code r |>
      <| IntegrationRequest.last_error_message := IntegrationRequest.last_error_message r |>
      <| IntegrationRequest.last_error_category := IntegrationRequest.last_error_category r |>
      <| IntegrationRequest.manual_review_reason := IntegrationRequest.manual_review_reason r |>
      <| IntegrationRequest.next_retry_at := IntegrationRequest.next_retry_at r |>
      <| IntegrationRequest.updated_at := IntegrationRequest.updated_at r |>
      <| IntegrationRequest.completed_at := IntegrationRequest.completed_at r |>
      <| IntegrationRequest.version := IntegrationRequest.version r |>.

#[global] Arguments reference_taken : simpl never.
#[global] Arguments request_to_domain : simpl never.
#[global] Arguments request_update_values : simpl never.

Definition receipt_to_domain (w : WebhookReceipt.t) : WebhookReceipt.t :=
  w <| WebhookReceipt.received_at ::= as_utc |> <| WebhookReceipt.processed_at ::= fmap as_utc |>
    <| WebhookReceipt.next_attempt_at ::= fmap as_utc |>.

Definition receipt_update_values (w row : WebhookReceipt.t) : WebhookReceipt.t :=
  row <| WebhookReceipt.processing_status := WebhookReceipt.processing_status w |>
      <| WebhookReceipt.integration_request_id := WebhookReceipt.integration_request_id w |>
      <| WebhookReceipt.provider_reference := WebhookReceipt.provider_reference w |>
      <| WebhookReceipt.failure_reason := WebhookReceipt.failure_reason w |>
      <| WebhookReceipt.attempt_count := WebhookReceipt.attempt_count w |>
      <| WebhookReceipt.processed_at := WebhookReceipt.processed_at w |>
      <| WebhookReceipt.next_attempt_at := WebhookReceipt.next_attempt_at w |>.

Definition audit_to_domain (e : AuditEvent.t) : AuditEvent.t :=
  AuditEvent.mk (AuditEvent.id e) (AuditEvent.aggregate_type e) (AuditEvent.aggregate_id e)
    (AuditEvent.action e) (AuditEvent.actor e) (AuditEvent.correlation_id e)
    (as_utc (AuditEvent.occurred_at e)) (AuditEvent.previous_state e) (AuditEvent.new_state e)
    (AuditEvent.actor_id e) (AuditEvent.metadata e).

(** * Repositories *)

(** [ORDER BY key ASC LIMIT n] over rows; rows with equal keys keep the order
    of the scan. *)
Fixpoint insert_by {A} (key : A → Z) (a : A) (l : list A) : list A :=
  match l with
  | [] => [a]
  | b :: l' => if key a <=? key b then a :: l else b :: insert_by key a l'
  end.
Definition order_by {A} (key : A → Z) (l : list A) : list A := foldr (insert_by key) [] l.

Lemma insert_by_perm {A} (key : A → Z) (a : A) l : insert_by key a l ≡ₚ a :: l.
Proof. induction l as [|b l IH]; [done|]. cbn. case_match; [done|]. rewrite IH. constructor. Qed.
Lemma order_by_perm {A} (key : A → Z) (l : list A) : order_by key l ≡ₚ l.
Proof. induction l as [|a l IH]; [done|]. cbn. by rewrite insert_by_perm, IH. Qed.

Module Requests.
Definition track (r : IntegrationRequest.t) : H IntegrationRequest.t :=
  modify_session (λ s, s <| loaded_versions ::=
    insert (IntegrationRequest.id r) (IntegrationRequest.version r) |>) ;;;
  ret r.

Definition add (r : IntegrationRequest.t) : H unit :=
  add_row (NewRequest r) ;;;
  track r ;;; ret tt.

Definition load (row : option IntegrationRequest.t) : H (option IntegrationRequest.t) :=
  match row with
  | None => ret None
  | Some row => let* r := track (request_to_domain row) in ret (Some r)
  end.

Definition get (i : UUID) : H (option IntegrationRequest.t) :=
  let* row := reading (λ T, t_requests T !! i) in load row.
Definition get_for_update (i : UUID) : H (option IntegrationRequest.t) :=
  let* row := reading (λ T, t_requests T !! i) in load row.

Definition find_by_provider_reference (provider reference : string) :
    H (option IntegrationRequest.t) :=
  let* rows := reading (λ T, List.filter (λ r,
      bool_decide (IntegrationRequest.provider r = provider) &&
      bool_decide (IntegrationRequest.provider_reference r = Some reference))
    (map_to_list (t_requests T)).*2) in
  match rows with
  | [] => ret None
  | [row] => load (Some row)
  | _ => raise (EOther "MultipleResultsFound")
  end.

Definition update (r : IntegrationRequest.t) : H unit :=
  let* s := gets sess in
  let expected := default (IntegrationRequest.version r - 1)
                    (loaded_versions s !! IntegrationRequest.id r) in
  match t_requests (working s) !! IntegrationRequest.id r with
  | Some row =>
      if IntegrationRequest.version row =? expected then
        if reference_taken (working s) (IntegrationRequest.id r) (IntegrationRequest.provider row)
             (IntegrationRequest.provider_reference r)
        then raise (EOther "IntegrityError: uq_integration_requests_provider_provider_reference")
        else
          modify_working (λ T, T <| t_requests ::=
            insert (IntegrationRequest.id r) (request_update_values r row) |>) ;;;
          track r ;;; ret tt
      else raise (ConcurrencyConflictError (uuid_str (IntegrationRequest.id r))
                    (Some (IntegrationRequest.correlation_id r)))
  | None => raise (ConcurrencyConflictError (uuid_str (IntegrationRequest.id r))
                    (Some (IntegrationRequest.correlation_id r)))
  end.

(** Timestamps in the database are instants, so comparisons never fail. *)
Definition due_for_retry (at_ : datetime) (r : IntegrationRequest.t) : bool :=
  bool_decide (IntegrationRequest.status r = RequestStatus.RETRY_SCHEDULED) &&
  match IntegrationRequest.next_retry_at r with
  | None => false
  | Some d => instant d <=? instant at_
  end.
Fixpoint track_all (rows : list IntegrationRequest.t) : H (list IntegrationRequest.t) :=
  match rows with
  | [] => ret []
  | row :: rows' =>
      let* r := track (request_to_domain row) in
      let* rs := track_all rows' in
      ret (r :: rs)
  end.
Definition claim_due_for_retry (at_ : datetime) (limit : nat) : H (list IntegrationRequest.t) :=
  let* rows := reading (λ T, take limit (order_by
      (λ r, from_option instant 0 (IntegrationRequest.next_retry_at r))
      (List.filter (due_for_retry at_) (map_to_list (t_requests T)).*2))) in
  track_all rows.

Definition stale_in_flight (older_than : datetime) (r : IntegrationRequest.t) : bool :=
  bool_decide (IntegrationRequest.status r ∈ RECONCILABLE_STATUSES) &&
  (instant (IntegrationRequest.updated_at r) <=? instant older_than).
Definition find_stale_in_flight (older_than : datetime) (limit : nat) :
    H (list IntegrationRequest.t) :=
  let* rows := reading (λ T, take limit (order_by
      (λ r, instant (IntegrationRequest.updated_at r))
      (List.filter (stale_in_flight older_than) (map_to_list (t_requests T)).*2))) in
  track_all rows.
End Requests.

Module Webhooks.
Definition add (w : WebhookReceipt.t) : H unit := add_row (NewReceipt w).

Definition get (i : UUID) : H (option WebhookReceipt.t) :=
  reading (λ T, receipt_to_domain <$> t_receipts T !! i).

Definition find_by_event_id (provider event_id : string) : H (option WebhookReceipt.t) :=
  let* rows := reading (λ T, List.filter (λ w,
      bool_decide (WebhookReceipt.provider w = provider) &&
      bool_decide (WebhookReceipt.event_id w = event_id)) (map_to_list (t_receipts T)).*2) in
  match rows with
  | [] => ret None
  | [row] => ret (Some (receipt_to_domain row))
  | _ => raise (EOther "MultipleResultsFound")
  end.

(** An UPDATE that matches no row (the receipt was never flushed) does nothing. *)
Definition update (w : WebhookReceipt.t) : H unit :=
  modify_working (λ T, T <| t_receipts ::=
    alter (receipt_update_values w) (WebhookReceipt.id w) |>).

Definition deferred_due (at_ : datetime) (w : WebhookReceipt.t) : bool :=
  bool_decide (WebhookReceipt.processing_status w = WebhookProcessingStatus.DEFERRED) &&
  match WebhookReceipt.next_attempt_at w with
  | None => false
  | Some d => instant d <=? instant at_
  end.
Definition claim_deferred (at_ : datetime) (limit : nat) : H (list WebhookReceipt.t) :=
  reading (λ T, receipt_to_domain <$> take limit (order_by
    (λ w, from_option instant 0 (WebhookReceipt.next_attempt_at w))
    (List.filter (deferred_due at_) (map_to_list (t_receipts T)).*2))).
End Webhooks.

Module Audit.
Definition append (e : AuditEvent.t) : H unit := add_row (NewAudit e).
Definition append_many (l : list AuditEvent.t) : H unit := for_each l append.
(** [ORDER BY occurred_at ASC, id ASC]: a stable sort by the second key, then by
    the first. *)
Definition list_for_aggregate (aty aid : string) (limit : nat) : H (list AuditEvent.t) :=
  reading (λ T, audit_to_domain <$> take limit (order_by (λ e, instant (AuditEvent.occurred_at e))
    (order_by (λ e, Z.of_N (AuditEvent.id e))
      (List.filter (λ e, bool_decide (AuditEvent.aggregate_type e = aty) &&
                         bool_decide (AuditEvent.aggregate_id e = aid)) (t_audit T))))).
End Audit.

Module Idempotency.
Definition get (k : string) : H (option IdempotencyRecord.t) :=
  reading (λ T, t_idempotency T !! k).
Definition add (r : IdempotencyRecord.t) : H unit := add_row (NewIdempotency r).
End Idempotency.
