(* ===== verification/Journal.v ===== *)
(** The workflow journal ([application/services/journal.py]) and the invariant it
    maintains: the audit trail of every request replays through the state
    machine to the status stored in its row. *)

From S2P Require Import Prelude PyData PyTime Enums Errors StateMachine ValueObjects Policies Entities RequestFacts.
From S2P Require Import Workflow Records Store.

(** * The journal *)

Section Journal.
Context `{Env}.

Definition record_transition (r : IntegrationRequest.t) (tr : StatusTransition)
    (action : AuditAction.t) (actor : Actor) (md : dict) (causation_id : option string)
    (publish_event : bool) : H unit :=
  Requests.update r ;;;
  let* i := new_id in
  let* a := lift (AuditEvent.for_request i (IntegrationRequest.id r) action (actor_type actor)
              (IntegrationRequest.correlation_id r) (occurred_at tr)
              (Some (previous_status tr)) (Some (new_status tr)) (actor_id actor) md) in
  Audit.append a ;;;
  if negb publish_event then ret tt
  else
    let payload := build_request_event_payload (IntegrationRequest.id r)
      (IntegrationRequest.provider r) (value (IntegrationRequest.operation_type r))
      (IntegrationRequest.external_reference r) (new_status tr) (Some (previous_status tr))
      (occurred_at tr) (IntegrationRequest.provider_reference r)
      (IntegrationRequest.attempt_count r) (IntegrationRequest.last_error_code r)
      (IntegrationRequest.last_error_category r) (IntegrationRequest.next_retry_at r) [] in
    let* oi := new_id in
    let* ev := new_id in
    let* o := lift (OutboxEvent.fresh oi ev (event_type_for_status (new_status tr))
                CURRENT_EVENT_VERSION "integration_request" (uuid_str (IntegrationRequest.id r))
                payload (IntegrationRequest.correlation_id r) (occurred_at tr) causation_id
                (Some (uuid_str (IntegrationRequest.id r)))) in
    add_row (NewOutbox o).

Definition record_creation (r : IntegrationRequest.t) (actor : Actor) (md : dict) : H unit :=
  let* i := new_id in
  let* a := lift (AuditEvent.for_request i (IntegrationRequest.id r) AuditAction.REQUEST_RECEIVED
              (actor_type actor) (IntegrationRequest.correlation_id r)
              (IntegrationRequest.created_at r) None (Some (IntegrationRequest.status r))
              (actor_id actor) md) in
  Audit.append a ;;;
  let* oi := new_id in
  let* ev := new_id in
  let* o := lift (OutboxEvent.fresh oi ev (event_type_for_status (IntegrationRequest.status r))
              CURRENT_EVENT_VERSION "integration_request" (uuid_str (IntegrationRequest.id r))
              (build_request_event_payload (IntegrationRequest.id r) (IntegrationRequest.provider r)
                 (value (IntegrationRequest.operation_type r))
                 (IntegrationRequest.external_reference r) (IntegrationRequest.status r) None
                 (IntegrationRequest.created_at r) None (IntegrationRequest.attempt_count r)
                 None None None [])
              (IntegrationRequest.correlation_id r) (IntegrationRequest.created_at r) None
              (Some (uuid_str (IntegrationRequest.id r)))) in
  add_row (NewOutbox o).

Definition record_request_action (r : IntegrationRequest.t) (action : AuditAction.t)
    (actor : Actor) (md : dict) : H unit :=
  let* i := new_id in
  let* t := now in
  let* a := lift (AuditEvent.for_request i (IntegrationRequest.id r) action (actor_type actor)
              (IntegrationRequest.correlation_id r) t (Some (IntegrationRequest.status r))
              (Some (IntegrationRequest.status r)) (actor_id actor) md) in
  Audit.append a.

Definition record_webhook_action (receipt_id : UUID) (action : AuditAction.t) (corr : string)
    (md : dict) : H unit :=
  let* i := new_id in
  let* t := now in
  let* a := lift (AuditEvent.for_webhook i receipt_id action corr t md) in
  Audit.append a.

Definition record_circuit_transition (provider previous_state new_state event_type : string)
    (action : AuditAction.t) (corr : string) (failure_count : Z) (reason : option string) : H unit :=
  let* t := now in
  let* i := new_id in
  let* a := lift (AuditEvent.for_provider i provider action (actor_type actor_system) corr t
              (Some previous_state) (Some new_state)
              [("failure_count", JInt failure_count); ("reason", jopt reason)]) in
  Audit.append a ;;;
  let* oi := new_id in
  let* ev := new_id in
  let* o := lift (OutboxEvent.fresh oi ev event_type CURRENT_EVENT_VERSION "provider" provider
              (build_circuit_event_payload provider previous_state new_state t failure_count reason)
              corr t None (Some provider)) in
  add_row (NewOutbox o).
End Journal.

(** * The invariant *)

(** The status change an audit row records for request [i]. *)
Definition change_of (i : UUID) (a : AuditEvent.t) : option (RequestStatus.t * RequestStatus.t) :=
  if bool_decide (AuditEvent.aggregate_type a = "integration_request") &&
     bool_decide (AuditEvent.aggregate_id a = uuid_str i) then
    match AuditEvent.previous_state a ≫= of_value, AuditEvent.new_state a ≫= of_value with
    | Some p, Some n => if bool_decide (p = n) then None else Some (p, n)
    | _, _ => None
    end
  else None.

Definition changes (l : list AuditEvent.t) (i : UUID) : list (RequestStatus.t * RequestStatus.t) :=
  omap (change_of i) l.

(** Every stored request is well-formed and its audit trail explains its status;
    no audit row claims a status change of a request that does not exist. *)
Definition Journaled (T : tables) : Prop :=
  ∀ i, match t_requests T !! i with
       | Some r => IntegrationRequest.id r = i ∧ wf r ∧
                   replays RequestStatus.RECEIVED (changes (t_audit T) i) (IntegrationRequest.status r)
       | None => changes (t_audit T) i = []
       end.

Lemma journaled_empty : Journaled empty_tables.
Proof. intros i. cbn. by rewrite lookup_empty. Qed.

(** Nothing the platform does removes or rewrites history: requests and receipts
    stay, the columns an UPDATE never writes keep their values, idempotency
    claims keep their binding, workflow executions evolve along their state
    machines, and the audit trail only grows at the end. (The outbox is not
    listed: published events are eventually purged.) *)
Definition kept (r r' : IntegrationRequest.t) : Prop :=
  IntegrationRequest.id r' = IntegrationRequest.id r ∧
  IntegrationRequest.provider r' = IntegrationRequest.provider r ∧
  IntegrationRequest.operation_type r' = IntegrationRequest.operation_type r ∧
  IntegrationRequest.external_reference r' = IntegrationRequest.external_reference r ∧
  IntegrationRequest.correlation_id r' = IntegrationRequest.correlation_id r ∧
  IntegrationRequest.created_at r' = IntegrationRequest.created_at r ∧
  IntegrationRequest.idempotency_key r' = IntegrationRequest.idempotency_key r ∧
  IntegrationRequest.owner_subject r' = IntegrationRequest.owner_subject r.

Definition kept_receipt (w w' : WebhookReceipt.t) : Prop :=
  WebhookReceipt.id w' = WebhookReceipt.id w ∧
  WebhookReceipt.provider w' = WebhookReceipt.provider w ∧
  WebhookReceipt.event_id w' = WebhookReceipt.event_id w ∧
  WebhookReceipt.event_type w' = WebhookReceipt.event_type w ∧
  WebhookReceipt.payload w' = WebhookReceipt.payload w ∧
  WebhookReceipt.received_at w' = WebhookReceipt.received_at w ∧
  WebhookReceipt.correlation_id w' = WebhookReceipt.correlation_id w.

(** A workflow execution keeps its definition, its input and its steps; its
    status and those of its steps move along their state machines. *)
Definition kept_step (s s' : Step.t) : Prop :=
  Step.id s' = Step.id s ∧ Step.step_key s' = Step.step_key s ∧ Step.provider s' = Step.provider s ∧
  Step.operation_type s' = Step.operation_type s ∧ Step.depends_on s' = Step.depends_on s ∧
  Step.input_payload s' = Step.input_payload s ∧
  rtc step_transition (Step.status s) (Step.status s').
Record evolves (e e' : WorkflowExecution.t) : Prop := {
  ev_id : WorkflowExecution.id e' = WorkflowExecution.id e;
  ev_definition : WorkflowExecution.definition_id e' = WorkflowExecution.definition_id e;
  ev_correlation : WorkflowExecution.correlation_id e' = WorkflowExecution.correlation_id e;
  ev_key : WorkflowExecution.idempotency_key e' = WorkflowExecution.idempotency_key e;
  ev_input : WorkflowExecution.input_payload e' = WorkflowExecution.input_payload e;
  ev_status : rtc workflow_transition (WorkflowExecution.status e) (WorkflowExecution.status e');
  ev_steps : Forall2 kept_step (WorkflowExecution.steps e) (WorkflowExecution.steps e');
}.
(** The primary key of the step rows. *)
Definition distinct_steps (e : WorkflowExecution.t) : Prop := NoDup (Step.id <$> WorkflowExecution.steps e).
Definition kept_definition (d d' : WorkflowDefinition.t) : Prop :=
  WorkflowDefinition.id d' = WorkflowDefinition.id d ∧ WorkflowDefinition.name d' = WorkflowDefinition.name d ∧
  WorkflowDefinition.version d' = WorkflowDefinition.version d ∧
  WorkflowDefinition.steps d' = WorkflowDefinition.steps d.

(** What the outcome of an execution says of each of its steps. SUCCEEDED:
    every step was carried out. COMPENSATED: nothing is left done, in flight or
    half undone. CANCELLED: nothing is left done or in flight. *)
Definition settled (outcome : WorkflowStatus.t) (s : WorkflowStepStatus.t) : bool :=
  match outcome with
  | WorkflowStatus.SUCCEEDED => bool_decide (s = WorkflowStepStatus.SUCCEEDED)
  | WorkflowStatus.COMPENSATED =>
      negb (bool_decide (s ∈ [WorkflowStepStatus.SUCCEEDED; WorkflowStepStatus.RUNNING;
        WorkflowStepStatus.WAITING; WorkflowStepStatus.COMPENSATING; WorkflowStepStatus.RETRY_SCHEDULED]))
  | WorkflowStatus.CANCELLED =>
      negb (bool_decide (s ∈ [WorkflowStepStatus.SUCCEEDED; WorkflowStepStatus.RUNNING;
        WorkflowStepStatus.WAITING]))
  | _ => true
  end.
Definition honest (e : WorkflowExecution.t) : Prop :=
  Forall (λ s, settled (WorkflowExecution.status e) (Step.status s) = true) (WorkflowExecution.steps e).
Definition honest_executions (T : tables) : Prop :=
  ∀ i e, t_executions T !! i = Some e → distinct_steps e → honest e.

Record grows (T T' : tables) : Prop := {
  grows_requests i r : t_requests T !! i = Some r → ∃ r', t_requests T' !! i = Some r' ∧ kept r r';
  grows_receipts i x : t_receipts T !! i = Some x → ∃ x', t_receipts T' !! i = Some x' ∧ kept_receipt x x';
  grows_audit : t_audit T `prefix_of` t_audit T';
  grows_idempotency : t_idempotency T ⊆ t_idempotency T';
  grows_definitions i d :
    t_definitions T !! i = Some d → ∃ d', t_definitions T' !! i = Some d' ∧ kept_definition d d';
  grows_executions i e :
    t_executions T !! i = Some e → ∃ e', t_executions T' !! i = Some e' ∧ (distinct_steps e → evolves e e');
  grows_honest : honest_executions T → honest_executions T';
}.

Lemma kept_refl r : kept r r.
Proof. by repeat split. Qed.
Lemma kept_trans r1 r2 r3 : kept r1 r2 → kept r2 r3 → kept r1 r3.
Proof. unfold kept. intros. destruct_and!. split_and!; congruence. Qed.

Lemma kept_receipt_refl x : kept_receipt x x.
Proof. by repeat split. Qed.
Lemma kept_receipt_trans x y z : kept_receipt x y → kept_receipt y z → kept_receipt x z.
Proof. unfold kept_receipt. intros. destruct_and!. split_and!; congruence. Qed.

Lemma kept_definition_refl d : kept_definition d d.
Proof. by repeat split. Qed.
Lemma kept_definition_trans x y z : kept_definition x y → kept_definition y z → kept_definition x z.
Proof. unfold kept_definition. intros. destruct_and!. split_and!; congruence. Qed.
#[export] Instance kept_step_preorder : PreOrder kept_step.
Proof.
  split; [by intros s; repeat split|]. unfold kept_step. intros s1 s2 s3. intros. destruct_and!.
  split_and!; [congruence..|by etrans].
Qed.
#[export] Instance evolves_preorder : PreOrder evolves.
Proof.
  split; [intros e; by split|]. intros e1 e2 e3 [] []. split; [congruence..|by etrans|by etrans].
Qed.
Lemma evolves_ids e e' : evolves e e' →
  Step.id <$> WorkflowExecution.steps e' = Step.id <$> WorkflowExecution.steps e.
Proof.
  intros [_ _ _ _ _ _ Hs]. induction Hs as [|s s' l l' (Hid & _) _ IH]; [done|]. cbn. by rewrite Hid, IH.
Qed.

#[export] Instance grows_preorder : PreOrder grows.
Proof.
  split.
  - intros T. split; try done; intros i r Hr; exists r; (split; [done|]);
      [apply kept_refl|apply kept_receipt_refl|apply kept_definition_refl|done].
  - intros T1 T2 T3 [r12 w12 a12 k12 d12 e12 h12] [r23 w23 a23 k23 d23 e23 h23].
    split; try (by etrans; eauto); try (by eauto).
    + intros i r (r' & Hr' & Hk)%r12. apply r23 in Hr' as (r'' & ? & ?). eauto using kept_trans.
    + intros i x (x' & Hx' & Hk)%w12. apply w23 in Hx' as (x'' & ? & ?). eauto using kept_receipt_trans.
    + intros i x (x' & Hx' & Hk)%d12. apply d23 in Hx' as (x'' & ? & ?). eauto using kept_definition_trans.
    + intros i x (x' & Hx' & Hk)%e12. apply e23 in Hx' as (x'' & Hx'' & Hk'). exists x''. split; [done|].
      intros Hd. etrans; [by apply Hk|]. apply Hk'. unfold distinct_steps. by rewrite (evolves_ids x x') by auto.
Qed.

(** * Sessions *)

(** The tables a commit of this session would produce. *)
Definition virtual (s : session) : tables := foldl insert_row (working s) (pending s).

Lemma insert_all_virtual T l T' : insert_all T l = inr T' → T' = foldl insert_row T l.
Proof.
  revert T. induction l as [|n l IH]; intros T; cbn; [congruence|].
  destruct (violated T n); [done|]. apply IH.
Qed.

Lemma virtual_add s n : virtual (s <| pending ::= (λ l, l ++ [n]) |>) = insert_row (virtual s) n.
Proof. unfold virtual. cbn. by rewrite foldl_app. Qed.

(** INSERTs never touch rows that exist, so a row of the working copy is a row
    of the tables to be committed, and an UPDATE of it commutes with the
    INSERTs. *)
Lemma insert_absent_lookup_Some `{Countable K} {A} (k i : K) (a r : A) (m : gmap K A) :
  m !! i = Some r → insert_absent k a m !! i = Some r.
Proof.
  unfold insert_absent. destruct (m !! k) eqn:Hk; [done|].
  intros Hi. rewrite lookup_insert_ne; [done|congruence].
Qed.

Lemma insert_absent_insert `{Countable K} {A} (k i : K) (a r0 r : A) (m : gmap K A) :
  m !! i = Some r0 → insert_absent k a (<[i := r]> m) = <[i := r]> (insert_absent k a m).
Proof.
  intros Hi. unfold insert_absent. destruct (decide (k = i)) as [->|Hne].
  - by rewrite lookup_insert_eq, Hi.
  - rewrite lookup_insert_ne by done. destruct (m !! k); [done|]. by rewrite insert_insert_ne.
Qed.

Definition put_request (r : IntegrationRequest.t) (T : tables) : tables :=
  T <| t_requests ::= insert (IntegrationRequest.id r) r |>.

Lemma virtual_lookup s i r :
  t_requests (working s) !! i = Some r → t_requests (virtual s) !! i = Some r.
Proof.
  unfold virtual. generalize (working s) as T. induction (pending s) as [|n l IH]; intros T; cbn; [done|].
  intros Hi. apply IH. destruct n; cbn; try done. by apply insert_absent_lookup_Some.
Qed.

Lemma virtual_put s r r0 :
  t_requests (working s) !! IntegrationRequest.id r = Some r0 →
  virtual (s <| working ::= put_request r |>) = put_request r (virtual s).
Proof.
  unfold virtual. cbn. generalize (working s) as T.
  induction (pending s) as [|n l IH]; intros T Hi; cbn; [done|].
  rewrite <- IH; [|destruct n; cbn; try done; by apply insert_absent_lookup_Some].
  f_equal. destruct n as [r'| | | | | |]; try done.
  unfold put_request, insert_row, set. cbn -[insert_absent]. by erewrite insert_absent_insert.
Qed.

(** * Rules

    Inside a unit of work: the committed tables and the tables the session
    would commit are both journaled, and the second extend the first. *)

Definition inside (w : World) : Prop :=
  Journaled (db w) ∧ Journaled (virtual (sess w)) ∧ grows (db w) (virtual (sess w)).

(** The session's row for the object [r] has the status of [r]. *)
Definition holds (w : World) (r : IntegrationRequest.t) : Prop :=
  ∃ row, t_requests (working (sess w)) !! IntegrationRequest.id r = Some row ∧
         IntegrationRequest.status row = IntegrationRequest.status r.

(** [w'] differs from [w] in bookkeeping only: clock, identifiers, tracked
    versions. *)
Definition same_tables (w w' : World) : Prop :=
  db w' = db w ∧ working (sess w') = working (sess w) ∧ pending (sess w') = pending (sess w).

Lemma same_tables_refl w : same_tables w w.
Proof. done. Qed.

Lemma same_tables_inside w w' : same_tables w w' → inside w → inside w'.
Proof. unfold same_tables, inside, virtual. by intros (-> & -> & ->). Qed.

Lemma same_tables_holds w w' r : same_tables w w' → holds w r → holds w' r.
Proof. unfold same_tables, holds. by intros (_ & -> & _). Qed.

Create HintDb journal_db.
#[export] Hint Resolve same_tables_inside same_tables_holds : journal_db.

Section Rules.
Context `{Env}.

Lemma wp_now (Q : datetime → World → Prop) X w :
  (∀ w', same_tables w w' → Q (clock_at (ticks w)) w') → wp now Q X w.
Proof. intros HQ. by apply HQ. Qed.

Lemma wp_new_id (Q : UUID → World → Prop) X w :
  (∀ i w', same_tables w w' → Q i w') → wp new_id Q X w.
Proof. intros HQ. by apply HQ. Qed.

Lemma wp_jitter (Q : Q → World → Prop) X w :
  (∀ w', same_tables w w' → Q (jitter_at (rolls w)) w') → wp jitter Q X w.
Proof. intros HQ. by apply HQ. Qed.

Lemma wp_with_uow {A} (body : H A) (Q : A → World → Prop) X w :
  wp body (λ a w', Q a (w' <| sess := sess w |>)) (λ e w', X e (w' <| sess := sess w |>))
     (w <| sess := open_session (db w) |>) →
  wp (with_uow body) Q X w.
Proof. unfold wp, with_uow. destruct (body _) as [[a|e] w']; done. Qed.

Lemma wf_to_domain r : wf r → wf (request_to_domain r).
Proof.
  intros [Hc Hu Ha Hv Hs]. unfold request_to_domain. constructor; cbn; try done.
  unfold status_ok in *. cbn. destruct (IntegrationRequest.status r); cbn;
    destruct_and?; split_and?; try done; try (by apply fmap_None); try (by rewrite fmap_is_Some).
  match goal with Hd : ∃ _, _ |- _ => destruct Hd as (d & -> & _) end. by eexists.
Qed.

Lemma wp_load row (Q : option IntegrationRequest.t → World → Prop) X w :
  (row = None → Q None w) →
  (∀ r0 w', row = Some r0 → same_tables w w' → Q (Some (request_to_domain r0)) w') →
  wp (Requests.load row) Q X w.
Proof.
  intros HN HS. destruct row as [r0|]; cbn; [|by apply HN].
  unfold Requests.track. wp_go. by apply HS.
Qed.

Lemma wp_get_for_update i (Q : option IntegrationRequest.t → World → Prop) X w :
  inside w →
  (t_requests (working (sess w)) !! i = None → Q None w) →
  (∀ r w', IntegrationRequest.id r = i → wf r → same_tables w w' → holds w' r → Q (Some r) w') →
  wp (Requests.get_for_update i) Q X w.
Proof.
  intros (_ & Hv & _) HN HS. unfold Requests.get_for_update. wp_go. unfold reading. wp_go.
  apply wp_load; [done|]. intros r0 w' Hr Hw.
  pose proof (virtual_lookup _ _ _ Hr) as Hr'. specialize (Hv i). rewrite Hr' in Hv.
  destruct Hv as (Hid & Hwf & _). apply HS; [done|by apply wf_to_domain|done|].
  exists r0. unfold request_to_domain. cbn. rewrite Hid. destruct Hw as (_ & -> & _). done.
Qed.

(** A call of a mutator that returns a transition. *)
Lemma wp_mutator c (m : IntegrationRequest.method StatusTransition) r
    (Q : StatusTransition * IntegrationRequest.t → World → Prop) X w :
  perform c = some_transition m → wf r →
  (∀ tr r', effect r r' (Some tr) → wf r' → Q (tr, r') w) → (∀ e, X e w) →
  wp (on r m) Q X w.
Proof.
  intros Hc Hwf HQ HX. apply wp_on.
  pose proof (perform_effect c r) as He. pose proof (perform_wf c r Hwf) as Hw.
  rewrite Hc in He, Hw. unfold some_transition in *. apply wp_bind_inv in He, Hw.
  eapply wp_conseq; [apply wp_and; [apply He|apply Hw]| |].
  - intros tr r' [H1 H2]. by apply HQ.
  - intros e r' _. apply HX.
Qed.
End Rules.

(** * The journal keeps the invariant *)

#[local] Arguments changes : simpl never.
#[local] Arguments change_of : simpl never.

Lemma changes_snoc l a i : changes (l ++ [a]) i = changes l i ++ option_list (change_of i a).
Proof. unfold changes. rewrite omap_app. cbn. by destruct (change_of i a). Qed.

Lemma journaled_ext T T' :
  t_requests T' = t_requests T → t_audit T' = t_audit T → Journaled T → Journaled T'.
Proof. unfold Journaled. by intros -> ->. Qed.

(** An audit row that records no status change. *)
Definition silent (a : AuditEvent.t) : Prop := ∀ i, change_of i a = None.

Lemma journaled_silent T a : silent a → Journaled T → Journaled (insert_row T (NewAudit a)).
Proof.
  intros Ha HT i. specialize (HT i). cbn. rewrite changes_snoc, Ha. cbn.
  destruct (t_requests T !! i); [|by rewrite HT]. by rewrite app_nil_r.
Qed.

Lemma change_of_transition i j e act by_ corr at_ p n by_id md a :
  AuditEvent.for_request e j act by_ corr at_ (Some p) (Some n) by_id md = Ret a →
  change_of i a = if bool_decide (i = j) then (if bool_decide (p = n) then None else Some (p, n)) else None.
Proof.
  unfold AuditEvent.for_request, AuditEvent.make. destruct (negb (is_aware _)); [done|].
  destruct (negb (Str.truthy _)); [done|]. intros [= <-].
  assert (∀ x, of_value (RequestStatus.value_of x) = Some x) as Hv by exact of_value_value.
  unfold change_of. cbn -[uuid_str of_value]. rewrite !Hv.
  rewrite (bool_decide_true (_ = "integration_request")) by done. cbn [andb].
  rewrite (bool_decide_ext (uuid_str j = uuid_str i) (i = j)); [done|].
  split; [by intros ?%(inj uuid_str)|by intros ->].
Qed.

Lemma silent_same_status e j act by_ corr at_ s by_id md a :
  AuditEvent.for_request e j act by_ corr at_ (Some s) (Some s) by_id md = Ret a → silent a.
Proof.
  intros Ha i. rewrite (change_of_transition i _ _ _ _ _ _ _ _ _ _ _ Ha).
  rewrite (bool_decide_true (s = s)) by done. by case_bool_decide.
Qed.

Lemma silent_creation e j act by_ corr at_ n by_id md a :
  AuditEvent.for_request e j act by_ corr at_ None n by_id md = Ret a → silent a.
Proof.
  unfold AuditEvent.for_request, AuditEvent.make. destruct (negb (is_aware _)); [done|].
  destruct (negb (Str.truthy _)); [done|]. intros [= <-] i.
  unfold change_of. cbn -[uuid_str of_value value]. by destruct (_ && _).
Qed.

Lemma silent_webhook e j act corr at_ md a :
  AuditEvent.for_webhook e j act corr at_ md = Ret a → silent a.
Proof.
  unfold AuditEvent.for_webhook, AuditEvent.make. destruct (negb (is_aware _)); [done|].
  destruct (negb (Str.truthy _)); [done|]. by intros [= <-] i.
Qed.

Lemma wf_update_values r row : wf r → wf row → wf (request_update_values r row).
Proof. intros [_ Hu Ha Hv Hs] [Hc _ _ _ _]. by constructor. Qed.

(** One journaled status change: the row moves and the audit row says so. *)
Lemma journaled_move T r row a :
  Journaled T → t_requests T !! IntegrationRequest.id r = Some row → wf r →
  transition (IntegrationRequest.status row) (IntegrationRequest.status r) →
  (∀ i, change_of i a = if bool_decide (i = IntegrationRequest.id r)
        then Some (IntegrationRequest.status row, IntegrationRequest.status r) else None) →
  Journaled (insert_row (put_request (request_update_values r row) T) (NewAudit a)).
Proof.
  intros HT Hrow Hwf Htr Ha i. cbn. rewrite changes_snoc, Ha. cbn.
  pose proof (HT (IntegrationRequest.id r)) as Hr. rewrite Hrow in Hr. destruct Hr as (Hid & Hwf0 & Hrep).
  change (IntegrationRequest.id (request_update_values r row)) with (IntegrationRequest.id row).
  rewrite Hid. case_bool_decide as Hi.
  - subst i. rewrite lookup_insert_eq. split_and!; [done|by apply wf_update_values|].
    by apply replays_snoc.
  - rewrite lookup_insert_ne by done. rewrite app_nil_r. apply HT.
Qed.

(** A change that keeps the status, without an audit row. *)
Lemma journaled_touch T r row :
  Journaled T → t_requests T !! IntegrationRequest.id r = Some row → wf r →
  IntegrationRequest.status row = IntegrationRequest.status r →
  Journaled (put_request (request_update_values r row) T).
Proof.
  intros HT Hrow Hwf Hs i. cbn.
  pose proof (HT (IntegrationRequest.id r)) as Hr. rewrite Hrow in Hr. destruct Hr as (Hid & Hwf0 & Hrep).
  change (IntegrationRequest.id (request_update_values r row)) with (IntegrationRequest.id row).
  rewrite Hid. destruct (decide (i = IntegrationRequest.id r)) as [->|Hi].
  - rewrite lookup_insert_eq. split_and!; [done|by apply wf_update_values|].
    change (IntegrationRequest.status (request_update_values r row)) with (IntegrationRequest.status r).
    by rewrite <- Hs.
  - rewrite lookup_insert_ne by done. apply HT.
Qed.

Lemma journaled_new_request T r :
  Journaled T → wf r → IntegrationRequest.status r = RequestStatus.RECEIVED →
  Journaled (insert_row T (NewRequest r)).
Proof.
  intros HT Hwf Hs i. cbn. unfold insert_absent.
  destruct (t_requests T !! IntegrationRequest.id r) as [r0|] eqn:Hr; [apply HT|].
  destruct (decide (i = IntegrationRequest.id r)) as [->|Hi].
  - rewrite lookup_insert_eq. specialize (HT (IntegrationRequest.id r)). rewrite Hr in HT.
    by rewrite HT, Hs.
  - rewrite lookup_insert_ne by done. apply HT.
Qed.

Lemma insert_absent_subseteq `{Countable K} {A} (k : K) (a : A) (m : gmap K A) :
  m ⊆ insert_absent k a m.
Proof. unfold insert_absent. destruct (m !! k) eqn:Hk; [done|by apply insert_subseteq]. Qed.

(** A new execution claims no outcome. *)
Definition honest_row (n : new_row) : Prop :=
  match n with NewExecution e => honest e | _ => True end.

Lemma honest_insert T n : honest_row n → honest_executions T → honest_executions (insert_row T n).
Proof.
  intros Hn HT. destruct n as [| | | | | |e]; try exact HT. intros i x. cbn. unfold insert_absent.
  destruct (t_executions T !! _); [apply HT|]. intros [[_ <-]|[_ Hx]]%lookup_insert_Some; [done|by eapply HT].
Qed.

(** INSERTs and the UPDATE of a request grow the tables. *)
Lemma grows_insert T n : honest_row n → grows T (insert_row T n).
Proof.
  intros Hn. pose proof (honest_insert T n Hn).
  pose proof kept_refl. pose proof kept_receipt_refl. pose proof kept_definition_refl.
  assert (∀ e, distinct_steps e → evolves e e) by done.
  destruct n; split; cbn; try done; try (by apply prefix_app_r); try (by eauto);
    try (by apply insert_absent_subseteq);
    intros i0 r0 Hr0; exists r0; (split; [by apply insert_absent_lookup_Some|by auto]).
Qed.

Lemma grows_update T r row :
  t_requests T !! IntegrationRequest.id r = Some row →
  IntegrationRequest.id row = IntegrationRequest.id r →
  grows T (put_request (request_update_values r row) T).
Proof.
  intros Hrow Hid. pose proof kept_receipt_refl. pose proof kept_definition_refl.
  assert (∀ e, distinct_steps e → evolves e e) by done.
  split; cbn; try done; try (by eauto).
  intros i r0 Hr0.
  change (IntegrationRequest.id (request_update_values r row)) with (IntegrationRequest.id row).
  rewrite Hid. destruct (decide (i = IntegrationRequest.id r)) as [->|Hi].
  - rewrite lookup_insert_eq. eexists. split; [done|]. rewrite Hrow in Hr0. by injection Hr0 as <-.
  - rewrite lookup_insert_ne by done. eexists. split; [done|apply kept_refl].
Qed.

Section JournalRules.
Context `{Env}.

(** After an exception only the committed tables matter. *)
Definition lost (w : World) (e : exn) (w' : World) : Prop := db w' = db w.

Lemma wp_update r (Q : unit → World → Prop) X w :
  (∀ row w', t_requests (working (sess w)) !! IntegrationRequest.id r = Some row →
     db w' = db w → pending (sess w') = pending (sess w) →
     working (sess w') = (working (sess w)) <| t_requests ::=
       insert (IntegrationRequest.id r) (request_update_values r row) |> → Q tt w') →
  (∀ e, X e w) →
  wp (Requests.update r) Q X w.
Proof.
  intros HQ HX. unfold Requests.update. wp_go; try apply HX.
  unfold modify_working, modify_session, Requests.track. wp_go. unfold modify_session. wp_go.
  by eapply HQ.
Qed.

Lemma wp_add_row n (Q : unit → World → Prop) X w :
  (∀ w', db w' = db w → working (sess w') = working (sess w) →
     pending (sess w') = pending (sess w) ++ [n] → Q tt w') →
  wp (add_row n) Q X w.
Proof. intros HQ. unfold add_row, modify_session. wp_go. by apply HQ. Qed.

Lemma virtual_snoc s s' n :
  working s' = working s → pending s' = pending s ++ [n] → virtual s' = insert_row (virtual s) n.
Proof. unfold virtual. intros -> ->. by rewrite foldl_app. Qed.

(** The tables of a session after its row for [r] was updated. *)
Lemma virtual_update s s' r row :
  t_requests (working s) !! IntegrationRequest.id r = Some row →
  IntegrationRequest.id row = IntegrationRequest.id r →
  pending s' = pending s →
  working s' = (working s) <| t_requests ::=
    insert (IntegrationRequest.id r) (request_update_values r row) |> →
  virtual s' = put_request (request_update_values r row) (virtual s).
Proof.
  intros Hrow Hid Hp Hw. rewrite <- (virtual_put s (request_update_values r row) row);
    [|change (IntegrationRequest.id (request_update_values r row)) with (IntegrationRequest.id row);
      by rewrite Hid].
  unfold virtual. cbn. rewrite Hp, Hw. unfold put_request.
  change (IntegrationRequest.id (request_update_values r row)) with (IntegrationRequest.id row).
  by rewrite Hid.
Qed.

(** [w'] adds to the session rows that record no status change. *)
Definition quiet (w w' : World) : Prop :=
  db w' = db w ∧ working (sess w') = working (sess w) ∧
  (Journaled (virtual (sess w)) → Journaled (virtual (sess w'))) ∧
  grows (virtual (sess w)) (virtual (sess w')).

Lemma quiet_inside w w' : quiet w w' → inside w → inside w'.
Proof.
  unfold quiet, inside. intros (-> & _ & Hv & Hg) (? & ? & Hi).
  split_and!; [done|auto|by etrans].
Qed.
Lemma quiet_holds w w' r : quiet w w' → holds w r → holds w' r.
Proof. unfold quiet, holds. by intros (_ & -> & _). Qed.
Lemma quiet_db w w' : quiet w w' → db w' = db w.
Proof. by intros []. Qed.
Lemma quiet_same w w' : same_tables w w' → quiet w w'.
Proof. unfold quiet, virtual. by intros (-> & -> & ->). Qed.
Lemma quiet_trans w1 w2 w3 : quiet w1 w2 → quiet w2 w3 → quiet w1 w3.
Proof. unfold quiet. intros (? & ? & ? & ?) (? & ? & ? & ?). split_and!; [congruence..|auto|by etrans]. Qed.

(** Rows that are neither requests nor status changes. *)
Definition quiet_row (n : new_row) : Prop :=
  match n with
  | NewRequest _ => False
  | NewAudit a => silent a
  | NewExecution e => honest e
  | _ => True
  end.

Lemma journaled_quiet_row T n : quiet_row n → Journaled T → Journaled (insert_row T n).
Proof.
  destruct n; cbn; try done; intros Hn HT; [by apply journaled_silent|..];
    by eapply journaled_ext; [..|exact HT].
Qed.

Lemma wp_add_quiet n (Q : unit → World → Prop) X w :
  quiet_row n → (∀ w', quiet w w' → Q tt w') → wp (add_row n) Q X w.
Proof.
  intros Hn HQ. apply wp_add_row. intros w' Hdb Hw Hp. apply HQ.
  split_and!; [done|done|..]; rewrite (virtual_snoc (sess w) (sess w') n) by done.
  - intros HT. by apply journaled_quiet_row.
  - apply grows_insert. by destruct n.
Qed.
End JournalRules.

#[export] Hint Resolve quiet_inside quiet_holds quiet_same quiet_db : journal_db.

Section RecordRules.
Context `{Env}.

Lemma wp_record_transition r0 r tr act actor md caus pub (Q : unit → World → Prop) X w :
  inside w → holds w r0 → effect r0 r (Some tr) → wf r →
  (∀ w', inside w' → holds w' r → db w' = db w → Q tt w') → (∀ e w', db w' = db w → X e w') →
  wp (record_transition r tr act actor md caus pub) Q X w.
Proof.
  intros (Hdb & Hv & Hg) (row & Hrow & Hst) (Hid & Hp & Hn & Htr & _) Hwf HQ HX.
  assert (IntegrationRequest.id r = IntegrationRequest.id r0) as Hid0 by apply Hid.
  unfold record_transition. wp_step. apply wp_update; [|intros e; by apply HX].
  rewrite Hid0, Hrow. intros row' w1 [= <-] Hdb1 Hp1 Hw1. wp_step.
  apply wp_new_id. intros i w2 (Hdb2 & Hw2 & Hp2). wp_step. wp_step.
  destruct (AuditEvent.for_request _ _ _ _ _ _ _ _ _ _) as [a|e] eqn:Ha; [|apply HX; congruence].
  wp_step. apply wp_add_row. intros w3 Hdb3 Hw3 Hp3.
  assert (inside w3 ∧ holds w3 r ∧ db w3 = db w) as (Hin3 & Hh3 & Hdb3').
  { split_and!; [|exists (request_update_values r row)|congruence].
    - unfold inside. rewrite (virtual_snoc (sess w2) (sess w3) _ Hw3 Hp3).
      assert (virtual (sess w2) = virtual (sess w1)) as -> by (unfold virtual; congruence).
      pose proof (Hv (IntegrationRequest.id r0)) as Hr. pose proof (virtual_lookup _ _ _ Hrow) as Hvr.
      rewrite Hvr in Hr. destruct Hr as (Hrid & _). rewrite <- Hid0 in Hvr.
      rewrite (virtual_update (sess w) (sess w1) r row) by (rewrite ?Hid0; done).
      rewrite Hdb3, Hdb2, Hdb1. split_and!; [done| |].
      2:{ etrans; [exact Hg|]. etrans; [|by apply grows_insert]. apply grows_update; [done|congruence]. }
      apply journaled_move; [done|done|done|by rewrite Hst|].
      intros j. rewrite (change_of_transition j _ _ _ _ _ _ _ _ _ _ _ Ha), Hp, Hn, Hst.
      rewrite (bool_decide_false (IntegrationRequest.status r0 = IntegrationRequest.status r)); [by rewrite Hid0|].
      intros Heq. apply (transition_irrefl (IntegrationRequest.status r0)). by rewrite Heq at 2.
    - rewrite Hw3, Hw2, Hw1, Hid0. cbn. by rewrite lookup_insert_eq. }
  destruct (negb pub); [wp_step; by apply HQ|].
  wp_step. apply wp_new_id. intros oi w4 Hw4. wp_step. apply wp_new_id. intros ev w5 Hw5. wp_step. wp_step.
  destruct (OutboxEvent.fresh _ _ _ _ _ _ _ _ _ _ _) as [o|e]; [|apply HX; destruct Hw4, Hw5; congruence].
  apply wp_add_quiet; [done|]. intros w6 Hw6.
  apply HQ; [eauto with journal_db..|]. destruct Hw4, Hw5, Hw6; congruence.
Qed.

Lemma wp_record_creation r actor md (Q : unit → World → Prop) X w :
  (∀ w', quiet w w' → Q tt w') → (∀ e w', db w' = db w → X e w') →
  wp (record_creation r actor md) Q X w.
Proof.
  intros HQ HX. unfold record_creation. wp_step. apply wp_new_id. intros i w1 H1. wp_step. wp_step.
  destruct (AuditEvent.for_request _ _ _ _ _ _ _ _ _ _) as [a|e] eqn:Ha; [|apply HX; by destruct H1].
  apply silent_creation in Ha. wp_step. apply wp_add_quiet; [done|]. intros w2 H2.
  wp_step. apply wp_new_id. intros oi w3 H3. wp_step. apply wp_new_id. intros ev w4 H4. wp_step. wp_step.
  assert (quiet w w4) as Hq by eauto 8 using quiet_trans, quiet_same.
  destruct (OutboxEvent.fresh _ _ _ _ _ _ _ _ _ _ _) as [o|e]; [|by apply HX, quiet_db].
  apply wp_add_quiet; [done|]. intros w5 H5. apply HQ. by eapply quiet_trans.
Qed.

Lemma wp_record_request_action r act actor md (Q : unit → World → Prop) X w :
  (∀ w', quiet w w' → Q tt w') → (∀ e w', db w' = db w → X e w') →
  wp (record_request_action r act actor md) Q X w.
Proof.
  intros HQ HX. unfold record_request_action. wp_step. apply wp_new_id. intros i w1 H1.
  wp_step. apply wp_now. intros w2 H2. wp_step. wp_step.
  destruct (AuditEvent.for_request _ _ _ _ _ _ _ _ _ _) as [a|e] eqn:Ha;
    [|apply HX; destruct H1, H2; congruence].
  apply silent_same_status in Ha. apply wp_add_quiet; [done|]. intros w3 H3.
  apply HQ. eauto using quiet_trans, quiet_same.
Qed.

Lemma wp_record_webhook_action i act corr md (Q : unit → World → Prop) X w :
  (∀ w', quiet w w' → Q tt w') → (∀ e w', db w' = db w → X e w') →
  wp (record_webhook_action i act corr md) Q X w.
Proof.
  intros HQ HX. unfold record_webhook_action. wp_step. apply wp_new_id. intros j w1 H1.
  wp_step. apply wp_now. intros w2 H2. wp_step. wp_step.
  destruct (AuditEvent.for_webhook _ _ _ _ _ _) as [a|e] eqn:Ha;
    [|apply HX; destruct H1, H2; congruence].
  apply silent_webhook in Ha. apply wp_add_quiet; [done|]. intros w3 H3.
  apply HQ. eauto using quiet_trans, quiet_same.
Qed.

(** A commit publishes the session's tables, or fails and publishes nothing. *)
Lemma wp_commit (Q : unit → World → Prop) X w :
  inside w →
  (∀ w', inside w' → db w' = virtual (sess w) → working (sess w') = virtual (sess w) →
     pending (sess w') = [] → Q tt w') →
  (∀ e w', inside w' → db w' = db w → X e w') →
  wp commit Q X w.
Proof.
  intros (Hdb & Hv & Hg) HQ HX. unfold commit, flush. wp_step. wp_step. wp_step.
  destruct (insert_all _ _) as [v|T] eqn:Hi.
  - wp_step. unfold rollback. wp_go. by apply HX.
  - unfold modify_session. wp_step. wp_step. apply insert_all_virtual in Hi. subst T. by apply HQ.
Qed.

Lemma wp_flush (Q : unit → World → Prop) X w :
  inside w →
  (∀ w', inside w' → db w' = db w → working (sess w') = virtual (sess w) →
     pending (sess w') = [] → Q tt w') →
  (∀ e w', inside w' → db w' = db w → X e w') →
  wp flush Q X w.
Proof.
  intros (Hdb & Hv & Hg) HQ HX. unfold flush. wp_step. wp_step.
  destruct (insert_all _ _) as [v|T] eqn:Hi.
  - wp_step. unfold rollback. wp_go. by apply HX.
  - unfold modify_session. wp_step. apply insert_all_virtual in Hi. subst T. by apply HQ.
Qed.
End RecordRules.

(** * Transactions on one request

    [tx_ok r h]: run inside a unit of work whose row for [r] agrees with the
    object [r], the handler [h] returns an object its row agrees with and keeps
    the session journaled; if it raises, nothing was committed. *)

Section Tx.
Context `{Env}.

Definition tx_ok (r : IntegrationRequest.t) (h : H IntegrationRequest.t) : Prop :=
  ∀ w, inside w → holds w r → wf r →
    wp h (λ r' w', inside w' ∧ holds w' r' ∧ wf r' ∧ same_identity r r' ∧ db w' = db w)
         (λ _ w', db w' = db w) w.

Lemma same_identity_refl r : same_identity r r.
Proof. done. Qed.

Lemma tx_ret r : tx_ok r (ret r).
Proof. intros w Hin Hh Hwf. wp_step. split_and!; try done; apply Hin. Qed.

Lemma tx_raise r e : tx_ok r (raise e).
Proof. by intros w _ _ _. Qed.

Lemma tx_now r k : (∀ t, tx_ok r (k t)) → tx_ok r (bind now k).
Proof.
  intros Hk w Hin Hh Hwf. wp_step. apply wp_now. intros w' Hw'.
  eapply wp_conseq; [apply Hk; eauto with journal_db|..]; destruct Hw' as (-> & _); naive_solver.
Qed.

Lemma tx_jitter r k : (∀ t, tx_ok r (k t)) → tx_ok r (bind jitter k).
Proof.
  intros Hk w Hin Hh Hwf. wp_step. apply wp_jitter. intros w' Hw'.
  eapply wp_conseq; [apply Hk; eauto with journal_db|..]; destruct Hw' as (-> & _); naive_solver.
Qed.

Lemma tx_lift {A} r (o : outcome exn A) k : (∀ a, tx_ok r (k a)) → tx_ok r (bind (lift o) k).
Proof. intros Hk w Hin Hh Hwf. wp_step. wp_step. destruct o; [by apply Hk|done]. Qed.

Lemma tx_bind r h k :
  tx_ok r h → (∀ r', tx_ok r' (k r')) → tx_ok r (bind h k).
Proof.
  intros Hh Hk w Hin Hho Hwf. wp_step. eapply wp_conseq; [by apply Hh| |done].
  intros r' w' (Hin' & Hho' & Hwf' & Hid & Hdb).
  eapply wp_conseq; [by apply Hk|..]; rewrite Hdb; [|done].
  intros r'' w'' (Hin'' & ? & ? & ? & ?). refine (conj Hin'' _). split_and!; try done.
  by eapply same_identity_trans.
Qed.

(** A mutator and the journaling of the transition it returned. *)
Lemma tx_move c m r act actor (md : IntegrationRequest.t → dict) caus pub :
  perform c = some_transition m →
  tx_ok r (let* (tr, r') := on r m in
           record_transition r' tr act actor (md r') caus pub ;;; ret r').
Proof.
  intros Hc w Hin Hh Hwf. wp_step. eapply wp_mutator; [done|done| |done].
  intros tr r' He Hwf'. wp_step. eapply wp_record_transition; [done|done|done|done| |done].
  intros w' Hin' Hh' Hdb. wp_step. refine (conj Hin' _). split_and!; try done. apply He.
Qed.

Lemma tx_action r act actor md : tx_ok r (record_request_action r act actor md ;;; ret r).
Proof.
  intros w Hin Hh Hwf. wp_step. apply wp_record_request_action; [|done].
  intros w' Hw'. wp_step. refine (conj (quiet_inside _ _ Hw' Hin) _).
  split_and!; eauto with journal_db. done.
Qed.

(** A mutator that keeps the status, and the UPDATE of the row. *)
Lemma tx_touch c m r :
  perform c = no_transition m →
  tx_ok r (let* (_, r') := on r m in Requests.update r' ;;; ret r').
Proof.
  intros Hc w Hin Hh Hwf. wp_step. apply wp_on.
  pose proof (perform_effect c r) as He. pose proof (perform_wf c r Hwf) as Hw.
  rewrite Hc in He, Hw. unfold no_transition in *. apply wp_bind_inv in He, Hw.
  eapply wp_conseq; [apply wp_and; [apply He|apply Hw]| |done].
  intros [] r' [[Hid (Hst & _)] Hwf']. cbn in Hwf'. wp_step. apply wp_update; [|done].
  destruct Hh as (row & Hrow & Hrs). destruct Hin as (Hdb & Hv & Hg).
  assert (IntegrationRequest.id r' = IntegrationRequest.id r) as Hidr by apply Hid.
  rewrite Hidr, Hrow. intros row' w' [= <-] Hdb' Hp Hw'.
  pose proof (Hv (IntegrationRequest.id r)) as Hr. pose proof (virtual_lookup _ _ _ Hrow) as Hvr.
  rewrite Hvr in Hr. destruct Hr as (Hrid & _). rewrite <- Hidr in Hvr. wp_step.
  refine (conj (conj _ _) (conj _ (conj Hwf' (conj Hid Hdb')))); [by rewrite Hdb'| |].
  - rewrite (virtual_update (sess w) (sess w') r' row) by (rewrite ?Hidr; done).
    split; [apply journaled_touch; [done..|congruence]|].
    rewrite Hdb'. etrans; [exact Hg|]. apply grows_update; [done|congruence].
  - exists (request_update_values r' row). rewrite Hw', Hidr. cbn. by rewrite lookup_insert_eq.
Qed.
End Tx.

(** Solves [tx_ok] goals by following the structure of the handler. *)
Ltac tx_call :=
  first [ eapply (tx_move (CBeginValidation _)); reflexivity
        | eapply (tx_move (CBeginDispatch _)); reflexivity
        | eapply (tx_move (CMarkAccepted _ _)); reflexivity
        | eapply (tx_move (CMarkSucceeded _ _)); reflexivity
        | eapply (tx_move (CMarkFailed _ _)); reflexivity
        | eapply (tx_move (CScheduleRetry _ _ _)); reflexivity
        | eapply (tx_move (CMarkCancelled _ _)); reflexivity
        | eapply (tx_move (CMarkManualReview _ _)); reflexivity
        | eapply (tx_move (CRestoreForRetry _ _)); reflexivity
        | eapply (tx_touch (CAttachReference _ _)); reflexivity
        | eapply (tx_touch (CTouch _)); reflexivity ].
Create HintDb tx_db.
Ltac tx_step :=
  lazymatch goal with
  | |- tx_ok _ (ret _) => apply tx_ret
  | |- tx_ok _ (raise _) => apply tx_raise
  | |- tx_ok _ (bind now _) => apply tx_now; intros ?
  | |- tx_ok _ (bind jitter _) => apply tx_jitter; intros ?
  | |- tx_ok _ (bind (lift _) _) => apply tx_lift; intros ?
  | |- tx_ok _ (bind (on _ _) _) => tx_call
  | |- tx_ok _ (record_request_action _ _ _ _ ;;; _) => apply tx_action
  | |- tx_ok _ (bind _ _) => apply tx_bind; [|intros ?]
  | |- tx_ok _ (if ?b then _ else _) => destruct b
  | |- tx_ok _ (match ?x with _ => _ end) => destruct x
  | |- tx_ok _ _ => solve [eauto with tx_db]
  end.
Ltac tx_go := cbn zeta; repeat tx_step.

(** * Journaling that cannot fail *)

Section Total.
Context `{Env}.

(** The row of [r] is loaded and the update of [r] will be accepted. *)
Definition updatable (s : session) (r row : IntegrationRequest.t) : Prop :=
  t_requests (working s) !! IntegrationRequest.id r = Some row ∧
  loaded_versions s !! IntegrationRequest.id r = Some (IntegrationRequest.version row) ∧
  reference_taken (working s) (IntegrationRequest.id r) (IntegrationRequest.provider row)
    (IntegrationRequest.provider_reference r) = false.

(** The audit and outbox rows of a transition. *)
Definition transition_rows (r : IntegrationRequest.t) (tr : StatusTransition) (n : nat)
    (a : AuditEvent.t) (o : OutboxEvent.t) : Prop :=
  AuditEvent.id a = uuid_at n ∧ AuditEvent.aggregate_type a = "integration_request" ∧
  AuditEvent.aggregate_id a = uuid_str (IntegrationRequest.id r) ∧
  AuditEvent.previous_state a = Some (value (previous_status tr)) ∧
  AuditEvent.new_state a = Some (value (new_status tr)) ∧
  OutboxEvent.id o = uuid_at (S n) ∧ OutboxEvent.event_id o = uuid_at (S (S n)) ∧
  OutboxEvent.event_type o = event_type_for_status (new_status tr) ∧
  OutboxEvent.aggregate_id o = uuid_str (IntegrationRequest.id r) ∧
  OutboxEvent.published_at o = None ∧ OutboxEvent.dead_lettered_at o = None.

Lemma wp_record_transition_exact r row tr act actor md caus (Q : unit → World → Prop) X w :
  updatable (sess w) r row → is_aware (occurred_at tr) = true →
  (∀ a o w', db w' = db w → transition_rows r tr (drawn w) a o →
     working (sess w') = (working (sess w)) <| t_requests ::=
       insert (IntegrationRequest.id r) (request_update_values r row) |> →
     pending (sess w') = pending (sess w) ++ [NewAudit a; NewOutbox o] →
     drawn w' = S (S (S (drawn w))) →
     loaded_versions (sess w') = <[IntegrationRequest.id r := IntegrationRequest.version r]>
       (loaded_versions (sess w)) →
     Q tt w') →
  wp (record_transition r tr act actor md caus true) Q X w.
Proof.
  intros (Hrow & Hver & Href) Haw HQ. unfold record_transition, Requests.update.
  wp_step. wp_step. wp_step. rewrite Hrow, Hver. cbn [default]. rewrite Z.eqb_refl, Href.
  unfold modify_working, modify_session, Requests.track, new_id.
  unfold AuditEvent.for_request, AuditEvent.make, OutboxEvent.fresh, OutboxEvent.make.
  unfold Audit.append, add_row, modify_session.
  cbn -[uuid_str event_type_for_status build_request_event_payload value].
  unfold wp, bind, modifyS, ret, lift.
  cbn -[uuid_str event_type_for_status build_request_event_payload value].
  rewrite Haw, uuid_str_truthy.
  cbn -[uuid_str event_type_for_status build_request_event_payload value].
  eapply HQ; [done| |done|cbn; rewrite <- app_assoc; reflexivity|done|done].
  by split_and!.
Qed.

Lemma wp_record_transition_total r row tr act actor md caus (Q : unit → World → Prop) X w :
  updatable (sess w) r row → is_aware (occurred_at tr) = true →
  (∀ a o w', db w' = db w → transition_rows r tr (drawn w) a o →
     working (sess w') = (working (sess w)) <| t_requests ::=
       insert (IntegrationRequest.id r) (request_update_values r row) |> →
     pending (sess w') = pending (sess w) ++ [NewAudit a; NewOutbox o] →
     Q tt w') →
  wp (record_transition r tr act actor md caus true) Q X w.
Proof.
  intros Hu Haw HQ. eapply wp_record_transition_exact; [done|done|]. intros. by eapply HQ.
Qed.

(** Identifiers still to be drawn are unused in the table [T]. *)
Definition fresh_ids (w : World) (T : tables) : Prop :=
  ∀ n, (drawn w ≤ n)%nat →
    (∀ a, a ∈ t_audit T → AuditEvent.id a ≠ uuid_at n) ∧
    (∀ o, o ∈ t_outbox T → OutboxEvent.id o ≠ uuid_at n ∧ OutboxEvent.event_id o ≠ uuid_at n).

Lemma existsb_absent {A} (f : A → bool) l : (∀ x, x ∈ l → f x = false) → existsb f l = false.
Proof.
  intros Hf. induction l as [|x l IH]; [done|]. cbn. rewrite Hf by left. apply IH.
  intros y Hy. apply Hf. by right.
Qed.

Lemma insert_transition_rows T r tr n a o w :
  fresh_ids w T → (drawn w ≤ n)%nat → transition_rows r tr n a o →
  insert_all T [NewAudit a; NewOutbox o] = inr (insert_row (insert_row T (NewAudit a)) (NewOutbox o)).
Proof.
  intros Hf Hn (Ha & _ & _ & _ & _ & Ho & He & _). cbn.
  rewrite existsb_absent; [|intros a' Ha'; apply bool_decide_false; rewrite Ha; by apply (Hf n)].
  cbn. rewrite existsb_absent; [|intros o' Ho'; apply bool_decide_false; rewrite Ho; apply (Hf (S n)); [lia|done]].
  rewrite existsb_absent; [done|]. intros o' Ho'. apply bool_decide_false. rewrite He.
  apply (Hf (S (S n))); [lia|done].
Qed.
End Total.
