(* ===== verification/Ports.v ===== *)
(** What the application layer calls: provider gateways, the registry
    ([infrastructure/providers/registry.py]) and the configured policies
    ([infrastructure/resilience/policies.py]).

    A gateway call is a computation over the whole world: while a provider is
    being called no transaction is held, so the committed tables may have been
    changed by others when it returns. *)

From S2P Require Import Prelude PyData PyTime Enums Errors StateMachine ValueObjects Policies Entities RequestFacts.
From S2P Require Import Workflow Records Store Journal.

Record Gateway := mk_gateway {
  g_descriptor : ProviderDescriptor;
  create_operation : CreateProviderOperationCommand → H ProviderOperationResult;
  get_operation_status : string → H ProviderOperationResult;
  cancel_operation : CancelProviderOperationCommand → H ProviderOperationResult;
  validate_webhook : InboundWebhook → outcome exn WebhookVerification;
  normalize_webhook : InboundWebhook → outcome exn NormalizedWebhookEvent;
  health_check : H ProviderHealthProbe;
}.

(** The configuration a process runs with: adapters and policies by slug. *)
Class Platform := {
  gateways : gmap string Gateway;
  retry_policies : gmap string RetryPolicy.t;
  circuit_policies : gmap string CircuitBreakerPolicy.t;
}.

Section Lookup.
Context `{Platform}.

Definition registry_get (slug : string) : outcome exn Gateway :=
  match gateways !! slug with
  | Some g => Ret g
  | None => Raise (ProviderNotConfiguredError slug None)
  end.
Definition registry_has (slug : string) : bool := bool_decide (is_Some (gateways !! slug)).

Definition retry_policy (slug : string) : outcome exn RetryPolicy.t :=
  match retry_policies !! slug with
  | Some p => Ret p
  | None => Raise (ProviderNotConfiguredError slug None)
  end.
Definition circuit_policy (slug : string) : outcome exn CircuitBreakerPolicy.t :=
  match circuit_policies !! slug with
  | Some p => Ret p
  | None => Raise (ProviderNotConfiguredError slug None)
  end.
End Lookup.

(** What a computation may do to the committed tables. *)
Definition sound (w w' : World) : Prop := Journaled (db w') ∧ grows (db w) (db w').

Lemma sound_refl w : Journaled (db w) → sound w w.
Proof. by split. Qed.
Lemma sound_trans w1 w2 w3 : sound w1 w2 → sound w2 w3 → sound w1 w3.
Proof. intros [_ ?] [? ?]. split; [done|by etrans]. Qed.
Lemma sound_db w w' : db w' = db w → Journaled (db w) → sound w w'.
Proof. unfold sound. by intros ->. Qed.

(** Whatever happens while a provider call is in flight, the committed tables
    stay journaled and only grow: every process changes them through the
    journal. *)
Definition calm {A} (m : H A) : Prop :=
  ∀ w, Journaled (db w) →
    wp m (λ _ w', sound w w' ∧ sess w' = sess w) (λ _ w', sound w w' ∧ sess w' = sess w) w.

Class PlatformOk (P : Platform) : Prop := {
  create_calm s g c : gateways !! s = Some g → calm (create_operation g c);
  status_calm s g r : gateways !! s = Some g → calm (get_operation_status g r);
  cancel_calm s g c : gateways !! s = Some g → calm (cancel_operation g c);
}.

(** * Updates the journal does not speak of *)

(** Tables that differ only in what the journal does not speak of: the columns
    an UPDATE of a receipt or of a definition writes, and the outbox. *)
Definition same_history (T T' : tables) : Prop :=
  t_requests T' = t_requests T ∧ t_audit T' = t_audit T ∧
  t_idempotency T' = t_idempotency T ∧ t_executions T' = t_executions T ∧
  (∀ i, option_relation kept_receipt (λ _, False) (λ _, False) (t_receipts T !! i) (t_receipts T' !! i)) ∧
  ∀ i, option_relation kept_definition (λ _, False) (λ _, False) (t_definitions T !! i) (t_definitions T' !! i).

Lemma insert_absent_rel `{Countable K} {A} (R : A → A → Prop) (k : K) (a : A) (m m' : gmap K A) :
  R a a → (∀ i, option_relation R (λ _, False) (λ _, False) (m !! i) (m' !! i)) →
  ∀ i, option_relation R (λ _, False) (λ _, False) (insert_absent k a m !! i) (insert_absent k a m' !! i).
Proof.
  intros Ha Hm i. unfold insert_absent. pose proof (Hm k) as Hk.
  destruct (m !! k) as [x|] eqn:H1, (m' !! k) as [y|] eqn:H2; try done.
  destruct (decide (i = k)) as [-> |Hne]; [by rewrite !lookup_insert_eq|by rewrite !lookup_insert_ne].
Qed.

Lemma same_history_insert T T' n :
  same_history T T' → same_history (insert_row T n) (insert_row T' n).
Proof.
  intros (Hr & Ha & Hi & He & Hw & Hd). destruct n as [r|w|a|o|i|d|e]; unfold same_history; cbn -[insert_absent];
    rewrite ?Hr, ?Ha, ?Hi, ?He; split_and!; try done.
  - apply insert_absent_rel; [apply kept_receipt_refl|done].
  - apply insert_absent_rel; [apply kept_definition_refl|done].
Qed.

Lemma same_history_virtual T T' l :
  same_history T T' → same_history (foldl insert_row T l) (foldl insert_row T' l).
Proof.
  revert T T'. induction l as [|n l IH]; intros T T' HT; [done|]. cbn.
  by apply IH, same_history_insert.
Qed.

Lemma same_history_sound T T' :
  same_history T T' → (Journaled T → Journaled T') ∧ grows T T'.
Proof.
  intros (Hr & Ha & Hi & He & Hw & Hd). split; [by apply journaled_ext|].
  split; rewrite ?Hr, ?Ha, ?Hi, ?He; try done.
  - intros i r Hrow. exists r. split; [done|apply kept_refl].
  - intros i x Hx. specialize (Hw i). rewrite Hx in Hw.
    destruct (t_receipts T' !! i) as [x'|]; [|done]. by exists x'.
  - intros i x Hx. specialize (Hd i). rewrite Hx in Hd.
    destruct (t_definitions T' !! i) as [x'|]; [|done]. by exists x'.
  - intros i e Hrow. by exists e.
  - unfold honest_executions. by rewrite He.
Qed.

(** * Rules for whole units of work *)

Section Calm.
Context `{Env}.

(** A body run inside a unit of work. *)
Definition journaling {A} (body : H A) : Prop :=
  ∀ w, inside w → wp body (λ _ w', inside w' ∧ sound w w') (λ _ w', sound w w') w.

(** The same, for the object [r] whose row the session holds. *)
Definition journaling_with {A} (r : IntegrationRequest.t) (body : H A) : Prop :=
  ∀ w, inside w → holds w r → wf r →
    wp body (λ _ w', inside w' ∧ sound w w') (λ _ w', sound w w') w.

Lemma inside_sound w w' : inside w → db w' = db w → sound w w'.
Proof. intros [HJ _] Hdb. by apply sound_db. Qed.

Lemma calm_uow {A} (body : H A) : journaling body → calm (with_uow body).
Proof.
  intros Hb w Hw. apply wp_with_uow. eapply wp_conseq; [by apply Hb|..].
  - intros a w' [_ Hs]. by split.
  - intros e w' Hs. by split.
Qed.

(** A nested unit of work that only reads. *)
Definition read_only {A} (m : H A) : Prop :=
  ∀ w, wp m (λ _ w', same_tables w w') (λ _ w', same_tables w w') w.

Lemma calm_ret {A} (a : A) : calm (ret a).
Proof. intros w Hw. split; [by apply sound_refl|done]. Qed.
Lemma calm_raise {A} e : calm (A := A) (raise e).
Proof. intros w Hw. split; [by apply sound_refl|done]. Qed.
Lemma calm_now : calm now.
Proof. intros w Hw. split; [by apply sound_db|done]. Qed.
Lemma calm_new_id : calm new_id.
Proof. intros w Hw. split; [by apply sound_db|done]. Qed.
Lemma calm_lift {A} (o : outcome exn A) : calm (lift o).
Proof. intros w Hw. wp_step. destruct o; (split; [by apply sound_refl|done]). Qed.
Lemma calm_on {O A} (o : O) (m : M exn O A) : calm (on o m).
Proof.
  intros w Hw. apply wp_on. unfold wp.
  destruct (m o) as [[a|e] o']; (split; [by apply sound_refl|done]).
Qed.
Lemma calm_bind {A B} (m : H A) (k : A → H B) : calm m → (∀ a, calm (k a)) → calm (bind m k).
Proof.
  intros Hm Hk w Hw. wp_step. eapply wp_conseq; [by apply Hm| |done].
  intros a w' [Hs Hse]. cbv beta in Hs, Hse. eapply wp_conseq; [apply Hk, Hs|..]; rewrite Hse;
    (intros x w'' [Hs' Hse']; split; [by eapply sound_trans|done]).
Qed.
Lemma calm_try {A} (m : H A) h :
  calm m → (∀ e k, h e = Some k → calm k) → calm (try_except m h).
Proof.
  intros Hm Hh w Hw. wp_step. eapply wp_conseq; [by apply Hm|done|].
  intros e w' [Hs Hse]. cbv beta in Hs, Hse. destruct (h e) as [k|] eqn:He; [|done].
  eapply wp_conseq; [eapply Hh; [done|apply Hs]|..]; rewrite Hse;
    (intros x w'' [Hs' Hse']; split; [by eapply sound_trans|done]).
Qed.

Lemma calm_get `{Platform} {A} s (k : Gateway → H A) :
  (∀ g, gateways !! s = Some g → calm (k g)) → calm (bind (lift (registry_get s)) k).
Proof.
  intros Hk w Hw. wp_step. wp_step. unfold registry_get.
  destruct (gateways !! s) as [g|] eqn:Hg; [by apply Hk|split; [by apply sound_refl|done]].
Qed.

(** Steps that leave the tables alone. *)
Lemma journaling_same {A} (m : H A) : read_only m → journaling m.
Proof.
  intros Hm w Hin. eapply wp_conseq; [apply Hm|..].
  - intros a w' Hw. cbv beta in Hw. split; [by eapply same_tables_inside|].
    apply inside_sound; [done|apply Hw].
  - intros e w' Hw. cbv beta in Hw. apply inside_sound; [done|apply Hw].
Qed.
Lemma journaling_quiet {A} (m : H A) :
  (∀ w, wp m (λ _ w', quiet w w') (λ _ w', db w' = db w) w) → journaling m.
Proof.
  intros Hm w Hin. eapply wp_conseq; [apply Hm|..].
  - intros a w' Hw. cbv beta in Hw. split; [by eapply quiet_inside|].
    apply inside_sound; [done|by apply quiet_db].
  - intros e w' Hw. by apply inside_sound.
Qed.

Lemma read_only_ret {A} (a : A) : read_only (ret a).
Proof. by intros w. Qed.
Lemma read_only_raise {A} e : read_only (A := A) (raise e).
Proof. by intros w. Qed.
Lemma read_only_lift {A} (o : outcome exn A) : read_only (lift o).
Proof. intros w. wp_step. by destruct o. Qed.
Lemma read_only_now : read_only now.
Proof. by intros w. Qed.
Lemma read_only_jitter : read_only jitter.
Proof. by intros w. Qed.
Lemma read_only_new_id : read_only new_id.
Proof. by intros w. Qed.
Lemma read_only_on {O A} (o : O) (m : M exn O A) : read_only (on o m).
Proof. intros w. apply wp_on. unfold wp. by destruct (m o) as [[a|e] o']. Qed.
Lemma read_only_reading {A} (f : tables → A) : read_only (reading f).
Proof. by intros w. Qed.
Lemma read_only_bind {A B} (m : H A) (k : A → H B) :
  read_only m → (∀ a, read_only (k a)) → read_only (bind m k).
Proof.
  intros Hm Hk w. wp_step. eapply wp_conseq; [by apply Hm| |done].
  intros a w' (H1 & H2 & H3). eapply wp_conseq; [by apply Hk|..];
    (intros x w'' (? & ? & ?); split_and!; congruence).
Qed.
Lemma read_only_load row : read_only (Requests.load row).
Proof. intros w. apply wp_load; [done|]. by intros r0 w' _ Hw. Qed.
Lemma read_only_get i : read_only (Requests.get i).
Proof. apply read_only_bind; [apply read_only_reading|]. intros. apply read_only_load. Qed.
Lemma read_only_track_all rows : read_only (Requests.track_all rows).
Proof.
  induction rows as [|row rows IH]; [apply read_only_ret|]. cbn.
  apply read_only_bind; [by intros w|]. intros r.
  apply read_only_bind; [done|]. intros rs. apply read_only_ret.
Qed.
Lemma read_only_uow {A} (m : H A) : read_only m → read_only (with_uow m).
Proof.
  intros Hm w. apply wp_with_uow. eapply wp_conseq; [apply Hm|..];
    (intros x w' (Hdb & _); by split_and!).
Qed.
Lemma calm_read_only {A} (m : H A) : read_only m → calm (with_uow m).
Proof. intros Hm. by apply calm_uow, journaling_same. Qed.

Lemma journaling_ret {A} (a : A) : journaling (ret a).
Proof. apply journaling_same, read_only_ret. Qed.
Lemma journaling_raise {A} e : journaling (A := A) (raise e).
Proof. apply journaling_same, read_only_raise. Qed.
Lemma journaling_lift {A} (o : outcome exn A) : journaling (lift o).
Proof. apply journaling_same, read_only_lift. Qed.
Lemma journaling_now : journaling now.
Proof. apply journaling_same, read_only_now. Qed.
Lemma journaling_new_id : journaling new_id.
Proof. apply journaling_same, read_only_new_id. Qed.
Lemma journaling_on {O A} (o : O) (m : M exn O A) : journaling (on o m).
Proof. apply journaling_same, read_only_on. Qed.
Lemma journaling_reading {A} (f : tables → A) : journaling (reading f).
Proof. apply journaling_same, read_only_reading. Qed.
Lemma journaling_bind {A B} (m : H A) (k : A → H B) :
  journaling m → (∀ a, journaling (k a)) → journaling (bind m k).
Proof.
  intros Hm Hk w Hin. wp_step. eapply wp_conseq; [by apply Hm| |done].
  intros a w' [Hin' Hs]. eapply wp_conseq; [by apply Hk|..].
  - intros b w'' [? ?]. split; [done|by eapply sound_trans].
  - intros e w'' ?. by eapply sound_trans.
Qed.
Lemma journaling_try {A} (m : H A) h :
  (∀ w, inside w → wp m (λ _ w', inside w' ∧ sound w w') (λ _ w', inside w' ∧ sound w w') w) →
  (∀ e k, h e = Some k → journaling k) → journaling (try_except m h).
Proof.
  intros Hm Hh w Hin. wp_step. eapply wp_conseq; [by apply Hm|done|].
  intros e w' [Hin' Hs]. destruct (h e) as [k|] eqn:He; [|done].
  eapply wp_conseq; [by eapply Hh|..].
  - intros b w'' [? ?]. split; [done|by eapply sound_trans].
  - intros e' w'' ?. by eapply sound_trans.
Qed.
Lemma journaling_commit : journaling commit.
Proof.
  intros w Hin. apply wp_commit; [done|..].
  - intros w' Hin' Hdb _ _. split; [done|]. destruct Hin as (_ & ? & ?). unfold sound. by rewrite Hdb.
  - intros e w' Hin' Hdb. by apply inside_sound.
Qed.
(** A flush that fails has rolled the session back. *)
Lemma flush_inside w : inside w →
  wp flush (λ _ w', inside w' ∧ sound w w') (λ _ w', inside w' ∧ sound w w') w.
Proof.
  intros Hin. apply wp_flush; [done|..].
  - intros w' Hin' Hdb _ _. split; [done|by apply inside_sound].
  - intros e w' Hin' Hdb. split; [done|by apply inside_sound].
Qed.
Lemma journaling_flush : journaling flush.
Proof. intros w Hin. eapply wp_conseq; [by apply flush_inside|done|]. by intros e w' []. Qed.
Lemma journaling_rollback : journaling rollback.
Proof. intros w (HJ & _). unfold rollback. wp_step. split; [by split_and!|by apply sound_db]. Qed.
Lemma journaling_add n : quiet_row n → journaling (add_row n).
Proof. intros Hn. apply journaling_quiet. intros w. by apply wp_add_quiet. Qed.
Lemma journaling_action r act actor md : journaling (record_request_action r act actor md).
Proof. apply journaling_quiet. intros w. by apply wp_record_request_action. Qed.
Lemma journaling_webhook_action i act corr md : journaling (record_webhook_action i act corr md).
Proof. apply journaling_quiet. intros w. by apply wp_record_webhook_action. Qed.
Lemma journaling_creation r actor md : journaling (record_creation r actor md).
Proof. apply journaling_quiet. intros w. by apply wp_record_creation. Qed.

(** An UPDATE that leaves the history alone. *)
Lemma wp_modify_working f (Q : unit → World → Prop) X w :
  inside w → (∀ T, same_history T (f T)) →
  (∀ w', inside w' → db w' = db w → pending (sess w') = pending (sess w) →
     working (sess w') = f (working (sess w)) → Q tt w') →
  wp (modify_working f) Q X w.
Proof.
  intros (HJ & Hv & Hg) Hf HQ. unfold modify_working, modify_session. wp_step.
  assert (same_history (virtual (sess w)) (virtual (sess (w <| sess ::= (λ s, s <| working ::= f |>) |>))))
    as [H1 H2]%same_history_sound by (apply same_history_virtual, Hf).
  apply HQ; try done. split; [done|]. split; [by apply H1|by etrans].
Qed.
Lemma journaling_modify f : (∀ T, same_history T (f T)) → journaling (modify_working f).
Proof.
  intros Hf w Hin. apply wp_modify_working; [done|done|]. intros w' Hin' Hdb _ _.
  split; [done|by apply inside_sound].
Qed.

(** Loading a request under lock. *)
Lemma journaling_load {A} i (k : option IntegrationRequest.t → H A) :
  journaling (k None) → (∀ r, IntegrationRequest.id r = i → journaling_with r (k (Some r))) →
  journaling (bind (Requests.get_for_update i) k).
Proof.
  intros HN HS w Hin. wp_step. apply wp_get_for_update; [done| |].
  - intros _. by apply HN.
  - intros r w' Hid Hwf Hw Hh. eapply wp_conseq; [apply HS; eauto with journal_db|..];
      unfold sound; destruct Hw as (-> & _); done.
Qed.

Lemma journaling_drop {A} r (body : H A) : journaling body → journaling_with r body.
Proof. intros Hb w Hin _ _. by apply Hb. Qed.

Lemma journaling_tx {A} r h (k : IntegrationRequest.t → H A) :
  tx_ok r h → (∀ r', journaling_with r' (k r')) → journaling_with r (bind h k).
Proof.
  intros Hh Hk w Hin Hho Hwf. wp_step. eapply wp_conseq; [by apply Hh|..].
  - intros r' w' (Hin' & Hho' & Hwf' & _ & Hdb). eapply wp_conseq; [by apply Hk|..];
      unfold sound; by rewrite Hdb.
  - intros e w' Hdb. by apply inside_sound.
Qed.

(** A computation that changes neither the tables nor the object. *)
Lemma journaling_with_bind {A B} r (m : H A) (k : A → H B) :
  (∀ w, wp m (λ _ w', quiet w w') (λ _ w', db w' = db w) w) →
  (∀ a, journaling_with r (k a)) → journaling_with r (bind m k).
Proof.
  intros Hm Hk w Hin Hho Hwf. wp_step. eapply wp_conseq; [by apply Hm|..].
  - intros a w' Hq. cbv beta in Hq. eapply wp_conseq;
      [apply Hk; [by eapply quiet_inside|by eapply quiet_holds|done]|..];
      unfold sound; by rewrite (quiet_db _ _ Hq).
  - intros e w' Hdb. by apply inside_sound.
Qed.
Lemma quiet_read_only {A} (m : H A) :
  read_only m → ∀ w, wp m (λ _ w', quiet w w') (λ _ w', db w' = db w) w.
Proof.
  intros Hm w. eapply wp_conseq; [apply Hm|..]; intros x w' Hw; [by apply quiet_same|apply Hw].
Qed.
End Calm.

Create HintDb calm_db.
#[export] Hint Resolve read_only_ret read_only_raise read_only_lift read_only_now read_only_jitter
  read_only_new_id read_only_on read_only_reading read_only_load read_only_get read_only_track_all
  read_only_uow calm_ret calm_raise calm_now calm_new_id calm_lift calm_on calm_read_only
  journaling_ret journaling_raise journaling_lift journaling_now journaling_new_id journaling_on
  journaling_reading journaling_commit journaling_flush journaling_rollback journaling_action
  journaling_webhook_action journaling_creation : calm_db.

(** Follow the structure of a handler: [ro_go] for reads, [uow_go] for the body
    of a unit of work, [calm_go] for whole handlers. *)
Ltac ro_step :=
  lazymatch goal with
  | |- read_only (bind _ _) => apply read_only_bind; [|intros ?]
  | |- read_only (if ?b then _ else _) => destruct b
  | |- read_only (match ?x with _ => _ end) => destruct x
  | |- read_only _ => solve [eauto with calm_db]
  end.
Ltac ro_go := cbn zeta; repeat ro_step.
Ltac uow_step :=
  lazymatch goal with
  | |- journaling (bind (Requests.get_for_update _) _) => apply journaling_load; [|intros ??]
  | |- journaling (bind _ _) => apply journaling_bind; [|intros ?]
  | |- journaling (if ?b then _ else _) => destruct b
  | |- journaling (match ?x with _ => _ end) => destruct x
  | |- journaling _ => solve [eauto with calm_db]
  end.
Ltac uow_go := cbn zeta; repeat uow_step.
Ltac calm_step :=
  lazymatch goal with
  | |- calm (bind (lift (registry_get _)) _) => apply calm_get; intros ??
  | |- calm (bind _ _) => apply calm_bind; [|intros ?]
  | |- calm (if ?b then _ else _) => destruct b
  | |- calm (match ?x with _ => _ end) => destruct x
  | |- calm _ => solve [eauto with calm_db]
  end.
Ltac calm_go := cbn zeta; repeat calm_step.
