(* ===== verification/Settlement.v ===== *)
(** Transactions that settle a request: how they are run to completion, and what
    they commit. Shared by dispatch, cancellation, retry, webhooks and
    reconciliation. *)

From S2P Require Import Prelude PyData PyTime Enums Errors StateMachine ValueObjects Policies Entities RequestFacts.
From S2P Require Import Workflow Records Store Journal Ports.

Section Settlement.
Context `{Env} {HE : EnvOk _}.

(** A mutator that succeeds and moves [r] to [S]. *)
Definition moves_to (r : IntegrationRequest.t) (m : IntegrationRequest.method StatusTransition)
    (S : RequestStatus.t) (ref : option string) : Prop :=
  wp m (λ tr r', IntegrationRequest.id r' = IntegrationRequest.id r ∧
          previous_status tr = IntegrationRequest.status r ∧ new_status tr = S ∧
          IntegrationRequest.status r' = S ∧ is_aware (occurred_at tr) = true ∧
          (IntegrationRequest.provider_reference r' = IntegrationRequest.provider_reference r ∨
           IntegrationRequest.provider_reference r' = ref))
       (λ _ _, False) r.

Ltac moves :=
  intros; unfold moves_to; request_go; unfold moved; cbn; split_and?; auto;
  repeat match goal with
  | H : negb _ = true |- _ => apply negb_true_iff in H
  | H : _ ∨ _ |- _ => destruct H
  end; try congruence; try done.

Lemma moves_succeeded r t ref : transition (IntegrationRequest.status r) RequestStatus.SUCCEEDED →
  is_aware t = true → moves_to r (IntegrationRequest.mark_succeeded t ref) RequestStatus.SUCCEEDED ref.
Proof. moves. Qed.
Lemma moves_accepted r t ref : transition (IntegrationRequest.status r) RequestStatus.PENDING →
  is_aware t = true → Str.truthy ref = true →
  moves_to r (IntegrationRequest.mark_accepted ref t) RequestStatus.PENDING (Some ref).
Proof. moves. Qed.
Lemma moves_cancelled r t reason ref : transition (IntegrationRequest.status r) RequestStatus.CANCELLED →
  is_aware t = true →
  moves_to r (IntegrationRequest.mark_cancelled t reason) RequestStatus.CANCELLED ref.
Proof. moves. Qed.
Lemma moves_review r t reason ref : transition (IntegrationRequest.status r) RequestStatus.MANUAL_REVIEW →
  is_aware t = true →
  moves_to r (IntegrationRequest.mark_manual_review reason t) RequestStatus.MANUAL_REVIEW ref.
Proof. moves. Qed.
Lemma moves_failed r t f ref : transition (IntegrationRequest.status r) RequestStatus.FAILED →
  is_aware t = true → moves_to r (IntegrationRequest.mark_failed f t) RequestStatus.FAILED ref.
Proof. moves. Qed.
Lemma moves_retry r t at_ f ref : transition (IntegrationRequest.status r) RequestStatus.RETRY_SCHEDULED →
  is_aware t = true → is_aware at_ = true →
  moves_to r (IntegrationRequest.schedule_retry f at_ t) RequestStatus.RETRY_SCHEDULED ref.
Proof. moves. Qed.
Lemma moves_restored r t at_ ref : transition (IntegrationRequest.status r) RequestStatus.RETRY_SCHEDULED →
  is_aware t = true → is_aware at_ = true →
  moves_to r (IntegrationRequest.restore_for_retry at_ t) RequestStatus.RETRY_SCHEDULED ref.
Proof. moves. Qed.

(** The session holds the row of [r], and neither the reference [r] has nor
    [ref] belongs to another request of the provider. *)
Definition ready (w : World) (r row : IntegrationRequest.t) (ref : option string) : Prop :=
  t_requests (working (sess w)) !! IntegrationRequest.id r = Some row ∧
  loaded_versions (sess w) !! IntegrationRequest.id r = Some (IntegrationRequest.version row) ∧
  reference_taken (working (sess w)) (IntegrationRequest.id r) (IntegrationRequest.provider row)
    (IntegrationRequest.provider_reference r) = false ∧
  reference_taken (working (sess w)) (IntegrationRequest.id r) (IntegrationRequest.provider row)
    ref = false.

(** [h] moves [r] to [S], writing its row, one audit row and one outbox row. *)
Definition settles (r : IntegrationRequest.t) (S : RequestStatus.t) (ref : option string)
    (h : H IntegrationRequest.t) : Prop :=
  ∀ w row, ready w r row ref →
    wp h (λ r' w', IntegrationRequest.status r' = S ∧
            IntegrationRequest.id r' = IntegrationRequest.id r ∧ db w' = db w ∧
            ∃ tr n a o, (drawn w ≤ n)%nat ∧ transition_rows r' tr n a o ∧
              previous_status tr = IntegrationRequest.status r ∧ new_status tr = S ∧
              working (sess w') = (working (sess w)) <| t_requests ::=
                insert (IntegrationRequest.id r) (request_update_values r' row) |> ∧
              pending (sess w') = pending (sess w) ++ [NewAudit a; NewOutbox o])
         (λ _ _, False) w.

Lemma settles_now r S ref k :
  (∀ t, is_aware t = true → settles r S ref (k t)) → settles r S ref (bind now k).
Proof. intros Hk w row Hr. 
  pose proof (Hk _ (clock_aware (ticks w)) (w <| ticks ::= Datatypes.S |>) row Hr) as Hw. exact Hw. Qed.

Lemma settles_jitter r S ref k :
  (∀ j, (0 <= j < 1)%Q → settles r S ref (k j)) → settles r S ref (bind jitter k).
Proof. intros Hk w row Hr. 
  pose proof (Hk _ (jitter_range (rolls w)) (w <| rolls ::= Datatypes.S |>) row Hr) as Hw. exact Hw. Qed.

Lemma settles_lift {A} r S ref (o : outcome exn A) a k :
  o = Ret a → settles r S ref (k a) → settles r S ref (bind (lift o) k).
Proof. intros -> Hk. exact Hk. Qed.

Lemma settles_move m r S ref act actor (md : IntegrationRequest.t → dict) caus :
  moves_to r m S ref →
  settles r S ref (let* (tr, r') := on r m in
                   record_transition r' tr act actor (md r') caus true ;;; ret r').
Proof.
  intros Hm w row (Hrow & Hver & Hown & Href). wp_step. apply wp_on.
  eapply wp_conseq; [apply Hm| |done].
  intros tr r' (Hid & Hp & Hn & Hs & Haw & Hrf). wp_step.
  eapply (wp_record_transition_total _ row); [|done|].
  - unfold updatable. rewrite Hid. split_and!; [done|done|]. by destruct Hrf as [-> | ->].
  - intros a o w' Hdb Hrows Hw Hpend. wp_step. rewrite Hid in Hw. split_and!; [done..|].
    exists tr, (drawn w), a, o. split_and!; try done; apply Hrows.
Qed.

(** The committed effect of a settlement: the row of [i] moved from [S0] to [S], no
    other request was written, and exactly one audit row and one outbox event say
    so. *)
Definition settled_commit (i : UUID) (S0 S : RequestStatus.t) (T T' : tables) : Prop :=
  ∃ row' a o, t_requests T' = <[i := row']> (t_requests T) ∧ IntegrationRequest.status row' = S ∧
    t_audit T' = t_audit T ++ [a] ∧
    change_of i a = Some (S0, S) ∧
    t_outbox T' = t_outbox T ++ [o] ∧
    OutboxEvent.event_type o = event_type_for_status S ∧
    OutboxEvent.aggregate_id o = uuid_str i ∧ OutboxEvent.is_published o = false.

(** A session that has moved [r] (now [r']) from [S0] to [S] and not yet
    committed, over committed tables [T]. *)
Definition settling (r' row : IntegrationRequest.t) (S0 S : RequestStatus.t) (T : tables)
    (w : World) : Prop :=
  ∃ tr n a o, fresh_ids (w <| drawn := n |>) T ∧ transition_rows r' tr n a o ∧
    previous_status tr = S0 ∧ new_status tr = S ∧ IntegrationRequest.status r' = S ∧
    t_requests (working (sess w)) = <[IntegrationRequest.id r' := request_update_values r' row]> (t_requests T) ∧
    t_audit (working (sess w)) = t_audit T ∧ t_outbox (working (sess w)) = t_outbox T ∧
    pending (sess w) = [NewAudit a; NewOutbox o].

Lemma settles_settling r S ref h w row (Q : IntegrationRequest.t → World → Prop) X :
  settles r S ref h → ready w r row ref → pending (sess w) = [] → working (sess w) = db w →
  fresh_ids w (db w) →
  (∀ r' w', IntegrationRequest.id r' = IntegrationRequest.id r →
     settling r' row (IntegrationRequest.status r) S (db w) w' → db w' = db w →
     t_receipts (working (sess w')) = t_receipts (db w) → Q r' w') →
  wp h Q X w.
Proof.
  intros Hh Hr Hpend Hwork Hf HQ. eapply wp_conseq; [by eapply Hh| |done].
  intros r' w1 (Hs' & Hid & Hdb & tr & n & a & o & Hn & Hrows & Hp & Hnew & Hw1 & Hp1).
  rewrite Hpend in Hp1. cbn in Hp1. rewrite Hwork in Hw1. apply HQ; [done| |done|by rewrite Hw1].
  exists tr, n, a, o. rewrite Hw1, Hid. split_and!; try done.
  intros m Hm. cbn in Hm. apply Hf. lia.
Qed.

Lemma wp_commit_settling r' row S0 S T (Q : unit → World → Prop) X w :
  settling r' row S0 S T w → S0 ≠ S →
  (∀ w', settled_commit (IntegrationRequest.id r') S0 S T (db w') →
     t_requests (db w') !! IntegrationRequest.id r' = Some (request_update_values r' row) →
     t_receipts (db w') = t_receipts (working (sess w)) → Q tt w') →
  wp commit Q X w.
Proof.
  intros (tr & n & a & o & Hf & Hrows & Hp & Hnew & Hs & Hreq & Hau & Hou & Hpe) Hne HQ.
  unfold commit, flush. wp_step. wp_step. wp_step. rewrite Hpe.
  erewrite (insert_transition_rows _ r' tr n a o (w <| drawn := n |>)); [| |done|done].
  2:{ intros m Hm. rewrite Hau, Hou. by apply Hf. }
  unfold modify_session. wp_step. wp_step. apply HQ; [|cbn; by rewrite Hreq, lookup_insert_eq|done].
  destruct Hrows as (_ & Haty & Haid & Hapr & Hanw & _ & _ & Hoty & Hoid & Hpub & _).
  exists (request_update_values r' row), a, o. cbn. rewrite Hreq, Hau, Hou. split_and!.
  - done.
  - done.
  - done.
  - unfold change_of. rewrite Haty, Haid, Hapr, Hanw, Hp, Hnew.
    rewrite !bool_decide_true by done. cbn -[of_value value]. rewrite !of_value_value.
    by rewrite bool_decide_false.
  - done.
  - by rewrite Hoty, Hnew.
  - by rewrite Hoid.
  - unfold OutboxEvent.is_published. by rewrite Hpub.
Qed.

Lemma settles_commit {A} r S ref h w row (k : IntegrationRequest.t → H A) (Q : A → World → Prop) X :
  settles r S ref h → ready w r row ref → pending (sess w) = [] → working (sess w) = db w →
  IntegrationRequest.status r ≠ S → fresh_ids w (db w) →
  (∀ r' w', IntegrationRequest.status r' = S →
     settled_commit (IntegrationRequest.id r) (IntegrationRequest.status r) S (db w) (db w') →
     t_requests (db w') !! IntegrationRequest.id r = Some (request_update_values r' row) →
     wp (k r') Q X w') →
  wp (let* r' := h in commit ;;; k r') Q X w.
Proof.
  intros Hh Hr Hpend Hwork HS Hf HQ. wp_step. eapply settles_settling; [done..|].
  intros r' w1 Hid Hset Hdb _. assert (IntegrationRequest.status r' = S) as Hs' by (by destruct Hset as (? & ? & ? & ? & ?); destruct_and!).
  wp_step. eapply wp_commit_settling; [done|done|]. rewrite Hid. intros w' Hc Hrow _. by apply HQ.
Qed.

(** The session after its row was loaded under lock. *)
Definition loaded (w : World) (row : IntegrationRequest.t) : World :=
  (w <| sess := open_session (db w) |>) <| sess ::= (λ s, s <| loaded_versions ::=
     insert (IntegrationRequest.id row) (IntegrationRequest.version row) |>) |>.

(** Nobody else uses the reference [ref] of the provider of [row]. *)
Definition free_reference (T : tables) (row : IntegrationRequest.t) (ref : option string) : Prop :=
  reference_taken T (IntegrationRequest.id row) (IntegrationRequest.provider row) ref = false.

Lemma ready_loaded w row ref :
  t_requests (db w) !! IntegrationRequest.id row = Some row →
  free_reference (db w) row (IntegrationRequest.provider_reference row) →
  free_reference (db w) row ref → ready (loaded w row) (request_to_domain row) row ref.
Proof.
  intros Hrow Hown Href. unfold ready, loaded.
  change (IntegrationRequest.id (request_to_domain row)) with (IntegrationRequest.id row).
  split_and!; cbn; try done. by rewrite lookup_insert_eq.
Qed.

(** Journaling a note: one audit row that records no status change. *)
Lemma wp_action_total r act actor md (Q : unit → World → Prop) (X : exn → World → Prop) w :
  (∀ a w', db w' = db w → working (sess w') = working (sess w) →
     pending (sess w') = pending (sess w) ++ [NewAudit a] →
     AuditEvent.id a = uuid_at (drawn w) → AuditEvent.action a = act → silent a → Q tt w') →
  wp (record_request_action r act actor md) Q X w.
Proof.
  intros HQ. unfold record_request_action, new_id, now.
  wp_step. unfold wp at 1. wp_step. unfold wp at 1. wp_step. wp_step.
  destruct (AuditEvent.for_request _ _ _ _ _ _ _ _ _ _) as [a|e] eqn:He.
  - apply silent_same_status in He as Hsil.
    unfold AuditEvent.for_request, AuditEvent.make in He.
    destruct (negb _); [done|]. destruct (negb _); [done|]. injection He as <-.
    unfold Audit.append, add_row, modify_session. wp_step. by eapply HQ.
  - unfold AuditEvent.for_request, AuditEvent.make in He. cbn in He.
    by rewrite clock_aware, uuid_str_truthy in He.
Qed.

(** Loading a stored row under lock. *)
Lemma wp_load_row i row (Q : option IntegrationRequest.t → World → Prop) X w :
  t_requests (working (sess w)) !! i = Some row →
  Q (Some (request_to_domain row)) (w <| sess ::= (λ s, s <| loaded_versions ::=
       insert (IntegrationRequest.id row) (IntegrationRequest.version row) |>) |>) →
  wp (Requests.get_for_update i) Q X w.
Proof.
  intros Hrow HQ. unfold Requests.get_for_update, reading. wp_step. wp_step. rewrite Hrow.
  unfold Requests.load, Requests.track, modify_session. wp_step. wp_step. wp_step. wp_step. exact HQ.
Qed.

(** The commit of one note. *)
Definition noted_commit (act : AuditAction.t) (T T' : tables) : Prop :=
  ∃ a, T' = T <| t_audit := t_audit T ++ [a] |> ∧ AuditEvent.action a = act ∧ silent a.

Lemma wp_commit_note a (Q : unit → World → Prop) X w :
  pending (sess w) = [NewAudit a] → (∀ x, x ∈ t_audit (working (sess w)) → AuditEvent.id x ≠ AuditEvent.id a) →
  (∀ w', db w' = (working (sess w)) <| t_audit := t_audit (working (sess w)) ++ [a] |> → Q tt w') →
  wp commit Q X w.
Proof.
  intros Hp Hf HQ. unfold commit, flush. wp_step. wp_step. wp_step. rewrite Hp. cbn.
  rewrite existsb_absent; [|intros x Hx; apply bool_decide_false; auto].
  unfold modify_session. wp_step. by apply HQ.
Qed.
End Settlement.

