(* ===== verification/Dispatcher.v ===== *)
(** Provider dispatch ([application/services/dispatcher.py]): claim, call,
    settle. *)

From S2P Require Import Prelude PyData PyTime Enums Errors StateMachine ValueObjects Policies Entities RequestFacts.
From S2P Require Import Workflow Records Store Journal Ports.

Definition PROVIDER_REQUEST_METADATA_KEY : string := "provider_request".

Definition _safe_result_metadata (r : ProviderOperationResult) : dict :=
  let md := List.filter (λ kv, negb (bool_decide (kv.1 = PROVIDER_REQUEST_METADATA_KEY)))
              (res_raw_response_metadata r) in
  let md := dict_set "normalized_status" (JStr (value (res_normalized_status r))) md in
  let md := if truthy_opt (res_provider_status r)
            then dict_set "provider_status" (jopt (res_provider_status r)) md else md in
  if truthy_opt (res_provider_reference r)
  then dict_set "provider_reference" (jopt (res_provider_reference r)) md else md.

(** The statuses [_notify_terminal] reports to the workflow hook. *)
Definition notified (s : RequestStatus.t) : bool :=
  bool_decide (s ∈ [RequestStatus.SUCCEEDED; RequestStatus.FAILED; RequestStatus.CANCELLED;
                    RequestStatus.MANUAL_REVIEW; RequestStatus.PENDING]).

Definition not_found (i : UUID) : exn :=
  error ErrorClass.NotFoundError ("integration request '" +:+ uuid_str i +:+ "' does not exist")
    no_kwargs.

Section Dispatcher.
Context `{Env} `{Platform}.

(** The [on_terminal] callback, when one is wired. *)
Context (on_terminal : option (UUID → H unit)).

Definition claim_for_dispatch (r : IntegrationRequest.t) (actor : Actor)
    (causation_id : option string) : H IntegrationRequest.t :=
  let* t := now in
  let* (tr, r) := on r (IntegrationRequest.begin_dispatch t) in
  record_transition r tr AuditAction.DISPATCH_ATTEMPTED actor
    [("attempt", JInt (IntegrationRequest.attempt_count r))] causation_id true ;;;
  ret r.

Definition _escalate (r : IntegrationRequest.t) (reason : string) (actor : Actor) (md : dict)
    (causation_id : option string) : H IntegrationRequest.t :=
  let* t := now in
  let* (tr, r) := on r (IntegrationRequest.mark_manual_review reason t) in
  record_transition r tr AuditAction.MOVED_TO_MANUAL_REVIEW actor
    (dict_set "reason" (JStr reason) md) causation_id true ;;;
  ret r.

Definition _apply_acceptance (r : IntegrationRequest.t) (res : ProviderOperationResult)
    (actor : Actor) (causation_id : option string) : H IntegrationRequest.t :=
  let* t := now in
  let md := _safe_result_metadata res in
  match res_normalized_status res with
  | NormalizedStatus.SUCCEEDED =>
      let* (tr, r) := on r (IntegrationRequest.mark_succeeded t (res_provider_reference res)) in
      record_transition r tr AuditAction.PROVIDER_ACCEPTED actor md causation_id true ;;;
      ret r
  | NormalizedStatus.ACCEPTED | NormalizedStatus.PENDING =>
      if negb (truthy_opt (res_provider_reference res)) then
        _escalate r "the provider accepted the operation without returning a reference" actor md
          causation_id
      else
        let* (tr, r) := on r (IntegrationRequest.mark_accepted
                                 (default "" (res_provider_reference res)) t) in
        record_transition r tr AuditAction.PROVIDER_ACCEPTED actor md causation_id true ;;;
        ret r
  | NormalizedStatus.CANCELLED =>
      let* (tr, r) := on r (IntegrationRequest.mark_cancelled t (Some "cancelled by the provider")) in
      record_transition r tr AuditAction.REQUEST_CANCELLED actor md causation_id true ;;;
      ret r
  | _ =>
      _escalate r ("the provider reported a status the adapter could not interpret: " +:+
                   or_else (res_provider_status res) "unspecified") actor md causation_id
  end.

Definition unreported_error : ProviderErrorInfo :=
  {| ei_code := "provider_error";
     ei_message := "the provider call failed without a reported reason";
     ei_category := ErrorCategory.INTERNAL; ei_retryable := false;
     ei_provider_code := None; ei_retry_after_seconds := None |}.

Definition _apply_failure (r : IntegrationRequest.t) (res : ProviderOperationResult)
    (actor : Actor) (causation_id : option string) : H IntegrationRequest.t :=
  let err := default unreported_error (res_error res) in
  let* t := now in
  let* policy := lift (retry_policy (IntegrationRequest.provider r)) in
  let md := dict_merge (_safe_result_metadata res)
    [("error_code", JStr (ei_code err)); ("error_category", JStr (value (ei_category err)));
     ("retryable", JBool (ei_retryable err)); ("provider_code", jopt (ei_provider_code err))] in
  if RetryPolicy.should_retry policy (IntegrationRequest.attempt_count r) (ei_retryable err) then
    let* j := jitter in
    let* retry_at := lift (RetryPolicy.next_retry_at policy t (IntegrationRequest.attempt_count r) j
                             (ei_retry_after_seconds err)) in
    let* (tr, r) := on r (IntegrationRequest.schedule_retry (to_failure_detail err) retry_at t) in
    record_transition r tr AuditAction.RETRY_SCHEDULED actor
      (dict_set "next_retry_at" (JStr (isoformat retry_at)) md) causation_id true ;;;
    ret r
  else
    let exhausted := ei_retryable err &&
      negb (RetryPolicy.has_attempts_remaining policy (IntegrationRequest.attempt_count r)) in
    if exhausted && bool_decide (ei_category err = ErrorCategory.PROVIDER_TIMEOUT) then
      _escalate r "retries were exhausted on an ambiguous provider timeout" actor md causation_id
    else
      let* (tr, r) := on r (IntegrationRequest.mark_failed (to_failure_detail err) t) in
      record_transition r tr
        (if exhausted then AuditAction.RETRIES_EXHAUSTED else AuditAction.PROVIDER_FAILED) actor
        (dict_set "attempts_exhausted" (JBool exhausted) md) causation_id true ;;;
      ret r.

Definition _record_superseded (r : IntegrationRequest.t) (res : ProviderOperationResult)
    (actor : Actor) (causation_id : option string) : H IntegrationRequest.t :=
  let* r :=
    if truthy_opt (res_provider_reference res) &&
       negb (truthy_opt (IntegrationRequest.provider_reference r)) then
      let* t := now in
      let* (_, r) := on r (IntegrationRequest.attach_provider_reference
                              (default "" (res_provider_reference res)) t) in
      Requests.update r ;;;
      ret r
    else ret r in
  record_request_action r AuditAction.STATE_RECONCILED actor
    (dict_merge (_safe_result_metadata res)
      [("note", JStr "the dispatch outcome was superseded by newer state");
       ("causation_id", jopt causation_id)]) ;;;
  ret r.

Definition _call_provider (r : IntegrationRequest.t) : H ProviderOperationResult :=
  let* g := lift (registry_get (IntegrationRequest.provider r)) in
  let* cmd := lift (create_cmd_make
    {| cc_request_id := IntegrationRequest.id r; cc_provider := IntegrationRequest.provider r;
       cc_operation_type := IntegrationRequest.operation_type r;
       cc_external_reference := IntegrationRequest.external_reference r;
       cc_payload := IntegrationRequest.normalized_payload r;
       cc_correlation_id := IntegrationRequest.correlation_id r;
       cc_idempotency_key := uuid_str (IntegrationRequest.id r);
       cc_attempt := IntegrationRequest.attempt_count r |}) in
  try_except (create_operation g cmd) (λ e,
    match e with
    | EDomain d =>
        if ErrorClass.subclass (cls d) ErrorClass.UnsupportedOperationError then
          Some (ret (result_failure
            {| ei_code := err_code d; ei_message := message d; ei_category := category d;
               ei_retryable := false; ei_provider_code := None; ei_retry_after_seconds := None |}
            None None []))
        else if ErrorClass.subclass (cls d) ErrorClass.ProviderError then
          Some (ret (result_failure (from_error d) None None []))
        else None
    | _ => None
    end).

(** The settle transaction of [complete_attempt]. *)
Definition settle (i : UUID) (res : ProviderOperationResult) (actor : Actor)
    (causation_id : option string) : H IntegrationRequest.t :=
  with_uow (
    let* cur := Requests.get_for_update i in
    match cur with
    | None => raise (not_found i)
    | Some current =>
        if negb (bool_decide (IntegrationRequest.status current = RequestStatus.DISPATCHING)) then
          let* current := _record_superseded current res actor causation_id in
          commit ;;;
          ret current
        else
          let* (_, current) :=
            match dict_get PROVIDER_REQUEST_METADATA_KEY (res_raw_response_metadata res) with
            | Some (JObj p) => on current (IntegrationRequest.record_provider_payload p)
            | _ => ret (tt, current)
            end in
          let* current := if res_accepted res
                          then _apply_acceptance current res actor causation_id
                          else _apply_failure current res actor causation_id in
          commit ;;;
          ret current
    end).

Definition complete_attempt (r : IntegrationRequest.t) (actor : Actor)
    (causation_id : option string) : H IntegrationRequest.t :=
  let* res := _call_provider r in
  settle (IntegrationRequest.id r) res actor causation_id.

Definition _notify_terminal (r : IntegrationRequest.t) : H unit :=
  match on_terminal with
  | None => ret tt
  | Some hook =>
      if negb (notified (IntegrationRequest.status r)) then ret tt
      else try_except (hook (IntegrationRequest.id r)) (λ _, Some (ret tt))
  end.

(** The claim transaction of [dispatch]. *)
Definition claim (i : UUID) (actor : Actor) (causation_id : option string) :
    H IntegrationRequest.t :=
  with_uow (
    let* cur := Requests.get_for_update i in
    match cur with
    | None => raise (not_found i)
    | Some r =>
        let* r :=
          if bool_decide (IntegrationRequest.status r = RequestStatus.RECEIVED) then
            let* t := now in
            let* (tr, r) := on r (IntegrationRequest.begin_validation t) in
            record_transition r tr AuditAction.REQUEST_VALIDATED actor [] None false ;;;
            ret r
          else ret r in
        let* r := claim_for_dispatch r actor causation_id in
        commit ;;;
        ret r
    end).

Definition dispatch (i : UUID) (actor : Actor) (causation_id : option string) :
    H IntegrationRequest.t :=
  let* r := claim i actor causation_id in
  let* settled := complete_attempt r actor causation_id in
  _notify_terminal settled ;;;
  ret settled.
End Dispatcher.
