(* ===== verification/Samples.v ===== *)
(** A concrete environment, platform and database on which the theorems'
    hypotheses hold: used by the witnesses. *)

From S2P Require Import Prelude PyData PyTime Enums Errors StateMachine ValueObjects Policies Entities RequestFacts.
From S2P Require Import Workflow Records Store Journal Ports.

#[export] Instance sample_env : Env :=
  {| clock_at n := utc (Z.of_nat n); uuid_at n := (100 + N.of_nat n)%N; jitter_at _ := (1 # 2)%Q |}.
#[export] Instance sample_env_ok : EnvOk sample_env.
Proof. split; cbn; [done|]. intros _. split; lra. Qed.

Definition sample_policy : RetryPolicy.t := RetryPolicy.mk 3 (1 # 2) 2 60 300.
Lemma sample_policy_valid : RetryPolicy.valid sample_policy.
Proof. unfold RetryPolicy.valid. cbn. repeat split; (lia || lra). Qed.

Definition sample_descriptor : ProviderDescriptor :=
  mk_descriptor "cobalt" "Cobalt" "api_key" true [OperationType.ACCESS_GRANT] true true true "hmac" 4 3 10.

Definition sample_metadata : signature_metadata :=
  mk_signature_metadata "hmac-sha256" None None None true.

(** A gateway that answers at once, and accepts every webhook. *)
Definition sample_gateway (res : ProviderOperationResult) (ev : NormalizedWebhookEvent) : Gateway :=
  {| g_descriptor := sample_descriptor;
     create_operation _ := ret res;
     get_operation_status _ := ret res;
     cancel_operation _ := ret res;
     validate_webhook _ := Ret (mk_verification true sample_metadata None);
     normalize_webhook _ := Ret ev;
     health_check := ret (mk_probe true (utc 0) None None) |}.

Definition accepted_result : ProviderOperationResult :=
  result_success NormalizedStatus.ACCEPTED (Some "op-9") (Some "queued") [] None.
Definition timeout_error : ProviderErrorInfo :=
  mk_error_info "provider_timeout" "timed out" ErrorCategory.PROVIDER_TIMEOUT true None None.
Definition timeout_result : ProviderOperationResult := result_failure timeout_error None None [].

Definition sample_event : NormalizedWebhookEvent :=
  mk_webhook_event "cobalt" "evt-1" "operation.completed" NormalizedStatus.SUCCEEDED (utc 5)
    (Some "op-9") None None [] None.

Definition sample_platform (res : ProviderOperationResult) : Platform :=
  {| gateways := {[ "cobalt" := sample_gateway res sample_event ]};
     retry_policies := {[ "cobalt" := sample_policy ]};
     circuit_policies := ∅ |}.

#[export] Instance sample_platform_ok res : PlatformOk (sample_platform res).
Proof.
  split; intros s g x Hg; cbn in Hg; apply lookup_singleton_Some in Hg as [_ <-]; apply calm_ret.
Qed.

(** A request with identifier 7 after the given calls, and the tables holding
    it together with the audit rows of its history. *)
Definition request_after (cs : list call) : IntegrationRequest.t := (run_calls cs sample_request).2.
Definition history_of (cs : list call) : list AuditEvent.t :=
  imap (λ n tr, AuditEvent.mk (N.of_nat n) "integration_request" (uuid_str 7)
          AuditAction.REQUEST_VALIDATED ActorType.SYSTEM "corr" (utc 0)
          (Some (value (previous_status tr))) (Some (value (new_status tr))) None [])
    (run_calls cs sample_request).1.
Definition tables_after (cs : list call) : tables :=
  empty_tables <| t_requests := {[ 7%N := request_after cs ]} |> <| t_audit := history_of cs |>.
Definition world_after (cs : list call) : World :=
  mk_world (tables_after cs) (open_session empty_tables) 10 0 0.

Lemma history_changes cs l : history_of cs = l → ∀ i, i ≠ 7%N → changes l i = [].
Proof.
  intros <- i Hi. unfold history_of, changes.
  assert (∀ (f : nat → StatusTransition → AuditEvent.t) trs, (∀ n tr, change_of i (f n tr) = None) →
    omap (change_of i) (imap f trs) = []) as Hgen.
  { intros f trs Hf. revert f Hf. induction trs as [|tr trs IH]; intros f Hf; [done|].
    cbn. rewrite Hf. apply IH. intros n tr'. apply Hf. }
  apply Hgen. intros n tr. unfold change_of. cbn -[uuid_str of_value value].
  rewrite (bool_decide_false (uuid_str 7 = uuid_str i)); [done|].
  by intros ?%(inj uuid_str).
Qed.

(** The sample tables are journaled when the request's own trail replays,
    which is a computation. *)
Lemma tables_after_journaled cs :
  IntegrationRequest.id (request_after cs) = 7%N →
  replays RequestStatus.RECEIVED (changes (history_of cs) 7)
    (IntegrationRequest.status (request_after cs)) →
  Journaled (tables_after cs).
Proof.
  intros Hid Hrep i. cbn [tables_after t_requests t_audit]. unfold tables_after. cbn -[changes request_after history_of].
  destruct (decide (i = 7%N)) as [->|Hi].
  - rewrite lookup_singleton_eq. split_and!; [done| |done]. apply run_calls_wf.
    by apply (wf_create 7 "cobalt" OperationType.ACCESS_GRANT "ref" [] "corr" (utc 0) None None).
  - rewrite lookup_singleton_ne by done. by eapply history_changes.
Qed.

Definition dispatching_calls : list call := [CBeginValidation (utc 1); CBeginDispatch (utc 2)].
Definition succeeded_calls : list call := dispatching_calls ++ [CMarkSucceeded (utc 3) (Some "op-9")].

Definition pending_calls : list call := dispatching_calls ++ [CMarkAccepted "op-9" (utc 3)].
Definition failed_calls : list call :=
  dispatching_calls ++ [CMarkFailed IntegrationRequest.provider_reported_failure (utc 3)].

Lemma sample_fresh cs : (length (history_of cs) ≤ 50)%nat →
  fresh_ids (world_after cs) (db (world_after cs)).
Proof.
  intros Hlen n _. cbn -[history_of]. split; [|by intros o ?%elem_of_nil].
  intros a Ha. unfold history_of in *. apply elem_of_lookup_imap in Ha as (k & tr & -> & Hk).
  apply lookup_lt_Some in Hk. rewrite length_imap in Hlen. cbn. lia.
Qed.

(** Freshness of a computed world is a computation. *)
Definition ids_below (b : N) (T : tables) : bool :=
  forallb (λ a, (AuditEvent.id a <? b)%N) (t_audit T) &&
  forallb (λ o, (OutboxEvent.id o <? b)%N && (OutboxEvent.event_id o <? b)%N) (t_outbox T).

Lemma fresh_below w T : ids_below (100 + N.of_nat (drawn w)) T = true → fresh_ids w T.
Proof.
  unfold ids_below. rewrite andb_true_iff, !forallb_forall. intros [Ha Ho] n Hn. cbn. split.
  - intros a Hin. apply list_elem_of_In, Ha, N.ltb_lt in Hin. lia.
  - intros o Hin. apply list_elem_of_In, Ho, andb_true_iff in Hin. rewrite !N.ltb_lt in Hin. lia.
Qed.
