(* ===== verification/DispatcherFacts.v ===== *)
(** Dispatch keeps the audit trail in step with the stored status, leaves newer
    state alone, and settles every provider answer as documented. *)

From S2P Require Import Prelude PyData PyTime Enums Errors StateMachine ValueObjects Policies Entities RequestFacts.
From S2P Require Import Workflow Records Store Journal Ports Settlement Dispatcher Samples.

(** * Every transaction of a dispatch is journaled *)

Section Transactions.
Context `{Env} `{Platform}.

Lemma claim_for_dispatch_tx r actor caus : tx_ok r (claim_for_dispatch r actor caus).
Proof.
  unfold claim_for_dispatch. tx_step.
  eapply (tx_move (CBeginDispatch _) _ _ _ _
    (λ r, [("attempt", JInt (IntegrationRequest.attempt_count r))])). reflexivity.
Qed.

Lemma escalate_tx r reason actor md caus : tx_ok r (_escalate r reason actor md caus).
Proof. unfold _escalate. tx_go. Qed.
#[local] Hint Resolve escalate_tx : tx_db.

Lemma apply_acceptance_tx r res actor caus : tx_ok r (_apply_acceptance r res actor caus).
Proof. unfold _apply_acceptance. tx_go. Qed.

Lemma apply_failure_tx r res actor caus : tx_ok r (_apply_failure r res actor caus).
Proof. unfold _apply_failure. tx_go. Qed.

Lemma record_superseded_tx r res actor caus : tx_ok r (_record_superseded r res actor caus).
Proof. unfold _record_superseded. tx_go. Qed.
End Transactions.

#[export] Hint Resolve claim_for_dispatch_tx escalate_tx apply_acceptance_tx apply_failure_tx
  record_superseded_tx : tx_db.

(** A transaction that works on [r] and then commits. *)
Lemma journaling_tx_commit `{Env} r h :
  tx_ok r h → journaling_with r (let* r' := h in commit ;;; ret r').
Proof. intros Hh. apply journaling_tx; [done|]. intros r'. apply journaling_drop. uow_go. Qed.

Section Calm.
Context `{Env} `{P : Platform} {HP : PlatformOk P}.

Lemma validate_tx r actor :
  tx_ok r (if bool_decide (IntegrationRequest.status r = RequestStatus.RECEIVED) then
             let* t := now in
             let* (tr, r) := on r (IntegrationRequest.begin_validation t) in
             record_transition r tr AuditAction.REQUEST_VALIDATED actor [] None false ;;;
             ret r
           else ret r).
Proof. tx_go. Qed.

Lemma claim_calm i actor caus : calm (claim i actor caus).
Proof.
  apply calm_uow. uow_step; [eauto with calm_db|]. apply journaling_tx; [apply validate_tx|].
  intros r'. apply journaling_tx_commit, claim_for_dispatch_tx.
Qed.

(** The object the settle phase goes on with: the loaded one, with the provider
    request the adapter reported. *)
Lemma wp_payload r res (K : unit * IntegrationRequest.t → H IntegrationRequest.t)
    (Q : IntegrationRequest.t → World → Prop) X w :
  holds w r → wf r →
  (∀ r1, holds w r1 → wf r1 → IntegrationRequest.id r1 = IntegrationRequest.id r →
     wp (K (tt, r1)) Q X w) →
  wp (bind (match dict_get PROVIDER_REQUEST_METADATA_KEY (res_raw_response_metadata res) with
            | Some (JObj p) => on r (IntegrationRequest.record_provider_payload p)
            | _ => ret (tt, r)
            end) K) Q X w.
Proof.
  intros Hh Hwf HK. wp_step. destruct (dict_get _ _) as [[| | | | | |o]|]; try by apply HK.
  apply HK; [exact Hh|by destruct Hwf|done].
Qed.

Lemma outcome_tx r res actor caus :
  tx_ok r (if res_accepted res then _apply_acceptance r res actor caus
           else _apply_failure r res actor caus).
Proof. destruct (res_accepted res); [apply apply_acceptance_tx|apply apply_failure_tx]. Qed.

Lemma settle_calm i res actor caus : calm (settle i res actor caus).
Proof.
  apply calm_uow. uow_step; [eauto with calm_db|].
  destruct (negb _); [apply journaling_tx_commit, record_superseded_tx|].
  intros w Hin Hh Hwf. apply (wp_payload r); [done|done|]. intros r1 Hh1 Hwf1 _.
  exact (journaling_tx_commit r1 _ (outcome_tx _ _ _ _) w Hin Hh1 Hwf1).
Qed.

(** The transactions return the request they were asked about. *)
Definition returns {A} (m : H A) (Post : A → Prop) : Prop :=
  ∀ w, Journaled (db w) → wp m (λ a _, Post a) (λ _ _, True) w.

Lemma wp_tx_commit_id r h w :
  tx_ok r h → inside w → holds w r → wf r →
  wp (let* r' := h in commit ;;; ret r')
     (λ r' _, IntegrationRequest.id r' = IntegrationRequest.id r) (λ _ _, True) w.
Proof.
  intros Hh Hin Hho Hwf. wp_step. eapply wp_conseq; [by apply Hh| |done].
  intros r' w' (Hin' & _ & _ & Hid & _). wp_step. apply wp_commit; [done| |done].
  intros w'' _ _ _ _. apply Hid.
Qed.

Lemma settle_returns i res actor caus :
  returns (settle i res actor caus) (λ r, IntegrationRequest.id r = i).
Proof.
  intros w HJ. apply wp_with_uow. wp_step.
  apply wp_get_for_update; [by split_and!|done|]. intros r w' <- Hwf Hw Hh.
  assert (inside w') as Hin by (eapply same_tables_inside; [done|by split_and!]).
  destruct (negb _); [by apply wp_tx_commit_id; [apply record_superseded_tx|..]|].
  apply (wp_payload r); [done|done|]. intros r1 Hh1 Hwf1 <-.
  by apply wp_tx_commit_id; [apply outcome_tx|..].
Qed.

(** A settle transaction that raises has committed nothing. *)
Lemma wp_tx_commit_raises r h w :
  tx_ok r h → inside w → holds w r → wf r →
  wp (let* r' := h in commit ;;; ret r') (λ _ _, True) (λ _ w', db w' = db w) w.
Proof.
  intros Hh Hin Hho Hwf. wp_step. eapply wp_conseq; [by apply Hh| |done].
  intros r' w' (Hin' & _ & _ & _ & Hdb). wp_step. apply wp_commit; [done|done|].
  intros e w'' _ Hc. by rewrite Hc, Hdb.
Qed.

Lemma settle_raises i res actor caus w e w' :
  Journaled (db w) → settle i res actor caus w = (Raise e, w') → db w' = db w.
Proof.
  intros HJ Hrun. assert (wp (settle i res actor caus) (λ _ _, True) (λ _ w', db w' = db w) w) as Hw.
  { apply wp_with_uow. wp_step. apply wp_get_for_update; [by split_and!|done|].
    intros r w1 <- Hwf Hw1 Hh. assert (inside w1) as Hin by (eapply same_tables_inside; [done|by split_and!]).
    destruct Hw1 as [Hdb _]. cbn in Hdb. destruct (negb _).
    - eapply wp_conseq; [by apply (wp_tx_commit_raises r); [apply record_superseded_tx|..]|done|].
      intros e' w2 H2. cbn. by rewrite H2, Hdb.
    - apply (wp_payload r); [done|done|]. intros r1 Hh1 Hwf1 _.
      eapply wp_conseq; [by apply (wp_tx_commit_raises r1); [apply outcome_tx|..]|done|].
      intros e' w2 H2. cbn. by rewrite H2, Hdb. }
  unfold wp in Hw. by rewrite Hrun in Hw.
Qed.

Lemma claim_returns i actor caus :
  returns (claim i actor caus) (λ r, IntegrationRequest.id r = i).
Proof.
  intros w HJ. apply wp_with_uow. wp_step.
  apply wp_get_for_update; [by split_and!|done|]. intros r w' <- Hwf Hw Hh.
  assert (inside w') as Hin by (eapply same_tables_inside; [done|by split_and!]).
  wp_step. eapply wp_conseq; [apply validate_tx; done| |done].
  intros r1 w1 (Hin1 & Hh1 & Hwf1 & Hid1 & _). destruct Hid1 as [<- _].
  by apply wp_tx_commit_id; [apply claim_for_dispatch_tx|..].
Qed.

Lemma call_provider_calm r : calm (_call_provider r).
Proof.
  unfold _call_provider. calm_step. calm_step; [eauto with calm_db|].
  apply calm_try; [by eapply create_calm|]. intros [] k; try done.
  destruct (ErrorClass.subclass _ _); [intros [= <-]; apply calm_ret|].
  destruct (ErrorClass.subclass _ _); [intros [= <-]; apply calm_ret|done].
Qed.

Lemma complete_attempt_calm r actor caus : calm (complete_attempt r actor caus).
Proof. apply calm_bind; [apply call_provider_calm|]. intros res. apply settle_calm. Qed.

(** The hook is another handler; its exceptions are swallowed. *)
Definition calm_hook (hook : option (UUID → H unit)) : Prop :=
  ∀ f i, hook = Some f → calm (f i).

Lemma notify_calm hook r : calm_hook hook → calm (_notify_terminal hook r).
Proof.
  intros Hh. unfold _notify_terminal. destruct hook as [f|] eqn:Hf; [|eauto with calm_db].
  destruct (negb _); [eauto with calm_db|]. apply calm_try; [by eapply Hh|].
  intros e k [= <-]. apply calm_ret.
Qed.

Lemma dispatch_calm hook i actor caus : calm_hook hook → calm (dispatch hook i actor caus).
Proof.
  intros Hh. apply calm_bind; [apply claim_calm|]. intros r.
  apply calm_bind; [apply complete_attempt_calm|]. intros r'.
  apply calm_bind; [by apply notify_calm|]. intros _. apply calm_ret.
Qed.

Lemma dispatch_returns hook i actor caus : calm_hook hook →
  returns (dispatch hook i actor caus) (λ r, IntegrationRequest.id r = i).
Proof.
  intros Hh w HJ. unfold dispatch, complete_attempt. wp_step.
  eapply wp_conseq; [apply wp_and; [by apply claim_calm|by apply claim_returns]| |done].
  intros r w1 [[[HJ1 _] _] <-]. wp_step. wp_step.
  eapply wp_conseq; [by apply call_provider_calm| |done]. intros res w2 [[HJ2 _] _].
  eapply wp_conseq; [apply wp_and; [by apply settle_calm|by apply settle_returns]| |done].
  intros r' w3 [[[HJ3 _] _] Hid]. wp_step.
  eapply wp_conseq; [by apply notify_calm|done|done].
Qed.
End Calm.
#[export] Hint Resolve claim_calm settle_calm complete_attempt_calm notify_calm dispatch_calm : calm_db.

(** * What an answer means *)

(** The documented meaning of a provider's answer for a request that is being
    dispatched, [attempts] attempts having been made. *)
Definition settled_status (p : RetryPolicy.t) (attempts : Z) (res : ProviderOperationResult) :
    RequestStatus.t :=
  match res_error res with
  | None =>
      match res_normalized_status res with
      | NormalizedStatus.SUCCEEDED => RequestStatus.SUCCEEDED
      | NormalizedStatus.ACCEPTED | NormalizedStatus.PENDING =>
          if truthy_opt (res_provider_reference res) then RequestStatus.PENDING
          else RequestStatus.MANUAL_REVIEW
      | NormalizedStatus.CANCELLED => RequestStatus.CANCELLED
      | NormalizedStatus.FAILED | NormalizedStatus.UNKNOWN => RequestStatus.MANUAL_REVIEW
      end
  | Some err =>
      if negb (ei_retryable err) then RequestStatus.FAILED
      else if attempts <? RetryPolicy.max_attempts p then RequestStatus.RETRY_SCHEDULED
      else match ei_category err with
           | ErrorCategory.PROVIDER_TIMEOUT => RequestStatus.MANUAL_REVIEW
           | _ => RequestStatus.FAILED
           end
  end.

Section Settle.
Context `{Env} `{Platform} {HE : EnvOk _}.

Lemma escalate_settles r reason actor md caus ref :
  IntegrationRequest.status r = RequestStatus.DISPATCHING →
  settles r RequestStatus.MANUAL_REVIEW ref (_escalate r reason actor md caus).
Proof.
  intros Hs. unfold _escalate. apply settles_now. intros t Ht.
  apply (settles_move _ _ _ _ _ _ (λ _, _)). apply moves_review; [by rewrite Hs|done].
Qed.

Lemma acceptance_settles p r res actor caus :
  IntegrationRequest.status r = RequestStatus.DISPATCHING → res_error res = None →
  settles r (settled_status p (IntegrationRequest.attempt_count r) res) (res_provider_reference res)
    (_apply_acceptance r res actor caus).
Proof.
  intros Hs He. unfold _apply_acceptance, settled_status. rewrite He.
  apply settles_now. intros t Ht. cbn zeta.
  destruct (res_normalized_status res); try by apply escalate_settles.
  - destruct (truthy_opt _) eqn:Hr; cbn [negb]; [|by apply escalate_settles].
    apply truthy_opt_true in Hr as (ref & -> & Href). cbn [default].
    apply (settles_move _ _ _ _ _ _ (λ _, _)), moves_accepted; [by rewrite Hs|done|]. by apply Str.truthy_true.
  - destruct (truthy_opt _) eqn:Hr; cbn [negb]; [|by apply escalate_settles].
    apply truthy_opt_true in Hr as (ref & -> & Href). cbn [default].
    apply (settles_move _ _ _ _ _ _ (λ _, _)), moves_accepted; [by rewrite Hs|done|]. by apply Str.truthy_true.
  - apply (settles_move _ _ _ _ _ _ (λ _, _)), moves_succeeded; [by rewrite Hs|done..].
  - apply (settles_move _ _ _ _ _ _ (λ _, _)), moves_cancelled; [by rewrite Hs|done..].
Qed.

Lemma failure_settles p r res err actor caus :
  IntegrationRequest.status r = RequestStatus.DISPATCHING → res_error res = Some err →
  retry_policies !! IntegrationRequest.provider r = Some p → RetryPolicy.valid p →
  (0 < RetryPolicy.retry_after_cap_seconds p)%Q → 1 ≤ IntegrationRequest.attempt_count r →
  settles r (settled_status p (IntegrationRequest.attempt_count r) res) (res_provider_reference res)
    (_apply_failure r res actor caus).
Proof.
  intros Hs He Hpol Hval Hcap Hatt. unfold _apply_failure, settled_status. rewrite He.
  change (default unreported_error (Some err)) with err.
  apply settles_now. intros t Ht.
  eapply settles_lift; [unfold retry_policy; by rewrite Hpol|]. cbn zeta.
  unfold RetryPolicy.should_retry, RetryPolicy.has_attempts_remaining.
  destruct (ei_retryable err); cbn [andb negb].
  - destruct (_ <? _); cbn [negb andb].
    + apply settles_jitter. intros j Hj.
      destruct (RetryFacts.delay_within p _ j (ei_retry_after_seconds err) Hval Hatt Hj Hcap)
        as (d & Hd & _).
      eapply settles_lift; [unfold RetryPolicy.next_retry_at; by rewrite Hd|].
      apply (settles_move _ _ _ _ _ _ (λ _, _)), moves_retry; [by rewrite Hs|done..].
    + case_bool_decide as Hc; [rewrite Hc; by apply escalate_settles|].
      assert (match ei_category err with
              | ErrorCategory.PROVIDER_TIMEOUT => RequestStatus.MANUAL_REVIEW
              | _ => RequestStatus.FAILED end = RequestStatus.FAILED) as ->
        by (by destruct (ei_category err)).
      apply (settles_move _ _ _ _ _ _ (λ _, _)), moves_failed; [by rewrite Hs|done..].
  - apply (settles_move _ _ _ _ _ _ (λ _, _)), moves_failed; [by rewrite Hs|done..].
Qed.

(** A late answer: a row without a reference gains the provider's, with the time
    and the version of that write, and every other column stays; one audit row that
    records no status change is added, and nothing else happens. *)
Definition late_object (t : datetime) (r : IntegrationRequest.t) (ref : option string) : IntegrationRequest.t :=
  if truthy_opt ref && negb (truthy_opt (IntegrationRequest.provider_reference r))
  then r <| IntegrationRequest.provider_reference := ref |> <| IntegrationRequest.updated_at := t |>
         <| IntegrationRequest.version ::= (λ v, v + 1) |>
  else r.
Definition superseded_commit (t : datetime) (i : UUID) (row : IntegrationRequest.t) (ref : option string)
    (T T' : tables) : Prop :=
  ∃ row' a, T' = T <| t_requests := <[i := row']> (t_requests T) |> <| t_audit := t_audit T ++ [a] |> ∧
    request_to_domain row' = late_object (as_utc t) (request_to_domain row) ref ∧
    AuditEvent.action a = AuditAction.STATE_RECONCILED ∧ silent a.

Definition late_row (t : datetime) (row : IntegrationRequest.t) (ref : option string) : IntegrationRequest.t :=
  if truthy_opt ref && negb (truthy_opt (IntegrationRequest.provider_reference row))
  then request_update_values (late_object t (request_to_domain row) ref) row else row.
Lemma as_utc_again (o : option datetime) : as_utc <$> (as_utc <$> o) = as_utc <$> o.
Proof. destruct o as [d|]; [|done]. cbn. unfold as_utc. by rewrite instant_utc. Qed.
Lemma late_row_read t row ref :
  request_to_domain (late_row t row ref) = late_object (as_utc t) (request_to_domain row) ref.
Proof.
  unfold late_row, late_object, request_to_domain, request_update_values.
  destruct row; cbn. destruct (_ && _); [|done]. cbn. by rewrite !as_utc_again.
Qed.

(** The effect of [_record_superseded] on the session. *)
Lemma superseded_session row res actor caus w :
  ready w (request_to_domain row) row (res_provider_reference res) →
  wp (_record_superseded (request_to_domain row) res actor caus)
     (λ r' w', IntegrationRequest.status r' = IntegrationRequest.status row ∧ db w' = db w ∧
        ∃ a, working (sess w') = (working (sess w)) <| t_requests ::=
            insert (IntegrationRequest.id row) (late_row (clock_at (ticks w)) row (res_provider_reference res)) |> ∧
          pending (sess w') = pending (sess w) ++ [NewAudit a] ∧
          AuditEvent.id a = uuid_at (drawn w) ∧
          AuditEvent.action a = AuditAction.STATE_RECONCILED ∧ silent a)
     (λ _ _, False) w.
Proof.
  intros (Hrow & Hver & Hown & Href). unfold _record_superseded, late_row, late_object.
  change (IntegrationRequest.provider_reference (request_to_domain row)) with (IntegrationRequest.provider_reference row).
  wp_step. destruct (truthy_opt _ && negb _) eqn:Hb.
  - apply andb_true_iff in Hb as [(ref & Hrefeq & Hne)%truthy_opt_true Hno%negb_true_iff].
    rewrite Hrefeq in *. change (default "" (Some ref)) with ref. wp_step. unfold now at 1. unfold wp at 1. wp_step. apply wp_on.
    apply Str.truthy_true in Hne. unfold IntegrationRequest.attach_provider_reference, IntegrationRequest.touch.
    rewrite Hne. cbn [negb]. wp_step. wp_step.
    change (IntegrationRequest.provider_reference (request_to_domain row)) with (IntegrationRequest.provider_reference row).
    rewrite Hno. cbn [andb]. wp_step. wp_step. wp_step. wp_step.
    rewrite require_aware_ok by apply clock_aware. wp_step. cbn. wp_step.
    unfold Requests.update. wp_step. wp_step. cbn. cbn in Hrow, Hver, Href. rewrite Hrow, Hver. cbn [default].
    rewrite Z.eqb_refl, Href. unfold modify_working, modify_session, Requests.track. wp_step. wp_step.
    unfold modify_session. wp_go. apply wp_action_total.
    intros a w' Hdb Hw Hp Hid Hac Hsil. wp_step. cbn. split_and!; [done|done|].
    exists a. split_and!; [exact Hw|done..].
  - wp_step. wp_step. apply wp_action_total.
    intros a w' Hdb Hw Hp Hid Hac Hsil. wp_step. split_and!; [done|done|].
    exists a. split_and!; try done. rewrite Hw. destruct (working (sess w)) as [rq ? ? ? ? ? ?].
    cbn in *. f_equal. symmetry. by apply insert_id.
Qed.

(** The object the settle phase works on: the loaded row, with the provider
    request the adapter reported. *)
Definition row_with_payload (row r : IntegrationRequest.t) : IntegrationRequest.t :=
  (request_to_domain row) <| IntegrationRequest.provider_payload :=
    IntegrationRequest.provider_payload r |>.

Lemma settled_not_dispatching p n res : settled_status p n res ≠ RequestStatus.DISPATCHING.
Proof.
  unfold settled_status. destruct (res_error res) as [err|].
  - destruct (negb _); [done|]. destruct (_ <? _); [done|]. by destruct (ei_category err).
  - destruct (res_normalized_status res); try done; by destruct (truthy_opt _).
Qed.
End Settle.

(** * Theorems *)

Module DispatcherTheorems.

(** C13. Settling means what the policy says, or changes nothing. Take a request
    stored as DISPATCHING, a result a gateway can build and a valid retry policy of
    its provider with a positive Retry-After cap. If settling raises, nothing was
    committed: the request stays DISPATCHING, with neither audit row nor event. And
    it does not raise when the identifiers drawn are new and neither the request's
    own provider reference nor the reported one belongs to another request of the
    provider (the database refuses a reference that does): then it returns and
    commits, the stored status is exactly [settled_status] (success, asynchronous
    acceptance, cancellation, retry within the attempt bound, failure, or manual
    review for an acceptance without a reference, an unknown status and an exhausted
    ambiguous timeout), no other request is written, and the same commit adds
    exactly one audit row DISPATCHING -> that status and one unpublished outbox
    event of the matching type for this request. *)
Theorem settle_refines_policy `{Env} `{Platform} {HE : EnvOk _} (w : World) (i : UUID)
    (row : IntegrationRequest.t) (p : RetryPolicy.t) (res : ProviderOperationResult)
    (actor : Actor) (caus : option string) :
  Journaled (db w) → t_requests (db w) !! i = Some row →
  IntegrationRequest.status row = RequestStatus.DISPATCHING → result_make res = Ret res →
  retry_policies !! IntegrationRequest.provider row = Some p → RetryPolicy.valid p →
  (0 < RetryPolicy.retry_after_cap_seconds p)%Q →
  let S := settled_status p (IntegrationRequest.attempt_count row) res in
  (∀ e w', settle i res actor caus w = (Raise e, w') → db w' = db w) ∧
  (fresh_ids w (db w) →
   reference_taken (db w) i (IntegrationRequest.provider row)
     (IntegrationRequest.provider_reference row) = false →
   reference_taken (db w) i (IntegrationRequest.provider row) (res_provider_reference res) = false →
   ∃ r' w', settle i res actor caus w = (Ret r', w') ∧
     IntegrationRequest.status r' = S ∧ settled_commit i RequestStatus.DISPATCHING S (db w) (db w')).
Proof.
  intros HJ Hrow Hst Hres Hpol Hval Hcap S. split; [intros e w'; by apply settle_raises|]. intros Hfresh Hown Href.
  pose proof (HJ i) as Hi. rewrite Hrow in Hi. destruct Hi as (Hid & Hwf & _).
  assert (1 ≤ IntegrationRequest.attempt_count row) as Hatt.
  { destruct Hwf as [_ _ _ _ Hok]. unfold status_ok in Hok. rewrite Hst in Hok. by destruct Hok. }
  assert (wp (settle i res actor caus) (λ r' w', IntegrationRequest.status r' = S ∧
            settled_commit i RequestStatus.DISPATCHING S (db w) (db w')) (λ _ _, False) w) as Hrun.
  { apply wp_with_uow. wp_step. eapply (wp_load_row i row); [done|].
    change (IntegrationRequest.status (request_to_domain row)) with (IntegrationRequest.status row).
    rewrite Hst, bool_decide_true by done. cbn [negb]. wp_step.
    eapply (wp_conseq _ (λ x w', x.2 = row_with_payload row x.2 ∧ w' = loaded w row) _ (λ _ _, False));
      [by destruct (dict_get _ _) as [[| | | | | |o]|]| |done].
    intros [u current] w1 [Hcur ->]. cbn [snd] in Hcur.
    assert (IntegrationRequest.id current = i ∧
            IntegrationRequest.status current = RequestStatus.DISPATCHING ∧
            IntegrationRequest.provider current = IntegrationRequest.provider row ∧
            IntegrationRequest.attempt_count current = IntegrationRequest.attempt_count row ∧
            IntegrationRequest.provider_reference current = IntegrationRequest.provider_reference row)
      as (Hci & Hcs & Hcp & Hca & Hcr) by (rewrite Hcur; unfold row_with_payload; cbn; by split_and!).
    eapply (settles_commit current S (res_provider_reference res) _ _ row); try done.
    - unfold result_make in Hres. unfold S. rewrite <- Hca. destruct (res_accepted res) eqn:Hacc.
      + apply acceptance_settles; [done|]. by destruct (res_error res).
      + destruct (res_error res) as [err|] eqn:Herr; [|done].
        eapply failure_settles; try done; [by rewrite Hcp|by rewrite Hca].
    - destruct (ready_loaded w row (res_provider_reference res)) as (? & ? & ? & ?);
        unfold free_reference; rewrite ?Hid; try done. unfold ready. rewrite Hci, Hcr, <- Hid. by split_and!.
    - rewrite Hcs. intros Heq. by eapply settled_not_dispatching.
    - intros r' w' Hs' Hc _. wp_step. split; [done|]. cbn in Hc. by rewrite Hci, Hcs in Hc. }
  unfold wp in Hrun. destruct (settle i res actor caus w) as [[r'|e] w']; [|done]. by eexists _, _.
Qed.

Lemma settle_refines_policy_witness :
  let w := world_after dispatching_calls in
  ∃ r' w', @settle sample_env (sample_platform timeout_result) 7 timeout_result actor_system None w =
      (Ret r', w') ∧
    IntegrationRequest.status r' = RequestStatus.RETRY_SCHEDULED ∧
    settled_commit 7 RequestStatus.DISPATCHING RequestStatus.RETRY_SCHEDULED (db w) (db w').
Proof.
  refine (proj2 (@settle_refines_policy sample_env (sample_platform timeout_result) sample_env_ok
    (world_after dispatching_calls) 7 (request_after dispatching_calls) sample_policy timeout_result
    actor_system None _ _ _ _ _ _ _) _ _ _).
  - apply tables_after_journaled; [reflexivity|]. vm_compute. tauto.
  - reflexivity.
  - reflexivity.
  - reflexivity.
  - reflexivity.
  - exact sample_policy_valid.
  - reflexivity.
  - apply sample_fresh. vm_compute. lia.
  - reflexivity.
  - reflexivity.
Defined.

(** The answer names a reference that another request of the provider holds: the
    transaction fails on the unique key and the request stays DISPATCHING. *)
Definition reference_held : World :=
  (world_after dispatching_calls) <| db ::= (λ T, T <| t_requests ::=
    insert 8%N ((request_after dispatching_calls) <| IntegrationRequest.id := 8%N |>
                  <| IntegrationRequest.provider_reference := Some "op-9" |>) |>) |>.
Example settle_reference_held :
  let run := @settle sample_env (sample_platform accepted_result) 7 accepted_result actor_system None reference_held in
  run.1 = Raise (EOther "IntegrityError: uq_integration_requests_provider_provider_reference") ∧ db run.2 = db reference_held.
Proof. vm_compute. done. Qed.

(** C14. Newer state wins. If, by the time the provider answers, the stored request is
    no longer DISPATCHING (a webhook, an operator or the reconciler settled it),
    then whatever the answer was: if settling raises, nothing was committed; and
    when the identifiers drawn are new and neither the request's own provider
    reference nor the reported one belongs to another request of the provider, it
    returns and commits, and read back the request is what it was, except that a row
    without a reference gains the reported one (with the time and the next version
    number of that write). One audit row that records no status change is added; the
    outbox and every other row of every table stay as they were. *)
Theorem settle_leaves_newer_state `{Env} `{Platform} {HE : EnvOk _} (w : World) (i : UUID)
    (row : IntegrationRequest.t) (res : ProviderOperationResult) (actor : Actor)
    (caus : option string) :
  Journaled (db w) → t_requests (db w) !! i = Some row →
  IntegrationRequest.status row ≠ RequestStatus.DISPATCHING →
  (∀ e w', settle i res actor caus w = (Raise e, w') → db w' = db w) ∧
  (fresh_ids w (db w) →
   reference_taken (db w) i (IntegrationRequest.provider row)
     (IntegrationRequest.provider_reference row) = false →
   reference_taken (db w) i (IntegrationRequest.provider row) (res_provider_reference res) = false →
   ∃ r' w', settle i res actor caus w = (Ret r', w') ∧
     IntegrationRequest.status r' = IntegrationRequest.status row ∧
     superseded_commit (clock_at (ticks w)) i row (res_provider_reference res) (db w) (db w')).
Proof.
  intros HJ Hrow Hst. split; [intros e w'; by apply settle_raises|]. intros Hfresh Hown Href.
  pose proof (HJ i) as Hi. rewrite Hrow in Hi. destruct Hi as (Hid & Hwf & _).
  assert (wp (settle i res actor caus) (λ r' w',
    IntegrationRequest.status r' = IntegrationRequest.status row ∧
    superseded_commit (clock_at (ticks w)) i row (res_provider_reference res) (db w) (db w')) (λ _ _, False) w) as Hrun.
  { apply wp_with_uow. wp_step. eapply (wp_load_row i row); [done|].
    change (IntegrationRequest.status (request_to_domain row)) with (IntegrationRequest.status row).
    rewrite bool_decide_false by done. cbn [negb]. wp_step. eapply wp_conseq;
      [apply (superseded_session row _ _ _ (loaded w row))| |done].
    - apply ready_loaded; unfold free_reference; by rewrite ?Hid.
    - rewrite Hid. intros r' w1 (Hs & Hdb & a & Hw & Hp & Haid & Hact & Hsil).
      cbn in Hw, Hp, Haid. wp_step. eapply wp_commit_note; [done|rewrite Hw, Haid; intros x Hx; by apply (Hfresh (drawn w))|].
      intros w' Hdb'. wp_step. split; [done|].
      eexists (late_row (clock_at (ticks w)) row (res_provider_reference res)), a. cbn. rewrite Hdb', Hw.
      split_and!; try done. apply late_row_read. }
  unfold wp in Hrun. destruct (settle i res actor caus w) as [[r'|e] w']; [|done]. by eexists _, _.
Qed.

Lemma settle_leaves_newer_state_witness :
  let w := world_after succeeded_calls in
  ∃ r' w', @settle sample_env (sample_platform timeout_result) 7 timeout_result actor_system None w =
      (Ret r', w') ∧
    IntegrationRequest.status r' = RequestStatus.SUCCEEDED ∧
    superseded_commit (clock_at (ticks w)) 7 (request_after succeeded_calls) None (db w) (db w').
Proof.
  refine (proj2 (@settle_leaves_newer_state sample_env (sample_platform timeout_result) sample_env_ok
    (world_after succeeded_calls) 7 (request_after succeeded_calls) timeout_result actor_system None _ _ _) _ _ _).
  - apply tables_after_journaled; [reflexivity|]. vm_compute. tauto.
  - reflexivity.
  - discriminate.
  - apply sample_fresh. vm_compute. lia.
  - reflexivity.
  - reflexivity.
Defined.
End DispatcherTheorems.
