(* ===== verification/CreateRequest.v ===== *)
(** Creating a request ([application/use_cases/create_request.py]): idempotent
    replay, the insert race, and dispatch after the request is durable. *)

From S2P Require Import Prelude PyData PyTime Enums Errors StateMachine ValueObjects Policies Entities RequestFacts.
From S2P Require Import Workflow Records Store Journal Ports Dispatcher Samples DispatcherFacts.

Record CreateIntegrationRequestCommand := mk_create_command {
  cr_provider : string;
  cr_operation_type : OperationType.t;
  cr_external_reference : string;
  cr_payload : dict;
  cr_correlation_id : string;
  cr_actor : Actor;
  cr_idempotency_key : option string;
}.

Record CreateIntegrationRequestResult := mk_create_result {
  cres_request : IntegrationRequest.t;
  cres_replayed : bool;
}.
Definition http_status (r : CreateIntegrationRequestResult) : Z :=
  if cres_replayed r then 200 else 201.

(** [sorted(values)] on strings. *)
Definition sorted_strings (l : list string) : list string := merge_sort stdpp.strings.String.le l.

Module CreateRequest.
Section UseCase.
Context `{Env} `{Platform}.
Context (float_repr : Q → string) (on_terminal : option (UUID → H unit)).

Definition _validate_provider_support (c : CreateIntegrationRequestCommand) : outcome exn unit :=
  match gateways !! cr_provider c with
  | None => Raise (ProviderNotConfiguredError (cr_provider c) (Some (cr_correlation_id c)))
  | Some g =>
      let d := g_descriptor g in
      if negb (supports d (cr_operation_type c)) then
        Raise (UnsupportedOperationError
          ("provider '" +:+ cr_provider c +:+ "' does not support the operation '" +:+
           value (cr_operation_type c) +:+ "'")
          (Some (cr_provider c)) (Some (cr_correlation_id c))
          [("supported_operations",
            JList (JStr <$> sorted_strings (value <$> d_supported_operations d)))])
      else Ret tt
  end.

Definition _replay_if_seen (key fingerprint : string) :
    H (option CreateIntegrationRequestResult) :=
  let* record := Idempotency.get key in
  match record with
  | None => ret None
  | Some rec =>
      if negb (IdempotencyRecord.matches rec fingerprint) then
        raise (error ErrorClass.IdempotencyConflictError
          "this idempotency key was already used with a different request body"
          (no_kwargs <| k_metadata := [("idempotency_key", JStr key)] |>))
      else
        let* request := Requests.get (IdempotencyRecord.request_id rec) in
        match request with
        | None => raise (error ErrorClass.NotFoundError
            "the request referenced by this idempotency key no longer exists"
            (no_kwargs <| k_metadata := [("idempotency_key", JStr key)] |>))
        | Some r => ret (Some (mk_create_result r true))
        end
  end.

Definition _replay_after_race (key fingerprint : string) : H CreateIntegrationRequestResult :=
  with_uow (
    let* replay := _replay_if_seen key fingerprint in
    match replay with
    | None => raise (error ErrorClass.ConflictError
        "a concurrent request is still being created; retry shortly"
        (no_kwargs <| k_metadata := [("idempotency_key", JStr key)] |>))
    | Some res => ret res
    end).

(** [try: await uow.flush() except ConflictError: rollback, then h] *)
Definition flush_or {A} (h : exn → H A) (k : H A) : H A :=
  let* o := try_except (flush ;;; ret None) (λ e,
    if isinstance e ErrorClass.ConflictError then Some (rollback ;;; ret (Some e)) else None) in
  match o with
  | Some e => h e
  | None => k
  end.

(** [_persist_new_request] from the insertion of the new object on. *)
Definition persist_rows (c : CreateIntegrationRequestCommand) (fingerprint : string)
    (t : datetime) (request : IntegrationRequest.t) : H (option IntegrationRequest.t) :=
  Requests.add request ;;;
  let finish : H (option IntegrationRequest.t) :=
    flush_or (λ e, match cr_idempotency_key c with
                   | None => raise e
                   | Some _ => ret None
                   end) (
      record_creation request (cr_actor c)
        [("operation_type", JStr (value (IntegrationRequest.operation_type request)));
         ("external_reference", JStr (IntegrationRequest.external_reference request));
         ("idempotent", JBool (bool_decide (is_Some (cr_idempotency_key c))))] ;;;
      record_request_action request AuditAction.PROVIDER_SELECTED actor_system
        [("provider", JStr (IntegrationRequest.provider request))] ;;;
      ret (Some request)) in
  match cr_idempotency_key c with
  | None => finish
  | Some key =>
      flush_or (λ _, ret None) (
        let* rec := lift (IdempotencyRecord.make
          {| IdempotencyRecord.key := key; IdempotencyRecord.fingerprint := fingerprint;
             IdempotencyRecord.request_id := IntegrationRequest.id request;
             IdempotencyRecord.response_status := 201; IdempotencyRecord.created_at := t;
             IdempotencyRecord.expires_at := None |}) in
        Idempotency.add rec ;;;
        finish)
  end.

Definition _persist_new_request (c : CreateIntegrationRequestCommand) (fingerprint : string) :
    H (option IntegrationRequest.t) :=
  let* t := now in
  let* i := new_id in
  let* request := lift (IntegrationRequest.create i (cr_provider c) (cr_operation_type c)
    (cr_external_reference c) (cr_payload c) (cr_correlation_id c) t (cr_idempotency_key c)
    (actor_id (cr_actor c))) in
  persist_rows c fingerprint t request.

(** The unit of work of [execute]: a replayed result, or the new request. *)
Definition create_or_replay (c : CreateIntegrationRequestCommand) (fingerprint : string) :
    H (CreateIntegrationRequestResult + IntegrationRequest.t) :=
  with_uow (
    let* replay :=
      match cr_idempotency_key c with
      | None => ret None
      | Some key => _replay_if_seen key fingerprint
      end in
    match replay with
    | Some res => ret (inl res)
    | None =>
        let* request := _persist_new_request c fingerprint in
        match request with
        | None =>
            let* res := _replay_after_race (default "" (cr_idempotency_key c)) fingerprint in
            ret (inl res)
        | Some request =>
            commit ;;;
            ret (inr request)
        end
    end).

Definition execute (c : CreateIntegrationRequestCommand) : H CreateIntegrationRequestResult :=
  lift (_validate_provider_support c) ;;;
  let* fingerprint := lift (fingerprint_of float_repr (cr_provider c) (value (cr_operation_type c))
                              (cr_external_reference c) (cr_payload c)) in
  let* answer := create_or_replay c fingerprint in
  match answer with
  | inl res => ret res
  | inr request =>
      let* dispatched := dispatch on_terminal (IntegrationRequest.id request) (cr_actor c) None in
      ret (mk_create_result dispatched false)
  end.
End UseCase.
End CreateRequest.

(** * Inserted rows *)

Lemma insert_all_request T l T' r :
  insert_all T l = inr T' → NewRequest r ∈ l → t_requests T' !! IntegrationRequest.id r = Some r.
Proof.
  revert T. induction l as [|n l IH]; intros T; cbn; [by intros _ ?%elem_of_nil|].
  destruct (violated T n) eqn:Hv; [done|]. intros Hi [<- |Hl]%elem_of_cons; [|by eapply IH].
  apply insert_all_virtual in Hi as ->. apply (virtual_lookup (mk_session _ l ∅)). cbn.
  unfold insert_absent. cbn in Hv. case_bool_decide as Hs; [done|].
  destruct (t_requests T !! _) eqn:Hr; [by destruct Hs|]. by rewrite lookup_insert_eq.
Qed.

(** A commit of the session [s] keeps the claims its transaction has read. *)
Lemma virtual_idempotency s : t_idempotency (working s) ⊆ t_idempotency (virtual s).
Proof.
  unfold virtual. generalize (working s) as T. induction (pending s) as [|n l IH]; intros T; [done|].
  cbn. etrans; [|apply IH]. destruct n; try done. apply insert_absent_subseteq.
Qed.

Lemma insert_all_claim T l T' i :
  insert_all T l = inr T' → NewIdempotency i ∈ l →
  t_idempotency T' !! IdempotencyRecord.key i = Some i.
Proof.
  revert T. induction l as [|n l IH]; intros T; cbn; [by intros _ ?%elem_of_nil|].
  destruct (violated T n) eqn:Hv; [done|]. intros Hi [<- |Hl]%elem_of_cons; [|by eapply IH].
  apply insert_all_virtual in Hi as ->.
  eapply lookup_weaken; [|exact (virtual_idempotency (mk_session _ l ∅))].
  cbn. unfold insert_absent. cbn in Hv. case_bool_decide as Hs; [done|].
  destruct (t_idempotency T !! _) eqn:Hr; [by destruct Hs|]. by rewrite lookup_insert_eq.
Qed.

(** * Claims *)

(** The key [k] is bound to the body with fingerprint [fp] and to request [i],
    which is stored. *)
Definition claimed (T : tables) (k fp : string) (i : UUID) : Prop :=
  ∃ rec, t_idempotency T !! k = Some rec ∧ IdempotencyRecord.fingerprint rec = fp ∧
    IdempotencyRecord.request_id rec = i ∧ is_Some (t_requests T !! i).

Lemma claimed_grows T T' k fp i : grows T T' → claimed T k fp i → claimed T' k fp i.
Proof.
  intros Hg (rec & Hrec & Hfp & Hi & r & Hr). exists rec. split_and!; [|done|done|].
  - by eapply lookup_weaken; [|apply grows_idempotency].
  - apply (grows_requests _ _ Hg) in Hr as (r' & ? & _). eauto.
Qed.

Lemma claimed_virtual s k fp i : claimed (working s) k fp i → claimed (virtual s) k fp i.
Proof.
  intros (rec & Hrec & Hfp & Hi & r & Hr). exists rec. split_and!; [|done|done|].
  - eapply lookup_weaken; [done|apply virtual_idempotency].
  - exists r. by apply virtual_lookup.
Qed.

Section CreateFacts.
Context `{Env} `{P : Platform}.
Import CreateRequest.

Lemma replay_read_only k fp : read_only (_replay_if_seen k fp).
Proof. unfold _replay_if_seen, Idempotency.get. ro_go. Qed.
Lemma race_read_only k fp : read_only (_replay_after_race k fp).
Proof. apply read_only_uow. pose proof replay_read_only. ro_go. Qed.

Lemma wf_new_request i p op er payload corr t key owner r :
  IntegrationRequest.create i p op er payload corr t key owner = Ret r →
  wf r ∧ IntegrationRequest.status r = RequestStatus.RECEIVED ∧ IntegrationRequest.id r = i.
Proof.
  intros Hc. split; [by eapply wf_create|]. unfold IntegrationRequest.create, IntegrationRequest.post_init in Hc.
  repeat (destruct (_require_aware _ _); [|done]). by injection Hc as <-.
Qed.

Lemma journaling_add_request r :
  wf r → IntegrationRequest.status r = RequestStatus.RECEIVED → journaling (Requests.add r).
Proof.
  intros Hwf Hs w Hin. unfold Requests.add. wp_step. apply wp_add_row.
  intros w1 Hdb1 Hw1 Hp1. unfold Requests.track, modify_session. wp_go.
  pose proof (virtual_snoc (sess w) (sess w1) _ Hw1 Hp1) as Hv.
  destruct Hin as (HJ & HV & Hg). split; [|by apply sound_db].
  unfold inside. change (virtual (sess _)) with (virtual (sess w1)).
  rewrite Hv. cbn [db set]. change (db _) with (db w1). rewrite Hdb1.
  split_and!; [done|by apply journaled_new_request|]. etrans; [exact Hg|by apply grows_insert].
Qed.

Lemma journaling_flush_or {A} (h : exn → H A) k :
  (∀ e, journaling (h e)) → journaling k → journaling (flush_or h k).
Proof.
  intros Hh Hk. unfold flush_or. apply journaling_bind.
  - apply journaling_try.
    + intros w Hin. wp_step. eapply wp_conseq; [by apply flush_inside|done|done].
    + intros e k'. destruct (isinstance _ _); [|done]. intros [= <-]. uow_go.
  - intros [e|]; [apply Hh|apply Hk].
Qed.

Lemma persist_rows_journaling c fp t r :
  wf r → IntegrationRequest.status r = RequestStatus.RECEIVED → journaling (persist_rows c fp t r).
Proof.
  intros Hwf Hs. unfold persist_rows. apply journaling_bind; [by apply journaling_add_request|].
  intros _. cbn zeta.
  destruct (cr_idempotency_key c).
  - apply journaling_flush_or; [intros; uow_go|]. uow_step; [eauto with calm_db|].
    uow_step; [by apply journaling_add|]. apply journaling_flush_or; intros; uow_go.
  - apply journaling_flush_or; intros; uow_go.
Qed.

Lemma persist_journaling c fp : journaling (_persist_new_request c fp).
Proof.
  unfold _persist_new_request. do 2 (apply journaling_bind; [eauto with calm_db|intros ?]).
  intros w Hin. wp_step. wp_step.
  destruct (IntegrationRequest.create _ _ _ _ _ _ _ _ _) as [r|e] eqn:Hc; [|by apply inside_sound].
  apply wf_new_request in Hc as (Hwf & Hs & _). by apply persist_rows_journaling.
Qed.

Lemma create_or_replay_calm c fp : calm (create_or_replay c fp).
Proof.
  pose proof (λ k, journaling_same _ (replay_read_only k fp)).
  pose proof (λ k, journaling_same _ (race_read_only k fp)). pose proof (persist_journaling c fp).
  apply calm_uow. uow_go.
Qed.

Lemma create_calm_execute {HP : PlatformOk P} fr hook c : calm_hook hook → calm (execute fr hook c).
Proof. pose proof (create_or_replay_calm c). unfold execute. intros Hh. calm_go. Qed.

Lemma wp_flush_or {A} (h : exn → H A) k (Q : A → World → Prop) w :
  (∀ T w', insert_all (working (sess w)) (pending (sess w)) = inr T → db w' = db w →
     working (sess w') = T → pending (sess w') = [] → wp k Q (λ _ _, True) w') →
  (∀ e w', db w' = db w → wp (h e) Q (λ _ _, True) w') →
  wp (flush_or h k) Q (λ _ _, True) w.
Proof.
  intros Hk Hh. unfold flush_or, flush. wp_step. wp_step. wp_step. wp_step. wp_step.
  destruct (insert_all _ _) as [v|T] eqn:Hi.
  - wp_step. unfold rollback. wp_step. wp_step. destruct (isinstance _ _); [|done].
    wp_step. wp_step. wp_step. by apply Hh.
  - unfold modify_session. wp_step. wp_step. by eapply Hk.
Qed.

(** What a replay answers. *)
Lemma wp_replay k fp w (Hj : Journaled (working (sess w))) :
  wp (_replay_if_seen k fp) (λ o w', same_tables w w' ∧
       ∀ res, o = Some res → cres_replayed res = true ∧
         claimed (working (sess w)) k fp (IntegrationRequest.id (cres_request res)))
     (λ _ _, True) w.
Proof.
  unfold _replay_if_seen, Idempotency.get, reading. wp_step. wp_step.
  destruct (t_idempotency _ !! k) as [rec|] eqn:Hrec; [|by wp_step].
  destruct (negb _) eqn:Hm; [done|]. apply negb_false_iff, bool_decide_eq_true in Hm.
  unfold Requests.get, reading. wp_step. wp_step. wp_step. apply wp_load; [done|].
  intros r0 w' Hr Hw. split; [done|]. intros res [= <-]. split; [done|].
  specialize (Hj (IdempotencyRecord.request_id rec)). rewrite Hr in Hj. destruct Hj as (Hid & _).
  exists rec. split_and!; [done|done| |];
    change (IntegrationRequest.id _) with (IntegrationRequest.id r0); rewrite Hid; [done|by rewrite Hr].
Qed.

(** A claimed key is replayed, and nothing else happens. *)
Lemma replay_claimed k fp i w :
  Journaled (working (sess w)) → claimed (working (sess w)) k fp i →
  ∃ r w', _replay_if_seen k fp w = (Ret (Some (mk_create_result r true)), w') ∧
    IntegrationRequest.id r = i ∧ db w' = db w ∧
    ticks w' = ticks w ∧ drawn w' = drawn w ∧ rolls w' = rolls w.
Proof.
  intros Hj (rec & Hrec & Hfp & Hi & r0 & Hr).
  unfold _replay_if_seen, Idempotency.get, Requests.get, reading, bind, gets. cbn. rewrite Hrec.
  unfold IdempotencyRecord.matches. rewrite bool_decide_true by done. cbn. rewrite Hi, Hr. cbn.
  eexists _, _. split; [reflexivity|]. split_and!; try done.
  specialize (Hj i). rewrite Hr in Hj. apply Hj.
Qed.

(** A key seen with another body is refused. *)
Lemma replay_refused k fp rec w :
  t_idempotency (working (sess w)) !! k = Some rec → IdempotencyRecord.fingerprint rec ≠ fp →
  ∃ e, _replay_if_seen k fp w = (Raise e, w) ∧ isinstance e ErrorClass.IdempotencyConflictError = true.
Proof.
  intros Hrec Hfp. unfold _replay_if_seen, Idempotency.get, reading, bind, gets. cbn. rewrite Hrec.
  unfold IdempotencyRecord.matches. rewrite bool_decide_false by done. by eexists.
Qed.

(** Rows inserted before a point survive to the commit. *)
Lemma wp_persist_rows c fp k t r w :
  cr_idempotency_key c = Some k → inside w →
  wf r → IntegrationRequest.status r = RequestStatus.RECEIVED →
  wp (persist_rows c fp t r)
     (λ o w', inside w' ∧
        ∀ r', o = Some r' → claimed (virtual (sess w')) k fp (IntegrationRequest.id r'))
     (λ _ _, True) w.
Proof.
  intros Hk Hin Hwf Hs. eapply wp_conseq; [apply wp_and; [by apply persist_rows_journaling|]| |done].
  2:{ intros o w' [[Hin' _] Hc]. split; [done|exact Hc]. }
  unfold persist_rows, Requests.add. rewrite Hk. cbn zeta. wp_step. wp_step.
  apply wp_add_row. intros w1 _ _ Hp1. unfold Requests.track, modify_session. wp_go.
  apply wp_flush_or; [|by intros e w2 _; wp_step]. cbn. intros T w2 Hi2 _ Hw2 Hp2.
  apply insert_all_request with (r := r) in Hi2; [|rewrite Hp1; set_solver].
  unfold IdempotencyRecord.make. destruct (negb _); [done|]. wp_go.
  unfold Idempotency.add. apply wp_add_row. intros w3 _ Hw3 Hp3.
  apply wp_flush_or; [|by intros e w4 _; wp_step]. intros T' w4 Hi4 _ Hw4 Hp4.
  assert (claimed T' k fp (IntegrationRequest.id r)) as Hcl.
  { pose proof Hi4 as Hg. apply insert_all_virtual in Hg.
    pose proof (virtual_lookup (sess w3)) as Hgr. unfold virtual in Hgr. rewrite <- Hg in Hgr.
    apply insert_all_claim with (i := IdempotencyRecord.mk k fp (IntegrationRequest.id r) 201 t None)
      in Hi4; [|rewrite Hp3; set_solver].
    eexists. split_and!; [exact Hi4|done|done|]. rewrite Hw3, Hw2 in Hgr.
    apply Hgr in Hi2. eauto. }
  wp_step. apply wp_record_creation; [|done]. intros w5 (_ & Hw5 & _ & _). wp_step.
  apply wp_record_request_action; [|done]. intros w6 (_ & Hw6 & _ & _). wp_step.
  intros r' [= <-]. apply claimed_virtual. by rewrite Hw6, Hw5, Hw4.
Qed.

(** However the unit of work ends, if it returns then the key is claimed for
    the request it returns. *)
Definition answered (o : CreateIntegrationRequestResult + IntegrationRequest.t) : UUID :=
  match o with
  | inl res => IntegrationRequest.id (cres_request res)
  | inr r => IntegrationRequest.id r
  end.

Lemma create_claims c fp k w :
  cr_idempotency_key c = Some k → Journaled (db w) →
  wp (create_or_replay c fp) (λ o w', claimed (db w') k fp (answered o)) (λ _ _, True) w.
Proof.
  intros Hk HJ. apply wp_with_uow. rewrite Hk. wp_step.
  eapply wp_conseq; [by apply wp_replay| |done]. intros [res|] w1 [Hw1 Hres].
  { wp_step. destruct (Hres res eq_refl) as [_ Hc]. cbn in Hc. destruct Hw1 as (Hdb & _).
    cbn. by rewrite Hdb. }
  clear Hres.
  unfold _persist_new_request. wp_step. wp_step. apply wp_now. intros w2 Hw2.
  wp_step. apply wp_new_id. intros i w3 Hw3. wp_step. wp_step.
  destruct (IntegrationRequest.create _ _ _ _ _ _ _ _ _) as [r|e] eqn:Hc; [|done].
  apply wf_new_request in Hc as (Hwf & Hs & _).
  assert (inside w3) as Hin.
  { do 3 (eapply same_tables_inside; [done|]). by split_and!. }
  eapply wp_conseq; [by apply (wp_persist_rows c fp k)| |done].
  intros [r'|] w4 [Hin4 Hcl].
  - wp_step. apply wp_commit; [done| |done]. intros w5 _ Hdb5 _ _. wp_step.
    cbn. rewrite Hdb5. by apply Hcl.
  - unfold _replay_after_race. wp_step. cbn [default from_option]. apply wp_with_uow. wp_step.
    eapply wp_conseq; [apply wp_replay; apply Hin4| |done]. intros [res|] w5 [Hw5 Hres]; [|done].
    wp_step. wp_step. destruct (Hres res eq_refl) as [_ Hc]. destruct Hw5 as (Hdb5 & _).
    cbn in *. by rewrite Hdb5.
Qed.
End CreateFacts.

(** * A creation that cannot fail *)

Section Fresh.
Context `{Env} `{P : Platform} {HE : EnvOk _}.
Import CreateRequest.

Lemma wp_flush_or_total {A} (h : exn → H A) k (Q : A → World → Prop) X w T :
  insert_all (working (sess w)) (pending (sess w)) = inr T →
  wp k Q X (w <| sess ::= (λ s, s <| working := T |> <| pending := [] |>) |>) →
  wp (flush_or h k) Q X w.
Proof.
  intros Hi Hk. unfold flush_or, flush. wp_step. wp_step. wp_step. wp_step. wp_step. rewrite Hi.
  unfold modify_session. wp_step. wp_step. exact Hk.
Qed.

(** The key of the command is new: no claim and no request has it. *)
Definition unclaimed (T : tables) (key : option string) : Prop :=
  match key with
  | None => True
  | Some k => t_idempotency T !! k = None ∧
      some_request T (λ r, bool_decide (IntegrationRequest.idempotency_key r = Some k)) = false
  end.

(** The rows [record_creation] and [record_request_action] add, from the [n]th
    identifier on. *)
Definition creation_rows (r : IntegrationRequest.t) (n : nat) (l : list new_row) : Prop :=
  ∃ a o a', l = [NewAudit a; NewOutbox o; NewAudit a'] ∧
    AuditEvent.id a = uuid_at n ∧ AuditEvent.action a = AuditAction.REQUEST_RECEIVED ∧
    AuditEvent.aggregate_id a = uuid_str (IntegrationRequest.id r) ∧
    OutboxEvent.id o = uuid_at (S n) ∧ OutboxEvent.event_id o = uuid_at (S (S n)) ∧
    AuditEvent.id a' = uuid_at (S (S (S n))).

Lemma wp_creation_rows r actor md actor' md' (Q : option IntegrationRequest.t → World → Prop) X w :
  is_aware (IntegrationRequest.created_at r) = true →
  (∀ w' l, db w' = db w → working (sess w') = working (sess w) →
     pending (sess w') = pending (sess w) ++ l → creation_rows r (drawn w) l → Q (Some r) w') →
  wp (record_creation r actor md ;;;
      record_request_action r AuditAction.PROVIDER_SELECTED actor' md' ;;; ret (Some r)) Q X w.
Proof.
  intros Haw HQ. unfold record_creation, record_request_action, new_id, now, AuditEvent.for_request,
    AuditEvent.make, OutboxEvent.fresh, OutboxEvent.make, Audit.append, add_row, modify_session.
  unfold wp, bind, modifyS, ret, lift.
  cbn -[uuid_str event_type_for_status build_request_event_payload value].
  rewrite Haw, uuid_str_truthy.
  cbn -[uuid_str event_type_for_status build_request_event_payload value].
  rewrite clock_aware. cbn -[uuid_str event_type_for_status build_request_event_payload value].
  eapply HQ; [done|done|cbn; rewrite <- !app_assoc; reflexivity|].
  eexists _, _, _. split; [reflexivity|]. by split_and!.
Qed.

Lemma insert_creation_rows w T r n l :
  (∀ m m', uuid_at m = uuid_at m' → m = m') → fresh_ids w T → (drawn w ≤ n)%nat →
  creation_rows r n l → ∃ T', insert_all T l = inr T' ∧ T' = foldl insert_row T l.
Proof.
  intros Hinj Hf Hn (a & o & a' & -> & Ha & _ & _ & Ho & He & Ha'). cbn.
  rewrite existsb_absent; [|intros x Hx; apply bool_decide_false; rewrite Ha; by apply (Hf n)].
  cbn. rewrite existsb_absent; [|intros x Hx; apply bool_decide_false; rewrite Ho; apply (Hf (S n)); [lia|done]].
  rewrite existsb_absent; [|intros x Hx; apply bool_decide_false; rewrite He; apply (Hf (S (S n))); [lia|done]].
  cbn. rewrite existsb_absent; [by eexists|]. intros x [Hx| ->%list_elem_of_singleton]%elem_of_app;
    apply bool_decide_false; rewrite Ha'.
  - apply (Hf (S (S (S n)))); [lia|done].
  - rewrite Ha. intros ?%Hinj. lia.
Qed.

(** What a fresh creation has committed when it returns. *)
Definition created (c : CreateIntegrationRequestCommand) (fp : string) (i : UUID) (T : tables) : Prop :=
  (∃ row, t_requests T !! i = Some row ∧
     IntegrationRequest.provider row = cr_provider c ∧
     IntegrationRequest.operation_type row = cr_operation_type c ∧
     IntegrationRequest.external_reference row = cr_external_reference c ∧
     IntegrationRequest.correlation_id row = cr_correlation_id c ∧
     IntegrationRequest.idempotency_key row = cr_idempotency_key c ∧
     IntegrationRequest.owner_subject row = actor_id (cr_actor c)) ∧
  (∃ a, a ∈ t_audit T ∧ AuditEvent.action a = AuditAction.REQUEST_RECEIVED ∧
     AuditEvent.aggregate_id a = uuid_str i) ∧
  (∀ k, cr_idempotency_key c = Some k → claimed T k fp i).

Lemma created_grows c fp i T T' : grows T T' → created c fp i T → created c fp i T'.
Proof.
  intros Hg ((row & Hrow & Hc) & (a & Ha & Ha') & Hk). split_and!.
  - apply (grows_requests _ _ Hg) in Hrow as (row' & Hrow' & Hkept). exists row'. split; [done|].
    unfold kept in Hkept. destruct_and!. split_and!; congruence.
  - exists a. split; [|done]. destruct (grows_audit _ _ Hg) as [l ->]. set_solver.
  - intros k Hkk. eapply claimed_grows; eauto.
Qed.

(** Committing the creation rows over tables that hold the request (and its
    claim) establishes [created]. *)
Lemma created_committed c fp r T n l :
  t_requests T !! IntegrationRequest.id r = Some r →
  (∀ k, cr_idempotency_key c = Some k → claimed T k fp (IntegrationRequest.id r)) →
  IntegrationRequest.provider r = cr_provider c →
  IntegrationRequest.operation_type r = cr_operation_type c →
  IntegrationRequest.external_reference r = cr_external_reference c →
  IntegrationRequest.correlation_id r = cr_correlation_id c →
  IntegrationRequest.idempotency_key r = cr_idempotency_key c →
  IntegrationRequest.owner_subject r = actor_id (cr_actor c) →
  creation_rows r n l → created c fp (IntegrationRequest.id r) (foldl insert_row T l).
Proof.
  intros Hr Hk ? ? ? ? ? ? (a & o & a' & -> & _ & Hact & Hagg & _).
  split_and!.
  - exists r. split; [done|]. by split_and!.
  - exists a. cbn. split; [set_solver|done].
  - intros k Hkk. by apply (claimed_virtual (mk_session T [NewAudit a; NewOutbox o; NewAudit a'] ∅)), Hk.
Qed.

Lemma insert_new_request T r :
  t_requests T !! IntegrationRequest.id r = None → IntegrationRequest.provider_reference r = None →
  unclaimed T (IntegrationRequest.idempotency_key r) →
  insert_all T [NewRequest r] = inr (insert_row T (NewRequest r)) ∧
  t_requests (insert_row T (NewRequest r)) !! IntegrationRequest.id r = Some r.
Proof.
  intros Hi Hp Hu. cbn. rewrite Hi, Hp. split.
  - rewrite bool_decide_false by (by intros []). unfold reference_taken.
    destruct (IntegrationRequest.idempotency_key r); [|done]. by destruct Hu as [_ ->].
  - unfold insert_absent. rewrite Hi. by rewrite lookup_insert_eq.
Qed.

Lemma insert_new_claim T i :
  t_idempotency T !! IdempotencyRecord.key i = None →
  is_Some (t_requests T !! IdempotencyRecord.request_id i) →
  insert_all T [NewIdempotency i] = inr (insert_row T (NewIdempotency i)) ∧
  t_idempotency (insert_row T (NewIdempotency i)) !! IdempotencyRecord.key i = Some i.
Proof.
  intros Hk Hr. cbn. rewrite Hk. split.
  - rewrite bool_decide_false by (by intros []). by rewrite bool_decide_true.
  - unfold insert_absent. rewrite Hk. by rewrite lookup_insert_eq.
Qed.

Lemma persist_rows_fresh c fp t r w :
  is_aware t = true → is_aware (IntegrationRequest.created_at r) = true →
  working (sess w) = db w → pending (sess w) = [] →
  t_requests (db w) !! IntegrationRequest.id r = None →
  IntegrationRequest.provider_reference r = None →
  IntegrationRequest.idempotency_key r = cr_idempotency_key c →
  unclaimed (db w) (cr_idempotency_key c) →
  wp (persist_rows c fp t r)
     (λ o w', o = Some r ∧ db w' = db w ∧ creation_rows r (drawn w) (pending (sess w')) ∧
        t_requests (working (sess w')) !! IntegrationRequest.id r = Some r ∧
        (∀ k, cr_idempotency_key c = Some k →
           claimed (working (sess w')) k fp (IntegrationRequest.id r)) ∧
        t_audit (working (sess w')) = t_audit (db w) ∧ t_outbox (working (sess w')) = t_outbox (db w))
     (λ _ _, False) w.
Proof.
  intros Ht Hcr Hw Hp Hi Href Hkey Hun. rewrite <- Hkey in Hun.
  destruct (insert_new_request _ _ Hi Href Hun) as [Hins Hlook].
  unfold persist_rows, Requests.add, add_row, Requests.track, modify_session. cbn zeta.
  wp_line.
  rewrite Hkey in Hun. destruct (cr_idempotency_key c) as [k|].
  - eapply wp_flush_or_total; [cbn; rewrite Hw, Hp; exact Hins|].
    unfold IdempotencyRecord.make. cbn [IdempotencyRecord.created_at]. rewrite Ht. cbn [negb].
    wp_step. wp_step. wp_step. unfold Idempotency.add, add_row, modify_session. wp_step.
    set (rec := IdempotencyRecord.mk _ _ _ _ _ _).
    destruct (insert_new_claim (insert_row (db w) (NewRequest r)) rec) as [Hins2 Hlook2];
      [by destruct Hun|by exists r|].
    eapply wp_flush_or_total; [exact Hins2|]. apply wp_creation_rows; [done|].
    intros w' l Hdb Hwk Hpd Hl. rewrite Hpd, Hwk. cbn in *. split_and!; [done|done|done|done| |done|done].
    intros k' [= <-]. exists rec. split_and!; [exact Hlook2|done|done|by eexists].
  - eapply wp_flush_or_total; [cbn; rewrite Hw, Hp; exact Hins|]. apply wp_creation_rows; [done|].
    intros w' l Hdb Hwk Hpd Hl. rewrite Hpd, Hwk. cbn in *. by split_and!.
Qed.

Lemma create_or_replay_fresh c fp w :
  (∀ m m', uuid_at m = uuid_at m' → m = m') → fresh_ids w (db w) →
  t_requests (db w) !! uuid_at (drawn w) = None → unclaimed (db w) (cr_idempotency_key c) →
  wp (create_or_replay c fp)
     (λ o w', (∃ r, o = inr r ∧ IntegrationRequest.id r = uuid_at (drawn w)) ∧
        created c fp (uuid_at (drawn w)) (db w'))
     (λ _ _, False) w.
Proof.
  intros Hinj Hf Hi Hun. apply wp_with_uow. wp_step.
  eapply (wp_conseq _ (λ o w', o = None ∧ w' = _) _ (λ _ _, False)); [| |done].
  { destruct (cr_idempotency_key c) as [k|]; [|done].
    unfold _replay_if_seen, Idempotency.get, reading. wp_step. wp_step. cbn. by destruct Hun as [-> _]. }
  intros _ _ [-> ->]. unfold _persist_new_request, now, new_id. wp_step. wp_step. unfold wp at 1.
  wp_step. unfold wp at 1. wp_step. wp_step. cbn [ticks drawn set].
  unfold IntegrationRequest.create, IntegrationRequest.post_init.
  cbn [IntegrationRequest.created_at IntegrationRequest.updated_at].
  rewrite !require_aware_ok by apply clock_aware.
  eapply wp_conseq; [apply persist_rows_fresh; cbn; try done; apply clock_aware| |done].
  intros _ w1 (-> & Hdb & Hrows & Hr & Hcl & Hau & Hou). cbn in Hdb. wp_step.
  assert (∃ T', insert_all (working (sess w1)) (pending (sess w1)) = inr T' ∧
            T' = foldl insert_row (working (sess w1)) (pending (sess w1))) as (T' & Hins & HT').
  { apply (insert_creation_rows w _ _ _ _ Hinj) with (3 := Hrows); [|cbn; lia].
    intros n Hn. rewrite Hau, Hou. by apply Hf. }
  unfold commit, flush. wp_step. wp_step. wp_step. rewrite Hins.
  unfold modify_session. wp_step. wp_step. wp_step. split; [by eexists|]. cbn. subst T'.
  by eapply (created_committed c fp _ _ _ _ Hr).
Qed.
End Fresh.

(** * Theorems *)

(** Two commands with the same key and equivalent bodies; the correlation id
    and the caller may differ. *)
Definition same_body (c c' : CreateIntegrationRequestCommand) : Prop :=
  cr_provider c' = cr_provider c ∧ cr_operation_type c' = cr_operation_type c ∧
  cr_external_reference c' = cr_external_reference c ∧
  cr_idempotency_key c' = cr_idempotency_key c ∧
  json_equiv (JObj (cr_payload c)) (JObj (cr_payload c')).

Definition fingerprint_for (fr : Q → string) (c : CreateIntegrationRequestCommand) : outcome exn string :=
  fingerprint_of fr (cr_provider c) (value (cr_operation_type c)) (cr_external_reference c) (cr_payload c).

Lemma same_body_fingerprint fr c c' : same_body c c' → fingerprint_for fr c' = fingerprint_for fr c.
Proof.
  intros (Hp & Ho & He & _ & Hj). unfold fingerprint_for, fingerprint_of, canonical_json.
  rewrite Hp, Ho, He. erewrite (_normalize_proper (JObj [_; _; _; ("payload", JObj (cr_payload c'))]));
    [reflexivity|]. symmetry.
  apply (je_field [("provider", JStr _); ("operation_type", JStr _);
                   ("external_reference", JStr _)] "payload" _ _ []), Hj.
Qed.

Lemma same_body_validated `{Platform} c c' :
  same_body c c' → CreateRequest._validate_provider_support c = Ret tt →
  CreateRequest._validate_provider_support c' = Ret tt.
Proof.
  intros (Hp & Ho & _). unfold CreateRequest._validate_provider_support. rewrite Hp, Ho.
  destruct (gateways !! _); [|done]. by destruct (negb _).
Qed.

(** What a completed creation leaves behind. *)
Lemma execute_claims `{Env} `{P : Platform} {HP : PlatformOk P} fr hook c k w :
  calm_hook hook → Journaled (db w) → cr_idempotency_key c = Some k →
  wp (CreateRequest.execute fr hook c)
     (λ res w', CreateRequest._validate_provider_support c = Ret tt ∧
        ∃ fp, fingerprint_for fr c = Ret fp ∧
          claimed (db w') k fp (IntegrationRequest.id (cres_request res)))
     (λ _ _, True) w.
Proof.
  intros Hh HJ Hk. unfold CreateRequest.execute. wp_step. wp_step.
  destruct (CreateRequest._validate_provider_support c) as [[]|]; [|done]. wp_step. wp_step.
  unfold fingerprint_for. destruct (fingerprint_of _ _ _ _ _) as [fp|]; [|done]. wp_step.
  eapply wp_conseq; [apply wp_and; [by apply create_claims|by apply create_or_replay_calm]| |done].
  intros [res|r] w1 [Hc [[HJ1 _] _]]; cbn in Hc.
  - wp_step. by eauto.
  - wp_step. eapply wp_conseq; [apply wp_and; [by apply dispatch_calm|by apply dispatch_returns]| |done].
    intros r' w2 [[[HJ2 Hg] _] Hid]. cbv beta in *. wp_step. split; [done|]. exists fp. split; [done|].
    cbn. rewrite Hid. by eapply claimed_grows.
Qed.

Lemma execute_replay `{Env} `{P : Platform} fr hook c k fp i w :
  CreateRequest._validate_provider_support c = Ret tt → fingerprint_for fr c = Ret fp →
  cr_idempotency_key c = Some k → Journaled (db w) → claimed (db w) k fp i →
  ∃ r, CreateRequest.execute fr hook c w = (Ret (mk_create_result r true), w) ∧
       IntegrationRequest.id r = i.
Proof.
  intros Hv Hf Hk HJ Hc. unfold CreateRequest.execute, bind, lift. rewrite Hv.
  unfold fingerprint_for in Hf. rewrite Hf.
  unfold CreateRequest.create_or_replay, with_uow. rewrite Hk. unfold bind at 1.
  pose proof (replay_claimed k fp i (w <| sess := open_session (db w) |>)) as Hrun.
  destruct (Hrun HJ Hc) as (r & w' & -> & Hid & Hdb & Ht & Hd & Hr).
  cbn. exists r. split; [|done]. f_equal. destruct w, w'; cbn in *. by subst.
Qed.

Module CreateTheorems.
Import CreateRequest.

(** C15. Creation is idempotent. Once a creation with an idempotency key has
    returned, sending it again (same key and an equivalent body, by any caller)
    at any later time, whatever the platform did in between, returns the
    original request marked as a replay and changes nothing at all: no row is
    written, no identifier is drawn and the provider is not called. *)
Theorem create_is_idempotent `{Env} `{P : Platform} {HP : PlatformOk P} (fr : Q → string)
    (hook : option (UUID → H unit)) (c c' : CreateIntegrationRequestCommand) (k : string)
    (res : CreateIntegrationRequestResult) (w w1 w2 : World) :
  calm_hook hook → Journaled (db w) → cr_idempotency_key c = Some k →
  execute fr hook c w = (Ret res, w1) → same_body c c' →
  Journaled (db w2) → grows (db w1) (db w2) →
  ∃ r, execute fr hook c' w2 = (Ret (mk_create_result r true), w2) ∧
       IntegrationRequest.id r = IntegrationRequest.id (cres_request res).
Proof.
  intros Hh HJ Hk Hrun Hsame HJ2 Hg. pose proof (execute_claims fr hook c k w Hh HJ Hk) as Hc.
  unfold wp in Hc. rewrite Hrun in Hc. destruct Hc as (Hv & fp & Hf & Hc).
  eapply execute_replay; [by eapply same_body_validated|by erewrite same_body_fingerprint| |done|].
  - destruct Hsame as (_ & _ & _ & -> & _). exact Hk.
  - by eapply claimed_grows.
Qed.

Definition sample_command (payload : dict) : CreateIntegrationRequestCommand :=
  mk_create_command "cobalt" OperationType.ACCESS_GRANT "ref" payload "corr" actor_system (Some "key-1").
Definition empty_world : World := mk_world empty_tables (open_session empty_tables) 0 0 0.
Definition first_call : outcome exn CreateIntegrationRequestResult * World :=
  @execute sample_env (sample_platform accepted_result) (λ _, "") None
    (sample_command [("a", JInt 1); ("b", JInt 2)]) empty_world.
Definition first_result : CreateIntegrationRequestResult :=
  match first_call.1 with
  | Ret res => res
  | Raise _ => mk_create_result sample_request true
  end.

Lemma no_hook_calm : calm_hook None.
Proof. by intros f i. Qed.

Lemma first_call_journaled : Journaled (db first_call.2).
Proof.
  pose proof (@create_calm_execute sample_env _ (sample_platform_ok accepted_result) (λ _, "") None
    (sample_command [("a", JInt 1); ("b", JInt 2)]) no_hook_calm empty_world journaled_empty) as Hc.
  unfold wp in Hc. unfold first_call. destruct (execute _ _ _ _) as [[res|e] w']; apply Hc.
Qed.

Lemma create_is_idempotent_witness :
  cres_replayed first_result = false ∧
  ∃ r, @execute sample_env (sample_platform accepted_result) (λ _, "") None
         (sample_command [("b", JInt 2); ("a", JInt 1)]) first_call.2 =
       (Ret (mk_create_result r true), first_call.2) ∧
       IntegrationRequest.id r = IntegrationRequest.id (cres_request first_result).
Proof.
  split; [vm_compute; reflexivity|].
  apply (@create_is_idempotent sample_env _ (sample_platform_ok accepted_result) (λ _, "") None
    (sample_command [("a", JInt 1); ("b", JInt 2)]) (sample_command [("b", JInt 2); ("a", JInt 1)])
    "key-1" first_result empty_world first_call.2 first_call.2).
  - exact no_hook_calm.
  - exact journaled_empty.
  - reflexivity.
  - vm_compute. reflexivity.
  - unfold same_body. split_and!; try reflexivity. cbn.
    apply je_order; [apply perm_swap|]. by apply (bool_decide_unpack _).
  - exact first_call_journaled.
  - reflexivity.
Defined.

(** A reused key with another body is refused: the creation raises
    IdempotencyConflictError, and nothing is written, drawn or dispatched. *)
Theorem create_refuses_reused_key `{Env} `{P : Platform} (fr : Q → string)
    (hook : option (UUID → H unit)) (c : CreateIntegrationRequestCommand) (k fp : string)
    (rec : IdempotencyRecord.t) (w : World) :
  _validate_provider_support c = Ret tt → fingerprint_for fr c = Ret fp →
  cr_idempotency_key c = Some k → t_idempotency (db w) !! k = Some rec →
  IdempotencyRecord.fingerprint rec ≠ fp →
  ∃ e, execute fr hook c w = (Raise e, w) ∧ isinstance e ErrorClass.IdempotencyConflictError = true.
Proof.
  intros Hv Hf Hk Hrec Hne. unfold execute, bind, lift. rewrite Hv. unfold fingerprint_for in Hf.
  rewrite Hf. unfold create_or_replay, with_uow. rewrite Hk. unfold bind at 1.
  pose proof (replay_refused k fp rec (w <| sess := open_session (db w) |>)) as Hrun.
  destruct (Hrun Hrec Hne) as (e & -> & Hi). exists e. split; [|done]. cbn. f_equal. by destruct w.
Qed.

Lemma create_refuses_reused_key_witness :
  ∃ e, @execute sample_env (sample_platform accepted_result) (λ _, "") None
         (sample_command [("a", JInt 3)]) first_call.2 = (Raise e, first_call.2) ∧
       isinstance e ErrorClass.IdempotencyConflictError = true.
Proof.
  eapply (@create_refuses_reused_key sample_env (sample_platform accepted_result) (λ _, "") None
    (sample_command [("a", JInt 3)]) "key-1").
  - reflexivity.
  - vm_compute. reflexivity.
  - reflexivity.
  - vm_compute. reflexivity.
  - vm_compute. discriminate.
Defined.

(** C16. A request is durable before its provider is contacted. For a supported
    operation and a new key, whatever happens afterwards (the provider answers,
    fails, or the dispatch raises), the tables the call leaves behind hold the
    request under the identifier it drew, with the command's provider,
    operation, reference, correlation id, key and owner, its REQUEST_RECEIVED
    audit row, and the claim that binds the key to this body and this request. *)
Theorem create_is_durable `{Env} `{P : Platform} {HE : EnvOk _} {HP : PlatformOk P}
    (fr : Q → string) (hook : option (UUID → H unit)) (c : CreateIntegrationRequestCommand)
    (fp : string) (w : World) :
  calm_hook hook → Journaled (db w) → _validate_provider_support c = Ret tt →
  fingerprint_for fr c = Ret fp → unclaimed (db w) (cr_idempotency_key c) →
  t_requests (db w) !! uuid_at (drawn w) = None → fresh_ids w (db w) →
  (∀ m m', uuid_at m = uuid_at m' → m = m') →
  created c fp (uuid_at (drawn w)) (db (execute fr hook c w).2).
Proof.
  intros Hh HJ Hv Hfp Hun Hi Hf Hinj.
  assert (wp (execute fr hook c) (λ _ w', created c fp (uuid_at (drawn w)) (db w'))
             (λ _ w', created c fp (uuid_at (drawn w)) (db w')) w) as Hrun.
  { unfold execute. wp_step. wp_step. rewrite Hv. wp_step. wp_step.
    unfold fingerprint_for in Hfp. rewrite Hfp. wp_step.
    eapply wp_conseq; [apply wp_and; [by apply create_or_replay_fresh|by apply create_or_replay_calm]| |by intros e w' []].
    intros o w1 [[(r & -> & _) Hc] [[HJ1 _] _]]. wp_step. eapply wp_conseq; [by apply dispatch_calm|..].
    - intros r' w2 [[_ Hg] _]. wp_step. by eapply created_grows.
    - intros e w2 [[_ Hg] _]. by eapply created_grows. }
  unfold wp in Hrun. by destruct (execute fr hook c w) as [[]].
Qed.

Lemma create_is_durable_witness :
  ∃ fp, created (sample_command [("a", JInt 1)]) fp 100
    (db (@execute sample_env (sample_platform accepted_result) (λ _, "") None
           (sample_command [("a", JInt 1)]) empty_world).2).
Proof.
  eexists. apply (@create_is_durable sample_env (sample_platform accepted_result) sample_env_ok
    (sample_platform_ok accepted_result) (λ _, "") None (sample_command [("a", JInt 1)]) _ empty_world).
  - exact no_hook_calm.
  - exact journaled_empty.
  - reflexivity.
  - vm_compute. reflexivity.
  - split; reflexivity.
  - reflexivity.
  - intros n _. cbn. split; intros x Hx; by apply elem_of_nil in Hx.
  - intros m m' Hm. cbn in Hm. lia.
Defined.
End CreateTheorems.
