(* ===== verification/Operator.v ===== *)
(** The operator's actions: cancellation ([application/use_cases/cancel_request.py])
    and manual retry ([application/use_cases/retry_request.py]). *)

From S2P Require Import Prelude PyData PyTime Enums Errors StateMachine ValueObjects Policies Entities RequestFacts.
From S2P Require Import Workflow Records Store Journal Ports Settlement Dispatcher Samples DispatcherFacts CreateRequest.

(** [RetryRequestCommand] and [CancelRequestCommand] have the same fields. *)
Record OperatorCommand := mk_operator_command {
  oc_request_id : UUID;
  oc_correlation_id : string;
  oc_actor : Actor;
  oc_reason : option string;
}.

Definition absent (c : OperatorCommand) (md : dict) : exn :=
  error ErrorClass.NotFoundError
    ("integration request '" +:+ uuid_str (oc_request_id c) +:+ "' does not exist")
    (no_kwargs <| k_correlation_id := Some (oc_correlation_id c) |> <| k_metadata := md |>).

Module CancelRequest.
Section UseCase.
Context `{Env} `{Platform}.

Definition _assert_cancellable (r : IntegrationRequest.t) (c : OperatorCommand) : outcome exn unit :=
  if negb (bool_decide (IntegrationRequest.status r ∈ CANCELLABLE_STATUSES)) then
    Raise (error ErrorClass.ConflictError
      ("a request in status '" +:+ value (IntegrationRequest.status r) +:+ "' cannot be cancelled")
      (no_kwargs <| k_correlation_id := Some (oc_correlation_id c) |> <| k_retryable := Some false |>
         <| k_metadata := [("status", JStr (value (IntegrationRequest.status r)))] |>))
  else
    match registry_get (IntegrationRequest.provider r) with
    | Raise e => Raise e
    | Ret g =>
        if bool_decide (IntegrationRequest.status r = RequestStatus.PENDING) &&
           negb (d_supports_cancellation (g_descriptor g)) then
          Raise (UnsupportedOperationError
            ("provider '" +:+ IntegrationRequest.provider r +:+
             "' does not support cancelling an operation it has already accepted")
            (Some (IntegrationRequest.provider r)) (Some (oc_correlation_id c)) [])
        else Ret tt
    end.

Definition _request_provider_cancellation (c : OperatorCommand) (reference : string) :
    H ProviderOperationResult :=
  let* request := with_uow (Requests.get (oc_request_id c)) in
  match request with
  | None => raise (not_found (oc_request_id c))
  | Some r =>
      let* g := lift (registry_get (IntegrationRequest.provider r)) in
      let* cmd := lift (cancel_cmd_make
        {| xc_request_id := IntegrationRequest.id r; xc_provider := IntegrationRequest.provider r;
           xc_provider_reference := reference; xc_correlation_id := oc_correlation_id c;
           xc_reason := oc_reason c |}) in
      try_except (cancel_operation g cmd) (λ e,
        match e with
        | EDomain d => if ErrorClass.subclass (cls d) ErrorClass.ProviderError
                       then Some (ret (result_failure (from_error d) None None [])) else None
        | _ => None
        end)
  end.

(** Local cancellation: the request has no provider reference. *)
Definition cancel_locally (r : IntegrationRequest.t) (c : OperatorCommand) : H IntegrationRequest.t :=
  let* t := now in
  let* (tr, r) := on r (IntegrationRequest.mark_cancelled t
                          (Some (or_else (oc_reason c) "cancelled before dispatch"))) in
  record_transition r tr AuditAction.REQUEST_CANCELLED (oc_actor c)
    [("reason", jopt (oc_reason c)); ("provider_contacted", JBool false)] None true ;;;
  ret r.

(** The first unit of work of [execute]: the cancelled request, or the
    reference to cancel at the provider. *)
Definition begin_cancel (c : OperatorCommand) : H (IntegrationRequest.t + string) :=
  with_uow (
    let* request := Requests.get_for_update (oc_request_id c) in
    match request with
    | None => raise (absent c [])
    | Some r =>
        lift (_assert_cancellable r c) ;;;
        match IntegrationRequest.provider_reference r with
        | None =>
            let* r := cancel_locally r c in
            commit ;;;
            ret (inl r)
        | Some reference => ret (inr reference)
        end
    end).

Definition cancel_at_provider (r : IntegrationRequest.t) (c : OperatorCommand)
    (res : ProviderOperationResult) : H IntegrationRequest.t :=
  let* t := now in
  let* (tr, r) := on r (IntegrationRequest.mark_cancelled t
                          (Some (or_else (oc_reason c) "cancelled at the provider"))) in
  record_transition r tr AuditAction.REQUEST_CANCELLED (oc_actor c)
    [("reason", jopt (oc_reason c)); ("provider_contacted", JBool true);
     ("provider_status", jopt (res_provider_status res))] None true ;;;
  ret r.

(** The provider agreed to cancel. *)
Definition agreed (res : ProviderOperationResult) : bool :=
  res_accepted res && bool_decide (res_normalized_status res ∈
                                     [NormalizedStatus.CANCELLED; NormalizedStatus.ACCEPTED]).

(** The second unit of work: [inl] the request to return, [inr] the request
    whose cancellation the provider refused. *)
Definition finish_cancel (c : OperatorCommand) (res : ProviderOperationResult) :
    H (IntegrationRequest.t + IntegrationRequest.t) :=
  with_uow (
    let* current := Requests.get_for_update (oc_request_id c) in
    match current with
    | None => raise (not_found (oc_request_id c))
    | Some r =>
        if RequestStatus.is_terminal (IntegrationRequest.status r) then
          record_request_action r AuditAction.CANCELLATION_REJECTED (oc_actor c)
            [("reason", JStr "the request reached a terminal state first")] ;;;
          commit ;;;
          ret (inl r)
        else if agreed res then
          let* r := cancel_at_provider r c res in
          commit ;;;
          ret (inl r)
        else
          record_request_action r AuditAction.CANCELLATION_REJECTED (oc_actor c)
            [("provider_status", jopt (res_provider_status res));
             ("error_code", jopt (ei_code <$> res_error res));
             ("error_category", jopt ((λ e, value (ei_category e)) <$> res_error res))] ;;;
          commit ;;;
          ret (inr r)
    end).

Definition execute (c : OperatorCommand) : H IntegrationRequest.t :=
  let* begun := begin_cancel c in
  match begun with
  | inl r => ret r
  | inr reference =>
      let* res := _request_provider_cancellation c reference in
      let* finished := finish_cancel c res in
      match finished with
      | inl r => ret r
      | inr r => raise (error ErrorClass.ConflictError "the provider refused to cancel this operation"
          (no_kwargs <| k_correlation_id := Some (oc_correlation_id c) |>
             <| k_retryable := Some false |> <| k_provider := Some (IntegrationRequest.provider r) |>
             <| k_metadata := [("provider_status", jopt (res_provider_status res))] |>))
      end
  end.
End UseCase.
End CancelRequest.

Module RetryRequest.
Section UseCase.
Context `{Env}.

Definition not_retryable (r : IntegrationRequest.t) (c : OperatorCommand) : exn :=
  error ErrorClass.ConflictError
    ("a request in status '" +:+ value (IntegrationRequest.status r) +:+ "' cannot be retried")
    (no_kwargs <| k_correlation_id := Some (oc_correlation_id c) |> <| k_retryable := Some false |>
       <| k_metadata := [("status", JStr (value (IntegrationRequest.status r)));
            ("retryable_statuses",
             JList (JStr <$> sorted_strings (value <$> MANUALLY_RETRYABLE_STATUSES)))] |>).

Definition reschedule (r : IntegrationRequest.t) (c : OperatorCommand) : H IntegrationRequest.t :=
  let* t := now in
  let* (tr, r) := on r (IntegrationRequest.restore_for_retry t t) in
  record_transition r tr AuditAction.RETRY_REQUESTED (oc_actor c)
    [("reason", jopt (oc_reason c));
     ("previous_attempt_count", JInt (IntegrationRequest.attempt_count r));
     ("manual", JBool true)] None true ;;;
  ret r.

Definition execute (c : OperatorCommand) : H IntegrationRequest.t :=
  with_uow (
    let* request := Requests.get_for_update (oc_request_id c) in
    match request with
    | None => raise (absent c [("request_id", JStr (uuid_str (oc_request_id c)))])
    | Some r =>
        if negb (bool_decide (IntegrationRequest.status r ∈ MANUALLY_RETRYABLE_STATUSES))
        then raise (not_retryable r c)
        else
          let* r := reschedule r c in
          commit ;;;
          ret r
    end).
End UseCase.
End RetryRequest.

(** * Facts *)

Section OperatorFacts.
Context `{Env} `{P : Platform}.

Lemma cancel_locally_tx r c : tx_ok r (CancelRequest.cancel_locally r c).
Proof. unfold CancelRequest.cancel_locally. tx_go. Qed.
Lemma cancel_at_provider_tx r c res : tx_ok r (CancelRequest.cancel_at_provider r c res).
Proof. unfold CancelRequest.cancel_at_provider. tx_go. Qed.
Lemma reschedule_tx r c : tx_ok r (RetryRequest.reschedule r c).
Proof.
  unfold RetryRequest.reschedule. tx_step.
  eapply (tx_move (CRestoreForRetry _ _) _ _ _ _ (λ r, [("reason", jopt (oc_reason c));
     ("previous_attempt_count", JInt (IntegrationRequest.attempt_count r));
     ("manual", JBool true)])). reflexivity.
Qed.

Lemma retry_calm c : calm (RetryRequest.execute c).
Proof.
  apply calm_uow. uow_step; [eauto with calm_db|]. destruct (negb _).
  - apply journaling_drop. eauto with calm_db.
  - apply journaling_tx_commit, reschedule_tx.
Qed.

Lemma begin_cancel_calm c : calm (CancelRequest.begin_cancel c).
Proof.
  apply calm_uow. uow_step; [eauto with calm_db|].
  apply journaling_with_bind; [apply quiet_read_only; eauto with calm_db|]. intros _.
  destruct (IntegrationRequest.provider_reference r).
  - apply journaling_drop. eauto with calm_db.
  - apply journaling_tx; [apply cancel_locally_tx|]. intros r'. apply journaling_drop. uow_go.
Qed.

Lemma finish_cancel_calm c res : calm (CancelRequest.finish_cancel c res).
Proof.
  apply calm_uow. uow_step; [eauto with calm_db|]. destruct (RequestStatus.is_terminal _).
  - apply journaling_drop. uow_go.
  - destruct (CancelRequest.agreed res); [|apply journaling_drop; uow_go].
    apply journaling_tx; [apply cancel_at_provider_tx|]. intros r'. apply journaling_drop. uow_go.
Qed.

Lemma cancel_calm_execute {HP : PlatformOk P} c : calm (CancelRequest.execute c).
Proof.
  pose proof begin_cancel_calm. pose proof finish_cancel_calm.
  unfold CancelRequest.execute, CancelRequest._request_provider_cancellation. calm_go.
  apply calm_try; [by eapply cancel_calm|]. intros [] k; try done.
  destruct (ErrorClass.subclass _ _); [intros [= <-]; apply calm_ret|done].
Qed.
End OperatorFacts.
#[export] Hint Resolve retry_calm cancel_calm_execute : calm_db.

Section OperatorRuns.
Context `{Env} `{P : Platform} {HE : EnvOk _}.

(** Every status that is not terminal may be cancelled. *)
Lemma open_cancellable s : RequestStatus.is_terminal s = false → transition s RequestStatus.CANCELLED.
Proof. by destruct s. Qed.

Lemma cancel_locally_settles r c ref :
  RequestStatus.is_terminal (IntegrationRequest.status r) = false →
  settles r RequestStatus.CANCELLED ref (CancelRequest.cancel_locally r c).
Proof.
  intros Hs. apply settles_now. intros t Ht.
  apply (settles_move _ _ _ _ _ _ (λ _, _)), moves_cancelled; [by apply open_cancellable|done].
Qed.

Lemma cancel_at_provider_settles r c res ref :
  RequestStatus.is_terminal (IntegrationRequest.status r) = false →
  settles r RequestStatus.CANCELLED ref (CancelRequest.cancel_at_provider r c res).
Proof.
  intros Hs. apply settles_now. intros t Ht.
  apply (settles_move _ _ _ _ _ _ (λ _, _)), moves_cancelled; [by apply open_cancellable|done].
Qed.

Lemma reschedule_settles r c ref :
  IntegrationRequest.status r ∈ MANUALLY_RETRYABLE_STATUSES →
  settles r RequestStatus.RETRY_SCHEDULED ref (RetryRequest.reschedule r c).
Proof.
  intros Hs. apply settles_now. intros t Ht.
  apply (settles_move _ _ _ _ _ _ (λ r, [("reason", _);
     ("previous_attempt_count", JInt (IntegrationRequest.attempt_count r));
     ("manual", _)])), moves_restored; [|done|done].
  unfold MANUALLY_RETRYABLE_STATUSES in Hs.
  by apply elem_of_cons in Hs as [-> |[-> |Hs%elem_of_nil]%elem_of_cons].
Qed.

Lemma not_terminal_ne s : RequestStatus.is_terminal s = false → s ≠ RequestStatus.CANCELLED.
Proof. by destruct s. Qed.

(** The rescheduled request is due at the time of the call. *)
Lemma reschedule_due r c w :
  wp (let* r' := RetryRequest.reschedule r c in commit ;;; ret r')
     (λ r' _, IntegrationRequest.next_retry_at r' = Some (clock_at (ticks w)) ∧
        IntegrationRequest.attempt_count r' = IntegrationRequest.attempt_count r ∧
        IntegrationRequest.status r' = RequestStatus.RETRY_SCHEDULED) (λ _ _, True) w.
Proof.
  wp_step. unfold RetryRequest.reschedule. wp_step. unfold now. unfold wp at 1. wp_step. apply wp_on.
  eapply (wp_conseq _ (λ _ r', IntegrationRequest.next_retry_at r' = Some (clock_at (ticks w)) ∧
        IntegrationRequest.attempt_count r' = IntegrationRequest.attempt_count r ∧
        IntegrationRequest.status r' = RequestStatus.RETRY_SCHEDULED) _ (λ _ _, True)); [|intros tr r' Hr'|done].
  - request_go; done.
  - wp_step. unfold wp. destruct (record_transition _ _ _ _ _ _ _ _) as [[]]; [|done].
    cbn. unfold bind. destruct (commit _) as [[]]; [|done]. exact Hr'.
Qed.

(** A note and nothing else. *)
Lemma wp_note_commit {A} r act actor md (k : H A) (Q : A → World → Prop) X w :
  pending (sess w) = [] → working (sess w) = db w → fresh_ids w (db w) →
  (∀ w', noted_commit act (db w) (db w') → wp k Q X w') →
  wp (record_request_action r act actor md ;;; commit ;;; k) Q X w.
Proof.
  intros Hp Hw Hf HQ. wp_step. apply wp_action_total. intros a w1 Hdb Hw1 Hp1 Hid Hact Hsil.
  rewrite Hp in Hp1. wp_step. eapply wp_commit_note; [done| |].
  - rewrite Hw1, Hw, Hid. intros x Hx. by apply (Hf (drawn w)).
  - intros w' Hdb'. apply HQ. exists a. by rewrite Hdb', Hw1, Hw.
Qed.
End OperatorRuns.

Module OperatorTheorems.

(** C25. A cancellation is recorded only when it is true. When the provider has
    answered, the closing transaction always returns and commits: a request
    that reached a terminal state meanwhile is left as it is, a request whose
    cancellation the provider confirmed moves to CANCELLED (with one audit row
    and one outbox event), and any other answer leaves the request untouched
    and is reported as a refusal; in the first and last case the only change is
    a CANCELLATION_REJECTED note. *)
Theorem cancel_follows_provider `{Env} {HE : EnvOk _} (c : OperatorCommand)
    (res : ProviderOperationResult) (row : IntegrationRequest.t) (w : World) :
  let i := oc_request_id c in
  Journaled (db w) → t_requests (db w) !! i = Some row → fresh_ids w (db w) →
  free_reference (db w) row (IntegrationRequest.provider_reference row) →
  let S0 := IntegrationRequest.status row in
  ∃ o w', CancelRequest.finish_cancel c res w = (Ret o, w') ∧
    if RequestStatus.is_terminal S0
    then (∃ r, o = inl r ∧ IntegrationRequest.status r = S0) ∧
         noted_commit AuditAction.CANCELLATION_REJECTED (db w) (db w')
    else if CancelRequest.agreed res
    then (∃ r, o = inl r ∧ IntegrationRequest.status r = RequestStatus.CANCELLED) ∧
         settled_commit i S0 RequestStatus.CANCELLED (db w) (db w')
    else (∃ r, o = inr r ∧ IntegrationRequest.status r = S0) ∧
         noted_commit AuditAction.CANCELLATION_REJECTED (db w) (db w').
Proof.
  intros i HJ Hrow Hf Hown S0. pose proof (HJ i) as Hi. rewrite Hrow in Hi. destruct Hi as (Hid & _).
  apply wp_total. apply wp_with_uow. wp_step. eapply (wp_load_row i row); [done|].
  change (IntegrationRequest.status (request_to_domain row)) with S0.
  destruct (RequestStatus.is_terminal S0) eqn:Ht; [|destruct (CancelRequest.agreed res)].
  - eapply wp_note_commit; [done|done|done|]. intros w' Hn. wp_step. split; [by eexists|exact Hn].
  - eapply (settles_commit _ RequestStatus.CANCELLED None _ (loaded w row) row); try done.
    + by apply cancel_at_provider_settles.
    + apply ready_loaded; [by rewrite Hid|done|done].
    + by apply not_terminal_ne.
    + intros r' w' Hs' Hc _. wp_step. split; [by eexists|].
      change (IntegrationRequest.id (request_to_domain row)) with (IntegrationRequest.id row) in Hc.
      by rewrite Hid in Hc.
  - eapply wp_note_commit; [done|done|done|]. intros w' Hn. wp_step. split; [by eexists|exact Hn].
Qed.

Definition sample_operator : OperatorCommand := mk_operator_command 7 "corr" actor_system None.
Definition cancelled_result : ProviderOperationResult :=
  result_success NormalizedStatus.CANCELLED (Some "op-9") None [] None.

Lemma cancel_follows_provider_witness :
  ∃ o w', @CancelRequest.finish_cancel sample_env sample_operator cancelled_result
            (world_after pending_calls) = (Ret o, w') ∧
    (∃ r, o = inl r ∧ IntegrationRequest.status r = RequestStatus.CANCELLED) ∧
    settled_commit 7 RequestStatus.PENDING RequestStatus.CANCELLED
      (db (world_after pending_calls)) (db w').
Proof.
  apply (@cancel_follows_provider sample_env sample_env_ok sample_operator cancelled_result
    (request_after pending_calls) (world_after pending_calls)).
  - apply tables_after_journaled; [reflexivity|]. vm_compute. tauto.
  - reflexivity.
  - apply sample_fresh. vm_compute. lia.
  - reflexivity.
Defined.

(** A request that has no provider reference is cancelled locally, from
    every status the operator may cancel: the first transaction returns the
    cancelled request and commits the move to CANCELLED with its audit row and
    event, without a provider call (it is a function of the database alone). *)
Theorem cancel_without_reference `{Env} `{Platform} {HE : EnvOk _} (c : OperatorCommand)
    (row : IntegrationRequest.t) (w : World) :
  let i := oc_request_id c in
  Journaled (db w) → t_requests (db w) !! i = Some row → fresh_ids w (db w) →
  is_Some (gateways !! IntegrationRequest.provider row) →
  IntegrationRequest.status row ∈ CANCELLABLE_STATUSES →
  IntegrationRequest.provider_reference row = None →
  ∃ r w', CancelRequest.execute c w = (Ret r, w') ∧
    IntegrationRequest.status r = RequestStatus.CANCELLED ∧
    settled_commit i (IntegrationRequest.status row) RequestStatus.CANCELLED (db w) (db w').
Proof.
  intros i HJ Hrow Hf [g Hg] Hs Hnone. pose proof (HJ i) as Hi. rewrite Hrow in Hi. destruct Hi as (Hid & Hwf & _).
  assert (RequestStatus.is_terminal (IntegrationRequest.status row) = false ∧
          IntegrationRequest.status row ≠ RequestStatus.PENDING) as [Ht Hnp].
  { split; [by destruct (IntegrationRequest.status row); try done; set_solver|]. intros Hp.
    destruct Hwf as [_ _ _ _ Hok]. unfold status_ok in Hok. rewrite Hp in Hok.
    destruct Hok as (_ & _ & Htr). by rewrite Hnone in Htr. }
  apply wp_total. unfold CancelRequest.execute. wp_step. apply wp_with_uow. wp_step.
  eapply (wp_load_row i row); [done|]. wp_step. wp_step. unfold CancelRequest._assert_cancellable, registry_get.
  change (IntegrationRequest.status (request_to_domain row)) with (IntegrationRequest.status row).
  change (IntegrationRequest.provider (request_to_domain row)) with (IntegrationRequest.provider row).
  change (IntegrationRequest.provider_reference (request_to_domain row))
    with (IntegrationRequest.provider_reference row).
  rewrite bool_decide_true, Hg, bool_decide_false, Hnone by done. cbn [negb andb].
  eapply (settles_commit _ RequestStatus.CANCELLED None _ (loaded w row) row); try done.
  - by apply cancel_locally_settles.
  - apply ready_loaded; [by rewrite Hid| |done]. by rewrite Hnone.
  - by apply not_terminal_ne.
  - intros r' w' Hs' Hc _. wp_step. wp_step. split; [done|].
    change (IntegrationRequest.id (request_to_domain row)) with (IntegrationRequest.id row) in Hc.
    by rewrite Hid in Hc.
Qed.

Lemma cancel_without_reference_witness :
  ∃ r w', @CancelRequest.execute sample_env (sample_platform accepted_result) sample_operator
            (world_after failed_calls) = (Ret r, w') ∧
    IntegrationRequest.status r = RequestStatus.CANCELLED ∧
    settled_commit 7 RequestStatus.FAILED RequestStatus.CANCELLED
      (db (world_after failed_calls)) (db w').
Proof.
  apply (@cancel_without_reference sample_env (sample_platform accepted_result) sample_env_ok
    sample_operator (request_after failed_calls) (world_after failed_calls)).
  - apply tables_after_journaled; [reflexivity|]. vm_compute. tauto.
  - reflexivity.
  - apply sample_fresh. vm_compute. lia.
  - eexists. reflexivity.
  - apply (bool_decide_unpack _). reflexivity.
  - reflexivity.
Defined.

(** A manual retry only re-queues. From FAILED or MANUAL_REVIEW the request
    is stored as RETRY_SCHEDULED with the current time as its due time and its
    attempt count unchanged (so the retry worker's query selects it at once),
    with one audit row and one event; from any other status the call raises a
    conflict and commits nothing. *)
Theorem retry_requeues `{Env} {HE : EnvOk _} (c : OperatorCommand) (row : IntegrationRequest.t)
    (w : World) :
  let i := oc_request_id c in
  Journaled (db w) → t_requests (db w) !! i = Some row → fresh_ids w (db w) →
  free_reference (db w) row (IntegrationRequest.provider_reference row) →
  if bool_decide (IntegrationRequest.status row ∈ MANUALLY_RETRYABLE_STATUSES)
  then ∃ r w' row', RetryRequest.execute c w = (Ret r, w') ∧
         settled_commit i (IntegrationRequest.status row) RequestStatus.RETRY_SCHEDULED (db w) (db w') ∧
         t_requests (db w') !! i = Some row' ∧
         Requests.due_for_retry (clock_at (ticks w)) row' = true ∧
         IntegrationRequest.attempt_count row' = IntegrationRequest.attempt_count row
  else ∃ e w', RetryRequest.execute c w = (Raise e, w') ∧
         isinstance e ErrorClass.ConflictError = true ∧ db w' = db w.
Proof.
  intros i HJ Hrow Hf Hown. pose proof (HJ i) as Hi. rewrite Hrow in Hi. destruct Hi as (Hid & Hwf & _).
  destruct (bool_decide _) eqn:Hb; [apply bool_decide_eq_true in Hb as Hs|].
  - assert (wp (RetryRequest.execute c) (λ r w', ∃ row',
         settled_commit i (IntegrationRequest.status row) RequestStatus.RETRY_SCHEDULED (db w) (db w') ∧
         t_requests (db w') !! i = Some row' ∧
         Requests.due_for_retry (clock_at (ticks w)) row' = true ∧
         IntegrationRequest.attempt_count row' = IntegrationRequest.attempt_count row)
       (λ _ _, False) w) as (r & w' & Hrun & row' & Hc)%wp_total; [|by exists r, w', row'].
    apply wp_with_uow. wp_step. eapply (wp_load_row i row); [done|].
    change (IntegrationRequest.status (request_to_domain row)) with (IntegrationRequest.status row).
    rewrite Hb. cbn [negb].
    eapply wp_conseq; [apply wp_and; [|apply (reschedule_due (request_to_domain row) c (loaded w row))]| |].
    + eapply (settles_commit _ RequestStatus.RETRY_SCHEDULED None _ (loaded w row) row
        _ (λ r' w', settled_commit i (IntegrationRequest.status row) RequestStatus.RETRY_SCHEDULED (db w) (db w') ∧
           t_requests (db w') !! i = Some (request_update_values r' row)) (λ _ _, False)); try done.
      * by apply reschedule_settles.
      * apply ready_loaded; [by rewrite Hid|done|done].
      * change (IntegrationRequest.status (request_to_domain row)) with (IntegrationRequest.status row).
        by intros Heq; rewrite Heq in Hb.
      * change (IntegrationRequest.id (request_to_domain row)) with (IntegrationRequest.id row).
        rewrite Hid. intros r' w' Hs' Hc Hr'. by wp_step.
    + intros r' w' [[Hc Hr'] (Hn & Ha & Hst)]. eexists. split_and!; [exact Hc|exact Hr'| |].
      * unfold Requests.due_for_retry, request_update_values. cbn. rewrite Hst, Hn, bool_decide_true by done. apply Z.leb_refl.
      * exact Ha.
    + by intros e w' [[] _].
  - assert (wp (RetryRequest.execute c) (λ _ _, False) (λ e w',
        isinstance e ErrorClass.ConflictError = true ∧ db w' = db w) w) as Hrun.
    { apply wp_with_uow. wp_step. eapply (wp_load_row i row); [done|].
      change (IntegrationRequest.status (request_to_domain row)) with (IntegrationRequest.status row).
      rewrite Hb. cbn [negb]. by wp_step. }
    unfold wp in Hrun. destruct (RetryRequest.execute c w) as [[r|e] w']; [done|]. by exists e, w'.
Qed.

Lemma retry_requeues_witness :
  ∃ r w' row', @RetryRequest.execute sample_env sample_operator (world_after failed_calls) = (Ret r, w') ∧
    settled_commit 7 RequestStatus.FAILED RequestStatus.RETRY_SCHEDULED
      (db (world_after failed_calls)) (db w') ∧
    t_requests (db w') !! 7%N = Some row' ∧
    Requests.due_for_retry (utc 10) row' = true ∧ IntegrationRequest.attempt_count row' = 1.
Proof.
  apply (@retry_requeues sample_env sample_env_ok sample_operator (request_after failed_calls)
    (world_after failed_calls)).
  - apply tables_after_journaled; [reflexivity|]. vm_compute. tauto.
  - reflexivity.
  - apply sample_fresh. vm_compute. lia.
  - reflexivity.
Defined.
End OperatorTheorems.
