(* ===== verification/WebhookIngestion.v ===== *)
(** Webhook ingestion ([application/use_cases/ingest_webhook.py]): verify, record
    the receipt, deduplicate, correlate, apply or defer. *)

From S2P Require Import Prelude PyData PyTime Enums Errors StateMachine ValueObjects Policies Entities RequestFacts.
From S2P Require Import Workflow Records Store Journal Ports Settlement Dispatcher Samples DispatcherFacts.

Record IngestWebhookCommand := mk_ingest_command {
  iw_webhook : InboundWebhook;
  iw_correlation_id : string;
}.

Record WebhookIngestionResult := mk_ingestion {
  wr_receipt_id : UUID;
  wr_status : WebhookProcessingStatus.t;
  wr_integration_request_id : option UUID;
  wr_detail : option string;
}.
Definition ingestion_accepted (r : WebhookIngestionResult) : bool :=
  negb (bool_decide (wr_status r = WebhookProcessingStatus.REJECTED)).

Definition WEBHOOK_ACTOR : Actor := mk_actor ActorType.WEBHOOK None.
Definition NORMALIZED_METADATA_KEY : string := "_normalized".

(** ** Signature headers ([application/ports/security.py]) *)

Definition _SIGNATURE_HEADERS : list string :=
  ["x-northstar-signature"; "x-meridian-signature"; "x-cobalt-signature"].

(** [lowered.get(name)]: of several headers equal up to case the last counts. *)
Definition lowered_get (headers : list (string * string)) (name : string) : option string :=
  snd <$> last (List.filter (λ kv, bool_decide (Str.lower kv.1 = name)) headers).

Definition extract_signature_header (headers : list (string * string)) : option string :=
  head (omap (λ name, match lowered_get headers name with
                      | Some v => if Str.truthy v then Some v else None
                      | None => None
                      end) _SIGNATURE_HEADERS).

(** ** The stored summary *)

(** [error.category.value if error else None] and the like. *)
Definition error_summary (e : ProviderErrorInfo) : dict :=
  [("code", JStr (ei_code e)); ("message", JStr (ei_message e));
   ("category", JStr (value (ei_category e))); ("retryable", JBool (ei_retryable e));
   ("provider_code", jopt (ei_provider_code e))].

Definition _receipt_payload (e : NormalizedWebhookEvent) : dict :=
  let normalized :=
    [("status", JStr (value (we_normalized_status e)));
     ("occurred_at", JStr (isoformat (we_occurred_at e)));
     ("provider_reference", jopt (we_provider_reference e));
     ("external_reference", jopt (we_external_reference e))] ++
    match we_error e with
    | Some err => [("error", JObj (error_summary err))]
    | None => []
    end in
  dict_set NORMALIZED_METADATA_KEY (JObj normalized) (we_payload_metadata e).

(** A stored value read back as optional text. A receipt holds text or null
    under the keys read with it ([_receipt_payload]). *)
Definition opt_text (v : option json) : option string :=
  match v with Some (JStr s) => Some s | _ => None end.

Section Rehydrate.
(** [repr] of a float, a list or a dict. *)
Context (py_repr : json → string).

(** [EnumClass(v)] *)
Definition enum_of `{StrEnum T} (v : json) : outcome exn T :=
  match v with
  | JStr s => match of_value s with
              | Some x => Ret x
              | None => Raise (EValueError ("'" +:+ s +:+ "' is not a valid member"))
              end
  | _ => Raise (EValueError "not a valid member")
  end.

Definition rehydrate_error (v : option json) : outcome exn (option ProviderErrorInfo) :=
  match v with
  | Some (JObj d) =>
      match enum_of (default (JStr (value ErrorCategory.INTERNAL)) (dict_get "category" d)) with
      | Raise e => Raise e
      | Ret cat => Ret (Some
          {| ei_code := py_str py_repr (default (JStr "provider_error") (dict_get "code" d));
             ei_message := py_str py_repr (default (JStr "") (dict_get "message" d));
             ei_category := cat;
             ei_retryable := json_truthy (default (JBool false) (dict_get "retryable" d));
             ei_provider_code := opt_text (dict_get "provider_code" d);
             ei_retry_after_seconds := None |})
      end
  | _ => Ret None
  end.

Definition rehydrate_event (w : WebhookReceipt.t) : outcome exn NormalizedWebhookEvent :=
  match dict_get NORMALIZED_METADATA_KEY (WebhookReceipt.payload w) with
  | Some (JObj n) =>
      match rehydrate_error (dict_get "error" n) with
      | Raise e => Raise e
      | Ret err =>
          match dict_get "status" n with
          | None => Raise (EKeyError "status")
          | Some st =>
              match enum_of st with
              | Raise e => Raise e
              | Ret status =>
                  match dict_get "occurred_at" n with
                  | None => Raise (EKeyError "occurred_at")
                  | Some (JStr text) =>
                      match fromisoformat text with
                      | None => Raise (EValueError "Invalid isoformat string")
                      | Some at_ => webhook_event_make
                          {| we_provider := WebhookReceipt.provider w;
                             we_provider_event_id := WebhookReceipt.event_id w;
                             we_event_type := WebhookReceipt.event_type w;
                             we_normalized_status := status;
                             we_occurred_at := at_;
                             we_provider_reference :=
                               (let ref := opt_text (dict_get "provider_reference" n) in
                                if truthy_opt ref then ref else WebhookReceipt.provider_reference w);
                             we_external_reference := opt_text (dict_get "external_reference" n);
                             we_correlation_id := WebhookReceipt.correlation_id w;
                             we_payload_metadata :=
                               List.filter (λ kv, negb (bool_decide (kv.1 = NORMALIZED_METADATA_KEY)))
                                 (WebhookReceipt.payload w);
                             we_error := err |}
                      end
                  | Some _ => Raise (ETypeError "fromisoformat: argument must be str")
                  end
              end
          end
      end
  | _ => Raise (error ErrorClass.ValidationError
      "this receipt has no normalized summary and cannot be reprocessed"
      (no_kwargs <| k_metadata := [("webhook_receipt_id", JStr (uuid_str (WebhookReceipt.id w)))] |>))
  end.
End Rehydrate.

(** [first or second], for values that are never falsy. *)
Definition first_some {A} (a b : option A) : option A := match a with Some _ => a | None => b end.

(** The receipt of a verified event. *)
Definition receipt_for (i : UUID) (wh : InboundWebhook) (e : NormalizedWebhookEvent)
    (md : signature_metadata) (corr : string) : WebhookReceipt.t :=
  {| WebhookReceipt.id := i; WebhookReceipt.provider := in_provider wh;
     WebhookReceipt.event_id := we_provider_event_id e;
     WebhookReceipt.event_type := we_event_type e;
     WebhookReceipt.payload := _receipt_payload e;
     WebhookReceipt.sig_metadata := md;
     WebhookReceipt.received_at := in_received_at wh;
     WebhookReceipt.provider_reference := we_provider_reference e;
     WebhookReceipt.correlation_id := first_some (we_correlation_id e) (Some corr);
     WebhookReceipt.processing_status := WebhookProcessingStatus.RECEIVED;
     WebhookReceipt.integration_request_id := None;
     WebhookReceipt.processed_at := None; WebhookReceipt.failure_reason := None;
     WebhookReceipt.attempt_count := 0; WebhookReceipt.next_attempt_at := None |}.

(** * The use case *)

Module IngestWebhook.
Section UseCase.
Context `{Env} `{Platform}.
(** [WebhookReplayGuard.claim], the configured delay, and the hook. *)
Context (claim : string → string → H bool) (deferred_retry_seconds : Q)
  (on_request_updated : option (UUID → H unit)).

Definition _reread_duplicate (provider event_id corr : string) : H (WebhookReceipt.t * bool) :=
  with_uow (
    let* existing := Webhooks.find_by_event_id provider event_id in
    match existing with
    | None => raise (error ErrorClass.ConflictError
        "a concurrent delivery of this event is still being recorded"
        (no_kwargs <| k_correlation_id := Some corr |>))
    | Some w => ret (w, true)
    end).

Definition _persist_receipt (wh : InboundWebhook) (e : NormalizedWebhookEvent)
    (md : signature_metadata) (corr : string) : H (WebhookReceipt.t * bool) :=
  with_uow (
    let* existing := Webhooks.find_by_event_id (in_provider wh) (we_provider_event_id e) in
    match existing with
    | Some w =>
        if WebhookReceipt.is_settled w then
          record_webhook_action (WebhookReceipt.id w) AuditAction.WEBHOOK_DUPLICATE_IGNORED corr
            [("provider", JStr (in_provider wh)); ("provider_event_id", JStr (we_provider_event_id e));
             ("previous_status", JStr (value (WebhookReceipt.processing_status w)))] ;;;
          commit ;;;
          ret (w, true)
        else
          commit ;;;
          ret (w, false)
    | None =>
        let* i := new_id in
        let* w := lift (WebhookReceipt.make (receipt_for i wh e md corr)) in
        Webhooks.add w ;;;
        let* conflict := try_except (flush ;;; ret false) (λ e,
          if isinstance e ErrorClass.ConflictError then Some (rollback ;;; ret true) else None) in
        if conflict : bool then
          _reread_duplicate (in_provider wh) (we_provider_event_id e) corr
        else
          record_webhook_action (WebhookReceipt.id w) AuditAction.WEBHOOK_RECEIVED corr
            [("provider", JStr (in_provider wh)); ("provider_event_id", JStr (we_provider_event_id e));
             ("event_type", JStr (we_event_type e));
             ("normalized_status", JStr (value (we_normalized_status e)));
             ("signature", JObj (signature_to_dict md))] ;;;
          commit ;;;
          ret (w, false)
    end).

Definition _record_rejection (wh : InboundWebhook) (md : signature_metadata) (reason corr : string) :
    H WebhookIngestionResult :=
  let* i := new_id in
  let* w := lift (WebhookReceipt.make
    {| WebhookReceipt.id := i; WebhookReceipt.provider := in_provider wh;
       WebhookReceipt.event_id := "unverified:" +:+ uuid_str i;
       WebhookReceipt.event_type := "unverified";
       WebhookReceipt.payload := [("body_bytes", JInt (Z.of_nat (length (in_body wh))))];
       WebhookReceipt.sig_metadata := md; WebhookReceipt.received_at := in_received_at wh;
       WebhookReceipt.provider_reference := None; WebhookReceipt.correlation_id := Some corr;
       WebhookReceipt.processing_status := WebhookProcessingStatus.RECEIVED;
       WebhookReceipt.integration_request_id := None; WebhookReceipt.processed_at := None;
       WebhookReceipt.failure_reason := None; WebhookReceipt.attempt_count := 0;
       WebhookReceipt.next_attempt_at := None |}) in
  let* t := now in
  let* (_, w) := on w (WebhookReceipt.mark_rejected reason t) in
  with_uow (
    Webhooks.add w ;;;
    record_webhook_action (WebhookReceipt.id w) AuditAction.WEBHOOK_REJECTED corr
      [("provider", JStr (in_provider wh)); ("reason", JStr reason);
       ("remote_address", jopt (in_remote_address wh))] ;;;
    commit) ;;;
  ret (mk_ingestion (WebhookReceipt.id w) WebhookProcessingStatus.REJECTED None
         (Some "the webhook could not be verified")).

Definition _resolve_request (e : NormalizedWebhookEvent) : H (option IntegrationRequest.t) :=
  if negb (truthy_opt (we_provider_reference e)) then ret None
  else Requests.find_by_provider_reference (we_provider e) (default "" (we_provider_reference e)).

Definition _defer (w : WebhookReceipt.t) (e : NormalizedWebhookEvent) : H WebhookIngestionResult :=
  let* t := now in
  let next_attempt := dt_add t (timedelta_seconds deferred_retry_seconds) in
  let* (_, w) := on w (WebhookReceipt.mark_deferred
    "no integration request matches this provider reference yet" next_attempt t) in
  Webhooks.update w ;;;
  let* corr := match first_some (WebhookReceipt.correlation_id w) (we_correlation_id e) with
               | Some c => ret c
               | None => let* u := new_id in lift (CorrelationId.generate u)
               end in
  record_webhook_action (WebhookReceipt.id w) AuditAction.WEBHOOK_DEFERRED corr
    [("provider", JStr (we_provider e)); ("provider_reference", jopt (we_provider_reference e));
     ("attempt", JInt (WebhookReceipt.attempt_count w));
     ("next_attempt_at", JStr (isoformat next_attempt))] ;;;
  commit ;;;
  ret (mk_ingestion (WebhookReceipt.id w) WebhookProcessingStatus.DEFERRED None
         (Some "the referenced operation is not known yet; the event is held for retry")).

(** The rest of the unit of work of [process_receipt] once the request is
    known: the result, and whether the hook is to be called. *)
Definition apply_event (r : IntegrationRequest.t) (w : WebhookReceipt.t)
    (e : NormalizedWebhookEvent) : H (WebhookIngestionResult * bool) :=
  let correlated_id := IntegrationRequest.id r in
  let* t := now in
  let* (transition, r) := on r (IntegrationRequest.apply_normalized_status (we_normalized_status e) t
                            (we_provider_reference e) (to_failure_detail <$> we_error e)) in
  match transition with
  | None =>
      let* t' := now in
      let* (_, w) := on w (WebhookReceipt.mark_processed t' (Some correlated_id)) in
      Webhooks.update w ;;;
      record_request_action r AuditAction.WEBHOOK_DUPLICATE_IGNORED WEBHOOK_ACTOR
        [("provider_event_id", JStr (we_provider_event_id e));
         ("reported_status", JStr (value (we_normalized_status e)));
         ("current_status", JStr (value (IntegrationRequest.status r)))] ;;;
      commit ;;;
      ret (mk_ingestion (WebhookReceipt.id w) WebhookProcessingStatus.PROCESSED (Some correlated_id)
             (Some "the reported status carried no forward progress"), false)
  | Some tr =>
      record_transition r tr AuditAction.WEBHOOK_APPLIED WEBHOOK_ACTOR
        [("provider_event_id", JStr (we_provider_event_id e));
         ("event_type", JStr (we_event_type e));
         ("reported_status", JStr (value (we_normalized_status e)))]
        (Some (we_provider_event_id e)) true ;;;
      let* t' := now in
      let* (_, w) := on w (WebhookReceipt.mark_processed t' (Some correlated_id)) in
      Webhooks.update w ;;;
      commit ;;;
      ret (mk_ingestion (WebhookReceipt.id w) WebhookProcessingStatus.PROCESSED (Some correlated_id)
             None, true)
  end.

Definition process_receipt (w : WebhookReceipt.t) (e : NormalizedWebhookEvent) :
    H WebhookIngestionResult :=
  let* (res, updated) := with_uow (
    let* request := _resolve_request e in
    match request with
    | None => let* res := _defer w e in ret (res, false)
    | Some r => apply_event r w e
    end) in
  (if updated : bool then
     match on_request_updated, wr_integration_request_id res with
     | Some hook, Some i => try_except (hook i) (λ _, Some (ret tt))
     | _, _ => ret tt
     end
   else ret tt) ;;;
  ret res.

Definition execute (c : IngestWebhookCommand) : H WebhookIngestionResult :=
  let wh := iw_webhook c in
  let corr := iw_correlation_id c in
  match gateways !! in_provider wh with
  | None => raise (ProviderNotConfiguredError (in_provider wh) (Some corr))
  | Some g =>
      let* v := lift (validate_webhook g wh) in
      let md := wv_signature_metadata v in
      if negb (wv_verified v) then
        _record_rejection wh md (or_else (wv_reason v) "signature verification failed") corr
      else
        let* fresh :=
          match extract_signature_header (in_headers wh) with
          | None => ret true
          | Some s => claim (in_provider wh) s
          end in
        if negb fresh then
          _record_rejection wh md "signature replay detected within the dedupe window" corr
        else
          match normalize_webhook g wh with
          | Raise (EDomain d) =>
              if ErrorClass.subclass (cls d) ErrorClass.ValidationError
              then _record_rejection wh md ("normalization failed: " +:+ err_code d) corr
              else raise (EDomain d)
          | Raise ex => raise ex
          | Ret e =>
              let* (w, duplicate) := _persist_receipt wh e md corr in
              if duplicate : bool then
                ret (mk_ingestion (WebhookReceipt.id w) WebhookProcessingStatus.DUPLICATE
                       (WebhookReceipt.integration_request_id w)
                       (Some "this event was already recorded"))
              else process_receipt w e
          end
  end.
End UseCase.
End IngestWebhook.

(** * Every transaction of an ingestion is journaled *)

Section WebhookFacts.
Context `{Env} `{P : Platform}.

Lemma receipt_update_history rc T :
  same_history T (T <| t_receipts ::= alter (receipt_update_values rc) (WebhookReceipt.id rc) |>).
Proof.
  split_and!; try done; intros i; cbn; [|destruct (_ !! i); [apply kept_definition_refl|done]].
  destruct (decide (i = WebhookReceipt.id rc)) as [-> |Hne].
  - rewrite lookup_alter_eq. by destruct (_ !! _).
  - rewrite lookup_alter_ne by done. destruct (_ !! i); [apply kept_receipt_refl|done].
Qed.

Lemma journaling_receipt_update rc : journaling (Webhooks.update rc).
Proof. apply journaling_modify. intros T. apply receipt_update_history. Qed.

Lemma read_only_find_event p i : read_only (Webhooks.find_by_event_id p i).
Proof. unfold Webhooks.find_by_event_id. ro_go. Qed.

(** Correlating loads a well-formed request whose row the session holds. *)
Lemma wp_find_reference p ref (Q : option IntegrationRequest.t → World → Prop) X w :
  inside w → (Q None w) →
  (∀ r w', same_tables w w' → wf r → holds w' r → Q (Some r) w') →
  (∀ e, X e w) →
  wp (Requests.find_by_provider_reference p ref) Q X w.
Proof.
  intros (HJ & Hv & Hg) HN HS HX. unfold Requests.find_by_provider_reference, reading.
  wp_step. wp_step. destruct (List.filter _ _) as [|row [|row' l]] eqn:Hl; [done| |by apply HX].
  apply wp_load; [done|]. intros r0 w' [= <-] Hw.
  assert (row ∈ (map_to_list (t_requests (working (sess w)))).*2) as Hin.
  { apply list_elem_of_In. assert (In row [row]) as Hi by (by left). rewrite <- Hl in Hi.
    by apply filter_In in Hi as [? _]. }
  apply list_elem_of_fmap in Hin as ([i x] & -> & Hix%elem_of_map_to_list). cbn in *.
  pose proof (virtual_lookup _ _ _ Hix) as Hvx. specialize (Hv i). rewrite Hvx in Hv.
  destruct Hv as (Hid & Hwf & _). apply HS; [done|by apply wf_to_domain|].
  exists x. unfold request_to_domain. cbn. rewrite Hid. destruct Hw as (_ & -> & _). done.
Qed.

Lemma apply_event_journaling r rc e :
  journaling_with r (IngestWebhook.apply_event r rc e).
Proof.
  intros w Hin Hh Hwf. unfold IngestWebhook.apply_event. cbn zeta.
  wp_step. apply wp_now. intros w1 H1. wp_step. apply wp_on.
  pose proof (perform_effect (CApplyStatus (we_normalized_status e) (clock_at (ticks w))
    (we_provider_reference e) (to_failure_detail <$> we_error e)) r) as He.
  pose proof (perform_wf (CApplyStatus (we_normalized_status e) (clock_at (ticks w))
    (we_provider_reference e) (to_failure_detail <$> we_error e)) r Hwf) as Hw.
  eapply wp_conseq; [apply wp_and; [apply He|apply Hw]| |].
  2:{ intros ex r' _. apply inside_sound; [done|apply H1]. }
  intros [tr|] r' [Heff Hwf'].
  - wp_step. eapply wp_record_transition; [by eapply same_tables_inside|by eapply same_tables_holds|exact Heff|done| |].
    2:{ intros ex w' Hdb. apply inside_sound; [done|]. rewrite Hdb. apply H1. }
    intros w2 Hin2 Hh2 Hdb2. assert (db w2 = db w) as Hdbw by (rewrite Hdb2; apply H1).
    assert (journaling (let* t' := now in
      let* (_, w0) := on rc (WebhookReceipt.mark_processed t' (Some (IntegrationRequest.id r))) in
      Webhooks.update w0 ;;; commit ;;;
      ret (mk_ingestion (WebhookReceipt.id w0) WebhookProcessingStatus.PROCESSED
             (Some (IntegrationRequest.id r)) None, true))) as Hj.
    { pose proof journaling_receipt_update. uow_go. }
    eapply wp_conseq; [by apply Hj|..]; unfold sound; by rewrite Hdbw.
  - assert (journaling (let* t' := now in
      let* (_, w0) := on rc (WebhookReceipt.mark_processed t' (Some (IntegrationRequest.id r))) in
      Webhooks.update w0 ;;;
      record_request_action r' AuditAction.WEBHOOK_DUPLICATE_IGNORED WEBHOOK_ACTOR
        [("provider_event_id", JStr (we_provider_event_id e));
         ("reported_status", JStr (value (we_normalized_status e)));
         ("current_status", JStr (value (IntegrationRequest.status r')))] ;;;
      commit ;;;
      ret (mk_ingestion (WebhookReceipt.id w0) WebhookProcessingStatus.PROCESSED
             (Some (IntegrationRequest.id r))
             (Some "the reported status carried no forward progress"), false))) as Hj.
    { pose proof journaling_receipt_update. uow_go. }
    eapply wp_conseq; [apply Hj; by eapply same_tables_inside|..]; unfold sound;
      destruct H1 as (-> & _); done.
Qed.

Lemma defer_journaling delay rc e : journaling (IngestWebhook._defer delay rc e).
Proof. pose proof journaling_receipt_update. unfold IngestWebhook._defer. uow_go. Qed.

Lemma process_receipt_calm delay hook rc e :
  calm_hook hook → calm (IngestWebhook.process_receipt delay hook rc e).
Proof.
  intros Hh. unfold IngestWebhook.process_receipt. apply calm_bind.
  - apply calm_uow. unfold IngestWebhook._resolve_request.
    assert (journaling (let* res := IngestWebhook._defer delay rc e in ret (res, false))) as Hd.
    { pose proof (defer_journaling delay rc e). uow_go. }
    destruct (negb _); [exact Hd|].
    intros w Hin. unfold bind at 1. apply wp_bind. apply wp_find_reference; [done| | |].
    + by apply Hd.
    + intros r w' Hw Hwf Hho. eapply wp_conseq;
        [apply apply_event_journaling; [by eapply same_tables_inside|done|done]|..];
        unfold sound; destruct Hw as (-> & _); done.
    + intros ex. by apply inside_sound.
  - intros [res updated]. calm_go. apply calm_try; [by eapply Hh|]. intros ex k [= <-]. apply calm_ret.
Qed.

Lemma record_rejection_calm wh md reason corr :
  calm (IngestWebhook._record_rejection wh md reason corr).
Proof.
  unfold IngestWebhook._record_rejection. calm_go. apply calm_uow. unfold Webhooks.add.
  uow_step; [by apply journaling_add|]. uow_go.
Qed.

Lemma persist_receipt_calm wh e md corr : calm (IngestWebhook._persist_receipt wh e md corr).
Proof.
  pose proof (λ p i, journaling_same _ (read_only_find_event p i)).
  assert (∀ p i, read_only (IngestWebhook._reread_duplicate p i corr)) as Hre.
  { intros p i. pose proof (read_only_find_event p i). apply read_only_uow. ro_go. }
  apply calm_uow. uow_step; [done|]. destruct a as [w|]; [uow_go|].
  uow_step; [eauto with calm_db|]. uow_step; [eauto with calm_db|].
  uow_step; [by apply journaling_add|]. apply journaling_bind.
  - apply journaling_try.
    + intros w0 Hin. wp_step. eapply wp_conseq; [by apply flush_inside|done|done].
    + intros ex k. destruct (isinstance _ _); [|done]. intros [= <-]. uow_go.
  - intros []; [by apply journaling_same|uow_go].
Qed.

Lemma ingest_calm claim delay hook c :
  (∀ p s, calm (claim p s)) → calm_hook hook → calm (IngestWebhook.execute claim delay hook c).
Proof.
  intros Hc Hh. pose proof record_rejection_calm. pose proof persist_receipt_calm.
  pose proof (process_receipt_calm delay hook). unfold IngestWebhook.execute. calm_go.
Qed.
End WebhookFacts.
#[export] Hint Resolve process_receipt_calm ingest_calm : calm_db.

(** * Theorems *)

Lemma filter_dict_set k v (d : dict) :
  dict_get k d = None →
  List.filter (λ kv, negb (bool_decide (kv.1 = k))) (dict_set k v d) = d.
Proof.
  induction d as [|[k' v'] d IH]; cbn [dict_set].
  - intros _. cbn. by rewrite bool_decide_true.
  - rewrite dict_get_cons. case_bool_decide as Hk; [done|]. intros Hd.
    cbn. rewrite (bool_decide_false (k' = k)) by done. cbn. f_equal. by apply IH.
Qed.

Lemma rehydrate_error_summary py_repr err :
  ei_retry_after_seconds err = None →
  rehydrate_error py_repr (Some (JObj (error_summary err))) = Ret (Some err).
Proof.
  destruct err as [c m cat rt pc ra]. cbn. intros ->. unfold rehydrate_error, error_summary.
  dict_simpl. cbn [default from_option ei_code ei_message ei_category ei_retryable ei_provider_code].
  unfold enum_of, id. rewrite of_value_value. by destruct pc.
Qed.

(** What recording an unverified webhook may do: add a receipt whose event id
    starts with ["unverified:"]. *)
Definition only_unverified (T T' : tables) : Prop :=
  t_requests T' = t_requests T ∧
  (∀ i x, t_receipts T !! i = Some x → t_receipts T' !! i = Some x) ∧
  (∀ i x, t_receipts T' !! i = Some x →
     t_receipts T !! i = Some x ∨ ∃ s, WebhookReceipt.event_id x = "unverified:" +:+ s).

Lemma only_unverified_refl T : only_unverified T T.
Proof. split_and!; auto. Qed.

Lemma rejection_rows T x a T' :
  WebhookReceipt.event_id x = "unverified:" +:+ uuid_str (WebhookReceipt.id x) →
  insert_all T [NewReceipt x; NewAudit a] = inr T' → only_unverified T T'.
Proof.
  intros Hx Hi. apply insert_all_virtual in Hi. cbn in Hi. subst T'. split_and!; cbn; [done|..].
  - intros i y Hy. by apply insert_absent_lookup_Some.
  - intros i y. unfold insert_absent. destruct (t_receipts T !! WebhookReceipt.id x); [by left|].
    destruct (decide (i = WebhookReceipt.id x)) as [-> |Hne].
    + rewrite lookup_insert_eq. intros [= <-]. right. by eexists.
    + rewrite lookup_insert_ne by done. by left.
Qed.

Section Recording.
Context `{Env} {HE : EnvOk _}.

Lemma wp_webhook_action_total i act corr md (Q : unit → World → Prop) (X : exn → World → Prop) w :
  (∀ a w', db w' = db w → working (sess w') = working (sess w) →
     pending (sess w') = pending (sess w) ++ [NewAudit a] →
     AuditEvent.id a = uuid_at (drawn w) → AuditEvent.action a = act → silent a → Q tt w') →
  wp (record_webhook_action i act corr md) Q X w.
Proof.
  intros HQ. unfold record_webhook_action, new_id, now.
  wp_step. unfold wp at 1. wp_step. unfold wp at 1. wp_step. wp_step.
  destruct (AuditEvent.for_webhook _ _ _ _ _ _) as [a|e] eqn:He.
  - apply silent_webhook in He as Hsil. unfold AuditEvent.for_webhook, AuditEvent.make in He.
    destruct (negb _); [done|]. destruct (negb _); [done|]. injection He as <-.
    unfold Audit.append, add_row, modify_session. wp_step. by eapply HQ.
  - unfold AuditEvent.for_webhook, AuditEvent.make in He. cbn in He.
    by rewrite clock_aware, uuid_str_truthy in He.
Qed.

Lemma wp_rejection wh md reason corr w :
  let P := only_unverified (db w) in
  wp (IngestWebhook._record_rejection wh md reason corr)
     (λ res w', wr_status res = WebhookProcessingStatus.REJECTED ∧ P (db w')) (λ _ w', P (db w')) w.
Proof.
  intros P. unfold IngestWebhook._record_rejection, new_id, now. wp_step. unfold wp at 1. wp_step. wp_step.
  unfold WebhookReceipt.make. destruct (_require_aware _ _) as [x|]; [|by apply only_unverified_refl].
  destruct (negb _); [by apply only_unverified_refl|]. wp_step. unfold wp at 1. wp_step. apply wp_on.
  unfold WebhookReceipt.mark_rejected. wp_step. wp_step. wp_step. wp_step.
  rewrite require_aware_ok by apply clock_aware. wp_step. wp_step. apply wp_with_uow.
  unfold Webhooks.add, add_row, modify_session. wp_step. wp_step. wp_step.
  apply wp_webhook_action_total. intros a w1 Hdb Hw Hp _ _ _. cbn in Hdb, Hw, Hp.
  unfold commit, flush. wp_step. wp_step. wp_step. rewrite Hw, Hp.
  destruct (insert_all _ _) as [v|T] eqn:Hi.
  - wp_step. unfold rollback. wp_step. wp_step. cbn. rewrite Hdb. apply only_unverified_refl.
  - unfold modify_session. wp_step. wp_step. wp_step. split; [done|].
    cbn. by eapply rejection_rows; [|exact Hi].
Qed.

(** A receipt for event [eid] of provider [p] is stored. *)
Definition recorded (T : tables) (p eid : string) : Prop :=
  ∃ i x, t_receipts T !! i = Some x ∧ WebhookReceipt.provider x = p ∧ WebhookReceipt.event_id x = eid.

Lemma recorded_grows T T' p eid : grows T T' → recorded T p eid → recorded T' p eid.
Proof.
  intros Hg (i & x & Hx & <- & <-). apply (grows_receipts _ _ Hg) in Hx as (x' & Hx' & Hk).
  exists i, x'. split; [done|]. destruct Hk as (_ & ? & ? & _). done.
Qed.

Definition receipts_for (T : tables) (p eid : string) : list WebhookReceipt.t :=
  List.filter (λ w, bool_decide (WebhookReceipt.provider w = p) &&
                    bool_decide (WebhookReceipt.event_id w = eid)) (map_to_list (t_receipts T)).*2.

Lemma receipts_for_nil T p eid x :
  receipts_for T p eid = [] → WebhookReceipt.provider x = p → WebhookReceipt.event_id x = eid →
  existsb (λ kv : N * WebhookReceipt.t, bool_decide (WebhookReceipt.provider kv.2 = WebhookReceipt.provider x) &&
              bool_decide (WebhookReceipt.event_id kv.2 = WebhookReceipt.event_id x))
    (map_to_list (t_receipts T)) = false.
Proof.
  unfold receipts_for. intros Hn -> ->. induction (map_to_list (t_receipts T)) as [|[i y] l IH]; [done|].
  cbn in *. destruct (_ && _); [done|]. by apply IH.
Qed.

(** A recorded rejection: a receipt under the reserved prefix and one audit note. *)
Definition rejected_commit (T T' : tables) : Prop :=
  ∃ j x a, t_receipts T !! j = None ∧ WebhookReceipt.event_id x = "unverified:" +:+ uuid_str j ∧
    WebhookReceipt.processing_status x = WebhookProcessingStatus.REJECTED ∧
    AuditEvent.action a = AuditAction.WEBHOOK_REJECTED ∧ silent a ∧
    T' = T <| t_receipts := <[j := x]> (t_receipts T) |> <| t_audit := t_audit T ++ [a] |>.

(** A refused delivery can be recorded: its time has a zone, the identifier drawn
    for its receipt is new and so is the event id made of it. *)
Definition rejectable (w : World) (wh : InboundWebhook) : Prop :=
  is_aware (in_received_at wh) = true ∧ t_receipts (db w) !! uuid_at (drawn w) = None ∧
  receipts_for (db w) (in_provider wh) ("unverified:" +:+ uuid_str (uuid_at (drawn w))) = [].

Lemma wp_rejection_total wh md reason corr w :
  rejectable w wh → fresh_ids w (db w) →
  wp (IngestWebhook._record_rejection wh md reason corr)
     (λ res w', wr_status res = WebhookProcessingStatus.REJECTED ∧ rejected_commit (db w) (db w')) (λ _ _, False) w.
Proof.
  intros (Haw & Hid & Hev) Hf. unfold IngestWebhook._record_rejection, new_id, now. wp_step. unfold wp at 1. wp_step. wp_step.
  unfold WebhookReceipt.make. cbn [WebhookReceipt.received_at WebhookReceipt.event_id]. rewrite require_aware_ok by done.
  change (Str.truthy ("unverified:" +:+ _)) with true. cbn [negb]. wp_step. unfold wp at 1. wp_step. apply wp_on.
  unfold WebhookReceipt.mark_rejected. wp_step. wp_step. wp_step. wp_step.
  rewrite require_aware_ok by apply clock_aware. wp_step. wp_step. apply wp_with_uow.
  unfold Webhooks.add, add_row, modify_session. wp_step. wp_step. wp_step.
  apply wp_webhook_action_total. intros a w1 Hdb Hw Hp Ha Hact Hsil. cbn in Hdb, Hw, Hp, Ha.
  unfold commit, flush. wp_step. wp_step. wp_step. rewrite Hw, Hp.
  match goal with |- context [insert_all _ [NewReceipt ?y; _]] => set (x := y) end.
  assert (WebhookReceipt.id x = uuid_at (drawn w)) as Hxi by done.
  assert (WebhookReceipt.provider x = in_provider wh) as Hxp by done.
  assert (WebhookReceipt.event_id x = "unverified:" +:+ uuid_str (uuid_at (drawn w))) as Hxe by done.
  assert (WebhookReceipt.processing_status x = WebhookProcessingStatus.REJECTED) as Hxs by done.
  assert (WebhookReceipt.integration_request_id x = None) as Hxr by done.
  clearbody x.
  assert (insert_all (db w) [NewReceipt x; NewAudit a] = inr (insert_row (insert_row (db w) (NewReceipt x)) (NewAudit a))) as ->.
  { cbn. rewrite Hxi, Hid, bool_decide_false by (by intros []).
    rewrite (receipts_for_nil _ _ _ x Hev) by done. rewrite Hxr. rewrite existsb_absent; [done|].
    intros y Hy. apply bool_decide_false. rewrite Ha. by apply (Hf (S (drawn w))); [lia|]. }
  unfold modify_session. wp_step. wp_step. wp_step. split; [done|].
  exists (uuid_at (drawn w)), x, a. split_and!; try done. cbn. unfold insert_absent. by rewrite Hxi, Hid.
Qed.

(** Recording a new event always succeeds. *)
Lemma wp_persist_new wh e md corr w :
  let p := in_provider wh in let eid := we_provider_event_id e in
  receipts_for (db w) p eid = [] → t_receipts (db w) !! uuid_at (drawn w) = None →
  is_aware (in_received_at wh) = true → Str.truthy eid = true → fresh_ids w (db w) →
  wp (IngestWebhook._persist_receipt wh e md corr)
     (λ o w', o = (receipt_for (uuid_at (drawn w)) wh e md corr, false) ∧ recorded (db w') p eid)
     (λ _ _, False) w.
Proof.
  intros p eid Hnone Hid Haw Htr Hf. apply wp_with_uow. wp_step.
  unfold Webhooks.find_by_event_id, reading. wp_step. wp_step.
  change (List.filter _ _) with (receipts_for (db w) p eid). rewrite Hnone. wp_step.
  unfold new_id. wp_step. unfold wp at 1. wp_step. wp_step. set (x := receipt_for _ _ _ _ _).
  assert (WebhookReceipt.make x = Ret x) as ->.
  { unfold WebhookReceipt.make. cbn. rewrite require_aware_ok by done. unfold eid in Htr. by rewrite Htr. }
  unfold Webhooks.add, add_row, modify_session. wp_step. wp_step. wp_step. wp_step. wp_step.
  unfold flush. wp_step. wp_step. cbn [sess set working pending app open_session].
  assert (insert_all (db w) [NewReceipt x] = inr (insert_row (db w) (NewReceipt x))) as ->.
  { cbn. rewrite Hid, bool_decide_false by (by intros []).
    by rewrite (receipts_for_nil _ p eid x) by done. }
  unfold modify_session. wp_step. wp_step. wp_step. apply wp_webhook_action_total.
  intros a w1 Hdb Hw Hp Ha _ _. cbn in Hdb, Hp, Ha. wp_step.
  eapply wp_commit_note; [exact Hp|..].
  - rewrite Hw, Ha. intros y Hy. by apply (Hf (S (drawn w))); [lia|].
  - intros w' Hdb'. wp_step. split; [done|]. exists (uuid_at (drawn w)), x.
    cbn. rewrite Hdb', Hw. cbn. unfold insert_absent. cbn. rewrite Hid, lookup_insert_eq. done.
Qed.
End Recording.

Section Applying.
Context `{Env} {HE : EnvOk _}.

(** The reference belongs to exactly the request [row]. *)
Definition correlates (T : tables) (p : string) (ref : option string) (row : IntegrationRequest.t) : Prop :=
  ∃ s, ref = Some s ∧ s ≠ "" ∧
    List.filter (λ r, bool_decide (IntegrationRequest.provider r = p) &&
                      bool_decide (IntegrationRequest.provider_reference r = Some s))
      (map_to_list (t_requests T)).*2 = [row].

Lemma correlates_row T p ref row :
  Journaled T → correlates T p ref row →
  t_requests T !! IntegrationRequest.id row = Some row ∧ IntegrationRequest.provider_reference row = ref.
Proof.
  intros HJ (s & -> & Hs & Hl). assert (In row [row]) as Hi by (by left). rewrite <- Hl in Hi.
  apply filter_In in Hi as [Hin%list_elem_of_In Hb].
  apply andb_true_iff in Hb as [_ Hb%bool_decide_eq_true]. split; [|done].
  apply list_elem_of_fmap in Hin as ([i x] & -> & Hix%elem_of_map_to_list). cbn in *.
  specialize (HJ i). rewrite Hix in HJ. destruct HJ as (-> & _). done.
Qed.

(** A report that is forward progress moves the request to its projection; an
    acceptance needs a reference from the report or from the request. *)
Lemma apply_forward r s t ref f target :
  project_normalized_status s = Some target → is_forward_progress (IntegrationRequest.status r) target = true →
  is_aware t = true →
  truthy_opt ref = true ∨ truthy_opt (IntegrationRequest.provider_reference r) = true →
  wp (IntegrationRequest.apply_normalized_status s t ref f)
     (λ o r', ∃ tr, o = Some tr ∧ IntegrationRequest.id r' = IntegrationRequest.id r ∧
        previous_status tr = IntegrationRequest.status r ∧ new_status tr = target ∧
        IntegrationRequest.status r' = target ∧ is_aware (occurred_at tr) = true ∧
        (IntegrationRequest.provider_reference r' = IntegrationRequest.provider_reference r ∨
         IntegrationRequest.provider_reference r' = ref))
     (λ _ _, False) r.
Proof.
  intros Hp Hf Ht Href. unfold IntegrationRequest.apply_normalized_status. rewrite Hp. wp_step. wp_step.
  rewrite Hf. cbn [negb].
  assert (∃ x, or_opt ref (IntegrationRequest.provider_reference r) = Some x ∧ Str.truthy x = true ∧
            (IntegrationRequest.provider_reference r = Some x ∨ ref = Some x)) as (x & Hor & Hxt & Hx).
  { unfold or_opt. destruct (truthy_opt ref) eqn:Hr.
    - apply truthy_opt_true in Hr as (x & -> & Hx). exists x. apply Str.truthy_true in Hx. auto.
    - destruct Href as [?|Hr2]; [done|]. apply truthy_opt_true in Hr2 as (x & -> & Hx).
      exists x. apply Str.truthy_true in Hx. auto. }
  assert (or_opt ref (if truthy_opt ref && negb (truthy_opt (IntegrationRequest.provider_reference r))
                      then ref else IntegrationRequest.provider_reference r) = Some x) as Hor'.
  { unfold or_opt in *. destruct (truthy_opt ref); [done|exact Hor]. }
  destruct s; try done; injection Hp as <-.
  all: apply forward_progress_transition in Hf;
    destruct (truthy_opt ref && negb (truthy_opt (IntegrationRequest.provider_reference r))) eqn:Hset;
    request_go; unfold moved in *; cbn in *;
    repeat match goal with Ho : _ ∨ _ |- _ => destruct Ho end; simplify_eq;
    first [ done | congruence
          | (by eexists; split_and!; [reflexivity|..]; auto)
          | (by eexists; split_and!; [reflexivity|..]; try done; (left; congruence) || (right; congruence)) ].
Qed.

(** Loading by reference. *)
Lemma wp_correlate p ref row (Q : option IntegrationRequest.t → World → Prop) X w :
  correlates (working (sess w)) p ref row →
  Q (Some (request_to_domain row)) (w <| sess ::= (λ s, s <| loaded_versions ::=
       insert (IntegrationRequest.id row) (IntegrationRequest.version row) |>) |>) →
  wp (Requests.find_by_provider_reference p (default "" ref)) Q X w.
Proof.
  intros (s & -> & _ & Hl) HQ. unfold Requests.find_by_provider_reference, reading. wp_step. wp_step.
  cbn [default from_option]. unfold id. rewrite Hl. unfold Requests.load, Requests.track, modify_session.
  wp_go. exact HQ.
Qed.

(** The receipt after the event was processed, and the commit of both. *)
Definition processed_receipt (T : tables) (j i : UUID) : Prop :=
  ∃ x, t_receipts T !! j = Some x ∧
    WebhookReceipt.processing_status x = WebhookProcessingStatus.PROCESSED ∧
    WebhookReceipt.integration_request_id x = Some i.

Lemma wp_mark_processed rc t i (Q : unit * WebhookReceipt.t → World → Prop) X (w : World) :
  is_aware t = true →
  (∀ rc', WebhookReceipt.id rc' = WebhookReceipt.id rc →
     WebhookReceipt.processing_status rc' = WebhookProcessingStatus.PROCESSED →
     WebhookReceipt.integration_request_id rc' = Some i → Q (tt, rc') w) →
  wp (on rc (WebhookReceipt.mark_processed t (Some i))) Q X w.
Proof.
  intros Ht HQ. apply wp_on. unfold WebhookReceipt.mark_processed. wp_step. wp_step. wp_step. wp_step.
  rewrite require_aware_ok by done. wp_step. wp_step. wp_step. by apply HQ.
Qed.

Lemma wp_apply_event_forward rc x0 e row target w (Q : WebhookIngestionResult * bool → World → Prop) X :
  Journaled (db w) → correlates (db w) (we_provider e) (we_provider_reference e) row →
  t_receipts (db w) !! WebhookReceipt.id rc = Some x0 →
  free_reference (db w) row (IntegrationRequest.provider_reference row) → fresh_ids w (db w) →
  project_normalized_status (we_normalized_status e) = Some target →
  is_forward_progress (IntegrationRequest.status row) target = true →
  (∀ res w', wr_status res = WebhookProcessingStatus.PROCESSED →
     wr_integration_request_id res = Some (IntegrationRequest.id row) →
     settled_commit (IntegrationRequest.id row) (IntegrationRequest.status row) target (db w) (db w') →
     processed_receipt (db w') (WebhookReceipt.id rc) (IntegrationRequest.id row) →
     Q (res, true) w') →
  wp (IngestWebhook.apply_event (request_to_domain row) rc e) Q X (loaded w row).
Proof.
  intros HJ Hc Hx0 Hown Hf Hp Hfp HQ. destruct (correlates_row _ _ _ _ HJ Hc) as [Hrow Href].
  assert (truthy_opt (we_provider_reference e) = true) as Htr
    by (apply truthy_opt_true; destruct Hc as (s & -> & Hs & _); eauto).
  unfold IngestWebhook.apply_event, now. cbn zeta. wp_step. unfold wp at 1. wp_step. apply wp_on.
  eapply wp_conseq; [apply (apply_forward _ _ _ _ _ target); [done|exact Hfp|apply clock_aware|by left]| |done].
  intros o r' (tr & -> & Hid & Hprev & Hnew & Hst & Haw & Hrf). cbn [IntegrationRequest.id] in Hid.
  change (IntegrationRequest.id (request_to_domain row)) with (IntegrationRequest.id row) in *.
  change (IntegrationRequest.provider_reference (request_to_domain row))
    with (IntegrationRequest.provider_reference row) in Hrf.
  wp_step. eapply (wp_record_transition_total _ row); [|done|].
  { unfold updatable. rewrite Hid. cbn. rewrite lookup_insert_eq. split_and!; [done|done|].
    destruct Hrf as [-> | ->]; [exact Hown|]. rewrite <- Href. exact Hown. }
  intros a oe w1 Hdb1 Hrows Hw1 Hp1. cbn in Hdb1, Hw1, Hp1. wp_step. unfold wp at 1. wp_step.
  apply wp_mark_processed; [apply clock_aware|]. intros rc' Hrid Hrs Hri. wp_step.
  unfold Webhooks.update, modify_working, modify_session. wp_step. wp_step.
  eapply (wp_commit_settling r' row (IntegrationRequest.status row) target (db w)).
  - exists tr, (drawn w), a, oe. cbn. rewrite Hw1, Hp1. cbn. rewrite Hid. by split_and!.
  - intros Heq. apply forward_progress_transition in Hfp. rewrite Heq in Hfp.
    by eapply transition_irrefl.
  - intros w' Hcom _ Hrec. wp_step. rewrite Hid in Hcom. apply HQ; [done|done|done|].
    exists (receipt_update_values rc' x0). rewrite Hrec. cbn. rewrite Hw1. cbn.
    rewrite Hrid, lookup_alter_eq, Hx0. cbn. done.
Qed.
End Applying.

Module WebhookTheorems.

(** A deferred webhook loses nothing. The event rebuilt from a stored
    receipt is the event the receipt was created from, with the correlation id
    defaulted to the delivery's: status, timestamp, references, adapter
    metadata and error all survive the trip through the receipt's JSON payload.
    (The adapter metadata must not use the reserved key, and a webhook error
    carries no retry-after hint, which the summary does not store.) *)
Theorem rehydrate_roundtrip (py_repr : json → string) (e : NormalizedWebhookEvent) (i : UUID)
    (wh : InboundWebhook) (md : signature_metadata) (corr : string) (x : WebhookReceipt.t) :
  webhook_event_make e = Ret e → Iso.representable (we_occurred_at e) →
  dict_get NORMALIZED_METADATA_KEY (we_payload_metadata e) = None →
  (∀ err, we_error e = Some err → ei_retry_after_seconds err = None) →
  in_provider wh = we_provider e →
  kept_receipt (receipt_for i wh e md corr) x →
  WebhookReceipt.provider_reference x = we_provider_reference e →
  rehydrate_event py_repr x = Ret
    {| we_provider := we_provider e; we_provider_event_id := we_provider_event_id e;
       we_event_type := we_event_type e; we_normalized_status := we_normalized_status e;
       we_occurred_at := we_occurred_at e; we_provider_reference := we_provider_reference e;
       we_external_reference := we_external_reference e;
       we_correlation_id := first_some (we_correlation_id e) (Some corr);
       we_payload_metadata := we_payload_metadata e; we_error := we_error e |}.
Proof.
  intros Hmake Hrep Hkey Herr Hp (_ & Kp & Ke & Kt & Kl & _ & Kc) Kr. unfold rehydrate_event.
  rewrite Kl. cbn [WebhookReceipt.payload receipt_for]. unfold _receipt_payload.
  rewrite dict_get_set_eq, filter_dict_set by done.
  assert (rehydrate_error py_repr (dict_get "error" match we_error e with
    | Some err => [("error", JObj (error_summary err))] | None => [] end) = Ret (we_error e)) as Hre.
  { destruct (we_error e) as [err|]; [|done]. dict_simpl. by apply rehydrate_error_summary, Herr. }
  cbn [app]. dict_simpl. rewrite Hre. unfold enum_of. rewrite of_value_value.
  rewrite Iso.fromisoformat_isoformat by done. rewrite Kr, Kp, Ke, Kt, Kc.
  cbn [WebhookReceipt.provider WebhookReceipt.event_id WebhookReceipt.event_type
       WebhookReceipt.correlation_id receipt_for]. rewrite Hp.
  unfold webhook_event_make in *. cbn.
  destruct (negb (Str.truthy _)); [done|]. destruct (negb (is_aware _)); [done|]. do 2 f_equal.
  - destruct (we_provider_reference e) as [[|]|]; done.
  - by destruct (we_external_reference e).
Qed.

Definition sample_inbound : InboundWebhook :=
  mk_inbound "cobalt" [("X-Cobalt-Signature", "sig")] [123; 125] (utc 6) None.

Lemma rehydrate_roundtrip_witness :
  ∃ e, rehydrate_event (λ _, "") (receipt_for 3 sample_inbound sample_event sample_metadata "c") = Ret e ∧
       we_normalized_status e = NormalizedStatus.SUCCEEDED.
Proof.
  eexists. split.
  - apply (rehydrate_roundtrip (λ _, "") sample_event 3 sample_inbound sample_metadata "c").
    + reflexivity.
    + unfold Iso.representable. cbn. lia.
    + reflexivity.
    + discriminate.
    + reflexivity.
    + apply kept_receipt_refl.
    + reflexivity.
  - reflexivity.
Defined.

(** The receipt is committed before anything is processed. For a verified,
    well-formed delivery of an event not seen before, whatever the processing
    step or the workflow hook then does (including raising), the tables left
    behind hold a receipt for this provider and event. *)
Theorem webhook_recorded_first `{Env} `{P : Platform} {HE : EnvOk _}
    (claim : string → string → H bool) (delay : Q) (hook : option (UUID → H unit))
    (c : IngestWebhookCommand) (g : Gateway) (v : WebhookVerification)
    (e : NormalizedWebhookEvent) (w : World) :
  let wh := iw_webhook c in let p := in_provider wh in let eid := we_provider_event_id e in
  calm_hook hook → Journaled (db w) → fresh_ids w (db w) →
  gateways !! p = Some g → validate_webhook g wh = Ret v → wv_verified v = true →
  (∀ s, extract_signature_header (in_headers wh) = Some s → claim p s w = (Ret true, w)) →
  normalize_webhook g wh = Ret e → is_aware (in_received_at wh) = true → Str.truthy eid = true →
  receipts_for (db w) p eid = [] → t_receipts (db w) !! uuid_at (drawn w) = None →
  recorded (db (IngestWebhook.execute claim delay hook c w).2) p eid.
Proof.
  intros wh p eid Hh HJ Hf Hg Hv Hver Hcl Hn Haw Htr Hnone Hid.
  assert (wp (IngestWebhook.execute claim delay hook c) (λ _ w', recorded (db w') p eid)
             (λ _ w', recorded (db w') p eid) w) as Hrun.
  { unfold IngestWebhook.execute. fold wh p. rewrite Hg. wp_step. wp_step. rewrite Hv, Hver. cbn [negb].
    wp_step. eapply (wp_conseq _ (λ o w', o = true ∧ w' = w) _ (λ _ _, False)); [| |done].
    { destruct (extract_signature_header _) as [s|]; [|done]. unfold wp. by rewrite Hcl. }
    intros _ _ [-> ->]. cbn [negb]. rewrite Hn. wp_step.
    eapply wp_conseq; [apply wp_and; [by apply wp_persist_new|by apply persist_receipt_calm]| |by intros ex w' [[]]].
    intros o w1 [[-> Hrec] [[HJ1 _] _]]. eapply wp_conseq; [by apply process_receipt_calm|..].
    - intros res w' [[_ Hgr] _]. by eapply recorded_grows.
    - intros ex w' [[_ Hgr] _]. by eapply recorded_grows. }
  unfold wp in Hrun. by destruct (IngestWebhook.execute _ _ _ _ w) as [[]].
Qed.

Definition sample_ingest : IngestWebhookCommand := mk_ingest_command sample_inbound "corr".
Definition null_guard (provider signature : string) : H bool := ret true.
(** A hook that always raises. *)
Definition failing_hook (i : UUID) : H unit := raise (EOther "hook").

Lemma webhook_recorded_first_witness :
  recorded (db (@IngestWebhook.execute sample_env (sample_platform accepted_result) null_guard 30
                  (Some failing_hook) sample_ingest (world_after pending_calls)).2) "cobalt" "evt-1".
Proof.
  apply (@webhook_recorded_first sample_env (sample_platform accepted_result) sample_env_ok null_guard 30
    (Some failing_hook) sample_ingest (sample_gateway accepted_result sample_event)
    (mk_verification true sample_metadata None) sample_event (world_after pending_calls)).
  - intros f i [= <-]. apply calm_raise.
  - apply tables_after_journaled; [reflexivity|]. vm_compute. tauto.
  - apply sample_fresh. vm_compute. lia.
  - reflexivity.
  - reflexivity.
  - reflexivity.
  - intros s _. reflexivity.
  - reflexivity.
  - reflexivity.
  - reflexivity.
  - reflexivity.
  - reflexivity.
Defined.

(** An unverified webhook has no effect but evidence. If verification
    fails, the call can only answer REJECTED (or raise), no request row
    changes, every receipt stays as it was, and a receipt that is added has an
    event id under the reserved prefix: a forged delivery can neither move a
    request nor occupy the deduplication key of a genuine event. *)
Theorem unverified_webhook_is_inert `{Env} `{P : Platform} {HE : EnvOk _}
    (claim : string → string → H bool) (delay : Q) (hook : option (UUID → H unit))
    (c : IngestWebhookCommand) (g : Gateway) (v : WebhookVerification) (w : World) :
  gateways !! in_provider (iw_webhook c) = Some g →
  validate_webhook g (iw_webhook c) = Ret v → wv_verified v = false →
  only_unverified (db w) (db (IngestWebhook.execute claim delay hook c w).2) ∧
  ∀ res, (IngestWebhook.execute claim delay hook c w).1 = Ret res →
    wr_status res = WebhookProcessingStatus.REJECTED.
Proof.
  intros Hg Hv Hver.
  pose proof (wp_rejection (iw_webhook c) (wv_signature_metadata v)
    (or_else (wv_reason v) "signature verification failed") (iw_correlation_id c) w) as Hr.
  unfold IngestWebhook.execute. rewrite Hg. unfold bind, lift. rewrite Hv, Hver. cbn [negb].
  unfold wp in Hr. destruct (IngestWebhook._record_rejection _ _ _ _ w) as [[res|ex] w']; cbn in *.
  - destruct Hr as [Hs Hu]. split; [done|]. by intros res' [= <-].
  - by split.
Qed.

Definition rejecting_platform : Platform :=
  {| gateways := {[ "cobalt" := {| g_descriptor := sample_descriptor;
        create_operation _ := ret accepted_result; get_operation_status _ := ret accepted_result;
        cancel_operation _ := ret accepted_result;
        validate_webhook _ := Ret (mk_verification false sample_metadata (Some "bad signature"));
        normalize_webhook _ := Ret sample_event;
        health_check := ret (mk_probe true (utc 0) None None) |} ]};
     retry_policies := ∅; circuit_policies := ∅ |}.

Lemma unverified_webhook_is_inert_witness :
  let run := @IngestWebhook.execute sample_env rejecting_platform null_guard 30 None sample_ingest
               (world_after pending_calls) in
  only_unverified (db (world_after pending_calls)) (db run.2) ∧
  ∀ res, run.1 = Ret res → wr_status res = WebhookProcessingStatus.REJECTED.
Proof.
  eapply (@unverified_webhook_is_inert sample_env rejecting_platform sample_env_ok null_guard 30 None
    sample_ingest _ (mk_verification false sample_metadata (Some "bad signature"))
    (world_after pending_calls)).
  - reflexivity.
  - reflexivity.
  - reflexivity.
Defined.

(** C18. A redelivered event is never applied again. When the receipt of the event is
    already settled, a verified delivery of it always returns, and what it answers
    is up to the replay guard. If the guard lets the signature through (or the
    delivery carries no signature header), the answer is DUPLICATE with the recorded
    receipt and all that is committed is a WEBHOOK_DUPLICATE_IGNORED note. If the
    guard refuses it, as the Redis guard that the composition root installs refuses
    a verbatim redelivery within its window, the answer is REJECTED and all that is
    committed is a new receipt under the reserved prefix and its WEBHOOK_REJECTED
    note. No request, no other receipt and no event changes either way. (The
    identifiers drawn must be new, and the guard does not touch the database.) *)
Theorem redelivery_is_ignored `{Env} `{P : Platform} {HE : EnvOk _}
    (claim : string → string → H bool) (delay : Q) (hook : option (UUID → H unit))
    (c : IngestWebhookCommand) (g : Gateway) (v : WebhookVerification)
    (e : NormalizedWebhookEvent) (x : WebhookReceipt.t) (fresh : bool) (w : World) :
  let wh := iw_webhook c in let p := in_provider wh in
  fresh_ids w (db w) → rejectable w wh → gateways !! p = Some g → validate_webhook g wh = Ret v →
  wv_verified v = true →
  match extract_signature_header (in_headers wh) with
  | Some s => claim p s w = (Ret fresh, w)
  | None => fresh = true
  end →
  normalize_webhook g wh = Ret e → receipts_for (db w) p (we_provider_event_id e) = [x] →
  WebhookReceipt.is_settled x = true →
  ∃ res w', IngestWebhook.execute claim delay hook c w = (Ret res, w') ∧
    if fresh then
      wr_status res = WebhookProcessingStatus.DUPLICATE ∧ wr_receipt_id res = WebhookReceipt.id x ∧
      noted_commit AuditAction.WEBHOOK_DUPLICATE_IGNORED (db w) (db w')
    else wr_status res = WebhookProcessingStatus.REJECTED ∧ rejected_commit (db w) (db w').
Proof.
  intros wh p Hf Hrj Hg Hv Hver Hcl Hn Hx Hset. apply wp_total.
  unfold IngestWebhook.execute. fold wh p. rewrite Hg. wp_step. wp_step. rewrite Hv, Hver. cbn [negb].
  wp_step. eapply (wp_conseq _ (λ o w', o = fresh ∧ w' = w) _ (λ _ _, False)); [| |done].
  { destruct (extract_signature_header _) as [s|]; [|by subst]. unfold wp. by rewrite Hcl. }
  intros _ _ [-> ->]. destruct fresh; cbn [negb]; [|by apply wp_rejection_total].
  rewrite Hn. wp_step. apply wp_with_uow. wp_step.
  unfold Webhooks.find_by_event_id, reading. wp_step. wp_step.
  change (List.filter _ _) with (receipts_for (db w) p (we_provider_event_id e)). rewrite Hx. wp_step.
  change (WebhookReceipt.is_settled (receipt_to_domain x)) with (WebhookReceipt.is_settled x).
  rewrite Hset. wp_step. apply wp_webhook_action_total. intros a w1 Hdb Hw Hp Ha Hact Hsil. wp_step.
  cbn in Hdb, Hw, Hp, Ha. eapply wp_commit_note; [exact Hp|rewrite Hw, Ha; intros y Hy; by apply (Hf (drawn w))|].
  intros w' Hdb'. wp_step. wp_step. split_and!; [done|done|]. exists a. cbn. by rewrite Hdb', Hw.
Qed.

Definition after_first_delivery : World :=
  (@IngestWebhook.execute sample_env (sample_platform accepted_result) null_guard 30 None sample_ingest
     (world_after pending_calls)).2.

Definition first_receipt : WebhookReceipt.t :=
  default (receipt_for 0 sample_inbound sample_event sample_metadata "")
    (head (receipts_for (db after_first_delivery) "cobalt" "evt-1")).

(** A guard that has seen the signature before. *)
Definition refusing_guard (provider signature : string) : H bool := ret false.

Lemma redelivery_is_ignored_witness :
  (∃ res w', @IngestWebhook.execute sample_env (sample_platform accepted_result) null_guard 30 None
              sample_ingest after_first_delivery = (Ret res, w') ∧
    wr_status res = WebhookProcessingStatus.DUPLICATE ∧ wr_receipt_id res = WebhookReceipt.id first_receipt ∧
    noted_commit AuditAction.WEBHOOK_DUPLICATE_IGNORED (db after_first_delivery) (db w')) ∧
  ∃ res w', @IngestWebhook.execute sample_env (sample_platform accepted_result) refusing_guard 30 None
              sample_ingest after_first_delivery = (Ret res, w') ∧
    wr_status res = WebhookProcessingStatus.REJECTED ∧ rejected_commit (db after_first_delivery) (db w').
Proof.
  assert (fresh_ids after_first_delivery (db after_first_delivery)) as Hf by (apply fresh_below; vm_compute; reflexivity).
  assert (rejectable after_first_delivery sample_inbound) as Hr by (split_and!; vm_compute; reflexivity).
  split.
  - eapply (@redelivery_is_ignored sample_env (sample_platform accepted_result) sample_env_ok null_guard 30
      None sample_ingest (sample_gateway accepted_result sample_event)
      (mk_verification true sample_metadata None) sample_event first_receipt true after_first_delivery);
      try assumption; vm_compute; reflexivity.
  - eapply (@redelivery_is_ignored sample_env (sample_platform accepted_result) sample_env_ok refusing_guard 30
      None sample_ingest (sample_gateway accepted_result sample_event)
      (mk_verification true sample_metadata None) sample_event first_receipt false after_first_delivery);
      try assumption; vm_compute; reflexivity.
Defined.

(** C17. A webhook that reports progress is applied atomically. When the event's
    reference belongs to a stored request (and to no other of the provider), the
    receipt is stored, the identifiers drawn are new and the reported status is
    forward progress, one commit moves the request to the projected status with one
    audit row and one outbox event and marks the receipt PROCESSED and linked to
    that request. Only then is the installed hook run on that request, and whatever
    it does, raising included, processing returns PROCESSED in the state the hook
    left. *)
Theorem webhook_applied_atomically `{Env} {HE : EnvOk _} (delay : Q) (hook : option (UUID → H unit))
    (rc x0 : WebhookReceipt.t) (e : NormalizedWebhookEvent) (row : IntegrationRequest.t)
    (target : RequestStatus.t) (w : World) :
  let i := IntegrationRequest.id row in
  Journaled (db w) → correlates (db w) (we_provider e) (we_provider_reference e) row →
  t_receipts (db w) !! WebhookReceipt.id rc = Some x0 →
  free_reference (db w) row (IntegrationRequest.provider_reference row) → fresh_ids w (db w) →
  project_normalized_status (we_normalized_status e) = Some target →
  is_forward_progress (IntegrationRequest.status row) target = true →
  ∃ res w', IngestWebhook.process_receipt delay hook rc e w =
      (Ret res, match hook with Some f => (f i w').2 | None => w' end) ∧
    wr_status res = WebhookProcessingStatus.PROCESSED ∧ wr_integration_request_id res = Some i ∧
    settled_commit i (IntegrationRequest.status row) target (db w) (db w') ∧
    processed_receipt (db w') (WebhookReceipt.id rc) i.
Proof.
  intros i HJ Hc Hx0 Hown Hf Hp Hfp.
  assert (wp (IngestWebhook.process_receipt delay hook rc e) (λ res w2, ∃ w',
    w2 = match hook with Some f => (f i w').2 | None => w' end ∧
    wr_status res = WebhookProcessingStatus.PROCESSED ∧ wr_integration_request_id res = Some i ∧
    settled_commit i (IntegrationRequest.status row) target (db w) (db w') ∧
    processed_receipt (db w') (WebhookReceipt.id rc) i) (λ _ _, False) w) as Hrun.
  { unfold IngestWebhook.process_receipt. wp_step.
    apply wp_with_uow. wp_step. unfold IngestWebhook._resolve_request.
    assert (truthy_opt (we_provider_reference e) = true) as ->
      by (apply truthy_opt_true; destruct Hc as (s & -> & Hs & _); eauto).
    cbn [negb]. eapply wp_correlate; [exact Hc|].
    eapply (wp_apply_event_forward rc x0 e row target w); [done..|].
    intros res w' Hs Hi Hset Hpr. wp_step. set (w1 := w' <| sess := sess w |>).
    eapply (wp_conseq _ (λ _ w2, w2 = match hook with Some f => (f i w1).2 | None => w1 end) _ (λ _ _, False)); [| |done].
    - rewrite Hi. destruct hook as [f|]; [|done]. unfold wp, try_except. by destruct (f _ w1) as [[]].
    - intros _ w2 ->. wp_step. by exists w1. }
  unfold wp in Hrun. destruct (IngestWebhook.process_receipt _ _ _ _ w) as [[res|ex] w2]; [|done].
  destruct Hrun as (w' & -> & Hrun). by exists res, w'.
Qed.

(** The database after the receipt was recorded, and the event it holds. *)
Definition recorded_world : World :=
  (@IngestWebhook._persist_receipt sample_env sample_inbound sample_event sample_metadata "corr"
     (world_after pending_calls)).2.
Definition recorded_receipt : WebhookReceipt.t :=
  receipt_for 100 sample_inbound sample_event sample_metadata "corr".

Lemma webhook_applied_atomically_witness :
  ∃ res w', @IngestWebhook.process_receipt sample_env 30 (Some failing_hook) recorded_receipt sample_event recorded_world =
      (Ret res, (failing_hook 7 w').2) ∧
    wr_status res = WebhookProcessingStatus.PROCESSED ∧ wr_integration_request_id res = Some 7%N ∧
    settled_commit 7 RequestStatus.PENDING RequestStatus.SUCCEEDED (db recorded_world) (db w') ∧
    processed_receipt (db w') 100 7.
Proof.
  apply (@webhook_applied_atomically sample_env sample_env_ok 30 (Some failing_hook) recorded_receipt recorded_receipt
    sample_event (request_after pending_calls) RequestStatus.SUCCEEDED recorded_world).
  - assert (Journaled (db (world_after pending_calls))) as HJ.
    { apply tables_after_journaled; [reflexivity|]. vm_compute. tauto. }
    pose proof (@persist_receipt_calm sample_env sample_inbound sample_event sample_metadata "corr"
      (world_after pending_calls) HJ) as Hc. unfold wp in Hc. unfold recorded_world.
    destruct (IngestWebhook._persist_receipt _ _ _ _ _) as [[] w']; apply Hc.
  - exists "op-9". split; [reflexivity|]. split; [discriminate|]. vm_compute. reflexivity.
  - vm_compute. reflexivity.
  - reflexivity.
  - apply fresh_below. vm_compute. reflexivity.
  - reflexivity.
  - reflexivity.
Defined.

(** A report that is no forward progress is consumed without effect on the
    request. Whenever the reported status has no projection, or the state
    machine has no step from the stored status to it, processing returns
    PROCESSED, marks the receipt processed (so later deliveries are answered as
    duplicates) and leaves the request rows and the outbox exactly as they
    were. This covers repeats and late reports, and also a SUCCEEDED report for
    a request that waits in RETRY_SCHEDULED or FAILED: the outcome is dropped
    although the request does not reflect it. *)
Theorem webhook_without_progress `{Env} {HE : EnvOk _} (delay : Q)
    (rc x0 : WebhookReceipt.t) (e : NormalizedWebhookEvent) (row : IntegrationRequest.t) (w : World) :
  let i := IntegrationRequest.id row in
  Journaled (db w) → correlates (db w) (we_provider e) (we_provider_reference e) row →
  t_receipts (db w) !! WebhookReceipt.id rc = Some x0 → fresh_ids w (db w) →
  (∀ target, project_normalized_status (we_normalized_status e) = Some target →
     is_forward_progress (IntegrationRequest.status row) target = false) →
  ∃ res w', IngestWebhook.process_receipt delay None rc e w = (Ret res, w') ∧
    wr_status res = WebhookProcessingStatus.PROCESSED ∧ wr_integration_request_id res = Some i ∧
    t_requests (db w') = t_requests (db w) ∧ t_outbox (db w') = t_outbox (db w) ∧
    processed_receipt (db w') (WebhookReceipt.id rc) i.
Proof.
  intros i HJ Hc Hx0 Hf Hn. apply wp_total. unfold IngestWebhook.process_receipt. wp_step.
  apply wp_with_uow. wp_step. unfold IngestWebhook._resolve_request.
  assert (truthy_opt (we_provider_reference e) = true) as ->
    by (apply truthy_opt_true; destruct Hc as (s & -> & Hs & _); eauto).
  cbn [negb]. eapply wp_correlate; [exact Hc|].
  unfold IngestWebhook.apply_event, now. cbn zeta. wp_step. unfold wp at 1. wp_step. apply wp_on.
  eapply (wp_conseq _ (λ o r', o = None ∧ r' = request_to_domain row) _ (λ _ _, False)); [|intros _ _ [-> ->]|done].
  { unfold IntegrationRequest.apply_normalized_status.
    destruct (project_normalized_status _) as [target|]; [|done]. wp_step. wp_step.
    specialize (Hn target eq_refl).
    change (IntegrationRequest.status row) with (IntegrationRequest.status (request_to_domain row)) in Hn.
    by rewrite Hn. }
  wp_step. unfold wp at 1. wp_step. apply wp_mark_processed; [apply clock_aware|].
  intros rc' Hrid Hrs Hri. wp_step. unfold Webhooks.update, modify_working, modify_session. wp_step. wp_step.
  apply wp_action_total. intros a w1 Hdb Hw Hp Ha _ _. wp_step. cbn in Hdb, Hw, Hp, Ha.
  eapply wp_commit_note; [exact Hp|rewrite Hw, Ha; intros y Hy; by apply (Hf (drawn w))|].
  intros w' Hdb'. wp_step. wp_step. wp_step. split_and!; [done|done|..]; cbn; rewrite Hdb', Hw; [done|done|].
  exists (receipt_update_values rc' x0). cbn. rewrite Hrid, lookup_alter_eq, Hx0. by split_and!.
Qed.

(** The dropped outcome: failed at the provider, put back by an operator, then
    reported as succeeded. *)
Definition requeued_calls : list call :=
  pending_calls ++ [CMarkFailed IntegrationRequest.provider_reported_failure (utc 4);
                    CRestoreForRetry (utc 5) (utc 5)].
Definition requeued_world : World :=
  (world_after requeued_calls) <| db ::= (λ T, T <| t_receipts := {[ 100%N := recorded_receipt ]} |>) |>.

Lemma webhook_without_progress_witness :
  IntegrationRequest.status (request_after requeued_calls) = RequestStatus.RETRY_SCHEDULED ∧
  we_normalized_status sample_event = NormalizedStatus.SUCCEEDED ∧
  ∃ res w', @IngestWebhook.process_receipt sample_env 30 None recorded_receipt sample_event requeued_world =
      (Ret res, w') ∧
    wr_status res = WebhookProcessingStatus.PROCESSED ∧ wr_integration_request_id res = Some 7%N ∧
    t_requests (db w') = t_requests (db requeued_world) ∧
    t_outbox (db w') = t_outbox (db requeued_world) ∧ processed_receipt (db w') 100 7.
Proof.
  split; [reflexivity|]. split; [reflexivity|].
  apply (@webhook_without_progress sample_env sample_env_ok 30 recorded_receipt recorded_receipt
    sample_event (request_after requeued_calls) requeued_world).
  - apply (journaled_ext (tables_after requeued_calls)); [vm_compute; reflexivity|vm_compute; reflexivity|].
    apply tables_after_journaled; [reflexivity|]. vm_compute. tauto.
  - exists "op-9". split; [reflexivity|]. split; [discriminate|]. vm_compute. reflexivity.
  - reflexivity.
  - apply fresh_below. vm_compute. reflexivity.
  - intros target [= <-]. reflexivity.
Defined.
End WebhookTheorems.
