(* ===== verification/Reconciliation.v ===== *)
(** Reconciliation ([application/services/reconciliation.py]): compare a stuck
    request with its provider, correct it, wait, or hand it to a human. *)

From S2P Require Import Prelude PyData PyTime Enums Errors StateMachine ValueObjects Policies Entities RequestFacts.
From S2P Require Import Workflow Records Store Journal Ports Settlement Dispatcher Samples DispatcherFacts WebhookIngestion.

Definition RECONCILIATION_ACTOR : Actor := mk_actor ActorType.RECONCILIATION_WORKER None.

Record ReconciliationOutcome := mk_outcome {
  ro_request_id : string;
  ro_action : string;
  ro_previous_status : RequestStatus.t;
  ro_new_status : RequestStatus.t;
  ro_detail : option string;
}.
Definition ro_changed (o : ReconciliationOutcome) : bool :=
  negb (bool_decide (ro_previous_status o = ro_new_status o)).

Module Reconciliation.
Section Service.
Context `{Env} `{Platform}.
Context (stale_after_seconds manual_review_after_seconds : Z).

Definition find_candidates (limit : nat) : H (list IntegrationRequest.t) :=
  let* t := now in
  let cutoff := dt_add t (- (stale_after_seconds * us_per_second)) in
  with_uow (Requests.find_stale_in_flight cutoff limit).

(** A decision that leaves the request alone. *)
Definition unchanged (r : IntegrationRequest.t) (action : string) (detail : option string) :
    ReconciliationOutcome :=
  mk_outcome (uuid_str (IntegrationRequest.id r)) action (IntegrationRequest.status r)
    (IntegrationRequest.status r) detail.

(** The writes of [_escalate]. *)
Definition hand_over (r : IntegrationRequest.t) (reason : string) : H IntegrationRequest.t :=
  let* t := now in
  let* (tr, r) := on r (IntegrationRequest.mark_manual_review reason t) in
  record_transition r tr AuditAction.MOVED_TO_MANUAL_REVIEW RECONCILIATION_ACTOR
    [("reason", JStr reason); ("source", JStr "reconciliation")] None true ;;;
  ret r.

Definition _escalate (request : IntegrationRequest.t) (reason : string) : H ReconciliationOutcome :=
  with_uow (
    let* cur := Requests.get_for_update (IntegrationRequest.id request) in
    match cur with
    | None => raise (not_found (IntegrationRequest.id request))
    | Some current =>
        let previous := IntegrationRequest.status current in
        if bool_decide (previous = RequestStatus.MANUAL_REVIEW) || RequestStatus.is_terminal previous
        then
          rollback ;;;
          ret (unchanged current "no_action" (Some reason))
        else
          let* current := hand_over current reason in
          commit ;;;
          ret (mk_outcome (uuid_str (IntegrationRequest.id current)) "escalated" previous
                 (IntegrationRequest.status current) (Some reason))
    end).

(** [request.seconds_since_update(now=...) < threshold] *)
Definition within_grace (r : IntegrationRequest.t) : H bool :=
  let* t := now in
  match IntegrationRequest.seconds_since_update r t with
  | None => raise (ETypeError "can't subtract offset-naive and offset-aware datetimes")
  | Some age => ret (Qltb age (inject_Z manual_review_after_seconds))
  end.

Definition _handle_unidentifiable (r : IntegrationRequest.t) : H ReconciliationOutcome :=
  let* waiting := within_grace r in
  if waiting : bool
  then ret (unchanged r "waiting" (Some "no provider reference yet; still inside the grace period"))
  else _escalate r "the request has been in flight without a provider reference for longer than the escalation threshold".

Definition _handle_unverifiable (r : IntegrationRequest.t) (reason : string) :
    H ReconciliationOutcome :=
  let* waiting := within_grace r in
  if waiting : bool then ret (unchanged r "waiting" (Some reason))
  else _escalate r reason.

(** The writes of [_apply_provider_state], once the status is known. *)
Definition adopt (current : IntegrationRequest.t) (res : ProviderOperationResult) :
    H ReconciliationOutcome :=
  let previous := IntegrationRequest.status current in
  let* t := now in
  let* (transition, current) := on current (IntegrationRequest.apply_normalized_status
      (res_normalized_status res) t (res_provider_reference res)
      (to_failure_detail <$> res_error res)) in
  match transition with
  | None =>
      record_request_action current AuditAction.STATE_RECONCILED RECONCILIATION_ACTOR
        [("provider_status", jopt (res_provider_status res));
         ("normalized_status", JStr (value (res_normalized_status res)));
         ("changed", JBool false)] ;;;
      commit ;;;
      ret (mk_outcome (uuid_str (IntegrationRequest.id current)) "confirmed" previous
             (IntegrationRequest.status current) None)
  | Some tr =>
      record_transition current tr AuditAction.STATE_RECONCILED RECONCILIATION_ACTOR
        [("provider_status", jopt (res_provider_status res));
         ("normalized_status", JStr (value (res_normalized_status res)));
         ("reason", JStr "local state was behind the provider")] None true ;;;
      commit ;;;
      ret (mk_outcome (uuid_str (IntegrationRequest.id current)) "corrected" previous
             (IntegrationRequest.status current) (res_provider_status res))
  end.

Definition _apply_provider_state (request : IntegrationRequest.t) (res : ProviderOperationResult) :
    H ReconciliationOutcome :=
  if bool_decide (res_normalized_status res = NormalizedStatus.UNKNOWN) then
    _escalate request ("the provider reported a status the adapter cannot interpret: " +:+
                       or_else (res_provider_status res) "unspecified")
  else
    with_uow (
      let* cur := Requests.get_for_update (IntegrationRequest.id request) in
      match cur with
      | None => raise (not_found (IntegrationRequest.id request))
      | Some current => adopt current res
      end).

(** What asking the provider came to: its answer, or the decision an exception
    leads to. *)
Definition on_lookup_error (r : IntegrationRequest.t) (e : exn) : option (H ReconciliationOutcome) :=
  match e with
  | EDomain d =>
      if ErrorClass.subclass (cls d) ErrorClass.ProviderNotFoundError then
        Some (_escalate r "the provider does not recognise the reference it previously returned")
      else if ErrorClass.subclass (cls d) ErrorClass.UnsupportedOperationError then
        Some (_handle_unverifiable r "the provider does not support status lookup for this operation")
      else if ErrorClass.subclass (cls d) ErrorClass.ProviderError then
        Some (ret (unchanged r "deferred" (Some ("provider unreachable: " +:+ err_code d))))
      else None
  | _ => None
  end.

Definition reconcile (r : IntegrationRequest.t) : H ReconciliationOutcome :=
  match IntegrationRequest.provider_reference r with
  | None => _handle_unidentifiable r
  | Some reference =>
      let* g := lift (registry_get (IntegrationRequest.provider r)) in
      if negb (d_supports_status_lookup (g_descriptor g)) then
        _handle_unverifiable r "the provider does not expose a status lookup"
      else
        let* answer := try_except
          (let* res := get_operation_status g reference in ret (inr res))
          (λ e, match on_lookup_error r e with
                | Some h => Some (let* o := h in ret (inl o))
                | None => None
                end) in
        match answer with
        | inl o => ret o
        | inr res => _apply_provider_state r res
        end
  end.
End Service.
End Reconciliation.

(** * Every transaction is journaled *)

Section ReconcileFacts.
Context `{Env} `{P : Platform}.
Import Reconciliation.

Lemma hand_over_tx r reason : tx_ok r (hand_over r reason).
Proof. unfold hand_over. tx_go. Qed.

Lemma escalate_calm r reason : calm (Reconciliation._escalate r reason).
Proof.
  apply calm_uow. uow_step; [eauto with calm_db|]. cbn zeta. destruct (_ || _).
  - apply journaling_drop. uow_go.
  - apply journaling_tx; [apply hand_over_tx|]. intros r'. apply journaling_drop. uow_go.
Qed.

Lemma within_grace_calm limit r : calm (within_grace limit r).
Proof. unfold within_grace. calm_go. Qed.

(** A mutator that may report nothing to apply. *)
Lemma wp_apply_status r s t ref f w (Q : option StatusTransition * IntegrationRequest.t → World → Prop) X :
  wf r →
  (∀ o r', effect r r' o → wf r' → Q (o, r') w) → (∀ e, X e w) →
  wp (on r (IntegrationRequest.apply_normalized_status s t ref f)) Q X w.
Proof.
  intros Hwf HQ HX. apply wp_on.
  eapply wp_conseq; [apply wp_and; [apply (perform_effect (CApplyStatus s t ref f))|
                                    by apply (perform_wf (CApplyStatus s t ref f))]|..].
  - intros o r' [He Hw]. by apply HQ.
  - intros e r' _. apply HX.
Qed.

Lemma adopt_journaling r res : journaling_with r (adopt r res).
Proof.
  intros w Hin Hh Hwf. unfold adopt. cbn zeta. wp_step. apply wp_now. intros w1 H1. wp_step.
  assert (db w1 = db w) as Hdb1 by apply H1.
  apply wp_apply_status; [done| |intros e; by apply inside_sound].
  intros [tr|] r' He Hwf'.
  - wp_step. eapply wp_record_transition; [by eapply same_tables_inside|by eapply same_tables_holds|exact He|done| |].
    + intros w2 Hin2 _ Hdb2. assert (journaling (commit ;;;
        ret (mk_outcome (uuid_str (IntegrationRequest.id r')) "corrected" (IntegrationRequest.status r)
             (IntegrationRequest.status r') (res_provider_status res)))) as Hj by uow_go.
      eapply wp_conseq; [by apply Hj|..]; unfold sound; by rewrite Hdb2, Hdb1.
    + intros e w' Hdb. apply inside_sound; [done|congruence].
  - assert (journaling (record_request_action r' AuditAction.STATE_RECONCILED RECONCILIATION_ACTOR
        [("provider_status", jopt (res_provider_status res));
         ("normalized_status", JStr (value (res_normalized_status res)));
         ("changed", JBool false)] ;;;
      commit ;;;
      ret (mk_outcome (uuid_str (IntegrationRequest.id r')) "confirmed" (IntegrationRequest.status r)
             (IntegrationRequest.status r') None))) as Hj by uow_go.
    eapply wp_conseq; [apply Hj; by eapply same_tables_inside|..]; unfold sound; by rewrite Hdb1.
Qed.

(** Applying an answer commits everything or nothing. *)
Lemma escalate_raises r reason w :
  Journaled (db w) → wp (Reconciliation._escalate r reason) (λ _ _, True) (λ _ w', db w' = db w) w.
Proof.
  intros HJ. apply wp_with_uow. wp_step. apply wp_get_for_update; [by split_and!|done|].
  intros cur w1 _ Hwf Hw1 Hh. assert (inside w1) as Hin by (eapply same_tables_inside; [done|by split_and!]).
  destruct Hw1 as [Hdb _]. cbn in Hdb. cbn zeta. destruct (_ || _); [unfold rollback; by wp_go|].
  wp_step. eapply wp_conseq; [by apply hand_over_tx| |intros e w2 H2; cbn; by rewrite H2, Hdb].
  intros r' w2 (Hin2 & _ & _ & _ & Hdb2). wp_step. apply wp_commit; [done|by intros; wp_go|].
  intros e w3 _ H3. cbn. by rewrite H3, Hdb2, Hdb.
Qed.

Lemma adopt_raises r res w : inside w → holds w r → wf r →
  wp (adopt r res) (λ _ _, True) (λ _ w', db w' = db w) w.
Proof.
  intros Hin Hh Hwf. unfold adopt. cbn zeta. wp_step. apply wp_now. intros w1 H1. wp_step.
  assert (db w1 = db w) as Hdb1 by apply H1.
  apply wp_apply_status; [done| |done]. intros [tr|] r' He Hwf'; wp_step.
  - eapply wp_record_transition; [by eapply same_tables_inside|by eapply same_tables_holds|exact He|done| |];
      [|intros e w2 H2; by rewrite H2].
    intros w2 Hin2 _ Hdb2. wp_step. apply wp_commit; [done|by intros; wp_go|]. intros e w3 _ H3. by rewrite H3, Hdb2.
  - apply wp_record_request_action; [|intros e w2 H2; by rewrite H2]. intros w2 H2. wp_step.
    assert (db w2 = db w1) as Hdb2 by apply H2.
    apply wp_commit; [eapply quiet_inside; [done|by eapply same_tables_inside]|by intros; wp_go|].
    intros e w3 _ H3. by rewrite H3, Hdb2.
Qed.

Lemma apply_provider_state_raises r res w e w' :
  Journaled (db w) → _apply_provider_state r res w = (Raise e, w') → db w' = db w.
Proof.
  intros HJ Hrun. assert (wp (_apply_provider_state r res) (λ _ _, True) (λ _ w', db w' = db w) w) as Hw.
  { unfold _apply_provider_state. destruct (bool_decide _); [by apply escalate_raises|].
    apply wp_with_uow. wp_step. apply wp_get_for_update; [by split_and!|done|].
    intros cur w1 _ Hwf Hw1 Hh. eapply wp_conseq; [apply adopt_raises; [eapply same_tables_inside; [done|by split_and!]|done|done]|done|].
    intros e' w2 H2. cbn. rewrite H2. apply Hw1. }
  unfold wp in Hw. by rewrite Hrun in Hw.
Qed.

Lemma apply_provider_state_calm r res : calm (_apply_provider_state r res).
Proof.
  pose proof escalate_calm. unfold _apply_provider_state. destruct (bool_decide _); [done|].
  apply calm_uow. uow_step; [eauto with calm_db|]. apply adopt_journaling.
Qed.

Lemma unverifiable_calm limit r reason : calm (_handle_unverifiable limit r reason).
Proof. pose proof escalate_calm. pose proof within_grace_calm. unfold _handle_unverifiable. calm_go. Qed.

Lemma reconcile_calm {HP : PlatformOk P} limit r : calm (reconcile limit r).
Proof.
  pose proof escalate_calm. pose proof within_grace_calm. pose proof unverifiable_calm.
  pose proof apply_provider_state_calm. unfold reconcile.
  destruct (IntegrationRequest.provider_reference r) as [ref|]; [|unfold _handle_unidentifiable; calm_go].
  calm_step. destruct (negb _); [done|]. apply calm_bind; [|intros []; calm_go].
  apply calm_try; [apply calm_bind; [by eapply status_calm|intros; calm_go]|].
  intros e k. unfold on_lookup_error. destruct e; try done.
  repeat (destruct (ErrorClass.subclass _ _); [intros [= <-]; calm_go|]). done.
Qed.

Lemma find_candidates_calm stale limit : calm (find_candidates stale limit).
Proof. unfold find_candidates, Requests.find_stale_in_flight. calm_go. apply calm_read_only. ro_go. Qed.
End ReconcileFacts.
#[export] Hint Resolve reconcile_calm find_candidates_calm : calm_db.

(** * Theorems *)

(** What reconciliation decides about a request in status [s0] when the provider
    reports [s]: [Some] new status, or leave it alone. *)
Definition reconciled_status (s0 : RequestStatus.t) (s : NormalizedStatus.t) : option RequestStatus.t :=
  match project_normalized_status s with
  | None => if bool_decide (s0 = RequestStatus.MANUAL_REVIEW) || RequestStatus.is_terminal s0
            then None else Some RequestStatus.MANUAL_REVIEW
  | Some target => if is_forward_progress s0 target then Some target else None
  end.

Section ReconcileRuns.
Context `{Env} {HE : EnvOk _}.
Import Reconciliation.

(** Statuses reconciliation may hand to a human. *)
Definition reviewable (s : RequestStatus.t) : Prop := transition s RequestStatus.MANUAL_REVIEW.

Lemma hand_over_settles r reason ref :
  reviewable (IntegrationRequest.status r) →
  settles r RequestStatus.MANUAL_REVIEW ref (hand_over r reason).
Proof.
  intros Hs. apply settles_now. intros t Ht.
  by apply (settles_move _ _ _ _ _ _ (λ _, _)), moves_review.
Qed.

Definition settled_already (s : RequestStatus.t) : bool :=
  bool_decide (s = RequestStatus.MANUAL_REVIEW) || RequestStatus.is_terminal s.

(** [_escalate] moves an open request to MANUAL_REVIEW, and nothing else. *)
Lemma wp_escalate request reason row w (Q : ReconciliationOutcome → World → Prop) X :
  let i := IntegrationRequest.id request in
  let s0 := IntegrationRequest.status row in
  IntegrationRequest.id row = i → t_requests (db w) !! i = Some row → fresh_ids w (db w) →
  free_reference (db w) row (IntegrationRequest.provider_reference row) →
  (settled_already s0 = false → reviewable s0) →
  (∀ o w', ro_previous_status o = s0 →
     (if settled_already s0 then ro_new_status o = s0 ∧ db w' = db w
      else ro_new_status o = RequestStatus.MANUAL_REVIEW ∧
           settled_commit i s0 RequestStatus.MANUAL_REVIEW (db w) (db w')) → Q o w') →
  wp (_escalate request reason) Q X w.
Proof.
  intros i s0 Hid Hrow Hf Hown Hrev HQ. apply wp_with_uow. wp_step. eapply (wp_load_row i row); [done|].
  cbn zeta. change (IntegrationRequest.status (request_to_domain row)) with s0.
  change (bool_decide (s0 = _) || RequestStatus.is_terminal s0) with (settled_already s0).
  destruct (settled_already s0) eqn:Hs.
  - unfold rollback. wp_go. by apply HQ.
  - eapply (settles_commit _ RequestStatus.MANUAL_REVIEW None _ (loaded w row) row); try done.
    + apply hand_over_settles. by apply Hrev.
    + apply ready_loaded; [by rewrite Hid|done|done].
    + change (IntegrationRequest.status (request_to_domain row)) with s0. intros Heq.
      by rewrite Heq in Hs.
    + intros r' w' Hs' Hc _. wp_step. apply HQ; [done|]. split; [done|].
      change (IntegrationRequest.id (request_to_domain row)) with (IntegrationRequest.id row) in Hc.
      by rewrite Hid in Hc.
Qed.

(** [adopt] follows the state machine. *)
Lemma wp_adopt row res target w (Q : ReconciliationOutcome → World → Prop) X :
  let i := IntegrationRequest.id row in let s0 := IntegrationRequest.status row in
  t_requests (db w) !! i = Some row → fresh_ids w (db w) →
  free_reference (db w) row (IntegrationRequest.provider_reference row) →
  free_reference (db w) row (res_provider_reference res) →
  truthy_opt (IntegrationRequest.provider_reference row) = true →
  project_normalized_status (res_normalized_status res) = Some target →
  (∀ o w', ro_previous_status o = s0 →
     (if is_forward_progress s0 target
      then ro_new_status o = target ∧ settled_commit i s0 target (db w) (db w')
      else ro_new_status o = s0 ∧ noted_commit AuditAction.STATE_RECONCILED (db w) (db w')) → Q o w') →
  wp (adopt (request_to_domain row) res) Q X (loaded w row).
Proof.
  intros i s0 Hrow Hf Hown Hfree Href Hp HQ. unfold adopt. cbn zeta.
  change (IntegrationRequest.status (request_to_domain row)) with s0.
  wp_step. unfold now. unfold wp at 1. wp_step. apply wp_on.
  destruct (is_forward_progress s0 target) eqn:Hfp.
  - eapply wp_conseq; [apply (apply_forward _ _ _ _ _ target); [done|exact Hfp|apply clock_aware|by right]| |done].
    intros o r' (tr & -> & Hid & Hprev & Hnew & Hst & Haw & Hrf).
    change (IntegrationRequest.id (request_to_domain row)) with i in Hid.
    change (IntegrationRequest.provider_reference (request_to_domain row))
      with (IntegrationRequest.provider_reference row) in Hrf.
    wp_step. eapply (wp_record_transition_total _ row); [|done|].
    { unfold updatable. rewrite Hid. cbn. rewrite lookup_insert_eq. split_and!; [done|done|].
      by destruct Hrf as [-> | ->]. }
    intros a oe w1 Hdb1 Hrows Hw1 Hp1. cbn in Hdb1, Hw1, Hp1. wp_step.
    eapply (wp_commit_settling r' row s0 target (db w)).
    + exists tr, (drawn w), a, oe. rewrite Hw1, Hp1. cbn. rewrite Hid. by split_and!.
    + intros Heq. apply forward_progress_transition in Hfp. rewrite Heq in Hfp.
      by eapply transition_irrefl.
    + intros w' Hcom _ _. wp_step. rewrite Hid in Hcom. apply HQ; [done|]. cbn. by rewrite Hst.
  - eapply (wp_conseq _ (λ o r', o = None ∧ r' = request_to_domain row) _ (λ _ _, False)); [|intros _ _ [-> ->]|done].
    { unfold IntegrationRequest.apply_normalized_status. rewrite Hp. wp_step. wp_step.
      change (is_forward_progress s0 target = false) with
        (is_forward_progress (IntegrationRequest.status (request_to_domain row)) target = false) in Hfp.
      by rewrite Hfp. }
    wp_step. apply wp_action_total. intros a w1 Hdb Hw Hpe Ha Hact Hsil. wp_step. cbn in Hdb, Hw, Hpe, Ha.
    eapply wp_commit_note; [exact Hpe|rewrite Hw, Ha; intros y Hy; by apply (Hf (drawn w))|].
    intros w' Hdb'. wp_step. apply HQ; [done|]. split; [done|]. exists a. cbn. by rewrite Hdb', Hw.
Qed.
End ReconcileRuns.

Module ReconciliationTheorems.
Import Reconciliation.

(** The open statuses a dispatched request can be in may all be reviewed. *)
Lemma dispatched_reviewable row :
  wf row → 1 ≤ IntegrationRequest.attempt_count row →
  settled_already (IntegrationRequest.status row) = false → reviewable (IntegrationRequest.status row).
Proof.
  intros [_ _ _ _ Hok] Hatt. unfold status_ok in Hok.
  destruct (IntegrationRequest.status row); try done; (destruct Hok as (_ & _ & Ha); lia).
Qed.

(** C20. Reconciliation follows the provider and never guesses. Take a dispatched
    request that has a provider reference, and the provider's answer. If applying
    the answer raises, nothing was committed. And when the identifiers drawn are new
    and neither the request's own reference nor the one in the answer belongs to
    another request of the provider, applying it returns and moves the request
    exactly to [reconciled_status]: to the reported status when the state machine
    allows that step, to MANUAL_REVIEW (at once, with no grace period) when the
    answer cannot be interpreted and the request is still open, and otherwise it
    changes no request and no event (at most it adds a note). *)
Theorem reconcile_follows_provider `{Env} {HE : EnvOk _} (request row : IntegrationRequest.t)
    (res : ProviderOperationResult) (w : World) :
  let i := IntegrationRequest.id request in let s0 := IntegrationRequest.status row in
  Journaled (db w) → t_requests (db w) !! i = Some row →
  truthy_opt (IntegrationRequest.provider_reference row) = true →
  1 ≤ IntegrationRequest.attempt_count row →
  (∀ e w', _apply_provider_state request res w = (Raise e, w') → db w' = db w) ∧
  (fresh_ids w (db w) →
   free_reference (db w) row (IntegrationRequest.provider_reference row) →
   free_reference (db w) row (res_provider_reference res) →
   ∃ o w', _apply_provider_state request res w = (Ret o, w') ∧ ro_previous_status o = s0 ∧
     match reconciled_status s0 (res_normalized_status res) with
     | Some s => ro_new_status o = s ∧ settled_commit i s0 s (db w) (db w')
     | None => ro_new_status o = s0 ∧
               (db w' = db w ∨ noted_commit AuditAction.STATE_RECONCILED (db w) (db w'))
     end).
Proof.
  intros i s0 HJ Hrow Href Hatt. split; [intros e w'; by apply apply_provider_state_raises|].
  intros Hf Hown Hfree. pose proof (HJ i) as Hi. rewrite Hrow in Hi.
  destruct Hi as (Hid & Hwf & _). apply wp_total. unfold _apply_provider_state, reconciled_status.
  destruct (bool_decide _) eqn:Hu.
  - apply bool_decide_eq_true in Hu. rewrite Hu. cbn [project_normalized_status _STATUS_PROJECTION].
    eapply (wp_escalate request _ row w); try done; [by apply dispatched_reviewable|].
    intros o w' Hprev Hc. split; [done|]. unfold settled_already in Hc. fold s0.
    destruct (_ || _); [|done]. destruct Hc. auto.
  - apply bool_decide_eq_false in Hu.
    destruct (project_normalized_status _) as [target|] eqn:Hp; [|by destruct (res_normalized_status res)].
    apply wp_with_uow. wp_step. eapply (wp_load_row i row); [done|].
    eapply (wp_adopt row res target w); rewrite ?Hid; try done.
    intros o w' Hprev Hc. split; [done|]. fold s0 in Hc |- *.
    destruct (is_forward_progress s0 target); [done|]. destruct Hc. auto.
Qed.

Definition succeeded_result : ProviderOperationResult :=
  result_success NormalizedStatus.SUCCEEDED (Some "op-9") (Some "done") [] None.

Lemma reconcile_follows_provider_witness :
  ∃ o w', @_apply_provider_state sample_env (request_after pending_calls) succeeded_result
            (world_after pending_calls) = (Ret o, w') ∧
    ro_previous_status o = RequestStatus.PENDING ∧
    ro_new_status o = RequestStatus.SUCCEEDED ∧
    settled_commit 7 RequestStatus.PENDING RequestStatus.SUCCEEDED
      (db (world_after pending_calls)) (db w').
Proof.
  refine (proj2 (@reconcile_follows_provider sample_env sample_env_ok (request_after pending_calls)
    (request_after pending_calls) succeeded_result (world_after pending_calls) _ _ _ _) _ _ _).
  - apply tables_after_journaled; [reflexivity|]. vm_compute. tauto.
  - reflexivity.
  - reflexivity.
  - vm_compute. discriminate.
  - apply sample_fresh. vm_compute. lia.
  - reflexivity.
  - reflexivity.
Defined.

(** A request without a provider reference is given the whole grace period.
    Reconciling it reads the clock once: while less than the threshold has
    passed since its last update nothing is written and the decision is
    "waiting"; from the threshold on it is handed to a human (unless it was
    settled meanwhile), never failed and never redispatched. *)
Theorem unidentified_waits_then_escalates `{Env} `{Platform} {HE : EnvOk _} (limit : Z)
    (request row : IntegrationRequest.t) (w : World) :
  let i := IntegrationRequest.id request in let s0 := IntegrationRequest.status row in
  Journaled (db w) → t_requests (db w) !! i = Some row → fresh_ids w (db w) →
  IntegrationRequest.provider_reference request = None →
  is_aware (IntegrationRequest.updated_at request) = true →
  free_reference (db w) row (IntegrationRequest.provider_reference row) →
  1 ≤ IntegrationRequest.attempt_count row →
  let waited := total_seconds (instant (clock_at (ticks w)) - instant (IntegrationRequest.updated_at request)) in
  ∃ o w', reconcile limit request w = (Ret o, w') ∧
    if Qltb waited (inject_Z limit)
    then ro_action o = "waiting" ∧ ro_changed o = false ∧ db w' = db w
    else ro_previous_status o = s0 ∧
         if settled_already s0 then ro_new_status o = s0 ∧ db w' = db w
         else ro_new_status o = RequestStatus.MANUAL_REVIEW ∧
              settled_commit i s0 RequestStatus.MANUAL_REVIEW (db w) (db w').
Proof.
  intros i s0 HJ Hrow Hf Hnone Haw Hown Hatt waited. pose proof (HJ i) as Hi. rewrite Hrow in Hi.
  destruct Hi as (Hid & Hwf & _). apply wp_total. unfold reconcile. rewrite Hnone.
  unfold _handle_unidentifiable, within_grace, now. wp_step. wp_step. unfold wp at 1.
  unfold IntegrationRequest.seconds_since_update. rewrite dt_sub_aware by (done || apply clock_aware).
  cbn [fmap option_fmap option_map]. wp_step. fold waited. destruct (Qltb waited _).
  - wp_step. unfold unchanged, ro_changed. cbn. by rewrite bool_decide_true.
  - by eapply (wp_escalate request _ row (w <| ticks ::= S |>)); try done; apply dispatched_reviewable.
Qed.

Lemma unidentified_waits_then_escalates_witness :
  ∃ o w', @reconcile sample_env (sample_platform accepted_result) 0
            (request_after dispatching_calls) (world_after dispatching_calls) = (Ret o, w') ∧
    ro_previous_status o = RequestStatus.DISPATCHING ∧
    ro_new_status o = RequestStatus.MANUAL_REVIEW ∧
    settled_commit 7 RequestStatus.DISPATCHING RequestStatus.MANUAL_REVIEW
      (db (world_after dispatching_calls)) (db w').
Proof.
  apply (@unidentified_waits_then_escalates sample_env (sample_platform accepted_result) sample_env_ok 0
    (request_after dispatching_calls) (request_after dispatching_calls) (world_after dispatching_calls)).
  - apply tables_after_journaled; [reflexivity|]. vm_compute. tauto.
  - reflexivity.
  - apply sample_fresh. vm_compute. lia.
  - reflexivity.
  - reflexivity.
  - reflexivity.
  - vm_compute. discriminate.
Defined.
End ReconciliationTheorems.
