(* ===== verification/Outbox.v ===== *)
(** The transactional outbox: its repository ([SqlOutboxRepository] in
    [infrastructure/db/repositories.py]) and the publisher
    ([workers/outbox_publisher.py]). *)

From S2P Require Import Prelude PyData PyTime Enums Errors StateMachine ValueObjects Policies Entities RequestFacts.
From S2P Require Import Workflow Records Store Journal Ports Settlement Samples.

(** * Repository *)

Definition outbox_to_domain (e : OutboxEvent.t) : OutboxEvent.t :=
  e <| OutboxEvent.created_at ::= as_utc |> <| OutboxEvent.published_at ::= fmap as_utc |>
    <| OutboxEvent.next_attempt_at ::= fmap as_utc |> <| OutboxEvent.dead_lettered_at ::= fmap as_utc |>.

Module Outbox.
Definition add (e : OutboxEvent.t) : H unit := add_row (NewOutbox e).
Definition add_many (l : list OutboxEvent.t) : H unit := for_each l add.

(** [UPDATE ... SET f WHERE p] *)
Definition update_where (p : OutboxEvent.t → bool) (f : OutboxEvent.t → OutboxEvent.t) : H unit :=
  modify_working (λ T, T <| t_outbox ::= map (λ e, if p e then f e else e) |>).

Definition has_id (ids : list UUID) (e : OutboxEvent.t) : bool := bool_decide (OutboxEvent.id e ∈ ids).

Definition claimable (now : datetime) (e : OutboxEvent.t) : bool :=
  negb (OutboxEvent.is_published e) && negb (OutboxEvent.is_dead_lettered e) &&
  match OutboxEvent.next_attempt_at e with
  | None => true
  | Some d => instant d <=? instant now
  end.

Definition claim_unpublished (now : datetime) (limit : nat) (lease_until : datetime) :
    H (list OutboxEvent.t) :=
  let* rows := reading (λ T, take limit (order_by (λ e, instant (OutboxEvent.created_at e))
                               (List.filter (claimable now) (t_outbox T)))) in
  if bool_decide (rows = []) then ret []
  else
    update_where (has_id (OutboxEvent.id <$> rows))
      (λ e, e <| OutboxEvent.next_attempt_at := Some lease_until |>) ;;;
    ret ((λ e, (outbox_to_domain e) <| OutboxEvent.next_attempt_at := Some lease_until |>) <$> rows).

Definition mark_published (ids : list UUID) (now : datetime) : H unit :=
  if bool_decide (ids = []) then ret tt
  else update_where (has_id ids) (OutboxEvent.mark_published now).

Definition mark_failed (i : UUID) (error : string) (next_attempt_at : datetime) : H unit :=
  update_where (has_id [i]) (OutboxEvent.mark_publish_failed error next_attempt_at).

Definition mark_dead_lettered (i : UUID) (error : string) (now : datetime) : H unit :=
  update_where (has_id [i]) (OutboxEvent.mark_dead_lettered error now).

Definition count (p : OutboxEvent.t → bool) (T : tables) : Z :=
  Z.of_nat (length (List.filter p (t_outbox T))).
Definition count_pending : H Z :=
  reading (count (λ e, negb (OutboxEvent.is_published e) && negb (OutboxEvent.is_dead_lettered e))).
Definition count_dead_lettered : H Z := reading (count OutboxEvent.is_dead_lettered).

Definition redrivable (ids : list UUID) (e : OutboxEvent.t) : bool :=
  has_id ids e && OutboxEvent.is_dead_lettered e && negb (OutboxEvent.is_published e).
Definition redrive_dead_lettered (ids : list UUID) (now : datetime) : H Z :=
  if bool_decide (ids = []) then ret 0
  else
    let* n := reading (count (redrivable ids)) in
    update_where (redrivable ids) (λ e,
      e <| OutboxEvent.dead_lettered_at := None |> <| OutboxEvent.next_attempt_at := Some now |>
        <| OutboxEvent.last_error := None |>) ;;;
    ret n.

Definition purgeable (cutoff : datetime) (e : OutboxEvent.t) : bool :=
  match OutboxEvent.published_at e with
  | None => false
  | Some d => instant d <? instant cutoff
  end.
Definition purge_published_before (cutoff : datetime) : H Z :=
  let* n := reading (count (purgeable cutoff)) in
  modify_working (λ T, T <| t_outbox ::= List.filter (λ e, negb (purgeable cutoff e)) |>) ;;;
  ret n.
End Outbox.

(** * The publisher *)

Definition MAX_RETRY_DELAY_SECONDS : Q := 300.

Definition _to_envelope (e : OutboxEvent.t) : outcome exn EventEnvelope :=
  envelope_make
    {| env_event_id := OutboxEvent.event_id e; env_event_type := OutboxEvent.event_type e;
       env_event_version := OutboxEvent.event_version e;
       env_aggregate_type := OutboxEvent.aggregate_type e;
       env_aggregate_id := OutboxEvent.aggregate_id e;
       env_occurred_at := OutboxEvent.created_at e;
       env_correlation_id := OutboxEvent.correlation_id e;
       env_causation_id := OutboxEvent.causation_id e;
       env_producer := PRODUCER_NAME; env_payload := OutboxEvent.payload e;
       env_metadata := [("attempt", JInt (OutboxEvent.attempt_count e));
                        ("partition_key", JStr (OutboxEvent.routing_key e))] |}.

Record OutboxSettings := mk_outbox_settings {
  outbox_batch_size : nat;
  outbox_max_attempts : Z;
  outbox_retry_base_seconds : Q;
  outbox_claim_lease_seconds : Q;
  outbox_retention_hours : Z;
}.

(** [str(exc)] of a domain error is its message. *)
Definition exn_text (e : exn) : string :=
  match e with
  | EDomain d => message d
  | EValueError m | ETypeError m | EOther m => m
  | EKeyError k => "'" +:+ k +:+ "'"
  | EStopIteration | EAssertion => ""
  end.

Module Publisher.
Section Worker.
Context `{Env}.
(** [EventPublisher.publish] and [publish_batch]. *)
Context (publish : EventEnvelope → H unit) (publish_batch : list EventEnvelope → H unit)
  (cfg : OutboxSettings).

Fixpoint envelopes (l : list OutboxEvent.t) : outcome exn (list EventEnvelope) :=
  match l with
  | [] => Ret []
  | e :: l' => match _to_envelope e with
               | Raise x => Raise x
               | Ret v => match envelopes l' with
                          | Raise x => Raise x
                          | Ret vs => Ret (v :: vs)
                          end
               end
  end.

(** Each event on its own: [None] acknowledged, [Some] the reason. *)
Definition publish_one (v : EventEnvelope) : H (option string) :=
  try_except (publish v ;;; ret None)
    (λ x, if isinstance x ErrorClass.EventPublicationError then Some (ret (Some (exn_text x))) else None).

Fixpoint publish_each (l : list (OutboxEvent.t * EventEnvelope)) :
    H (list OutboxEvent.t * list (OutboxEvent.t * string)) :=
  match l with
  | [] => ret ([], [])
  | (e, v) :: l' =>
      let* o := publish_one v in
      let* (published, failures) := publish_each l' in
      match o with
      | None => ret (e :: published, failures)
      | Some reason => ret (published, (e, reason) :: failures)
      end
  end.

Definition _publish (events : list OutboxEvent.t) :
    H (list OutboxEvent.t * list (OutboxEvent.t * string)) :=
  let* vs := lift (envelopes events) in
  let* batch_ok := try_except (publish_batch vs ;;; ret true)
    (λ x, if isinstance x ErrorClass.EventPublicationError then Some (ret false) else None) in
  if batch_ok : bool then ret (events, [])
  else publish_each (zip events vs).

Definition retry_delay_seconds (attempt_count : Z) : Q :=
  let attempt := Z.min (attempt_count + 1) (outbox_max_attempts cfg) in
  Qminb (outbox_retry_base_seconds cfg * Qpower 2 (attempt - 1)) MAX_RETRY_DELAY_SECONDS.

Definition _next_attempt_at (e : OutboxEvent.t) : H datetime :=
  let* t := now in
  ret (dt_add t (timedelta_seconds (retry_delay_seconds (OutboxEvent.attempt_count e)))).

(** What happens to one failed event. *)
Definition settle_failure (f : OutboxEvent.t * string) : H unit :=
  let '(e, reason) := f in
  if outbox_max_attempts cfg <=? OutboxEvent.attempt_count e + 1 then
    let* t := now in
    Outbox.mark_dead_lettered (OutboxEvent.id e) reason t
  else
    let* at_ := _next_attempt_at e in
    now ;;;
    Outbox.mark_failed (OutboxEvent.id e) reason at_.

(** The closing unit of work of [run_once]. *)
Definition settle_batch (published : list OutboxEvent.t) (failures : list (OutboxEvent.t * string)) :
    H unit :=
  with_uow (
    (if bool_decide (published = []) then ret tt
     else let* t := now in Outbox.mark_published (OutboxEvent.id <$> published) t) ;;;
    for_each failures settle_failure ;;;
    commit).

Definition _maybe_purge : H unit :=
  let* t := now in
  let cutoff := dt_add t (- (outbox_retention_hours cfg * 3600 * us_per_second)) in
  with_uow (
    Outbox.purge_published_before cutoff ;;;
    commit).

Definition claim_batch (t : datetime) : H (list OutboxEvent.t) :=
  let lease_until := dt_add t (timedelta_seconds (outbox_claim_lease_seconds cfg)) in
  with_uow (
    let* events := Outbox.claim_unpublished t (outbox_batch_size cfg) lease_until in
    Outbox.count_pending ;;;
    Outbox.count_dead_lettered ;;;
    commit ;;;
    ret events).

Definition run_once : H Z :=
  let* t := now in
  let* events := claim_batch t in
  if bool_decide (events = []) then
    _maybe_purge ;;;
    ret 0
  else
    let* (published, failures) := _publish events in
    settle_batch published failures ;;;
    ret (Z.of_nat (length events)).
End Worker.
End Publisher.

(** * Every transaction leaves the history alone *)

Section OutboxFacts.
Context `{Env}.

Lemma outbox_history f T : same_history T (T <| t_outbox ::= f |>).
Proof.
  split_and!; try done; intros i; cbn; (destruct (_ !! i); [|done]); [apply kept_receipt_refl|apply kept_definition_refl].
Qed.

Lemma journaling_outbox f : journaling (modify_working (λ T, T <| t_outbox ::= f |>)).
Proof. apply journaling_modify. intros T. apply outbox_history. Qed.

Lemma journaling_update_where p f : journaling (Outbox.update_where p f).
Proof. apply journaling_outbox. Qed.

Lemma journaling_for_each {A} (l : list A) (body : A → H unit) :
  (∀ x, journaling (body x)) → journaling (for_each l body).
Proof.
  intros Hb. induction l as [|x l IH]; cbn; [eauto with calm_db|]. by apply journaling_bind.
Qed.

Context (publish : EventEnvelope → H unit) (publish_batch : list EventEnvelope → H unit)
  (cfg : OutboxSettings).
Hypothesis publish_calm : ∀ v, calm (publish v).
Hypothesis publish_batch_calm : ∀ vs, calm (publish_batch vs).

Lemma publish_each_calm l : calm (Publisher.publish_each publish l).
Proof.
  induction l as [|[e v] l IH]; cbn; [eauto with calm_db|]. apply calm_bind; [|intros o; calm_go].
  apply calm_try; [calm_go|]. intros x k. destruct (isinstance _ _); [|done].
  intros [= <-]. apply calm_ret.
Qed.

Lemma settle_batch_calm published failures : calm (Publisher.settle_batch cfg published failures).
Proof.
  pose proof journaling_update_where. unfold Publisher.settle_batch. apply calm_uow.
  uow_step; [unfold Outbox.mark_published; uow_go|]. uow_step; [|eauto with calm_db].
  apply journaling_for_each. intros [e reason]. unfold Publisher.settle_failure, Publisher._next_attempt_at.
  uow_go; unfold Outbox.mark_dead_lettered, Outbox.mark_failed; auto.
Qed.

Lemma claim_batch_calm t : calm (Publisher.claim_batch cfg t).
Proof.
  pose proof journaling_update_where. apply calm_uow. unfold Outbox.claim_unpublished. uow_go.
Qed.

Lemma publisher_calm : calm (Publisher.run_once publish publish_batch cfg).
Proof.
  pose proof settle_batch_calm. pose proof claim_batch_calm. pose proof publish_each_calm.
  pose proof journaling_outbox. unfold Publisher.run_once. calm_go.
  - unfold Publisher._maybe_purge. calm_go. apply calm_uow. unfold Outbox.purge_published_before. uow_go.
  - unfold Publisher._publish. calm_step; [eauto with calm_db|]. apply calm_bind; [|intros []; calm_go].
    apply calm_try; [calm_go|]. intros x k. destruct (isinstance _ _); [|done].
    intros [= <-]. apply calm_ret.
Qed.
End OutboxFacts.
#[export] Hint Resolve publisher_calm : calm_db.

(** * What the closing transaction does to each row *)

(** The columns no publisher statement writes. *)
Definition same_event (e e' : OutboxEvent.t) : Prop :=
  OutboxEvent.id e' = OutboxEvent.id e ∧ OutboxEvent.event_id e' = OutboxEvent.event_id e ∧
  OutboxEvent.event_type e' = OutboxEvent.event_type e ∧
  OutboxEvent.aggregate_id e' = OutboxEvent.aggregate_id e ∧
  OutboxEvent.payload e' = OutboxEvent.payload e ∧ OutboxEvent.created_at e' = OutboxEvent.created_at e.

(** The failure recorded for event [i], if any. *)
Fixpoint failure_of (failures : list (OutboxEvent.t * string)) (i : UUID) :
    option (OutboxEvent.t * string) :=
  match failures with
  | [] => None
  | f :: fs => if bool_decide (OutboxEvent.id f.1 = i) then Some f else failure_of fs i
  end.

Definition row_settled (cfg : OutboxSettings) (published : list OutboxEvent.t)
    (failures : list (OutboxEvent.t * string)) (e e' : OutboxEvent.t) : Prop :=
  same_event e e' ∧
  if Outbox.has_id (OutboxEvent.id <$> published) e then OutboxEvent.is_published e' = true
  else match failure_of failures (OutboxEvent.id e) with
       | None => e' = e
       | Some (ev, reason) =>
           OutboxEvent.published_at e' = OutboxEvent.published_at e ∧
           OutboxEvent.attempt_count e' = OutboxEvent.attempt_count e + 1 ∧
           if outbox_max_attempts cfg <=? OutboxEvent.attempt_count ev + 1
           then OutboxEvent.is_dead_lettered e' = true
           else OutboxEvent.dead_lettered_at e' = OutboxEvent.dead_lettered_at e ∧
                is_Some (OutboxEvent.next_attempt_at e')
       end.

Section SettleBatch.
Context `{Env} (cfg : OutboxSettings) (published : list OutboxEvent.t).

Lemma failure_of_app fs f i :
  failure_of (fs ++ [f]) i =
  match failure_of fs i with
  | Some g => Some g
  | None => if bool_decide (OutboxEvent.id f.1 = i) then Some f else None
  end.
Proof. induction fs as [|g fs IH]; [done|]. cbn. destruct (bool_decide (OutboxEvent.id g.1 = i)); [done|exact IH]. Qed.

Lemma failure_of_absent fs i : i ∉ (OutboxEvent.id ∘ fst <$> fs) → failure_of fs i = None.
Proof.
  induction fs as [|g fs IH]; [done|]. rewrite fmap_cons, not_elem_of_cons. intros [Hne Hi]. cbn.
  rewrite bool_decide_false; [by apply IH|]. intros <-. by apply Hne.
Qed.

(** One failure settles its row and no other. *)
Lemma row_settled_step fs f g e e1 :
  OutboxEvent.id f.1 ∉ (OutboxEvent.id <$> published) →
  OutboxEvent.id f.1 ∉ (OutboxEvent.id ∘ fst <$> fs) →
  (∀ x, same_event x (g x) ∧ OutboxEvent.published_at (g x) = OutboxEvent.published_at x ∧
     OutboxEvent.attempt_count (g x) = OutboxEvent.attempt_count x + 1 ∧
     if outbox_max_attempts cfg <=? OutboxEvent.attempt_count f.1 + 1
     then OutboxEvent.is_dead_lettered (g x) = true
     else OutboxEvent.dead_lettered_at (g x) = OutboxEvent.dead_lettered_at x ∧
          is_Some (OutboxEvent.next_attempt_at (g x))) →
  row_settled cfg published fs e e1 →
  row_settled cfg published (fs ++ [f]) e
    (if Outbox.has_id [OutboxEvent.id f.1] e1 then g e1 else e1).
Proof.
  intros Hpub Hfs Hg [Hs He]. assert (OutboxEvent.id e1 = OutboxEvent.id e) as Hid by apply Hs.
  unfold row_settled, Outbox.has_id in *. rewrite Hid.
  destruct (decide (OutboxEvent.id e = OutboxEvent.id f.1)) as [Heq|Hne].
  - rewrite (bool_decide_true (OutboxEvent.id e ∈ [_])) by set_solver.
    rewrite (bool_decide_false (OutboxEvent.id e ∈ (OutboxEvent.id <$> published))) in He by (by rewrite Heq).
    rewrite Heq, (failure_of_absent _ _ Hfs) in He. subst e1.
    specialize (Hg e) as (Hs1 & Hp & Ha & Hd). split; [done|].
    rewrite (bool_decide_false (OutboxEvent.id e ∈ (OutboxEvent.id <$> published))) by (by rewrite Heq).
    rewrite failure_of_app, Heq, failure_of_absent, bool_decide_true by done. by destruct f.
  - rewrite (bool_decide_false (OutboxEvent.id e ∈ [_])) by set_solver. split; [done|].
    destruct (bool_decide (_ ∈ _)) eqn:Hb; [done|].
    rewrite failure_of_app, (bool_decide_false (OutboxEvent.id f.1 = _)) by done.
    by destruct (failure_of fs _).
Qed.

Context {HE : EnvOk _}.

(** The session while the batch is being settled, over committed tables [T]. *)
Definition settling_batch (T : tables) (fs : list (OutboxEvent.t * string)) (w : World) : Prop :=
  db w = T ∧ pending (sess w) = [] ∧
  ∃ l, working (sess w) = T <| t_outbox := l |> ∧ Forall2 (row_settled cfg published fs) (t_outbox T) l.

Lemma Forall2_map_r {A B} (P Q : A → B → Prop) (g : B → B) l l' :
  (∀ x y, P x y → Q x (g y)) → Forall2 P l l' → Forall2 Q l (map g l').
Proof. intros Hg. induction 1; cbn; constructor; auto. Qed.

Lemma wp_settle_failure T fs f w (Q : unit → World → Prop) X :
  settling_batch T fs w →
  OutboxEvent.id f.1 ∉ (OutboxEvent.id <$> published) →
  OutboxEvent.id f.1 ∉ (OutboxEvent.id ∘ fst <$> fs) →
  (∀ w', settling_batch T (fs ++ [f]) w' → Q tt w') →
  wp (Publisher.settle_failure cfg f) Q X w.
Proof.
  intros (Hdb & Hp & l & Hw & Hl) Hpub Hfs HQ. destruct f as [e reason]. cbn [fst] in *.
  assert (∀ g w0, db w0 = T → pending (sess w0) = [] → working (sess w0) = T <| t_outbox := l |> →
    (∀ x, same_event x (g x) ∧ OutboxEvent.published_at (g x) = OutboxEvent.published_at x ∧
     OutboxEvent.attempt_count (g x) = OutboxEvent.attempt_count x + 1 ∧
     if outbox_max_attempts cfg <=? OutboxEvent.attempt_count e + 1
     then OutboxEvent.is_dead_lettered (g x) = true
     else OutboxEvent.dead_lettered_at (g x) = OutboxEvent.dead_lettered_at x ∧
          is_Some (OutboxEvent.next_attempt_at (g x))) →
    wp (Outbox.update_where (Outbox.has_id [OutboxEvent.id e]) g) Q X w0) as Hup.
  { intros g w0 Hdb0 Hp0 Hw0 Hg. unfold Outbox.update_where, modify_working, modify_session. wp_step.
    apply HQ. split_and!; [done|done|]. eexists. cbn. rewrite Hw0. split; [reflexivity|].
    eapply Forall2_map_r; [|exact Hl]. intros x y Hxy. by apply (row_settled_step fs (e, reason)). }
  unfold Publisher.settle_failure. destruct (_ <=? _) eqn:Hm.
  - unfold now. wp_step. unfold wp at 1. apply Hup; [done..|]. intros x. by split_and!.
  - unfold Publisher._next_attempt_at, now. wp_step. wp_step. unfold wp at 1. wp_step.
    wp_step. unfold wp at 1. apply Hup; [done..|]. intros x. by split_and!.
Qed.

Lemma wp_settle_failures T todo fs w (Q : unit → World → Prop) X :
  settling_batch T fs w →
  NoDup ((OutboxEvent.id <$> published) ++ (OutboxEvent.id ∘ fst <$> fs ++ todo)) →
  (∀ w', settling_batch T (fs ++ todo) w' → Q tt w') →
  wp (for_each todo (Publisher.settle_failure cfg)) Q X w.
Proof.
  revert fs w. induction todo as [|f todo IH]; intros fs w Hw Hnd HQ; cbn.
  - apply HQ. by rewrite app_nil_r.
  - wp_step. eapply wp_settle_failure; [exact Hw|..].
    + intros Hin. rewrite fmap_app, fmap_cons in Hnd. apply NoDup_app in Hnd as (_ & Hd & _).
      apply (Hd _ Hin). set_solver.
    + intros Hin. rewrite fmap_app, fmap_cons in Hnd. apply NoDup_app in Hnd as (_ & _ & Hd).
      apply NoDup_app in Hd as (_ & Hd & _). apply (Hd _ Hin). set_solver.
    + intros w' Hw'. eapply (IH (fs ++ [f])); [exact Hw'|by rewrite <- app_assoc|].
      intros w''. rewrite <- app_assoc. apply HQ.
Qed.

Lemma published_rows t (l : list OutboxEvent.t) :
  Forall2 (row_settled cfg published []) l
    (map (λ e, if Outbox.has_id (OutboxEvent.id <$> published) e
               then OutboxEvent.mark_published t e else e) l).
Proof.
  induction l as [|e l IH]; cbn; constructor; [|done]. unfold row_settled.
  destruct (Outbox.has_id _ e); [|by repeat split]. by repeat split.
Qed.
End SettleBatch.

(** * Publication *)

Section Publication.
Context `{Env} (publish : EventEnvelope → H unit) (publish_batch : list EventEnvelope → H unit).

(** The broker acknowledged the envelope of [e], alone or in a batch. *)
Definition acknowledged (e : OutboxEvent.t) : Prop :=
  ∃ v, _to_envelope e = Ret v ∧
    ((∃ vs w w', v ∈ vs ∧ publish_batch vs w = (Ret tt, w')) ∨ (∃ w w', publish v w = (Ret tt, w'))).

Lemma envelopes_Forall2 l vs :
  Publisher.envelopes l = Ret vs → Forall2 (λ e v, _to_envelope e = Ret v) l vs.
Proof.
  revert vs. induction l as [|e l IH]; intros vs; cbn; [by intros [= <-]|].
  destruct (_to_envelope e) as [v|] eqn:Hv; [|done].
  destruct (Publisher.envelopes l) as [vs'|]; [|done]. intros [= <-]. constructor; [done|]. by apply IH.
Qed.

Lemma wp_publish_one v (Q : option string → World → Prop) (X : exn → World → Prop) w :
  (∀ w', publish v w = (Ret tt, w') → Q None w') →
  (∀ e w', publish v w = (Raise e, w') → isinstance e ErrorClass.EventPublicationError = true →
     Q (Some (exn_text e)) w') →
  (∀ e w', publish v w = (Raise e, w') → isinstance e ErrorClass.EventPublicationError = false → X e w') →
  wp (Publisher.publish_one publish v) Q X w.
Proof.
  intros HN HS HX. unfold Publisher.publish_one. wp_step. wp_step. unfold wp.
  destruct (publish v w) as [[[]|e] w'] eqn:Hp; [by apply HN|].
  destruct (isinstance _ _) eqn:Hi; [by apply HS|by apply HX].
Qed.

(** The events are split into acknowledged and failed ones, in order. *)
Definition split_events (events published : list OutboxEvent.t)
    (failures : list (OutboxEvent.t * string)) : Prop :=
  (published ++ failures.*1) ≡ₚ events ∧ (∀ e, e ∈ published → acknowledged e).

Lemma wp_publish_each l w :
  (∀ e v, (e, v) ∈ l → _to_envelope e = Ret v) →
  wp (Publisher.publish_each publish l) (λ r _, split_events l.*1 r.1 r.2)
     (λ x _, isinstance x ErrorClass.EventPublicationError = false) w.
Proof.
  revert w. induction l as [|[e v] l IH]; intros w Hl; cbn.
  - split; [done|]. by intros e ?%elem_of_nil.
  - wp_step. apply wp_publish_one.
    + intros w' Hp. wp_step. eapply wp_conseq; [apply IH; set_solver| |done].
      intros [pub fs] w'' [Hperm Hack]. wp_step. split; cbn in *; [by rewrite Hperm|].
      intros e' [-> |Hin]%elem_of_cons; [|by apply Hack]. exists v. split; [apply Hl; set_solver|eauto].
    + intros x w' Hp Hi. wp_step. eapply wp_conseq; [apply IH; set_solver| |done].
      intros [pub fs] w'' [Hperm Hack]. wp_step. split; cbn in *; [|done].
      by rewrite <- Permutation_middle, Hperm.
    + done.
Qed.
End Publication.

(** * Claims *)

Lemma elem_of_order_by {A} (key : A → Z) x l : x ∈ order_by key l → x ∈ l.
Proof. by rewrite order_by_perm. Qed.

Section Claims.
Context `{Env} (cfg : OutboxSettings).

Definition lease_end (t : datetime) : datetime :=
  dt_add t (timedelta_seconds (outbox_claim_lease_seconds cfg)).

(** What a claim returns, and what it leaves in the table. *)
Lemma wp_claim_batch t w :
  wp (Publisher.claim_batch cfg t)
     (λ events w',
        (∀ i, i ∈ (OutboxEvent.id <$> events) →
           ∃ e, e ∈ t_outbox (db w) ∧ OutboxEvent.id e = i ∧ Outbox.claimable t e = true) ∧
        (∀ e, e ∈ t_outbox (db w') → OutboxEvent.id e ∈ (OutboxEvent.id <$> events) →
           OutboxEvent.next_attempt_at e = Some (lease_end t)))
     (λ _ _, False) w.
Proof.
  apply wp_with_uow. unfold Outbox.claim_unpublished, reading. wp_step. wp_step. wp_step.
  set (rows := take _ _). case_bool_decide as Hr.
  - wp_step. unfold Outbox.count_pending, Outbox.count_dead_lettered, reading, commit, flush.
    wp_line. cbn [insert_all pending sess set open_session]. unfold modify_session. wp_line. split; [by intros i ?%elem_of_nil|].
    by intros e _ ?%elem_of_nil.
  - wp_step. unfold Outbox.update_where, modify_working, modify_session. wp_step. wp_step.
    unfold Outbox.count_pending, Outbox.count_dead_lettered, reading, commit, flush.
    wp_line. cbn [insert_all pending sess set open_session]. unfold modify_session. wp_line.
    rewrite <- list_fmap_compose.
    change (OutboxEvent.id ∘ _) with OutboxEvent.id. split.
    + intros i (e & -> & He)%list_elem_of_fmap. exists e. unfold rows in He.
      apply elem_of_take in He as (k & He%list_elem_of_lookup_2 & _). apply elem_of_order_by in He.
      apply list_elem_of_In, filter_In in He as [Hin Hc]. split; [by apply list_elem_of_In|done].
    + cbn. intros e (x & <- & Hx%list_elem_of_In)%list_elem_of_In%in_map_iff Hid.
      unfold Outbox.has_id in *. destruct (bool_decide (OutboxEvent.id x ∈ _)) eqn:Hb; [done|].
      by apply bool_decide_eq_false in Hb.
Qed.
End Claims.

Module OutboxTheorems.
Import Publisher.

(** Leases keep publishers apart. After one publisher has claimed a batch,
    no claim made before the lease runs out (by any replica, on the outbox as
    the claim left it) returns any of the same events. *)
Theorem claims_do_not_overlap `{Env} (cfg : OutboxSettings) (t t2 : datetime) (w w1 w2 w3 : World)
    (events events2 : list OutboxEvent.t) :
  claim_batch cfg t w = (Ret events, w1) → t_outbox (db w2) = t_outbox (db w1) →
  instant t2 < instant (lease_end cfg t) → claim_batch cfg t2 w2 = (Ret events2, w3) →
  ∀ i, i ∈ (OutboxEvent.id <$> events) → i ∉ (OutboxEvent.id <$> events2).
Proof.
  intros H1 Hdb Hlt H2 i Hi Hi2.
  pose proof (wp_claim_batch cfg t w) as Hw1. unfold wp in Hw1. rewrite H1 in Hw1. destruct Hw1 as [_ Hl].
  pose proof (wp_claim_batch cfg t2 w2) as Hw2. unfold wp in Hw2. rewrite H2 in Hw2. destruct Hw2 as [Hc _].
  destruct (Hc i Hi2) as (e & He & <- & Hcl). rewrite Hdb in He. specialize (Hl e He Hi).
  unfold Outbox.claimable in Hcl. rewrite Hl in Hcl. apply andb_true_iff in Hcl as [_ Hle%Z.leb_le]. lia.
Qed.

(** Publication backoff. For a positive base delay, the delay before the next
    attempt is positive, at most 300 seconds, and never shrinks as attempts
    accumulate. *)
Theorem publication_backoff_bounds (cfg : OutboxSettings) (n m : Z) :
  (0 < outbox_retry_base_seconds cfg)%Q → 1 ≤ outbox_max_attempts cfg → 0 ≤ n ≤ m →
  (0 < retry_delay_seconds cfg n)%Q ∧ (retry_delay_seconds cfg n <= 300)%Q ∧
  (retry_delay_seconds cfg n <= retry_delay_seconds cfg m)%Q.
Proof.
  intros Hb Hm Hn. unfold retry_delay_seconds, MAX_RETRY_DELAY_SECONDS.
  set (a := Z.min (n + 1) _). set (a' := Z.min (m + 1) _).
  assert (0 < Qpower 2 (a - 1))%Q as Hpos by (apply Qpower_0_lt; lra).
  assert (Qpower 2 (a - 1) <= Qpower 2 (a' - 1))%Q as Hmono by (apply Qpower_le_compat_l; [lia|lra]).
  set (x := Qpower 2 (a - 1)) in *. set (y := Qpower 2 (a' - 1)) in *.
  assert (outbox_retry_base_seconds cfg * x <= outbox_retry_base_seconds cfg * y)%Q as Hxy
    by (apply Qmult_le_l; done).
  assert (0 < outbox_retry_base_seconds cfg * x)%Q as Hx0 by (by apply Qmult_lt_0_compat).
  set (p := (outbox_retry_base_seconds cfg * x)%Q) in *. set (q := (outbox_retry_base_seconds cfg * y)%Q) in *.
  destruct (Qminb_spec p 300) as (H1 & H2 & [Hp | Hp]), (Qminb_spec q 300) as (H3 & H4 & [Hq | Hq]);
    rewrite Hp, Hq in *; split_and!; lra.
Qed.

(** At-least-once publication. Publishing a batch splits it into exactly the
    events the broker acknowledged (in the batch call or one by one) and the
    failed ones: no event is lost, none is in both lists, none is counted as
    published without an acknowledgement; and if the batch fails, one poisoned
    event does not keep the others from being tried. A call that raises raised
    something other than EventPublicationError. *)
Theorem publish_splits_batch `{Env} (publish : EventEnvelope → H unit)
    (publish_batch : list EventEnvelope → H unit) (events : list OutboxEvent.t) (w : World) :
  match (_publish publish publish_batch events w).1 with
  | Ret (published, failures) => split_events publish publish_batch events published failures
  | Raise x => isinstance x ErrorClass.EventPublicationError = false
  end.
Proof.
  assert (wp (_publish publish publish_batch events)
    (λ r _, split_events publish publish_batch events r.1 r.2)
    (λ x _, isinstance x ErrorClass.EventPublicationError = false) w) as Hrun.
  { unfold _publish. wp_step. wp_step. destruct (envelopes events) as [vs|x] eqn:Hvs.
    - apply envelopes_Forall2 in Hvs. wp_step. wp_step. wp_step. unfold wp at 1.
      destruct (publish_batch vs w) as [[[]|x] w'] eqn:Hb.
      + wp_step. wp_step. split; cbn; [by rewrite app_nil_r|]. intros e He.
        apply list_elem_of_lookup in He as [i Hi].
        destruct (Forall2_lookup_l _ _ _ _ _ Hvs Hi) as (v & Hv & Hev).
        exists v. split; [done|]. left. exists vs, w, w'. split; [by eapply list_elem_of_lookup_2|done].
      + destruct (isinstance _ _) eqn:Hi; [|done]. wp_step.
        eapply wp_conseq; [apply (wp_publish_each publish publish_batch (zip events vs))|..].
        * intros e v (i & Hi1)%list_elem_of_lookup. apply lookup_zip_with_Some in Hi1 as (e' & v' & [= -> ->] & He & Hv).
          by destruct (Forall2_lookup_lr _ _ _ _ _ _ Hvs He Hv).
        * intros [pub fs] w'' Hs. cbn in *. rewrite fst_zip in Hs; [done|].
          by rewrite (Forall2_length _ _ _ Hvs).
        * done.
    - clear -Hvs. revert x Hvs. induction events as [|e l IH]; cbn; [done|]. unfold _to_envelope, envelope_make.
      destruct (negb _); [by intros x [= <-]|]. destruct (envelopes l); [done|]. intros x' [= <-]. by apply IH. }
  unfold wp in Hrun. by destruct (_publish _ _ _ _) as [[[]|]].
Qed.

(** The closing transaction of a publication batch records exactly what the
    broker answered. It always commits; it changes no table but the outbox and
    no column of an event but its delivery state; the acknowledged events are
    marked published, each failed event gains one attempt and is either
    rescheduled or, once its attempts reach the bound, dead-lettered; every
    other row is untouched. *)
Theorem settle_batch_exact `{Env} {HE : EnvOk _} (cfg : OutboxSettings)
    (published : list OutboxEvent.t) (failures : list (OutboxEvent.t * string)) (w : World) :
  NoDup ((OutboxEvent.id <$> published) ++ (OutboxEvent.id ∘ fst <$> failures)) →
  ∃ w' l, settle_batch cfg published failures w = (Ret tt, w') ∧
    db w' = (db w) <| t_outbox := l |> ∧
    Forall2 (row_settled cfg published failures) (t_outbox (db w)) l.
Proof.
  intros Hnd. assert (wp (settle_batch cfg published failures) (λ _ w', ∃ l,
    db w' = (db w) <| t_outbox := l |> ∧ Forall2 (row_settled cfg published failures) (t_outbox (db w)) l)
    (λ _ _, False) w) as ([] & w' & Hrun & l & Hl)%wp_total; [|by exists w', l].
  apply wp_with_uow. wp_step.
  eapply (wp_conseq _ (λ _ w', settling_batch cfg published (db w) [] w') _ (λ _ _, False));
    [|intros [] w1 Hw1|done].
  - case_bool_decide as Hp.
    + wp_step. split_and!; [done|done|]. exists (t_outbox (db w)). cbn. split; [by destruct (db w)|].
      apply Forall2_same_length_lookup_2; [done|]. intros i x y Hx Hy. rewrite Hx in Hy.
      injection Hy as <-. subst published. by repeat split.
    + unfold now. wp_step. unfold wp at 1. unfold Outbox.mark_published.
      rewrite bool_decide_false by (by intros ?%fmap_nil_inv).
      unfold Outbox.update_where, modify_working, modify_session. wp_step. split_and!; [done|done|].
      eexists. cbn. split; [reflexivity|]. by apply published_rows.
  - wp_step. eapply (wp_settle_failures cfg published (db w) failures []); [done|done|].
    intros w2 (Hdb & Hp & l & Hw & Hl). unfold commit, flush. wp_step. wp_step. wp_step. rewrite Hp. cbn [insert_all].
    unfold modify_session. wp_step. wp_step. exists l. cbn. by rewrite Hw.
Qed.

Definition sample_outbox_settings : OutboxSettings := mk_outbox_settings 10 3 2 60 168.
Definition sample_outbox_event (i : UUID) (attempts : Z) : OutboxEvent.t :=
  OutboxEvent.mk i (i + 1000) EventType.REQUEST_RECEIVED 1 "integration_request" "a" [] "corr" (utc 0)
    None None None attempts None None None.
Definition outbox_world : World :=
  mk_world (empty_tables <| t_outbox := [sample_outbox_event 1 0; sample_outbox_event 2 0;
                                         sample_outbox_event 3 2] |>) (open_session empty_tables) 0 0 0.

Lemma settle_batch_exact_witness :
  ∃ w' l, @settle_batch sample_env sample_outbox_settings [sample_outbox_event 1 0]
            [(sample_outbox_event 3 2, "broker down")] outbox_world = (Ret tt, w') ∧
    db w' = (db outbox_world) <| t_outbox := l |> ∧
    Forall2 (row_settled sample_outbox_settings [sample_outbox_event 1 0]
               [(sample_outbox_event 3 2, "broker down")]) (t_outbox (db outbox_world)) l.
Proof.
  apply (@settle_batch_exact sample_env sample_env_ok).
  by apply (bool_decide_unpack _).
Defined.

Definition first_claim : outcome exn (list OutboxEvent.t) * World :=
  @claim_batch sample_outbox_settings (utc 5) outbox_world.
Definition second_claim : outcome exn (list OutboxEvent.t) * World :=
  @claim_batch sample_outbox_settings (utc 6) first_claim.2.
Definition events_of (r : outcome exn (list OutboxEvent.t) * World) : list OutboxEvent.t :=
  match r.1 with Ret l => l | Raise _ => [] end.

Lemma claims_do_not_overlap_witness :
  length (events_of first_claim) = 3%nat ∧
  ∀ i, i ∈ (OutboxEvent.id <$> events_of first_claim) → i ∉ (OutboxEvent.id <$> events_of second_claim).
Proof.
  split; [vm_compute; reflexivity|].
  apply (claims_do_not_overlap sample_outbox_settings (utc 5) (utc 6) outbox_world first_claim.2
    first_claim.2 second_claim.2).
  - vm_compute. reflexivity.
  - reflexivity.
  - vm_compute. reflexivity.
  - vm_compute. reflexivity.
Defined.

Lemma publication_backoff_bounds_witness :
  (0 < retry_delay_seconds sample_outbox_settings 0)%Q ∧
  (retry_delay_seconds sample_outbox_settings 0 <= 300)%Q ∧
  (retry_delay_seconds sample_outbox_settings 0 <= retry_delay_seconds sample_outbox_settings 2)%Q.
Proof. apply publication_backoff_bounds; cbn; (lra || lia). Defined.
End OutboxTheorems.
