(* ===== verification/Workers.v ===== *)
(** The background workers ([workers/base.py], [workers/retry_worker.py],
    [workers/reconciliation_worker.py], [workers/webhook_processor.py]). Each
    [run_once] is a whole batch; the poll loop around it is [Worker]. The batch
    of the retry worker is gathered by the source; since a provider call may
    change the committed tables in any way the other handlers can, running the
    dispatches one after the other loses nothing. *)

From S2P Require Import Prelude PyData PyTime Enums Errors StateMachine ValueObjects Policies Entities RequestFacts.
From S2P Require Import Workflow Records Store Journal Ports Settlement Dispatcher Samples DispatcherFacts WebhookIngestion.
From S2P Require Import Reconciliation.

(** * The poll loop *)

(** [exn] are the subclasses of [Exception]; [asyncio.CancelledError] is not one. *)
Inductive BaseException :=
  | CancelledError
  | AnException (e : exn).
(** A batch that nobody cancels. *)
Definition uncancelled {A} (m : H A) : M BaseException World A := λ w,
  match m w with
  | (Ret a, w') => (Ret a, w')
  | (Raise e, w') => (Raise (AnException e), w')
  end.

Module Worker.
Definition BACKOFF_MULTIPLIER : Q := 4.
Definition MAX_ERROR_SLEEP_SECONDS : Q := 30.

(** [_run_batch]: the number of items handled, and [_consecutive_errors]. A
    cancellation is raised again. *)
Definition _run_batch (run_once : M BaseException World nat) (consecutive_errors : nat) :
    M BaseException World (nat * nat) :=
  try_except (let* processed := run_once in ret (processed, 0%nat))
             (λ e, match e with
                   | CancelledError => None
                   | AnException _ => Some (ret (0%nat, S consecutive_errors))
                   end).

(** The timeout [_pause] waits with; [delay or 0.001]. *)
Definition pause_seconds (poll_interval : Q) (consecutive_errors processed : nat) : Q :=
  let delay :=
    if (consecutive_errors =? 0)%nat then (if (0 <? processed)%nat then 0%Q else poll_interval)
    else Qminb (poll_interval * BACKOFF_MULTIPLIER * inject_Z (Z.of_nat consecutive_errors))%Q
           MAX_ERROR_SLEEP_SECONDS in
  if Qeq_bool delay 0 then 1 # 1000 else delay.

(** What the other tasks do to the loop. Instant [2 * n] is the check before batch
    [n] and [2 * n + 1] the check after it; [stop_called] is the first of these
    checks that finds [_stopping] set (it is never cleared), an odd one when [stop]
    is called during the batch and an even one when it is called during the pause,
    which it then cuts short. [pause_cancelled n]: the task is cancelled in the
    pause after batch [n]. *)
Record Surroundings := mk_surroundings {
  stop_called : option nat;
  pause_cancelled : nat → bool;
}.
Definition is_set (env : Surroundings) (instant : nat) : bool :=
  match stop_called env with Some t => (t <=? instant)%nat | None => false end.

(** A batch that was run: the items it handled ([None] when it failed), and the
    timeout of the pause after it, if the loop got to one. *)
Definition round : Type := option nat * option Q.
Definition outcome_of (processed errors : nat) : option nat := if (errors =? 0)%nat then Some processed else None.

(** [run], for at most [fuel] batches from batch [n] on: the batches, and whether
    the loop was left because [_stopping] was set. *)
Fixpoint run (env : Surroundings) (poll_interval : Q) (run_once : M BaseException World nat)
    (fuel n consecutive_errors : nat) : M BaseException World (list round * bool) :=
  match fuel with
  | O => ret ([], false)
  | S fuel' =>
      if is_set env (2 * n) then ret ([], true)
      else
        let* (processed, errors) := _run_batch run_once consecutive_errors in
        if is_set env (2 * n + 1) then ret ([(outcome_of processed errors, None)], true)
        else if pause_cancelled env n then raise CancelledError
        else
          let* (rounds, stopped) := run env poll_interval run_once fuel' (S n) errors in
          ret ((outcome_of processed errors, Some (pause_seconds poll_interval errors processed)) :: rounds, stopped)
  end.
End Worker.

(** * Retries *)

Definition RETRY_ACTOR : Actor := mk_actor ActorType.RETRY_WORKER None.

Module RetryWorker.
Section Batch.
Context `{Env} `{Platform}.
Context (retry_batch_size : nat).

(** The loop of [_claim]: the requests that were moved into [dispatching]. *)
Fixpoint claim_each (candidates : list IntegrationRequest.t) : H (list IntegrationRequest.t) :=
  match candidates with
  | [] => ret []
  | request :: candidates' =>
      if negb (bool_decide (IntegrationRequest.status request = RequestStatus.RETRY_SCHEDULED))
      then claim_each candidates'
      else
        let* request := claim_for_dispatch request RETRY_ACTOR None in
        let* claimed := claim_each candidates' in
        ret (request :: claimed)
  end.

Definition _claim : H (list IntegrationRequest.t) :=
  with_uow (
    let* t := now in
    let* candidates := Requests.claim_due_for_retry t retry_batch_size in
    let* claimed := claim_each candidates in
    commit ;;;
    ret claimed).

(** Every exception is logged and swallowed. *)
Definition _dispatch (request : IntegrationRequest.t) : H unit :=
  try_except (complete_attempt request RETRY_ACTOR None ;;; ret tt) (λ _, Some (ret tt)).

Definition run_once : H nat :=
  let* claimed := _claim in
  for_each claimed _dispatch ;;;
  ret (length claimed).
End Batch.
End RetryWorker.

(** * Reconciliation *)

Module ReconciliationWorker.
Section Batch.
Context `{Env} `{Platform}.
Context (stale_after_seconds manual_review_after_seconds : Z) (reconciliation_batch_size : nat).

Definition reconcile_one (request : IntegrationRequest.t) : H unit :=
  try_except (Reconciliation.reconcile manual_review_after_seconds request ;;; ret tt)
             (λ _, Some (ret tt)).

Definition run_once : H nat :=
  let* candidates := Reconciliation.find_candidates stale_after_seconds reconciliation_batch_size in
  for_each candidates reconcile_one ;;;
  ret (length candidates).
End Batch.
End ReconciliationWorker.

(** * Deferred webhooks *)

Module WebhookProcessor.
Section Batch.
Context `{Env} `{Platform}.
(** [str] of containers and floats, and the settings and hook of the use case. *)
Context (py_repr : json → string) (deferred_retry_seconds : Q)
  (on_request_updated : option (UUID → H unit)).
Context (webhook_deferred_batch_size : nat) (webhook_deferred_abandon_after_seconds : Z).

Definition DEFAULT_REASON : string :=
  "no matching integration request appeared within the retention window".

(** [round(x, 1)] *)
Definition round1 (x : Q) : Q := Qdiv (inject_Z (round_half_even (Qmult x 10))) 10.

Definition _abandon (receipt : WebhookReceipt.t) (correlation_id : string) (age_seconds : Q)
    (reason : string) : H unit :=
  let* t := now in
  let* (_, receipt) := on receipt (WebhookReceipt.mark_abandoned reason t) in
  with_uow (
    Webhooks.update receipt ;;;
    record_webhook_action (WebhookReceipt.id receipt) AuditAction.WEBHOOK_ABANDONED correlation_id
      [("provider", JStr (WebhookReceipt.provider receipt));
       ("provider_reference", jopt (WebhookReceipt.provider_reference receipt));
       ("attempts", JInt (WebhookReceipt.attempt_count receipt));
       ("age_seconds", JFloat (round1 age_seconds)); ("reason", JStr reason)] ;;;
    commit).

Definition _process (receipt : WebhookReceipt.t) : H unit :=
  let* correlation_id := match WebhookReceipt.correlation_id receipt with
                         | Some c => ret c
                         | None => let* u := new_id in lift (CorrelationId.generate u)
                         end in
  let* t := now in
  match dt_sub t (WebhookReceipt.received_at receipt) with
  | None => raise (ETypeError "can't subtract offset-naive and offset-aware datetimes")
  | Some age =>
      let age_seconds := total_seconds age in
      if Qltb (inject_Z webhook_deferred_abandon_after_seconds) age_seconds then
        _abandon receipt correlation_id age_seconds DEFAULT_REASON
      else
        match rehydrate_event py_repr receipt with
        | Raise ex =>
            if isinstance ex ErrorClass.ValidationError
            then _abandon receipt correlation_id age_seconds "the receipt cannot be reprocessed"
            else raise ex
        | Ret event =>
            try_except (IngestWebhook.process_receipt deferred_retry_seconds on_request_updated
                          receipt event ;;; ret tt)
              (λ ex, if isinstance ex ErrorClass.DomainError then Some (ret tt) else None)
        end
  end.

Definition run_once : H nat :=
  let* t := now in
  let* receipts := with_uow (
    let* receipts := Webhooks.claim_deferred t webhook_deferred_batch_size in
    commit ;;;
    ret receipts) in
  for_each receipts _process ;;;
  ret (length receipts).
End Batch.
End WebhookProcessor.

(** * Every batch is journaled *)

(** The rows a query over the requests selects. *)
Lemma selected_rows T f key limit :
  (∀ i r, t_requests T !! i = Some r → IntegrationRequest.id r = i) →
  let rows := take limit (order_by key (List.filter f (map_to_list (t_requests T)).*2)) in
  NoDup (IntegrationRequest.id <$> rows) ∧
  ∀ r, r ∈ rows → t_requests T !! IntegrationRequest.id r = Some r ∧ f r = true.
Proof.
  intros HT rows.
  assert (∀ i r, (i, r) ∈ map_to_list (t_requests T) →
    IntegrationRequest.id r = i ∧ t_requests T !! i = Some r) as Hids.
  { intros i r Hir%elem_of_map_to_list. split; [by apply HT|done]. }
  assert (∀ l : list (UUID * IntegrationRequest.t), (∀ i r, (i, r) ∈ l → IntegrationRequest.id r = i) →
    NoDup l.*1 → NoDup (IntegrationRequest.id <$> List.filter f l.*2)) as Hnd.
  { induction l as [|[i r] l IH]; intros Hl; cbn; [done|]. intros [Hi Hr]%NoDup_cons.
    assert (NoDup (IntegrationRequest.id <$> List.filter f l.*2)) as HIH.
    { apply IH; [|done]. intros j x Hx. apply Hl. by right. }
    destruct (f r); [|done]. cbn. apply NoDup_cons. split; [|done].
    rewrite (Hl i r) by left. contradict Hi. apply list_elem_of_fmap in Hi as (x & -> & Hx).
    apply list_elem_of_In, filter_In in Hx as [Hx%list_elem_of_In _].
    apply list_elem_of_fmap in Hx as ([j y] & -> & Hy). cbn in *.
    apply list_elem_of_fmap. exists (j, y). split; [|done]. cbn. apply Hl. by right. }
  split.
  - unfold rows. rewrite fmap_take. eapply sublist_NoDup; [|apply sublist_take].
    rewrite order_by_perm. apply Hnd.
    + intros i r Hir. by apply Hids.
    + apply NoDup_fst_map_to_list.
  - intros r Hr. unfold rows in Hr. apply elem_of_take in Hr as (k & Hr%list_elem_of_lookup_2 & _).
    rewrite order_by_perm in Hr. apply list_elem_of_In, filter_In in Hr as [Hr%list_elem_of_In Hf].
    apply list_elem_of_fmap in Hr as ([i x] & -> & Hx). cbn in *. apply Hids in Hx as [-> ?]. done.
Qed.

Section WorkerFacts.
Context `{Env} `{P : Platform} {HP : PlatformOk P}.

Lemma calm_for_each {A} (l : list A) body : (∀ x, calm (body x)) → calm (for_each l body).
Proof.
  intros Hb. induction l as [|x l IH]; [apply calm_ret|]. cbn. apply calm_bind; [apply Hb|done].
Qed.
Lemma calm_swallow {A} (m : H A) : calm m → calm (try_except (m ;;; ret tt) (λ _, Some (ret tt))).
Proof. intros Hm. apply calm_try; [calm_go|]. intros e k [= <-]. apply calm_ret. Qed.

(** Tracking rows reads nothing but the rows. *)
Lemma wp_track_all rows (Q : list IntegrationRequest.t → World → Prop) X w :
  (∀ w', same_tables w w' → drawn w' = drawn w → ticks w' = ticks w →
     (∀ i, loaded_versions (sess w') !! i =
        foldl (λ m r, <[IntegrationRequest.id r := IntegrationRequest.version r]> m)
          (loaded_versions (sess w)) rows !! i) →
     Q (request_to_domain <$> rows) w') →
  wp (Requests.track_all rows) Q X w.
Proof.
  revert Q w. induction rows as [|row rows IH]; intros Q w HQ; cbn; [by apply HQ|].
  unfold Requests.track, modify_session. wp_step. wp_step. wp_step. wp_step. wp_step.
  apply IH. intros w' (H1 & H2 & H3) Hd Ht Hl. wp_step. by apply HQ.
Qed.

(** Claiming one request leaves the rows of the others alone. *)
Lemma claim_frame r actor caus w :
  wp (claim_for_dispatch r actor caus)
     (λ _ w', ∀ i, i ≠ IntegrationRequest.id r →
        t_requests (working (sess w')) !! i = t_requests (working (sess w)) !! i) (λ _ _, True) w.
Proof.
  unfold claim_for_dispatch, now. wp_step. unfold wp at 1. wp_step. apply wp_on.
  unfold IntegrationRequest.begin_dispatch. wp_step. apply wp_transition; [|done]. intros _ _.
  wp_step. wp_step. wp_step. wp_step. unfold record_transition. wp_step.
  apply wp_update; [|done]. intros row w1 Hrow _ _ Hw1.
  wp_step. apply wp_new_id. intros ai w2 (_ & Hw2 & _). wp_step. wp_step.
  destruct (AuditEvent.for_request _ _ _ _ _ _ _ _ _ _); [|done].
  wp_step. apply wp_add_row. intros w3 _ Hw3 _. cbn [negb].
  wp_step. apply wp_new_id. intros oi w4 (_ & Hw4 & _). wp_step. apply wp_new_id.
  intros ei w5 (_ & Hw5 & _). wp_step. wp_step.
  destruct (OutboxEvent.fresh _ _ _ _ _ _ _ _ _ _ _); [|done].
  apply wp_add_row. intros w6 _ Hw6 _. wp_step.
  intros i Hi. rewrite Hw6, Hw5, Hw4, Hw3, Hw2, Hw1. cbn. by rewrite lookup_insert_ne.
Qed.

Lemma claim_each_journaling rs w :
  inside w → NoDup (IntegrationRequest.id <$> rs) → Forall (λ r, holds w r ∧ wf r) rs →
  wp (RetryWorker.claim_each rs) (λ _ w', inside w' ∧ db w' = db w) (λ _ w', db w' = db w) w.
Proof.
  revert w. induction rs as [|r rs IH]; intros w Hin Hnd Hrs; [done|]. cbn.
  apply NoDup_cons in Hnd as [Hr Hnd]. apply Forall_cons in Hrs as [[Hh Hwf] Hrs].
  destruct (negb _); [by apply IH|]. wp_step.
  eapply wp_conseq; [apply wp_and; [by apply claim_for_dispatch_tx|apply claim_frame]| |by intros e w' []].
  intros r' w' [(Hin' & Hh' & Hwf' & [Hid _] & Hdb) Hfr]. wp_step.
  eapply wp_conseq; [apply IH; [done|done|]| |].
  - eapply Forall_impl; [apply Forall_and; split; [exact Hrs|apply Forall_forall; intros x Hx; exact Hx]|].
    cbn. intros x [[(row & Hrow & Hs) Hx] Hin2]. split; [|done]. exists row. split; [|done].
    rewrite Hfr; [done|]. contradict Hr. rewrite <- Hr. by apply list_elem_of_fmap_2.
  - intros l w'' [? Hdb']. wp_step. by rewrite Hdb', Hdb.
  - intros e w'' ->. done.
Qed.

(** The rows of the session are stored under their own identifier. *)
Lemma inside_rows w i r :
  inside w → t_requests (working (sess w)) !! i = Some r → IntegrationRequest.id r = i ∧ wf r.
Proof.
  intros (_ & Hv & _) Hr%virtual_lookup. specialize (Hv i). rewrite Hr in Hv. by destruct Hv as (? & ? & _).
Qed.

Lemma retry_claim_calm n : calm (RetryWorker._claim n).
Proof.
  apply calm_uow. apply journaling_bind; [apply journaling_now|]. intros t w Hin.
  unfold Requests.claim_due_for_retry, reading. wp_step. wp_step. wp_step.
  destruct (selected_rows (working (sess w)) (Requests.due_for_retry t)
    (λ r, from_option instant 0 (IntegrationRequest.next_retry_at r)) n) as [Hnd Hrows].
  { intros i r Hr. by eapply inside_rows. }
  apply wp_track_all. intros w1 Hw1 _ _ _. wp_step.
  eapply wp_conseq; [apply claim_each_journaling|..].
  - by eapply same_tables_inside.
  - by rewrite <- list_fmap_compose.
  - apply Forall_fmap, Forall_forall. intros r Hr. apply Hrows in Hr as [Hr _]. cbn.
    destruct Hw1 as (_ & Hwork & _). split; [exists r; by rewrite Hwork|].
    apply wf_to_domain. by eapply inside_rows.
  - intros l w2 [Hin2 Hdb2]. assert (db w2 = db w) as Hdb by (rewrite Hdb2; apply Hw1).
    assert (journaling (commit ;;; ret l)) as Hj by uow_go.
    eapply wp_conseq; [by apply Hj|..]; unfold sound; by rewrite Hdb.
  - intros e w2 Hdb2. apply inside_sound; [done|]. rewrite Hdb2. apply Hw1.
Qed.

Lemma retry_worker_calm n : calm (RetryWorker.run_once n).
Proof.
  pose proof (retry_claim_calm n). unfold RetryWorker.run_once. calm_go.
  apply calm_for_each. intros r. apply calm_swallow, complete_attempt_calm.
Qed.

Lemma reconciliation_worker_calm stale review n : calm (ReconciliationWorker.run_once stale review n).
Proof.
  unfold ReconciliationWorker.run_once. calm_go. apply calm_for_each. intros r.
  apply calm_swallow, reconcile_calm.
Qed.

Lemma abandon_calm rc corr age reason : calm (WebhookProcessor._abandon rc corr age reason).
Proof.
  pose proof journaling_receipt_update. unfold WebhookProcessor._abandon. calm_go.
  apply calm_uow. uow_go.
Qed.

Lemma webhook_worker_calm repr delay hook n limit :
  calm_hook hook → calm (WebhookProcessor.run_once repr delay hook n limit).
Proof.
  intros Hh. pose proof abandon_calm. unfold WebhookProcessor.run_once. calm_go.
  - apply calm_uow. unfold Webhooks.claim_deferred. uow_go.
  - apply calm_for_each. intros rc. unfold WebhookProcessor._process. calm_go.
    apply calm_try; [calm_go|]. intros e k. destruct (isinstance _ _); [|done].
    intros [= <-]. apply calm_ret.
Qed.
End WorkerFacts.
#[export] Hint Resolve retry_worker_calm reconciliation_worker_calm webhook_worker_calm : calm_db.

(** * What a claim of the retry worker does *)

(** No row but [i] has the reference [ref] of provider [p]. *)
Lemma reference_taken_false T i p ref :
  reference_taken T i p ref = false ↔
  (∀ k r, t_requests T !! k = Some r → IntegrationRequest.id r ≠ i →
     IntegrationRequest.provider r = p → IntegrationRequest.provider_reference r = ref → ref = None).
Proof.
  unfold reference_taken, some_request. destruct ref as [s|]; [|by split].
  rewrite <- not_true_iff_false, existsb_exists. split.
  - intros Hn k r Hr Hi Hp Href. destruct Hn. exists (k, r).
    split; [by apply list_elem_of_In, elem_of_map_to_list|]. cbn.
    by rewrite bool_decide_false, !bool_decide_true.
  - intros Hall ([k r] & Hkr%list_elem_of_In%elem_of_map_to_list & Hb). cbn in Hb.
    rewrite !andb_true_iff, negb_true_iff, bool_decide_eq_false, !bool_decide_eq_true in Hb.
    destruct Hb as [[Hi Hp] Hr]. by specialize (Hall k r Hkr Hi Hp Hr).
Qed.

(** The row of a request that was claimed for its next attempt. *)
Definition claimed_row (row row' : IntegrationRequest.t) : Prop :=
  IntegrationRequest.id row' = IntegrationRequest.id row ∧
  IntegrationRequest.provider row' = IntegrationRequest.provider row ∧
  IntegrationRequest.provider_reference row' = IntegrationRequest.provider_reference row ∧
  IntegrationRequest.status row' = RequestStatus.DISPATCHING ∧
  IntegrationRequest.attempt_count row' = IntegrationRequest.attempt_count row + 1 ∧
  IntegrationRequest.next_retry_at row' = None.

(** The identifiers a new audit or outbox row takes. *)
Definition row_ids (n : new_row) : list UUID :=
  match n with
  | NewAudit a => [AuditEvent.id a]
  | NewOutbox o => [OutboxEvent.id o; OutboxEvent.event_id o]
  | _ => []
  end.
Definition log_row (n : new_row) : Prop :=
  match n with NewAudit _ | NewOutbox _ => True | _ => False end.
(** The identifiers already used by the logs of [T]. *)
Definition used_ids (T : tables) : list UUID :=
  (AuditEvent.id <$> t_audit T) ++ (OutboxEvent.id <$> t_outbox T) ++ (OutboxEvent.event_id <$> t_outbox T).

Lemma insert_log_rows T l :
  Forall log_row l → NoDup (mbind row_ids l) → (∀ i, i ∈ mbind row_ids l → i ∉ used_ids T) →
  ∃ T', insert_all T l = inr T' ∧ t_requests T' = t_requests T.
Proof.
  revert T. induction l as [|n l IH]; intros T Hl Hnd Hf; [by exists T|].
  apply Forall_cons in Hl as [Hn Hl]. cbn [mbind list_bind] in Hnd, Hf.
  apply NoDup_app in Hnd as (Hnd1 & Hdis & Hnd). cbn [insert_all].
  assert (violated T n = None) as ->.
  { destruct n as [| |a|o| | |]; try done; cbn [violated].
    - rewrite existsb_absent; [done|]. intros a' Ha'. apply bool_decide_false. intros Heq.
      apply (Hf (AuditEvent.id a)); [apply elem_of_app; left; left|].
      apply elem_of_app; left. rewrite <- Heq. by apply list_elem_of_fmap_2.
    - rewrite existsb_absent.
      + rewrite existsb_absent; [done|]. intros o' Ho'. apply bool_decide_false. intros Heq.
        apply (Hf (OutboxEvent.event_id o)); [apply elem_of_app; left; right; left|].
        rewrite <- Heq. do 2 (apply elem_of_app; right). by apply list_elem_of_fmap_2.
      + intros o' Ho'. apply bool_decide_false. intros Heq.
        apply (Hf (OutboxEvent.id o)); [apply elem_of_app; left; left|].
        rewrite <- Heq. apply elem_of_app; right. apply elem_of_app; left. by apply list_elem_of_fmap_2. }
  destruct (IH (insert_row T n)) as (T' & HT' & Hr); [done|done| |].
  - intros i Hi Hu. assert (i ∈ row_ids n ∨ i ∈ used_ids T) as [Hin|Hin].
    { unfold used_ids in *. destruct n as [| |a|o| | |]; try done; cbn in Hu |- *;
        rewrite ?fmap_app, !elem_of_app in Hu; rewrite !elem_of_app; set_solver. }
    + by apply (Hdis i).
    + apply (Hf i); [apply elem_of_app; by right|done].
  - exists T'. split; [done|]. rewrite Hr. by destruct n.
Qed.

Section Claiming.
Context `{Env} {HE : EnvOk _}.

(** The session has loaded [row], which waits for a retry. *)
Definition waiting (w : World) (row : IntegrationRequest.t) : Prop :=
  t_requests (working (sess w)) !! IntegrationRequest.id row = Some row ∧
  loaded_versions (sess w) !! IntegrationRequest.id row = Some (IntegrationRequest.version row) ∧
  IntegrationRequest.status row = RequestStatus.RETRY_SCHEDULED ∧
  free_reference (working (sess w)) row (IntegrationRequest.provider_reference row).

(** What claiming [rows] has added to the session. *)
Record claimed_batch (rows : list IntegrationRequest.t) (w w' : World) : Prop := {
  cb_db : db w' = db w;
  cb_drawn : (drawn w ≤ drawn w')%nat;
  cb_rows row : row ∈ rows → ∃ row', t_requests (working (sess w')) !! IntegrationRequest.id row = Some row' ∧
    claimed_row row row';
  cb_others i : i ∉ IntegrationRequest.id <$> rows →
    t_requests (working (sess w')) !! i = t_requests (working (sess w)) !! i;
  cb_logs : used_ids (working (sess w')) = used_ids (working (sess w));
  cb_pending : ∃ l, pending (sess w') = pending (sess w) ++ l ∧ Forall log_row l ∧
    mbind row_ids l = uuid_at <$> seq (drawn w) (drawn w' - drawn w);
}.

Lemma wp_claim_one row (Q : IntegrationRequest.t → World → Prop) X w :
  waiting w row →
  (∀ r' w', IntegrationRequest.id r' = IntegrationRequest.id row → claimed_batch [row] w w' →
     loaded_versions (sess w') = <[IntegrationRequest.id row := IntegrationRequest.version r']>
       (loaded_versions (sess w)) → Q r' w') →
  wp (claim_for_dispatch (request_to_domain row) RETRY_ACTOR None) Q X w.
Proof.
  intros (Hrow & Hver & Hs & Hfree) HQ. unfold claim_for_dispatch, now. wp_step. unfold wp at 1.
  wp_step. apply wp_on. unfold IntegrationRequest.begin_dispatch. wp_step.
  assert (IntegrationRequest.status (request_to_domain row) = RequestStatus.RETRY_SCHEDULED) as Hs' by exact Hs.
  apply wp_transition; [|intros [Haw|Htr]; [by rewrite clock_aware in Haw|by rewrite Hs' in Htr]].
  intros Haw _. wp_step. wp_step. wp_step. wp_step. set (r' := _ <| _ := None |>).
  eapply (wp_record_transition_exact r' row); [by split_and!|done|].
  intros a o w' Hdb Hrows Hw Hp Hd Hl. wp_step. cbn in Hdb, Hd.
  assert (claimed_row row (request_update_values r' row)) as Hc by done.
  apply HQ; [done| |done]. split; [done|lia|..].
  - intros x ->%list_elem_of_singleton. exists (request_update_values r' row). split; [|exact Hc].
    rewrite Hw. cbn. apply lookup_insert_eq.
  - intros i Hi. rewrite Hw. cbn. apply lookup_insert_ne. contradict Hi. rewrite <- Hi. left.
  - by rewrite Hw.
  - exists [NewAudit a; NewOutbox o]. split_and!; [done|by repeat constructor|].
    destruct Hrows as (Ha & _ & _ & _ & _ & Ho & He & _). cbn in Ha, Ho, He |- *.
    rewrite Hd, Ha, Ho, He. by replace (S (S (S (drawn w))) - drawn w)%nat with 3%nat by lia.
Qed.

Lemma waiting_frame row x w w' v :
  waiting w x → claimed_batch [row] w w' → IntegrationRequest.id x ≠ IntegrationRequest.id row →
  t_requests (working (sess w)) !! IntegrationRequest.id row = Some row →
  loaded_versions (sess w') = <[IntegrationRequest.id row := v]> (loaded_versions (sess w)) →
  waiting w' x.
Proof.
  intros (Hx & Hv & Hs & Hfree) Hc Hne Hrow Hl. unfold waiting, free_reference in *.
  assert (∀ i, i ≠ IntegrationRequest.id row →
    t_requests (working (sess w')) !! i = t_requests (working (sess w)) !! i) as Hoth.
  { intros i Hi. apply (cb_others _ _ _ Hc). cbn. by rewrite list_elem_of_singleton. }
  rewrite Hoth, Hl, lookup_insert_ne by done. split_and!; try done.
  rewrite reference_taken_false in Hfree |- *. intros k r Hr Hid Hp Href.
  destruct (decide (k = IntegrationRequest.id row)) as [-> |Hk].
  - destruct (cb_rows _ _ _ Hc row) as (row' & Hrow' & Hi' & Hp' & Hr' & _); [left|].
    rewrite Hrow' in Hr. injection Hr as <-. eapply Hfree; [exact Hrow|congruence..].
  - rewrite Hoth in Hr by done. by eapply Hfree.
Qed.

Lemma claimed_batch_cons row rows w w1 w2 :
  IntegrationRequest.id row ∉ IntegrationRequest.id <$> rows →
  claimed_batch [row] w w1 → claimed_batch rows w1 w2 → claimed_batch (row :: rows) w w2.
Proof.
  intros Hn [H1 H2 H3 H4 H5 (l1 & H6 & H7 & H8)] [K1 K2 K3 K4 K5 (l2 & K6 & K7 & K8)].
  split; [congruence|lia|..].
  - intros x [-> |Hx]%elem_of_cons; [|by apply K3]. rewrite K4 by done. apply H3. left.
  - intros i Hi. cbn in Hi. apply not_elem_of_cons in Hi as [Hi1 Hi2].
    rewrite K4 by done. apply H4. cbn. by rewrite list_elem_of_singleton.
  - congruence.
  - exists (l1 ++ l2). split_and!; [by rewrite K6, H6, app_assoc|by apply Forall_app|].
    rewrite bind_app, H8, K8, <- fmap_app. f_equal.
    replace (drawn w1) with (drawn w + (drawn w1 - drawn w))%nat at 2 by lia.
    rewrite <- seq_app. f_equal. lia.
Qed.

Lemma wp_claim_each rows w :
  NoDup (IntegrationRequest.id <$> rows) → Forall (waiting w) rows →
  wp (RetryWorker.claim_each (request_to_domain <$> rows))
     (λ l w', IntegrationRequest.id <$> l = IntegrationRequest.id <$> rows ∧ claimed_batch rows w w')
     (λ _ _, False) w.
Proof.
  revert w. induction rows as [|row rows IH]; intros w Hnd Hrows; cbn.
  - split; [done|]. split; try done; [by intros row ?%elem_of_nil|]. exists [].
    by rewrite app_nil_r, Nat.sub_diag.
  - apply NoDup_cons in Hnd as [Hn Hnd]. apply Forall_cons in Hrows as [Hrow Hrows].
    rewrite bool_decide_true by apply Hrow. cbn [negb]. wp_step.
    apply wp_claim_one; [done|]. intros r' w1 Hid Hc Hl. wp_step.
    eapply wp_conseq; [apply IH; [done|]| |done].
    + apply Forall_forall. intros x Hx. rewrite Forall_forall in Hrows.
      eapply waiting_frame; [by apply Hrows|done| |apply Hrow|done].
      intros Heq. apply Hn. rewrite <- Heq. by apply list_elem_of_fmap_2.
    + intros l w2 [Hids Hc2]. wp_step. split; [cbn; by rewrite Hid, Hids|].
      by eapply claimed_batch_cons.
Qed.
End Claiming.

Lemma tracked_versions rows (m : gmap UUID Z) row :
  NoDup (IntegrationRequest.id <$> rows) → row ∈ rows →
  foldl (λ m r, <[IntegrationRequest.id r := IntegrationRequest.version r]> m) m rows
    !! IntegrationRequest.id row = Some (IntegrationRequest.version row).
Proof.
  assert (∀ rows m i, i ∉ IntegrationRequest.id <$> rows →
    foldl (λ (m : gmap UUID Z) r, <[IntegrationRequest.id r := IntegrationRequest.version r]> m) m rows !! i
      = m !! i) as Hout.
  { clear. induction rows as [|r rows IH]; intros m i Hi; [done|]. cbn in Hi |- *.
    apply not_elem_of_cons in Hi as [Hi1 Hi2]. rewrite IH by done. by rewrite lookup_insert_ne. }
  revert m. induction rows as [|r rows IH]; intros m Hnd Hrow; [by apply elem_of_nil in Hrow|].
  cbn in Hnd |- *. apply NoDup_cons in Hnd as [Hn Hnd]. apply elem_of_cons in Hrow as [-> |Hrow].
  - rewrite Hout by done. apply lookup_insert_eq.
  - by apply IH.
Qed.

(** ** What the retry worker has to pick up *)

Lemma insert_by_sorted {A} (key : A → Z) (a : A) l :
  StronglySorted (λ x y, key x <= key y) l → StronglySorted (λ x y, key x <= key y) (insert_by key a l).
Proof.
  induction 1 as [|b l Hl IH Hb]; [by repeat constructor|]. cbn. destruct (Z.leb_spec (key a) (key b)).
  - constructor; [by constructor|]. constructor; [done|].
    eapply Forall_impl; [exact Hb|]. intros x Hx. cbn in Hx. lia.
  - constructor; [done|]. rewrite insert_by_perm. constructor; [lia|done].
Qed.

Lemma order_by_sorted {A} (key : A → Z) (l : list A) :
  StronglySorted (λ x y, key x <= key y) (order_by key l).
Proof. induction l as [|a l IH]; [constructor|]. by apply insert_by_sorted. Qed.

(** The first [n] of a sorted list leave out only what does not come before them. *)
Lemma take_sorted {A} (key : A → Z) n (l : list A) :
  StronglySorted (λ x y, key x <= key y) l →
  StronglySorted (λ x y, key x <= key y) (take n l) ∧
  ∀ x, x ∈ l → x ∈ take n l ∨ (length (take n l) = n ∧ ∀ y, y ∈ take n l → key y <= key x).
Proof.
  revert n. induction l as [|a l IH]; intros n Hl.
  { rewrite take_nil. split; [constructor|]. by intros x ?%elem_of_nil. }
  apply StronglySorted_inv in Hl as [Hl Ha]. destruct n as [|n]; cbn.
  { split; [constructor|]. intros x _. right. split; [done|]. by intros y ?%elem_of_nil. }
  destruct (IH n Hl) as [Hs Hx]. split.
  - constructor; [done|]. by apply Forall_take.
  - intros x [-> |Hin]%elem_of_cons; [left; left|].
    destruct (Hx x Hin) as [Ht|[Hn Ht]]; [left; by right|right]. split; [by rewrite Hn|].
    intros y [-> |Hy]%elem_of_cons; [|by apply Ht]. rewrite Forall_forall in Ha. by apply Ha.
Qed.

(** A stored request that waits for its retry, and when it asked for it. *)
Definition retry_time (r : IntegrationRequest.t) : Z := from_option instant 0 (IntegrationRequest.next_retry_at r).
Definition overdue (T : tables) (t : datetime) (r : IntegrationRequest.t) : Prop :=
  t_requests T !! IntegrationRequest.id r = Some r ∧
  IntegrationRequest.status r = RequestStatus.RETRY_SCHEDULED ∧
  ∃ at_, IntegrationRequest.next_retry_at r = Some at_ ∧ instant at_ <= instant t.

(** A batch of at most [limit] overdue requests, each once and the longest overdue
    first; one that is left out waits behind a full batch that is due no later. *)
Record oldest_overdue (T : tables) (t : datetime) (limit : nat) (due : list IntegrationRequest.t) : Prop := {
  od_overdue : ∀ r, r ∈ due → overdue T t r;
  od_once : NoDup (IntegrationRequest.id <$> due);
  od_limit : (length due <= limit)%nat;
  od_order : StronglySorted (λ x y, retry_time x <= retry_time y) due;
  od_rest : ∀ r, overdue T t r →
    r ∈ due ∨ (length due = limit ∧ ∀ d, d ∈ due → retry_time d <= retry_time r);
}.

Lemma due_for_retry_spec t r :
  Requests.due_for_retry t r = true ↔
  IntegrationRequest.status r = RequestStatus.RETRY_SCHEDULED ∧
  ∃ at_, IntegrationRequest.next_retry_at r = Some at_ ∧ instant at_ <= instant t.
Proof.
  unfold Requests.due_for_retry. rewrite andb_true_iff, bool_decide_eq_true.
  apply and_iff_compat_l. destruct (IntegrationRequest.next_retry_at r) as [d|].
  - rewrite Z.leb_le. split; [by eauto|]. by intros (? & [= ->] & ?).
  - split; [done|]. by intros (? & ? & _).
Qed.

(** What the query of the repository selects. *)
Lemma due_batch_oldest (T : tables) t limit :
  (∀ i r, t_requests T !! i = Some r → IntegrationRequest.id r = i) →
  oldest_overdue T t limit (take limit (order_by retry_time
    (List.filter (Requests.due_for_retry t) (map_to_list (t_requests T)).*2))).
Proof.
  intros HT. destruct (selected_rows T (Requests.due_for_retry t) retry_time limit HT) as [Hnd Hrows].
  destruct (take_sorted retry_time limit _
    (order_by_sorted retry_time (List.filter (Requests.due_for_retry t) (map_to_list (t_requests T)).*2)))
    as [Hs Hrest].
  split; [|done|rewrite length_take; lia|done|].
  - intros r [Hr Hdue]%Hrows. split; [done|by apply due_for_retry_spec].
  - intros r [Hr Hdue]. apply Hrest. rewrite order_by_perm. apply list_elem_of_In, filter_In.
    split; [|by apply due_for_retry_spec]. apply list_elem_of_In, list_elem_of_fmap.
    exists (IntegrationRequest.id r, r). by rewrite elem_of_map_to_list.
Qed.

(** * Theorems *)

Module WorkerTheorems.

(** C4. One poll of the retry worker claims a batch of at most [limit] requests that are
    in RETRY_SCHEDULED and whose time has come, longest overdue first; an overdue
    request is left out only when the batch is full and everything in it is due no
    later. Each of them moves to DISPATCHING with its attempt counted and its schedule
    cleared, in one transaction that always commits; no other request changes, and
    none of the claimed ones is overdue for any later poll, so no second worker
    claims it. (Rows another worker holds locked, which the query skips, are
    transactions that run before or after this one; the identifiers drawn are
    distinct and new, and a stored provider reference belongs to one request of its
    provider, as the unique key of the table enforces.) *)
Theorem retry_claims_due `{Env} {HE : EnvOk _} (limit : nat) (w : World) :
  Journaled (db w) → Inj (=) (=) uuid_at → fresh_ids w (db w) →
  (∀ i row, t_requests (db w) !! i = Some row →
     free_reference (db w) row (IntegrationRequest.provider_reference row)) →
  ∃ due claimed w', RetryWorker._claim limit w = (Ret claimed, w') ∧
    oldest_overdue (db w) (clock_at (ticks w)) limit due ∧
    IntegrationRequest.id <$> claimed = IntegrationRequest.id <$> due ∧
    (∀ row, row ∈ due → ∃ row', t_requests (db w') !! IntegrationRequest.id row = Some row' ∧
       claimed_row row row' ∧ ∀ t, ¬ overdue (db w') t row') ∧
    (∀ i, i ∉ IntegrationRequest.id <$> due → t_requests (db w') !! i = t_requests (db w) !! i).
Proof.
  intros HJ Hinj Hf Hfree.
  assert (∀ i r, t_requests (db w) !! i = Some r → IntegrationRequest.id r = i) as Hkeys.
  { intros i r Hr. specialize (HJ i). rewrite Hr in HJ. by destruct HJ. }
  pose proof (due_batch_oldest (db w) (clock_at (ticks w)) limit Hkeys) as Hdue.
  set (due := take limit _) in Hdue. destruct Hdue as [Hrows Hnd Hlimit Hsorted Hrest] eqn:HD. clear HD.
  exists due. apply wp_total. apply wp_with_uow. unfold now. wp_step. unfold wp at 1.
  unfold Requests.claim_due_for_retry, reading. wp_step. wp_step. wp_step. cbn [sess set working open_session].
  change (take limit _) with due. apply wp_track_all. intros w1 (Hdb1 & Hw1 & Hp1) Hd1 _ Hl1.
  cbn in Hdb1, Hw1, Hp1, Hd1. wp_step. eapply wp_conseq; [apply wp_claim_each; [done|]| |done].
  - apply Forall_forall. intros row Hrow. apply Hrows in Hrow as Hr. destruct Hr as (Hr & Hst & _).
    unfold waiting, free_reference. rewrite Hw1, Hl1.
    split_and!; [done|by apply tracked_versions|done|by eapply Hfree].
  - intros l w2 [Hids [Hdb2 Hd2 Hcl Hoth Hlog (new & Hp2 & Hlr & Hnew)]]. wp_step.
    unfold commit, flush. wp_step. wp_step. wp_step. rewrite Hp2, Hp1. cbn [app].
    destruct (insert_log_rows (working (sess w2)) new) as (T' & -> & HT').
    + done.
    + rewrite Hnew. apply NoDup_fmap_2; [done|apply NoDup_seq].
    + rewrite Hnew, Hlog, Hw1. intros i (n & -> & [Hn _]%elem_of_seq)%list_elem_of_fmap Hu.
      destruct (Hf n) as [Hfa Hfo]; [lia|]. unfold used_ids in Hu. rewrite !elem_of_app in Hu.
      destruct Hu as [(a & Ha & Hin)%list_elem_of_fmap|[(o & Ho & Hin)%list_elem_of_fmap|
                      (o & Ho & Hin)%list_elem_of_fmap]];
        [by apply (Hfa a)|by destruct (Hfo o Hin)..].
    + unfold modify_session. wp_step. wp_step. wp_step. cbn. rewrite HT'. split_and!; [done|done|..].
      * intros row Hrow. destruct (Hcl row Hrow) as (row' & Hr' & Hc). exists row'. split_and!; [done|done|].
        intros t (_ & Hs & _). destruct Hc as (_ & _ & _ & Hc & _). congruence.
      * intros i Hi. rewrite Hoth by done. by rewrite Hw1.
Qed.

(** A request that failed once and waits for its retry. *)
Definition waiting_calls : list call :=
  dispatching_calls ++ [CScheduleRetry IntegrationRequest.provider_reported_failure (utc 0) (utc 3)].

Lemma retry_claims_due_witness :
  let w := world_after waiting_calls in
  overdue (db w) (clock_at (ticks w)) (request_after waiting_calls) ∧
  ∃ due claimed w', @RetryWorker._claim sample_env 5 w = (Ret claimed, w') ∧
    oldest_overdue (db w) (clock_at (ticks w)) 5 due ∧
    IntegrationRequest.id <$> claimed = IntegrationRequest.id <$> due ∧
    (∀ row, row ∈ due → ∃ row', t_requests (db w') !! IntegrationRequest.id row = Some row' ∧
       claimed_row row row' ∧ ∀ t, ¬ overdue (db w') t row') ∧
    (∀ i, i ∉ IntegrationRequest.id <$> due → t_requests (db w') !! i = t_requests (db w) !! i).
Proof.
  intros w. split.
  { split; [vm_compute; reflexivity|]. split; [vm_compute; reflexivity|].
    eexists. split; [vm_compute; reflexivity|]. vm_compute. discriminate. }
  apply (@retry_claims_due sample_env sample_env_ok 5 w).
  - apply tables_after_journaled; [reflexivity|]. vm_compute. tauto.
  - intros m n. cbn. lia.
  - apply sample_fresh. vm_compute. lia.
  - intros i row Hrow. change (({[ 7%N := request_after waiting_calls ]} : gmap UUID _) !! i = Some row) in Hrow.
    apply lookup_singleton_Some in Hrow as [_ <-]. reflexivity.
Defined.

(** A deferred webhook is given up only on purpose and never lost. Once a
    stored receipt is older than the configured window, processing it marks it
    ABANDONED with the reason and clears its schedule, notes that in the audit
    trail, and changes no request, no outbox event and no other receipt; a
    receipt so marked is settled, so it is never picked up again. *)
Theorem deferred_webhook_ages_out `{Env} `{Platform} {HE : EnvOk _} (py_repr : json → string)
    (delay : Q) (hook : option (UUID → H unit)) (window : Z) (corr : string)
    (receipt : WebhookReceipt.t) (w : World) :
  t_receipts (db w) !! WebhookReceipt.id receipt = Some receipt → fresh_ids w (db w) →
  WebhookReceipt.correlation_id receipt = Some corr →
  is_aware (WebhookReceipt.received_at receipt) = true →
  (inject_Z window < total_seconds (instant (clock_at (ticks w)) -
     instant (WebhookReceipt.received_at receipt)))%Q →
  ∃ w' row' a,
    WebhookProcessor._process py_repr delay hook window receipt w = (Ret tt, w') ∧
    t_receipts (db w') = <[WebhookReceipt.id receipt := row']> (t_receipts (db w)) ∧
    kept_receipt receipt row' ∧
    WebhookReceipt.processing_status row' = WebhookProcessingStatus.ABANDONED ∧
    WebhookReceipt.is_settled row' = true ∧
    (∀ t, Webhooks.deferred_due t row' = false) ∧
    t_audit (db w') = t_audit (db w) ++ [a] ∧
    AuditEvent.action a = AuditAction.WEBHOOK_ABANDONED ∧
    t_requests (db w') = t_requests (db w) ∧ t_outbox (db w') = t_outbox (db w).
Proof.
  intros Hrow Hf Hcorr Haw Hage.
  assert (wp (WebhookProcessor._process py_repr delay hook window receipt)
    (λ _ w', ∃ row' a, t_receipts (db w') = <[WebhookReceipt.id receipt := row']> (t_receipts (db w)) ∧
      kept_receipt receipt row' ∧
      WebhookReceipt.processing_status row' = WebhookProcessingStatus.ABANDONED ∧
      WebhookReceipt.is_settled row' = true ∧ (∀ t, Webhooks.deferred_due t row' = false) ∧
      t_audit (db w') = t_audit (db w) ++ [a] ∧
      AuditEvent.action a = AuditAction.WEBHOOK_ABANDONED ∧
      t_requests (db w') = t_requests (db w) ∧ t_outbox (db w') = t_outbox (db w))
    (λ _ _, False) w) as ([] & w' & Hrun & row' & a & Hpost)%wp_total; [|by exists w', row', a].
  unfold WebhookProcessor._process, now. rewrite Hcorr. wp_step. wp_step. wp_step. unfold wp at 1.
  rewrite dt_sub_aware by (done || apply clock_aware).
  destruct (Qltb _ _) eqn:Hq; [|by apply Qltb_false, Qle_not_lt in Hq].
  unfold WebhookProcessor._abandon, now. wp_step. unfold wp at 1. wp_step. apply wp_on.
  unfold WebhookReceipt.mark_abandoned. wp_step. wp_step. wp_step. wp_step.
  rewrite require_aware_ok by apply clock_aware. wp_step. apply wp_with_uow.
  unfold Webhooks.update, modify_working, modify_session. wp_step. wp_step. wp_step.
  set (rc := receipt <| _ := _ |> <| _ := _ |> <| _ := _ |> <| _ := None |>).
  apply wp_webhook_action_total. intros a w1 Hdb Hw Hp Ha Hact _.
  eapply wp_commit_note; [exact Hp|..].
  - rewrite Hw, Ha. intros x Hx. by apply (Hf (drawn w)).
  - intros w' Hdb'. exists (receipt_update_values rc receipt), a. cbn. rewrite Hdb', Hw. cbn.
    split_and!; try done. apply map_eq. intros i.
    destruct (decide (i = WebhookReceipt.id receipt)) as [-> |Hi].
    + rewrite lookup_insert_eq. rewrite lookup_alter_eq, Hrow. done.
    + by rewrite lookup_insert_ne, lookup_alter_ne.
Qed.

(** A receipt that has been waiting for 100 seconds. *)
Definition old_receipt : WebhookReceipt.t :=
  WebhookTheorems.recorded_receipt <| WebhookReceipt.received_at := utc (-100000000) |>
    <| WebhookReceipt.processing_status := WebhookProcessingStatus.DEFERRED |>.
Definition old_world : World :=
  (world_after pending_calls) <| db ::= (λ T, T <| t_receipts := {[ 100%N := old_receipt ]} |>) |>.

Lemma deferred_webhook_ages_out_witness :
  ∃ w' row' a,
    @WebhookProcessor._process sample_env (λ _, "") 15 None 60 old_receipt old_world = (Ret tt, w') ∧
    t_receipts (db w') = <[100%N := row']> (t_receipts (db old_world)) ∧
    kept_receipt old_receipt row' ∧
    WebhookReceipt.processing_status row' = WebhookProcessingStatus.ABANDONED ∧
    WebhookReceipt.is_settled row' = true ∧
    (∀ t, Webhooks.deferred_due t row' = false) ∧
    t_audit (db w') = t_audit (db old_world) ++ [a] ∧
    AuditEvent.action a = AuditAction.WEBHOOK_ABANDONED ∧
    t_requests (db w') = t_requests (db old_world) ∧ t_outbox (db w') = t_outbox (db old_world).
Proof.
  apply (@deferred_webhook_ages_out sample_env (sample_platform accepted_result) sample_env_ok
    (λ _, "") 15 None 60 "corr" old_receipt old_world).
  - reflexivity.
  - apply fresh_below. vm_compute. reflexivity.
  - reflexivity.
  - reflexivity.
  - vm_compute. reflexivity.
Defined.

(** ** The poll loop *)

(** The number of failures a history of batches ends with, and the pause due after
    it. *)
Fixpoint leading_failures (l : list (option nat)) : nat :=
  match l with None :: l' => S (leading_failures l') | _ => 0 end.
Definition failures_in_a_row (history : list (option nat)) : nat := leading_failures (rev history).
Definition due_pause (poll : Q) (history : list (option nat)) : Q :=
  match failures_in_a_row history with
  | O => match last history with
         | Some (Some (S _)) => 1 # 1000
         | _ => poll
         end
  | n => Qminb (poll * 4 * inject_Z (Z.of_nat n)) 30
  end.
Lemma failures_snoc history o :
  failures_in_a_row (history ++ [o]) = match o with None => S (failures_in_a_row history) | Some _ => 0%nat end.
Proof. unfold failures_in_a_row. rewrite rev_app_distr. by destruct o. Qed.

Lemma pause_bounds poll history :
  (0 < poll)%Q → (0 < due_pause poll history)%Q ∧ (due_pause poll history <= Qmaxb poll 30)%Q.
Proof.
  intros Hpoll. unfold due_pause. destruct (Qmaxb_spec poll 30) as (Hm1 & Hm2 & _).
  destruct (failures_in_a_row history) as [|n].
  - destruct (last history) as [[[|]|]|]; split; try done; (reflexivity || lra).
  - assert (0 < inject_Z (Z.of_nat (S n)))%Q by (change 0%Q with (inject_Z 0); rewrite <- Zlt_Qlt; lia).
    assert (0 < poll * 4 * inject_Z (Z.of_nat (S n)))%Q by (apply Qmult_lt_0_compat; [lra|done]).
    destruct (Qminb_spec (poll * 4 * inject_Z (Z.of_nat (S n))) 30) as (Hn1 & Hn2 & Hn3).
    split; [|lra]. destruct Hn3 as [-> | ->]; [done|reflexivity].
Qed.
(** The timeout of a pause is the one due, given that the counter is right. *)
Lemma pause_due poll history processed errors : (0 < poll)%Q →
  failures_in_a_row (history ++ [Worker.outcome_of processed errors]) = errors →
  Worker.pause_seconds poll errors processed = due_pause poll (history ++ [Worker.outcome_of processed errors]).
Proof.
  intros Hpoll Herr. pose proof (pause_bounds poll (history ++ [Worker.outcome_of processed errors]) Hpoll) as [Hpos _].
  unfold due_pause in *. rewrite Herr, last_snoc in *. unfold Worker.pause_seconds, Worker.outcome_of in *.
  destruct errors as [|n]; cbn [Nat.eqb] in *.
  - destruct processed as [|k]; cbn [Nat.ltb Nat.leb]; [|done].
    destruct (Qeq_bool poll 0) eqn:Hq; [|done]. apply Qeq_bool_iff in Hq. rewrite Hq in Hpos. by apply Qlt_irrefl in Hpos.
  - destruct (Qeq_bool _ 0) eqn:Hq; [|done]. apply Qeq_bool_iff in Hq. unfold Worker.BACKOFF_MULTIPLIER, Worker.MAX_ERROR_SLEEP_SECONDS in Hq.
    rewrite Hq in Hpos. by apply Qlt_irrefl in Hpos.
Qed.

(** A batch that keeps the tables journaled, cancelled or not. *)
Definition calm_batch (batch : M BaseException World nat) : Prop :=
  ∀ w, Journaled (db w) → wp batch (λ _ w', sound w w') (λ _ w', sound w w') w.
Lemma uncancelled_calm (m : H nat) : calm m → calm_batch (uncancelled m).
Proof. intros Hm w HJ. specialize (Hm w HJ). unfold wp, uncancelled in *. destruct (m w) as [[] w']; apply Hm. Qed.

(** What became of the loop. *)
Record polled (env : Worker.Surroundings) (poll : Q) (past : list (option nat)) (fuel : nat)
    (rounds : list Worker.round) (stopped : bool) : Prop := {
  (** after each batch, the pause due *)
  polled_pauses k o q : rounds !! k = Some (o, Some q) → q = due_pause poll (past ++ take (S k) rounds.*1);
  (** no pause only after a batch during which [stop] was called *)
  polled_last k o : rounds !! k = Some (o, None) → Worker.stop_called env = Some (2 * (length past + k) + 1)%nat;
  (** how many batches, and whether the loop was left *)
  polled_batches : length rounds = match Worker.stop_called env with
                                   | Some t => Nat.min fuel ((t + 1) / 2 - length past)
                                   | None => fuel
                                   end;
  polled_stopped : stopped = match Worker.stop_called env with
                             | Some t => (t / 2 <? length past + fuel)%nat
                             | None => false
                             end;
}.

Section Polling.
Context (env : Worker.Surroundings) (poll : Q) (batch : M BaseException World nat).
Context (Hbatch : calm_batch batch) (Hpoll : (0 < poll)%Q).
Definition was_cancelled : Prop :=
  (∃ n, Worker.pause_cancelled env n = true) ∨ ∃ w w', batch w = (Raise CancelledError, w').

Lemma wp_run_batch errors (Q : nat * nat → World → Prop) (X : BaseException → World → Prop) w :
  Journaled (db w) →
  (∀ processed w', sound w w' → Q (processed, 0%nat) w') → (∀ w', sound w w' → Q (0%nat, S errors) w') →
  (∀ w', sound w w' → was_cancelled → X CancelledError w') →
  wp (Worker._run_batch batch errors) Q X w.
Proof.
  intros HJ HQ HE HX. specialize (Hbatch w HJ). unfold wp, Worker._run_batch, try_except, bind, ret in *.
  destruct (batch w) as [[p|[|e]] w'] eqn:Hb; [by apply HQ|apply HX; [done|right; eauto]|by apply HE].
Qed.

Ltac halves t :=
  pose proof (Nat.div_mod_eq (t + 1) 2); pose proof (Nat.mod_upper_bound (t + 1) 2 ltac:(lia));
  pose proof (Nat.div_mod_eq t 2); pose proof (Nat.mod_upper_bound t 2 ltac:(lia)).
Definition not_before (n : nat) : Prop := ∀ t, Worker.stop_called env = Some t → (n <= t)%nat.
Lemma polled_nothing past : not_before (2 * length past) → polled env poll past 0 [] false.
Proof.
  intros Hnb. split; try done; destruct (Worker.stop_called env) as [t|] eqn:Ht; try done.
  symmetry. apply Nat.ltb_ge. rewrite Nat.add_0_r. specialize (Hnb t Ht). halves t. lia.
Qed.
Lemma polled_set past fuel : Worker.is_set env (2 * length past) = true → polled env poll past (S fuel) [] true.
Proof.
  intros Hset. unfold Worker.is_set in Hset. split; try done; destruct (Worker.stop_called env) as [t|]; try done;
    apply Nat.leb_le in Hset; halves t.
  - cbn [length]. lia.
  - symmetry. apply Nat.ltb_lt. lia.
Qed.
Lemma polled_set_after past fuel o :
  Worker.is_set env (2 * length past) = false → Worker.is_set env (2 * length past + 1) = true →
  polled env poll past (S fuel) [(o, None)] true.
Proof.
  unfold Worker.is_set. intros H1 H2. split; destruct (Worker.stop_called env) as [t|]; try done;
    apply Nat.leb_gt in H1; apply Nat.leb_le in H2; halves t.
  - by intros [|k].
  - intros [|k] ?; [|done]. intros [= <-]. f_equal. lia.
  - cbn [length]. lia.
  - symmetry. apply Nat.ltb_lt. lia.
Qed.
Lemma polled_on past fuel o q rounds stopped :
  Worker.is_set env (2 * length past + 1) = false → q = due_pause poll (past ++ [o]) →
  polled env poll (past ++ [o]) fuel rounds stopped → polled env poll past (S fuel) ((o, Some q) :: rounds) stopped.
Proof.
  unfold Worker.is_set. intros Hset -> [Hp Hl Hb Hs]. rewrite length_app in *. cbn [length] in *. split.
  - intros [|k] o' q'; cbn; [by intros [= <- <-]|]. intros Hk. rewrite (Hp k o' q' Hk). by rewrite <- app_assoc.
  - intros [|k] o'; cbn; [done|]. intros Hk. rewrite (Hl k o' Hk). f_equal. lia.
  - cbn [length]. rewrite Hb. destruct (Worker.stop_called env) as [t|]; [|done]. apply Nat.leb_gt in Hset. halves t. lia.
  - rewrite Hs. destruct (Worker.stop_called env) as [t|]; [|done]. f_equal. lia.
Qed.

Lemma wp_poll fuel : ∀ past errors w,
  Journaled (db w) → failures_in_a_row past = errors → not_before (2 * length past) →
  wp (Worker.run env poll batch fuel (length past) errors)
     (λ o w', sound w w' ∧ polled env poll past fuel o.1 o.2)
     (λ e w', e = CancelledError ∧ sound w w' ∧ was_cancelled) w.
Proof.
  induction fuel as [|fuel IH]; intros past errors w HJ Herr Hnb.
  { cbn. split; [by apply sound_refl|by apply polled_nothing]. }
  cbn [Worker.run]. destruct (Worker.is_set env (2 * length past)) eqn:H1.
  { split; [by apply sound_refl|by apply polled_set]. }
  assert (∀ p e w1, sound w w1 → failures_in_a_row (past ++ [Worker.outcome_of p e]) = e →
    wp (if Worker.is_set env (2 * length past + 1) then ret ([(Worker.outcome_of p e, None)], true)
        else if Worker.pause_cancelled env (length past) then raise CancelledError
        else let* (rounds, stopped) := Worker.run env poll batch fuel (S (length past)) e in
             ret ((Worker.outcome_of p e, Some (Worker.pause_seconds poll e p)) :: rounds, stopped))
       (λ o w', sound w w' ∧ polled env poll past (S fuel) o.1 o.2)
       (λ e w', e = CancelledError ∧ sound w w' ∧ was_cancelled) w1) as Hrest.
  { intros p e w1 Hs He. destruct (Worker.is_set env (2 * length past + 1)) eqn:H2; [split; [done|by apply polled_set_after]|].
    destruct (Worker.pause_cancelled env (length past)) eqn:H3; [split_and!; [done|done|left; eauto]|].
    wp_step. replace (S (length past)) with (length (past ++ [Worker.outcome_of p e])) by (rewrite length_app; cbn; lia).
    eapply wp_conseq; [apply (IH (past ++ [Worker.outcome_of p e]) e w1); [apply Hs|done|]|..].
    - intros t Ht. unfold Worker.is_set in H2. rewrite Ht in H2. apply Nat.leb_gt in H2. rewrite length_app. cbn. lia.
    - intros [rounds stopped] w2 [Hs2 Hp]. wp_step. split; [by eapply sound_trans|].
      apply polled_on; [done|by apply pause_due|done].
    - intros e' w2 (-> & Hs2 & Hc). split_and!; [done|by eapply sound_trans|done]. }
  wp_step. apply wp_run_batch; [done|..].
  - intros p w1 Hs. apply Hrest; [done|]. by rewrite failures_snoc.
  - intros w1 Hs. apply Hrest; [done|]. rewrite failures_snoc. cbn. by rewrite Herr.
  - intros w1 Hs Hc. by split_and!.
Qed.
End Polling.


(** The retry worker, asked to stop during its third pause. *)
Definition busy_surroundings : Worker.Surroundings := Worker.mk_surroundings (Some 6%nat) (λ _, false).
Definition retry_loop (fuel : nat) :=
  Worker.run busy_surroundings 2 (uncancelled (@RetryWorker.run_once sample_env (sample_platform timeout_result) 5)) fuel 0 0
    (world_after waiting_calls).

(** Two failures, work, a failure: the backoff grows, is reset, and starts again. *)
Definition script (w : World) : option nat :=
  match rolls w with 0%nat | 1%nat => None | 2%nat => Some 5%nat | 3%nat => None | _ => Some 0%nat end.
Definition scripted : M BaseException World nat := λ w,
  (match script w with Some n => Ret n | None => Raise (AnException (EOther "boom")) end, w <| rolls ::= S |>).
Example backoff_is_reset :
  (Worker.run (Worker.mk_surroundings (Some 9%nat) (λ _, false)) 2 scripted 10 0 0 (world_after [])).1 =
    Ret ([(None, Some 8%Q); (None, Some 16%Q); (Some 5%nat, Some (1 # 1000)); (None, Some 8%Q); (Some 0%nat, None)], true).
Proof. vm_compute. reflexivity. Qed.
End WorkerTheorems.
