(* ===== verification/Queries.v ===== *)
(** The read side: cursor pagination ([application/dto/queries.py], the [list]
    method of [infrastructure/db/repositories.py]) and the use cases of
    [application/use_cases/queries.py].

    A client pages through a listing by sending back the cursor of the page
    before; between two fetches every other handler may run. *)

From S2P Require Import Prelude PyData PyTime PyText PyDates JsonText Sha256 Enums Errors ValueObjects.
From S2P Require Import Policies Entities RequestFacts Workflow Records Store Journal Ports Workers.

Definition DEFAULT_PAGE_SIZE : Z := 25.
Definition MAX_PAGE_SIZE : Z := 200.

(** * Cursors *)

Module Cursor.
Record t := mk {
  created_at : datetime;
  request_id : UUID;
}.

Definition encode (c : t) : string :=
  let raw := print (λ _, "") "" (JObj [("c", JStr (isoformat (created_at c)));
                                       ("i", JStr (uuid_str (request_id c)))]) in
  Base64.rstrip_pad (Base64.encode true (utf8 raw)).

Definition invalid_cursor : exn := error ErrorClass.ValidationError "the supplied cursor is not valid" no_kwargs.

(** [data[key]]: a value that is not a dict has no such item ([TypeError]). *)
Definition item (key : string) (data : json) : option json :=
  match data with JObj d => dict_get key d | _ => None end.

(** The exceptions named in the [except] clause become [invalid_cursor]. A value
    under ["i"] that is neither text nor null is not among them: [UUID] calls
    [.replace] on it. *)
Definition decode (v : string) : outcome exn t :=
  match Base64.decode true (v +:+ Base64.padding v) with
  | None => Raise invalid_cursor
  | Some bytes =>
      match Utf8.decode false bytes with
      | None => Raise invalid_cursor
      | Some codes =>
          match Utf8.text codes with
          | None => Raise (EOther "a character outside the model")
          | Some raw =>
              match loads_text raw with
              | inl Unmodelled => Raise (EOther "a character outside the model")
              | inl _ => Raise invalid_cursor
              | inr data =>
                  match item "c" data with
                  | Some (JStr text) =>
                      match Iso8601.fromisoformat text with
                      | None => Raise invalid_cursor
                      | Some created_at =>
                          match item "i" data with
                          | Some (JStr i) =>
                              match uuid_of i with
                              | Some u => Ret (mk created_at u)
                              | None => Raise invalid_cursor
                              end
                          | None | Some JNull => Raise invalid_cursor
                          | Some _ => Raise (EOther "AttributeError: no attribute 'replace'")
                          end
                      end
                  | _ => Raise invalid_cursor
                  end
              end
          end
      end
  end.
End Cursor.
#[global] Arguments Cursor.encode : simpl never.
#[global] Arguments Cursor.decode : simpl never.

Record Page (T : Type) := mk_page { items : list T; next_cursor : option string }.
Arguments mk_page {T} items next_cursor.
Arguments items {T}.
Arguments next_cursor {T}.
Definition has_more {T} (p : Page T) : bool := bool_decide (is_Some (next_cursor p)).

Module IntegrationRequestFilter.
Record t := mk {
  provider : option string;
  statuses : list RequestStatus.t;
  operation_type : option OperationType.t;
  external_reference : option string;
  created_after : option datetime;
  created_before : option datetime;
  limit : Z;
  cursor : option Cursor.t;
}.
#[export] Instance eta_filter : Eta t := λ c,
  mk (provider c) (statuses c) (operation_type c) (external_reference c) (created_after c)
    (created_before c) (limit c) (cursor c).

(** [__post_init__] *)
Definition make (c : t) : outcome exn t :=
  if negb ((1 <=? limit c) && (limit c <=? MAX_PAGE_SIZE))
  then Raise (invalid ("limit must be between 1 and " +:+ pretty MAX_PAGE_SIZE))
  else match created_after c, created_before c with
       | Some a, Some b =>
           match dt_le a b with
           | None => Raise (ETypeError "can't compare offset-naive and offset-aware datetimes")
           | Some true => Ret c
           | Some false => Raise (invalid "created_after must not be later than created_before")
           end
       | _, _ => Ret c
       end.

(** [_apply_request_filters] *)
Definition matches (c : t) (r : IntegrationRequest.t) : bool :=
  match provider c with Some p => bool_decide (IntegrationRequest.provider r = p) | None => true end &&
  match statuses c with [] => true | ss => bool_decide (IntegrationRequest.status r ∈ ss) end &&
  match operation_type c with Some o => bool_decide (IntegrationRequest.operation_type r = o) | None => true end &&
  match external_reference c with
  | Some x => bool_decide (IntegrationRequest.external_reference r = x)
  | None => true
  end &&
  match created_after c with Some d => instant d <=? instant (IntegrationRequest.created_at r) | None => true end &&
  match created_before c with Some d => instant (IntegrationRequest.created_at r) <=? instant d | None => true end.
End IntegrationRequestFilter.
Export (hints) IntegrationRequestFilter.

(** * The listing *)

(** A position in the ordering: creation time and identifier. *)
Definition position : Type := Z * N.
Definition pos (r : IntegrationRequest.t) : position :=
  (instant (IntegrationRequest.created_at r), IntegrationRequest.id r).
Definition cursor_pos (c : Cursor.t) : position := (instant (Cursor.created_at c), Cursor.request_id c).
(** [created_at < c.created_at OR (created_at = c.created_at AND id < c.id)] *)
Definition older (p q : position) : bool := (p.1 <? q.1) || ((p.1 =? q.1) && (p.2 <? q.2)%N).

(** [ORDER BY created_at DESC, id DESC] *)
Definition newest_first (r r' : IntegrationRequest.t) : Prop := older (pos r) (pos r') = false.
#[export] Instance newest_first_dec : RelDecision newest_first.
Proof. intros r r'. unfold newest_first. apply _. Defined.

Module RequestListing.
Definition candidates (T : tables) (c : IntegrationRequestFilter.t) : list IntegrationRequest.t :=
  merge_sort newest_first (List.filter (λ r,
    IntegrationRequestFilter.matches c r &&
    match IntegrationRequestFilter.cursor c with
    | Some cur => older (pos r) (cursor_pos cur)
    | None => true
    end) (map_to_list (t_requests T)).*2).

(** [SqlIntegrationRequestRepository.list] *)
Definition list_ (c : IntegrationRequestFilter.t) : H (Page IntegrationRequest.t) :=
  let limit := IntegrationRequestFilter.limit c in
  let* rows := reading (λ T, take (Z.to_nat (limit + 1)) (candidates T c)) in
  let has_more := limit <? Z.of_nat (length rows) in
  let page_rows := take (Z.to_nat limit) rows in
  let* items := Requests.track_all page_rows in
  let next_cursor := match has_more, last page_rows with
                     | true, Some row =>
                         Some (Cursor.encode (Cursor.mk (as_utc (IntegrationRequest.created_at row))
                                                        (IntegrationRequest.id row)))
                     | _, _ => None
                     end in
  ret (mk_page items next_cursor).
End RequestListing.

(** * The use cases *)

Definition AUDIT_HISTORY_LIMIT : nat := 500.

Definition request_missing (request_id : UUID) : exn :=
  error ErrorClass.NotFoundError ("integration request '" +:+ uuid_str request_id +:+ "' does not exist")
    (no_kwargs <| k_metadata := [("request_id", JStr (uuid_str request_id))] |>).

Module GetIntegrationRequestUseCase.
Definition execute (request_id : UUID) : H IntegrationRequest.t :=
  with_uow (
    let* request := Requests.get request_id in
    match request with
    | None => raise (request_missing request_id)
    | Some request => ret request
    end).
End GetIntegrationRequestUseCase.

Module ListIntegrationRequestsUseCase.
Definition execute (c : IntegrationRequestFilter.t) : H (Page IntegrationRequest.t) :=
  with_uow (RequestListing.list_ c).
End ListIntegrationRequestsUseCase.

Module GetAuditHistoryUseCase.
Definition execute (request_id : UUID) (limit : nat) : H (list AuditEvent.t) :=
  with_uow (
    let* request := Requests.get request_id in
    match request with
    | None => raise (request_missing request_id)
    | Some _ => Audit.list_for_aggregate "integration_request" (uuid_str request_id) limit
    end).
End GetAuditHistoryUseCase.

(** A client that fetches page after page, the databases it meets, and whether it
    saw the last page. *)
Fixpoint browse (c : IntegrationRequestFilter.t) (ws : list World) :
    outcome exn (list IntegrationRequest.t * bool) :=
  match ws with
  | [] => Ret ([], false)
  | w :: ws' =>
      match (ListIntegrationRequestsUseCase.execute c w).1 with
      | Raise e => Raise e
      | Ret page =>
          match next_cursor page with
          | None => Ret (items page, true)
          | Some text =>
              match Cursor.decode text with
              | Raise e => Raise e
              | Ret cur =>
                  match browse (c <| IntegrationRequestFilter.cursor := Some cur |>) ws' with
                  | Raise e => Raise e
                  | Ret (l, complete) => Ret (items page ++ l, complete)
                  end
              end
          end
      end
  end.

(** * Facts *)

Lemma cursor_decode_encode c :
  Iso.representable (Cursor.created_at c) → (Cursor.request_id c < 2 ^ 128)%N →
  Cursor.decode (Cursor.encode c) = Ret c.
Proof.
  intros Hd Hi. unfold Cursor.decode, Cursor.encode.
  rewrite Base64.decode_encode by apply utf8_bytes.
  rewrite Utf8.decode_utf8, Utf8.text_codes, loads_print; [|by left|reflexivity].
  unfold Cursor.item. dict_simpl. rewrite Iso8601.fromisoformat_text by done. dict_simpl.
  rewrite UuidFacts.uuid_of_str by done. by destruct c.
Qed.

(** The ordering. *)
Lemma older_spec p q : older p q = true ↔ p.1 < q.1 ∨ p.1 = q.1 ∧ (p.2 < q.2)%N.
Proof. unfold older. rewrite orb_true_iff, andb_true_iff, Z.ltb_lt, Z.eqb_eq, N.ltb_lt. done. Qed.
Lemma older_false p q : older p q = false ↔ q.1 < p.1 ∨ q.1 = p.1 ∧ (q.2 ≤ p.2)%N.
Proof.
  unfold older. rewrite orb_false_iff, andb_false_iff, Z.ltb_ge, Z.eqb_neq, N.ltb_ge. lia.
Qed.
#[export] Instance newest_first_total : Total newest_first.
Proof. intros r r'. unfold newest_first. rewrite !older_false. lia. Qed.
#[export] Instance newest_first_trans : Transitive newest_first.
Proof. intros r r' r''. unfold newest_first. rewrite !older_false. lia. Qed.
Lemma older_trans p q r : older p q = true → older q r = true → older p r = true.
Proof. rewrite !older_spec. lia. Qed.

(** Tables whose rows can be named by a cursor. *)
Definition listable (T : tables) : Prop :=
  ∀ i r, t_requests T !! i = Some r →
    IntegrationRequest.id r = i ∧ (i < 2 ^ 128)%N ∧ Iso.representable (as_utc (IntegrationRequest.created_at r)).

(** [r'] comes later in the listing than [r]. *)
Definition before (r r' : IntegrationRequest.t) : Prop := older (pos r') (pos r) = true.

Section Candidates.
Context (T : tables) (HT : listable T) (c : IntegrationRequestFilter.t).

Lemma elem_candidates r :
  r ∈ RequestListing.candidates T c ↔
  t_requests T !! IntegrationRequest.id r = Some r ∧ IntegrationRequestFilter.matches c r = true ∧
  ∀ cur, IntegrationRequestFilter.cursor c = Some cur → older (pos r) (cursor_pos cur) = true.
Proof.
  unfold RequestListing.candidates. rewrite merge_sort_Permutation, list_elem_of_In, filter_In, <- list_elem_of_In.
  rewrite list_elem_of_fmap, andb_true_iff. split.
  - intros [([i r'] & -> & Hr%elem_of_map_to_list) [Hm Hc]]. cbn in *.
    destruct (HT i r' Hr) as [-> _]. split; [done|]. split; [done|]. intros cur Hcur. by rewrite Hcur in Hc.
  - intros (Hr & Hm & Hc). split; [exists (IntegrationRequest.id r, r); split; [done|by apply elem_of_map_to_list]|].
    split; [done|]. destruct (IntegrationRequestFilter.cursor c); auto.
Qed.

Lemma candidates_ids : NoDup (IntegrationRequest.id <$> RequestListing.candidates T c).
Proof.
  unfold RequestListing.candidates. rewrite merge_sort_Permutation.
  assert (NoDup (IntegrationRequest.id <$> (map_to_list (t_requests T)).*2)) as Hnd.
  { assert (IntegrationRequest.id <$> (map_to_list (t_requests T)).*2 = (map_to_list (t_requests T)).*1) as ->.
    { rewrite <- list_fmap_compose. apply list_fmap_ext. intros k [i r] Hk.
      apply list_elem_of_lookup_2, elem_of_map_to_list in Hk. cbn. by destruct (HT i r Hk). }
    apply NoDup_fst_map_to_list. }
  revert Hnd. generalize (map_to_list (t_requests T)).*2. intros l. induction l as [|r l IH]; [done|].
  cbn. intros [Hr Hnd]%NoDup_cons. destruct (_ && _); [|by apply IH]. cbn. apply NoDup_cons. split; [|by apply IH].
  intros Hin. apply Hr. apply list_elem_of_fmap in Hin as (r' & -> & Hin). apply list_elem_of_fmap_2.
  rewrite list_elem_of_In in Hin |- *. by apply filter_In in Hin as [? _].
Qed.

Lemma candidates_sorted : StronglySorted before (RequestListing.candidates T c).
Proof.
  pose proof candidates_ids as Hnd. assert (StronglySorted newest_first (RequestListing.candidates T c)) as Hs
    by (apply StronglySorted_merge_sort; apply _).
  induction Hs as [|r l Hl IH Hr]; constructor.
  - apply IH. cbn in Hnd. by apply NoDup_cons in Hnd as [_ Hnd].
  - rewrite Forall_forall in Hr |- *. intros r' Hin. specialize (Hr r' Hin). unfold newest_first in Hr.
    cbn in Hnd. apply NoDup_cons in Hnd as [Hne _]. unfold before. apply older_spec. apply older_false in Hr.
    assert (IntegrationRequest.id r ≠ IntegrationRequest.id r') as Hid.
    { intros Heq. apply Hne. rewrite Heq. by apply list_elem_of_fmap_2. }
    unfold pos in *. cbn in *. lia.
Qed.
End Candidates.

Lemma pos_to_domain r : pos (request_to_domain r) = pos r.
Proof. unfold pos, request_to_domain. cbn. unfold as_utc. by rewrite instant_utc. Qed.

(** What one fetch returns. *)
Lemma fetch_page c w :
  let rows := RequestListing.candidates (db w) c in
  let n := Z.to_nat (IntegrationRequestFilter.limit c) in
  1 ≤ IntegrationRequestFilter.limit c →
  ∃ w', ListIntegrationRequestsUseCase.execute c w =
    (Ret (mk_page (request_to_domain <$> take n rows)
      (match drop n rows, last (take n rows) with
       | _ :: _, Some row => Some (Cursor.encode (Cursor.mk (as_utc (IntegrationRequest.created_at row)) (IntegrationRequest.id row)))
       | _, _ => None
       end)), w').
Proof.
  cbn zeta. intros Hlim. unfold ListIntegrationRequestsUseCase.execute.
  set (rows := RequestListing.candidates (db w) c). set (n := Z.to_nat _).
  enough (wp (with_uow (RequestListing.list_ c)) (λ p _, p = mk_page (request_to_domain <$> take n rows)
    (match drop n rows, last (take n rows) with
     | _ :: _, Some row => Some (Cursor.encode (Cursor.mk (as_utc (IntegrationRequest.created_at row)) (IntegrationRequest.id row)))
     | _, _ => None
     end)) (λ _ _, False) w) as Hwp.
  { apply wp_total in Hwp as (p & w' & Hrun & ->). by exists w'. }
  apply wp_with_uow. unfold RequestListing.list_. unfold reading. wp_step. wp_step. wp_step.
  apply wp_track_all. intros w' _ _ _ _. wp_step. cbn [working sess open_session].
  change (working (sess (w <| sess := open_session (db w) |>))) with (db w). fold rows.
  assert (Z.to_nat (IntegrationRequestFilter.limit c + 1) = S n) as -> by (unfold n; lia). fold n.
  rewrite take_take, Nat.min_l by lia. f_equal. rewrite length_take.
  destruct (drop n rows) as [|r l] eqn:Hd.
  - apply (f_equal length) in Hd. rewrite length_drop in Hd. cbn in Hd.
    rewrite (proj2 (Z.ltb_ge _ _)) by (unfold n in *; lia). done.
  - apply (f_equal length) in Hd. rewrite length_drop in Hd. cbn in Hd.
    rewrite (proj2 (Z.ltb_lt _ _)) by (unfold n in *; lia). done.
Qed.

Lemma before_asym : AntiSymm (=) before.
Proof. intros r r'. unfold before. rewrite !older_spec. lia. Qed.
Lemma before_trans r1 r2 r3 : before r1 r2 → before r2 r3 → before r1 r3.
Proof. unfold before. intros H1 H2. by eapply older_trans. Qed.

Lemma sorted_to_domain l : StronglySorted before l → StronglySorted before (request_to_domain <$> l).
Proof.
  induction 1 as [|r l Hl IH Hr]; [constructor|]. cbn. constructor; [done|].
  apply Forall_fmap. eapply Forall_impl; [exact Hr|]. intros r'. unfold before. cbn. by rewrite !pos_to_domain.
Qed.

(** A page in the middle: its last row, before everything that follows it. *)
Lemma page_split (rows : list IntegrationRequest.t) n :
  StronglySorted before rows → drop n rows ≠ [] → (0 < n)%nat →
  ∃ row, last (take n rows) = Some row ∧ row ∈ rows ∧
    (∀ r, r ∈ take n rows → r = row ∨ before r row) ∧ (∀ r, r ∈ drop n rows → before row r).
Proof.
  intros Hs Hd Hn. destruct (last (take n rows)) as [row|] eqn:Hl.
  - exists row. split; [done|]. apply last_Some in Hl as [P HP].
    assert (rows = (P ++ [row]) ++ drop n rows) as Hrows by (by rewrite <- HP, take_drop).
    rewrite Hrows in Hs. apply StronglySorted_app in Hs as (Hcross & HsP & _).
    apply StronglySorted_app in HsP as (HcP & _ & _). split; [rewrite Hrows; set_solver|]. split.
    + intros r Hr. rewrite HP, elem_of_app, list_elem_of_singleton in Hr. destruct Hr as [Hr|Hr]; [right|by left].
      apply HcP; [done|by left].
    + intros r Hr. apply Hcross; [set_solver|done].
  - apply last_None in Hl. destruct rows as [|r rows]; [by rewrite drop_nil in Hd|]. destruct n; [lia|done].
Qed.

(** The cursor of a page stands for its last row. *)
Lemma page_cursor T row : listable T → t_requests T !! IntegrationRequest.id row = Some row →
  let cur := Cursor.mk (as_utc (IntegrationRequest.created_at row)) (IntegrationRequest.id row) in
  Cursor.decode (Cursor.encode cur) = Ret cur ∧ cursor_pos cur = pos row.
Proof.
  intros HT Hrow. destruct (HT _ _ Hrow) as (_ & Hi & Hd). intros cur. split; [apply cursor_decode_encode; [exact Hd|exact Hi]|].
  unfold cur, cursor_pos, pos, as_utc. cbn. by rewrite instant_utc.
Qed.

Section Browsing.
Implicit Types c : IntegrationRequestFilter.t.

Lemma browse_spec ws : ∀ c, 1 ≤ IntegrationRequestFilter.limit c → Forall (λ w, listable (db w)) ws →
  ∃ l complete, browse c ws = Ret (l, complete) ∧ StronglySorted before l ∧
    (∀ r cur, r ∈ l → IntegrationRequestFilter.cursor c = Some cur → older (pos r) (cursor_pos cur) = true) ∧
    (∀ r, r ∈ l → ∃ w row, w ∈ ws ∧ t_requests (db w) !! IntegrationRequest.id r = Some row ∧ pos row = pos r) ∧
    (complete = true → ∀ p,
       (∀ w, w ∈ ws → ∃ r, t_requests (db w) !! IntegrationRequest.id r = Some r ∧ pos r = p ∧
                           IntegrationRequestFilter.matches c r = true) →
       (∀ cur, IntegrationRequestFilter.cursor c = Some cur → older p (cursor_pos cur) = true) →
       p ∈ pos <$> l).
Proof.
  induction ws as [|w ws IH]; intros c Hlim Hws; [exists [], false; split_and!; [done|constructor|set_solver|set_solver|done]|].
  apply Forall_cons in Hws as [Hw Hws]. cbn [browse]. destruct (fetch_page c w Hlim) as [w' ->]. cbn [fst next_cursor items].
  set (rows := RequestListing.candidates (db w) c). set (n := Z.to_nat (IntegrationRequestFilter.limit c)).
  pose proof (candidates_sorted (db w) Hw c) as Hsort. fold rows in Hsort.
  assert (∀ r, r ∈ rows → ∀ cur, IntegrationRequestFilter.cursor c = Some cur → older (pos r) (cursor_pos cur) = true) as Hold
    by (intros r Hr; by apply elem_candidates in Hr as (_ & _ & ?)).
  assert (∀ p, (∀ w0, w0 ∈ w :: ws → ∃ r, t_requests (db w0) !! IntegrationRequest.id r = Some r ∧ pos r = p ∧
      IntegrationRequestFilter.matches c r = true) →
    (∀ cur, IntegrationRequestFilter.cursor c = Some cur → older p (cursor_pos cur) = true) →
    ∃ r, r ∈ rows ∧ pos r = p) as Hthere.
  { intros p Hall Hcur. destruct (Hall w) as (r & Hr & <- & Hm); [by left|]. exists r. split; [|done].
    by apply elem_candidates. }
  assert (∀ r, r ∈ request_to_domain <$> rows → ∃ w0 row, w0 ∈ w :: ws ∧
    t_requests (db w0) !! IntegrationRequest.id r = Some row ∧ pos row = pos r) as Hfrom.
  { intros r (row & -> & Hrow)%list_elem_of_fmap. apply elem_candidates in Hrow as (Hrow & _); [|done].
    exists w, row. rewrite pos_to_domain. split; [by left|done]. }
  assert (∀ (l' : list IntegrationRequest.t) r, r ∈ request_to_domain <$> l' → ∃ r', r' ∈ l' ∧ pos r = pos r') as Hdom.
  { intros l' r (r' & -> & Hr')%list_elem_of_fmap. exists r'. by rewrite pos_to_domain. }
  destruct (drop n rows) as [|r0 rest] eqn:Hd.
  - assert (take n rows = rows) as Htake by (rewrite <- (app_nil_r (take n rows)), <- Hd; apply take_drop).
    rewrite Htake. exists (request_to_domain <$> rows), true. split_and!; [done|by apply sorted_to_domain| |done|].
    + intros r cur (r' & Hr' & ->)%Hdom. by apply Hold.
    + intros _ p Hall Hcur. destruct (Hthere p Hall Hcur) as (r & Hr & <-). rewrite <- pos_to_domain.
      by do 2 apply list_elem_of_fmap_2.
  - destruct (page_split rows n Hsort) as (row & -> & Hrow & Hfirst & Hafter); [by rewrite Hd|unfold n; lia|].
    apply elem_candidates in Hrow as Hrow'; [|done]. destruct Hrow' as (Hin & _ & _).
    destruct (page_cursor (db w) row Hw Hin) as [-> Hpos]. cbv iota.
    set (cur := Cursor.mk _ _) in *. set (c' := c <| IntegrationRequestFilter.cursor := Some cur |>).
    destruct (IH c' Hlim Hws) as (l & complete & -> & Hl & Hlold & Hlfrom & Hlall).
    exists ((request_to_domain <$> take n rows) ++ l), complete. rewrite <- (take_drop n rows) in Hsort.
    apply StronglySorted_app in Hsort as (_ & HsP & _). split_and!; [done| | | |].
    + apply StronglySorted_app. split_and!; [|by apply sorted_to_domain|done].
      intros r r' (x & Hx & Hxr)%Hdom Hr'. specialize (Hlold r' cur Hr' eq_refl). rewrite Hpos in Hlold.
      unfold before. rewrite Hxr. apply Hfirst in Hx as [->|Hx]; [done|]. by eapply older_trans.
    + intros r cur' [(x & Hx & ->)%Hdom|Hr]%elem_of_app Hcur'.
      * apply Hold; [|done]. rewrite <- (take_drop n rows). apply elem_of_app. by left.
      * specialize (Hlold r cur Hr eq_refl). rewrite Hpos in Hlold. eapply older_trans; [exact Hlold|]. by apply Hold.
    + intros r [Hr|Hr]%elem_of_app.
      * apply Hfrom. rewrite <- (take_drop n rows), fmap_app. apply elem_of_app. by left.
      * destruct (Hlfrom r Hr) as (w0 & row0 & Hw0 & Hrow0). exists w0, row0. split; [by right|done].
    + intros Hc p Hall Hcur. destruct (Hthere p Hall Hcur) as (r & Hr & Hp). rewrite fmap_app, elem_of_app.
      rewrite <- (take_drop n rows), elem_of_app in Hr. destruct Hr as [Hr|Hr].
      * left. subst p. rewrite <- pos_to_domain. by do 2 apply list_elem_of_fmap_2.
      * right. apply Hlall; [done|intros w0 Hw0; apply Hall; by right|].
        intros ? [= <-]. rewrite Hpos, <- Hp. by apply Hafter.
Qed.
End Browsing.

(** The candidates after a page are the candidates of its cursor. *)
Lemma candidates_after T c n row cur :
  listable T → (0 < n)%nat → drop n (RequestListing.candidates T c) ≠ [] →
  last (take n (RequestListing.candidates T c)) = Some row → cursor_pos cur = pos row →
  RequestListing.candidates T (c <| IntegrationRequestFilter.cursor := Some cur |>) =
  drop n (RequestListing.candidates T c).
Proof.
  intros HT Hn Hd Hlast Hcur. pose proof (candidates_sorted T HT c) as Hs.
  destruct (page_split _ n Hs Hd Hn) as (row' & Hlast' & Hrow & Hfirst & Hafter).
  assert (row' = row) as -> by congruence.
  set (c' := c <| IntegrationRequestFilter.cursor := Some cur |>).
  pose proof (candidates_sorted T HT c') as Hs'. pose proof (candidates_ids T HT c) as Hnd.
  pose proof (candidates_ids T HT c') as Hnd'. apply NoDup_fmap_1 in Hnd, Hnd'.
  pose proof Hs as Hs2. rewrite <- (take_drop n (RequestListing.candidates T c)) in Hs2, Hnd.
  apply StronglySorted_app in Hs2 as (_ & _ & Hs2). apply NoDup_app in Hnd as (_ & _ & Hnd).
  apply (StronglySorted_unique before (AntiSymm0 := before_asym)); [done|done|].
  apply NoDup_Permutation; [done|done|]. intros r. rewrite elem_candidates by done. split.
  - intros (Hr & Hm & Hold). specialize (Hold cur eq_refl). rewrite Hcur in Hold.
    assert (r ∈ RequestListing.candidates T c) as Hin.
    { apply elem_candidates; [done|]. split_and!; [done|done|]. intros cur0 Hc0.
      apply elem_candidates in Hrow as (_ & _ & Hrow); [|done]. eapply older_trans; [exact Hold|by apply Hrow]. }
    rewrite <- (take_drop n (RequestListing.candidates T c)), elem_of_app in Hin. destruct Hin as [Hin|Hin]; [|done].
    exfalso. apply Hfirst in Hin as [->|Hin]; [apply older_spec in Hold; lia|].
    apply older_spec in Hin, Hold. lia.
  - intros Hin. assert (r ∈ RequestListing.candidates T c) as Hin'.
    { rewrite <- (take_drop n (RequestListing.candidates T c)), elem_of_app. by right. }
    apply elem_candidates in Hin' as (Hr & Hm & _); [|done]. split_and!; [done|done|].
    intros ? [= <-]. rewrite Hcur. by apply Hafter.
Qed.

(** Rows keep their place while the tables grow, so no request is listed twice. *)
Definition same_pos (ws : list World) : Prop :=
  ∀ w w' i r r', w ∈ ws → w' ∈ ws → t_requests (db w) !! i = Some r → t_requests (db w') !! i = Some r' →
    pos r = pos r'.
Lemma grows_same_pos ws : StronglySorted (λ w w', grows (db w) (db w')) ws → same_pos ws.
Proof.
  assert (∀ w w' i r r', grows (db w) (db w') → t_requests (db w) !! i = Some r →
    t_requests (db w') !! i = Some r' → pos r = pos r') as Hone.
  { intros w w' i r r' Hg Hr Hr'. destruct (grows_requests _ _ Hg i r Hr) as (r'' & Hr'' & H1 & _ & _ & _ & _ & H6 & _).
    unfold pos. assert (r'' = r') as <- by congruence. by rewrite H1, H6. }
  induction 1 as [|w ws Hs IH Hw]; [by intros ? ? ? ? ? ?%elem_of_nil|]. rewrite Forall_forall in Hw.
  intros w1 w2 i r r' [->|H1]%elem_of_cons [->|H2]%elem_of_cons Hr Hr'; [congruence| | |exact (IH w1 w2 i r r' H1 H2 Hr Hr')].
  - by eapply Hone; [apply Hw, H2|..].
  - symmetry. by eapply Hone; [apply Hw, H1|..].
Qed.
Lemma listed_once ws l : same_pos ws → StronglySorted before l →
  (∀ r, r ∈ l → ∃ w row, w ∈ ws ∧ t_requests (db w) !! IntegrationRequest.id r = Some row ∧ pos row = pos r) →
  NoDup (IntegrationRequest.id <$> l).
Proof.
  intros Hpos. induction 1 as [|r l Hl IH Hr]; intros Hfrom; [constructor|]. cbn. apply NoDup_cons. split.
  - intros (r' & Hid & Hr')%list_elem_of_fmap. rewrite Forall_forall in Hr. specialize (Hr r' Hr').
    destruct (Hfrom r) as (w & row & Hw & Hrow & Hp); [by left|].
    destruct (Hfrom r') as (w' & row' & Hw' & Hrow' & Hp'); [by right|]. rewrite <- Hid in Hrow'.
    assert (pos r = pos r') as Heq by (rewrite <- Hp, <- Hp'; exact (Hpos w w' _ row row' Hw Hw' Hrow Hrow')).
    unfold before in Hr. rewrite Heq in Hr. apply older_spec in Hr. lia.
  - apply IH. intros r' Hr'. apply Hfrom. by right.
Qed.

(** Three requests, two of them created at the same time, and a fourth that
    arrives while a client pages through them. *)
Definition sample_row (i : N) (t : Z) : N * IntegrationRequest.t :=
  (i, sample_request <| IntegrationRequest.id := i |> <| IntegrationRequest.created_at := utc t |>).
Definition sample_rows (l : list (N * IntegrationRequest.t)) : tables :=
  empty_tables <| t_requests := list_to_map l |>.
Definition sample_listing : tables := sample_rows [sample_row 1 50; sample_row 2 60; sample_row 3 50].
Definition sample_listing' : tables := sample_rows [sample_row 4 70; sample_row 1 50; sample_row 2 60; sample_row 3 50].
Definition sample_filter : IntegrationRequestFilter.t :=
  IntegrationRequestFilter.mk (Some "cobalt") [] None None None None 2 None.
Definition listing_world (T : tables) : World := mk_world T (open_session empty_tables) 0 0 0.

Lemma sample_rows_listable l :
  Forall (λ kr : N * IntegrationRequest.t, IntegrationRequest.id kr.2 = kr.1 ∧ (kr.1 < 2 ^ 128)%N ∧
            Iso.representable (as_utc (IntegrationRequest.created_at kr.2))) l →
  listable (sample_rows l).
Proof.
  intros Hl i r Hr. apply elem_of_list_to_map_2 in Hr. rewrite Forall_forall in Hl. exact (Hl _ Hr).
Qed.
Ltac sample_rows_ok :=
  apply sample_rows_listable;
  repeat (apply Forall_cons; split; [split; [done|split; [by apply N.ltb_lt|split; (split; [by apply Z.leb_le || by apply Z.ltb_lt|by apply Z.ltb_lt])]]|]);
  apply Forall_nil_2.
Lemma sample_listings_ok : listable sample_listing ∧ listable sample_listing'.
Proof. split; sample_rows_ok. Qed.
Lemma sample_listing_grows : grows sample_listing sample_listing'.
Proof.
  split; try done; cbn -[sample_row]; try (intros ? ?; rewrite lookup_empty; done).
  intros i r Hr. exists r. split; [|apply kept_refl]. rewrite lookup_insert_ne; [done|].
  intros <-. by vm_compute in Hr.
Qed.

Module QueryTheorems.

(** A cursor survives the round trip through its text: decoding what
    [encode] wrote gives back the same creation time (with its zone) and the same
    identifier, for every representable time and every 128-bit identifier. *)
Theorem cursor_roundtrip (c : Cursor.t) :
  Iso.representable (Cursor.created_at c) → (Cursor.request_id c < 2 ^ 128)%N →
  Cursor.decode (Cursor.encode c) = Ret c.
Proof. apply cursor_decode_encode. Qed.

Lemma cursor_roundtrip_witness :
  let c := Cursor.mk (mk_datetime 63844823106000042 (Some (-19800))) 42 in
  Cursor.decode (Cursor.encode c) = Ret c.
Proof.
  cbv zeta. apply cursor_roundtrip; [split; [split; [by apply Z.leb_le|by apply Z.ltb_lt]|]; split; by apply Z.ltb_lt|].
  by apply N.ltb_lt.
Defined.

(** C30. Paging is the listing: when nobody writes, following the cursors page by
    page yields exactly the rows that match the filter, newest first, each once
    and in one order, and reaches the last page after at most one fetch per row
    and one more, whatever the page size. *)
Theorem paging_is_the_listing (c : IntegrationRequestFilter.t) (T : tables) (ws : list World) :
  1 ≤ IntegrationRequestFilter.limit c → listable T → Forall (λ w, db w = T) ws →
  (length (RequestListing.candidates T c) < length ws)%nat →
  browse c ws = Ret (request_to_domain <$> RequestListing.candidates T c, true).
Proof.
  intros Hlim HT. revert c Hlim. induction ws as [|w ws IH]; intros c Hlim Hws Hlen; [cbn in Hlen; lia|].
  apply Forall_cons in Hws as [<- Hws]. cbn [browse]. destruct (fetch_page c w Hlim) as [w' ->]. cbn [fst next_cursor items].
  set (rows := RequestListing.candidates (db w) c) in *. set (n := Z.to_nat (IntegrationRequestFilter.limit c)).
  pose proof (candidates_sorted (db w) HT c) as Hsort. fold rows in Hsort.
  destruct (drop n rows) as [|r0 rest] eqn:Hd.
  - do 3 f_equal. rewrite <- (app_nil_r (take n rows)), <- Hd. apply take_drop.
  - destruct (page_split rows n Hsort) as (row & Hlast & Hrow & _ & _); [by rewrite Hd|unfold n; lia|].
    rewrite Hlast. apply elem_candidates in Hrow as (Hin & _ & _); [|done].
    destruct (page_cursor (db w) row HT Hin) as [-> Hpos]. cbv iota. set (cur := Cursor.mk _ _) in *.
    assert (RequestListing.candidates (db w) (c <| IntegrationRequestFilter.cursor := Some cur |>) = drop n rows) as Hnext
      by (eapply candidates_after; [done| |by fold rows; rewrite Hd|done|done]; unfold n; lia).
    rewrite IH; rewrite ?Hnext; [|done|done|].
    + do 2 f_equal. rewrite <- fmap_app. f_equal. apply take_drop.
    + rewrite length_drop. cbn [length] in Hlen. destruct rows; [by rewrite drop_nil in Hd|]. cbn in *. unfold n. lia.
Qed.

(** Paging is stable while the system runs. Whatever handlers run between the
    fetches (each leaves the tables grown), a client that filters on columns
    other than the status and reaches the last page has seen every request that
    matched at its first fetch, no request twice, in one strict order. *)
Theorem paging_stable (c : IntegrationRequestFilter.t) (w : World) (ws : list World) :
  1 ≤ IntegrationRequestFilter.limit c → IntegrationRequestFilter.statuses c = [] →
  IntegrationRequestFilter.cursor c = None → Forall (λ w, listable (db w)) (w :: ws) →
  StronglySorted (λ w w', grows (db w) (db w')) (w :: ws) →
  ∃ l complete, browse c (w :: ws) = Ret (l, complete) ∧
    StronglySorted before l ∧ NoDup (IntegrationRequest.id <$> l) ∧
    (complete = true → ∀ i r, t_requests (db w) !! i = Some r → IntegrationRequestFilter.matches c r = true →
       i ∈ IntegrationRequest.id <$> l).
Proof.
  intros Hlim Hst Hnone Hok Hgrow.
  destruct (browse_spec (w :: ws) c Hlim Hok) as (l & complete & Hrun & Hsorted & _ & Hfrom & Hall).
  exists l, complete. split_and!; [done|done| |].
  - apply (listed_once (w :: ws)); [by apply grows_same_pos|done|done].
  - intros Hc i r Hr Hm. specialize (Hall Hc (pos r)).
    assert (pos r ∈ pos <$> l) as (r' & Hp & Hr')%list_elem_of_fmap.
    { apply Hall; [|by rewrite Hnone]. intros w' Hw'. apply Forall_cons in Hok as [Hlw _].
      destruct (Hlw i r Hr) as [Hi _].
      assert (grows (db w) (db w')) as Hg.
      { apply elem_of_cons in Hw' as [->|Hw']; [done|]. inversion Hgrow as [|? ? _ Hf]; subst.
        rewrite Forall_forall in Hf. by apply Hf. }
      destruct (grows_requests _ _ Hg i r Hr) as (r' & Hr' & H1 & H2 & H3 & H4 & H5 & H6 & _). exists r'.
      rewrite H1, Hi. split; [done|]. unfold pos. rewrite H1, H6. split; [done|].
      revert Hm. unfold IntegrationRequestFilter.matches. rewrite Hst, H2, H3, H4, H6. done. }
    apply Forall_cons in Hok as [Hlw _]. destruct (Hlw i r Hr) as [<- _].
    apply list_elem_of_fmap. exists r'. split; [|done]. unfold pos in Hp. congruence.
Qed.

Lemma paging_is_the_listing_witness :
  browse sample_filter (replicate 4 (listing_world sample_listing)) =
    Ret (request_to_domain <$> RequestListing.candidates sample_listing sample_filter, true) ∧
  (IntegrationRequest.id <$> RequestListing.candidates sample_listing sample_filter) = [2; 3; 1]%N.
Proof.
  split; [|vm_compute; reflexivity]. apply paging_is_the_listing.
  - done.
  - apply sample_listings_ok.
  - repeat constructor.
  - vm_compute. repeat constructor.
Defined.

Lemma paging_stable_witness :
  ∃ l complete, browse sample_filter (map listing_world [sample_listing; sample_listing'; sample_listing']) = Ret (l, complete) ∧
    StronglySorted before l ∧ NoDup (IntegrationRequest.id <$> l) ∧
    (complete = true → ∀ i r, t_requests sample_listing !! i = Some r →
       IntegrationRequestFilter.matches sample_filter r = true → i ∈ IntegrationRequest.id <$> l).
Proof.
  apply (paging_stable sample_filter (listing_world sample_listing)); [done|done|done|..].
  - repeat (apply Forall_cons; split); try apply sample_listings_ok. constructor.
  - assert (Forall (λ w', grows sample_listing (db w')) (map listing_world [sample_listing'; sample_listing'])) as Hf
      by (do 2 (apply Forall_cons; split; [exact sample_listing_grows|]); constructor).
    assert (StronglySorted (λ w w', grows (db w) (db w')) (map listing_world [sample_listing'; sample_listing'])) as Hs.
    { apply SSorted_cons; [apply SSorted_cons; constructor|]. apply Forall_cons. split; [reflexivity|constructor]. }
    exact (SSorted_cons (listing_world sample_listing) Hs Hf).
Defined.
End QueryTheorems.

(** A cursor whose identifier is a number is not reported as an invalid cursor:
    the [AttributeError] that [UUID] raises is not in the [except] clause. *)
Example numeric_cursor_escapes :
  Cursor.decode (Base64.rstrip_pad (Base64.encode true (utf8
    (print (λ _, "") "" (JObj [("c", JStr "2024-01-01"); ("i", JInt 5)]))))) =
  Raise (EOther "AttributeError: no attribute 'replace'").
Proof. vm_compute. reflexivity. Qed.
