(* ===== verification/WorkflowStore.v ===== *)
(** The workflow tables: the mappers of [infrastructure/db/mappers.py] and the
    repositories of [infrastructure/db/workflow_repositories.py].

    A row of the execution table is kept together with its step rows. *)

From S2P Require Import Prelude PyData PyTime Enums Errors StateMachine ValueObjects Policies Entities RequestFacts.
From S2P Require Import Workflow Records Store Journal Ports.

(** * Step definitions as JSON *)

Definition _step_def_to_json (step : WorkflowStepDefinition) : dict :=
  [("key", JStr (sd_key step)); ("provider", JStr (sd_provider step));
   ("operation_type", JStr (value (sd_operation_type step)));
   ("depends_on", JList (JStr <$> sd_depends_on step));
   ("compensate_operation", jopt (value <$> sd_compensate_operation step));
   ("wait_for_webhook", JBool (sd_wait_for_webhook step));
   ("max_attempts", JInt (sd_max_attempts step));
   ("payload_template", JObj (sd_payload_template step))].

(** [OperationType(raw)] *)
Definition operation_of (j : json) : outcome exn OperationType.t :=
  match j with
  | JStr s => match of_value s with
              | Some op => Ret op
              | None => Raise (EValueError "not a valid OperationType")
              end
  | _ => Raise (EValueError "not a valid OperationType")
  end.
Definition strings_of (j : option json) : option (list string) :=
  match j with
  | None | Some JNull => Some []
  | Some (JList l) => mapM (λ x, match x with JStr s => Some s | _ => None end) l
  | Some _ => None
  end.

(** Rows hold what [_step_def_to_json] wrote; a value of another JSON type is a
    [TypeError] here. *)
Definition _step_def_from_json (raw : dict) : outcome exn WorkflowStepDefinition :=
  match dict_get "key" raw, dict_get "provider" raw, dict_get "operation_type" raw with
  | None, _, _ => Raise (EKeyError "key")
  | _, None, _ => Raise (EKeyError "provider")
  | _, _, None => Raise (EKeyError "operation_type")
  | Some (JStr key), Some (JStr provider), Some op =>
      match operation_of op,
            match dict_get "compensate_operation" raw with
            | None | Some JNull | Some (JStr "") => Ret None
            | Some c => match operation_of c with Ret o => Ret (Some o) | Raise e => Raise e end
            end,
            strings_of (dict_get "depends_on" raw),
            match dict_get "max_attempts" raw with
            | None => Some 3
            | Some (JInt n) => Some n
            | Some _ => None
            end,
            match dict_get "payload_template" raw with
            | None | Some JNull => Some []
            | Some (JObj o) => Some o
            | Some _ => None
            end,
            match dict_get "wait_for_webhook" raw with
            | None => Some false
            | Some (JBool b) => Some b
            | Some _ => None
            end with
      | Raise e, _, _, _, _, _ => Raise e
      | _, Raise e, _, _, _, _ => Raise e
      | Ret op, Ret compensate, Some deps, Some n, Some template, Some wait =>
          Ret {| sd_key := key; sd_provider := provider; sd_operation_type := op;
                 sd_depends_on := deps; sd_compensate_operation := compensate;
                 sd_wait_for_webhook := wait; sd_max_attempts := n; sd_timeout_seconds := None;
                 sd_payload_template := template |}
      | _, _, _, _, _, _ => Raise (ETypeError "unexpected JSON")
      end
  | _, _, _ => Raise (ETypeError "unexpected JSON")
  end.

Fixpoint steps_from_json (l : list dict) : outcome exn (list WorkflowStepDefinition) :=
  match l with
  | [] => Ret []
  | d :: l' => match _step_def_from_json d, steps_from_json l' with
               | Ret s, Ret ss => Ret (s :: ss)
               | Raise e, _ => Raise e
               | _, Raise e => Raise e
               end
  end.

(** [workflow_definition_to_domain] of a row that [workflow_definition_to_row]
    made from [d]. *)
Definition workflow_definition_to_domain (d : WorkflowDefinition.t) : outcome exn WorkflowDefinition.t :=
  match steps_from_json (_step_def_to_json <$> WorkflowDefinition.steps d) with
  | Ret steps => Ret (d <| WorkflowDefinition.steps := steps |> <| WorkflowDefinition.created_at ::= as_utc |>)
  | Raise e => Raise e
  end.

(** * Executions as rows *)

Definition workflow_step_to_domain (s : Step.t) : Step.t :=
  s <| Step.created_at ::= as_utc |> <| Step.updated_at ::= as_utc |> <| Step.completed_at ::= fmap as_utc |>.

Definition workflow_execution_to_domain (e : WorkflowExecution.t) : WorkflowExecution.t :=
  e <| WorkflowExecution.steps ::= fmap workflow_step_to_domain |>
    <| WorkflowExecution.created_at ::= as_utc |> <| WorkflowExecution.updated_at ::= as_utc |>
    <| WorkflowExecution.completed_at ::= fmap as_utc |>
    <| WorkflowExecution.claim_lease_until ::= fmap as_utc |>
    <| WorkflowExecution.deadline_at ::= fmap as_utc |>
    <| WorkflowExecution.deadline_processed_at ::= fmap as_utc |>.

(** The columns [update] writes. *)
Definition step_update_values (v : Z) (s row : Step.t) : Step.t :=
  row <| Step.status := Step.status s |> <| Step.attempt_count := Step.attempt_count s |>
      <| Step.integration_request_id := Step.integration_request_id s |>
      <| Step.compensation_request_id := Step.compensation_request_id s |>
      <| Step.output_payload := Step.output_payload s |>
      <| Step.error_code := Step.error_code s |> <| Step.error_message := Step.error_message s |>
      <| Step.updated_at := Step.updated_at s |> <| Step.completed_at := Step.completed_at s |>
      <| Step.version := v |>.
Definition execution_update_values (v : Z) (e row : WorkflowExecution.t) : WorkflowExecution.t :=
  row <| WorkflowExecution.status := WorkflowExecution.status e |>
      <| WorkflowExecution.manual_review_reason := WorkflowExecution.manual_review_reason e |>
      <| WorkflowExecution.owner_subject := WorkflowExecution.owner_subject e |>
      <| WorkflowExecution.claim_lease_until := WorkflowExecution.claim_lease_until e |>
      <| WorkflowExecution.deadline_at := WorkflowExecution.deadline_at e |>
      <| WorkflowExecution.cancel_reason := WorkflowExecution.cancel_reason e |>
      <| WorkflowExecution.deadline_processed_at := WorkflowExecution.deadline_processed_at e |>
      <| WorkflowExecution.updated_at := WorkflowExecution.updated_at e |>
      <| WorkflowExecution.completed_at := WorkflowExecution.completed_at e |>
      <| WorkflowExecution.version := v |>.

(** The loop of [update] over the steps: the step rows and the steps with their
    new versions. A step without a row is inserted. *)
Fixpoint update_steps (rows todo : list Step.t) : outcome exn (list Step.t * list Step.t) :=
  match todo with
  | [] => Ret (rows, [])
  | s :: todo' =>
      match list_find (λ row, Step.id row = Step.id s) rows with
      | None =>
          match update_steps (rows ++ [s]) todo' with
          | Ret (rows', ss) => Ret (rows', s :: ss)
          | Raise e => Raise e
          end
      | Some (j, row) =>
          if Step.version s <? Step.version row then Raise (ConcurrencyConflictError (uuid_str (Step.id s)) None)
          else
            let v := Z.max (Step.version s) (Step.version row + 1) in
            match update_steps (<[j := step_update_values v s row]> rows) todo' with
            | Ret (rows', ss) => Ret (rows', s <| Step.version := v |> :: ss)
            | Raise e => Raise e
            end
      end
  end.

Definition workflow_not_found (what : string) : exn :=
  error ErrorClass.ConflictError (what +:+ " not found") no_kwargs.

Module Definitions.
Definition add (d : WorkflowDefinition.t) : H unit := add_row (NewDefinition d).
Definition load (row : option WorkflowDefinition.t) : H (option WorkflowDefinition.t) :=
  match row with
  | None => ret None
  | Some row => let* d := lift (workflow_definition_to_domain row) in ret (Some d)
  end.
Definition get (i : UUID) : H (option WorkflowDefinition.t) :=
  let* row := reading (λ T, t_definitions T !! i) in load row.
Definition get_by_name_version (name : string) (version : Z) : H (option WorkflowDefinition.t) :=
  let* rows := reading (λ T, List.filter (λ d,
      bool_decide (WorkflowDefinition.name d = name) && (WorkflowDefinition.version d =? version))
    (map_to_list (t_definitions T)).*2) in
  match rows with
  | [] => ret None
  | [row] => load (Some row)
  | _ => raise (EOther "MultipleResultsFound")
  end.
Definition mark_immutable (d : WorkflowDefinition.t) : H unit :=
  let* row := reading (λ T, t_definitions T !! WorkflowDefinition.id d) in
  match row with
  | None => raise (workflow_not_found "workflow definition")
  | Some _ => modify_working (λ T, T <| t_definitions ::=
                alter WorkflowDefinition.mark_immutable (WorkflowDefinition.id d) |>)
  end.
End Definitions.

Module Executions.
(** [SELECT ... WHERE id = i] *)
Definition row_at (T : tables) (i : UUID) : option WorkflowExecution.t :=
  match t_executions T !! i with
  | Some row => if bool_decide (WorkflowExecution.id row = i) then Some row else None
  | None => None
  end.
Definition rows (T : tables) : list WorkflowExecution.t := (map_to_list (t_executions T)).*2.

Definition add (e : WorkflowExecution.t) : H unit := add_row (NewExecution e).

Definition _load (i : UUID) : H (option WorkflowExecution.t) :=
  reading (λ T, workflow_execution_to_domain <$> row_at T i).
Definition get (i : UUID) : H (option WorkflowExecution.t) := _load i.
Definition get_for_update (i : UUID) : H (option WorkflowExecution.t) := _load i.

Definition get_by_idempotency_key (key : string) : H (option WorkflowExecution.t) :=
  let* found := reading (λ T, List.filter (λ e,
      bool_decide (WorkflowExecution.idempotency_key e = Some key)) (rows T)) in
  match found with
  | [] => ret None
  | [row] => _load (WorkflowExecution.id row)
  | _ => raise (EOther "MultipleResultsFound")
  end.

(** Returns the execution with the versions it leaves with. *)
Definition update (e : WorkflowExecution.t) : H WorkflowExecution.t :=
  let* row := reading (λ T, row_at T (WorkflowExecution.id e)) in
  match row with
  | None => raise (workflow_not_found "workflow execution")
  | Some row =>
      if WorkflowExecution.version e <? WorkflowExecution.version row
      then raise (ConcurrencyConflictError (uuid_str (WorkflowExecution.id e)) None)
      else
        let v := Z.max (WorkflowExecution.version e) (WorkflowExecution.version row + 1) in
        let* (step_rows, steps) := lift (update_steps (WorkflowExecution.steps row) (WorkflowExecution.steps e)) in
        modify_working (λ T, T <| t_executions ::= insert (WorkflowExecution.id e)
          ((execution_update_values v e row) <| WorkflowExecution.steps := step_rows |>) |>) ;;;
        ret (e <| WorkflowExecution.version := v |> <| WorkflowExecution.steps := steps |>)
  end.

Definition _RUNNABLE : list WorkflowStatus.t :=
  [WorkflowStatus.QUEUED; WorkflowStatus.RUNNING; WorkflowStatus.WAITING; WorkflowStatus.COMPENSATING;
   WorkflowStatus.RETRY_SCHEDULED; WorkflowStatus.TIMED_OUT].
Definition claimable (at_ : datetime) (e : WorkflowExecution.t) : bool :=
  bool_decide (WorkflowExecution.status e ∈ _RUNNABLE) &&
  match WorkflowExecution.claim_lease_until e with
  | None => true
  | Some d => instant d <=? instant at_
  end.
Definition lease (at_ until : datetime) (e : WorkflowExecution.t) : WorkflowExecution.t :=
  e <| WorkflowExecution.claim_lease_until := Some until |> <| WorkflowExecution.updated_at := at_ |>.
Fixpoint claim_each (at_ until : datetime) (ids : list UUID) : H (list WorkflowExecution.t) :=
  match ids with
  | [] => ret []
  | i :: ids' =>
      let* loaded := _load i in
      match loaded with
      | None => claim_each at_ until ids'
      | Some e =>
          modify_working (λ T, T <| t_executions ::= alter (lease at_ until) i |>) ;;;
          let* es := claim_each at_ until ids' in
          ret (lease at_ until e :: es)
      end
  end.
Definition claim_runnable (limit : nat) (at_ until : datetime) : H (list WorkflowExecution.t) :=
  let* ids := reading (λ T, WorkflowExecution.id <$> take limit (order_by
      (λ e, instant (WorkflowExecution.updated_at e)) (List.filter (claimable at_) (rows T)))) in
  claim_each at_ until ids.

(** A request belongs to at most one step; two matching rows are an error. *)
Definition step_mentions (i : UUID) (s : Step.t) : bool :=
  bool_decide (Step.integration_request_id s = Some i) || bool_decide (Step.compensation_request_id s = Some i).
Definition find_by_request_id (i : UUID) : H (option WorkflowExecution.t) :=
  let* found := reading (λ T, List.concat (map (λ e,
      map (λ _, WorkflowExecution.id e) (List.filter (step_mentions i) (WorkflowExecution.steps e))) (rows T))) in
  match found with
  | [] => ret None
  | [j] => _load j
  | _ => raise (EOther "MultipleResultsFound")
  end.
End Executions.

(** * Facts *)

(** A step definition survives its row, but for its timeout. *)
Lemma step_def_roundtrip s :
  _step_def_from_json (_step_def_to_json s) =
    Ret (mk_step_def (sd_key s) (sd_provider s) (sd_operation_type s) (sd_depends_on s)
           (sd_compensate_operation s) (sd_wait_for_webhook s) (sd_max_attempts s) None
           (sd_payload_template s)).
Proof.
  unfold _step_def_from_json, _step_def_to_json.
  repeat (rewrite dict_get_cons; case_bool_decide; try done; []).
  repeat (rewrite dict_get_cons; (rewrite bool_decide_true by done) || (rewrite bool_decide_false by done)).
  unfold operation_of. rewrite of_value_value.
  assert (strings_of (Some (JList (JStr <$> sd_depends_on s))) = Some (sd_depends_on s)) as ->.
  { unfold strings_of. induction (sd_depends_on s) as [|d l IH]; [done|]. cbn in IH |- *. by rewrite IH. }
  destruct (sd_compensate_operation s) as [op|]; [|done]. cbn [fmap option_fmap option_map jopt].
  rewrite of_value_value. by destruct op.
Qed.
