(* ===== verification/Orchestrator.v ===== *)
(** The workflow orchestrator ([application/services/workflow_orchestrator.py]),
    the use cases that start and cancel workflows
    ([application/use_cases/start_workflow.py]) and the worker that advances
    them ([workers/workflow_worker.py]).

    The dispatcher reports finished requests back to the orchestrator, which may
    dispatch further requests from within that report. The depth of these nested
    calls is bounded by [depth], as the interpreter bounds it: beyond it the call
    raises [RecursionError]. *)

From S2P Require Import Prelude PyData PyTime Enums Errors StateMachine ValueObjects Policies Entities RequestFacts.
From S2P Require Import Workflow Records Store Journal Ports Dispatcher WorkflowStore.

Definition _TERMINAL_REQUESTS : list RequestStatus.t :=
  [RequestStatus.SUCCEEDED; RequestStatus.FAILED; RequestStatus.CANCELLED; RequestStatus.MANUAL_REVIEW].

Definition RecursionError : exn := EOther "RecursionError".
Definition AssertionError : exn := EAssertion.
Definition execution_not_found : exn := error ErrorClass.NotFoundError "workflow execution not found" no_kwargs.

Definition workflow_actor : Actor := mk_actor ActorType.WORKFLOW_WORKER (Some "workflow").
Definition deadline_actor : Actor := mk_actor ActorType.WORKFLOW_WORKER (Some "deadline").

(** [assert x is not None] *)
Definition assert_some {A} (o : option A) : H A :=
  match o with Some a => ret a | None => raise AssertionError end.

(** [reason or ...] *)
Definition reason_or (reason existing : option string) (fallback : string) : option string :=
  if truthy_opt reason then reason else if truthy_opt existing then existing else Some fallback.

(** [execution.is_past_deadline(now=now)] *)
Definition past_deadline (e : WorkflowExecution.t) (t : datetime) : H bool :=
  match WorkflowExecution.is_past_deadline e t with
  | Some b => ret b
  | None => raise (ETypeError "can't compare offset-naive and offset-aware datetimes")
  end.

(** [next(s for s in execution.steps if s.id == step_id)]: its position. A
    coroutine turns the [StopIteration] of a missing step into [RuntimeError]. *)
Definition step_index (e : WorkflowExecution.t) (step_id : UUID) : outcome exn (nat * Step.t) :=
  match list_find (λ s, Step.id s = step_id) (WorkflowExecution.steps e) with
  | Some (i, s) => Ret (i, s)
  | None => Raise (EOther "RuntimeError")
  end.

(** [_step_for_request] *)
Definition _step_for_request (e : WorkflowExecution.t) (request_id : UUID) : option (nat * Step.t) :=
  list_find (λ s, Executions.step_mentions request_id s = true) (WorkflowExecution.steps e).

(** [for step in execution.steps: body step] *)
Definition for_steps (body : Step.t → option (Step.method unit)) : WorkflowExecution.method unit :=
  let* e := getS in
  for_each (seq 0 (length (WorkflowExecution.steps e))) (λ i,
    let* e := getS in
    match WorkflowExecution.steps e !! i ≫= body with
    | Some m => WorkflowExecution.on_step i m
    | None => ret tt
    end).

Section Orchestrator.
Context `{Env} `{Platform}.

(** [CorrelationId.parse] of a stored correlation id. *)
Definition parse_correlation (v : string) : H string :=
  if negb (Str.truthy (Str.strip v)) then let* u := new_id in lift (CorrelationId.generate u)
  else lift (CorrelationId.make (Str.take 128 (Str.strip v))).

Definition _record (e : WorkflowExecution.t) (action : AuditAction.t) (actor : Actor)
    (previous new : WorkflowStatus.t) (md : dict) : H unit :=
  let* t := now in
  let* i := new_id in
  let* corr := parse_correlation (WorkflowExecution.correlation_id e) in
  let* a := lift (AuditEvent.make (AuditEvent.mk i "workflow_execution"
    (uuid_str (WorkflowExecution.id e)) action (actor_type actor) corr t (Some (value previous))
    (Some (value new)) (actor_id actor) md)) in
  Audit.append a ;;;
  let* oi := new_id in
  let* ev := new_id in
  let* corr := parse_correlation (WorkflowExecution.correlation_id e) in
  let* o := lift (OutboxEvent.fresh oi ev ("workflow.execution." +:+ value new +:+ ".v1") 1
    "workflow_execution" (uuid_str (WorkflowExecution.id e))
    [("workflow_execution_id", JStr (uuid_str (WorkflowExecution.id e))); ("status", JStr (value new));
     ("definition", JStr (WorkflowExecution.definition_name e));
     ("version", JInt (WorkflowExecution.definition_version e))]
    corr t None (Some (uuid_str (WorkflowExecution.id e)))) in
  add_row (NewOutbox o).

Definition _refresh_execution_status (e : WorkflowExecution.t) : H WorkflowExecution.t :=
  let* t := now in
  let failed := List.filter (λ s, bool_decide (Step.status s = WorkflowStepStatus.FAILED))
                  (WorkflowExecution.steps e) in
  let previous := WorkflowExecution.status e in
  if bool_decide (previous ∈ [WorkflowStatus.CANCELLED; WorkflowStatus.COMPENSATED;
                              WorkflowStatus.SUCCEEDED; WorkflowStatus.DEAD_LETTERED]) then ret e
  else
    match failed,
          bool_decide (previous ∈ [WorkflowStatus.COMPENSATING; WorkflowStatus.COMPENSATED;
            WorkflowStatus.MANUAL_REVIEW; WorkflowStatus.FAILED; WorkflowStatus.TIMED_OUT;
            WorkflowStatus.CANCELLED]) with
    | f :: _, false =>
        let* (_, e) := on e (WorkflowExecution.transition_to WorkflowStatus.COMPENSATING t) in
        _record e AuditAction.WORKFLOW_COMPENSATING workflow_actor previous WorkflowStatus.COMPENSATING
          [("failed_step", JStr (Step.step_key f))] ;;;
        ret e
    | _, _ =>
        if WorkflowExecution.any_waiting e && bool_decide (previous = WorkflowStatus.RUNNING) then
          let* (_, e) := on e (WorkflowExecution.transition_to WorkflowStatus.WAITING t) in
          _record e AuditAction.WORKFLOW_WAITING workflow_actor previous WorkflowStatus.WAITING [] ;;;
          ret e
        else
          let* (_, e) :=
            if bool_decide (previous = WorkflowStatus.WAITING) && negb (WorkflowExecution.any_waiting e) &&
               bool_decide (failed = []) then
              on e (WorkflowExecution.transition_to WorkflowStatus.RUNNING t ;;;
                    WorkflowExecution.promote_ready_steps t ;;; ret tt)
            else ret (tt, e) in
          if WorkflowExecution.all_forward_succeeded e &&
             bool_decide (WorkflowExecution.status e = WorkflowStatus.RUNNING) then
            let previous := WorkflowExecution.status e in
            let* (_, e) := on e (WorkflowExecution.transition_to WorkflowStatus.SUCCEEDED t) in
            _record e AuditAction.WORKFLOW_SUCCEEDED workflow_actor previous WorkflowStatus.SUCCEEDED [] ;;;
            ret e
          else ret e
    end.

(** ** Starting *)

(** [{**template.payload_template, **input_payload.get(template.key, {})}], or a
    copy of the input when that is empty. *)
Definition step_payload (template : WorkflowStepDefinition) (input_payload : dict) : outcome exn dict :=
  match match dict_get (sd_key template) input_payload with
        | None => Some []
        | Some (JObj o) => Some o
        | Some _ => None
        end with
  | None => Raise (ETypeError "the step input is not a mapping")
  | Some own =>
      Ret (match dict_merge (sd_payload_template template) own with [] => input_payload | p => p end)
  end.

Fixpoint new_steps (execution_id : UUID) (t : datetime) (input_payload : dict)
    (templates : list WorkflowStepDefinition) : H (list Step.t) :=
  match templates with
  | [] => ret []
  | template :: rest =>
      let* payload := lift (step_payload template input_payload) in
      let* i := new_id in
      let* steps := new_steps execution_id t input_payload rest in
      ret ({| Step.id := i; Step.workflow_execution_id := execution_id; Step.step_key := sd_key template;
              Step.provider := sd_provider template; Step.operation_type := sd_operation_type template;
              Step.depends_on := sd_depends_on template;
              Step.compensate_operation := sd_compensate_operation template;
              Step.wait_for_webhook := sd_wait_for_webhook template;
              Step.status := WorkflowStepStatus.PENDING; Step.attempt_count := 0;
              Step.max_attempts := sd_max_attempts template; Step.integration_request_id := None;
              Step.compensation_request_id := None; Step.input_payload := payload;
              Step.output_payload := None; Step.error_code := None; Step.error_message := None;
              Step.created_at := t; Step.updated_at := t; Step.completed_at := None;
              Step.version := 1 |} :: steps)
  end.

Definition start_execution (definition : WorkflowDefinition.t) (input_payload : dict)
    (correlation_id : string) (idempotency_key : option string) (actor : Actor)
    (deadline_at : option datetime) : H WorkflowExecution.t :=
  let* existing :=
    if truthy_opt idempotency_key
    then with_uow (Executions.get_by_idempotency_key (default "" idempotency_key))
    else ret None in
  match existing with
  | Some e => ret e
  | None =>
      let* t := now in
      let* execution_id := new_id in
      let* steps := new_steps execution_id t input_payload (WorkflowDefinition.steps definition) in
      let e := {| WorkflowExecution.id := execution_id;
                  WorkflowExecution.definition_id := WorkflowDefinition.id definition;
                  WorkflowExecution.definition_name := WorkflowDefinition.name definition;
                  WorkflowExecution.definition_version := WorkflowDefinition.version definition;
                  WorkflowExecution.status := WorkflowStatus.CREATED;
                  WorkflowExecution.correlation_id := correlation_id;
                  WorkflowExecution.idempotency_key := idempotency_key;
                  WorkflowExecution.input_payload := input_payload; WorkflowExecution.steps := steps;
                  WorkflowExecution.created_at := t; WorkflowExecution.updated_at := t;
                  WorkflowExecution.completed_at := None; WorkflowExecution.manual_review_reason := None;
                  WorkflowExecution.version := 1; WorkflowExecution.owner_subject := actor_id actor;
                  WorkflowExecution.claim_lease_until := None; WorkflowExecution.deadline_at := deadline_at;
                  WorkflowExecution.cancel_reason := None;
                  WorkflowExecution.deadline_processed_at := None |} in
      let* (_, e) := on e (WorkflowExecution.transition_to WorkflowStatus.QUEUED t ;;;
                           WorkflowExecution.promote_ready_steps t) in
      with_uow (
        (if WorkflowDefinition.immutable definition then ret tt
         else Definitions.mark_immutable definition) ;;;
        Executions.add e ;;;
        _record e AuditAction.WORKFLOW_STARTED actor WorkflowStatus.CREATED (WorkflowExecution.status e) [] ;;;
        commit) ;;;
      ret e
  end.

(** ** Compensation *)

Section Hooked.
(** What the dispatcher reports finished requests to. *)
Context (on_terminal : option (UUID → H unit)).

(** The first transaction of [_compensate_step]: the request to dispatch, or
    [None] when there is nothing to undo. *)
Definition open_compensation (execution_id step_id : UUID) : H (option UUID) :=
  with_uow (
    let* loaded := Executions.get_for_update execution_id in
    match loaded with
    | None => raise AssertionError
    | Some e =>
        let* (i, step) := lift (step_index e step_id) in
        let* t := now in
        match Step.compensate_operation step with
        | None =>
            let* (_, e) := on e (WorkflowExecution.on_step i (Step.mark_compensated t None)) in
            Executions.update e ;;;
            commit ;;;
            ret None
        | Some op =>
            let* request_id := new_id in
            let* provider := lift (ProviderSlug.parse (Step.provider step)) in
            let* ref := lift (ExternalReference.make
              ("wf-cmp-" +:+ uuid_hex8 (WorkflowExecution.id e) +:+ "-" +:+ Step.step_key step)) in
            let* corr := parse_correlation (WorkflowExecution.correlation_id e) in
            let* request := lift (IntegrationRequest.create request_id provider op ref
              (Step.input_payload step) corr t None None) in
            Requests.add request ;;;
            let* (_, e) := on e (WorkflowExecution.on_step i
              (modifyS (λ s, s <| Step.compensation_request_id := Some (IntegrationRequest.id request) |>))) in
            Executions.update e ;;;
            record_creation request workflow_actor
              [("workflow_execution_id", JStr (uuid_str (WorkflowExecution.id e)));
               ("step_key", JStr (Step.step_key step)); ("compensation", JBool true)] ;;;
            commit ;;;
            ret (Some (IntegrationRequest.id request))
        end
    end).

(** The last transaction of [_compensate_step], after the dispatch. *)
Definition close_compensation (execution_id step_id request_id : UUID) (dispatched : IntegrationRequest.t) :
    H WorkflowExecution.t :=
  with_uow (
    let* loaded := Executions.get_for_update execution_id in
    match loaded with
    | None => raise AssertionError
    | Some e =>
        let* (i, step) := lift (step_index e step_id) in
        let* t := now in
        let* (_, e) :=
          match IntegrationRequest.status dispatched with
          | RequestStatus.SUCCEEDED =>
              on e (WorkflowExecution.on_step i (Step.mark_compensated t (Some request_id)))
          | RequestStatus.PENDING => ret (tt, e)
          | _ =>
              on e (WorkflowExecution.on_step i (Step.mark_failed t
                      (Some (or_else (IntegrationRequest.last_error_code dispatched) "compensation_failed"))
                      (Some (or_else (IntegrationRequest.last_error_message dispatched) "compensation failed"))) ;;;
                    modifyS (λ e, e <| WorkflowExecution.manual_review_reason :=
                      Some ("compensation failed for " +:+ Step.step_key step) |>) ;;;
                    WorkflowExecution.transition_to WorkflowStatus.MANUAL_REVIEW t)
          end in
        let* e := Executions.update e in
        commit ;;;
        ret e
    end).

Definition _compensate_step (continue : UUID → H unit) (execution_id step_id : UUID) : H unit :=
  let* opened := open_compensation execution_id step_id in
  match opened with
  | None => continue execution_id
  | Some request_id =>
      let* dispatched := dispatch on_terminal request_id workflow_actor None in
      let* e := close_compensation execution_id step_id request_id dispatched in
      if bool_decide (WorkflowExecution.status e = WorkflowStatus.COMPENSATING) then continue execution_id
      else ret tt
  end.

(** Nothing is left to undo. *)
Definition unwound (e : WorkflowExecution.t) : bool :=
  forallb (λ s, bool_decide (Step.status s ∈ [WorkflowStepStatus.COMPENSATED; WorkflowStepStatus.FAILED;
    WorkflowStepStatus.SKIPPED; WorkflowStepStatus.CANCELLED; WorkflowStepStatus.PENDING]))
    (WorkflowExecution.steps e) &&
  forallb (λ s, negb (bool_decide (Step.status s = WorkflowStepStatus.SUCCEEDED)) &&
                negb (bool_decide (Step.status s = WorkflowStepStatus.COMPENSATING)))
    (WorkflowExecution.steps e).

(** The transaction of [_continue_compensation]: the step to undo next. *)
Definition next_compensation (execution_id : UUID) : H (option UUID) :=
  with_uow (
    let* loaded := Executions.get_for_update execution_id in
    match loaded with
    | None => raise AssertionError
    | Some e =>
        if negb (bool_decide (WorkflowExecution.status e = WorkflowStatus.COMPENSATING)) then ret None
        else
          let* t := now in
          match WorkflowExecution.succeeded_in_reverse e with
          | step :: _ =>
              let* (i, _) := lift (step_index e (Step.id step)) in
              let* (_, e) := on e (WorkflowExecution.on_step i (Step.begin_compensation t)) in
              Executions.update e ;;;
              commit ;;;
              ret (Some (Step.id step))
          | [] =>
              let* reloaded := Executions.get_for_update execution_id in
              match reloaded with
              | None => raise AssertionError
              | Some e =>
                  let* e :=
                    if unwound e then
                      let terminal := if truthy_opt (WorkflowExecution.cancel_reason e)
                                      then WorkflowStatus.CANCELLED else WorkflowStatus.COMPENSATED in
                      let action := if truthy_opt (WorkflowExecution.cancel_reason e)
                                    then AuditAction.WORKFLOW_CANCELLED else AuditAction.WORKFLOW_COMPENSATED in
                      let* t := now in
                      let* (_, e) := on e (WorkflowExecution.transition_to terminal t) in
                      _record e action workflow_actor WorkflowStatus.COMPENSATING terminal [] ;;;
                      ret e
                    else ret e in
                  Executions.update e ;;;
                  commit ;;;
                  ret None
              end
          end
    end).

Fixpoint _continue_compensation (depth : nat) (execution_id : UUID) : H unit :=
  match depth with
  | O => raise RecursionError
  | S depth' =>
      let* next := next_compensation execution_id in
      match next with
      | Some step_id => _compensate_step (_continue_compensation depth') execution_id step_id
      | None => ret tt
      end
  end.

Context (depth : nat).

(** Continue the unwinding and read the execution again. *)
Definition unwind (e : WorkflowExecution.t) : H WorkflowExecution.t :=
  _continue_compensation depth (WorkflowExecution.id e) ;;;
  let* loaded := with_uow (Executions.get (WorkflowExecution.id e)) in
  assert_some loaded.

(** ** Cancelling and deadlines *)

(** The loops over the steps in [cancel] and [enforce_deadline]. *)
Definition cancel_open_step (t : datetime) (s : Step.t) : option (Step.method unit) :=
  if bool_decide (Step.status s ∈ [WorkflowStepStatus.PENDING; WorkflowStepStatus.READY;
        WorkflowStepStatus.WAITING; WorkflowStepStatus.RETRY_SCHEDULED])
  then Some (Step.transition_to WorkflowStepStatus.CANCELLED t)
  else if bool_decide (Step.status s = WorkflowStepStatus.RUNNING)
  then Some (Step.transition_to WorkflowStepStatus.CANCELLED t)
  else None.
Definition expire_open_step (t : datetime) (s : Step.t) : option (Step.method unit) :=
  if bool_decide (Step.status s ∈ [WorkflowStepStatus.PENDING; WorkflowStepStatus.READY])
  then Some (Step.transition_to WorkflowStepStatus.CANCELLED t)
  else if bool_decide (Step.status s ∈ [WorkflowStepStatus.WAITING;
            WorkflowStepStatus.RETRY_SCHEDULED; WorkflowStepStatus.RUNNING])
  then Some (Step.mark_failed t (Some "workflow_deadline_exceeded")
               (Some "workflow hard deadline elapsed"))
  else None.

(** The transaction of [cancel]; the flag asks for compensation. *)
Definition cancel_tx (execution_id : UUID) (actor : Actor) (reason : option string) :
    H (WorkflowExecution.t * bool) :=
  with_uow (
    let* loaded := Executions.get_for_update execution_id in
    match loaded with
    | None => raise execution_not_found
    | Some e =>
        let* t := now in
        let previous := WorkflowExecution.status e in
        if bool_decide (previous = WorkflowStatus.CANCELLED) then ret (e, false)
        else if bool_decide (previous ∈ [WorkflowStatus.SUCCEEDED; WorkflowStatus.COMPENSATED;
                               WorkflowStatus.FAILED; WorkflowStatus.DEAD_LETTERED]) then
          raise (error ErrorClass.ConflictError
                   ("cannot cancel workflow in terminal status " +:+ value previous) no_kwargs)
        else
          let why := reason_or reason (WorkflowExecution.cancel_reason e) "client_cancelled" in
          let* (_, e) := on e (modifyS (λ e, e <| WorkflowExecution.cancel_reason := why |>)) in
          if bool_decide (previous = WorkflowStatus.COMPENSATING) then
            _record e AuditAction.WORKFLOW_CANCELLED actor previous previous
              [("deferred", JBool true); ("reason", jopt why)] ;;;
            let* e := Executions.update e in
            commit ;;;
            ret (e, false)
          else
            let* (_, e) := on e (for_steps (cancel_open_step t)) in
            let needs := WorkflowExecution.has_succeeded_steps e in
            let* e :=
              if needs then
                let* (_, e) := on e (WorkflowExecution.transition_to WorkflowStatus.COMPENSATING t) in
                _record e AuditAction.WORKFLOW_COMPENSATING actor previous WorkflowStatus.COMPENSATING
                  [("reason", JStr "cancel"); ("cancel_reason", jopt why)] ;;;
                ret e
              else
                let* (_, e) := on e (WorkflowExecution.transition_to WorkflowStatus.CANCELLED t) in
                _record e AuditAction.WORKFLOW_CANCELLED actor previous WorkflowStatus.CANCELLED
                  [("reason", jopt why)] ;;;
                ret e in
            let* e := Executions.update e in
            commit ;;;
            ret (e, needs)
    end).

Definition cancel (execution_id : UUID) (actor : Actor) (reason : option string) : H WorkflowExecution.t :=
  let* (e, needs_compensation) := cancel_tx execution_id actor reason in
  if needs_compensation : bool then unwind e else ret e.

(** The transaction of [enforce_deadline]. *)
Definition deadline_tx (execution_id : UUID) : H (WorkflowExecution.t * bool) :=
  with_uow (
    let* loaded := Executions.get_for_update execution_id in
    match loaded with
    | None => raise execution_not_found
    | Some e =>
        let* t := now in
        let previous := WorkflowExecution.status e in
        let processed := bool_decide (is_Some (WorkflowExecution.deadline_processed_at e)) in
        if (WorkflowStatus.is_terminal previous ||
            bool_decide (previous ∈ [WorkflowStatus.COMPENSATING; WorkflowStatus.MANUAL_REVIEW;
                                     WorkflowStatus.TIMED_OUT])) && processed then ret (e, false)
        else
          let* past := past_deadline e t in
          if negb past then ret (e, false)
          else if processed then ret (e, false)
          else
            let* (_, e) := on e (
              modifyS (λ e, e <| WorkflowExecution.deadline_processed_at := Some t |>) ;;;
              for_steps (expire_open_step t) ;;;
              WorkflowExecution.transition_to WorkflowStatus.TIMED_OUT t) in
            _record e AuditAction.WORKFLOW_TIMED_OUT deadline_actor previous WorkflowStatus.TIMED_OUT [] ;;;
            let needs := WorkflowExecution.has_succeeded_steps e in
            let* e :=
              if needs then
                let* (_, e) := on e (WorkflowExecution.transition_to WorkflowStatus.COMPENSATING t) in
                _record e AuditAction.WORKFLOW_COMPENSATING deadline_actor WorkflowStatus.TIMED_OUT
                  WorkflowStatus.COMPENSATING [] ;;;
                ret e
              else
                let* (_, e) := on e (
                  WorkflowExecution.transition_to WorkflowStatus.CANCELLED t ;;;
                  modifyS (λ e, e <| WorkflowExecution.cancel_reason :=
                    reason_or (WorkflowExecution.cancel_reason e) None "workflow_deadline_exceeded" |>)) in
                _record e AuditAction.WORKFLOW_CANCELLED deadline_actor WorkflowStatus.TIMED_OUT
                  WorkflowStatus.CANCELLED [] ;;;
                ret e in
            let* e := Executions.update e in
            commit ;;;
            ret (e, needs)
    end).

Definition enforce_deadline (execution_id : UUID) : H WorkflowExecution.t :=
  let* (e, needs_compensation) := deadline_tx execution_id in
  if needs_compensation : bool then unwind e else ret e.

(** ** Advancing *)

Definition stopped (s : WorkflowStatus.t) : bool :=
  bool_decide (s ∈ [WorkflowStatus.CANCELLED; WorkflowStatus.COMPENSATING; WorkflowStatus.MANUAL_REVIEW]) ||
  WorkflowStatus.is_terminal s.

(** The first transaction of [_run_forward_step]: the request to dispatch;
    [inl true] when the deadline has passed, [inl false] when nothing is to do. *)
Definition open_step (execution_id step_id : UUID) : H (bool + UUID) :=
  with_uow (
    let* loaded := Executions.get_for_update execution_id in
    match loaded with
    | None => raise AssertionError
    | Some e =>
        let* (i, step) := lift (step_index e step_id) in
        if negb (bool_decide (Step.status step = WorkflowStepStatus.READY)) then ret (inl false)
        else
          let* t := now in
          if stopped (WorkflowExecution.status e) ||
             bool_decide (WorkflowExecution.status e = WorkflowStatus.TIMED_OUT) then ret (inl false)
          else
            let* past := past_deadline e t in
            if past && negb (bool_decide (is_Some (WorkflowExecution.deadline_processed_at e))) then
              commit ;;;
              ret (inl true)
            else
              let* (_, e) := on e (WorkflowExecution.on_step i (Step.mark_running t)) in
              let scenario := match dict_get "fail_scenario" (WorkflowExecution.input_payload e) with
                              | None => Some "scenario-reject"
                              | Some (JStr v) => Some v
                              | Some _ => None
                              end in
              let plain := "wf-" +:+ uuid_hex8 (WorkflowExecution.id e) +:+ "-" +:+ Step.step_key step in
              let ref := match dict_get "fail_at_step" (WorkflowExecution.input_payload e), scenario with
                         | Some (JStr key), Some v =>
                             if bool_decide (key = Step.step_key step) then v +:+ "-" +:+ plain else plain
                         | _, _ => plain
                         end in
              let* request_id := new_id in
              let* provider := lift (ProviderSlug.parse (Step.provider step)) in
              let* ref := lift (ExternalReference.make ref) in
              let* corr := parse_correlation (WorkflowExecution.correlation_id e) in
              let* request := lift (IntegrationRequest.create request_id provider (Step.operation_type step)
                ref (Step.input_payload step) corr t None None) in
              Requests.add request ;;;
              let* (_, e) := on e (WorkflowExecution.on_step i
                (modifyS (λ s, s <| Step.integration_request_id := Some (IntegrationRequest.id request) |>))) in
              Executions.update e ;;;
              record_creation request workflow_actor
                [("workflow_execution_id", JStr (uuid_str (WorkflowExecution.id e)));
                 ("step_key", JStr (Step.step_key step))] ;;;
              commit ;;;
              ret (inr (IntegrationRequest.id request))
    end).

(** What the outcome of the dispatch does to the step. *)
Definition settle_step (i : nat) (step : Step.t) (request_id : UUID) (dispatched : IntegrationRequest.t)
    (t : datetime) : WorkflowExecution.method unit :=
  match IntegrationRequest.status dispatched with
  | RequestStatus.SUCCEEDED =>
      WorkflowExecution.on_step i (Step.mark_succeeded t request_id
        (Some [("provider_reference", jopt (IntegrationRequest.provider_reference dispatched))]))
  | RequestStatus.PENDING =>
      if bool_decide (Step.status step ∈ [WorkflowStepStatus.RUNNING; WorkflowStepStatus.WAITING])
      then WorkflowExecution.on_step i (Step.mark_waiting t) else ret tt
  | RequestStatus.FAILED | RequestStatus.MANUAL_REVIEW =>
      if bool_decide (Step.status step ∈ [WorkflowStepStatus.FAILED; WorkflowStepStatus.CANCELLED;
                                          WorkflowStepStatus.SUCCEEDED])
      then ret tt
      else WorkflowExecution.on_step i (Step.mark_failed t (IntegrationRequest.last_error_code dispatched)
             (IntegrationRequest.last_error_message dispatched))
  | RequestStatus.RETRY_SCHEDULED =>
      if bool_decide (Step.status step = WorkflowStepStatus.RUNNING)
      then WorkflowExecution.on_step i (Step.transition_to WorkflowStepStatus.RETRY_SCHEDULED t) else ret tt
  | _ => ret tt
  end.

(** The last transaction of [_run_forward_step]. *)
Definition close_step (execution_id step_id request_id : UUID) (dispatched : IntegrationRequest.t) :
    H WorkflowExecution.t :=
  with_uow (
    let* loaded := Executions.get_for_update execution_id in
    match loaded with
    | None => raise AssertionError
    | Some e =>
        let* (i, step) := lift (step_index e step_id) in
        let* t := now in
        let* (_, e) := on e (settle_step i step request_id dispatched t) in
        let* e := _refresh_execution_status e in
        let* e := Executions.update e in
        commit ;;;
        ret e
    end).

Definition _run_forward_step (execution_id step_id : UUID) : H unit :=
  let* opened := open_step execution_id step_id in
  match opened with
  | inl true => enforce_deadline execution_id ;;; ret tt
  | inl false => ret tt
  | inr request_id =>
      let* dispatched := dispatch on_terminal request_id workflow_actor None in
      let* e := close_step execution_id step_id request_id dispatched in
      if bool_decide (WorkflowExecution.status e = WorkflowStatus.COMPENSATING)
      then _continue_compensation depth (WorkflowExecution.id e) else ret tt
  end.

(** [advance]: resume the waiting steps whose requests have succeeded. *)
Fixpoint resume_waiting (t : datetime) (is_ : list nat) (e : WorkflowExecution.t) : H WorkflowExecution.t :=
  match is_ with
  | [] => ret e
  | i :: is' =>
      let* e :=
        match WorkflowExecution.steps e !! i with
        | None => ret e
        | Some step =>
            match bool_decide (Step.status step = WorkflowStepStatus.WAITING), Step.integration_request_id step with
            | true, Some request_id =>
                let* request := Requests.get request_id in
                match request with
                | Some r =>
                    if bool_decide (IntegrationRequest.status r = RequestStatus.SUCCEEDED) then
                      let* (_, e) := on e (WorkflowExecution.on_step i (Step.mark_succeeded t
                        (IntegrationRequest.id r)
                        (Some [("provider_reference", jopt (IntegrationRequest.provider_reference r))]))) in
                      ret e
                    else ret e
                | None => ret e
                end
            | _, _ => ret e
            end
        end in
      resume_waiting t is' e
  end.

(** The first transaction of [advance]: [None] when the deadline must be
    enforced; the flag says that the steps that are ready may run. *)
Definition advance_tx (execution_id : UUID) : H (option (WorkflowExecution.t * bool)) :=
  with_uow (
    let* loaded := Executions.get_for_update execution_id in
    match loaded with
    | None => raise execution_not_found
    | Some e =>
        if WorkflowStatus.is_terminal (WorkflowExecution.status e) then ret (Some (e, false))
        else if bool_decide (WorkflowExecution.status e = WorkflowStatus.MANUAL_REVIEW) then ret (Some (e, false))
        else
          let* t := now in
          let* past := past_deadline e t in
          if past && negb (bool_decide (is_Some (WorkflowExecution.deadline_processed_at e))) &&
             negb (bool_decide (WorkflowExecution.status e ∈
                     [WorkflowStatus.COMPENSATING; WorkflowStatus.MANUAL_REVIEW])) then
            commit ;;;
            ret None
          else if bool_decide (WorkflowExecution.status e = WorkflowStatus.CANCELLED) then ret (Some (e, false))
          else
            let* (_, e) :=
              if bool_decide (WorkflowExecution.status e = WorkflowStatus.QUEUED)
              then on e (WorkflowExecution.transition_to WorkflowStatus.RUNNING t) else ret (tt, e) in
            let* e := resume_waiting t (seq 0 (length (WorkflowExecution.steps e))) e in
            let* (_, e) := on e (WorkflowExecution.promote_ready_steps t) in
            let* e := _refresh_execution_status e in
            let* e := Executions.update e in
            commit ;;;
            ret (Some (e, negb (stopped (WorkflowExecution.status e))))
    end).

(** The last transaction of [advance]. *)
Definition refresh_tx (execution_id : UUID) : H WorkflowExecution.t :=
  with_uow (
    let* loaded := Executions.get_for_update execution_id in
    match loaded with
    | None => raise AssertionError
    | Some e =>
        let* e := _refresh_execution_status e in
        let* e := Executions.update e in
        commit ;;;
        ret e
    end).

Definition advance (execution_id : UUID) : H WorkflowExecution.t :=
  let* first := advance_tx execution_id in
  match first with
  | None => enforce_deadline execution_id
  | Some (e, false) => ret e
  | Some (e, true) =>
      let ready := List.filter (λ s, bool_decide (Step.status s = WorkflowStepStatus.READY))
                     (WorkflowExecution.steps e) in
      for_each ready (λ s, _run_forward_step (WorkflowExecution.id e) (Step.id s)) ;;;
      refresh_tx execution_id
  end.

(** ** Reports of finished requests *)

(** The transaction of [on_request_terminal]. *)
Definition report_tx (request_id : UUID) : H (option WorkflowExecution.t) :=
  with_uow (
    let* found := Executions.find_by_request_id request_id in
    match found with
    | None => ret None
    | Some found =>
        let* request := Requests.get request_id in
        match request with
        | None => ret None
        | Some request =>
            if negb (bool_decide (IntegrationRequest.status request ∈ _TERMINAL_REQUESTS)) then ret None
            else
              let* loaded := Executions.get_for_update (WorkflowExecution.id found) in
              match loaded with
              | None => raise AssertionError
              | Some e =>
                  let* t := now in
                  match _step_for_request e request_id with
                  | None => ret None
                  | Some (i, step) =>
                      let* e :=
                        if negb (bool_decide (Step.status step ∈ [WorkflowStepStatus.RUNNING;
                                   WorkflowStepStatus.WAITING; WorkflowStepStatus.COMPENSATING])) then ret e
                        else
                          match IntegrationRequest.status request with
                          | RequestStatus.SUCCEEDED =>
                              let* (_, e) := on e (WorkflowExecution.on_step i
                                (if bool_decide (Step.status step = WorkflowStepStatus.COMPENSATING)
                                 then Step.mark_compensated t (Some request_id)
                                 else Step.mark_succeeded t request_id (Some [("provider_reference",
                                        jopt (IntegrationRequest.provider_reference request))]))) in
                              ret e
                          | RequestStatus.FAILED | RequestStatus.MANUAL_REVIEW =>
                              if bool_decide (Step.status step = WorkflowStepStatus.COMPENSATING) then
                                let* (_, e) := on e (modifyS (λ e, e <| WorkflowExecution.manual_review_reason :=
                                  Some ("compensation failed for step " +:+ Step.step_key step) |>)) in
                                if bool_decide (WorkflowExecution.status e = WorkflowStatus.MANUAL_REVIEW) then ret e
                                else
                                  let* (_, e) :=
                                    if bool_decide (WorkflowExecution.status e = WorkflowStatus.COMPENSATING)
                                    then on e (WorkflowExecution.transition_to WorkflowStatus.MANUAL_REVIEW t)
                                    else ret (tt, e) in
                                  _record e AuditAction.WORKFLOW_MANUAL_REVIEW workflow_actor
                                    WorkflowStatus.COMPENSATING WorkflowStatus.MANUAL_REVIEW [] ;;;
                                  ret e
                              else
                                let* (_, e) := on e (WorkflowExecution.on_step i (Step.mark_failed t
                                  (IntegrationRequest.last_error_code request)
                                  (IntegrationRequest.last_error_message request))) in
                                ret e
                          | RequestStatus.CANCELLED =>
                              let* (_, e) := on e (WorkflowExecution.on_step i
                                (Step.transition_to WorkflowStepStatus.CANCELLED t)) in
                              ret e
                          | _ => ret e
                          end in
                      let* e := _refresh_execution_status e in
                      let* e := Executions.update e in
                      commit ;;;
                      ret (Some e)
                  end
              end
        end
    end).

Definition report (request_id : UUID) : H unit :=
  let* reported := report_tx request_id in
  match reported with
  | None => ret tt
  | Some e =>
      if bool_decide (WorkflowExecution.status e = WorkflowStatus.RUNNING)
      then advance (WorkflowExecution.id e) ;;; ret tt
      else if bool_decide (WorkflowExecution.status e = WorkflowStatus.COMPENSATING)
      then _continue_compensation depth (WorkflowExecution.id e)
      else ret tt
  end.
End Hooked.

(** [on_request_terminal], as wired: the dispatcher reports to it. *)
Fixpoint on_request_terminal (depth : nat) (request_id : UUID) : H unit :=
  match depth with
  | O => raise RecursionError
  | S depth' => report (Some (on_request_terminal depth')) depth' request_id
  end.
End Orchestrator.

(** * Use cases and worker *)

(** [workflow_catalog.py] *)
Definition CUSTOMER_ONBOARDING : string := "customer_onboarding".
Definition PARALLEL_PROVISIONING : string := "parallel_provisioning".
Definition provision_step (key provider resource : string) (deps : list string) (wait : bool) :
    WorkflowStepDefinition :=
  {| sd_key := key; sd_provider := provider; sd_operation_type := OperationType.RESOURCE_PROVISION;
     sd_depends_on := deps; sd_compensate_operation := Some OperationType.RESOURCE_DEPROVISION;
     sd_wait_for_webhook := wait; sd_max_attempts := 3; sd_timeout_seconds := None;
     sd_payload_template := [("resource_name", JStr resource)] |}.
Definition customer_onboarding_v1 (definition_id : UUID) (t : datetime) : WorkflowDefinition.t :=
  WorkflowDefinition.mk definition_id CUSTOMER_ONBOARDING 1
    [provision_step "create_customer" "northstar" "customer" [] false;
     provision_step "create_subscription" "meridian" "subscription" ["create_customer"] false;
     provision_step "register_callback" "cobalt" "callback" ["create_subscription"] true] t false.
Definition parallel_provisioning_v1 (definition_id : UUID) (t : datetime) : WorkflowDefinition.t :=
  WorkflowDefinition.mk definition_id PARALLEL_PROVISIONING 1
    [provision_step "create_customer" "northstar" "customer" [] false;
     provision_step "provision_billing" "meridian" "billing" ["create_customer"] false;
     provision_step "register_notify" "cobalt" "notify" ["create_customer"] true;
     provision_step "finalize_join" "northstar" "join" ["provision_billing"; "register_notify"] false] t false.

Record StartWorkflowCommand := mk_start {
  sw_definition_name : string;
  sw_definition_version : Z;
  sw_input_payload : dict;
  sw_correlation_id : string;
  sw_idempotency_key : option string;
  sw_actor : Actor;
  sw_deadline_seconds : option Z;
}.

Section UseCases.
Context `{Env} `{Platform} (on_terminal : option (UUID → H unit)) (depth : nat).

(** [ensure_customer_onboarding] and [ensure_parallel_provisioning]. *)
Definition ensure_definition (name : string) (build : UUID → datetime → WorkflowDefinition.t) :
    H WorkflowDefinition.t :=
  with_uow (
    let* existing := Definitions.get_by_name_version name 1 in
    match existing with
    | Some d => ret d
    | None =>
        let* i := new_id in
        let* t := now in
        let definition := build i t in
        Definitions.add definition ;;;
        commit ;;;
        ret definition
    end).

Definition start_workflow (c : StartWorkflowCommand) : H WorkflowExecution.t :=
  let* definition :=
    if bool_decide (sw_definition_name c = CUSTOMER_ONBOARDING) && (sw_definition_version c =? 1) then
      ensure_definition CUSTOMER_ONBOARDING customer_onboarding_v1
    else if bool_decide (sw_definition_name c = PARALLEL_PROVISIONING) && (sw_definition_version c =? 1) then
      ensure_definition PARALLEL_PROVISIONING parallel_provisioning_v1
    else
      let* loaded := with_uow (Definitions.get_by_name_version (sw_definition_name c) (sw_definition_version c)) in
      match loaded with
      | None => raise (error ErrorClass.NotFoundError "workflow definition not found" no_kwargs)
      | Some d => ret d
      end in
  let* deadline_at :=
    match sw_deadline_seconds c with
    | None => ret None
    | Some n => let* t := now in ret (Some (dt_add t (n * us_per_second)))
    end in
  let* e := start_execution definition (sw_input_payload c) (sw_correlation_id c) (sw_idempotency_key c)
              (sw_actor c) deadline_at in
  advance on_terminal depth (WorkflowExecution.id e).

Definition get_workflow (execution_id : UUID) : H WorkflowExecution.t :=
  let* loaded := with_uow (Executions.get execution_id) in
  match loaded with
  | None => raise execution_not_found
  | Some e => ret e
  end.

(** [WorkflowWorker.run_once] *)
Definition advance_claimed (e : WorkflowExecution.t) : H unit :=
  try_except (
    if bool_decide (WorkflowExecution.status e = WorkflowStatus.COMPENSATING)
    then _continue_compensation on_terminal depth (WorkflowExecution.id e)
    else advance on_terminal depth (WorkflowExecution.id e) ;;; ret tt)
    (λ _, Some (ret tt)).
Definition workflow_run_once (batch_size : nat) (lease_seconds : Q) : H nat :=
  let* t := now in
  let lease_until := dt_add t (timedelta_seconds lease_seconds) in
  let* claimed := with_uow (
    let* claimed := Executions.claim_runnable batch_size t lease_until in
    commit ;;;
    ret claimed) in
  for_each claimed advance_claimed ;;;
  ret (length claimed).
End UseCases.
