(* ===== verification/OrchestratorFacts.v ===== *)
(** Every transaction of the orchestrator keeps the journal and moves workflow
    executions along their state machines. *)

From S2P Require Import Prelude PyData PyTime Enums Errors StateMachine ValueObjects Policies Entities RequestFacts.
From S2P Require Import Workflow Records Store Journal Ports Settlement Dispatcher Samples DispatcherFacts CreateRequest.
From S2P Require Import Workers WorkflowStore Orchestrator.

(** * Methods move along the machines *)

(** A step drifts along its machine; it moves when it also stays within what
    the outcome of its execution says of it. *)
Definition step_drifts (s s' : Step.t) : Prop :=
  Step.id s' = Step.id s ∧ rtc step_transition (Step.status s) (Step.status s').
Definition step_moves (s s' : Step.t) : Prop :=
  step_drifts s s' ∧ ∀ o, settled o (Step.status s) = true → settled o (Step.status s') = true.
Record moves (e e' : WorkflowExecution.t) : Prop := {
  mv_id : WorkflowExecution.id e' = WorkflowExecution.id e;
  mv_status : rtc workflow_transition (WorkflowExecution.status e) (WorkflowExecution.status e');
  mv_steps : Forall2 step_drifts (WorkflowExecution.steps e) (WorkflowExecution.steps e');
  mv_honest : honest e → honest e';
}.
#[export] Instance step_drifts_preorder : PreOrder step_drifts.
Proof. split; [done|]. intros s1 s2 s3 [? ?] [? ?]. split; [congruence|by etrans]. Qed.
#[export] Instance step_moves_preorder : PreOrder step_moves.
Proof. split; [done|]. intros s1 s2 s3 [? ?] [? ?]. split; [by etrans|by auto]. Qed.
#[export] Instance moves_preorder : PreOrder moves.
Proof. split; [by split|]. intros e1 e2 e3 [] []. split; [congruence|by etrans|by etrans|by auto]. Qed.

(** An outcome that says nothing of the steps. *)
Definition live (o : WorkflowStatus.t) : Prop := ∀ s, settled o s = true.
Lemma live_honest e : live (WorkflowExecution.status e) → honest e.
Proof. intros Hl. apply Forall_forall. by intros s _. Qed.
Lemma live_steps e e' :
  WorkflowExecution.status e' = WorkflowExecution.status e → live (WorkflowExecution.status e) → honest e'.
Proof. intros Heq Hl. apply live_honest. by rewrite Heq. Qed.

Definition step_drifting {A} (m : Step.method A) : Prop := ∀ s, step_drifts s (m s).2.
Definition step_moving {A} (m : Step.method A) : Prop := ∀ s, step_moves s (m s).2.
Definition moving {A} (m : WorkflowExecution.method A) : Prop := ∀ e, moves e (m e).2.

Section Moving.
Context {S : Type} (R : relation S) `{!PreOrder R}.
Lemma moving_bind {A B} (m : M exn S A) (k : A → M exn S B) s :
  R s (m s).2 → (∀ a s, R s (k a s).2) → R s (bind m k s).2.
Proof.
  intros Hm Hk. unfold bind. destruct (m s) as [[a|e] s']; [|done]. etrans; [exact Hm|apply Hk].
Qed.
End Moving.

Lemma step_transition_drifting new t : step_drifting (Step.transition_to new t).
Proof.
  intros s. unfold Step.transition_to, bind, getS, lift, assert_step_transition, modifyS, ret.
  case_bool_decide as Hs; [|done]. split; [by destruct (_ || _)|].
  destruct (_ || _); by apply rtc_once.
Qed.
Lemma step_transition_status new t s :
  Step.status (Step.transition_to new t s).2 =
    if bool_decide (new ∈ SS._STEP_TRANSITIONS (Step.status s)) then new else Step.status s.
Proof.
  unfold Step.transition_to, bind, getS, lift, assert_step_transition, modifyS, ret.
  case_bool_decide; [|done]. by destruct (_ || _).
Qed.
(** Starting and undoing a step need a live execution; a step that succeeded is
    not to be cancelled. *)
Lemma transition_settled new t s :
  (new ∈ [WorkflowStepStatus.RUNNING; WorkflowStepStatus.COMPENSATING] → False) →
  (new = WorkflowStepStatus.CANCELLED → Step.status s ≠ WorkflowStepStatus.SUCCEEDED) →
  step_moves s (Step.transition_to new t s).2.
Proof.
  intros H1 H2. split; [apply step_transition_drifting|]. intros o. rewrite step_transition_status.
  case_bool_decide as Hn; [|done]. destruct (Step.status s), new; try done;
    try (exfalso; apply H1; set_solver); try (exfalso; by apply H2); by destruct o.
Qed.
Definition plain_target (new : WorkflowStepStatus.t) : bool :=
  negb (bool_decide (new ∈ [WorkflowStepStatus.RUNNING; WorkflowStepStatus.COMPENSATING;
                            WorkflowStepStatus.CANCELLED])).
Lemma step_transition_moving new t : plain_target new = true → step_moving (Step.transition_to new t).
Proof.
  unfold plain_target. rewrite negb_true_iff, bool_decide_eq_false. intros Hn s.
  apply transition_settled; [|intros ->]; set_solver.
Qed.

Lemma drift_then {A} f (m : Step.method A) :
  (∀ s, step_drifts s (f s)) → step_drifting m → step_drifting (modifyS f ;;; m).
Proof. intros Hf Hm s. apply (moving_bind step_drifts); [apply Hf|intros []; apply Hm]. Qed.
Lemma step_then_moving {A} f (m : Step.method A) :
  (∀ s, step_moves s (f s)) → step_moving m → step_moving (modifyS f ;;; m).
Proof. intros Hf Hm s. apply (moving_bind step_moves); [apply Hf|intros []; apply Hm]. Qed.

Lemma mark_running_drifting t : step_drifting (Step.mark_running t).
Proof. apply drift_then; [done|apply step_transition_drifting]. Qed.
Lemma begin_compensation_drifting t : step_drifting (Step.begin_compensation t).
Proof. apply step_transition_drifting. Qed.
Lemma mark_succeeded_moving t i o : step_moving (Step.mark_succeeded t i o).
Proof. apply step_then_moving; [done|by apply step_transition_moving]. Qed.
Lemma mark_failed_moving t c msg : step_moving (Step.mark_failed t c msg).
Proof. apply step_then_moving; [done|by apply step_transition_moving]. Qed.
Lemma mark_compensated_moving t i : step_moving (Step.mark_compensated t i).
Proof. apply step_then_moving; [done|by apply step_transition_moving]. Qed.
Lemma mark_waiting_moving t : step_moving (Step.mark_waiting t).
Proof. by apply step_transition_moving. Qed.
Lemma step_modify_moving f : (∀ s, step_moves s (f s)) → step_moving (modifyS f).
Proof. intros Hf s. apply Hf. Qed.

(** ** Methods of an execution *)

Lemma transition_status new t e :
  WorkflowExecution.steps (WorkflowExecution.transition_to new t e).2 = WorkflowExecution.steps e ∧
  WorkflowExecution.id (WorkflowExecution.transition_to new t e).2 = WorkflowExecution.id e ∧
  WorkflowExecution.status (WorkflowExecution.transition_to new t e).2 =
    if bool_decide (new ∈ WS._WORKFLOW_TRANSITIONS (WorkflowExecution.status e)) then new
    else WorkflowExecution.status e.
Proof.
  unfold WorkflowExecution.transition_to, bind, getS, lift, assert_workflow_transition, modifyS, ret.
  case_bool_decide; [|done]. by destruct (WorkflowStatus.is_terminal new).
Qed.
(** An outcome may be declared when the steps bear it out. *)
Lemma transition_honest new t e :
  Forall (λ s, settled new (Step.status s) = true) (WorkflowExecution.steps e) →
  moves e (WorkflowExecution.transition_to new t e).2.
Proof.
  intros Hn. destruct (transition_status new t e) as (Hs & Hi & Hst). split; [done| |by rewrite Hs|].
  - rewrite Hst. case_bool_decide; [by apply rtc_once|done].
  - unfold honest. rewrite Hs, Hst. by case_bool_decide.
Qed.
Lemma transition_moving new t : live new → moving (WorkflowExecution.transition_to new t).
Proof. intros Hn e. apply transition_honest, Forall_forall. by intros s _. Qed.

Lemma on_step_shape i (m : Step.method unit) e (R : relation Step.t) `{!Reflexive R} :
  (∀ s, WorkflowExecution.steps e !! i = Some s → R s (m s).2) →
  Forall2 R (WorkflowExecution.steps e) (WorkflowExecution.steps (WorkflowExecution.on_step i m e).2) ∧
  WorkflowExecution.id (WorkflowExecution.on_step i m e).2 = WorkflowExecution.id e ∧
  WorkflowExecution.status (WorkflowExecution.on_step i m e).2 = WorkflowExecution.status e.
Proof.
  intros Hm. unfold WorkflowExecution.on_step. destruct (WorkflowExecution.steps e !! i) as [s|] eqn:Hi; [|done].
  specialize (Hm s eq_refl). destruct (m s) as [o s']. split; [|done]. cbn in Hm |- *.
  apply Forall2_same_length_lookup. split; [by rewrite length_insert|]. intros j x y Hx Hy.
  destruct (decide (j = i)) as [->|Hne].
  - rewrite list_lookup_insert_eq in Hy by (by eapply lookup_lt_Some). congruence.
  - rewrite list_lookup_insert_ne in Hy by done. by assert (x = y) as -> by congruence.
Qed.
Lemma on_step_moves i (m : Step.method unit) e :
  (∀ s, WorkflowExecution.steps e !! i = Some s → step_moves s (m s).2) →
  moves e (WorkflowExecution.on_step i m e).2.
Proof.
  intros Hm. destruct (on_step_shape i m e step_moves Hm) as (Hs & Hi & Hst). split; [done|by rewrite Hst| |].
  - eapply Forall2_impl; [exact Hs|]. by intros ? ? [].
  - unfold honest. rewrite Hst. intros He. revert Hs He. generalize (WorkflowExecution.steps e). intros l Hl.
    induction Hl as [|s s' l l' [_ Hss] _ IH]; [done|]. intros [? ?]%Forall_cons. constructor; auto.
Qed.
Lemma on_step_live i (m : Step.method unit) e :
  live (WorkflowExecution.status e) → step_drifting m → moves e (WorkflowExecution.on_step i m e).2.
Proof.
  intros Hl Hm. destruct (on_step_shape i m e step_drifts) as (Hs & Hi & Hst); [by intros s _|].
  split; [done|by rewrite Hst|done|]. intros _. by apply (live_steps e).
Qed.
Lemma on_step_moving i m : step_moving m → moving (WorkflowExecution.on_step i m).
Proof. intros Hm e. by apply on_step_moves. Qed.
Lemma modify_moving f : (∀ e, moves e (f e)) → moving (modifyS f).
Proof. intros Hf e. apply Hf. Qed.
Lemma then_moving {A B} (m : WorkflowExecution.method A) (k : A → WorkflowExecution.method B) :
  moving m → (∀ a, moving (k a)) → moving (bind m k).
Proof. intros Hm Hk e. apply (moving_bind moves); [done|intros a; apply Hk]. Qed.
Lemma ret_moving {A} (a : A) : moving (ret a).
Proof. by intros e. Qed.
Lemma for_steps_moving body :
  (∀ s m, body s = Some m → step_moves s (m s).2) → moving (for_steps body).
Proof.
  intros Hb. apply then_moving; [by intros e|]. intros e0. generalize (seq 0 (length (WorkflowExecution.steps e0))).
  intros l. induction l as [|i l IH]; [apply ret_moving|]. cbn. apply then_moving; [|intros []; exact IH].
  intros e. unfold bind, getS. destruct (_ !! i) as [s|] eqn:Hs; cbn; [|done].
  destruct (body s) as [m|] eqn:Hm; [|done]. apply on_step_moves. rewrite Hs. intros _ [= <-]. by apply Hb.
Qed.
Lemma promote_moving t : moving (WorkflowExecution.promote_ready_steps t).
Proof.
  apply then_moving; [by intros e|]. intros e0. generalize (seq 0 (length (WorkflowExecution.steps e0))).
  intros l. induction l as [|i l IH]; [apply ret_moving|]. cbn. apply then_moving.
  - apply then_moving; [by intros e|]. intros e. destruct (_ !! i) as [s|]; [|apply ret_moving].
    destruct (bool_decide _); [|apply ret_moving]. apply then_moving; [by intros e'|]. intros ok.
    destruct ok; [|apply ret_moving]. apply then_moving; [|intros []; apply ret_moving].
    by apply on_step_moving, step_transition_moving.
  - intros a. apply then_moving; [exact IH|intros; apply ret_moving].
Qed.

Create HintDb moves_db.
#[export] Hint Resolve mark_running_drifting begin_compensation_drifting mark_succeeded_moving mark_failed_moving
  mark_compensated_moving mark_waiting_moving promote_moving ret_moving : moves_db.
#[export] Hint Extern 1 (step_moving (Step.transition_to _ _)) => by apply step_transition_moving : moves_db.
#[export] Hint Extern 1 (step_moving (modifyS _)) => by apply step_modify_moving : moves_db.
#[export] Hint Extern 1 (moving (modifyS _)) => apply modify_moving; intros ?; by split : moves_db.
#[export] Hint Extern 1 (moving (WorkflowExecution.transition_to _ _)) => by apply transition_moving : moves_db.

Ltac moving_step :=
  lazymatch goal with
  | |- moving (bind _ _) => apply then_moving; [|intros ?]
  | |- moving (WorkflowExecution.on_step _ _) => apply on_step_moving
  | |- moving (if ?b then _ else _) => destruct b
  | |- moving (match ?x with _ => _ end) => destruct x
  | |- step_moving (if ?b then _ else _) => destruct b
  | |- _ => solve [eauto with moves_db]
  end.
Ltac moving_go := repeat moving_step.

Lemma settle_step_moving i step request_id dispatched t : moving (settle_step i step request_id dispatched t).
Proof. unfold settle_step. moving_go. Qed.
#[export] Hint Resolve settle_step_moving : moves_db.

(** ** Sweeping the steps of an execution that stops *)

Definition at_step (body : Step.t → option (Step.method unit)) (i : nat) : WorkflowExecution.method unit :=
  let* e := getS in
  match WorkflowExecution.steps e !! i ≫= body with
  | Some m => WorkflowExecution.on_step i m
  | None => ret tt
  end.
Section ForSteps.
Context (body : Step.t → option (Step.method unit)) (R : relation Step.t).
Context (HR : ∀ s, match body s with Some m => wp m (λ _ s', R s s') (λ _ _, True) s | None => R s s end).

Lemma wp_at_step e done_ s todo :
  WorkflowExecution.steps e = done_ ++ s :: todo →
  wp (at_step body (length done_))
    (λ _ e', ∃ s', WorkflowExecution.steps e' = done_ ++ s' :: todo ∧ R s s') (λ _ _, True) e.
Proof.
  intros He. unfold at_step. wp_step. wp_step. rewrite He, list_lookup_middle by done. cbn [mbind option_bind].
  specialize (HR s). destruct (body s) as [m|]; [|wp_step; by exists s].
  unfold WorkflowExecution.on_step, wp in *. rewrite He, list_lookup_middle by done.
  destruct (m s) as [[[]|ex] s']; [|done]. exists s'. split; [|done]. cbn.
  by rewrite <- (Nat.add_0_r (length done_)), insert_app_r.
Qed.
Lemma wp_at_steps todo : ∀ done_ done' e,
  WorkflowExecution.steps e = done' ++ todo → Forall2 R done_ done' →
  wp (for_each (seq (length done') (length todo)) (at_step body))
    (λ _ e', Forall2 R (done_ ++ todo) (WorkflowExecution.steps e')) (λ _ _, True) e.
Proof.
  induction todo as [|s todo IH]; intros done_ done' e He Hd; cbn [length seq for_each]; wp_step.
  { rewrite app_nil_r in He. by rewrite He, app_nil_r. }
  eapply wp_conseq; [by apply wp_at_step| |done]. intros [] e' (s' & He' & Hs').
  specialize (IH (done_ ++ [s]) (done' ++ [s']) e'). rewrite length_app, Nat.add_1_r, <- !app_assoc in IH.
  apply IH; [done|]. apply Forall2_app; [done|by constructor].
Qed.
Lemma for_steps_each e :
  wp (for_steps body) (λ _ e', Forall2 R (WorkflowExecution.steps e) (WorkflowExecution.steps e')) (λ _ _, True) e.
Proof. unfold for_steps. wp_step. wp_step. by apply (wp_at_steps _ [] []). Qed.
End ForSteps.

(** After the sweep of [cancel] or [enforce_deadline] no step is in flight. *)
Definition swept (e : WorkflowExecution.t) : Prop :=
  Forall (λ s, Step.status s ∉ [WorkflowStepStatus.RUNNING; WorkflowStepStatus.WAITING]) (WorkflowExecution.steps e).
Lemma for_steps_swept body e a e' :
  (∀ s, match body s with
        | Some m => wp m (λ _ s', Step.status s' ∉ [WorkflowStepStatus.RUNNING; WorkflowStepStatus.WAITING])
                      (λ _ _, True) s
        | None => Step.status s ∉ [WorkflowStepStatus.RUNNING; WorkflowStepStatus.WAITING]
        end) →
  for_steps body e = (Ret a, e') → swept e'.
Proof.
  intros Hb He. pose proof (for_steps_each body
    (λ _ s', Step.status s' ∉ [WorkflowStepStatus.RUNNING; WorkflowStepStatus.WAITING]) Hb e) as Hw.
  unfold wp in Hw. rewrite He in Hw. by eapply Forall2_Forall_r; [exact Hw|apply Forall_forall; auto].
Qed.
Lemma wp_step_transition new t (Q : unit → Step.t → Prop) (s : Step.t) :
  (∀ s', Step.status s' = new → Q tt s') → wp (Step.transition_to new t) Q (λ _ _, True) s.
Proof.
  intros HQ. unfold Step.transition_to, assert_step_transition. wp_go. case_bool_decide; [|done].
  wp_go; by apply HQ.
Qed.
Lemma cancel_sweep t e a e' : for_steps (cancel_open_step t) e = (Ret a, e') → swept e'.
Proof.
  apply for_steps_swept. intros s. unfold cancel_open_step. repeat case_bool_decide;
    try (apply wp_step_transition; intros s' ->; set_solver). set_solver.
Qed.
Lemma expire_sweep t e a e' : for_steps (expire_open_step t) e = (Ret a, e') → swept e'.
Proof.
  apply for_steps_swept. intros s. unfold expire_open_step, Step.mark_failed. repeat case_bool_decide;
    try (wp_go; apply wp_step_transition; intros s' ->; set_solver);
    try (apply wp_step_transition; intros s' ->; set_solver). set_solver.
Qed.
Lemma cancel_open_moves t s (l : list WorkflowStepStatus.t) :
  Step.status s ∈ l → WorkflowStepStatus.SUCCEEDED ∉ l →
  step_moves s (Step.transition_to WorkflowStepStatus.CANCELLED t s).2.
Proof. intros Hs Hl. apply transition_settled; [set_solver|]. intros _ Heq. by rewrite Heq in Hs. Qed.
Lemma cancel_sweep_moving t : moving (for_steps (cancel_open_step t)).
Proof.
  apply for_steps_moving. intros s m. unfold cancel_open_step.
  repeat case_bool_decide; intros [= <-]; [by eapply cancel_open_moves; [done|set_solver]|].
  apply (cancel_open_moves _ _ [WorkflowStepStatus.RUNNING]); set_solver.
Qed.
Lemma expire_sweep_moving t : moving (for_steps (expire_open_step t)).
Proof.
  apply for_steps_moving. intros s m. unfold expire_open_step.
  repeat case_bool_decide; intros [= <-]; [by eapply cancel_open_moves; [done|set_solver]|apply mark_failed_moving].
Qed.
#[export] Hint Resolve cancel_sweep_moving expire_sweep_moving : moves_db.

(** ** What bears out an outcome *)

Lemma swept_cancelled e :
  swept e → WorkflowExecution.has_succeeded_steps e = false →
  Forall (λ s, settled WorkflowStatus.CANCELLED (Step.status s) = true) (WorkflowExecution.steps e).
Proof.
  unfold swept, WorkflowExecution.has_succeeded_steps, WorkflowExecution.is_succeeded.
  induction (WorkflowExecution.steps e) as [|s l IH]; [done|]. intros [Hs Hl]%Forall_cons. cbn.
  rewrite orb_false_iff, bool_decide_eq_false. intros [Hn Hr]. constructor; [|by apply IH].
  cbn. rewrite bool_decide_false; [done|set_solver].
Qed.
Lemma unwound_settled e o :
  o = WorkflowStatus.CANCELLED ∨ o = WorkflowStatus.COMPENSATED → unwound e = true →
  Forall (λ s, settled o (Step.status s) = true) (WorkflowExecution.steps e).
Proof.
  intros Ho [Hu _]%andb_true_iff. apply Forall_forall. intros s Hs. rewrite forallb_forall in Hu.
  apply list_elem_of_In, Hu, bool_decide_eq_true in Hs. destruct Ho as [->| ->]; destruct (Step.status s); set_solver.
Qed.
Lemma succeeded_settled e :
  WorkflowExecution.all_forward_succeeded e = true →
  Forall (λ s, settled WorkflowStatus.SUCCEEDED (Step.status s) = true) (WorkflowExecution.steps e).
Proof.
  unfold WorkflowExecution.all_forward_succeeded. rewrite forallb_forall. intros Hu. apply Forall_forall.
  intros s Hs. by apply list_elem_of_In, Hu in Hs.
Qed.

(** * Rows *)

Lemma to_domain_moves row : moves row (workflow_execution_to_domain row).
Proof.
  split; [done|done| |].
  - cbn. by apply Forall2_fmap_r, Forall_Forall2_diag, Forall_true.
  - unfold honest. cbn. intros He. by apply Forall_fmap.
Qed.

Lemma find_at (done_ todo : list Step.t) s i :
  NoDup (Step.id <$> (done_ ++ s :: todo)) → i = Step.id s →
  list_find (λ row, Step.id row = i) (done_ ++ s :: todo) = Some (length done_, s).
Proof.
  intros Hnd ->. apply list_find_Some. split_and!; [|done|].
  - by rewrite list_lookup_middle.
  - intros j x Hj Hlt Heq. rewrite fmap_app in Hnd. apply NoDup_app in Hnd as (_ & Hn & _).
    rewrite lookup_app_l in Hj by done. apply (Hn (Step.id s)).
    + rewrite <- Heq. apply list_elem_of_fmap. exists x. split; [done|by eapply list_elem_of_lookup_2].
    + cbn. left.
Qed.

(** Each step row gets the values of its own step. *)
Lemma update_steps_kept todo : ∀ done_ rows rows' ss,
  NoDup (Step.id <$> (done_ ++ rows)) → Forall2 step_drifts rows todo →
  update_steps (done_ ++ rows) todo = Ret (rows', ss) →
  ∃ rows2, rows' = done_ ++ rows2 ∧ Forall2 kept_step rows rows2 ∧
    Forall2 (λ s row, Step.status row = Step.status s) todo rows2.
Proof.
  induction todo as [|s todo IH]; intros done_ rows rows' ss Hnd Hm Hu.
  { apply Forall2_nil_inv_r in Hm as ->. cbn in Hu. injection Hu as <- <-. by exists []. }
  apply Forall2_cons_inv_r in Hm as (r & rows0 & [Hid Hst] & Hm & ->). cbn -[step_update_values] in Hu.
  rewrite (find_at done_ rows0 r) in Hu by done.
  destruct (_ <? _) in Hu; [done|].
  set (r' := step_update_values (Step.version s `max` (Step.version r + 1)) s r) in *.
  assert (<[length done_ := r']> (done_ ++ r :: rows0) = (done_ ++ [r']) ++ rows0) as Hins.
  { rewrite <- (Nat.add_0_r (length done_)), insert_app_r. cbn. by rewrite <- app_assoc. }
  rewrite Hins in Hu. destruct (update_steps ((done_ ++ [r']) ++ rows0) todo) as [[rows1 ss1]|] eqn:Hrec; [|done].
  injection Hu as <- <-. destruct (IH (done_ ++ [r']) rows0 rows1 ss1) as (rows2 & -> & Hk & Hss); [|done|done|].
  - rewrite <- app_assoc. cbn. by rewrite !fmap_app in Hnd |- *.
  - exists (r' :: rows2). split_and!; [by rewrite <- app_assoc|..]; by constructor.
Qed.
Lemma update_steps_ids todo : ∀ rows rows' ss,
  (∀ s, s ∈ todo → Step.id s ∈ (Step.id <$> rows)) → update_steps rows todo = Ret (rows', ss) →
  Step.id <$> rows' = Step.id <$> rows.
Proof.
  induction todo as [|s todo IH]; intros rows rows' ss Hin Hu; cbn -[step_update_values] in Hu.
  { by injection Hu as <- <-. }
  destruct (list_find _ rows) as [[j row]|] eqn:Hf.
  - apply list_find_Some in Hf as (Hj & Hid & _). destruct (_ <? _) in Hu; [done|].
    set (rows1 := <[j := step_update_values _ s row]> rows) in *.
    assert (Step.id <$> rows1 = Step.id <$> rows) as Heq.
    { unfold rows1. rewrite list_fmap_insert. cbn. apply list_insert_id. by rewrite list_lookup_fmap, Hj. }
    destruct (update_steps rows1 todo) as [[rows2 ss2]|] eqn:Hrec; [|done]. injection Hu as <- <-.
    rewrite <- Heq. eapply IH; [|exact Hrec]. intros s' Hs'. rewrite Heq. apply Hin. by right.
  - exfalso. apply list_find_None in Hf. assert (Step.id s ∈ Step.id <$> rows) as Hs by (apply Hin; by left).
    apply list_elem_of_fmap in Hs as (row & Hid & Hrow). rewrite Forall_forall in Hf. by eapply Hf.
Qed.
Lemma drifts_ids l l' : Forall2 step_drifts l l' → Step.id <$> l' = Step.id <$> l.
Proof. induction 1 as [|s s' l l' [Hid _] _ IH]; [done|]. cbn. by rewrite Hid, IH. Qed.

(** ** The session's tables after an UPDATE of an execution *)

Definition put_execution (i : UUID) (e : WorkflowExecution.t) (T : tables) : tables :=
  T <| t_executions ::= insert i e |>.

Lemma virtual_put_execution s i e e0 :
  t_executions (working s) !! i = Some e0 →
  virtual (s <| working ::= put_execution i e |>) = put_execution i e (virtual s).
Proof.
  unfold virtual. cbn. generalize (working s) as T.
  induction (pending s) as [|n l IH]; intros T Hi; cbn; [done|].
  rewrite <- IH; [|destruct n; cbn; try done; by apply insert_absent_lookup_Some].
  f_equal. destruct n; try done.
  unfold put_execution, insert_row, set. cbn -[insert_absent]. by erewrite insert_absent_insert.
Qed.
Lemma virtual_execution s i e :
  t_executions (working s) !! i = Some e → t_executions (virtual s) !! i = Some e.
Proof.
  unfold virtual. generalize (working s) as T. induction (pending s) as [|n l IH]; intros T; cbn; [done|].
  intros Hi. apply IH. destruct n; cbn; try done. by apply insert_absent_lookup_Some.
Qed.
(** What a new version of an execution's row must satisfy. *)
Record progresses (e e' : WorkflowExecution.t) : Prop := {
  pr_distinct : distinct_steps e' → distinct_steps e;
  pr_evolves : distinct_steps e → evolves e e';
  pr_honest : distinct_steps e → honest e → honest e';
}.
Lemma grows_put_execution T i e e' :
  t_executions T !! i = Some e → progresses e e' → grows T (put_execution i e' T).
Proof.
  intros Hi [Hd He Hh]. pose proof kept_refl. pose proof kept_receipt_refl. pose proof kept_definition_refl.
  split; cbn; try done; try (by eauto).
  - intros j x Hx. destruct (decide (j = i)) as [->|Hne].
    + rewrite lookup_insert_eq. exists e'. split; [done|]. by assert (x = e) as -> by congruence.
    + rewrite lookup_insert_ne by done. by exists x.
  - intros HT j x. cbn. intros [[_ <-]|[_ Hx]]%lookup_insert_Some; [|by eapply HT]. intros Hd'. eapply Hh, HT; eauto.
Qed.

(** The session's row of an execution that [e] was loaded from. *)
Definition holds_exec (w : World) (e : WorkflowExecution.t) : Prop :=
  ∃ row, Executions.row_at (working (sess w)) (WorkflowExecution.id e) = Some row ∧ moves row e.

Lemma row_at_spec T i row :
  Executions.row_at T i = Some row ↔ t_executions T !! i = Some row ∧ WorkflowExecution.id row = i.
Proof.
  unfold Executions.row_at. destruct (t_executions T !! i) as [r|]; [|naive_solver].
  case_bool_decide; naive_solver.
Qed.
Lemma quiet_holds_exec w w' e : quiet w w' → holds_exec w e → holds_exec w' e.
Proof. unfold quiet, holds_exec. by intros (_ & -> & _). Qed.
Lemma moves_holds_exec w e e' : moves e e' → holds_exec w e → holds_exec w e'.
Proof. intros Hm (row & Hr & Hmv). exists row. rewrite (mv_id _ _ Hm). split; [done|by etrans]. Qed.

(** Changing the row of an execution along its machine, within the session. *)
Lemma wp_put_execution i e e' (Q : unit → World → Prop) X w :
  inside w → t_executions (working (sess w)) !! i = Some e → progresses e e' →
  (∀ w', inside w' → db w' = db w → Q tt w') →
  wp (modify_working (put_execution i e')) Q X w.
Proof.
  intros (HJ & Hv & Hg) Hi He HQ. unfold modify_working, modify_session. wp_step. apply HQ; [|done].
  assert (virtual (sess (w <| sess ::= (λ s, s <| working ::= put_execution i e' |>) |>)) =
    put_execution i e' (virtual (sess w))) as Hvirt by (by apply (virtual_put_execution (sess w) i e' e)).
  unfold inside. rewrite Hvirt. split_and!; [done|by eapply journaled_ext; [..|exact Hv]|].
  etrans; [exact Hg|]. eapply grows_put_execution; [by apply virtual_execution|done].
Qed.

Lemma wp_put_execution_alter i e f (Q : unit → World → Prop) X w :
  inside w → t_executions (working (sess w)) !! i = Some e → progresses e (f e) →
  (∀ w', inside w' → db w' = db w → Q tt w') →
  wp (modify_working (λ T, T <| t_executions ::= alter f i |>)) Q X w.
Proof.
  intros Hin Hi He HQ. pose proof (wp_put_execution i e (f e) Q X w Hin Hi He HQ) as Hwp. revert Hwp.
  unfold modify_working, modify_session, put_execution, wp, modifyS, set. cbn.
  by rewrite (alter_alt_Some _ _ _ _ Hi).
Qed.

Lemma update_progresses v row e step_rows steps :
  moves row e → update_steps (WorkflowExecution.steps row) (WorkflowExecution.steps e) = Ret (step_rows, steps) →
  progresses row (execution_update_values v e row <| WorkflowExecution.steps := step_rows |>).
Proof.
  intros Hm Hu.
  assert (distinct_steps row → ∃ rows2, step_rows = rows2 ∧ Forall2 kept_step (WorkflowExecution.steps row) rows2 ∧
    Forall2 (λ s row, Step.status row = Step.status s) (WorkflowExecution.steps e) rows2) as Hkept.
  { intros Hd. by apply (update_steps_kept _ [] _ step_rows steps Hd (mv_steps _ _ Hm)). }
  split.
  - unfold distinct_steps. cbn. intros Hd. rewrite <- (λ Hin, update_steps_ids _ _ _ _ Hin Hu); [done|].
    intros s Hs. rewrite <- (drifts_ids _ _ (mv_steps _ _ Hm)). by apply list_elem_of_fmap_2.
  - intros (rows2 & <- & Hk & _)%Hkept. by split; try apply Hm.
  - intros (rows2 & <- & _ & Hs)%Hkept Hr. apply (mv_honest _ _ Hm) in Hr. unfold honest in *. cbn.
    revert Hr. clear -Hs. induction Hs as [|s s' l l' Heq _ IH]; [done|]. intros [? ?]%Forall_cons.
    constructor; [by rewrite Heq|by auto].
Qed.

Lemma wp_update_execution e (Q : WorkflowExecution.t → World → Prop) X w :
  inside w → holds_exec w e →
  (∀ e' w', inside w' → db w' = db w → Q e' w') → (∀ ex, X ex w) →
  wp (Executions.update e) Q X w.
Proof.
  intros Hin (row & Hrow & Hm) HQ HX. unfold Executions.update. wp_step. unfold reading. wp_step. rewrite Hrow.
  wp_step; [wp_step; apply HX|]. wp_step. wp_step.
  destruct (update_steps _ _) as [[step_rows steps]|ex] eqn:Hu; [|apply HX]. wp_step.
  apply row_at_spec in Hrow as [Hrow Hid].
  set (v := Z.max _ _). pose proof (update_progresses v row e step_rows steps Hm Hu) as Hp.
  apply (wp_put_execution _ row _ _ _ _ Hin Hrow Hp).
  intros w' Hin' Hdb. wp_step. by apply HQ.
Qed.

(** * Transactions with an execution in hand *)

Section Tx.
Context `{Env}.

(** Computations that only add rows that record no status change. *)
Definition adds {A} (m : H A) : Prop := ∀ w, wp m (λ _ w', quiet w w') (λ _ w', db w' = db w) w.

Lemma adds_read {A} (m : H A) : read_only m → adds m.
Proof. intros Hm. exact (quiet_read_only m Hm). Qed.
Lemma adds_bind {A B} (m : H A) (k : A → H B) : adds m → (∀ a, adds (k a)) → adds (bind m k).
Proof.
  intros Hm Hk w. wp_step. eapply wp_conseq; [apply Hm| |done]. intros a w1 Hq. cbv beta in Hq.
  eapply wp_conseq; [apply Hk|..]; cbv beta.
  - intros b w2. by apply quiet_trans.
  - intros ex w2 ->. by apply quiet_db.
Qed.
Lemma adds_lift {A B} (o : outcome exn A) (k : A → H B) : (∀ a, o = Ret a → adds (k a)) → adds (bind (lift o) k).
Proof. intros Hk w. wp_step. wp_step. destruct o as [a|ex]; [by apply Hk|done]. Qed.
Lemma adds_row n : quiet_row n → adds (add_row n).
Proof. intros Hn w. by apply wp_add_quiet. Qed.

Lemma parse_correlation_reads v : read_only (parse_correlation v).
Proof. unfold parse_correlation. ro_go. Qed.

Lemma record_adds e act actor p n md : adds (_record e act actor p n md).
Proof.
  unfold _record. apply adds_bind; [apply adds_read; eauto with calm_db|intros t].
  apply adds_bind; [apply adds_read; eauto with calm_db|intros i].
  apply adds_bind; [apply adds_read, parse_correlation_reads|intros corr]. apply adds_lift. intros a Ha.
  apply adds_bind; [|intros _]; [|apply adds_bind; [apply adds_read; eauto with calm_db|intros oi];
    apply adds_bind; [apply adds_read; eauto with calm_db|intros ev];
    apply adds_bind; [apply adds_read, parse_correlation_reads|intros corr']; apply adds_lift; intros o _;
    by apply adds_row].
  apply adds_row. unfold AuditEvent.make in Ha. destruct (negb _); [done|]. destruct (negb _); [done|].
  injection Ha as <-. by intros j.
Qed.
Lemma creation_adds r actor md : adds (record_creation r actor md).
Proof. intros w. by apply wp_record_creation. Qed.
Lemma request_adds r :
  wf r → IntegrationRequest.status r = RequestStatus.RECEIVED → adds (Requests.add r).
Proof.
  intros Hwf Hs w. unfold Requests.add. wp_step. apply wp_add_row. intros w1 Hdb1 Hw1 Hp1.
  assert (quiet w w1) as Hq.
  { split_and!; [done|done|..]; rewrite (virtual_snoc (sess w) (sess w1) _ Hw1 Hp1);
      [intros HT; by apply journaled_new_request|by apply grows_insert]. }
  unfold Requests.track, modify_session. wp_go. exact Hq.
Qed.

(** [m] answers with the execution it leaves in hand, found by [f]. *)
Definition yields {A} (f : A → WorkflowExecution.t) (e : WorkflowExecution.t) (m : H A) : Prop :=
  ∀ w, wp m (λ a w', quiet w w' ∧ moves e (f a)) (λ _ w', db w' = db w) w.

Lemma yields_ret {A} (f : A → WorkflowExecution.t) e a : moves e (f a) → yields f e (ret a).
Proof. intros Hm w. wp_step. split; [by apply quiet_same|done]. Qed.
Lemma yields_raise {A} (f : A → WorkflowExecution.t) e ex : yields f e (raise ex).
Proof. by intros w. Qed.
Lemma yields_adds {A B} (f : B → WorkflowExecution.t) e (m : H A) (k : A → H B) :
  adds m → (∀ a, yields f e (k a)) → yields f e (bind m k).
Proof.
  intros Hm Hk w. wp_step. eapply wp_conseq; [apply Hm| |done]. intros a w1 Hq. cbv beta in Hq.
  eapply wp_conseq; [apply Hk|..]; cbv beta.
  - intros b w2 [Hq2 Hmv]. split; [by eapply quiet_trans|done].
  - intros ex w2 ->. by apply quiet_db.
Qed.
Lemma yields_on {A B} (f : B → WorkflowExecution.t) e e1 (m : WorkflowExecution.method A) k :
  moves e1 (m e1).2 → moves e e1 → (∀ a e', m e1 = (Ret a, e') → moves e e' → yields f e (k (a, e'))) →
  yields f e (bind (on e1 m) k).
Proof.
  intros Hm He Hk w. wp_step. wp_step. unfold wp at 1.
  destruct (m e1) as [[a|ex] e'] eqn:Hr; [|done]. apply Hk; [done|by etrans].
Qed.
Lemma yields_bind {A B} (g : A → WorkflowExecution.t) (f : B → WorkflowExecution.t) e (m : H A) (k : A → H B) :
  yields g e m → (∀ a, moves e (g a) → yields f e (k a)) → yields f e (bind m k).
Proof.
  intros Hm Hk w. wp_step. eapply wp_conseq; [apply Hm| |done]. intros a w1 [Hq Hmv].
  eapply wp_conseq; [by apply Hk|..]; cbv beta.
  - intros b w2 [Hq2 ?]. split; [by eapply quiet_trans|done].
  - intros ex w2 ->. by apply quiet_db.
Qed.
Lemma yields_on_last e e1 (m : WorkflowExecution.method unit) :
  moves e1 (m e1).2 → moves e e1 → yields snd e (on e1 m).
Proof.
  intros Hm He w. wp_step. unfold wp. destruct (m e1) as [[a|ex] e']; [|done].
  split; [by apply quiet_same|by etrans].
Qed.

(** The body of a unit of work that holds the execution [e]. *)
Definition journaling_exec {A} (e : WorkflowExecution.t) (body : H A) : Prop :=
  ∀ w, inside w → holds_exec w e → wp body (λ _ w', inside w' ∧ sound w w') (λ _ w', sound w w') w.

Lemma exec_drop {A} e (body : H A) : journaling body → journaling_exec e body.
Proof. intros Hb w Hin _. by apply Hb. Qed.
Lemma exec_load {A} i (k : option WorkflowExecution.t → H A) :
  journaling (k None) → (∀ e, WorkflowExecution.id e = i → journaling_exec e (k (Some e))) →
  journaling (bind (Executions.get_for_update i) k).
Proof.
  intros HN HS w Hin. wp_step. unfold Executions.get_for_update, Executions._load, reading. wp_step.
  destruct (Executions.row_at (working (sess w)) i) as [row|] eqn:Hr; cbn; [|by apply HN].
  pose proof (to_domain_moves row) as Hm. apply row_at_spec in Hr as Hr'. destruct Hr' as [_ Hid].
  assert (WorkflowExecution.id (workflow_execution_to_domain row) = i) as Hi by exact Hid.
  apply HS; [done|done|]. exists row. split; [|exact Hm].
  change (Executions.row_at (working (sess w)) (WorkflowExecution.id row) = Some row). by rewrite Hid.
Qed.
Lemma exec_adds {A B} e (m : H A) (k : A → H B) :
  adds m → (∀ a, journaling_exec e (k a)) → journaling_exec e (bind m k).
Proof.
  intros Hm Hk w Hin Hh. wp_step. eapply wp_conseq; [apply Hm|..].
  - intros a w1 Hq. cbv beta in Hq. eapply wp_conseq;
      [apply Hk; [by eapply quiet_inside|by eapply quiet_holds_exec]|..];
      unfold sound; by rewrite (quiet_db _ _ Hq).
  - intros ex w1 Hdb. by apply inside_sound.
Qed.
Lemma exec_lift {A B} e (o : outcome exn A) (k : A → H B) :
  (∀ a, o = Ret a → journaling_exec e (k a)) → journaling_exec e (bind (lift o) k).
Proof. intros Hk w Hin Hh. wp_step. wp_step. destruct o; [by apply Hk|by apply inside_sound]. Qed.
Lemma exec_on {A B} e (m : WorkflowExecution.method A) (k : A * WorkflowExecution.t → H B) :
  moves e (m e).2 → (∀ a e', m e = (Ret a, e') → moves e e' → journaling_exec e' (k (a, e'))) →
  journaling_exec e (bind (on e m) k).
Proof.
  intros Hm Hk w Hin Hh. wp_step. wp_step. unfold wp at 1.
  destruct (m e) as [[a|ex] e'] eqn:Hr; [|by apply inside_sound].
  apply Hk; [done|done|done|by eapply moves_holds_exec].
Qed.
Lemma exec_yields {A B} (f : A → WorkflowExecution.t) e (m : H A) (k : A → H B) :
  yields f e m → (∀ a, moves e (f a) → journaling_exec (f a) (k a)) → journaling_exec e (bind m k).
Proof.
  intros Hm Hk w Hin Hh. wp_step. eapply wp_conseq; [apply Hm|..].
  - intros a w1 [Hq Hmv]. eapply wp_conseq;
      [apply Hk; [done|by eapply quiet_inside|by eapply moves_holds_exec; [|eapply quiet_holds_exec]]|..];
      unfold sound; by rewrite (quiet_db _ _ Hq).
  - intros ex w1 Hdb. by apply inside_sound.
Qed.
Lemma exec_update {A} e (k : WorkflowExecution.t → H A) :
  (∀ e', journaling (k e')) → journaling_exec e (bind (Executions.update e) k).
Proof.
  intros Hk w Hin Hh. wp_step. apply wp_update_execution; [done|done| |].
  - intros e' w' Hin' Hdb. eapply wp_conseq; [by apply Hk|..]; unfold sound; by rewrite Hdb.
  - intros ex. by apply inside_sound.
Qed.
End Tx.

Create HintDb adds_db.
#[export] Hint Resolve record_adds creation_adds : adds_db.
#[export] Hint Extern 3 (adds _) => apply adds_read; solve [eauto with calm_db | ro_go] : adds_db.

(** ** What the code has checked before it declares an outcome *)

Lemma live_compensating o : negb (bool_decide (o = WorkflowStatus.COMPENSATING)) = false → live o.
Proof. rewrite negb_false_iff, bool_decide_eq_true. by intros -> s. Qed.
Lemma live_running o b : stopped o || b = false → live o.
Proof. intros [Hs _]%orb_false_iff s. by destruct o. Qed.
Lemma transition_succeeded e t b :
  WorkflowExecution.all_forward_succeeded e && b = true →
  moves e (WorkflowExecution.transition_to WorkflowStatus.SUCCEEDED t e).2.
Proof. intros [Ha _]%andb_true_iff. by apply transition_honest, succeeded_settled. Qed.
Lemma transition_unwound e (b : bool) t :
  unwound e = true →
  moves e (WorkflowExecution.transition_to
    (if b then WorkflowStatus.CANCELLED else WorkflowStatus.COMPENSATED) t e).2.
Proof. intros Hu. apply transition_honest, unwound_settled; [destruct b; auto|done]. Qed.
Lemma transition_swept e t :
  swept e → WorkflowExecution.has_succeeded_steps e = false →
  moves e (WorkflowExecution.transition_to WorkflowStatus.CANCELLED t e).2.
Proof. intros. by apply transition_honest, swept_cancelled. Qed.
Lemma deadline_swept f t e a e' :
  (modifyS f ;;; for_steps (expire_open_step t) ;;; WorkflowExecution.transition_to WorkflowStatus.TIMED_OUT t) e
    = (Ret a, e') → swept e'.
Proof.
  unfold bind at 1, modifyS. unfold bind at 1.
  destruct (for_steps (expire_open_step t) (f e)) as [[[]|ex] e1] eqn:Hr; [|done]. intros Ht.
  pose proof (transition_status WorkflowStatus.TIMED_OUT t e1) as (Hs & _). rewrite Ht in Hs. cbn in Hs.
  unfold swept. rewrite Hs. by eapply expire_sweep.
Qed.
Lemma found_cancelled e request_id i step (l : list WorkflowStepStatus.t) t :
  _step_for_request e request_id = Some (i, step) →
  negb (bool_decide (Step.status step ∈ l)) = false → WorkflowStepStatus.SUCCEEDED ∉ l →
  moves e (WorkflowExecution.on_step i (Step.transition_to WorkflowStepStatus.CANCELLED t) e).2.
Proof.
  rewrite negb_false_iff, bool_decide_eq_true. intros (Hi & _)%list_find_Some Hs Hl. apply on_step_moves.
  intros s Hi'. assert (s = step) as -> by congruence. by eapply cancel_open_moves.
Qed.
#[export] Hint Resolve live_compensating live_running transition_succeeded transition_unwound transition_swept
  cancel_sweep deadline_swept : moves_db.

(** The execution [e] moves when the method runs on it. *)
Ltac move_go :=
  first
  [ match goal with
    | |- moves ?e (?m ?e).2 => let Hm := fresh in assert (moving m) as Hm by solve [moving_go]; exact (Hm e)
    end
  | solve [apply on_step_live; eauto with moves_db]
  | solve [eauto with moves_db]
  | solve [eapply found_cancelled; [eassumption|eassumption|set_solver]]
  | solve [apply (moving_bind moves); [eauto with moves_db|intros ? ?; by split]] ].

(** Follow a transaction of the orchestrator. *)
Ltac yields_step :=
  lazymatch goal with
  | |- yields _ _ (ret _) => apply yields_ret; first [done | by etrans]
  | |- yields _ _ (raise _) => apply yields_raise
  | |- yields _ _ (bind (on _ _) _) => apply yields_on; [move_go|first [done | by etrans]|intros ? ? ? ?]
  | |- yields _ _ (on _ _) => apply yields_on_last; [move_go|first [done | by etrans]]
  | |- yields _ _ (bind (if _ then _ else _) _) => apply (yields_bind snd); [|intros [? ?] ?]
  | |- yields _ _ (bind _ _) => apply yields_adds; [solve [eauto with adds_db]|intros ?]
  | |- yields _ _ (if ?b then _ else _) => destruct b eqn:?
  | |- yields _ _ (match ?x with _ => _ end) => destruct x eqn:?
  end.
Ltac yields_go := cbn zeta; repeat yields_step.

Lemma refresh_yields `{Env} e e1 : moves e e1 → yields id e (_refresh_execution_status e1).
Proof. intros He. unfold _refresh_execution_status. yields_go. Qed.
Lemma past_deadline_reads e t : read_only (past_deadline e t).
Proof. unfold past_deadline. ro_go. Qed.
Lemma resume_yields `{Env} t is_ : ∀ e e1, moves e e1 → yields id e (resume_waiting t is_ e1).
Proof.
  induction is_ as [|i is_ IH]; intros e e1 He; cbn [resume_waiting]; [yields_go|].
  apply (yields_bind id); [|intros e2 He2; by apply IH].
  destruct (_ !! i) as [step|]; [|yields_go]. destruct (bool_decide _), (Step.integration_request_id step); yields_go.
Qed.

Lemma find_by_request_reads i : read_only (Executions.find_by_request_id i).
Proof. unfold Executions.find_by_request_id, Executions._load. ro_go. Qed.
Lemma execution_get_reads i : read_only (Executions.get i).
Proof. unfold Executions.get, Executions._load. eauto with calm_db. Qed.
Lemma by_key_reads k : read_only (Executions.get_by_idempotency_key k).
Proof. unfold Executions.get_by_idempotency_key, Executions._load. ro_go. Qed.
#[export] Hint Resolve parse_correlation_reads past_deadline_reads find_by_request_reads execution_get_reads
  by_key_reads : calm_db.

Ltac exec_step :=
  lazymatch goal with
  | |- journaling (bind (Executions.get_for_update _) _) => apply exec_load; [|intros ? ?]
  | |- journaling_exec _ (bind (Executions.get_for_update _) _) => apply exec_drop
  | |- journaling_exec _ (bind commit _) => apply exec_drop
  | |- journaling_exec _ (bind (Executions.update _) _) => apply exec_update; intros ?
  | |- journaling_exec _ (bind (on _ _) _) => apply exec_on; [move_go|intros ? ? ? ?]
  | |- journaling_exec _ (bind (lift _) _) => apply exec_lift; intros ? ?
  | |- journaling_exec _ (bind (_refresh_execution_status _) _) =>
      apply (exec_yields id); [by apply refresh_yields|intros ? ?]
  | |- journaling_exec _ (bind (resume_waiting _ _ _) _) =>
      apply (exec_yields id); [by apply resume_yields|intros ? ?]
  | |- journaling_exec _ (bind (Requests.add _) _) =>
      apply exec_adds; [apply request_adds; by eapply wf_create|intros ?]
  | |- journaling_exec _ (bind _ _) =>
      first [apply (exec_yields snd); [solve [yields_go]|intros [? ?] ?; cbn [snd]]
            |apply (exec_yields id); [solve [yields_go]|intros ? ?; cbn [id]]
            |apply exec_adds; [solve [eauto with adds_db]|intros ?]]
  | |- journaling_exec _ (if ?b then _ else _) => destruct b eqn:?
  | |- journaling_exec _ (match ?x with _ => _ end) => destruct x eqn:?
  | |- journaling_exec _ _ => apply exec_drop
  | |- journaling _ => first [uow_step | apply journaling_same; solve [eauto with calm_db]]
  end.
Ltac exec_go := cbn zeta; repeat exec_step.

Section Transactions.
Context `{Env} `{P : Platform}.

Lemma open_compensation_calm e s : calm (open_compensation e s).
Proof. apply calm_uow. exec_go. Qed.
Lemma close_compensation_calm e s r d : calm (close_compensation e s r d).
Proof. apply calm_uow. exec_go. Qed.
Lemma next_compensation_calm e : calm (next_compensation e).
Proof. apply calm_uow. exec_go. Qed.
Lemma cancel_tx_calm e a r : calm (cancel_tx e a r).
Proof. apply calm_uow. exec_go. Qed.
Lemma deadline_tx_calm e : calm (deadline_tx e).
Proof. apply calm_uow. exec_go. Qed.
Lemma open_step_calm e s : calm (open_step e s).
Proof. apply calm_uow. exec_go. Qed.
Lemma close_step_calm e s r d : calm (close_step e s r d).
Proof. apply calm_uow. exec_go. Qed.
Lemma advance_tx_calm e : calm (advance_tx e).
Proof. apply calm_uow. exec_go. Qed.
Lemma refresh_tx_calm e : calm (refresh_tx e).
Proof. apply calm_uow. exec_go. Qed.
Lemma report_tx_calm r : calm (report_tx r).
Proof. apply calm_uow. exec_go. Qed.
End Transactions.

(** * Handlers *)

#[export] Hint Resolve open_compensation_calm close_compensation_calm next_compensation_calm cancel_tx_calm
  deadline_tx_calm open_step_calm close_step_calm advance_tx_calm refresh_tx_calm report_tx_calm
  dispatch_calm calm_for_each : calm_db.

Section Handlers.
Context `{Env} `{P : Platform} {HP : PlatformOk P}.

Section HookedCalm.
Context (hook : option (UUID → H unit)) (Hhook : calm_hook hook).

Lemma compensate_step_calm continue e s :
  (∀ i, calm (continue i)) → calm (_compensate_step hook continue e s).
Proof. intros Hc. unfold _compensate_step. calm_go. Qed.
Lemma continue_compensation_calm depth : ∀ e, calm (_continue_compensation hook depth e).
Proof.
  induction depth as [|n IH]; intros e; cbn [_continue_compensation]; [apply calm_raise|].
  calm_go. by apply compensate_step_calm.
Qed.
#[local] Hint Resolve continue_compensation_calm : calm_db.
Lemma unwind_calm depth e : calm (unwind hook depth e).
Proof. unfold unwind, assert_some. calm_go. Qed.
#[local] Hint Resolve unwind_calm : calm_db.
Lemma cancel_workflow_calm depth e a r : calm (cancel hook depth e a r).
Proof. unfold cancel. calm_go. Qed.
Lemma enforce_deadline_calm depth e : calm (enforce_deadline hook depth e).
Proof. unfold enforce_deadline. calm_go. Qed.
#[local] Hint Resolve enforce_deadline_calm : calm_db.
Lemma run_forward_step_calm depth e s : calm (_run_forward_step hook depth e s).
Proof. unfold _run_forward_step. calm_go. Qed.
#[local] Hint Resolve run_forward_step_calm : calm_db.
Lemma advance_calm depth e : calm (advance hook depth e).
Proof. unfold advance. calm_go. Qed.
#[local] Hint Resolve advance_calm : calm_db.
Lemma report_calm depth r : calm (report hook depth r).
Proof. unfold report. calm_go. Qed.
End HookedCalm.

Lemma on_request_terminal_calm depth : ∀ r, calm (on_request_terminal depth r).
Proof.
  induction depth as [|n IH]; intros r; cbn [on_request_terminal]; [apply calm_raise|].
  apply report_calm. by intros f i [= <-].
Qed.
Lemma orchestrator_hook depth : calm_hook (Some (on_request_terminal depth)).
Proof. intros f i [= <-]. apply on_request_terminal_calm. Qed.

(** ** Starting and claiming *)

Lemma mark_immutable_journaling d : journaling (Definitions.mark_immutable d).
Proof.
  unfold Definitions.mark_immutable. uow_go. apply journaling_modify. intros T.
  unfold same_history. cbn. split_and!; try done.
  - intros i. destruct (t_receipts T !! i); [apply kept_receipt_refl|done].
  - intros i. destruct (decide (i = WorkflowDefinition.id d)) as [->|Hne].
    + rewrite lookup_alter_eq. by destruct (t_definitions T !! _).
    + rewrite lookup_alter_ne by done. by destruct (t_definitions T !! i).
Qed.
Lemma definition_reads name v : read_only (Definitions.get_by_name_version name v).
Proof. unfold Definitions.get_by_name_version, Definitions.load. ro_go. Qed.
Lemma record_journaling e act actor p n md : journaling (_record e act actor p n md).
Proof. apply journaling_quiet, record_adds. Qed.
Lemma new_steps_calm i t p l : calm (new_steps i t p l).
Proof. induction l as [|d l IH]; cbn [new_steps]; calm_go. Qed.
#[local] Hint Resolve mark_immutable_journaling definition_reads record_journaling new_steps_calm : calm_db.
Lemma calm_on_moves {A B} e (m : WorkflowExecution.method A) (k : A * WorkflowExecution.t → H B) :
  moves e (m e).2 → (∀ a e', moves e e' → calm (k (a, e'))) → calm (bind (on e m) k).
Proof.
  intros Hm Hk w Hw. wp_step. wp_step. unfold wp at 1.
  destruct (m e) as [[a|ex] e']; [by apply Hk|by split; [apply sound_refl|]].
Qed.
Lemma start_execution_calm d p corr k a dl : calm (start_execution d p corr k a dl).
Proof.
  unfold start_execution. apply calm_bind; [calm_go|intros [x|]; [calm_go|]].
  do 3 (apply calm_bind; [calm_go|intros ?]). cbn zeta. apply calm_on_moves; [move_go|].
  intros l e Hm. calm_go. apply calm_uow. unfold Executions.add. uow_go.
  apply journaling_add, (mv_honest _ _ Hm). by apply live_honest.
Qed.
Lemma ensure_definition_calm name build : calm (ensure_definition name build).
Proof.
  apply calm_uow. unfold Definitions.add. uow_go;
    first [by apply journaling_same, definition_reads|by apply journaling_add].
Qed.
#[local] Hint Resolve start_execution_calm ensure_definition_calm : calm_db.
Lemma start_workflow_calm hook depth c : calm_hook hook → calm (start_workflow hook depth c).
Proof. intros Hh. unfold start_workflow. calm_go. by apply advance_calm. Qed.

Lemma lease_progresses at_ until e : progresses e (Executions.lease at_ until e).
Proof. split; [done|by split|done]. Qed.
Lemma claim_each_execution at_ until ids : journaling (Executions.claim_each at_ until ids).
Proof.
  induction ids as [|i ids IH]; cbn [Executions.claim_each]; [apply journaling_ret|].
  intros w Hin. wp_step. unfold Executions._load, reading. wp_step.
  destruct (Executions.row_at (working (sess w)) i) as [row|] eqn:Hr; cbn [fmap option_fmap option_map]; [|by apply IH].
  apply row_at_spec in Hr as [Hr _]. wp_step.
  eapply (wp_put_execution_alter i row); [done|done|apply lease_progresses|]. intros w' Hin' Hdb.
  eapply wp_conseq; [apply (journaling_bind _ _ IH); [intros; apply journaling_ret|done]|..];
    unfold sound; by rewrite Hdb.
Qed.
Lemma workflow_worker_calm hook depth n lease :
  calm_hook hook → calm (workflow_run_once hook depth n lease).
Proof.
  intros Hh. unfold workflow_run_once. calm_go.
  - apply calm_uow. unfold Executions.claim_runnable. uow_go. apply claim_each_execution.
  - apply calm_for_each. intros e. unfold advance_claimed. apply calm_try; [|by intros ex k [= <-]; apply calm_ret].
    calm_go; [by apply continue_compensation_calm|by apply advance_calm].
Qed.
End Handlers.
