(* ===== verification/System.v ===== *)
(** The platform as a whole: the use cases the API serves and the batches the
    workers run, as one transition system over the shared database
    ([composition.py], [workers/runner.py]).

    A step is one run of one handler, whatever its outcome. Handlers of other
    processes that commit while a provider, the broker or the replay guard is
    being called are covered too: those calls are arbitrary [calm]
    computations, and every handler here is one. *)

From S2P Require Import Prelude PyData PyTime Enums Errors StateMachine ValueObjects Policies Entities RequestFacts.
From S2P Require Import Workflow Records Store Journal Ports Settlement Dispatcher Samples DispatcherFacts CreateRequest.
From S2P Require Import Operator WebhookIngestion Reconciliation Outbox Workers.
From S2P Require Import WorkflowStore Orchestrator OrchestratorFacts.

(** What the container wires in from outside the platform. *)
Class Externals := {
  float_repr : Q → string;
  py_repr : json → string;
  replay_claim : string → string → H bool;
  broker_publish : EventEnvelope → H unit;
  broker_publish_batch : list EventEnvelope → H unit;
}.

Class ExternalsOk (X : Externals) : Prop := {
  replay_claim_calm p s : calm (replay_claim p s);
  broker_publish_calm v : calm (broker_publish v);
  broker_publish_batch_calm vs : calm (broker_publish_batch vs);
}.

(** [WorkerSettings], as far as the batches read it, and the depth of nested
    calls the interpreter allows. *)
Record Settings := mk_settings {
  s_depth : nat;
  s_outbox : OutboxSettings;
  s_retry_batch_size : nat;
  s_reconciliation_batch_size : nat;
  s_reconciliation_stale_after_seconds : Z;
  s_reconciliation_manual_review_after_seconds : Z;
  s_webhook_deferred_retry_seconds : Q;
  s_webhook_deferred_batch_size : nat;
  s_webhook_deferred_abandon_after_seconds : Z;
  s_workflow_batch_size : nat;
  s_workflow_claim_lease_seconds : Q;
}.

(** The handlers: API use cases and worker batches. *)
Inductive handler : Type :=
  | Create (c : CreateIntegrationRequestCommand)
  | Cancel (c : OperatorCommand)
  | Retry (c : OperatorCommand)
  | Webhook (c : IngestWebhookCommand)
  | OutboxBatch
  | RetryBatch
  | WebhookBatch
  | ReconciliationBatch
  | StartWorkflow (c : StartWorkflowCommand)
  | CancelWorkflow (execution_id : UUID) (actor : Actor) (reason : option string)
  | WorkflowBatch.

Section System.
Context `{Env} `{P : Platform} `{X : Externals} (cfg : Settings).

(** [dispatcher._on_terminal = workflow_orchestrator.on_request_terminal] *)
Definition terminal_hook : option (UUID → H unit) := Some (on_request_terminal (s_depth cfg)).

Definition handle (h : handler) : H unit :=
  match h with
  | Create c => CreateRequest.execute float_repr terminal_hook c ;;; ret tt
  | Cancel c => CancelRequest.execute c ;;; ret tt
  | Retry c => RetryRequest.execute c ;;; ret tt
  | Webhook c => IngestWebhook.execute replay_claim (s_webhook_deferred_retry_seconds cfg)
                   terminal_hook c ;;; ret tt
  | OutboxBatch => Publisher.run_once broker_publish broker_publish_batch (s_outbox cfg) ;;; ret tt
  | RetryBatch => RetryWorker.run_once (s_retry_batch_size cfg) ;;; ret tt
  | WebhookBatch => WebhookProcessor.run_once py_repr (s_webhook_deferred_retry_seconds cfg)
                      terminal_hook (s_webhook_deferred_batch_size cfg)
                      (s_webhook_deferred_abandon_after_seconds cfg) ;;; ret tt
  | ReconciliationBatch => ReconciliationWorker.run_once (s_reconciliation_stale_after_seconds cfg)
                      (s_reconciliation_manual_review_after_seconds cfg)
                      (s_reconciliation_batch_size cfg) ;;; ret tt
  | StartWorkflow c => start_workflow terminal_hook (s_depth cfg) c ;;; ret tt
  | CancelWorkflow i actor reason => cancel terminal_hook (s_depth cfg) i actor reason ;;; ret tt
  | WorkflowBatch => workflow_run_once terminal_hook (s_depth cfg) (s_workflow_batch_size cfg)
                       (s_workflow_claim_lease_seconds cfg) ;;; ret tt
  end.

(** One handler runs, to its end or to its exception; or time passes and
    other processes draw identifiers. *)
Inductive step : World → World → Prop :=
  | step_handle h w : step w (handle h w).2
  | step_idle w w' : db w' = db w → step w w'.

(** What one deployment goes through, from the migrated empty database. *)
Definition reachable (w : World) : Prop := ∃ w0, db w0 = empty_tables ∧ rtc step w0 w.

Context {HP : PlatformOk P} {HX : ExternalsOk X}.

Lemma handle_calm h : calm (handle h).
Proof.
  pose proof replay_claim_calm. assert (calm_hook terminal_hook) as Hk by apply orchestrator_hook.
  pose proof broker_publish_calm. pose proof broker_publish_batch_calm.
  destruct h; unfold handle; (apply calm_bind; [|intros ?; apply calm_ret]);
    eauto using create_calm_execute, cancel_calm_execute, retry_calm, ingest_calm, publisher_calm,
      retry_worker_calm, webhook_worker_calm, reconciliation_worker_calm, start_workflow_calm,
      cancel_workflow_calm, workflow_worker_calm.
Qed.

Lemma calm_run {A} (m : H A) w : calm m → Journaled (db w) → sound w (m w).2.
Proof. intros Hm Hw. specialize (Hm w Hw). unfold wp in Hm. by destruct (m w) as [[a|e] w']; destruct Hm. Qed.

Lemma step_sound w w' : Journaled (db w) → step w w' → sound w w'.
Proof.
  intros HJ Hs. revert HJ. destruct Hs as [h w|w w' Hdb]; intros HJ;
    [apply calm_run; [apply handle_calm|done]|by apply sound_db].
Qed.

Lemma steps_sound w w' : Journaled (db w) → rtc step w w' → sound w w'.
Proof.
  intros HJ Hr. revert HJ. induction Hr as [w|w1 w2 w3 Hs _ IH]; intros HJ; [by apply sound_refl|].
  apply step_sound in Hs as Hs1; [|done]. eapply sound_trans; [exact Hs1|]. apply IH, Hs1.
Qed.
End System.

(** The statuses of a request at two points of a growing history are connected
    by the changes the audit trail gained in between. *)
Lemma replays_fun s l t u : replays s l t → replays s l u → t = u.
Proof.
  revert s. induction l as [|[a b] l IH]; intros s; cbn; [congruence|].
  intros (_ & _ & Ht) (_ & _ & Hu). by eapply IH.
Qed.

Lemma history_between T T' i r r' :
  Journaled T → Journaled T' → grows T T' →
  t_requests T !! i = Some r → t_requests T' !! i = Some r' →
  ∃ l, changes (t_audit T') i = changes (t_audit T) i ++ l ∧
       replays (IntegrationRequest.status r) l (IntegrationRequest.status r').
Proof.
  intros HT HT' Hg Hr Hr'. specialize (HT i). specialize (HT' i). rewrite Hr in HT. rewrite Hr' in HT'.
  destruct HT as (_ & _ & Hrep). destruct HT' as (_ & _ & Hrep').
  destruct (grows_audit _ _ Hg) as [k Hk]. exists (changes k i).
  assert (changes (t_audit T') i = changes (t_audit T) i ++ changes k i) as Heq
    by (rewrite Hk; unfold changes; apply omap_app).
  split; [done|]. rewrite Heq in Hrep'. apply replays_app in Hrep' as (u & Hu & Hl).
  by rewrite (replays_fun _ _ _ _ Hrep Hu).
Qed.

(** * Theorems *)

Module SystemTheorems.
Section Theorems.
Context `{Env} `{P : Platform} `{X : Externals} {HP : PlatformOk P} {HX : ExternalsOk X}.

(** C1. The audit trail is complete and truthful in every reachable state of the
    platform: whatever sequence of API calls, webhooks and worker batches ran,
    with whatever provider answers and failures, every stored request is
    well-formed and its status is exactly what replaying its audit rows from
    RECEIVED along allowed transitions gives; and no audit row claims a change
    of a request that does not exist. *)
Theorem audit_explains_every_state (cfg : Settings) (w : World) :
  reachable cfg w → Journaled (db w).
Proof.
  intros (w0 & Hz & Hr). apply (steps_sound cfg w0 w); [|done]. rewrite Hz. apply journaled_empty.
Qed.

(** C3. History is append-only. From any reachable state on, nothing the
    platform does deletes a request or a receipt, changes a request's provider,
    operation, references to its caller, correlation id, creation time,
    idempotency key or owner, alters a received webhook's identity or payload,
    rebinds an idempotency key, changes the steps of a workflow definition,
    deletes a workflow execution or swaps its definition, input or steps, or
    removes or edits an audit row. *)
Theorem history_is_append_only (cfg : Settings) (w w' : World) :
  reachable cfg w → rtc (step cfg) w w' → grows (db w) (db w').
Proof.
  intros (w0 & Hz & Hr) Hs. apply (steps_sound cfg w w'); [|done].
  apply (steps_sound cfg w0 w); [|done]. rewrite Hz. apply journaled_empty.
Qed.

(** C2. Requests only move along the state machine, and terminal outcomes are
    final. Between any two moments of a run the stored status of a request has
    followed allowed transitions, each of them recorded as an audit row in that
    time; and a request that was SUCCEEDED or CANCELLED stays so forever with
    no further change recorded. *)
Theorem statuses_follow_the_machine (cfg : Settings) (w w' : World) (i : UUID)
    (r : IntegrationRequest.t) :
  reachable cfg w → rtc (step cfg) w w' → t_requests (db w) !! i = Some r →
  ∃ r' l, t_requests (db w') !! i = Some r' ∧
    changes (t_audit (db w')) i = changes (t_audit (db w)) i ++ l ∧
    replays (IntegrationRequest.status r) l (IntegrationRequest.status r') ∧
    (RequestStatus.is_terminal (IntegrationRequest.status r) = true →
       l = [] ∧ IntegrationRequest.status r' = IntegrationRequest.status r).
Proof.
  intros (w0 & Hz & Hr) Hs Hi.
  assert (Journaled (db w)) as HJ.
  { apply (steps_sound cfg w0 w); [|done]. rewrite Hz. apply journaled_empty. }
  destruct (steps_sound cfg w w' HJ Hs) as [HJ' Hg].
  destruct (grows_requests _ _ Hg i r Hi) as (r' & Hi' & _).
  destruct (history_between _ _ i r r' HJ HJ' Hg Hi Hi') as (l & Hl & Hrep).
  exists r', l. split_and!; [done..|]. intros Ht. destruct l as [|[a b] l]; [by cbn in Hrep|].
  destruct Hrep as (<- & Hab & _). exfalso. revert Ht Hab.
  unfold transition. by destruct (IntegrationRequest.status r), b.
Qed.
End Theorems.

(** A deployment whose provider accepts everything, driven by hand. *)
#[local] Instance sample_externals : Externals :=
  {| float_repr _ := "0.0"; py_repr _ := ""; replay_claim _ _ := ret true; broker_publish _ := ret tt;
     broker_publish_batch _ := ret tt |}.
#[local] Instance sample_externals_ok : ExternalsOk sample_externals.
Proof. split; intros; apply calm_ret. Qed.
#[local] Instance sample_system : Platform := sample_platform accepted_result.

Definition sample_settings : Settings :=
  mk_settings 20 OutboxTheorems.sample_outbox_settings 25 50 300 3600 15 50 86400 25 60.
Definition run_handlers (hs : list handler) (w : World) : World :=
  foldl (λ w h, (handle sample_settings h w).2) w hs.
(** A client creates a request; the workers poll; the provider's webhook says
    the operation succeeded. *)
Definition created_world : World := run_handlers [Create (CreateTheorems.sample_command [])] CreateTheorems.empty_world.
Definition finished_world : World :=
  run_handlers [OutboxBatch; RetryBatch; Webhook WebhookTheorems.sample_ingest; WebhookBatch;
                ReconciliationBatch] created_world.

Lemma run_handlers_steps hs w : rtc (step sample_settings) w (run_handlers hs w).
Proof.
  revert w. induction hs as [|h hs IH]; intros w; [constructor|]. cbn.
  eapply rtc_l; [apply (step_handle _ h)|apply IH].
Qed.
Lemma created_reachable : reachable sample_settings created_world.
Proof. exists CreateTheorems.empty_world. split; [done|apply run_handlers_steps]. Qed.
Lemma finished_reachable : reachable sample_settings finished_world.
Proof.
  exists CreateTheorems.empty_world. split; [done|]. eapply rtc_trans; apply run_handlers_steps.
Qed.

Lemma audit_explains_every_state_witness :
  reachable sample_settings finished_world ∧ Journaled (db finished_world).
Proof.
  split; [apply finished_reachable|].
  apply (audit_explains_every_state sample_settings finished_world). apply finished_reachable.
Defined.

Lemma history_is_append_only_witness :
  rtc (step sample_settings) created_world finished_world ∧ grows (db created_world) (db finished_world).
Proof.
  split; [apply run_handlers_steps|].
  apply (history_is_append_only sample_settings created_world finished_world).
  - apply created_reachable.
  - apply run_handlers_steps.
Defined.

Definition created_row : IntegrationRequest.t :=
  default sample_request (t_requests (db created_world) !! 100%N).

Lemma statuses_follow_the_machine_witness :
  IntegrationRequest.status created_row = RequestStatus.PENDING ∧
  (IntegrationRequest.status <$> t_requests (db finished_world) !! 100%N) = Some RequestStatus.SUCCEEDED ∧
  ∃ r' l, t_requests (db finished_world) !! 100%N = Some r' ∧
    changes (t_audit (db finished_world)) 100 = changes (t_audit (db created_world)) 100 ++ l ∧
    replays (IntegrationRequest.status created_row) l (IntegrationRequest.status r') ∧
    (RequestStatus.is_terminal (IntegrationRequest.status created_row) = true →
       l = [] ∧ IntegrationRequest.status r' = IntegrationRequest.status created_row).
Proof.
  split; [vm_compute; reflexivity|]. split; [vm_compute; reflexivity|].
  apply (statuses_follow_the_machine sample_settings created_world finished_world 100 created_row).
  - apply created_reachable.
  - apply run_handlers_steps.
  - vm_compute. reflexivity.
Defined.
End SystemTheorems.
