(* ===== verification/Sagas.v ===== *)
(** Workflows in the running platform: the executions it stores follow their
    state machines, their outcomes are borne out by their steps, compensation
    undoes the latest step first, and what happens when the dispatcher's report
    has settled a step before the call that runs it. *)

From S2P Require Import Prelude PyData PyTime Enums Errors StateMachine ValueObjects Policies Entities RequestFacts.
From S2P Require Import Workflow Records Store Journal Ports Settlement Dispatcher Samples DispatcherFacts CreateRequest.
From S2P Require Import Workers WorkflowStore Orchestrator OrchestratorFacts System.

(** * Statuses that are final *)

Lemma workflow_final s s' :
  WS._WORKFLOW_TRANSITIONS s = [] → rtc workflow_transition s s' → s' = s.
Proof.
  intros Hs Hr. inversion Hr as [|? u ? Hsu]; [done|]. unfold workflow_transition in Hsu. rewrite Hs in Hsu.
  by apply elem_of_nil in Hsu.
Qed.

Lemma honest_empty : honest_executions empty_tables.
Proof. intros i e Hi. cbn in Hi. by rewrite lookup_empty in Hi. Qed.

(** * A transaction that loads one execution *)

Lemma wp_load_execution {A} i e (k : option WorkflowExecution.t → H A) Q X w :
  Executions.row_at (working (sess w)) i = Some e →
  wp (k (Some (workflow_execution_to_domain e))) Q X w →
  wp (bind (Executions.get_for_update i) k) Q X w.
Proof.
  intros Hr Hk. wp_step. unfold Executions.get_for_update, Executions._load, reading. wp_step. by rewrite Hr.
Qed.

Lemma step_index_at e k s :
  distinct_steps e → WorkflowExecution.steps e !! k = Some s → step_index e (Step.id s) = Ret (k, s).
Proof.
  intros Hd Hk. unfold step_index.
  assert (list_find (λ x, Step.id x = Step.id s) (WorkflowExecution.steps e) = Some (k, s)) as ->; [|done].
  apply list_find_Some. split_and!; [done|done|]. intros j x Hj Hlt Hid.
  assert (j = k) as ->; [|lia]. apply (NoDup_lookup _ _ _ (Step.id s) Hd);
    rewrite list_lookup_fmap; [by rewrite Hj, <- Hid|by rewrite Hk].
Qed.
Lemma distinct_domain e : distinct_steps e → distinct_steps (workflow_execution_to_domain e).
Proof. unfold distinct_steps. cbn. by rewrite <- list_fmap_compose. Qed.
Lemma domain_step e k s :
  WorkflowExecution.steps e !! k = Some s →
  WorkflowExecution.steps (workflow_execution_to_domain e) !! k = Some (workflow_step_to_domain s).
Proof. intros Hk. cbn. by rewrite list_lookup_fmap, Hk. Qed.

(** ** The exact effect of an UPDATE *)

(** Rows that an UPDATE of [s] does not find changed by others. *)
Definition current (row s : Step.t) : Prop := Step.id s = Step.id row ∧ Step.version row <= Step.version s.
Definition same_status (s row : Step.t) : Prop := Step.id row = Step.id s ∧ Step.status row = Step.status s.

Lemma update_steps_exact todo : ∀ done_ rows,
  NoDup (Step.id <$> (done_ ++ rows)) → Forall2 current rows todo →
  ∃ rows2 ss, update_steps (done_ ++ rows) todo = Ret (done_ ++ rows2, ss) ∧ Forall2 same_status todo rows2.
Proof.
  induction todo as [|s todo IH]; intros done_ rows Hnd Hc.
  { apply Forall2_nil_inv_r in Hc as ->. cbn. by exists [], []. }
  apply Forall2_cons_inv_r in Hc as (r & rows0 & [Hid Hv] & Hc & ->). cbn -[step_update_values].
  rewrite (find_at done_ rows0 r) by done. rewrite (proj2 (Z.ltb_ge _ _) Hv).
  set (r' := step_update_values (Step.version s `max` (Step.version r + 1)) s r).
  assert (<[length done_ := r']> (done_ ++ r :: rows0) = (done_ ++ [r']) ++ rows0) as ->.
  { rewrite <- (Nat.add_0_r (length done_)), insert_app_r. cbn. by rewrite <- app_assoc. }
  destruct (IH (done_ ++ [r']) rows0) as (rows2 & ss & -> & Hs); [|done|].
  - rewrite <- app_assoc. cbn. by rewrite !fmap_app in Hnd |- *.
  - exists (r' :: rows2). eexists. rewrite <- app_assoc. split; [done|]. by constructor.
Qed.

Lemma wp_update_exact e row (Q : WorkflowExecution.t → World → Prop) X w :
  Executions.row_at (working (sess w)) (WorkflowExecution.id e) = Some row → distinct_steps row →
  WorkflowExecution.version row <= WorkflowExecution.version e →
  Forall2 current (WorkflowExecution.steps row) (WorkflowExecution.steps e) →
  (∀ e' row' w', db w' = db w → pending (sess w') = pending (sess w) →
     working (sess w') = put_execution (WorkflowExecution.id e) row' (working (sess w)) →
     WorkflowExecution.status row' = WorkflowExecution.status e →
     Forall2 same_status (WorkflowExecution.steps e) (WorkflowExecution.steps row') → Q e' w') →
  wp (Executions.update e) Q X w.
Proof.
  intros Hrow Hd Hv Hc HQ. unfold Executions.update. wp_step. unfold reading. wp_step. rewrite Hrow.
  rewrite (proj2 (Z.ltb_ge _ _) Hv). wp_step. wp_step.
  destruct (update_steps_exact (WorkflowExecution.steps e) [] _ Hd Hc) as (rows2 & ss & Hu & Hs).
  cbn [app] in Hu. rewrite Hu. wp_step. unfold modify_working, modify_session. wp_step. wp_step. by eapply HQ.
Qed.
Lemma wp_commit_empty (Q : unit → World → Prop) X w :
  pending (sess w) = [] → (∀ w', db w' = working (sess w) → Q tt w') → wp commit Q X w.
Proof.
  intros Hp HQ. unfold commit, flush. wp_step. wp_step. wp_step. rewrite Hp. cbn [insert_all].
  unfold modify_session. wp_step. wp_step. by apply HQ.
Qed.

Lemma wp_on_step i m e s (Q : unit → WorkflowExecution.t → Prop) X :
  WorkflowExecution.steps e !! i = Some s →
  wp m (λ a s', Q a (e <| WorkflowExecution.steps ::= <[i := s']> |>))
       (λ ex s', X ex (e <| WorkflowExecution.steps ::= <[i := s']> |>)) s →
  wp (WorkflowExecution.on_step i m) Q X e.
Proof. intros Hi Hm. unfold wp, WorkflowExecution.on_step in *. rewrite Hi. by destruct (m s) as [[a|ex] s']. Qed.
Lemma wp_step_moves new t s (Q : unit → Step.t → Prop) X :
  step_transition (Step.status s) new →
  (∀ s', Step.id s' = Step.id s → Step.status s' = new → Step.version s' = Step.version s + 1 → Q tt s') →
  wp (Step.transition_to new t) Q X s.
Proof.
  intros Hs HQ. unfold Step.transition_to, assert_step_transition. wp_step. wp_step. wp_step. wp_step.
  rewrite bool_decide_true by done. wp_go; by apply HQ.
Qed.

Lemma same_status_insert steps k s s' rows :
  steps !! k = Some s → Step.id s' = Step.id s → Step.status s' = WorkflowStepStatus.COMPENSATING →
  Forall2 same_status (<[k := s']> (workflow_step_to_domain <$> steps)) rows →
  Forall2 same_status (<[k := s <| Step.status := WorkflowStepStatus.COMPENSATING |>]> steps) rows.
Proof.
  intros Hk Hid Hst Hr. apply Forall2_same_length_lookup in Hr as [Hlen Hr].
  rewrite length_insert, length_fmap in Hlen. apply Forall2_same_length_lookup.
  split; [by rewrite length_insert|]. intros j x y Hx Hy. destruct (decide (j = k)) as [->|Hne].
  - rewrite list_lookup_insert_eq in Hx by (by eapply lookup_lt_Some). injection Hx as <-.
    destruct (Hr k s' y) as [H1 H2]; [|done|].
    + rewrite list_lookup_insert_eq; [done|]. rewrite length_fmap. by eapply lookup_lt_Some.
    + split; cbn; congruence.
  - rewrite list_lookup_insert_ne in Hx by done.
    apply (Hr j (workflow_step_to_domain x) y); [|done]. by rewrite list_lookup_insert_ne, list_lookup_fmap, Hx.
Qed.

(** The step a compensation takes next. *)
Lemma reverse_head e s l :
  WorkflowExecution.succeeded_in_reverse e = s :: l →
  s ∈ WorkflowExecution.steps e ∧ Step.status s = WorkflowStepStatus.SUCCEEDED ∧
  ∀ x, x ∈ WorkflowExecution.steps e → Step.status x = WorkflowStepStatus.SUCCEEDED →
    WorkflowExecution.completion_key x <= WorkflowExecution.completion_key s.
Proof.
  intros Hr. destruct (WorkflowTheorems.saga_unwind_order e) as [Hp Hs]. rewrite Hr in Hp, Hs.
  assert (∀ x, x ∈ s :: l ↔ x ∈ WorkflowExecution.steps e ∧ Step.status x = WorkflowStepStatus.SUCCEEDED) as Hin.
  { intros x. rewrite Hp, list_elem_of_In, filter_In, <- list_elem_of_In. unfold WorkflowExecution.is_succeeded.
    by rewrite bool_decide_eq_true. }
  destruct (proj1 (Hin s)) as [H1 H2]; [by left|]. split_and!; [done..|]. intros x Hx Hxs.
  apply StronglySorted_inv in Hs as [_ Hs]. rewrite Forall_forall in Hs.
  pose proof (proj2 (Hin x) (conj Hx Hxs)) as [->|Hl]%elem_of_cons; [lia|by apply Hs].
Qed.

Lemma reverse_domain e s0 l :
  WorkflowExecution.succeeded_in_reverse (workflow_execution_to_domain e) = s0 :: l →
  ∃ k s, WorkflowExecution.steps e !! k = Some s ∧ s0 = workflow_step_to_domain s ∧
    Step.status s = WorkflowStepStatus.SUCCEEDED ∧
    ∀ x, x ∈ WorkflowExecution.steps e → Step.status x = WorkflowStepStatus.SUCCEEDED →
      WorkflowExecution.completion_key x <= WorkflowExecution.completion_key s.
Proof.
  intros (Hin & Hs & Hmax)%reverse_head. cbn in Hin. apply list_elem_of_fmap in Hin as (s & -> & Hin).
  apply list_elem_of_lookup_1 in Hin as [k Hk]. exists k, s. split_and!; [done..|].
  assert (∀ x, WorkflowExecution.completion_key (workflow_step_to_domain x) = WorkflowExecution.completion_key x)
    as Hkey by (intros x; unfold WorkflowExecution.completion_key; cbn -[instant];
      destruct (Step.completed_at x); apply instant_utc).
  intros x Hx Hxs. rewrite <- (Hkey x), <- (Hkey s). apply Hmax; [|done]. by apply list_elem_of_fmap_2.
Qed.
Lemma reverse_nil e :
  WorkflowExecution.succeeded_in_reverse (workflow_execution_to_domain e) = [] →
  WorkflowExecution.has_succeeded_steps e = false.
Proof.
  intros Hr. pose proof (WorkflowTheorems.saga_unwind_order (workflow_execution_to_domain e)) as [Hp _].
  rewrite Hr in Hp. apply Permutation_nil_l in Hp. unfold WorkflowExecution.has_succeeded_steps.
  destruct (existsb _ _) eqn:He; [|done]. apply existsb_exists in He as (s & Hin & Hs). exfalso.
  assert (workflow_step_to_domain s ∈ List.filter WorkflowExecution.is_succeeded
    (WorkflowExecution.steps (workflow_execution_to_domain e))) as Hf.
  { apply list_elem_of_In, filter_In. split; [|done]. apply list_elem_of_In, list_elem_of_fmap_2.
    by apply list_elem_of_In. }
  rewrite <- Hp in Hf. by apply elem_of_nil in Hf.
Qed.

Module SagaTheorems.
Section Workflows.
Context `{Env} `{P : Platform} `{X : Externals} {HP : PlatformOk P} {HX : ExternalsOk X}.

(** C6. Workflows only move along their state machines. From any reachable
    state on, a stored execution is never deleted, keeps its definition,
    correlation id, idempotency key and input and the identity, operation,
    dependencies and input of each of its steps; its status and the status of
    each step follow allowed transitions; and SUCCEEDED, COMPENSATED, CANCELLED
    and DEAD_LETTERED are final. *)
Theorem workflows_follow_the_machine (cfg : Settings) (w w' : World) (i : UUID) (e : WorkflowExecution.t) :
  reachable cfg w → rtc (step cfg) w w' → t_executions (db w) !! i = Some e → distinct_steps e →
  ∃ e', t_executions (db w') !! i = Some e' ∧ evolves e e' ∧
    (WorkflowExecution.status e ∈ [WorkflowStatus.SUCCEEDED; WorkflowStatus.COMPENSATED;
                                   WorkflowStatus.CANCELLED; WorkflowStatus.DEAD_LETTERED] →
     WorkflowExecution.status e' = WorkflowExecution.status e).
Proof.
  intros (w0 & Hz & Hr) Hs Hi Hd.
  assert (Journaled (db w)) as HJ.
  { apply (steps_sound cfg w0 w); [|done]. rewrite Hz. apply journaled_empty. }
  destruct (steps_sound cfg w w' HJ Hs) as [_ Hg].
  destruct (grows_executions _ _ Hg i e Hi) as (e' & Hi' & He). exists e'. specialize (He Hd). split_and!; [done..|].
  intros Hf. apply workflow_final; [|apply He]. by destruct (WorkflowExecution.status e); set_solver.
Qed.

(** C5. A workflow's outcome is borne out by its steps, in every reachable state
    of the platform: an execution stored as SUCCEEDED has carried out every
    step; one stored as COMPENSATED has no step that is done, in flight, waiting
    for a retry or half undone; one stored as CANCELLED has no step that is done
    or in flight. *)
Theorem workflow_outcomes_are_honest (cfg : Settings) (w : World) (i : UUID) (e : WorkflowExecution.t) (s : Step.t) :
  reachable cfg w → t_executions (db w) !! i = Some e → distinct_steps e → s ∈ WorkflowExecution.steps e →
  (WorkflowExecution.status e = WorkflowStatus.SUCCEEDED → Step.status s = WorkflowStepStatus.SUCCEEDED) ∧
  (WorkflowExecution.status e = WorkflowStatus.COMPENSATED →
     Step.status s ∉ [WorkflowStepStatus.SUCCEEDED; WorkflowStepStatus.RUNNING; WorkflowStepStatus.WAITING;
                      WorkflowStepStatus.COMPENSATING; WorkflowStepStatus.RETRY_SCHEDULED]) ∧
  (WorkflowExecution.status e = WorkflowStatus.CANCELLED →
     Step.status s ∉ [WorkflowStepStatus.SUCCEEDED; WorkflowStepStatus.RUNNING; WorkflowStepStatus.WAITING]).
Proof.
  intros (w0 & Hz & Hr) Hi Hd Hs.
  assert (sound w0 w) as [_ Hg]. { apply (steps_sound cfg w0 w); [|done]. rewrite Hz. apply journaled_empty. }
  assert (honest e) as He. { apply (grows_honest _ _ Hg) with i; [|done|done]. rewrite Hz. apply honest_empty. }
  unfold honest in He. rewrite Forall_forall in He. apply He in Hs.
  split_and!; intros Ho; rewrite Ho in Hs; cbn in Hs;
    by first [apply bool_decide_eq_true in Hs|apply negb_true_iff, bool_decide_eq_false in Hs].
Qed.

End Workflows.

Section Transactions.
Context `{Env}.

(** C40. A step that has been settled before the call that runs it comes back is
    a conflict. When a dispatch has succeeded and the stored step is neither
    RUNNING nor WAITING any more (the dispatcher's report, a cancellation or the
    deadline has settled it meanwhile), the closing transaction of
    [_run_forward_step] raises the invalid transition to SUCCEEDED and writes
    nothing. *)
Theorem settled_step_conflicts (w : World) (i request_id : UUID) (e : WorkflowExecution.t) (k : nat) (s : Step.t)
    (dispatched : IntegrationRequest.t) :
  t_executions (db w) !! i = Some e → WorkflowExecution.id e = i → distinct_steps e →
  WorkflowExecution.steps e !! k = Some s →
  Step.status s ∉ [WorkflowStepStatus.RUNNING; WorkflowStepStatus.WAITING] →
  IntegrationRequest.status dispatched = RequestStatus.SUCCEEDED →
  ∃ w', close_step i (Step.id s) request_id dispatched w =
          (Raise (InvalidStateTransitionError (Step.status s) WorkflowStepStatus.SUCCEEDED None None None), w') ∧
        db w' = db w.
Proof.
  intros Hi Hid Hd Hk Hs Hr.
  assert (wp (close_step i (Step.id s) request_id dispatched) (λ _ _, False)
    (λ ex w', ex = InvalidStateTransitionError (Step.status s) WorkflowStepStatus.SUCCEEDED None None None ∧
              db w' = db w) w) as Hw.
  2:{ unfold wp in Hw. destruct (close_step _ _ _ _ _) as [[a|ex] w']; [done|]. destruct Hw as [-> ?]. by exists w'. }
  unfold close_step. apply wp_with_uow. apply (wp_load_execution i e); [by apply row_at_spec|]. cbv beta iota.
  change (Step.id s) with (Step.id (workflow_step_to_domain s)).
  rewrite (step_index_at _ k (workflow_step_to_domain s)); [|by apply distinct_domain|by apply domain_step].
  wp_step. wp_step. cbv beta iota. wp_step. apply wp_now. intros w1 (Hdb & _). wp_step. wp_step.
  unfold settle_step. rewrite Hr. unfold WorkflowExecution.on_step, wp at 1. rewrite (domain_step _ _ _ Hk).
  unfold Step.mark_succeeded, Step.transition_to, bind, modifyS, getS, lift, assert_step_transition. cbn.
  rewrite bool_decide_false; [by rewrite Hdb|]. destruct (Step.status s); set_solver.
Qed.

(** C39. Compensation undoes the latest step first. For a stored execution that is
    COMPENSATING and has succeeded steps, the transaction of
    [_continue_compensation] returns the succeeded step that completed last, and
    commits exactly this: that step is COMPENSATING, every other step keeps its
    status, and the execution stays COMPENSATING. *)
Theorem latest_step_undone_first (w : World) (i : UUID) (e : WorkflowExecution.t) :
  t_executions (db w) !! i = Some e → WorkflowExecution.id e = i → distinct_steps e →
  WorkflowExecution.status e = WorkflowStatus.COMPENSATING → WorkflowExecution.has_succeeded_steps e = true →
  ∃ k s e' w', next_compensation i w = (Ret (Some (Step.id s)), w') ∧
    WorkflowExecution.steps e !! k = Some s ∧ Step.status s = WorkflowStepStatus.SUCCEEDED ∧
    (∀ x, x ∈ WorkflowExecution.steps e → Step.status x = WorkflowStepStatus.SUCCEEDED →
       WorkflowExecution.completion_key x <= WorkflowExecution.completion_key s) ∧
    db w' = put_execution i e' (db w) ∧ WorkflowExecution.status e' = WorkflowStatus.COMPENSATING ∧
    Forall2 same_status (<[k := s <| Step.status := WorkflowStepStatus.COMPENSATING |>]> (WorkflowExecution.steps e))
      (WorkflowExecution.steps e').
Proof.
  intros Hi Hid Hd Hst Hsu. set (d := workflow_execution_to_domain e).
  destruct (WorkflowExecution.succeeded_in_reverse d) as [|s0 l] eqn:Hrev; [apply reverse_nil in Hrev; congruence|].
  destruct (reverse_domain e s0 l Hrev) as (k & s & Hk & -> & Hss & Hmax).
  assert (wp (next_compensation i) (λ o w', o = Some (Step.id s) ∧ ∃ e',
    db w' = put_execution i e' (db w) ∧ WorkflowExecution.status e' = WorkflowStatus.COMPENSATING ∧
    Forall2 same_status (<[k := s <| Step.status := WorkflowStepStatus.COMPENSATING |>]> (WorkflowExecution.steps e))
      (WorkflowExecution.steps e')) (λ _ _, False) w) as Hw.
  2:{ unfold wp in Hw. destruct (next_compensation i w) as [[o|ex] w']; [|done].
      destruct Hw as (-> & e' & ?). by exists k, s, e', w'. }
  unfold next_compensation. apply wp_with_uow. apply (wp_load_execution i e); [by apply row_at_spec|]. cbv beta iota.
  fold d. change (WorkflowExecution.status d) with (WorkflowExecution.status e). rewrite Hst. cbn [negb bool_decide].
  rewrite bool_decide_true by done. cbn [negb]. wp_step. apply wp_now. intros w1 Hw1. rewrite Hrev.
  rewrite (step_index_at _ k); [|by apply distinct_domain|by apply domain_step].
  wp_step. wp_step. cbv beta iota. wp_step. wp_step.
  eapply wp_on_step; [by apply domain_step|]. apply wp_step_moves; [unfold step_transition; cbn; rewrite Hss; by left|].
  intros s' Hid' Hst' Hv'. cbv beta iota. wp_step. set (e1 := d <| WorkflowExecution.steps ::= <[k := s']> |>).
  assert (Forall2 current (WorkflowExecution.steps e) (WorkflowExecution.steps e1)) as Hc.
  { cbn. apply Forall2_same_length_lookup. split; [by rewrite length_insert, length_fmap|].
    intros j x y Hx. rewrite list_lookup_insert_Some, list_lookup_fmap, Hx. cbn.
    intros [(<- & <- & _)|(_ & [= <-])]; [|done]. assert (x = s) as -> by congruence.
    split; [by rewrite Hid'|]. rewrite Hv'. cbn. lia. }
  apply (wp_update_exact e1 e); [|done|cbn; lia|done|].
  - apply row_at_spec. destruct Hw1 as (_ & -> & _). cbn. by rewrite Hid.
  - intros e2 row' w2 Hdb2 Hp2 Hwk2 Hst2 Hss2. wp_step. apply wp_commit_empty.
    { rewrite Hp2. by destruct Hw1 as (_ & _ & ->). }
    intros w3 Hdb3. wp_step. split; [done|]. exists row'. cbn. rewrite Hdb3, Hwk2.
    destruct Hw1 as (_ & -> & _). cbn. rewrite Hid. split_and!; [done|by rewrite Hst2|].
    eapply same_status_insert; [exact Hk|exact Hid'|exact Hst'|exact Hss2].
Qed.
End Transactions.

(** ** Runs *)

(** Three providers; the first two finish at once, and [last] is what the third
    answers. *)
Definition done_result : ProviderOperationResult :=
  result_success NormalizedStatus.SUCCEEDED None (Some "done") [] None.
Definition saga_platform (last : ProviderOperationResult) : Platform :=
  {| gateways := {[ "northstar" := sample_gateway done_result sample_event;
                    "meridian" := sample_gateway done_result sample_event;
                    "cobalt" := sample_gateway last sample_event ]};
     retry_policies := {[ "northstar" := sample_policy; "meridian" := sample_policy; "cobalt" := sample_policy ]};
     circuit_policies := ∅ |}.
#[local] Instance saga_platform_ok last : PlatformOk (saga_platform last).
Proof.
  split; intros s g x Hg; cbn in Hg; repeat (apply lookup_insert_Some in Hg as [[_ <-]|[_ Hg]]; [apply calm_ret|]);
    by (rewrite lookup_empty in Hg || (apply lookup_singleton_Some in Hg as [_ <-]; apply calm_ret)).
Qed.
Definition client : Actor := mk_actor ActorType.API_CLIENT (Some "client").
Definition sample_start : StartWorkflowCommand :=
  mk_start CUSTOMER_ONBOARDING 1 [] "corr" (Some "wf-1") client None.
Definition run_saga (last : ProviderOperationResult) (h : handler) (w : World) : outcome exn unit * World :=
  @handle sample_env (saga_platform last) SystemTheorems.sample_externals SystemTheorems.sample_settings h w.
Definition statuses (w : World) : list (WorkflowStatus.t * list WorkflowStepStatus.t) :=
  map (λ e, (WorkflowExecution.status e, map Step.status (WorkflowExecution.steps e))) (Executions.rows (db w)).

(** The client starts an onboarding whose last provider only accepts, and
    cancels it. *)
Definition waiting_world : World := (run_saga accepted_result (StartWorkflow sample_start) CreateTheorems.empty_world).2.
Definition cancelled_world : World := (run_saga accepted_result (CancelWorkflow 101 client None) waiting_world).2.
Definition waiting_saga : WorkflowExecution.t := hd WorkflowTheorems.sample_saga (Executions.rows (db waiting_world)).
Definition cancelled_saga : WorkflowExecution.t :=
  hd WorkflowTheorems.sample_saga (Executions.rows (db cancelled_world)).

Example cancelled_run :
  statuses waiting_world = [(WorkflowStatus.WAITING,
    [WorkflowStepStatus.SUCCEEDED; WorkflowStepStatus.SUCCEEDED; WorkflowStepStatus.WAITING])] ∧
  statuses cancelled_world = [(WorkflowStatus.CANCELLED,
    [WorkflowStepStatus.COMPENSATED; WorkflowStepStatus.COMPENSATED; WorkflowStepStatus.CANCELLED])].
Proof. split; vm_compute; reflexivity. Qed.

(** With providers that all finish at once the workflow is carried out and stored
    as SUCCEEDED, yet the call that started it raises. *)
Definition done_run : outcome exn unit * World :=
  run_saga done_result (StartWorkflow sample_start) CreateTheorems.empty_world.
Definition done_saga : WorkflowExecution.t := hd WorkflowTheorems.sample_saga (Executions.rows (db done_run.2)).
Example successful_start_raises :
  statuses done_run.2 = [(WorkflowStatus.SUCCEEDED,
    [WorkflowStepStatus.SUCCEEDED; WorkflowStepStatus.SUCCEEDED; WorkflowStepStatus.SUCCEEDED])] ∧
  done_run.1 = Raise (InvalidStateTransitionError WorkflowStepStatus.SUCCEEDED WorkflowStepStatus.SUCCEEDED
                        None None None).
Proof. split; vm_compute; reflexivity. Qed.

Lemma distinct_by e :
  bool_decide (NoDup (Step.id <$> WorkflowExecution.steps e)) = true → distinct_steps e.
Proof. apply bool_decide_eq_true. Qed.
Lemma waiting_reachable :
  @reachable _ (saga_platform accepted_result) SystemTheorems.sample_externals SystemTheorems.sample_settings
    waiting_world.
Proof.
  exists CreateTheorems.empty_world. split; [done|].
  apply rtc_once, (step_handle _ (StartWorkflow sample_start) CreateTheorems.empty_world).
Qed.
Lemma cancelled_step :
  rtc (@step _ (saga_platform accepted_result) SystemTheorems.sample_externals SystemTheorems.sample_settings)
    waiting_world cancelled_world.
Proof. apply rtc_once, (step_handle _ (CancelWorkflow 101 client None) waiting_world). Qed.

Lemma workflows_follow_the_machine_witness :
  ∃ e', t_executions (db cancelled_world) !! 101%N = Some e' ∧ evolves waiting_saga e'.
Proof.
  destruct (@workflows_follow_the_machine sample_env (saga_platform accepted_result) SystemTheorems.sample_externals
    (saga_platform_ok _) SystemTheorems.sample_externals_ok SystemTheorems.sample_settings waiting_world cancelled_world 101 waiting_saga)
    as (e' & Hi & He & _).
  - apply waiting_reachable.
  - apply cancelled_step.
  - vm_compute. reflexivity.
  - apply distinct_by. vm_compute. reflexivity.
  - exists e'. split; [exact Hi|exact He].
Defined.

Lemma workflow_outcomes_are_honest_witness :
  WorkflowExecution.status cancelled_saga = WorkflowStatus.CANCELLED ∧
  ∀ s, s ∈ WorkflowExecution.steps cancelled_saga →
    Step.status s ∉ [WorkflowStepStatus.SUCCEEDED; WorkflowStepStatus.RUNNING; WorkflowStepStatus.WAITING].
Proof.
  split; [vm_compute; reflexivity|]. intros s Hs.
  apply (@workflow_outcomes_are_honest sample_env (saga_platform accepted_result) SystemTheorems.sample_externals
    (saga_platform_ok _) SystemTheorems.sample_externals_ok SystemTheorems.sample_settings cancelled_world 101 cancelled_saga s).
  - destruct waiting_reachable as (w0 & Hz & Hr). exists w0. split; [done|].
    eapply rtc_trans; [exact Hr|apply cancelled_step].
  - vm_compute. reflexivity.
  - apply distinct_by. vm_compute. reflexivity.
  - exact Hs.
  - vm_compute. reflexivity.
Defined.

Lemma settled_step_conflicts_witness :
  ∃ s w', WorkflowExecution.steps done_saga !! 0%nat = Some s ∧
    close_step 101 (Step.id s) 7 (request_after succeeded_calls) done_run.2 =
      (Raise (InvalidStateTransitionError (Step.status s) WorkflowStepStatus.SUCCEEDED None None None), w').
Proof.
  destruct (WorkflowExecution.steps done_saga !! 0%nat) as [s|] eqn:Hs; [|vm_compute in Hs; discriminate Hs].
  destruct (settled_step_conflicts done_run.2 101 7 done_saga 0 s (request_after succeeded_calls)) as (w' & Hw & _).
  - vm_compute. reflexivity.
  - vm_compute. reflexivity.
  - apply distinct_by. vm_compute. reflexivity.
  - exact Hs.
  - vm_compute in Hs. injection Hs as <-. cbn [Step.status]. set_solver.
  - vm_compute. reflexivity.
  - exists s, w'. split; [exact eq_refl|exact Hw].
Defined.

(** The moment after a cancellation has been recorded. *)
Definition unwinding_world : World := (cancel_tx 101 client None waiting_world).2.
Definition unwinding_saga : WorkflowExecution.t :=
  hd WorkflowTheorems.sample_saga (Executions.rows (db unwinding_world)).
Lemma latest_step_undone_first_witness :
  map Step.status (WorkflowExecution.steps unwinding_saga) =
    [WorkflowStepStatus.SUCCEEDED; WorkflowStepStatus.SUCCEEDED; WorkflowStepStatus.CANCELLED] ∧
  ∃ k s w', next_compensation 101 unwinding_world = (Ret (Some (Step.id s)), w') ∧
    WorkflowExecution.steps unwinding_saga !! k = Some s.
Proof.
  split; [vm_compute; reflexivity|].
  destruct (latest_step_undone_first unwinding_world 101 unwinding_saga) as (k & s & e' & w' & Hn & Hk & _).
  - vm_compute. reflexivity.
  - vm_compute. reflexivity.
  - apply distinct_by. vm_compute. reflexivity.
  - vm_compute. reflexivity.
  - vm_compute. reflexivity.
  - exists k, s, w'. split; [exact Hn|exact Hk].
Defined.
End SagaTheorems.
