(* ===== verification/Schema.v ===== *)
(** The database schema: the tables the models declare
    ([infrastructure/db/models.py]) and the five revisions that build them
    ([migrations/versions/]).

    A schema is data; a revision is a list of DDL operations up and one down, and
    an operation that the database would refuse stops the migration. Alembic and
    SQLAlchemy are read as documented: an [Enum] that is not native is a [VARCHAR]
    of its length with no CHECK constraint of its own ([create_constraint] is off
    by default), a primary key without a name gets the one of the naming
    convention, and [func.now()] and [text("now()")] are the same default. The names
    that the revisions give their CHECK constraints are not final: [env.py] hands
    Alembic the models' metadata, whose convention for CHECKs prefixes the name it is
    given, so a name that is written with its prefix gets it twice. (PostgreSQL's
    limit of 63 characters, beyond which SQLAlchemy abbreviates such a name with a
    hash, is not modelled.) *)

From S2P Require Import Prelude PyData Enums.

(** * Schemas *)

Inductive sql_type : Type :=
  | PgUUID
  | VARCHAR (length : Z)
  | ENUM (values : list string) (length : Z)
  | TEXT
  | INTEGER
  | BOOLEAN
  | JSONB
  | TIMESTAMPTZ.
#[export] Instance sql_type_eq_dec : EqDecision sql_type.
Proof. solve_decision. Defined.
(** What the database is told. *)
Definition ddl_type (t : sql_type) : sql_type := match t with ENUM _ n => VARCHAR n | _ => t end.

Inductive server_default : Type :=
  | Literal (text : string)
  | Expression (text : string).
#[export] Instance server_default_eq_dec : EqDecision server_default.
Proof. solve_decision. Defined.

Record column := mk_column {
  c_name : string;
  c_type : sql_type;
  c_nullable : bool;
  c_default : option server_default;
}.
#[export] Instance column_eq_dec : EqDecision column.
Proof. solve_decision. Defined.

(** [c >= n] and [c IN (...)] *)
Inductive predicate : Type :=
  | AtLeast (col : string) (n : Z)
  | OneOf (col : string) (values : list string).
#[export] Instance predicate_eq_dec : EqDecision predicate.
Proof. solve_decision. Defined.
Inductive ondelete : Type := NoAction | SetNull | Cascade.
#[export] Instance ondelete_eq_dec : EqDecision ondelete.
Proof. solve_decision. Defined.
Inductive constraint : Type :=
  | PrimaryKey (cols : list string)
  | Unique (cols : list string)
  | Check_ (p : predicate)
  | ForeignKey (col : string) (referred_table referred_column : string) (rule : ondelete).
#[export] Instance constraint_eq_dec : EqDecision constraint.
Proof. solve_decision. Defined.

Record index := mk_index { i_columns : list string; i_where : option string }.
#[export] Instance index_eq_dec : EqDecision index.
Proof. solve_decision. Defined.

(** Constraints and indexes by name. *)
Record table := mk_table {
  t_columns : list column;
  t_constraints : gmap string constraint;
  t_indexes : gmap string index;
}.
#[export] Instance table_eq_dec : EqDecision table.
Proof. solve_decision. Defined.
#[export] Instance eta_table : Eta table := λ t, mk_table (t_columns t) (t_constraints t) (t_indexes t).
Definition schema : Type := gmap string table.

Definition column_names (t : table) : list string := c_name <$> t_columns t.
Definition has_column (t : table) (c : string) : bool := bool_decide (c ∈ column_names t).

(** * Operations

    [None] is an error of the database, which rolls the migration back. *)

Inductive ddl : Type :=
  | CreateTable (name : string) (columns : list column) (constraints : list (string * constraint))
  | DropTable (name : string)
  | AddColumn (table_name : string) (c : column)
  | DropColumn (table_name column_name : string)
  | CreateIndex (name table_name : string) (cols : list string) (postgresql_where : option string)
  | DropIndex (name table_name : string)
  | CreateCheckConstraint (name table_name : string) (p : predicate)
  | DropCheckConstraint (name table_name : string).

(** The columns a constraint or an index rests on. *)
Definition predicate_column (p : predicate) : string := match p with AtLeast c _ | OneOf c _ => c end.
Definition constraint_columns (c : constraint) : list string :=
  match c with
  | PrimaryKey cols | Unique cols => cols
  | Check_ p => [predicate_column p]
  | ForeignKey col _ _ _ => [col]
  end.
Definition involves (col : string) (i : index) : bool :=
  bool_decide (col ∈ i_columns i) || match i_where i with Some w => Str.contains col w | None => false end.

(** A referred column has to be there and be unique on its own. *)
Definition unique_column (t : table) (col : string) : bool :=
  existsb (λ kv, bool_decide (kv.2 = PrimaryKey [col]) || bool_decide (kv.2 = Unique [col])) (map_to_list (t_constraints t)).
Definition reference_ok (s : schema) (c : constraint) : bool :=
  match c with
  | ForeignKey _ referred col _ => match s !! referred with Some t => has_column t col && unique_column t col | None => false end
  | _ => true
  end.
Definition refers_to (name : string) (t : table) : bool :=
  existsb (λ kv, match kv.2 with ForeignKey _ referred _ _ => bool_decide (referred = name) | _ => false end)
    (map_to_list (t_constraints t)).
(** Indexes share one name space. *)
Definition index_exists (s : schema) (name : string) : bool :=
  existsb (λ kv, bool_decide (is_Some (t_indexes kv.2 !! name))) (map_to_list s).

Definition on_table (s : schema) (name : string) (f : table → option table) : option schema :=
  match s !! name with
  | Some t => match f t with Some t' => Some (<[name := t']> s) | None => None end
  | None => None
  end.

(** The convention for CHECKs, applied to the names in a revision. *)
Definition ck_name (table_name constraint_name : string) : string := "ck_" +:+ table_name +:+ "_" +:+ constraint_name.
Definition convened (table_name : string) (kc : string * constraint) : string * constraint :=
  match kc.2 with Check_ _ => (ck_name table_name kc.1, kc.2) | _ => kc end.

Definition apply_ddl (d : ddl) (s : schema) : option schema :=
  match d with
  | CreateTable name columns constraints =>
      let names := c_name <$> columns in
      let constraints := convened name <$> constraints in
      if bool_decide (is_Some (s !! name)) || negb (bool_decide (NoDup names)) || negb (bool_decide (NoDup constraints.*1)) ||
         negb (forallb (λ kv, forallb (λ c, bool_decide (c ∈ names)) (constraint_columns kv.2) && reference_ok s kv.2) constraints)
      then None
      else Some (<[name := mk_table columns (list_to_map constraints) ∅]> s)
  | DropTable name =>
      if existsb (λ kv, negb (bool_decide (kv.1 = name)) && refers_to name kv.2) (map_to_list s) then None
      else match s !! name with Some _ => Some (delete name s) | None => None end
  | AddColumn table_name c =>
      on_table s table_name (λ t,
        if has_column t (c_name c) then None else Some (t <| t_columns ::= λ l, l ++ [c] |>))
  | DropColumn table_name column_name =>
      on_table s table_name (λ t,
        if negb (has_column t column_name) then None
        else Some (mk_table (List.filter (λ c, negb (bool_decide (c_name c = column_name))) (t_columns t))
               (filter (λ kv, column_name ∉ constraint_columns kv.2) (t_constraints t))
               (filter (λ kv, involves column_name kv.2 = false) (t_indexes t))))
  | CreateIndex name table_name cols postgresql_where =>
      on_table s table_name (λ t,
        if index_exists s name || negb (forallb (has_column t) cols) then None
        else Some (t <| t_indexes ::= <[name := mk_index cols postgresql_where]> |>))
  | DropIndex name table_name =>
      on_table s table_name (λ t,
        match t_indexes t !! name with Some _ => Some (t <| t_indexes ::= delete name |>) | None => None end)
  | CreateCheckConstraint name table_name p =>
      let name := ck_name table_name name in
      on_table s table_name (λ t,
        if bool_decide (is_Some (t_constraints t !! name)) || negb (has_column t (predicate_column p)) then None
        else Some (t <| t_constraints ::= <[name := Check_ p]> |>))
  | DropCheckConstraint name table_name =>
      let name := ck_name table_name name in
      on_table s table_name (λ t,
        match t_constraints t !! name with Some _ => Some (t <| t_constraints ::= delete name |>) | None => None end)
  end.
Fixpoint migrate (ds : list ddl) (s : schema) : option schema :=
  match ds with
  | [] => Some s
  | d :: ds' => match apply_ddl d s with Some s' => migrate ds' s' | None => None end
  end.

Record revision := mk_revision {
  rev_id : string;
  down_revision : option string;
  upgrade : list ddl;
  downgrade : list ddl;
}.

(** Columns. *)
Definition required (name : string) (ty : sql_type) : column := mk_column name ty false None.
Definition optional (name : string) (ty : sql_type) : column := mk_column name ty true None.
Definition defaulted (name : string) (ty : sql_type) (d : server_default) : column := mk_column name ty false (Some d).
Definition now_default : server_default := Expression "now()".

(** * 8f3c1a9d2b74: the initial schema *)

Definition REQUEST_STATUSES : list string :=
  ["received"; "validating"; "dispatching"; "pending"; "succeeded"; "failed"; "retry_scheduled"; "cancelled"; "manual_review"].
Definition OPERATION_TYPES : list string :=
  ["resource_provision"; "resource_deprovision"; "resource_update"; "access_grant"; "access_revoke"].
Definition WEBHOOK_PROCESSING_STATUSES : list string :=
  ["received"; "processed"; "duplicate"; "deferred"; "rejected"; "failed"; "abandoned"].
Definition AUDIT_ACTIONS : list string :=
  ["request.received"; "request.validated"; "provider.selected"; "dispatch.attempted"; "provider.accepted"; "provider.rejected";
   "provider.failed"; "retry.scheduled"; "retry.requested"; "retry.exhausted"; "webhook.received"; "webhook.rejected";
   "webhook.duplicate_ignored"; "webhook.deferred"; "webhook.applied"; "webhook.abandoned"; "state.reconciled";
   "state.reconciliation_mismatch"; "state.manual_review"; "request.cancelled"; "request.cancellation_rejected";
   "provider.circuit_opened"; "provider.circuit_closed"; "state.invalid_transition"].
Definition ACTOR_TYPES : list string :=
  ["api_client"; "webhook"; "retry_worker"; "reconciliation_worker"; "outbox_publisher"; "system"].
Definition _constrained (values : list string) (length : Z) : sql_type := ENUM values length.

Definition create_integration_requests : list ddl :=
  [CreateTable "integration_requests"
     [required "id" PgUUID; required "provider" (VARCHAR 40);
      required "operation_type" (_constrained OPERATION_TYPES 48);
      required "external_reference" (VARCHAR 255); required "normalized_payload" JSONB;
      optional "provider_payload" JSONB; optional "provider_reference" (VARCHAR 255);
      required "status" (_constrained REQUEST_STATUSES 32);
      optional "idempotency_key" (VARCHAR 255); defaulted "attempt_count" INTEGER (Literal "0");
      required "correlation_id" (VARCHAR 128); optional "last_error_code" (VARCHAR 128);
      optional "last_error_message" TEXT; optional "last_error_category" (VARCHAR 64);
      optional "manual_review_reason" TEXT; optional "next_retry_at" TIMESTAMPTZ;
      defaulted "created_at" TIMESTAMPTZ now_default; defaulted "updated_at" TIMESTAMPTZ now_default;
      optional "completed_at" TIMESTAMPTZ; defaulted "version" INTEGER (Literal "0")]
     [("pk_integration_requests", PrimaryKey ["id"]);
      ("uq_integration_requests_idempotency_key", Unique ["idempotency_key"]);
      ("uq_integration_requests_provider_provider_reference", Unique ["provider"; "provider_reference"]);
      ("ck_integration_requests_attempt_count_non_negative", Check_ (AtLeast "attempt_count" 0));
      ("ck_integration_requests_version_non_negative", Check_ (AtLeast "version" 0))];
   CreateIndex "ix_integration_requests_status_next_retry_at" "integration_requests" ["status"; "next_retry_at"] None;
   CreateIndex "ix_integration_requests_provider_created_at" "integration_requests" ["provider"; "created_at"] None;
   CreateIndex "ix_integration_requests_external_reference" "integration_requests" ["external_reference"] None;
   CreateIndex "ix_integration_requests_created_at_id" "integration_requests" ["created_at"; "id"] None;
   CreateIndex "ix_integration_requests_status_updated_at" "integration_requests" ["status"; "updated_at"] None].

Definition create_webhook_receipts : list ddl :=
  [CreateTable "webhook_receipts"
     [required "id" PgUUID; required "provider" (VARCHAR 40); required "event_id" (VARCHAR 255);
      required "event_type" (VARCHAR 128); optional "provider_reference" (VARCHAR 255);
      required "signature_metadata" JSONB; required "payload" JSONB;
      required "processing_status" (_constrained WEBHOOK_PROCESSING_STATUSES 32);
      optional "integration_request_id" PgUUID; optional "correlation_id" (VARCHAR 128); optional "failure_reason" TEXT;
      defaulted "attempt_count" INTEGER (Literal "0"); required "received_at" TIMESTAMPTZ;
      optional "processed_at" TIMESTAMPTZ; optional "next_attempt_at" TIMESTAMPTZ]
     [("pk_webhook_receipts", PrimaryKey ["id"]);
      ("uq_webhook_receipts_provider_event_id", Unique ["provider"; "event_id"]);
      ("ck_webhook_receipts_attempt_count_non_negative", Check_ (AtLeast "attempt_count" 0));
      ("fk_webhook_receipts_integration_request_id_integration_requests",
        ForeignKey "integration_request_id" "integration_requests" "id" SetNull)];
   CreateIndex "ix_webhook_receipts_processing_status_received_at" "webhook_receipts" ["processing_status"; "received_at"] None;
   CreateIndex "ix_webhook_receipts_processing_status_next_attempt_at" "webhook_receipts"
     ["processing_status"; "next_attempt_at"] None;
   CreateIndex "ix_webhook_receipts_integration_request_id" "webhook_receipts" ["integration_request_id"] None].

Definition create_audit_events : list ddl :=
  [CreateTable "audit_events"
     [required "id" PgUUID; required "aggregate_type" (VARCHAR 64); required "aggregate_id" (VARCHAR 128);
      required "action" (_constrained AUDIT_ACTIONS 64); required "actor" (_constrained ACTOR_TYPES 48);
      optional "actor_id" (VARCHAR 255); optional "previous_state" (VARCHAR 48); optional "new_state" (VARCHAR 48);
      required "correlation_id" (VARCHAR 128); required "metadata" JSONB; required "occurred_at" TIMESTAMPTZ]
     [("pk_audit_events", PrimaryKey ["id"])];
   CreateIndex "ix_audit_events_aggregate_type_aggregate_id_occurred_at" "audit_events"
     ["aggregate_type"; "aggregate_id"; "occurred_at"] None;
   CreateIndex "ix_audit_events_correlation_id" "audit_events" ["correlation_id"] None].

Definition create_outbox_events : list ddl :=
  [CreateTable "outbox_events"
     [required "id" PgUUID; required "event_id" PgUUID; required "event_type" (VARCHAR 128);
      required "event_version" INTEGER; required "aggregate_type" (VARCHAR 64); required "aggregate_id" (VARCHAR 128);
      required "payload" JSONB; required "correlation_id" (VARCHAR 128); optional "causation_id" (VARCHAR 128);
      optional "partition_key" (VARCHAR 128); required "created_at" TIMESTAMPTZ; optional "published_at" TIMESTAMPTZ;
      defaulted "attempt_count" INTEGER (Literal "0"); optional "next_attempt_at" TIMESTAMPTZ; optional "last_error" TEXT]
     [("pk_outbox_events", PrimaryKey ["id"]);
      ("uq_outbox_events_event_id", Unique ["event_id"]);
      ("ck_outbox_events_event_version_positive", Check_ (AtLeast "event_version" 1));
      ("ck_outbox_events_attempt_count_non_negative", Check_ (AtLeast "attempt_count" 0))];
   CreateIndex "ix_outbox_events_unpublished" "outbox_events" ["next_attempt_at"; "created_at"]
     (Some "published_at IS NULL");
   CreateIndex "ix_outbox_events_published_at_created_at" "outbox_events" ["published_at"; "created_at"] None;
   CreateIndex "ix_outbox_events_aggregate_id" "outbox_events" ["aggregate_id"] None].

Definition create_idempotency_records : list ddl :=
  [CreateTable "idempotency_records"
     [required "key" (VARCHAR 255); required "fingerprint" (VARCHAR 64); required "request_id" PgUUID;
      required "response_status" INTEGER; required "created_at" TIMESTAMPTZ; optional "expires_at" TIMESTAMPTZ]
     [("pk_idempotency_records", PrimaryKey ["key"]);
      ("fk_idempotency_records_request_id_integration_requests",
        ForeignKey "request_id" "integration_requests" "id" Cascade)];
   CreateIndex "ix_idempotency_records_request_id" "idempotency_records" ["request_id"] None;
   CreateIndex "ix_idempotency_records_expires_at" "idempotency_records" ["expires_at"] None].

Definition initial_schema : revision := {|
  rev_id := "8f3c1a9d2b74";
  down_revision := None;
  upgrade := create_integration_requests ++ create_webhook_receipts ++ create_audit_events ++ create_outbox_events ++
             create_idempotency_records;
  downgrade := [DropTable "idempotency_records"; DropTable "outbox_events"; DropTable "audit_events";
                DropTable "webhook_receipts"; DropTable "integration_requests"] |}.

(** * 20260802_a1b2c3d4e5f6: dead letters of the outbox *)

Definition outbox_dead_letter : revision := {|
  rev_id := "20260802_a1b2c3d4e5f6";
  down_revision := Some "8f3c1a9d2b74";
  upgrade :=
    [AddColumn "outbox_events" (optional "dead_lettered_at" TIMESTAMPTZ);
     DropIndex "ix_outbox_events_unpublished" "outbox_events";
     CreateIndex "ix_outbox_events_unpublished" "outbox_events" ["next_attempt_at"; "created_at"]
       (Some "published_at IS NULL AND dead_lettered_at IS NULL");
     CreateIndex "ix_outbox_events_dead_lettered_at" "outbox_events" ["dead_lettered_at"]
       (Some "dead_lettered_at IS NOT NULL")];
  downgrade :=
    [DropIndex "ix_outbox_events_dead_lettered_at" "outbox_events";
     DropIndex "ix_outbox_events_unpublished" "outbox_events";
     CreateIndex "ix_outbox_events_unpublished" "outbox_events" ["next_attempt_at"; "created_at"]
       (Some "published_at IS NULL");
     DropColumn "outbox_events" "dead_lettered_at"] |}.

(** * 20260803_b2c3d4e5f6a7: workflow tables *)

Definition create_workflow_definitions : list ddl :=
  [CreateTable "workflow_definitions"
     [required "id" PgUUID; required "name" (VARCHAR 128); required "version" INTEGER; required "steps" JSONB;
      defaulted "immutable" BOOLEAN (Expression "false"); defaulted "created_at" TIMESTAMPTZ now_default]
     [("pk_workflow_definitions", PrimaryKey ["id"]);
      ("uq_workflow_definitions_name_version", Unique ["name"; "version"])]].
Definition create_workflow_executions : list ddl :=
  [CreateTable "workflow_executions"
     [required "id" PgUUID; required "definition_id" PgUUID; required "definition_name" (VARCHAR 128);
      required "definition_version" INTEGER; required "status" (VARCHAR 32); required "correlation_id" (VARCHAR 64);
      optional "idempotency_key" (VARCHAR 255); required "input_payload" JSONB; optional "manual_review_reason" TEXT;
      defaulted "version" INTEGER (Literal "1"); defaulted "created_at" TIMESTAMPTZ now_default;
      defaulted "updated_at" TIMESTAMPTZ now_default; optional "completed_at" TIMESTAMPTZ]
     [("pk_workflow_executions", PrimaryKey ["id"]);
      ("fk_workflow_executions_definition_id", ForeignKey "definition_id" "workflow_definitions" "id" NoAction);
      ("uq_workflow_executions_idempotency_key", Unique ["idempotency_key"])];
   CreateIndex "ix_workflow_executions_status" "workflow_executions" ["status"] None;
   CreateIndex "ix_workflow_executions_updated_at" "workflow_executions" ["updated_at"] None].
Definition create_workflow_step_executions : list ddl :=
  [CreateTable "workflow_step_executions"
     [required "id" PgUUID; required "workflow_execution_id" PgUUID; required "step_key" (VARCHAR 64);
      required "provider" (VARCHAR 40); required "operation_type" (VARCHAR 48); required "depends_on" JSONB;
      optional "compensate_operation" (VARCHAR 48); defaulted "wait_for_webhook" BOOLEAN (Expression "false");
      required "status" (VARCHAR 32); defaulted "attempt_count" INTEGER (Literal "0");
      defaulted "max_attempts" INTEGER (Literal "3"); optional "integration_request_id" PgUUID;
      optional "compensation_request_id" PgUUID; required "input_payload" JSONB; optional "output_payload" JSONB;
      optional "error_code" (VARCHAR 128); optional "error_message" TEXT; defaulted "version" INTEGER (Literal "1");
      defaulted "created_at" TIMESTAMPTZ now_default; defaulted "updated_at" TIMESTAMPTZ now_default;
      optional "completed_at" TIMESTAMPTZ]
     [("pk_workflow_step_executions", PrimaryKey ["id"]);
      ("fk_workflow_step_executions_workflow_execution_id",
        ForeignKey "workflow_execution_id" "workflow_executions" "id" NoAction);
      ("fk_workflow_step_executions_integration_request_id",
        ForeignKey "integration_request_id" "integration_requests" "id" NoAction);
      ("fk_workflow_step_executions_compensation_request_id",
        ForeignKey "compensation_request_id" "integration_requests" "id" NoAction);
      ("uq_workflow_step_executions_execution_step", Unique ["workflow_execution_id"; "step_key"])];
   CreateIndex "ix_workflow_step_executions_status" "workflow_step_executions" ["status"] None;
   CreateIndex "ix_workflow_step_executions_request_id" "workflow_step_executions" ["integration_request_id"] None].
Definition workflow_tables : revision := {|
  rev_id := "20260803_b2c3d4e5f6a7";
  down_revision := Some "20260802_a1b2c3d4e5f6";
  upgrade := create_workflow_definitions ++ create_workflow_executions ++ create_workflow_step_executions;
  downgrade := [DropTable "workflow_step_executions"; DropTable "workflow_executions"; DropTable "workflow_definitions"] |}.

(** * 20260803_c3d4e5f6a7b8: leases, owners and status checks *)

Definition WORKFLOW_STATUSES_c3 : list string :=
  ["created"; "queued"; "running"; "waiting"; "retry_scheduled"; "compensating"; "compensated"; "succeeded"; "failed";
   "cancelled"; "manual_review"; "dead_lettered"].
Definition STEP_STATUSES : list string :=
  ["pending"; "ready"; "running"; "waiting"; "retry_scheduled"; "succeeded"; "failed"; "skipped"; "compensating";
   "compensated"; "cancelled"; "dead_lettered"].
Definition production_hardening : revision := {|
  rev_id := "20260803_c3d4e5f6a7b8";
  down_revision := Some "20260803_b2c3d4e5f6a7";
  upgrade :=
    [AddColumn "integration_requests" (optional "owner_subject" (VARCHAR 128));
     CreateIndex "ix_integration_requests_owner_subject" "integration_requests" ["owner_subject"] None;
     AddColumn "workflow_executions" (optional "owner_subject" (VARCHAR 128));
     AddColumn "workflow_executions" (optional "claim_lease_until" TIMESTAMPTZ);
     CreateIndex "ix_workflow_executions_owner_subject" "workflow_executions" ["owner_subject"] None;
     CreateIndex "ix_workflow_executions_claim_lease_until" "workflow_executions" ["claim_lease_until"] None;
     CreateCheckConstraint "ck_workflow_executions_status" "workflow_executions" (OneOf "status" WORKFLOW_STATUSES_c3);
     CreateCheckConstraint "ck_workflow_step_executions_status" "workflow_step_executions" (OneOf "status" STEP_STATUSES)];
  downgrade :=
    [DropCheckConstraint "ck_workflow_step_executions_status" "workflow_step_executions";
     DropCheckConstraint "ck_workflow_executions_status" "workflow_executions";
     DropIndex "ix_workflow_executions_claim_lease_until" "workflow_executions";
     DropIndex "ix_workflow_executions_owner_subject" "workflow_executions";
     DropColumn "workflow_executions" "claim_lease_until";
     DropColumn "workflow_executions" "owner_subject";
     DropIndex "ix_integration_requests_owner_subject" "integration_requests";
     DropColumn "integration_requests" "owner_subject"] |}.

(** * 20260803_d4e5f6a7b8c9: deadlines and cancellation *)

Definition WORKFLOW_STATUSES_d4 : list string :=
  ["created"; "queued"; "running"; "waiting"; "retry_scheduled"; "compensating"; "compensated"; "succeeded"; "failed";
   "cancelled"; "manual_review"; "dead_lettered"; "timed_out"].
Definition prior : list string :=
  ["created"; "queued"; "running"; "waiting"; "retry_scheduled"; "compensating"; "compensated"; "succeeded"; "failed";
   "cancelled"; "manual_review"; "dead_lettered"].
Definition workflow_cancel_deadline : revision := {|
  rev_id := "20260803_d4e5f6a7b8c9";
  down_revision := Some "20260803_c3d4e5f6a7b8";
  upgrade :=
    [AddColumn "workflow_executions" (optional "deadline_at" TIMESTAMPTZ);
     AddColumn "workflow_executions" (optional "cancel_reason" TEXT);
     AddColumn "workflow_executions" (optional "deadline_processed_at" TIMESTAMPTZ);
     CreateIndex "ix_workflow_executions_deadline_at" "workflow_executions" ["deadline_at"] None;
     DropCheckConstraint "ck_workflow_executions_status" "workflow_executions";
     CreateCheckConstraint "ck_workflow_executions_status" "workflow_executions" (OneOf "status" WORKFLOW_STATUSES_d4)];
  downgrade :=
    [DropCheckConstraint "ck_workflow_executions_status" "workflow_executions";
     CreateCheckConstraint "ck_workflow_executions_status" "workflow_executions" (OneOf "status" prior);
     DropIndex "ix_workflow_executions_deadline_at" "workflow_executions";
     DropColumn "workflow_executions" "deadline_processed_at";
     DropColumn "workflow_executions" "cancel_reason";
     DropColumn "workflow_executions" "deadline_at"] |}.

Definition revisions : list revision :=
  [initial_schema; outbox_dead_letter; workflow_tables; production_hardening; workflow_cancel_deadline].
Definition upgraded (n : nat) : option schema := migrate (concat (map upgrade (take n revisions))) ∅.

(** * The models *)

(** [NAMING_CONVENTION] *)
Definition pk_name (table_name : string) : string := "pk_" +:+ table_name.
Definition fk_name (table_name column_0_name referred_table_name : string) : string :=
  "fk_" +:+ table_name +:+ "_" +:+ column_0_name +:+ "_" +:+ referred_table_name.

Definition _enum_column {T} `{StrEnum T} (length : Z) : sql_type := ENUM (value <$> (members : list T)) length.
Arguments _enum_column T {_ _} length.

(** [mapped_column(...)] *)
Record mapped := mk_mapped {
  m_column : column;
  m_primary_key : bool;
  m_foreign_key : option (string * string * ondelete);
}.
Definition plain (c : column) : mapped := mk_mapped c false None.
Definition key (name : string) (ty : sql_type) : mapped := mk_mapped (required name ty) true None.
Definition refers (c : column) (referred : string * string) (rule : ondelete) : mapped := mk_mapped c false (Some (referred.1, referred.2, rule)).

(** [__table_args__] *)
Inductive table_arg : Type :=
  | UniqueConstraint (cols : list string) (name : string)
  | CheckConstraint (p : predicate) (name : string)
  | Index (name : string) (cols : list string) (postgresql_where : option string).

Definition args_constraints (tablename : string) (args : list table_arg) : list (string * constraint) :=
  concat (map (λ a, match a with
    | UniqueConstraint cols name => [(name, Unique cols)]
    | CheckConstraint p name => [(ck_name tablename name, Check_ p)]
    | Index _ _ _ => []
    end) args).
Definition args_indexes (args : list table_arg) : list (string * index) :=
  concat (map (λ a, match a with Index name cols w => [(name, mk_index cols w)] | _ => [] end) args).
Definition column_constraints (tablename : string) (cols : list mapped) : list (string * constraint) :=
  match List.filter m_primary_key cols with
  | [] => []
  | keys => [(pk_name tablename, PrimaryKey (map (λ m, c_name (m_column m)) keys))]
  end ++
  concat (map (λ m, match m_foreign_key m with
    | Some (t, c, rule) => [(fk_name tablename (c_name (m_column m)) t, ForeignKey (c_name (m_column m)) t c rule)]
    | None => []
    end) cols).
Definition model (tablename : string) (cols : list mapped) (args : list table_arg) : string * table :=
  (tablename, mk_table (map m_column cols) (list_to_map (column_constraints tablename cols ++ args_constraints tablename args))
                (list_to_map (args_indexes args))).

Definition IntegrationRequestModel : string * table := model "integration_requests"
  [key "id" PgUUID; plain (required "provider" (VARCHAR 40));
   plain (required "operation_type" (_enum_column OperationType.t 48));
   plain (required "external_reference" (VARCHAR 255)); plain (required "normalized_payload" JSONB);
   plain (optional "provider_payload" JSONB); plain (optional "provider_reference" (VARCHAR 255));
   plain (required "status" (_enum_column RequestStatus.t 32)); plain (optional "idempotency_key" (VARCHAR 255));
   plain (defaulted "attempt_count" INTEGER (Literal "0")); plain (required "correlation_id" (VARCHAR 128));
   plain (optional "owner_subject" (VARCHAR 128)); plain (optional "last_error_code" (VARCHAR 128));
   plain (optional "last_error_message" TEXT); plain (optional "last_error_category" (VARCHAR 64));
   plain (optional "manual_review_reason" TEXT); plain (optional "next_retry_at" TIMESTAMPTZ);
   plain (defaulted "created_at" TIMESTAMPTZ now_default); plain (defaulted "updated_at" TIMESTAMPTZ now_default);
   plain (optional "completed_at" TIMESTAMPTZ); plain (defaulted "version" INTEGER (Literal "0"))]
  [UniqueConstraint ["idempotency_key"] "uq_integration_requests_idempotency_key";
   UniqueConstraint ["provider"; "provider_reference"] "uq_integration_requests_provider_provider_reference";
   CheckConstraint (AtLeast "attempt_count" 0) "attempt_count_non_negative";
   CheckConstraint (AtLeast "version" 0) "version_non_negative";
   Index "ix_integration_requests_status_next_retry_at" ["status"; "next_retry_at"] None;
   Index "ix_integration_requests_provider_created_at" ["provider"; "created_at"] None;
   Index "ix_integration_requests_external_reference" ["external_reference"] None;
   Index "ix_integration_requests_created_at_id" ["created_at"; "id"] None;
   Index "ix_integration_requests_status_updated_at" ["status"; "updated_at"] None;
   Index "ix_integration_requests_owner_subject" ["owner_subject"] None].

Definition WebhookReceiptModel : string * table := model "webhook_receipts"
  [key "id" PgUUID; plain (required "provider" (VARCHAR 40)); plain (required "event_id" (VARCHAR 255));
   plain (required "event_type" (VARCHAR 128)); plain (optional "provider_reference" (VARCHAR 255));
   plain (required "signature_metadata" JSONB); plain (required "payload" JSONB);
   plain (required "processing_status" (_enum_column WebhookProcessingStatus.t 32));
   refers (optional "integration_request_id" PgUUID) ("integration_requests", "id") SetNull;
   plain (optional "correlation_id" (VARCHAR 128)); plain (optional "failure_reason" TEXT);
   plain (defaulted "attempt_count" INTEGER (Literal "0")); plain (required "received_at" TIMESTAMPTZ);
   plain (optional "processed_at" TIMESTAMPTZ); plain (optional "next_attempt_at" TIMESTAMPTZ)]
  [UniqueConstraint ["provider"; "event_id"] "uq_webhook_receipts_provider_event_id";
   CheckConstraint (AtLeast "attempt_count" 0) "attempt_count_non_negative";
   Index "ix_webhook_receipts_processing_status_received_at" ["processing_status"; "received_at"] None;
   Index "ix_webhook_receipts_processing_status_next_attempt_at" ["processing_status"; "next_attempt_at"] None;
   Index "ix_webhook_receipts_integration_request_id" ["integration_request_id"] None].

Definition AuditEventModel : string * table := model "audit_events"
  [key "id" PgUUID; plain (required "aggregate_type" (VARCHAR 64)); plain (required "aggregate_id" (VARCHAR 128));
   plain (required "action" (_enum_column AuditAction.t 64)); plain (required "actor" (_enum_column ActorType.t 48));
   plain (optional "actor_id" (VARCHAR 255)); plain (optional "previous_state" (VARCHAR 48));
   plain (optional "new_state" (VARCHAR 48)); plain (required "correlation_id" (VARCHAR 128));
   plain (required "metadata" JSONB); plain (required "occurred_at" TIMESTAMPTZ)]
  [Index "ix_audit_events_aggregate_type_aggregate_id_occurred_at" ["aggregate_type"; "aggregate_id"; "occurred_at"] None;
   Index "ix_audit_events_correlation_id" ["correlation_id"] None].

Definition OutboxEventModel : string * table := model "outbox_events"
  [key "id" PgUUID; plain (required "event_id" PgUUID); plain (required "event_type" (VARCHAR 128));
   plain (required "event_version" INTEGER); plain (required "aggregate_type" (VARCHAR 64));
   plain (required "aggregate_id" (VARCHAR 128)); plain (required "payload" JSONB);
   plain (required "correlation_id" (VARCHAR 128)); plain (optional "causation_id" (VARCHAR 128));
   plain (optional "partition_key" (VARCHAR 128)); plain (required "created_at" TIMESTAMPTZ);
   plain (optional "published_at" TIMESTAMPTZ); plain (defaulted "attempt_count" INTEGER (Literal "0"));
   plain (optional "next_attempt_at" TIMESTAMPTZ); plain (optional "last_error" TEXT);
   plain (optional "dead_lettered_at" TIMESTAMPTZ)]
  [UniqueConstraint ["event_id"] "uq_outbox_events_event_id";
   CheckConstraint (AtLeast "event_version" 1) "event_version_positive";
   CheckConstraint (AtLeast "attempt_count" 0) "attempt_count_non_negative";
   Index "ix_outbox_events_unpublished" ["next_attempt_at"; "created_at"]
     (Some "published_at IS NULL AND dead_lettered_at IS NULL");
   Index "ix_outbox_events_published_at_created_at" ["published_at"; "created_at"] None;
   Index "ix_outbox_events_aggregate_id" ["aggregate_id"] None;
   Index "ix_outbox_events_dead_lettered_at" ["dead_lettered_at"] (Some "dead_lettered_at IS NOT NULL")].

Definition IdempotencyRecordModel : string * table := model "idempotency_records"
  [key "key" (VARCHAR 255); plain (required "fingerprint" (VARCHAR 64));
   refers (required "request_id" PgUUID) ("integration_requests", "id") Cascade;
   plain (required "response_status" INTEGER); plain (required "created_at" TIMESTAMPTZ);
   plain (optional "expires_at" TIMESTAMPTZ)]
  [Index "ix_idempotency_records_request_id" ["request_id"] None;
   Index "ix_idempotency_records_expires_at" ["expires_at"] None].

Definition WorkflowDefinitionModel : string * table := model "workflow_definitions"
  [key "id" PgUUID; plain (required "name" (VARCHAR 128)); plain (required "version" INTEGER);
   plain (required "steps" JSONB); plain (defaulted "immutable" BOOLEAN (Expression "false"));
   plain (defaulted "created_at" TIMESTAMPTZ now_default)]
  [UniqueConstraint ["name"; "version"] "uq_workflow_definitions_name_version"].

Definition WorkflowExecutionModel : string * table := model "workflow_executions"
  [key "id" PgUUID; refers (required "definition_id" PgUUID) ("workflow_definitions", "id") NoAction;
   plain (required "definition_name" (VARCHAR 128)); plain (required "definition_version" INTEGER);
   plain (required "status" (VARCHAR 32)); plain (required "correlation_id" (VARCHAR 64));
   plain (optional "idempotency_key" (VARCHAR 255)); plain (optional "owner_subject" (VARCHAR 128));
   plain (required "input_payload" JSONB); plain (optional "manual_review_reason" TEXT);
   plain (defaulted "version" INTEGER (Literal "1")); plain (optional "claim_lease_until" TIMESTAMPTZ);
   plain (optional "deadline_at" TIMESTAMPTZ); plain (optional "cancel_reason" TEXT);
   plain (optional "deadline_processed_at" TIMESTAMPTZ); plain (defaulted "created_at" TIMESTAMPTZ now_default);
   plain (defaulted "updated_at" TIMESTAMPTZ now_default); plain (optional "completed_at" TIMESTAMPTZ)]
  [UniqueConstraint ["idempotency_key"] "uq_workflow_executions_idempotency_key";
   Index "ix_workflow_executions_status" ["status"] None;
   Index "ix_workflow_executions_updated_at" ["updated_at"] None;
   Index "ix_workflow_executions_owner_subject" ["owner_subject"] None;
   Index "ix_workflow_executions_claim_lease_until" ["claim_lease_until"] None;
   Index "ix_workflow_executions_deadline_at" ["deadline_at"] None].

Definition WorkflowStepExecutionModel : string * table := model "workflow_step_executions"
  [key "id" PgUUID; refers (required "workflow_execution_id" PgUUID) ("workflow_executions", "id") NoAction;
   plain (required "step_key" (VARCHAR 64)); plain (required "provider" (VARCHAR 40));
   plain (required "operation_type" (VARCHAR 48)); plain (required "depends_on" JSONB);
   plain (optional "compensate_operation" (VARCHAR 48)); plain (defaulted "wait_for_webhook" BOOLEAN (Expression "false"));
   plain (required "status" (VARCHAR 32)); plain (defaulted "attempt_count" INTEGER (Literal "0"));
   plain (defaulted "max_attempts" INTEGER (Literal "3"));
   refers (optional "integration_request_id" PgUUID) ("integration_requests", "id") NoAction;
   refers (optional "compensation_request_id" PgUUID) ("integration_requests", "id") NoAction;
   plain (required "input_payload" JSONB); plain (optional "output_payload" JSONB);
   plain (optional "error_code" (VARCHAR 128)); plain (optional "error_message" TEXT);
   plain (defaulted "version" INTEGER (Literal "1")); plain (defaulted "created_at" TIMESTAMPTZ now_default);
   plain (defaulted "updated_at" TIMESTAMPTZ now_default); plain (optional "completed_at" TIMESTAMPTZ)]
  [UniqueConstraint ["workflow_execution_id"; "step_key"] "uq_workflow_step_executions_execution_step";
   Index "ix_workflow_step_executions_status" ["status"] None;
   Index "ix_workflow_step_executions_request_id" ["integration_request_id"] None].

(** [Base.metadata] *)
Definition metadata : schema := list_to_map
  [IntegrationRequestModel; WebhookReceiptModel; AuditEventModel; OutboxEventModel; IdempotencyRecordModel;
   WorkflowDefinitionModel; WorkflowExecutionModel; WorkflowStepExecutionModel].

(** * Running the migrations *)

(** [run_migrations_online]: one transaction per revision, so a refused revision
    leaves the database at the one before it. *)
Fixpoint run_migrations (todo : list revision) (database : schema) : bool * schema :=
  match todo with
  | [] => (true, database)
  | r :: todo' => match migrate (upgrade r) database with
                  | Some database' => run_migrations todo' database'
                  | None => (false, database)
                  end
  end.

(** [scripts/check_migrations.py]: the exit code, on a database that has applied
    the first [current] revisions. [compare_metadata] is Alembic's autogenerate. *)
Definition check_migrations_main (compare_metadata : schema → schema → list string) (current : nat) (database : schema) : Z * schema :=
  match run_migrations (drop current revisions) database with
  | (false, database') => (2, database')
  | (true, database') =>
      match compare_metadata database' metadata with
      | [] => (0, database')
      | _ :: _ => (1, database')
      end
  end.
