(* ===== verification/SchemaFacts.v ===== *)
(** The database a deployment runs on: the revisions build the schema the models
    declare and can be undone, the store of [Store] refuses exactly the rows that
    schema refuses, and the rows of reachable states satisfy its CHECKs. *)

From S2P Require Import Prelude PyData PyTime Enums Errors StateMachine ValueObjects Policies Entities RequestFacts.
From S2P Require Import Workflow Records Store Journal Ports Settlement Dispatcher Samples DispatcherFacts CreateRequest.
From S2P Require Import Operator WebhookIngestion Reconciliation Outbox Workers.
From S2P Require Import WorkflowStore Orchestrator OrchestratorFacts System Schema.

(** * Migrating *)

Definition head : nat := List.length revisions.
(** [alembic upgrade head] and [alembic downgrade <revision m>], from revision [n]. *)
Definition upgrades (n : nat) : list ddl := concat (map upgrade (drop n revisions)).
Definition downgrades (m n : nat) : list ddl := concat (map downgrade (rev (drop m (take n revisions)))).

Lemma migrate_app ds ds' s : migrate (ds ++ ds') s = match migrate ds s with Some s' => migrate ds' s' | None => None end.
Proof. revert s. induction ds as [|d ds IH]; intros s; [done|]. cbn. destruct (apply_ddl d s); [apply IH|done]. Qed.

(** The chain Alembic follows. *)
Fixpoint linear (prior : option string) (l : list revision) : bool :=
  match l with
  | [] => true
  | r :: l' => bool_decide (down_revision r = prior) && linear (Some (rev_id r)) l'
  end.

(** Going down from any revision to any earlier one. *)
Definition undoes (m n : nat) : bool :=
  match upgraded n with
  | Some s => bool_decide (migrate (downgrades m n) s = upgraded m)
  | None => false
  end.
Lemma all_undone : forallb (λ n, forallb (λ m, undoes m n) (seq 0 (S n))) (seq 0 (S head)) = true.
Proof. vm_compute. reflexivity. Qed.

Lemma undone m n : (m ≤ n ≤ head)%nat → undoes m n = true.
Proof.
  intros Hmn. pose proof all_undone as Ha. rewrite forallb_forall in Ha.
  specialize (Ha n). rewrite forallb_forall in Ha. apply Ha; apply in_seq; lia.
Qed.

Lemma upgraded_head n s : (n ≤ head)%nat → upgraded n = Some s → migrate (upgrades n) s = upgraded head.
Proof.
  intros Hn Hs. unfold upgraded, upgrades in *. rewrite (take_ge revisions head) by done.
  rewrite <- (take_drop n revisions) at 2. by rewrite map_app, concat_app, migrate_app, Hs.
Qed.

(** ** What [alembic] compares

    Autogenerate compares tables, columns with their types, nullability and
    defaults, indexes and unique constraints by name, and foreign keys by what they
    refer to; it knows nothing of CHECK constraints. *)
Definition ddl_column (c : column) : column := mk_column (c_name c) (ddl_type (c_type c)) (c_nullable c) (c_default c).
Definition is_key (c : constraint) : bool := match c with PrimaryKey _ | Schema.Unique _ => true | _ => false end.
Definition is_reference (c : constraint) : bool := match c with Schema.ForeignKey _ _ _ _ => true | _ => false end.
Definition keys_of (t : table) : gmap string constraint := filter (λ kv, is_key kv.2 = true) (t_constraints t).
Definition references_of (t : table) : list constraint := List.filter is_reference (map_to_list (t_constraints t)).*2.
Record table_in_sync (migrated declared : table) : Prop := {
  sync_columns : map ddl_column (t_columns migrated) ≡ₚ map ddl_column (t_columns declared);
  sync_indexes : t_indexes migrated = t_indexes declared;
  sync_keys : keys_of migrated = keys_of declared;
  sync_references : references_of migrated ≡ₚ references_of declared;
}.
Definition in_sync (migrated declared : schema) : Prop :=
  ∀ name, match migrated !! name, declared !! name with
          | Some t, Some t' => table_in_sync t t'
          | None, None => True
          | _, _ => False
          end.

Definition table_synced (t t' : table) : bool :=
  bool_decide (map ddl_column (t_columns t) ≡ₚ map ddl_column (t_columns t')) &&
  bool_decide (t_indexes t = t_indexes t') && bool_decide (keys_of t = keys_of t') &&
  bool_decide (references_of t ≡ₚ references_of t').
Definition tables_match (t t' : option table) : bool :=
  match t, t' with Some t, Some t' => table_synced t t' | None, None => true | _, _ => false end.
(** The tables of two schemas side by side. *)
Definition synced (s s' : schema) : bool :=
  forallb (λ name, tables_match (s !! name) (s' !! name)) ((map_to_list s).*1 ++ (map_to_list s').*1).
Lemma table_synced_spec t t' : table_synced t t' = true ↔ table_in_sync t t'.
Proof.
  unfold table_synced. rewrite !andb_true_iff, !bool_decide_eq_true.
  split; [by intros [[[? ?] ?] ?]; constructor|by intros []].
Qed.
Lemma synced_spec s s' : synced s s' = true ↔ in_sync s s'.
Proof.
  unfold synced. rewrite forallb_forall. split; intros Hs name.
  - assert (is_Some (s !! name) ∨ is_Some (s' !! name) → tables_match (s !! name) (s' !! name) = true) as Hm.
    { intros Hx. apply Hs, list_elem_of_In. rewrite elem_of_app, !list_elem_of_fmap.
      destruct Hx as [[t Ht]|[t Ht]]; [left|right]; exists (name, t); (split; [done|]); by apply elem_of_map_to_list. }
    destruct (s !! name) as [t|], (s' !! name) as [t'|]; [|by specialize (Hm ltac:(eauto))..|done].
    apply table_synced_spec, Hm. eauto.
  - intros _. specialize (Hs name). destruct (s !! name), (s' !! name); try done. by apply table_synced_spec.
Qed.

Lemma head_synced : match upgraded head with Some s => synced s metadata | None => false end = true.
Proof. vm_compute. reflexivity. Qed.

(** * Rows *)

Inductive cell : Type :=
  | Null
  | Uuid (u : UUID)
  | Int (n : Z)
  | Text (s : string).
#[export] Instance cell_eq_dec : EqDecision cell.
Proof. solve_decision. Defined.
Definition row : Type := list (string * cell).
Fixpoint cell_at (r : row) (col : string) : cell :=
  match r with
  | [] => Null
  | (name, v) :: r' => if String.eqb name col then v else cell_at r' col
  end.
Definition nullable {A} (f : A → cell) (v : option A) : cell := match v with Some a => f a | None => Null end.

(** The columns that keys, references, CHECKs and enumerations rest on. *)
Definition request_row (r : IntegrationRequest.t) : row :=
  [("id", Uuid (IntegrationRequest.id r)); ("provider", Text (IntegrationRequest.provider r));
   ("operation_type", Text (value (IntegrationRequest.operation_type r)));
   ("provider_reference", nullable Text (IntegrationRequest.provider_reference r));
   ("status", Text (value (IntegrationRequest.status r)));
   ("idempotency_key", nullable Text (IntegrationRequest.idempotency_key r));
   ("attempt_count", Int (IntegrationRequest.attempt_count r)); ("version", Int (IntegrationRequest.version r))].
Definition receipt_row (w : WebhookReceipt.t) : row :=
  [("id", Uuid (WebhookReceipt.id w)); ("provider", Text (WebhookReceipt.provider w));
   ("event_id", Text (WebhookReceipt.event_id w));
   ("processing_status", Text (value (WebhookReceipt.processing_status w)));
   ("integration_request_id", nullable Uuid (WebhookReceipt.integration_request_id w));
   ("attempt_count", Int (WebhookReceipt.attempt_count w))].
Definition audit_row (a : AuditEvent.t) : row :=
  [("id", Uuid (AuditEvent.id a)); ("action", Text (value (AuditEvent.action a))); ("actor", Text (value (AuditEvent.actor a)))].
Definition outbox_row (o : OutboxEvent.t) : row :=
  [("id", Uuid (OutboxEvent.id o)); ("event_id", Uuid (OutboxEvent.event_id o));
   ("event_version", Int (OutboxEvent.event_version o)); ("attempt_count", Int (OutboxEvent.attempt_count o))].
Definition idempotency_row (i : IdempotencyRecord.t) : row :=
  [("key", Text (IdempotencyRecord.key i)); ("request_id", Uuid (IdempotencyRecord.request_id i))].
Definition definition_row (d : WorkflowDefinition.t) : row :=
  [("id", Uuid (WorkflowDefinition.id d)); ("name", Text (WorkflowDefinition.name d)); ("version", Int (WorkflowDefinition.version d))].
Definition execution_row (e : WorkflowExecution.t) : row :=
  [("id", Uuid (WorkflowExecution.id e)); ("definition_id", Uuid (WorkflowExecution.definition_id e));
   ("status", Text (value (WorkflowExecution.status e)));
   ("idempotency_key", nullable Text (WorkflowExecution.idempotency_key e))].
(** A step belongs to the execution it is stored with. *)
Definition step_row (e : WorkflowExecution.t) (s : Step.t) : row :=
  [("id", Uuid (Step.id s)); ("workflow_execution_id", Uuid (WorkflowExecution.id e)); ("step_key", Text (Step.step_key s));
   ("operation_type", Text (value (Step.operation_type s))); ("status", Text (value (Step.status s)));
   ("integration_request_id", nullable Uuid (Step.integration_request_id s));
   ("compensation_request_id", nullable Uuid (Step.compensation_request_id s))].
Definition step_rows (e : WorkflowExecution.t) : list row := step_row e <$> WorkflowExecution.steps e.

Definition stored (T : tables) (name : string) : list row :=
  if String.eqb name "integration_requests" then request_row <$> (map_to_list (t_requests T)).*2
  else if String.eqb name "webhook_receipts" then receipt_row <$> (map_to_list (t_receipts T)).*2
  else if String.eqb name "audit_events" then audit_row <$> t_audit T
  else if String.eqb name "outbox_events" then outbox_row <$> t_outbox T
  else if String.eqb name "idempotency_records" then idempotency_row <$> (map_to_list (t_idempotency T)).*2
  else if String.eqb name "workflow_definitions" then definition_row <$> (map_to_list (t_definitions T)).*2
  else if String.eqb name "workflow_executions" then execution_row <$> (map_to_list (t_executions T)).*2
  else if String.eqb name "workflow_step_executions" then concat (step_rows <$> (map_to_list (t_executions T)).*2)
  else [].
(** The rows an INSERT of the store sends, in the order of their references. *)
Definition new_rows (n : new_row) : list (string * row) :=
  match n with
  | NewRequest r => [("integration_requests", request_row r)]
  | NewReceipt w => [("webhook_receipts", receipt_row w)]
  | NewAudit a => [("audit_events", audit_row a)]
  | NewOutbox o => [("outbox_events", outbox_row o)]
  | NewIdempotency i => [("idempotency_records", idempotency_row i)]
  | NewDefinition d => [("workflow_definitions", definition_row d)]
  | NewExecution e => ("workflow_executions", execution_row e) :: (pair "workflow_step_executions" <$> step_rows e)
  end.

(** ** What PostgreSQL refuses *)

Definition satisfies (p : predicate) (r : row) : bool :=
  match p with
  | AtLeast col n => match cell_at r col with Null => true | Int v => n <=? v | _ => false end
  | OneOf col values => match cell_at r col with Null => true | Text v => bool_decide (v ∈ values) | _ => false end
  end.
(** Keys do not compare NULLs. *)
Definition conflicts (cols : list string) (r r' : row) : bool :=
  forallb (λ c, negb (bool_decide (cell_at r c = Null)) && bool_decide (cell_at r' c = cell_at r c)) cols.
Definition refuses (rows : string → list row) (name : string) (r : row) (c : constraint) : bool :=
  match c with
  | PrimaryKey cols | Schema.Unique cols => existsb (conflicts cols r) (rows name)
  | Check_ p => negb (satisfies p r)
  | Schema.ForeignKey col referred referred_col _ =>
      negb (bool_decide (cell_at r col = Null)) &&
      negb (existsb (λ r', bool_decide (cell_at r' referred_col = cell_at r col)) (rows referred))
  end.
Definition constraints_at (s : schema) (name : string) : list (string * constraint) :=
  match s !! name with Some t => map_to_list (t_constraints t) | None => [] end.
Definition refusals (s : schema) (rows : string → list row) (name : string) (r : row) : list string :=
  (List.filter (λ kc, refuses rows name r kc.2) (constraints_at s name)).*1.
Definition with_row (rows : string → list row) (name : string) (r : row) : string → list row :=
  λ name', if String.eqb name' name then rows name' ++ [r] else rows name'.
Fixpoint insert_refusals (s : schema) (rows : string → list row) (l : list (string * row)) : list string :=
  match l with
  | [] => []
  | (name, r) :: l' => refusals s rows name r ++ insert_refusals s (with_row rows name r) l'
  end.

(** ** The store's constraints are the schema's *)

Definition head_schema : schema := default ∅ (upgraded head).
Lemma upgraded_head_schema : upgraded head = Some head_schema.
Proof. unfold head_schema. pose proof head_synced as Hs. by destruct (upgraded head). Qed.

(** Rows are stored under their keys. *)
Record keyed (T : tables) : Prop := {
  keyed_requests i r : t_requests T !! i = Some r → IntegrationRequest.id r = i;
  keyed_receipts i x : t_receipts T !! i = Some x → WebhookReceipt.id x = i;
  keyed_idempotency k x : t_idempotency T !! k = Some x → IdempotencyRecord.key x = k;
  keyed_definitions i d : t_definitions T !! i = Some d → WorkflowDefinition.id d = i;
  keyed_executions i e : t_executions T !! i = Some e → WorkflowExecution.id e = i;
}.
(** What the CHECKs ask of a new row, and that a step starts without requests. *)
Definition sane (n : new_row) : Prop :=
  match n with
  | NewRequest r => 0 ≤ IntegrationRequest.attempt_count r ∧ 0 ≤ IntegrationRequest.version r
  | NewReceipt w => 0 ≤ WebhookReceipt.attempt_count w
  | NewOutbox o => 1 ≤ OutboxEvent.event_version o ∧ 0 ≤ OutboxEvent.attempt_count o
  | NewExecution e => Forall (λ s, Step.integration_request_id s = None ∧ Step.compensation_request_id s = None) (WorkflowExecution.steps e)
  | _ => True
  end.

Section Cells.
Implicit Types u v : UUID.
Lemma uuid_is_null u : bool_decide (Uuid u = Null) = false.
Proof. by apply bool_decide_eq_false. Qed.
Lemma text_is_null s : bool_decide (Text s = Null) = false.
Proof. by apply bool_decide_eq_false. Qed.
Lemma int_is_null n : bool_decide (Int n = Null) = false.
Proof. by apply bool_decide_eq_false. Qed.
Lemma null_is_null : bool_decide (Null = Null) = true.
Proof. by apply bool_decide_eq_true. Qed.
Lemma uuid_cells u v : bool_decide (Uuid u = Uuid v) = bool_decide (u = v).
Proof. apply bool_decide_ext. naive_solver. Qed.
Lemma text_cells s t : bool_decide (Text s = Text t) = bool_decide (s = t).
Proof. apply bool_decide_ext. naive_solver. Qed.
Lemma int_cells m n : bool_decide (Int m = Int n) = (m =? n).
Proof. destruct (Z.eqb_spec m n); [apply bool_decide_eq_true|apply bool_decide_eq_false]; naive_solver. Qed.
Lemma nullable_text o s : bool_decide (nullable Text o = Text s) = bool_decide (o = Some s).
Proof. apply bool_decide_ext. destruct o; naive_solver. Qed.
End Cells.
Create Rewrite HintDb cells.
#[export] Hint Rewrite uuid_is_null text_is_null int_is_null null_is_null uuid_cells text_cells int_cells nullable_text
  andb_true_r andb_false_r : cells.

Lemma existsb_fmap {A B} (p : B → bool) (f : A → B) (l : list A) : existsb p (f <$> l) = existsb (λ a, p (f a)) l.
Proof. induction l as [|a l IH]; [done|]. cbn. by rewrite <- IH. Qed.
Lemma existsb_extensional {A} (p q : A → bool) (l : list A) : (∀ a, p a = q a) → existsb p l = existsb q l.
Proof. intros Hpq. induction l as [|a l IH]; [done|]. cbn. by rewrite Hpq, IH. Qed.
Lemma existsb_never {A} (p : A → bool) (l : list A) : (∀ a, p a = false) → existsb p l = false.
Proof. intros Hp. induction l as [|a l IH]; [done|]. cbn. by rewrite Hp, IH. Qed.
Lemma existsb_elem {A} (p : A → bool) (l : list A) : existsb p l = true ↔ ∃ a, a ∈ l ∧ p a = true.
Proof. rewrite existsb_exists. setoid_rewrite list_elem_of_In. done. Qed.
(** A primary key held by a map. *)
Lemma keyed_taken {K V} `{Countable K} (m : gmap K V) (key : V → K) k :
  (∀ i v, m !! i = Some v → key v = i) →
  existsb (λ kv, bool_decide (key kv.2 = k)) (map_to_list m) = bool_decide (is_Some (m !! k)).
Proof.
  intros Hm. apply eq_true_iff_eq. rewrite existsb_elem, bool_decide_eq_true. split.
  - intros ([i v] & Hin & Hk). apply elem_of_map_to_list in Hin. apply bool_decide_eq_true in Hk. cbn in Hk.
    rewrite <- Hk, (Hm _ _ Hin). eauto.
  - intros [v Hv]. exists (k, v). split; [by apply elem_of_map_to_list|]. apply bool_decide_eq_true. cbn. by apply Hm.
Qed.

(** Each constraint that rests on stored rows, as the store computes it. *)
Ltac cells := cbn -[bool_decide]; autorewrite with cells; cbn -[bool_decide]; try done.
Ltac taken := rewrite !existsb_fmap; apply existsb_extensional; intros ?; cells.

Section Stored.
Context (T : tables) (HT : keyed T).

Lemma request_id_taken r :
  existsb (conflicts ["id"] (request_row r)) (stored T "integration_requests") =
  bool_decide (is_Some (t_requests T !! IntegrationRequest.id r)).
Proof. rewrite <- (keyed_taken _ IntegrationRequest.id) by apply HT. cbn. taken. Qed.
Lemma request_key_taken r :
  existsb (conflicts ["idempotency_key"] (request_row r)) (stored T "integration_requests") =
  match IntegrationRequest.idempotency_key r with
  | None => false
  | Some k => some_request T (λ r', bool_decide (IntegrationRequest.idempotency_key r' = Some k))
  end.
Proof.
  unfold some_request. cbn. destruct (IntegrationRequest.idempotency_key r) as [k|] eqn:Hk; rewrite !existsb_fmap.
  - apply existsb_extensional. intros ?. cbn -[bool_decide]. rewrite Hk. cells.
  - apply existsb_never. intros ?. cbn -[bool_decide]. rewrite Hk. cells.
Qed.
Lemma request_reference_taken r :
  bool_decide (is_Some (t_requests T !! IntegrationRequest.id r)) = false →
  existsb (conflicts ["provider"; "provider_reference"] (request_row r)) (stored T "integration_requests") =
  reference_taken T (IntegrationRequest.id r) (IntegrationRequest.provider r) (IntegrationRequest.provider_reference r).
Proof.
  intros Hi. rewrite <- (keyed_taken _ IntegrationRequest.id) in Hi by apply HT. revert Hi.
  unfold reference_taken, some_request. cbn -[bool_decide]. rewrite !existsb_fmap.
  destruct (IntegrationRequest.provider_reference r) as [k|] eqn:Hk.
  - induction (map_to_list _) as [|x l IH]; [done|]. cbn -[bool_decide]. rewrite orb_false_iff. intros [Hx Hl].
    rewrite Hx. f_equal; [rewrite Hk; cells|exact (IH Hl)].
  - intros _. apply existsb_never. intros ?. cbn -[bool_decide]. rewrite Hk. cells.
Qed.

Lemma receipt_id_taken x :
  existsb (conflicts ["id"] (receipt_row x)) (stored T "webhook_receipts") =
  bool_decide (is_Some (t_receipts T !! WebhookReceipt.id x)).
Proof. rewrite <- (keyed_taken _ WebhookReceipt.id) by apply HT. cbn. taken. Qed.
Lemma receipt_event_taken x :
  existsb (conflicts ["provider"; "event_id"] (receipt_row x)) (stored T "webhook_receipts") =
  existsb (λ kv, bool_decide (WebhookReceipt.provider kv.2 = WebhookReceipt.provider x) &&
                 bool_decide (WebhookReceipt.event_id kv.2 = WebhookReceipt.event_id x)) (map_to_list (t_receipts T)).
Proof. cbn. taken. Qed.
Lemma audit_id_taken a :
  existsb (conflicts ["id"] (audit_row a)) (stored T "audit_events") =
  existsb (λ a', bool_decide (AuditEvent.id a' = AuditEvent.id a)) (t_audit T).
Proof. cbn. taken. Qed.
Lemma outbox_id_taken o :
  existsb (conflicts ["id"] (outbox_row o)) (stored T "outbox_events") =
  existsb (λ o', bool_decide (OutboxEvent.id o' = OutboxEvent.id o)) (t_outbox T).
Proof. cbn. taken. Qed.
Lemma outbox_event_taken o :
  existsb (conflicts ["event_id"] (outbox_row o)) (stored T "outbox_events") =
  existsb (λ o', bool_decide (OutboxEvent.event_id o' = OutboxEvent.event_id o)) (t_outbox T).
Proof. cbn. taken. Qed.
Lemma idempotency_key_taken i :
  existsb (conflicts ["key"] (idempotency_row i)) (stored T "idempotency_records") =
  bool_decide (is_Some (t_idempotency T !! IdempotencyRecord.key i)).
Proof. rewrite <- (keyed_taken _ IdempotencyRecord.key) by apply HT. cbn. taken. Qed.
Lemma definition_id_taken d :
  existsb (conflicts ["id"] (definition_row d)) (stored T "workflow_definitions") =
  bool_decide (is_Some (t_definitions T !! WorkflowDefinition.id d)).
Proof. rewrite <- (keyed_taken _ WorkflowDefinition.id) by apply HT. cbn. taken. Qed.
Lemma definition_version_taken d :
  existsb (conflicts ["name"; "version"] (definition_row d)) (stored T "workflow_definitions") =
  existsb (λ kv, bool_decide (WorkflowDefinition.name kv.2 = WorkflowDefinition.name d) &&
                 (WorkflowDefinition.version kv.2 =? WorkflowDefinition.version d)) (map_to_list (t_definitions T)).
Proof. cbn. taken. Qed.
Lemma execution_id_taken e :
  existsb (conflicts ["id"] (execution_row e)) (stored T "workflow_executions") =
  bool_decide (is_Some (t_executions T !! WorkflowExecution.id e)).
Proof. rewrite <- (keyed_taken _ WorkflowExecution.id) by apply HT. cbn. taken. Qed.
Lemma execution_key_taken e :
  existsb (conflicts ["idempotency_key"] (execution_row e)) (stored T "workflow_executions") =
  match WorkflowExecution.idempotency_key e with
  | None => false
  | Some k => existsb (λ kv, bool_decide (WorkflowExecution.idempotency_key kv.2 = Some k)) (map_to_list (t_executions T))
  end.
Proof.
  cbn. destruct (WorkflowExecution.idempotency_key e) as [k|] eqn:Hk; rewrite !existsb_fmap.
  - apply existsb_extensional. intros ?. cbn -[bool_decide]. rewrite Hk. cells.
  - apply existsb_never. intros ?. cbn -[bool_decide]. rewrite Hk. cells.
Qed.
(** What a reference finds. *)
Lemma request_referred i :
  existsb (λ r', bool_decide (cell_at r' "id" = Uuid i)) (stored T "integration_requests") =
  bool_decide (is_Some (t_requests T !! i)).
Proof. rewrite <- (keyed_taken _ IntegrationRequest.id) by apply HT. cbn. taken. Qed.
Lemma definition_referred i :
  existsb (λ r', bool_decide (cell_at r' "id" = Uuid i)) (stored T "workflow_definitions") =
  bool_decide (is_Some (t_definitions T !! i)).
Proof. rewrite <- (keyed_taken _ WorkflowDefinition.id) by apply HT. cbn. taken. Qed.
End Stored.

Definition explains (v : option violation) (l : list string) : Prop :=
  match v with
  | None => l = []
  | Some (Store.Unique c) | Some (Store.ForeignKey c) => c ∈ l
  end.
(** The names of the constraints whose test is true. *)
Definition named (l : list (string * bool)) : list string := (List.filter snd l).*1.
Lemma refusals_at s rows name r l :
  constraints_at s name = l → refusals s rows name r = named ((λ kc, (kc.1, refuses rows name r kc.2)) <$> l).
Proof.
  intros <-. unfold refusals, named. induction (constraints_at s name) as [|[k c] l IH]; [done|].
  cbn. destruct (refuses rows name r c); cbn; by rewrite IH.
Qed.
Lemma named_in c l : (c, true) ∈ l → c ∈ named l.
Proof.
  intros Hc. unfold named. apply list_elem_of_fmap. exists (c, true). split; [done|].
  apply list_elem_of_In, filter_In. by split; [apply list_elem_of_In|].
Qed.
Lemma nonnegative_checks z : 0 ≤ z → (0 <=? z) = true.
Proof. apply Z.leb_le. Qed.
Ltac refused := apply named_in, list_elem_of_In; cbn -[bool_decide existsb conflicts stored]; intuition congruence.

Lemma requests_explained T r : keyed T → sane (NewRequest r) →
  explains (violated T (NewRequest r)) (refusals head_schema (stored T) "integration_requests" (request_row r)).
Proof.
  intros HT [Ha Hv]. erewrite refusals_at by (vm_compute; reflexivity).
  cbn -[named bool_decide stored existsb conflicts some_request reference_taken].
  rewrite (nonnegative_checks _ Ha), (nonnegative_checks _ Hv), request_id_taken, request_key_taken by done.
  destruct (bool_decide (is_Some _)) eqn:Hi; [refused|].
  destruct (match IntegrationRequest.idempotency_key r with Some _ => _ | None => _ end); [refused|].
  rewrite request_reference_taken by done. by destruct (reference_taken _ _ _ _); [refused|].
Qed.
Lemma receipts_explained T x : keyed T → sane (NewReceipt x) →
  explains (violated T (NewReceipt x)) (refusals head_schema (stored T) "webhook_receipts" (receipt_row x)).
Proof.
  intros HT Ha. erewrite refusals_at by (vm_compute; reflexivity).
  cbn -[named bool_decide stored existsb conflicts].
  rewrite (nonnegative_checks _ Ha), receipt_id_taken, receipt_event_taken by done.
  destruct (bool_decide (is_Some _)); [refused|]. destruct (existsb _ (map_to_list _)); [refused|].
  destruct (WebhookReceipt.integration_request_id x) as [i|]; cbn -[named bool_decide stored existsb]; [|done].
  rewrite request_referred by done. autorewrite with cells. by destruct (bool_decide (is_Some _)); [|refused].
Qed.
Lemma audit_explained T a :
  explains (violated T (NewAudit a)) (refusals head_schema (stored T) "audit_events" (audit_row a)).
Proof.
  erewrite refusals_at by (vm_compute; reflexivity). cbn -[named bool_decide stored existsb conflicts].
  rewrite audit_id_taken. by destruct (existsb _ _); [refused|].
Qed.
Lemma outbox_explained T o : sane (NewOutbox o) →
  explains (violated T (NewOutbox o)) (refusals head_schema (stored T) "outbox_events" (outbox_row o)).
Proof.
  intros [Hv%Z.leb_le Ha]. erewrite refusals_at by (vm_compute; reflexivity).
  cbn -[named bool_decide stored existsb conflicts].
  rewrite (nonnegative_checks _ Ha), Hv, outbox_id_taken, outbox_event_taken.
  destruct (existsb _ _); [refused|]. by destruct (existsb _ _); [refused|].
Qed.
Lemma idempotency_explained T i : keyed T →
  explains (violated T (NewIdempotency i)) (refusals head_schema (stored T) "idempotency_records" (idempotency_row i)).
Proof.
  intros HT. erewrite refusals_at by (vm_compute; reflexivity). cbn -[named bool_decide stored existsb conflicts].
  rewrite idempotency_key_taken, request_referred by done. autorewrite with cells.
  destruct (bool_decide (is_Some _)); [refused|]. by destruct (bool_decide (is_Some _)); [|refused].
Qed.
Lemma definitions_explained T d : keyed T →
  explains (violated T (NewDefinition d)) (refusals head_schema (stored T) "workflow_definitions" (definition_row d)).
Proof.
  intros HT. erewrite refusals_at by (vm_compute; reflexivity). cbn -[named bool_decide stored existsb conflicts].
  rewrite definition_id_taken, definition_version_taken by done.
  destruct (bool_decide (is_Some _)); [refused|]. by destruct (existsb _ _); [refused|].
Qed.

(** Rows of one table inserted one after the other. *)
Definition with_rows (rows : string → list row) (name : string) (l : list row) : string → list row :=
  λ name', if String.eqb name' name then rows name' ++ l else rows name'.
Lemma refusals_ext s rows rows' name r : (∀ n, rows n = rows' n) → refusals s rows name r = refusals s rows' name r.
Proof.
  intros Hr. rewrite !(refusals_at s _ name r _ eq_refl). f_equal. apply list_fmap_ext. intros _ [k c] _. cbn. f_equal.
  destruct c; cbn; by rewrite ?Hr.
Qed.
Lemma insert_refusals_ext s rows rows' l : (∀ n, rows n = rows' n) → insert_refusals s rows l = insert_refusals s rows' l.
Proof.
  revert rows rows'. induction l as [|[name r] l IH]; intros rows rows' Hr; [done|]. cbn. f_equal; [by apply refusals_ext|].
  apply IH. intros n. unfold with_row. by rewrite Hr.
Qed.
Lemma insert_refusals_elem s name rs c : ∀ rows,
  c ∈ insert_refusals s rows (pair name <$> rs) ↔
  ∃ done_ r todo, rs = done_ ++ r :: todo ∧ c ∈ refusals s (with_rows rows name done_) name r.
Proof.
  induction rs as [|r rs IH]; intros rows; cbn.
  - split; [by intros ?%not_elem_of_nil|]. intros ([|? ?] & ? & ? & ? & ?); done.
  - rewrite elem_of_app, IH.
    assert (∀ l n, with_rows (with_row rows name r) name l n = with_rows rows name (r :: l) n) as Hw.
    { intros l n. unfold with_rows, with_row. destruct (String.eqb n name); [|done]. by rewrite <- app_assoc. }
    assert (∀ n, with_rows rows name [] n = rows n) as H0.
    { intros n. unfold with_rows. destruct (String.eqb n name); [by rewrite app_nil_r|done]. }
    split.
    + intros [Hc|(d & x & t & -> & Hc)]; [exists [], r, rs|exists (r :: d), x, t]; (split; [done|]).
      * by rewrite (refusals_ext _ _ rows).
      * by rewrite (refusals_ext _ _ _ _ _ (λ n, eq_sym (Hw d n))).
    + intros (d & x & t & Heq & Hc). destruct d as [|y d]; cbn in Heq; simplify_eq.
      * left. by rewrite (refusals_ext _ _ rows) in Hc.
      * right. exists d, x, t. split; [done|]. by rewrite (refusals_ext _ _ _ _ _ (Hw d)).
Qed.

Lemma named_elem c l : c ∈ named l ↔ (c, true) ∈ l.
Proof.
  split; [|apply named_in]. unfold named. intros ([k b] & -> & Hin%list_elem_of_In)%list_elem_of_fmap.
  apply filter_In in Hin as [Hin Hb]. cbn in *. subst b. by apply list_elem_of_In.
Qed.
Lemma pair_true (c k : string) (b : bool) : (c, true) = (k, b) ↔ c = k ∧ b = true.
Proof. naive_solver. Qed.
Lemma repeated_split {A B} `{EqDecision B} (f : A → B) (l : list A) :
  ¬ NoDup (f <$> l) → ∃ d x t, l = d ++ x :: t ∧ f x ∈ f <$> d.
Proof.
  induction l as [|x l IH] using rev_ind; [by intros []; constructor|].
  destruct (decide (NoDup (f <$> l))) as [Hl|Hl].
  - intros Hn. destruct (decide (f x ∈ f <$> l)) as [Hx|Hx]; [by exists l, x, []|].
    destruct Hn. rewrite fmap_app. apply NoDup_app. split_and!; [done| |by apply NoDup_singleton].
    intros y Hy ->%list_elem_of_singleton. done.
  - intros _. destruct (IH Hl) as (d & y & t & -> & Hy). exists d, y, (t ++ [x]). by rewrite <- app_assoc.
Qed.

Lemma steps_conflict T cols r e ds :
  existsb (conflicts cols r) (concat (step_rows <$> (map_to_list (t_executions T)).*2) ++ (step_row e <$> ds)) = true ↔
  (∃ e0 s0, e0 ∈ (map_to_list (t_executions T)).*2 ∧ s0 ∈ WorkflowExecution.steps e0 ∧ conflicts cols r (step_row e0 s0) = true) ∨
  (∃ s0, s0 ∈ ds ∧ conflicts cols r (step_row e s0) = true).
Proof.
  generalize (map_to_list (t_executions T)).*2 as es. intros es. rewrite existsb_elem. setoid_rewrite elem_of_app. setoid_rewrite list_elem_of_fmap. setoid_rewrite list_elem_of_In at 1.
  setoid_rewrite in_concat. setoid_rewrite <- list_elem_of_In. unfold step_rows. split.
  - intros (r' & [(l & (e0 & -> & He)%list_elem_of_fmap & (s0 & -> & Hs)%list_elem_of_fmap)|(s0 & -> & Hs)] & Hc).
    + left. by exists e0, s0.
    + right. by exists s0.
  - intros [(e0 & s0 & He & Hs & Hc)|(s0 & Hs & Hc)].
    + exists (step_row e0 s0). split; [left|done]. exists (step_row e0 <$> WorkflowExecution.steps e0).
      split; apply list_elem_of_fmap; eauto.
    + exists (step_row e s0). eauto.
Qed.
Lemma step_id_conflict e s e0 s0 : conflicts ["id"] (step_row e s) (step_row e0 s0) = true ↔ Step.id s0 = Step.id s.
Proof. cells. apply bool_decide_eq_true. Qed.
Lemma step_key_conflict e s e0 s0 :
  conflicts ["workflow_execution_id"; "step_key"] (step_row e s) (step_row e0 s0) = true ↔
  WorkflowExecution.id e0 = WorkflowExecution.id e ∧ Step.step_key s0 = Step.step_key s.
Proof. cells. by rewrite andb_true_iff, !bool_decide_eq_true. Qed.
Lemma parent_found T e :
  existsb (λ r', bool_decide (cell_at r' "id" = Uuid (WorkflowExecution.id e)))
    ((execution_row <$> (map_to_list (t_executions T)).*2) ++ [execution_row e]) = true.
Proof. rewrite existsb_app. cells. by rewrite orb_false_r, bool_decide_true, orb_true_r. Qed.

(** A step of a new execution. *)
Lemma step_refused T e ds s c :
  Step.integration_request_id s = None → Step.compensation_request_id s = None →
  c ∈ refusals head_schema
        (with_rows (with_row (stored T) "workflow_executions" (execution_row e)) "workflow_step_executions" (step_row e <$> ds))
        "workflow_step_executions" (step_row e s) ↔
  (c = "uq_workflow_step_executions_execution_step" ∧
     ((∃ e0 s0, e0 ∈ (map_to_list (t_executions T)).*2 ∧ s0 ∈ WorkflowExecution.steps e0 ∧
        WorkflowExecution.id e0 = WorkflowExecution.id e ∧ Step.step_key s0 = Step.step_key s) ∨
      Step.step_key s ∈ Step.step_key <$> ds)) ∨
  (c = "pk_workflow_step_executions" ∧
     ((∃ e0 s0, e0 ∈ (map_to_list (t_executions T)).*2 ∧ s0 ∈ WorkflowExecution.steps e0 ∧ Step.id s0 = Step.id s) ∨
      Step.id s ∈ Step.id <$> ds)).
Proof.
  intros Hi Hc. erewrite refusals_at by (vm_compute; reflexivity). rewrite named_elem.
  cbn -[bool_decide stored existsb conflicts]. rewrite Hi, Hc. unfold with_rows, with_row. cbn -[bool_decide existsb conflicts].
  rewrite parent_found, !andb_false_r, null_is_null. rewrite (bool_decide_true (_ ∈ _)) by (destruct (Step.status s); set_solver).
  rewrite !elem_of_cons, elem_of_nil. cbn -[existsb conflicts].
  rewrite !pair_true, !steps_conflict.
  setoid_rewrite step_id_conflict. setoid_rewrite step_key_conflict. rewrite !list_elem_of_fmap. naive_solver.
Qed.

Lemma stored_execution T e0 : keyed T → e0 ∈ (map_to_list (t_executions T)).*2 → t_executions T !! WorkflowExecution.id e0 = Some e0.
Proof.
  intros HT ([i e] & -> & He)%list_elem_of_fmap. apply elem_of_map_to_list in He. cbn.
  by rewrite (keyed_executions T HT _ _ He).
Qed.
(** The steps of a new execution, with the rows the store compares them with. *)
Lemma steps_clash T e c : keyed T → sane (NewExecution e) → t_executions T !! WorkflowExecution.id e = None →
  c ∈ insert_refusals head_schema (with_row (stored T) "workflow_executions" (execution_row e))
        (pair "workflow_step_executions" <$> step_rows e) ↔
  (c = "uq_workflow_step_executions_execution_step" ∧ ¬ NoDup (Step.step_key <$> WorkflowExecution.steps e)) ∨
  (c = "pk_workflow_step_executions" ∧
     (¬ NoDup (Step.id <$> WorkflowExecution.steps e) ∨
      ∃ e0 s0, e0 ∈ (map_to_list (t_executions T)).*2 ∧ s0 ∈ WorkflowExecution.steps e0 ∧
        Step.id s0 ∈ Step.id <$> WorkflowExecution.steps e)).
Proof.
  intros HT Hs He. rewrite insert_refusals_elem. unfold step_rows. cbn in Hs. rewrite Forall_forall in Hs.
  assert (∀ d s t, WorkflowExecution.steps e = d ++ s :: t → s ∈ WorkflowExecution.steps e) as Hin
    by (intros d s t ->; set_solver).
  split.
  - intros (rd & r & rt & Hrows & Hc). apply fmap_app_inv in Hrows as (d & t' & -> & Ht & Hst).
    destruct t' as [|s t]; simplify_eq/=.
    destruct (Hs s (Hin _ _ _ Hst)) as [Hi Hcp]. rewrite step_refused in Hc by done. rewrite Hst, !fmap_app, !fmap_cons.
    destruct Hc as [[-> Hk]|[-> Hk]]; [left|right]; (split; [done|]).
    + destruct Hk as [(e0 & s0 & He0 & _ & Hid & _)|Hk].
      { apply stored_execution in He0; [|done]. rewrite Hid in He0. congruence. }
      intros (_ & Hn & _)%NoDup_app. apply (Hn _ Hk). left.
    + destruct Hk as [(e0 & s0 & He0 & Hs0 & Hid)|Hk]; [right|left].
      * exists e0, s0. split_and!; [done..|]. rewrite Hid. set_solver.
      * intros (_ & Hn & _)%NoDup_app. apply (Hn _ Hk). left.
  - assert (∀ d s t, WorkflowExecution.steps e = d ++ s :: t → 
      (c = "uq_workflow_step_executions_execution_step" ∧ Step.step_key s ∈ Step.step_key <$> d) ∨
      (c = "pk_workflow_step_executions" ∧
         ((∃ e0 s0, e0 ∈ (map_to_list (t_executions T)).*2 ∧ s0 ∈ WorkflowExecution.steps e0 ∧ Step.id s0 = Step.id s) ∨
          Step.id s ∈ Step.id <$> d)) →
      ∃ done_ r todo, step_row e <$> WorkflowExecution.steps e = done_ ++ r :: todo ∧
        c ∈ refusals head_schema (with_rows (with_row (stored T) "workflow_executions" (execution_row e))
              "workflow_step_executions" done_) "workflow_step_executions" r) as Hat.
    { intros d s t Hst Hc. destruct (Hs s (Hin _ _ _ Hst)) as [Hi Hcp].
      exists (step_row e <$> d), (step_row e s), (step_row e <$> t). rewrite Hst, fmap_app. split; [done|].
      rewrite step_refused by done. tauto. }
    intros [[-> Hn]|[-> [Hn|(e0 & s0 & He0 & Hs0 & Hid)]]].
    + apply repeated_split in Hn as (d & s & t & Hst & Hk). eapply Hat; eauto.
    + apply repeated_split in Hn as (d & s & t & Hst & Hk). eapply Hat; eauto.
    + apply list_elem_of_fmap in Hid as (s & Hid & (d & t & Hst)%list_elem_of_split). eapply Hat; [exact Hst|]. right.
      split; [done|]. left. by exists e0, s0.
Qed.
Lemma step_ids_stored T (ids : list UUID) :
  existsb (λ kv, existsb (λ s, bool_decide (Step.id s ∈ ids)) (WorkflowExecution.steps kv.2)) (map_to_list (t_executions T)) = true ↔
  ∃ e0 s0, e0 ∈ (map_to_list (t_executions T)).*2 ∧ s0 ∈ WorkflowExecution.steps e0 ∧ Step.id s0 ∈ ids.
Proof.
  rewrite <- (existsb_fmap (λ e0, existsb (λ s, bool_decide (Step.id s ∈ ids)) (WorkflowExecution.steps e0)) snd), existsb_elem.
  setoid_rewrite existsb_elem. setoid_rewrite bool_decide_eq_true. naive_solver.
Qed.
Lemma execution_refusals T e : keyed T →
  refusals head_schema (stored T) "workflow_executions" (execution_row e) =
  named [("ck_workflow_executions_ck_workflow_executions_status", false);
         ("uq_workflow_executions_idempotency_key",
            match WorkflowExecution.idempotency_key e with
            | None => false
            | Some k => existsb (λ kv, bool_decide (WorkflowExecution.idempotency_key kv.2 = Some k)) (map_to_list (t_executions T))
            end);
         ("fk_workflow_executions_definition_id", negb (bool_decide (is_Some (t_definitions T !! WorkflowExecution.definition_id e))));
         ("pk_workflow_executions", bool_decide (is_Some (t_executions T !! WorkflowExecution.id e)))].
Proof.
  intros HT. erewrite refusals_at by (vm_compute; reflexivity). cbn -[named bool_decide stored existsb conflicts].
  rewrite execution_id_taken, execution_key_taken, definition_referred, uuid_is_null by done.
  by rewrite (bool_decide_true (_ ∈ _)) by (destruct (WorkflowExecution.status e); set_solver).
Qed.
Lemma executions_explained T e : keyed T → sane (NewExecution e) →
  explains (violated T (NewExecution e)) (insert_refusals head_schema (stored T) (new_rows (NewExecution e))).
Proof.
  intros HT Hs. pose proof (steps_clash T e) as Hc. unfold new_rows.
  cbn [insert_refusals]. revert Hc. generalize (insert_refusals head_schema
    (with_row (stored T) "workflow_executions" (execution_row e)) (pair "workflow_step_executions" <$> step_rows e)) as ss.
  intros ss Hc. rewrite execution_refusals by done. unfold violated.
  destruct (bool_decide (is_Some (t_executions _ !! _))) eqn:Hi; [apply elem_of_app; left; refused|].
  destruct (match WorkflowExecution.idempotency_key e with Some _ => _ | None => _ end); [apply elem_of_app; left; refused|].
  destruct (bool_decide (is_Some (t_definitions _ !! _))); [|apply elem_of_app; left; refused].
  apply bool_decide_eq_false, eq_None_not_Some in Hi. cbn [negb].
  destruct (negb (bool_decide (NoDup (Step.id <$> _))) || _) eqn:Hp;
    [|destruct (negb (bool_decide (NoDup (Step.step_key <$> _)))) eqn:Hk]; cbn -[bool_decide existsb].
  - rewrite Hc by done. right. split; [done|]. apply orb_true_iff in Hp as [Hp|Hp]; [left|right; by apply step_ids_stored].
    by apply negb_true_iff, bool_decide_eq_false in Hp.
  - rewrite Hc by done. left. split; [done|]. by apply negb_true_iff, bool_decide_eq_false in Hk.
  - apply orb_false_iff in Hp as [Hp Hp']. apply negb_false_iff, bool_decide_eq_true in Hp, Hk.
    apply elem_of_nil_inv. intros c. rewrite Hc by done. rewrite <- step_ids_stored, Hp'. naive_solver.
Qed.

(** The store after an accepted INSERT holds the old rows and the new ones. *)
Definition rows_for (name : string) (l : list (string * row)) : list row :=
  (List.filter (λ x, String.eqb x.1 name) l).*2.
Lemma insert_absent_rows {K V} `{Countable K} (m : gmap K V) k v :
  m !! k = None → (map_to_list (insert_absent k v m)).*2 ≡ₚ (map_to_list m).*2 ++ [v].
Proof.
  intros Hk. unfold insert_absent. rewrite Hk, (map_to_list_insert _ _ _ Hk). cbn. apply Permutation_cons_append.
Qed.
Lemma insert_absent_keyed {K V} `{Countable K} (key : V → K) (m : gmap K V) v :
  (∀ i x, m !! i = Some x → key x = i) → ∀ i x, insert_absent (key v) v m !! i = Some x → key x = i.
Proof.
  intros Hm i x. unfold insert_absent. destruct (m !! key v) eqn:Hv; [by apply Hm|].
  rewrite lookup_insert_Some. intros [[<- <-]|[_ Hx]]; [done|by apply Hm].
Qed.
Lemma insert_row_keyed T n : keyed T → keyed (insert_row T n).
Proof. intros []. destruct n; constructor; cbn; try done; by apply insert_absent_keyed. Qed.

(** No primary key of a new row is in the table the store inserts it into. *)
Definition absent (T : tables) (n : new_row) : Prop :=
  match n with
  | NewRequest r => t_requests T !! IntegrationRequest.id r = None
  | NewReceipt x => t_receipts T !! WebhookReceipt.id x = None
  | NewIdempotency i => t_idempotency T !! IdempotencyRecord.key i = None
  | NewDefinition d => t_definitions T !! WorkflowDefinition.id d = None
  | NewExecution e => t_executions T !! WorkflowExecution.id e = None
  | _ => True
  end.
Lemma admitted_absent T n : violated T n = None → absent T n.
Proof.
  destruct n; cbn -[bool_decide]; try done; destruct (bool_decide (is_Some _)) eqn:Hi; try done;
    intros _; by apply bool_decide_eq_false, eq_None_not_Some in Hi.
Qed.
Lemma rows_for_cons name n r l : rows_for name ((n, r) :: l) = (if String.eqb n name then [r] else []) ++ rows_for name l.
Proof. unfold rows_for. cbn -[String.eqb]. by destruct (String.eqb n name). Qed.
Lemma rows_for_nil name : rows_for name [] = [].
Proof. done. Qed.
Lemma rows_for_steps (e : WorkflowExecution.t) name :
  rows_for name (pair "workflow_step_executions" <$> step_rows e) = if String.eqb "workflow_step_executions" name then step_rows e else [].
Proof.
  induction (step_rows e) as [|r l IH]; [by destruct (String.eqb _ _)|].
  rewrite fmap_cons, rows_for_cons, IH. by destruct (String.eqb _ _).
Qed.
Ltac one_table :=
  rewrite ?insert_absent_rows by done; rewrite ?fmap_app, ?concat_app, ?rows_for_cons, ?rows_for_nil, ?rows_for_steps;
  cbn [String.eqb Ascii.eqb Bool.eqb app]; rewrite ?app_nil_r; try done.
Lemma insert_row_stored T n name : absent T n →
  stored (insert_row T n) name ≡ₚ stored T name ++ rows_for name (new_rows n).
Proof.
  intros Hn. unfold stored.
  repeat match goal with
  | |- context [String.eqb name ?x] =>
      destruct (String.eqb_spec name x) as [->|];
      [destruct n; cbn -[rows_for insert_absent] in *; one_table |]
  end.
  - cbn. by rewrite app_nil_r.
  - destruct n; cbn [new_rows]; rewrite ?rows_for_cons, ?rows_for_nil, ?rows_for_steps;
      repeat match goal with
      | |- context [String.eqb ?x name] => destruct (String.eqb_spec x name) as [Hx|_]; [by symmetry in Hx|]
      end; done.
Qed.

(** ** CHECKs and widths *)

Definition columns_at (s : schema) (name : string) : list column := match s !! name with Some t => t_columns t | None => [] end.
Definition cell_fits (cols : list column) (x : string * cell) : bool :=
  match x.2, List.find (λ c, String.eqb (c_name c) x.1) cols with
  | Text v, Some c => match ddl_type (c_type c) with VARCHAR n => Z.of_nat (String.length v) <=? n | _ => true end
  | Null, Some c => c_nullable c
  | _, Some _ => true
  | _, None => false
  end.
(** The columns that hold an enumeration. *)
Definition enumerated (r : row) : row :=
  List.filter (λ x, existsb (String.eqb x.1) ["status"; "operation_type"; "processing_status"; "action"; "actor"]) r.
(** Every CHECK of the table holds of the row, and its enumerations fit their columns. *)
Definition row_ok (s : schema) (name : string) (r : row) : bool :=
  forallb (λ kc, match kc.2 with Check_ p => satisfies p r | _ => true end) (constraints_at s name) &&
  forallb (cell_fits (columns_at s name)) (enumerated r).
Lemma row_ok_at s name r l cols : constraints_at s name = l → columns_at s name = cols →
  row_ok s name r = forallb (λ kc, match kc.2 with Check_ p => satisfies p r | _ => true end) l &&
                    forallb (cell_fits cols) (enumerated r).
Proof. by intros <- <-. Qed.
Ltac row_at := erewrite row_ok_at by (vm_compute; reflexivity); cbn -[bool_decide Z.leb Z.of_nat].

Lemma request_row_ok r : wf r → row_ok head_schema "integration_requests" (request_row r) = true.
Proof.
  intros [_ _ Ha Hv _]. row_at. rewrite (nonnegative_checks _ Ha), (nonnegative_checks _ Hv).
  by destruct (IntegrationRequest.operation_type r), (IntegrationRequest.status r).
Qed.
Lemma execution_row_ok e : row_ok head_schema "workflow_executions" (execution_row e) = true.
Proof. row_at. by destruct (WorkflowExecution.status e). Qed.
Lemma step_row_ok e s : row_ok head_schema "workflow_step_executions" (step_row e s) = true.
Proof. row_at. by destruct (Step.status s), (Step.operation_type s). Qed.
Lemma audit_row_ok a : row_ok head_schema "audit_events" (audit_row a) = true.
Proof. row_at. by destruct (AuditEvent.action a), (AuditEvent.actor a). Qed.

Lemma run_migrations_spec rs : ∀ s s', migrate (concat (map upgrade rs)) s = Some s' → run_migrations rs s = (true, s').
Proof.
  induction rs as [|r rs IH]; intros s s'; cbn; [congruence|]. rewrite migrate_app.
  destruct (migrate (upgrade r) s) as [s1|]; [apply IH|done].
Qed.

Lemma enumerations_fit :
  forallb (λ nt : string * table, forallb (λ c, match c_type c with
    | ENUM vs n => forallb (λ v, Z.of_nat (String.length v) <=? n) vs
    | _ => true
    end) (t_columns nt.2)) (map_to_list metadata) = true.
Proof. vm_compute. reflexivity. Qed.

(** * Theorems *)

Module SchemaTheorems.

(** What Alembic documents of autogenerate, as far as it is relied on. *)
Definition compares (compare_metadata : schema → schema → list string) : Prop :=
  ∀ migrated declared, in_sync migrated declared → compare_metadata migrated declared = [].

(** C22. The migrations build the database the models describe. The revisions form one
    chain; from whichever of them a database is at, running the rest succeeds and
    leads to one schema; that schema and the declarative models have the same
    tables, the same columns with their types, nullability and defaults, the same
    indexes, primary keys and unique constraints under the same names and the same
    references, so that scripts/check_migrations.py exits with 0. *)
Theorem migrations_build_the_models (compare_metadata : schema → schema → list string) (current : nat) :
  compares compare_metadata → (current ≤ head)%nat →
  linear None revisions = true ∧ in_sync head_schema metadata ∧
  ∃ s, upgraded current = Some s ∧ check_migrations_main compare_metadata current s = (0, head_schema).
Proof.
  intros Hc Hn. assert (in_sync head_schema metadata) as Hs.
  { apply synced_spec. pose proof head_synced as Hh. by rewrite upgraded_head_schema in Hh. }
  split; [reflexivity|]. split; [done|]. pose proof (undone current current ltac:(lia)) as Hu. unfold undoes in Hu.
  destruct (upgraded current) as [s|] eqn:Hcur; [|done]. exists s. split; [done|]. unfold check_migrations_main.
  rewrite (run_migrations_spec _ s head_schema); [by rewrite (Hc _ _ Hs)|].
  rewrite <- upgraded_head_schema. by apply upgraded_head.
Qed.

(** Every migration can be undone. From any revision down to any earlier one, and
    to the empty database, the downgrades are accepted one after the other and
    leave exactly the schema that upgrading to that revision builds; upgrading
    again from there leads to the same schema as before. *)
Theorem downgrades_undo_upgrades (m n : nat) :
  (m ≤ n ≤ head)%nat →
  ∃ s s', upgraded n = Some s ∧ upgraded m = Some s' ∧ migrate (downgrades m n) s = Some s' ∧
    run_migrations (drop m revisions) s' = (true, head_schema).
Proof.
  intros Hmn. pose proof (undone m n Hmn) as Hu. pose proof (undone m m ltac:(lia)) as Hv. unfold undoes in *.
  destruct (upgraded n) as [s|]; [|done]. destruct (upgraded m) as [s'|] eqn:Hm; [|done].
  apply bool_decide_eq_true in Hu. exists s, s'. split_and!; [done..|]. apply run_migrations_spec.
  rewrite <- upgraded_head_schema. apply upgraded_head; [lia|done].
Qed.

(** C11. The store refuses exactly what the migrated database refuses. For every kind of
    row the platform inserts, the store reports a violated constraint only if
    PostgreSQL, checking the primary keys, unique constraints, references and
    CHECKs of the schema at head against the stored rows, refuses the row because
    of the constraint of that name; and when the store accepts it no constraint
    refuses it, and the tables then hold the old rows and the new ones. An
    execution is inserted with its steps, one after the other. (The stored rows are
    filed under their own keys, [keyed], which insertion keeps; and the new row is
    as the platform builds it, [sane]: counts and versions not negative, an event
    version of at least one, steps that have no requests yet.) *)
Theorem store_enforces_the_schema (T : tables) (n : new_row) :
  keyed T → sane n →
  explains (violated T n) (insert_refusals head_schema (stored T) (new_rows n)) ∧
  (violated T n = None →
     keyed (insert_row T n) ∧ ∀ name, stored (insert_row T n) name ≡ₚ stored T name ++ rows_for name (new_rows n)).
Proof.
  intros HT Hn. split.
  - destruct n; [..|by apply executions_explained]; cbn [new_rows insert_refusals]; rewrite app_nil_r;
      eauto using requests_explained, receipts_explained, audit_explained, outbox_explained, idempotency_explained,
        definitions_explained.
  - intros Hv. split; [by apply insert_row_keyed|]. intros name. by apply insert_row_stored, admitted_absent.
Qed.

(** What the platform stores passes the CHECKs of the database. In every reachable
    state every request, audit row, workflow execution and workflow step satisfies
    every CHECK of its table at head (attempt counts and versions are not
    negative, statuses are ones the migrations list), and every status, operation,
    action and actor fits the width of its column. *)
Theorem stored_rows_pass_the_checks `{Env} `{P : Platform} `{X : Externals} {HP : PlatformOk P} {HX : ExternalsOk X}
    (cfg : Settings) (w : World) (name : string) (r : row) :
  reachable cfg w →
  name ∈ ["integration_requests"; "audit_events"; "workflow_executions"; "workflow_step_executions"] →
  r ∈ stored (db w) name → row_ok head_schema name r = true.
Proof.
  intros (w0 & Hz & Hr) Hname Hin.
  assert (Journaled (db w)) as HJ by (apply (steps_sound cfg w0 w); [rewrite Hz; apply journaled_empty|done]).
  rewrite !elem_of_cons, elem_of_nil in Hname. destruct Hname as [->|[->|[->|[->|[]]]]]; cbn in Hin.
  - apply list_elem_of_fmap in Hin as (q & -> & ([i q'] & -> & Hq)%list_elem_of_fmap).
    apply elem_of_map_to_list in Hq. specialize (HJ i). rewrite Hq in HJ. by apply request_row_ok, HJ.
  - apply list_elem_of_fmap in Hin as (a & -> & _). apply audit_row_ok.
  - apply list_elem_of_fmap in Hin as (e & -> & _). apply execution_row_ok.
  - apply list_elem_of_In, in_concat in Hin as (l & (e & -> & _)%list_elem_of_In%list_elem_of_fmap & Hl).
    apply list_elem_of_In, list_elem_of_fmap in Hl as (s & -> & _). apply step_row_ok.
Qed.

(** The columns hold the enumerations. The migrations list exactly the statuses and
    operations of requests, the statuses of webhooks, workflows and steps that the
    program has, and every value of an enumeration fits the width of the column
    the models declare for it. The audit actions and the actors of the initial
    revision are those of a program without workflows: exactly the actions of
    workflows and the workflow worker are not among them. *)
Theorem enumerations_fit_the_schema :
  REQUEST_STATUSES ≡ₚ value <$> (members : list RequestStatus.t) ∧
  OPERATION_TYPES ≡ₚ value <$> (members : list OperationType.t) ∧
  WEBHOOK_PROCESSING_STATUSES ≡ₚ value <$> (members : list WebhookProcessingStatus.t) ∧
  WORKFLOW_STATUSES_d4 ≡ₚ value <$> (members : list WorkflowStatus.t) ∧
  STEP_STATUSES ≡ₚ value <$> (members : list WorkflowStepStatus.t) ∧
  (∀ a : AuditAction.t, value a ∈ AUDIT_ACTIONS ↔ String.prefix "workflow." (value a) = false) ∧
  (∀ a : ActorType.t, value a ∈ ACTOR_TYPES ↔ a ≠ ActorType.WORKFLOW_WORKER) ∧
  (∀ name t c vs n, metadata !! name = Some t → c ∈ t_columns t → c_type c = ENUM vs n →
     Forall (λ v, Z.of_nat (String.length v) ≤ n) vs).
Proof.
  split_and!; try (refine (bool_decide_unpack _ _); vm_compute; exact I).
  - intros a. rewrite <- negb_true_iff, <- (bool_decide_eq_true (_ ∈ AUDIT_ACTIONS)). by destruct a.
  - intros a. rewrite <- (bool_decide_eq_true (_ ∈ ACTOR_TYPES)). by destruct a.
  - intros name t c vs n Ht Hc Hty. apply elem_of_map_to_list, list_elem_of_In in Ht. apply list_elem_of_In in Hc.
    pose proof enumerations_fit as Hf. rewrite forallb_forall in Hf. specialize (Hf _ Ht). rewrite forallb_forall in Hf.
    specialize (Hf _ Hc). rewrite Hty, forallb_forall in Hf. apply Forall_forall. intros v Hv%list_elem_of_In.
    by apply Z.leb_le, Hf.
Qed.
End SchemaTheorems.

Module SchemaWitnesses.
Export SchemaTheorems.
Import SystemTheorems.
#[local] Existing Instances sample_externals sample_externals_ok sample_system.

Definition toy_compare (migrated declared : schema) : list string := if synced migrated declared then [] else ["drift"].
Lemma toy_compares : compares toy_compare.
Proof. intros s s' Hs. unfold toy_compare. by rewrite (proj2 (synced_spec s s') Hs). Qed.

(** The CHECKs are called one thing in the database and another in the models. *)
Definition check_names (s : schema) (name : string) : list string :=
  (List.filter (λ kc, match kc.2 with Check_ _ => true | _ => false end) (constraints_at s name)).*1.
Example check_names_differ :
  check_names head_schema "outbox_events" =
    ["ck_outbox_events_ck_outbox_events_event_version_positive"; "ck_outbox_events_ck_outbox_events_attempt_count_non_negative"] ∧
  check_names metadata "outbox_events" =
    ["ck_outbox_events_event_version_positive"; "ck_outbox_events_attempt_count_non_negative"].
Proof. vm_compute. done. Qed.

(** A database at the second revision. *)
Lemma migrations_build_the_models_witness :
  linear None revisions = true ∧ in_sync head_schema metadata ∧
  ∃ s, upgraded 2 = Some s ∧ check_migrations_main toy_compare 2 s = (0, head_schema).
Proof. apply (migrations_build_the_models toy_compare 2); [apply toy_compares|unfold head; cbn; lia]. Defined.

(** From head back to the outbox revision. *)
Lemma downgrades_undo_upgrades_witness :
  ∃ s s', upgraded 5 = Some s ∧ upgraded 2 = Some s' ∧ migrate (downgrades 2 5) s = Some s' ∧
    run_migrations (drop 2 revisions) s' = (true, head_schema).
Proof. apply (downgrades_undo_upgrades 2 5). unfold head. cbn. lia. Defined.

(** A second execution reuses a step id of the first. *)
Definition first_execution : WorkflowExecution.t :=
  WorkflowTheorems.sample_execution [WorkflowTheorems.sample_step 1 "a" [] WorkflowStepStatus.PENDING; WorkflowTheorems.sample_step 2 "b" ["a"] WorkflowStepStatus.PENDING].
Definition second_execution : WorkflowExecution.t :=
  first_execution <| WorkflowExecution.id := 2%N |>
    <| WorkflowExecution.steps := [WorkflowTheorems.sample_step 3 "a" [] WorkflowStepStatus.PENDING; WorkflowTheorems.sample_step 2 "b" ["a"] WorkflowStepStatus.PENDING] |>.
Definition one_execution : tables :=
  insert_row (insert_row empty_tables (NewDefinition (WorkflowDefinition.mk 1 "wf" 1 [] (utc 0) false))) (NewExecution first_execution).
Lemma empty_keyed : keyed empty_tables.
Proof. constructor; cbn; intros ? ?; by rewrite lookup_empty. Qed.
Lemma store_enforces_the_schema_witness :
  violated one_execution (NewExecution second_execution) = Some (Store.Unique "pk_workflow_step_executions") ∧
  "pk_workflow_step_executions" ∈
    insert_refusals head_schema (stored one_execution) (new_rows (NewExecution second_execution)).
Proof.
  split; [vm_compute; reflexivity|].
  apply (store_enforces_the_schema one_execution (NewExecution second_execution)).
  - apply insert_row_keyed, insert_row_keyed, empty_keyed.
  - repeat constructor.
Defined.

Lemma stored_rows_pass_the_checks_witness :
  reachable sample_settings finished_world ∧
  forallb (row_ok head_schema "integration_requests") (stored (db finished_world) "integration_requests") = true.
Proof.
  split; [apply finished_reachable|]. apply forallb_forall. intros r Hr.
  apply (stored_rows_pass_the_checks sample_settings finished_world); [apply finished_reachable|left|by apply list_elem_of_In].
Defined.
Example a_request_is_stored : length (stored (db finished_world) "integration_requests") = 1%nat.
Proof. vm_compute. reflexivity. Qed.

(** A status the database of the
    fourth revision does not know. *)
Example timed_out_needs_the_last_revision :
  let e := first_execution <| WorkflowExecution.status := WorkflowStatus.TIMED_OUT |> in
  (λ s, row_ok s "workflow_executions" (execution_row e)) <$> upgraded 4 = Some false ∧
  (λ s, row_ok s "workflow_executions" (execution_row e)) <$> upgraded 5 = Some true.
Proof. vm_compute. done. Qed.
Example tables_are_made_once :
  migrate (upgrade initial_schema ++ upgrade initial_schema) ∅ = None ∧ migrate (downgrade initial_schema) ∅ = None.
Proof. vm_compute. done. Qed.
End SchemaWitnesses.
