(* ===== verification/Mappers.v ===== *)
(** Rows of the database and domain objects ([infrastructure/db/mappers.py]).

    A row gives every column of its table a value. The database and its driver are
    parameters ([Database]): they refuse a value that does not fit its column, show
    an instant in whatever zone the session has, or without one, and read JSONB back
    with the keys of objects in an order of their own and numbers as they please.
    Enumerations are stored by their values ([values_callable]) and [None] in a JSONB
    column as JSON null (SQLAlchemy's [none_as_null] is off). The store of [Store]
    and [WorkflowStore] keeps domain objects; the theorems below say what that
    leaves out. *)

From S2P Require Import Prelude PyData PyTime Enums Errors StateMachine ValueObjects Policies Entities RequestFacts.
From S2P Require Import Workflow Records Store Journal Ports Settlement Samples Outbox WorkflowStore.
From S2P Require Import Redaction Schema SchemaFacts.

(** * Rows *)

Inductive sql_value : Type :=
  | VNull
  | VUuid (u : UUID)
  | VText (s : string)
  | VInt (n : Z)
  | VBool (b : bool)
  | VJson (j : json)
  | VTime (d : datetime).
Definition sql_row : Type := list (string * sql_value).
Fixpoint column_of (r : sql_row) (c : string) : sql_value :=
  match r with
  | [] => VNull
  | (c', v) :: r' => if String.eqb c' c then v else column_of r' c
  end.
Definition null_or {A} (f : A → sql_value) (o : option A) : sql_value := match o with Some a => f a | None => VNull end.

(** [None] in a JSONB column. *)
Definition json_or_null (o : option dict) : sql_value := VJson (from_option JObj JNull o).

(** ** What the columns take *)

(** PostgreSQL has no U+0000 in text, and objects have distinct keys. *)
Definition text_ok (s : string) : bool := negb (existsb (Ascii.eqb Ascii.zero) (String.list_ascii_of_string s)).
Fixpoint json_ok (j : json) : bool :=
  match j with
  | JStr s => text_ok s
  | JList l => forallb json_ok l
  | JObj d => bool_decide (NoDup d.*1) && forallb (λ kv, text_ok kv.1 && json_ok kv.2) d
  | _ => true
  end.
(** A value of the type of the column; NULL only where the column allows it, and a
    text of an enumeration only if it is one of its values. *)
Definition typed (c : column) (v : sql_value) : bool :=
  match v, c_type c with
  | VNull, _ => c_nullable c
  | VText s, ENUM vs _ => bool_decide (s ∈ vs)
  | VUuid _, PgUUID | VText _, VARCHAR _ | VText _, TEXT | VInt _, INTEGER | VBool _, BOOLEAN | VJson _, JSONB
  | VTime _, TIMESTAMPTZ => true
  | _, _ => false
  end.
(** A value PostgreSQL can hold at all: integers have 32 bits. *)
Definition holdable (v : sql_value) : bool :=
  match v with
  | VText s => text_ok s
  | VJson j => json_ok j
  | VInt n => (- 2 ^ 31 <=? n) && (n <? 2 ^ 31)
  | _ => true
  end.
(** A text no longer than its column is wide. *)
Definition within (n : Z) (v : sql_value) : bool := match v with VText s => Str.len s <=? n | _ => true end.
Definition narrow (c : column) (v : sql_value) : bool :=
  match c_type c with VARCHAR n | ENUM _ n => within n v | _ => true end.
Definition value_fits (c : column) (v : sql_value) : bool := typed c v && holdable v && narrow c v.
Definition values_fit (t : table) (r : sql_row) : bool :=
  forallb (λ c, value_fits c (column_of r (c_name c))) (t_columns t).

(** ** What the database gives back *)

(** [presented us]: the [datetime] the driver makes of the instant [us]. [jsonb j]: what
    is read of a JSONB value that was written as [j]. *)
Class Database := {
  presented : Z → datetime;
  jsonb : json → json;
}.
(** What is relied on: a [datetime] with a zone is the instant, one without is its
    wall clock in UTC; JSONB keeps everything but the order of keys and the
    representation of fractional numbers. *)
Class DatabaseOk `{Database} : Prop := {
  presented_instant us :
    match utc_offset (presented us) with Some _ => instant (presented us) = us | None => wall_us (presented us) = us end;
  jsonb_null : jsonb JNull = JNull;
  jsonb_bool b : jsonb (JBool b) = JBool b;
  jsonb_int n : jsonb (JInt n) = JInt n;
  jsonb_text s : jsonb (JStr s) = JStr s;
  jsonb_list l : jsonb (JList l) = JList (map jsonb l);
  jsonb_object d : ∃ d', jsonb (JObj d) = JObj d' ∧ (NoDup d.*1 → d' ≡ₚ map (λ kv, (kv.1, jsonb kv.2)) d);
}.
Definition stored_value `{Database} (v : sql_value) : sql_value :=
  match v with
  | VTime d => VTime (presented (instant d))
  | VJson j => VJson (jsonb j)
  | _ => v
  end.
Definition as_read `{Database} (r : sql_row) : sql_row := map (λ cv, (cv.1, stored_value cv.2)) r.
(** Writing a row to the table [t] and reading it. *)
Definition through_database `{Database} (t : table) (r : sql_row) : outcome exn sql_row :=
  if values_fit t r then Ret (as_read r) else Raise (EOther "DataError").
(** An object as JSONB gives it back. *)
Definition jdict `{Database} (d : dict) : dict := match jsonb (JObj d) with JObj d' => d' | _ => [] end.

(** [UPDATE ... SET values] *)
Definition sql_update (values : sql_row) (r : sql_row) : sql_row :=
  map (λ cv, (cv.1, if existsb (λ x, String.eqb x.1 cv.1) values then column_of values cv.1 else cv.2)) r.

(** An attribute of a row, at the type of its column. *)
Definition obind {A B} (o : outcome exn A) (k : A → outcome exn B) : outcome exn B :=
  match o with Ret a => k a | Raise e => Raise e end.
Notation "'let?' x ':=' c 'in' k" := (obind c (λ x, k)) (at level 10, x name, c at level 100, k at level 200).
Definition mistyped {A} : outcome exn A := Raise (ETypeError "not the type of the column").
Definition text (r : sql_row) (c : string) : outcome exn string :=
  match column_of r c with VText s => Ret s | _ => mistyped end.
Definition int (r : sql_row) (c : string) : outcome exn Z :=
  match column_of r c with VInt n => Ret n | _ => mistyped end.
Definition uuid (r : sql_row) (c : string) : outcome exn UUID :=
  match column_of r c with VUuid u => Ret u | _ => mistyped end.
Definition flag (r : sql_row) (c : string) : outcome exn bool :=
  match column_of r c with VBool b => Ret b | _ => mistyped end.
Definition object (r : sql_row) (c : string) : outcome exn dict :=
  match column_of r c with VJson (JObj d) => Ret d | _ => mistyped end.
Definition optionally {A} (read : sql_row → string → outcome exn A) (r : sql_row) (c : string) : outcome exn (option A) :=
  match column_of r c with VNull | VJson JNull => Ret None | _ => let? a := read r c in Ret (Some a) end.
(** A column with [values_callable]: SQLAlchemy looks the text up. *)
Definition enum {T} `{StrEnum T} (r : sql_row) (c : string) : outcome exn T :=
  let? s := text r c in
  match of_value s with Some x => Ret x | None => Raise (EOther "LookupError: not among the defined enum values") end.
Arguments enum T {_ _} r c.

Definition as_utc (value : datetime) : datetime :=
  match utc_offset value with
  | None => mk_datetime (wall_us value) (Some 0)
  | Some _ => utc (instant value)
  end.
Definition as_utc_optional (value : option datetime) : option datetime :=
  match value with None => None | Some d => Some (as_utc d) end.
Definition time (r : sql_row) (c : string) : outcome exn datetime :=
  match column_of r c with VTime d => Ret (as_utc d) | _ => mistyped end.

(** [T(v) if v else None] *)
Definition unless_empty (make : string → outcome exn string) (v : option string) : outcome exn (option string) :=
  match v with
  | Some s => if Str.truthy s then let? x := make s in Ret (Some x) else Ret None
  | None => Ret None
  end.

(** * Integration requests *)

Definition request_to_domain (row : sql_row) : outcome exn IntegrationRequest.t :=
  let? id := uuid row "id" in
  let? provider := obind (text row "provider") ProviderSlug.make in
  let? operation_type := enum OperationType.t row "operation_type" in
  let? external_reference := obind (text row "external_reference") ExternalReference.make in
  let? normalized_payload := object row "normalized_payload" in
  let? correlation_id := obind (text row "correlation_id") CorrelationId.make in
  let? created_at := time row "created_at" in
  let? updated_at := time row "updated_at" in
  let? status := enum RequestStatus.t row "status" in
  let? provider_payload := optionally object row "provider_payload" in
  let? provider_reference := optionally text row "provider_reference" in
  let? idempotency_key := obind (optionally text row "idempotency_key") (unless_empty IdempotencyKey.make) in
  let? attempt_count := int row "attempt_count" in
  let? last_error_code := optionally text row "last_error_code" in
  let? last_error_message := optionally text row "last_error_message" in
  let? last_error_category := optionally text row "last_error_category" in
  let? next_retry_at := optionally time row "next_retry_at" in
  let? completed_at := optionally time row "completed_at" in
  let? manual_review_reason := optionally text row "manual_review_reason" in
  let? version := int row "version" in
  let? owner_subject := optionally text row "owner_subject" in
  IntegrationRequest.post_init
    (IntegrationRequest.mk id provider operation_type external_reference normalized_payload correlation_id created_at
       updated_at status provider_payload provider_reference idempotency_key attempt_count last_error_code
       last_error_message last_error_category next_retry_at completed_at manual_review_reason version owner_subject).

Definition request_to_row (request : IntegrationRequest.t) : sql_row :=
  [("id", VUuid (IntegrationRequest.id request));
   ("provider", VText (IntegrationRequest.provider request));
   ("operation_type", VText (value (IntegrationRequest.operation_type request)));
   ("external_reference", VText (IntegrationRequest.external_reference request));
   ("normalized_payload", VJson (JObj (IntegrationRequest.normalized_payload request)));
   ("provider_payload", json_or_null (IntegrationRequest.provider_payload request));
   ("provider_reference", null_or VText (IntegrationRequest.provider_reference request));
   ("status", VText (value (IntegrationRequest.status request)));
   ("idempotency_key", null_or VText (IntegrationRequest.idempotency_key request));
   ("attempt_count", VInt (IntegrationRequest.attempt_count request));
   ("correlation_id", VText (IntegrationRequest.correlation_id request));
   ("owner_subject", null_or VText (IntegrationRequest.owner_subject request));
   ("last_error_code", null_or VText (IntegrationRequest.last_error_code request));
   ("last_error_message", null_or VText (IntegrationRequest.last_error_message request));
   ("last_error_category", null_or VText (IntegrationRequest.last_error_category request));
   ("manual_review_reason", null_or VText (IntegrationRequest.manual_review_reason request));
   ("next_retry_at", null_or VTime (IntegrationRequest.next_retry_at request));
   ("created_at", VTime (IntegrationRequest.created_at request));
   ("updated_at", VTime (IntegrationRequest.updated_at request));
   ("completed_at", null_or VTime (IntegrationRequest.completed_at request));
   ("version", VInt (IntegrationRequest.version request))].

Definition request_update_values (request : IntegrationRequest.t) : sql_row :=
  [("normalized_payload", VJson (JObj (IntegrationRequest.normalized_payload request)));
   ("provider_payload", json_or_null (IntegrationRequest.provider_payload request));
   ("provider_reference", null_or VText (IntegrationRequest.provider_reference request));
   ("status", VText (value (IntegrationRequest.status request)));
   ("attempt_count", VInt (IntegrationRequest.attempt_count request));
   ("last_error_code", null_or VText (IntegrationRequest.last_error_code request));
   ("last_error_message", null_or VText (IntegrationRequest.last_error_message request));
   ("last_error_category", null_or VText (IntegrationRequest.last_error_category request));
   ("manual_review_reason", null_or VText (IntegrationRequest.manual_review_reason request));
   ("next_retry_at", null_or VTime (IntegrationRequest.next_retry_at request));
   ("updated_at", VTime (IntegrationRequest.updated_at request));
   ("completed_at", null_or VTime (IntegrationRequest.completed_at request));
   ("version", VInt (IntegrationRequest.version request))].

(** * Webhook receipts *)

(** [metadata.get(key)] of what [SignatureMetadata.to_dict] wrote. *)
Definition text_member (metadata : dict) (key : string) : outcome exn (option string) :=
  match dict_get key metadata with
  | None | Some JNull => Ret None
  | Some (JStr s) => Ret (Some s)
  | Some _ => mistyped
  end.
Definition receipt_to_domain (row : sql_row) : outcome exn WebhookReceipt.t :=
  let? metadata := optionally object row "signature_metadata" in
  let metadata := default [] metadata in
  let? id := uuid row "id" in
  let? provider := obind (text row "provider") ProviderSlug.make in
  let? event_id := text row "event_id" in
  let? event_type := text row "event_type" in
  let? payload := object row "payload" in
  let? scheme := match dict_get "scheme" metadata with None => Ret "unknown" | Some (JStr s) => Ret s | Some _ => mistyped end in
  let? key_id := text_member metadata "key_id" in
  let? timestamp := text_member metadata "timestamp" in
  let? algorithm := text_member metadata "algorithm" in
  let verified := json_truthy (default (JBool false) (dict_get "verified" metadata)) in
  let? received_at := time row "received_at" in
  let? provider_reference := optionally text row "provider_reference" in
  let? correlation_id := obind (optionally text row "correlation_id") (unless_empty CorrelationId.make) in
  let? processing_status := enum WebhookProcessingStatus.t row "processing_status" in
  let? integration_request_id := optionally uuid row "integration_request_id" in
  let? processed_at := optionally time row "processed_at" in
  let? failure_reason := optionally text row "failure_reason" in
  let? attempt_count := int row "attempt_count" in
  let? next_attempt_at := optionally time row "next_attempt_at" in
  WebhookReceipt.make
    (WebhookReceipt.mk id provider event_id event_type payload
       (mk_signature_metadata scheme key_id timestamp algorithm verified) received_at provider_reference correlation_id
       processing_status integration_request_id processed_at failure_reason attempt_count next_attempt_at).

Definition receipt_to_row (receipt : WebhookReceipt.t) : sql_row :=
  [("id", VUuid (WebhookReceipt.id receipt));
   ("provider", VText (WebhookReceipt.provider receipt));
   ("event_id", VText (WebhookReceipt.event_id receipt));
   ("event_type", VText (WebhookReceipt.event_type receipt));
   ("provider_reference", null_or VText (WebhookReceipt.provider_reference receipt));
   ("signature_metadata", VJson (JObj (signature_to_dict (WebhookReceipt.sig_metadata receipt))));
   ("payload", VJson (JObj (WebhookReceipt.payload receipt)));
   ("processing_status", VText (value (WebhookReceipt.processing_status receipt)));
   ("integration_request_id", null_or VUuid (WebhookReceipt.integration_request_id receipt));
   ("correlation_id", null_or VText (WebhookReceipt.correlation_id receipt));
   ("failure_reason", null_or VText (WebhookReceipt.failure_reason receipt));
   ("attempt_count", VInt (WebhookReceipt.attempt_count receipt));
   ("received_at", VTime (WebhookReceipt.received_at receipt));
   ("processed_at", null_or VTime (WebhookReceipt.processed_at receipt));
   ("next_attempt_at", null_or VTime (WebhookReceipt.next_attempt_at receipt))].

Definition receipt_update_values (receipt : WebhookReceipt.t) : sql_row :=
  [("processing_status", VText (value (WebhookReceipt.processing_status receipt)));
   ("integration_request_id", null_or VUuid (WebhookReceipt.integration_request_id receipt));
   ("provider_reference", null_or VText (WebhookReceipt.provider_reference receipt));
   ("failure_reason", null_or VText (WebhookReceipt.failure_reason receipt));
   ("attempt_count", VInt (WebhookReceipt.attempt_count receipt));
   ("processed_at", null_or VTime (WebhookReceipt.processed_at receipt));
   ("next_attempt_at", null_or VTime (WebhookReceipt.next_attempt_at receipt))].

(** * Audit and outbox *)

(** The attribute [event_metadata] is the column [metadata]. *)
Definition audit_to_domain (row : sql_row) : outcome exn AuditEvent.t :=
  let? id := uuid row "id" in
  let? aggregate_type := text row "aggregate_type" in
  let? aggregate_id := text row "aggregate_id" in
  let? action := enum AuditAction.t row "action" in
  let? actor := enum ActorType.t row "actor" in
  let? correlation_id := obind (text row "correlation_id") CorrelationId.make in
  let? occurred_at := time row "occurred_at" in
  let? previous_state := optionally text row "previous_state" in
  let? new_state := optionally text row "new_state" in
  let? actor_id := optionally text row "actor_id" in
  let? metadata := optionally object row "metadata" in
  AuditEvent.make (AuditEvent.mk id aggregate_type aggregate_id action actor correlation_id occurred_at previous_state
    new_state actor_id (default [] metadata)).

Definition audit_to_row (event : AuditEvent.t) : sql_row :=
  [("id", VUuid (AuditEvent.id event));
   ("aggregate_type", VText (AuditEvent.aggregate_type event));
   ("aggregate_id", VText (AuditEvent.aggregate_id event));
   ("action", VText (value (AuditEvent.action event)));
   ("actor", VText (value (AuditEvent.actor event)));
   ("actor_id", null_or VText (AuditEvent.actor_id event));
   ("previous_state", null_or VText (AuditEvent.previous_state event));
   ("new_state", null_or VText (AuditEvent.new_state event));
   ("correlation_id", VText (AuditEvent.correlation_id event));
   ("metadata", VJson (JObj (AuditEvent.metadata event)));
   ("occurred_at", VTime (AuditEvent.occurred_at event))].

Definition outbox_to_domain (row : sql_row) : outcome exn OutboxEvent.t :=
  let? id := uuid row "id" in
  let? event_id := uuid row "event_id" in
  let? event_type := text row "event_type" in
  let? event_version := int row "event_version" in
  let? aggregate_type := text row "aggregate_type" in
  let? aggregate_id := text row "aggregate_id" in
  let? payload := object row "payload" in
  let? correlation_id := obind (text row "correlation_id") CorrelationId.make in
  let? created_at := time row "created_at" in
  let? causation_id := optionally text row "causation_id" in
  let? partition_key := optionally text row "partition_key" in
  let? published_at := optionally time row "published_at" in
  let? attempt_count := int row "attempt_count" in
  let? next_attempt_at := optionally time row "next_attempt_at" in
  let? last_error := optionally text row "last_error" in
  let? dead_lettered_at := optionally time row "dead_lettered_at" in
  OutboxEvent.make (OutboxEvent.mk id event_id event_type event_version aggregate_type aggregate_id payload correlation_id
    created_at causation_id partition_key published_at attempt_count next_attempt_at last_error dead_lettered_at).

Definition outbox_to_row (event : OutboxEvent.t) : sql_row :=
  [("id", VUuid (OutboxEvent.id event));
   ("event_id", VUuid (OutboxEvent.event_id event));
   ("event_type", VText (OutboxEvent.event_type event));
   ("event_version", VInt (OutboxEvent.event_version event));
   ("aggregate_type", VText (OutboxEvent.aggregate_type event));
   ("aggregate_id", VText (OutboxEvent.aggregate_id event));
   ("payload", VJson (JObj (OutboxEvent.payload event)));
   ("correlation_id", VText (OutboxEvent.correlation_id event));
   ("causation_id", null_or VText (OutboxEvent.causation_id event));
   ("partition_key", null_or VText (OutboxEvent.partition_key event));
   ("created_at", VTime (OutboxEvent.created_at event));
   ("published_at", null_or VTime (OutboxEvent.published_at event));
   ("attempt_count", VInt (OutboxEvent.attempt_count event));
   ("next_attempt_at", null_or VTime (OutboxEvent.next_attempt_at event));
   ("last_error", null_or VText (OutboxEvent.last_error event));
   ("dead_lettered_at", null_or VTime (OutboxEvent.dead_lettered_at event))].

Definition idempotency_to_domain (row : sql_row) : outcome exn IdempotencyRecord.t :=
  let? key := text row "key" in
  let? fingerprint := text row "fingerprint" in
  let? request_id := uuid row "request_id" in
  let? response_status := int row "response_status" in
  let? created_at := time row "created_at" in
  let? expires_at := optionally time row "expires_at" in
  IdempotencyRecord.make (IdempotencyRecord.mk key fingerprint request_id response_status created_at expires_at).

Definition idempotency_to_row (record : IdempotencyRecord.t) : sql_row :=
  [("key", VText (IdempotencyRecord.key record));
   ("fingerprint", VText (IdempotencyRecord.fingerprint record));
   ("request_id", VUuid (IdempotencyRecord.request_id record));
   ("response_status", VInt (IdempotencyRecord.response_status record));
   ("created_at", VTime (IdempotencyRecord.created_at record));
   ("expires_at", null_or VTime (IdempotencyRecord.expires_at record))].

(** * Workflows *)

(** [T(v)] *)
Definition member_of {T} `{StrEnum T} (s : string) : outcome exn T :=
  match of_value s with Some x => Ret x | None => Raise (EValueError "not a valid member") end.
Arguments member_of T {_ _} s.
Fixpoint objects_of (l : list json) : outcome exn (list dict) :=
  match l with
  | [] => Ret []
  | JObj d :: l' => let? ds := objects_of l' in Ret (d :: ds)
  | _ :: _ => mistyped
  end.
(** [tuple(row.depends_on or ())] *)
Definition texts (r : sql_row) (c : string) : outcome exn (list string) :=
  match column_of r c with
  | VNull | VJson JNull => Ret []
  | VJson j => match strings_of (Some j) with Some l => Ret l | None => mistyped end
  | _ => mistyped
  end.

Definition workflow_definition_to_domain (row : sql_row) : outcome exn WorkflowDefinition.t :=
  let? id := uuid row "id" in
  let? name := text row "name" in
  let? version := int row "version" in
  let? raw := match column_of row "steps" with VJson (JList l) => objects_of l | _ => mistyped end in
  let? steps := steps_from_json raw in
  let? created_at := time row "created_at" in
  let? immutable := flag row "immutable" in
  Ret (WorkflowDefinition.mk id name version steps created_at immutable).

Definition workflow_definition_to_row (definition : WorkflowDefinition.t) : sql_row :=
  [("id", VUuid (WorkflowDefinition.id definition));
   ("name", VText (WorkflowDefinition.name definition));
   ("version", VInt (WorkflowDefinition.version definition));
   ("steps", VJson (JList (map (λ s, JObj (_step_def_to_json s)) (WorkflowDefinition.steps definition))));
   ("immutable", VBool (WorkflowDefinition.immutable definition));
   ("created_at", VTime (WorkflowDefinition.created_at definition))].

Definition workflow_step_to_domain (row : sql_row) : outcome exn Step.t :=
  let? id := uuid row "id" in
  let? workflow_execution_id := uuid row "workflow_execution_id" in
  let? step_key := text row "step_key" in
  let? provider := text row "provider" in
  let? operation_type := obind (text row "operation_type") (member_of OperationType.t) in
  let? depends_on := texts row "depends_on" in
  let? compensate := optionally text row "compensate_operation" in
  let? compensate_operation :=
    match compensate with
    | Some s => if Str.truthy s then let? op := member_of OperationType.t s in Ret (Some op) else Ret None
    | None => Ret None
    end in
  let? wait_for_webhook := flag row "wait_for_webhook" in
  let? status := obind (text row "status") (member_of WorkflowStepStatus.t) in
  let? attempt_count := int row "attempt_count" in
  let? max_attempts := int row "max_attempts" in
  let? integration_request_id := optionally uuid row "integration_request_id" in
  let? compensation_request_id := optionally uuid row "compensation_request_id" in
  let? input_payload := optionally object row "input_payload" in
  let? output_payload := optionally object row "output_payload" in
  let? error_code := optionally text row "error_code" in
  let? error_message := optionally text row "error_message" in
  let? created_at := time row "created_at" in
  let? updated_at := time row "updated_at" in
  let? completed_at := optionally time row "completed_at" in
  let? version := int row "version" in
  Ret (Step.mk id workflow_execution_id step_key provider operation_type depends_on compensate_operation wait_for_webhook
         status attempt_count max_attempts integration_request_id compensation_request_id (default [] input_payload)
         output_payload error_code error_message created_at updated_at completed_at version).

Definition workflow_step_to_row (step : Step.t) : sql_row :=
  [("id", VUuid (Step.id step));
   ("workflow_execution_id", VUuid (Step.workflow_execution_id step));
   ("step_key", VText (Step.step_key step));
   ("provider", VText (Step.provider step));
   ("operation_type", VText (value (Step.operation_type step)));
   ("depends_on", VJson (JList (JStr <$> Step.depends_on step)));
   ("compensate_operation", null_or VText (value <$> Step.compensate_operation step));
   ("wait_for_webhook", VBool (Step.wait_for_webhook step));
   ("status", VText (value (Step.status step)));
   ("attempt_count", VInt (Step.attempt_count step));
   ("max_attempts", VInt (Step.max_attempts step));
   ("integration_request_id", null_or VUuid (Step.integration_request_id step));
   ("compensation_request_id", null_or VUuid (Step.compensation_request_id step));
   ("input_payload", VJson (JObj (Step.input_payload step)));
   ("output_payload", json_or_null (Step.output_payload step));
   ("error_code", null_or VText (Step.error_code step));
   ("error_message", null_or VText (Step.error_message step));
   ("version", VInt (Step.version step));
   ("created_at", VTime (Step.created_at step));
   ("updated_at", VTime (Step.updated_at step));
   ("completed_at", null_or VTime (Step.completed_at step))].

Fixpoint steps_to_domain (rows : list sql_row) : outcome exn (list Step.t) :=
  match rows with
  | [] => Ret []
  | r :: rows' => let? s := workflow_step_to_domain r in let? ss := steps_to_domain rows' in Ret (s :: ss)
  end.
Definition workflow_execution_to_domain (row : sql_row) (steps : list sql_row) : outcome exn WorkflowExecution.t :=
  let? id := uuid row "id" in
  let? definition_id := uuid row "definition_id" in
  let? definition_name := text row "definition_name" in
  let? definition_version := int row "definition_version" in
  let? status := obind (text row "status") (member_of WorkflowStatus.t) in
  let? correlation_id := text row "correlation_id" in
  let? idempotency_key := optionally text row "idempotency_key" in
  let? input_payload := optionally object row "input_payload" in
  let? steps := steps_to_domain steps in
  let? created_at := time row "created_at" in
  let? updated_at := time row "updated_at" in
  let? completed_at := optionally time row "completed_at" in
  let? manual_review_reason := optionally text row "manual_review_reason" in
  let? version := int row "version" in
  let? owner_subject := optionally text row "owner_subject" in
  let? claim_lease_until := optionally time row "claim_lease_until" in
  let? deadline_at := optionally time row "deadline_at" in
  let? cancel_reason := optionally text row "cancel_reason" in
  let? deadline_processed_at := optionally time row "deadline_processed_at" in
  Ret (WorkflowExecution.mk id definition_id definition_name definition_version status correlation_id idempotency_key
         (default [] input_payload) steps created_at updated_at completed_at manual_review_reason version owner_subject
         claim_lease_until deadline_at cancel_reason deadline_processed_at).

Definition workflow_execution_to_row (execution : WorkflowExecution.t) : sql_row :=
  [("id", VUuid (WorkflowExecution.id execution));
   ("definition_id", VUuid (WorkflowExecution.definition_id execution));
   ("definition_name", VText (WorkflowExecution.definition_name execution));
   ("definition_version", VInt (WorkflowExecution.definition_version execution));
   ("status", VText (value (WorkflowExecution.status execution)));
   ("correlation_id", VText (WorkflowExecution.correlation_id execution));
   ("idempotency_key", null_or VText (WorkflowExecution.idempotency_key execution));
   ("owner_subject", null_or VText (WorkflowExecution.owner_subject execution));
   ("input_payload", VJson (JObj (WorkflowExecution.input_payload execution)));
   ("manual_review_reason", null_or VText (WorkflowExecution.manual_review_reason execution));
   ("version", VInt (WorkflowExecution.version execution));
   ("claim_lease_until", null_or VTime (WorkflowExecution.claim_lease_until execution));
   ("deadline_at", null_or VTime (WorkflowExecution.deadline_at execution));
   ("cancel_reason", null_or VText (WorkflowExecution.cancel_reason execution));
   ("deadline_processed_at", null_or VTime (WorkflowExecution.deadline_processed_at execution));
   ("created_at", VTime (WorkflowExecution.created_at execution));
   ("updated_at", VTime (WorkflowExecution.updated_at execution));
   ("completed_at", null_or VTime (WorkflowExecution.completed_at execution))].

(** [SqlWorkflowExecutionRepository.update]: the attributes it assigns. *)
Definition execution_assignments (version : Z) (execution : WorkflowExecution.t) : sql_row :=
  [("status", VText (value (WorkflowExecution.status execution)));
   ("manual_review_reason", null_or VText (WorkflowExecution.manual_review_reason execution));
   ("owner_subject", null_or VText (WorkflowExecution.owner_subject execution));
   ("claim_lease_until", null_or VTime (WorkflowExecution.claim_lease_until execution));
   ("deadline_at", null_or VTime (WorkflowExecution.deadline_at execution));
   ("cancel_reason", null_or VText (WorkflowExecution.cancel_reason execution));
   ("deadline_processed_at", null_or VTime (WorkflowExecution.deadline_processed_at execution));
   ("updated_at", VTime (WorkflowExecution.updated_at execution));
   ("completed_at", null_or VTime (WorkflowExecution.completed_at execution));
   ("version", VInt version)].
Definition step_assignments (version : Z) (step : Step.t) : sql_row :=
  [("status", VText (value (Step.status step)));
   ("attempt_count", VInt (Step.attempt_count step));
   ("integration_request_id", null_or VUuid (Step.integration_request_id step));
   ("compensation_request_id", null_or VUuid (Step.compensation_request_id step));
   ("output_payload", json_or_null (Step.output_payload step));
   ("error_code", null_or VText (Step.error_code step));
   ("error_message", null_or VText (Step.error_message step));
   ("updated_at", VTime (Step.updated_at step));
   ("completed_at", null_or VTime (Step.completed_at step));
   ("version", VInt version)].

#[global] Arguments stored_value : simpl never.
#[global] Arguments null_or : simpl never.
#[global] Arguments json_or_null : simpl never.

(** * Reading what was written *)

Lemma obind_ret {A B} (o : outcome exn A) (a : A) (k : A → outcome exn B) (res : outcome exn B) :
  o = Ret a → k a = res → obind o k = res.
Proof. by intros -> <-. Qed.

Section Reads.
Context `{HD : DatabaseOk}.
Lemma as_utc_presented us : as_utc (presented us) = utc us.
Proof.
  pose proof (presented_instant us) as Hp. unfold as_utc. destruct (utc_offset (presented us)); [by rewrite Hp|].
  unfold utc. by rewrite Hp.
Qed.
Lemma jsonb_jdict d : jsonb (JObj d) = JObj (jdict d).
Proof. unfold jdict. by destruct (jsonb_object d) as (d' & -> & _). Qed.
Lemma jdict_get d k : NoDup d.*1 → dict_get k (jdict d) = jsonb <$> dict_get k d.
Proof.
  intros Hd. unfold jdict. destruct (jsonb_object d) as (d' & -> & Hp). specialize (Hp Hd).
  rewrite (dict_get_perm k d' (map (λ kv, (kv.1, jsonb kv.2)) d)); [|done|by rewrite Hp, fst_map_snd].
  clear. induction d as [|[k' v] d IH]; [done|]. cbn [map]. rewrite !dict_get_cons. cbn [fst snd]. by case_bool_decide.
Qed.
Lemma jsonb_jopt o : jsonb (jopt o) = jopt o.
Proof. destruct o; [apply jsonb_text|apply jsonb_null]. Qed.
Lemma jsonb_texts l : jsonb (JList (JStr <$> l)) = JList (JStr <$> l).
Proof. rewrite jsonb_list. f_equal. induction l as [|s l IH]; [done|]. cbn. by rewrite jsonb_text, IH. Qed.

Context (r : sql_row) (c : string).
Lemma text_read s : column_of r c = stored_value (VText s) → text r c = Ret s.
Proof. unfold text. by intros ->. Qed.
Lemma int_read n : column_of r c = stored_value (VInt n) → int r c = Ret n.
Proof. unfold int. by intros ->. Qed.
Lemma uuid_read u : column_of r c = stored_value (VUuid u) → uuid r c = Ret u.
Proof. unfold uuid. by intros ->. Qed.
Lemma flag_read b : column_of r c = stored_value (VBool b) → flag r c = Ret b.
Proof. unfold flag. by intros ->. Qed.
Lemma object_read d : column_of r c = stored_value (VJson (JObj d)) → object r c = Ret (jdict d).
Proof. unfold object. intros ->. unfold stored_value. by rewrite jsonb_jdict. Qed.
Lemma time_read d : column_of r c = stored_value (VTime d) → time r c = Ret (Store.as_utc d).
Proof. unfold time. intros ->. unfold stored_value. by rewrite as_utc_presented. Qed.
Lemma enum_read {T} `{StrEnum T} (x : T) : column_of r c = stored_value (VText (value x)) → enum T r c = Ret x.
Proof. intros Hc. unfold enum. rewrite (text_read _ Hc). cbn. by rewrite of_value_value. Qed.
Lemma optional_text_read o : column_of r c = stored_value (null_or VText o) → optionally text r c = Ret o.
Proof. unfold optionally, text. intros ->. by destruct o. Qed.
Lemma optional_uuid_read o : column_of r c = stored_value (null_or VUuid o) → optionally uuid r c = Ret o.
Proof. unfold optionally, uuid. intros ->. by destruct o. Qed.
Lemma optional_object_read o :
  column_of r c = stored_value (json_or_null o) → optionally object r c = Ret (jdict <$> o).
Proof.
  unfold optionally, object. intros ->. unfold stored_value, json_or_null.
  destruct o as [d|]; cbn [from_option]; [by rewrite jsonb_jdict|by rewrite jsonb_null].
Qed.
Lemma object_given d : column_of r c = stored_value (VJson (JObj d)) → optionally object r c = Ret (Some (jdict d)).
Proof. unfold optionally, object. intros ->. unfold stored_value. by rewrite jsonb_jdict. Qed.
Lemma optional_time_read o : column_of r c = stored_value (null_or VTime o) → optionally time r c = Ret (Store.as_utc <$> o).
Proof. unfold optionally, time. intros ->. destruct o; [|done]. unfold stored_value, null_or, obind. by rewrite as_utc_presented. Qed.
End Reads.

Lemma unless_empty_read make o : (∀ s, o = Some s → make s = Ret s ∧ Str.truthy s = true) → unless_empty make o = Ret o.
Proof. destruct o as [s|]; [|done]. intros Hs. destruct (Hs s) as [Hm Ht]; [done|]. cbn. by rewrite Ht, Hm. Qed.

Ltac read_column :=
  lazymatch goal with
  | |- text _ _ = _ => apply text_read; reflexivity
  | |- int _ _ = _ => apply int_read; reflexivity
  | |- uuid _ _ = _ => apply uuid_read; reflexivity
  | |- flag _ _ = _ => apply flag_read; reflexivity
  | |- object _ _ = _ => apply object_read; reflexivity
  | |- time _ _ = _ => apply time_read; reflexivity
  | |- enum _ _ _ = _ => apply enum_read; reflexivity
  | |- optionally text _ _ = _ => apply optional_text_read; reflexivity
  | |- optionally uuid _ _ = _ => apply optional_uuid_read; reflexivity
  | |- optionally time _ _ = _ => apply optional_time_read; reflexivity
  | |- optionally object _ _ = _ => first [apply optional_object_read; reflexivity | apply object_given; reflexivity]
  | |- obind _ _ = _ => eapply obind_ret; [read_column|eassumption]
  end.
Ltac read_row := repeat (eapply obind_ret; [read_column|]; cbv beta).

(** What the value objects accept. *)
Definition valid_key (o : option string) : Prop := unless_empty IdempotencyKey.make o = Ret o.
Definition valid_correlation (o : option string) : Prop := unless_empty CorrelationId.make o = Ret o.
Definition storable_request (r : IntegrationRequest.t) : Prop :=
  ProviderSlug.make (IntegrationRequest.provider r) = Ret (IntegrationRequest.provider r) ∧
  ExternalReference.make (IntegrationRequest.external_reference r) = Ret (IntegrationRequest.external_reference r) ∧
  CorrelationId.make (IntegrationRequest.correlation_id r) = Ret (IntegrationRequest.correlation_id r) ∧
  valid_key (IntegrationRequest.idempotency_key r).

(** What JSONB makes of an entity: its payloads as they come back, and of a step
    definition also no timeout, which its JSON form does not hold. *)
Section Rereads.
Context `{HD : DatabaseOk}.
Definition jrequest (r : IntegrationRequest.t) : IntegrationRequest.t :=
  r <| IntegrationRequest.normalized_payload ::= jdict |> <| IntegrationRequest.provider_payload ::= fmap jdict |>.
Definition jreceipt (w : WebhookReceipt.t) : WebhookReceipt.t := w <| WebhookReceipt.payload ::= jdict |>.
Definition jaudit (a : AuditEvent.t) : AuditEvent.t :=
  AuditEvent.mk (AuditEvent.id a) (AuditEvent.aggregate_type a) (AuditEvent.aggregate_id a) (AuditEvent.action a)
    (AuditEvent.actor a) (AuditEvent.correlation_id a) (AuditEvent.occurred_at a) (AuditEvent.previous_state a)
    (AuditEvent.new_state a) (AuditEvent.actor_id a) (jdict (AuditEvent.metadata a)).
Definition joutbox (o : OutboxEvent.t) : OutboxEvent.t := o <| OutboxEvent.payload ::= jdict |>.
Definition jstep_def (s : WorkflowStepDefinition) : WorkflowStepDefinition :=
  mk_step_def (sd_key s) (sd_provider s) (sd_operation_type s) (sd_depends_on s) (sd_compensate_operation s)
    (sd_wait_for_webhook s) (sd_max_attempts s) None (jdict (sd_payload_template s)).
Definition jdefinition (d : WorkflowDefinition.t) : WorkflowDefinition.t :=
  d <| WorkflowDefinition.steps ::= map jstep_def |> <| WorkflowDefinition.created_at ::= Store.as_utc |>.
Definition jstep (s : Step.t) : Step.t := s <| Step.input_payload ::= jdict |> <| Step.output_payload ::= fmap jdict |>.
Definition jexecution (e : WorkflowExecution.t) : WorkflowExecution.t :=
  e <| WorkflowExecution.input_payload ::= jdict |> <| WorkflowExecution.steps ::= fmap jstep |>.

Lemma request_reread r : storable_request r →
  request_to_domain (as_read (request_to_row r)) = Ret (jrequest (Store.request_to_domain r)).
Proof. intros (Hp & He & Hc & Hk). unfold request_to_domain. read_row. reflexivity. Qed.
Lemma request_updated r row : storable_request row →
  request_to_domain (as_read (sql_update (request_update_values r) (request_to_row row))) =
  Ret (jrequest (Store.request_to_domain (Store.request_update_values r row))).
Proof. intros (Hp & He & Hc & Hk). unfold request_to_domain. read_row. reflexivity. Qed.

Definition storable_receipt (w : WebhookReceipt.t) : Prop :=
  ProviderSlug.make (WebhookReceipt.provider w) = Ret (WebhookReceipt.provider w) ∧
  Str.truthy (WebhookReceipt.event_id w) = true ∧ valid_correlation (WebhookReceipt.correlation_id w).
(** The signature metadata as [to_dict] wrote it. *)
Lemma metadata_read md k v : dict_get k (signature_to_dict md) = Some v →
  dict_get k (jdict (signature_to_dict md)) = Some (jsonb v).
Proof. intros Hk. rewrite jdict_get, Hk; [done|]. apply (bool_decide_unpack _). by vm_compute. Qed.
Lemma text_member_read md key o : dict_get key (signature_to_dict md) = Some (jopt o) →
  text_member (jdict (signature_to_dict md)) key = Ret o.
Proof. intros Hk. unfold text_member. rewrite (metadata_read _ _ _ Hk), jsonb_jopt. by destruct o. Qed.
Lemma scheme_read md :
  match dict_get "scheme" (jdict (signature_to_dict md)) with None => Ret "unknown" | Some (JStr s) => Ret s | Some _ => mistyped end =
  Ret (scheme md).
Proof. rewrite (metadata_read md "scheme" (JStr (scheme md))) by done. by rewrite jsonb_text. Qed.
Lemma verified_read md : json_truthy (default (JBool false) (dict_get "verified" (jdict (signature_to_dict md)))) = verified md.
Proof. rewrite (metadata_read md "verified" (JBool (verified md))) by done. cbn. by rewrite jsonb_bool. Qed.
Ltac read_receipt w Ht :=
  unfold receipt_to_domain; eapply obind_ret; [apply object_given; reflexivity|]; cbv zeta beta; cbn [default from_option id];
  read_row; eapply obind_ret; [apply scheme_read|]; cbv beta;
  do 3 (eapply obind_ret; [apply text_member_read; reflexivity|]; cbv beta); rewrite verified_read; read_row;
  unfold WebhookReceipt.make; cbn; rewrite Ht; cbn; by destruct w as [? ? ? ? ? []].
Lemma receipt_reread w : storable_receipt w →
  receipt_to_domain (as_read (receipt_to_row w)) = Ret (jreceipt (Store.receipt_to_domain w)).
Proof. intros (Hp & Ht & Hc). read_receipt w Ht. Qed.
Lemma receipt_updated w row : storable_receipt row →
  receipt_to_domain (as_read (sql_update (receipt_update_values w) (receipt_to_row row))) =
  Ret (jreceipt (Store.receipt_to_domain (Store.receipt_update_values w row))).
Proof. intros (Hp & Ht & Hc). read_receipt row Ht. Qed.

Definition storable_audit (a : AuditEvent.t) : Prop :=
  CorrelationId.make (AuditEvent.correlation_id a) = Ret (AuditEvent.correlation_id a) ∧
  Str.truthy (AuditEvent.aggregate_id a) = true.
Lemma audit_reread a : storable_audit a → audit_to_domain (as_read (audit_to_row a)) = Ret (jaudit (Store.audit_to_domain a)).
Proof. intros (Hc & Ha). unfold audit_to_domain. read_row. unfold AuditEvent.make. cbn. by rewrite Ha. Qed.

Definition storable_outbox (o : OutboxEvent.t) : Prop :=
  CorrelationId.make (OutboxEvent.correlation_id o) = Ret (OutboxEvent.correlation_id o) ∧ 1 ≤ OutboxEvent.event_version o.
Lemma outbox_reread o : storable_outbox o → outbox_to_domain (as_read (outbox_to_row o)) = Ret (joutbox (Outbox.outbox_to_domain o)).
Proof.
  intros (Hc & Hv). unfold outbox_to_domain. read_row. unfold OutboxEvent.make. cbn -[Z.ltb].
  by rewrite (proj2 (Z.ltb_ge _ _) Hv).
Qed.

Lemma idempotency_reread i :
  idempotency_to_domain (as_read (idempotency_to_row i)) =
  Ret (IdempotencyRecord.mk (IdempotencyRecord.key i) (IdempotencyRecord.fingerprint i) (IdempotencyRecord.request_id i)
         (IdempotencyRecord.response_status i) (Store.as_utc (IdempotencyRecord.created_at i))
         (Store.as_utc <$> IdempotencyRecord.expires_at i)).
Proof. unfold idempotency_to_domain. by read_row. Qed.

(** Step definitions. *)
Lemma strings_of_texts l : strings_of (Some (JList (JStr <$> l))) = Some l.
Proof. cbn. induction l as [|s l IH]; [done|]. cbn. by rewrite IH. Qed.
Lemma step_def_reread s : _step_def_from_json (jdict (_step_def_to_json s)) = Ret (jstep_def s).
Proof.
  assert (NoDup (_step_def_to_json s).*1) as Hnd.
  { change (_step_def_to_json s).*1 with ["key"; "provider"; "operation_type"; "depends_on"; "compensate_operation";
      "wait_for_webhook"; "max_attempts"; "payload_template"]. apply (bool_decide_unpack _). by vm_compute. }
  unfold _step_def_from_json. rewrite !(jdict_get _ _ Hnd). clear Hnd.
  unfold _step_def_to_json. dict_simpl. cbn [fmap option_fmap option_map].
  rewrite !jsonb_text, jsonb_texts, jsonb_bool, jsonb_int, jsonb_jdict, jsonb_jopt, strings_of_texts.
  unfold operation_of, jstep_def. rewrite of_value_value. by destruct (sd_compensate_operation s) as [[]|].
Qed.
Lemma definition_reread d :
  workflow_definition_to_domain (as_read (workflow_definition_to_row d)) = Ret (jdefinition d).
Proof.
  assert (∀ l, objects_of (map jsonb (map (λ s, JObj (_step_def_to_json s)) l)) = Ret (map (λ s, jdict (_step_def_to_json s)) l)) as Ho.
  { induction l as [|s l IH]; [done|]. cbn. by rewrite jsonb_jdict, IH. }
  assert (∀ l, steps_from_json (map (λ s, jdict (_step_def_to_json s)) l) = Ret (map jstep_def l)) as Hs.
  { induction l as [|s l IH]; [done|]. cbn. by rewrite step_def_reread, IH. }
  unfold workflow_definition_to_domain. read_row.
  eapply obind_ret; [cbn; unfold stored_value; rewrite jsonb_list; apply Ho|]. cbv beta.
  eapply obind_ret; [apply Hs|]. cbv beta. by read_row.
Qed.

Lemma texts_read r c l : column_of r c = stored_value (VJson (JList (JStr <$> l))) → texts r c = Ret l.
Proof. unfold texts. intros ->. unfold stored_value. rewrite jsonb_texts. by rewrite strings_of_texts. Qed.
Lemma member_of_value {T} `{StrEnum T} (x : T) : member_of T (value x) = Ret x.
Proof. unfold member_of. by rewrite of_value_value. Qed.
Lemma compensate_read (o : option OperationType.t) :
  match value <$> o with
  | Some s => if Str.truthy s then let? op := member_of OperationType.t s in Ret (Some op) else Ret None
  | None => Ret None
  end = Ret o.
Proof. by destruct o as [[]|]. Qed.
Ltac read_step :=
  repeat (eapply obind_ret;
    [first [read_column | apply texts_read; reflexivity | apply compensate_read
           | eapply obind_ret; [read_column|apply member_of_value]]|]; cbv beta).
Lemma step_reread s :
  workflow_step_to_domain (as_read (workflow_step_to_row s)) = Ret (jstep (WorkflowStore.workflow_step_to_domain s)).
Proof. unfold workflow_step_to_domain. by read_step. Qed.
Lemma step_updated v s row :
  workflow_step_to_domain (as_read (sql_update (step_assignments v s) (workflow_step_to_row row))) =
  Ret (jstep (WorkflowStore.workflow_step_to_domain (step_update_values v s row))).
Proof. unfold workflow_step_to_domain. by read_step. Qed.
Lemma steps_reread l :
  steps_to_domain (map (λ s, as_read (workflow_step_to_row s)) l) = Ret (jstep <$> (WorkflowStore.workflow_step_to_domain <$> l)).
Proof. induction l as [|s l IH]; [done|]. cbn [map steps_to_domain]. by rewrite step_reread, IH. Qed.
Lemma execution_reread e :
  workflow_execution_to_domain (as_read (workflow_execution_to_row e))
    (map (λ s, as_read (workflow_step_to_row s)) (WorkflowExecution.steps e)) =
  Ret (jexecution (WorkflowStore.workflow_execution_to_domain e)).
Proof.
  unfold workflow_execution_to_domain. read_step. eapply obind_ret; [apply steps_reread|]. cbv beta. by read_step.
Qed.
Lemma execution_updated v e row :
  workflow_execution_to_domain (as_read (sql_update (execution_assignments v e) (workflow_execution_to_row row)))
    (map (λ s, as_read (workflow_step_to_row s)) (WorkflowExecution.steps row)) =
  Ret (jexecution (WorkflowStore.workflow_execution_to_domain (execution_update_values v e row))).
Proof.
  unfold workflow_execution_to_domain. read_step. eapply obind_ret; [apply steps_reread|]. cbv beta. by read_step.
Qed.
End Rereads.

(** * Rows and tables *)

(** The rows an INSERT writes. *)
Definition written (n : new_row) : list (string * sql_row) :=
  match n with
  | NewRequest r => [("integration_requests", request_to_row r)]
  | NewReceipt w => [("webhook_receipts", receipt_to_row w)]
  | NewAudit a => [("audit_events", audit_to_row a)]
  | NewOutbox o => [("outbox_events", outbox_to_row o)]
  | NewIdempotency i => [("idempotency_records", idempotency_to_row i)]
  | NewDefinition d => [("workflow_definitions", workflow_definition_to_row d)]
  | NewExecution e =>
      ("workflow_executions", workflow_execution_to_row e) ::
      map (λ s, ("workflow_step_executions", workflow_step_to_row s)) (WorkflowExecution.steps e)
  end.
Definition row_fits (t : table) (r : sql_row) : Prop := map fst r ≡ₚ column_names t ∧ values_fit t r = true.

(** The texts that no constructor keeps within the width of their column. (A slug
    and an idempotency key may be one character over: their patterns let a final
    newline through.) *)
Definition free_texts (name : string) : list (string * Z) :=
  if String.eqb name "integration_requests" then
    [("provider", 40); ("provider_reference", 255); ("idempotency_key", 255); ("owner_subject", 128); ("last_error_code", 128);
     ("last_error_category", 64)]
  else if String.eqb name "webhook_receipts" then
    [("provider", 40); ("event_id", 255); ("event_type", 128); ("provider_reference", 255)]
  else if String.eqb name "audit_events" then
    [("aggregate_type", 64); ("aggregate_id", 128); ("actor_id", 255); ("previous_state", 48); ("new_state", 48)]
  else if String.eqb name "outbox_events" then
    [("event_type", 128); ("aggregate_type", 64); ("aggregate_id", 128); ("causation_id", 128); ("partition_key", 128)]
  else if String.eqb name "idempotency_records" then [("key", 255); ("fingerprint", 64)]
  else if String.eqb name "workflow_definitions" then [("name", 128)]
  else if String.eqb name "workflow_executions" then
    [("definition_name", 128); ("correlation_id", 64); ("idempotency_key", 255); ("owner_subject", 128)]
  else if String.eqb name "workflow_step_executions" then [("step_key", 64); ("provider", 40); ("error_code", 128)]
  else [].
(** What a row needs beside valid value objects: values PostgreSQL can hold, and free
    texts within their columns. *)
Definition tame (x : string * sql_row) : bool :=
  forallb (λ cv, holdable cv.2) x.2 && forallb (λ l, within l.2 (column_of x.2 l.1)) (free_texts x.1).

Lemma holdable_column r c : forallb (λ cv, holdable cv.2) r = true → holdable (column_of r c) = true.
Proof.
  induction r as [|[c' v] r IH]; [done|]. cbn. intros [Hv Hr]%andb_true_iff. destruct (String.eqb c' c); [done|by apply IH].
Qed.
Lemma row_fits_intro name t r :
  tame (name, r) = true → map fst r ≡ₚ column_names t →
  Forall (λ c, typed c (column_of r (c_name c)) = true) (t_columns t) →
  (forallb (λ l, within l.2 (column_of r l.1)) (free_texts name) = true →
   Forall (λ c, narrow c (column_of r (c_name c)) = true) (t_columns t)) →
  row_fits t r.
Proof.
  intros [Hh Hw]%andb_true_iff Hn Ht Hnar. split; [done|]. specialize (Hnar Hw). unfold values_fit. apply forallb_forall.
  intros c Hc%list_elem_of_In. rewrite Forall_forall in Ht, Hnar. unfold value_fits.
  rewrite (Ht c Hc), (Hnar c Hc), andb_true_r. by apply holdable_column.
Qed.
Lemma null_or_typed {A} c (f : A → sql_value) o :
  c_nullable c = true → (∀ a, typed c (f a) = true) → typed c (null_or f o) = true.
Proof. intros Hn Hf. destruct o; [apply Hf|]. by unfold typed, null_or. Qed.
Lemma enum_typed {T} `{StrEnum T} (x : T) name n null d :
  typed (mk_column name (_enum_column T n) null d) (VText (value x)) = true.
Proof. cbn. apply bool_decide_eq_true, list_elem_of_fmap. exists x. split; [done|apply members_all]. Qed.

(** What the constructors bound. *)
Lemma correlation_within s : CorrelationId.make s = Ret s → within 128 (VText s) = true.
Proof.
  unfold CorrelationId.make. destruct (negb _); [done|]. cbn [orb]. destruct (Z.ltb_spec 128 (Str.len s)); [done|].
  intros _. by apply Z.leb_le.
Qed.
Lemma valid_correlation_within o : valid_correlation o → within 128 (null_or VText o) = true.
Proof.
  unfold valid_correlation. destruct o as [s|]; [|done]. cbn [unless_empty]. destruct (Str.truthy s) eqn:Ht; [|done].
  destruct (CorrelationId.make s) as [s'|] eqn:Hm; [|done]. cbn. intros [= ->]. by apply correlation_within.
Qed.
Lemma reference_within s : ExternalReference.make s = Ret s → within 255 (VText s) = true.
Proof.
  unfold ExternalReference.make, _MAX_EXTERNAL_REFERENCE_LENGTH. destruct (_ || _); [done|].
  destruct (Z.ltb_spec 255 (Str.len s)); [done|]. intros _. by apply Z.leb_le.
Qed.

Ltac types :=
  repeat apply Forall_cons_2; try apply Forall_nil_2;
  try (first [reflexivity | cbn -[typed]; apply null_or_typed; [reflexivity|intros; reflexivity] | apply (enum_typed _ _ _ _ _)]).
Ltac narrows :=
  cbn -[within]; rewrite ?andb_true_iff; intros Hfree; destruct_and?;
  repeat apply Forall_cons_2; try apply Forall_nil_2; unfold narrow; cbn -[within];
  first [reflexivity | assumption | idtac].
Ltac fits Ht :=
  apply (row_fits_intro _ _ _ Ht); [refine (bool_decide_unpack _ _); vm_compute; exact I|types|].
Lemma request_fits r : tame ("integration_requests", request_to_row r) = true → storable_request r →
  row_fits (snd IntegrationRequestModel) (request_to_row r).
Proof.
  intros Ht (_ & He%reference_within & Hc%correlation_within & _). fits Ht. narrows.
  - by destruct (IntegrationRequest.operation_type r).
  - by destruct (IntegrationRequest.status r).
Qed.
Lemma receipt_fits w : tame ("webhook_receipts", receipt_to_row w) = true → storable_receipt w →
  row_fits (snd WebhookReceiptModel) (receipt_to_row w).
Proof.
  intros Ht (_ & _ & Hc%valid_correlation_within). fits Ht. narrows. by destruct (WebhookReceipt.processing_status w).
Qed.
Lemma audit_fits a : tame ("audit_events", audit_to_row a) = true → storable_audit a →
  row_fits (snd AuditEventModel) (audit_to_row a).
Proof.
  intros Ht (Hc%correlation_within & _). fits Ht. narrows; [by destruct (AuditEvent.action a)|by destruct (AuditEvent.actor a)].
Qed.
Lemma outbox_fits o : tame ("outbox_events", outbox_to_row o) = true → storable_outbox o →
  row_fits (snd OutboxEventModel) (outbox_to_row o).
Proof. intros Ht (Hc%correlation_within & _). fits Ht. narrows. Qed.
Lemma idempotency_fits i : tame ("idempotency_records", idempotency_to_row i) = true →
  row_fits (snd IdempotencyRecordModel) (idempotency_to_row i).
Proof. intros Ht. fits Ht. narrows. Qed.
Lemma definition_fits d : tame ("workflow_definitions", workflow_definition_to_row d) = true →
  row_fits (snd WorkflowDefinitionModel) (workflow_definition_to_row d).
Proof. intros Ht. fits Ht. narrows. Qed.
Lemma execution_fits e : tame ("workflow_executions", workflow_execution_to_row e) = true →
  row_fits (snd WorkflowExecutionModel) (workflow_execution_to_row e).
Proof. intros Ht. fits Ht. narrows. by destruct (WorkflowExecution.status e). Qed.
Lemma step_fits s : tame ("workflow_step_executions", workflow_step_to_row s) = true →
  row_fits (snd WorkflowStepExecutionModel) (workflow_step_to_row s).
Proof.
  intros Ht. fits Ht. narrows.
  - by destruct (Step.operation_type s).
  - by destruct (Step.compensate_operation s) as [[]|].
  - by destruct (Step.status s).
Qed.

(** ** JSON that holds no fractional number *)

Fixpoint exact (j : json) : bool :=
  match j with
  | JFloat _ => false
  | JList l => forallb exact l
  | JObj d => forallb (λ kv, exact kv.2) d
  | _ => true
  end.
Lemma equiv_items (f : json → json) pre l :
  Forall (λ j, json_equiv j (f j)) l → json_equiv (JList (pre ++ l)) (JList (pre ++ map f l)).
Proof.
  intros Hl. revert pre. induction Hl as [|j l Hj Hl IH]; intros pre; [reflexivity|]. cbn [map].
  transitivity (JList (pre ++ f j :: l)); [by apply je_item|]. specialize (IH (pre ++ [f j])). by rewrite <- !app_assoc in IH.
Qed.
Lemma equiv_fields (f : json → json) pre d :
  Forall (λ kv, json_equiv kv.2 (f kv.2)) d → json_equiv (JObj (pre ++ d)) (JObj (pre ++ map (λ kv, (kv.1, f kv.2)) d)).
Proof.
  intros Hd. revert pre. induction Hd as [|[k j] d Hj Hd IH]; intros pre; [reflexivity|]. cbn [map fst snd] in *.
  transitivity (JObj (pre ++ (k, f j) :: d)); [by apply je_field|]. specialize (IH (pre ++ [(k, f j)])). by rewrite <- !app_assoc in IH.
Qed.
Lemma jsonb_equiv `{HD : DatabaseOk} j : json_ok j = true → exact j = true → json_equiv j (jsonb j).
Proof.
  pattern j. apply json_ind'; clear j.
  - intros [|b|n|q|s| |]; try done; intros _ Hx.
    + by rewrite jsonb_null.
    + by rewrite jsonb_bool.
    + by rewrite jsonb_int.
    + by rewrite jsonb_text.
  - intros l IH. cbn [json_ok exact]. rewrite !forallb_forall. intros Ho Hx. rewrite jsonb_list. apply (equiv_items jsonb []).
    apply Forall_forall. intros j Hj. rewrite Forall_forall in IH. apply IH; [done|apply Ho|apply Hx]; by apply list_elem_of_In.
  - intros d IH. cbn [json_ok exact]. rewrite andb_true_iff, bool_decide_eq_true, !forallb_forall. intros [Hnd Ho] Hx.
    destruct (jsonb_object d) as (d' & -> & Hp). transitivity (JObj (map (λ kv, (kv.1, jsonb kv.2)) d)).
    + apply (equiv_fields jsonb []). apply Forall_forall. intros kv Hkv. rewrite Forall_forall in IH.
      apply IH; [done| |apply Hx; by apply list_elem_of_In]. apply list_elem_of_In in Hkv.
      specialize (Ho _ Hkv). by apply andb_true_iff in Ho as [_ ?].
    + apply je_order; [by rewrite (Hp Hnd)|by rewrite fst_map_snd].
Qed.

Lemma update_leaves values row c : c ∉ values.*1 → column_of (sql_update values row) c = column_of row c.
Proof.
  intros Hc. induction row as [|[c' v] row IH]; [done|]. cbn. destruct (String.eqb_spec c' c) as [->|_]; [|done].
  destruct (existsb _ values) eqn:He; [|done]. destruct Hc. apply existsb_exists in He as ([c2 v2] & Hin & Heq).
  apply String.eqb_eq in Heq. cbn in Heq. subst c2. apply list_elem_of_fmap. exists (c, v2).
  split; [done|by apply list_elem_of_In].
Qed.

(** The cells that the constraints of [SchemaFacts] rest on are those of the rows
    written here. *)
Definition cell_of (v : sql_value) : cell :=
  match v with VUuid u => Uuid u | VText s => Text s | VInt n => Int n | _ => Null end.
Definition shows (cells : row) (r : sql_row) : Prop := Forall (λ cv, cell_of (column_of r cv.1) = cv.2) cells.
Lemma null_or_cell {A} (f : A → sql_value) (g : A → cell) o : (∀ a, cell_of (f a) = g a) → cell_of (null_or f o) = nullable g o.
Proof. intros Hf. by destruct o; [apply Hf|]. Qed.
Ltac shown :=
  repeat apply Forall_cons_2; try apply Forall_nil_2; first [reflexivity | cbn; apply null_or_cell; intros; reflexivity].
Definition own_steps (n : new_row) : Prop :=
  match n with
  | NewExecution e => Forall (λ s, Step.workflow_execution_id s = WorkflowExecution.id e) (WorkflowExecution.steps e)
  | _ => True
  end.
Lemma step_shown e s : Step.workflow_execution_id s = WorkflowExecution.id e → shows (step_row e s) (workflow_step_to_row s).
Proof. intros Hs. unfold step_row. rewrite <- Hs. shown. Qed.
Lemma rows_shown n : own_steps n → Forall2 (λ x y, x.1 = y.1 ∧ shows x.2 y.2) (new_rows n) (written n).
Proof.
  destruct n as [| | | | | |e]; cbn [new_rows written]; intros Hs;
    try (apply Forall2_cons_2; [split; [done|shown]|apply Forall2_nil_2]).
  apply Forall2_cons_2; [split; [done|shown]|]. unfold step_rows. rewrite Forall2_fmap_l. apply Forall2_fmap_l, Forall2_fmap_r.
  apply Forall_Forall2_diag. eapply Forall_impl; [exact Hs|]. intros s Hid. split; [done|by apply step_shown].
Qed.

(** * Theorems *)

Module MapperTheorems.

(** What the value objects and the records accept, so that a row can be read back. *)
Definition storable (n : new_row) : Prop :=
  match n with
  | NewRequest r => storable_request r
  | NewReceipt w => storable_receipt w
  | NewAudit a => storable_audit a
  | NewOutbox o => storable_outbox o
  | _ => True
  end.
Section Theorems.
Context `{HD : DatabaseOk}.
Definition omap_ret {A B} (f : A → B) (o : outcome exn A) : outcome exn B := let? a := o in Ret (f a).
(** Writing an object and reading its row, or rows. *)
Definition write_read {A} (model : string * table) (row : sql_row) (read : sql_row → outcome exn A) : outcome exn A :=
  obind (through_database (snd model) row) read.
Fixpoint write_steps (steps : list Step.t) : outcome exn (list sql_row) :=
  match steps with
  | [] => Ret []
  | s :: steps' =>
      let? row := through_database (snd WorkflowStepExecutionModel) (workflow_step_to_row s) in
      let? rows := write_steps steps' in
      Ret (row :: rows)
  end.
Definition reread (n : new_row) : outcome exn new_row :=
  match n with
  | NewRequest r => omap_ret NewRequest (write_read IntegrationRequestModel (request_to_row r) request_to_domain)
  | NewReceipt w => omap_ret NewReceipt (write_read WebhookReceiptModel (receipt_to_row w) receipt_to_domain)
  | NewAudit a => omap_ret NewAudit (write_read AuditEventModel (audit_to_row a) audit_to_domain)
  | NewOutbox o => omap_ret NewOutbox (write_read OutboxEventModel (outbox_to_row o) outbox_to_domain)
  | NewIdempotency i => omap_ret NewIdempotency (write_read IdempotencyRecordModel (idempotency_to_row i) idempotency_to_domain)
  | NewDefinition d =>
      omap_ret NewDefinition (write_read WorkflowDefinitionModel (workflow_definition_to_row d) workflow_definition_to_domain)
  | NewExecution e =>
      omap_ret NewExecution (write_read WorkflowExecutionModel (workflow_execution_to_row e) (λ row,
        let? steps := write_steps (WorkflowExecution.steps e) in workflow_execution_to_domain row steps))
  end.
(** The object with its timestamps as the same instants in UTC, its payloads as JSONB
    gives them back, and no timeouts in step definitions. *)
Definition as_loaded (n : new_row) : new_row :=
  match n with
  | NewRequest r => NewRequest (jrequest (Store.request_to_domain r))
  | NewReceipt w => NewReceipt (jreceipt (Store.receipt_to_domain w))
  | NewAudit a => NewAudit (jaudit (Store.audit_to_domain a))
  | NewOutbox o => NewOutbox (joutbox (Outbox.outbox_to_domain o))
  | NewIdempotency i =>
      NewIdempotency (IdempotencyRecord.mk (IdempotencyRecord.key i) (IdempotencyRecord.fingerprint i)
        (IdempotencyRecord.request_id i) (IdempotencyRecord.response_status i) (Store.as_utc (IdempotencyRecord.created_at i))
        (Store.as_utc <$> IdempotencyRecord.expires_at i))
  | NewDefinition d => NewDefinition (jdefinition d)
  | NewExecution e => NewExecution (jexecution (WorkflowStore.workflow_execution_to_domain e))
  end.
Lemma fits_written (model : string * table) row : row_fits (snd model) row → through_database (snd model) row = Ret (as_read row).
Proof. intros [_ Hf]. unfold through_database. by rewrite Hf. Qed.
Lemma write_read_ok {A} (model : string * table) row (read : sql_row → outcome exn A) x :
  row_fits (snd model) row → read (as_read row) = x → write_read model row read = x.
Proof. intros Hf Hr. unfold write_read. by rewrite fits_written. Qed.
Lemma steps_written steps :
  Forall (λ s, tame ("workflow_step_executions", workflow_step_to_row s) = true) steps →
  write_steps steps = Ret (map (λ s, as_read (workflow_step_to_row s)) steps).
Proof.
  induction 1 as [|s steps Hs _ IH]; [done|]. cbn [write_steps].
  rewrite (fits_written WorkflowStepExecutionModel) by by apply step_fits. cbn. by rewrite IH.
Qed.

(** C12. Reading a row gives back what was written. Take an entity whose value objects
    are valid and whose row the database can hold (32-bit integers, no U+0000,
    distinct keys, free texts within their columns: [tame]). Whatever zone the driver
    shows timestamps in, or none, and however JSONB orders keys and writes fractions,
    the INSERT is accepted and the mappers rebuild the entity, through the
    constructors' own checks: every field unchanged, every timestamp the same instant
    in UTC, an absent payload absent, the payloads as JSONB gives them back, and step
    definitions without their timeouts, which their JSON form does not hold. A payload
    without fractional numbers comes back equal, up to the order of keys. *)
Theorem rows_round_trip (n : new_row) :
  storable n → Forall (λ x, tame x = true) (written n) →
  reread n = Ret (as_loaded n) ∧
  ∀ d, json_ok (JObj d) = true → exact (JObj d) = true → json_equiv (JObj d) (JObj (jdict d)).
Proof.
  intros Hn Ht. split; [|intros d Ho Hx; rewrite <- jsonb_jdict; by apply jsonb_equiv].
  destruct n; cbn [written] in Ht; apply Forall_cons_1 in Ht as [Ht Hts]; cbn [reread as_loaded storable] in *.
  - by rewrite (write_read_ok _ _ _ _ (request_fits _ Ht Hn) (request_reread _ Hn)).
  - by rewrite (write_read_ok _ _ _ _ (receipt_fits _ Ht Hn) (receipt_reread _ Hn)).
  - by rewrite (write_read_ok _ _ _ _ (audit_fits _ Ht Hn) (audit_reread _ Hn)).
  - by rewrite (write_read_ok _ _ _ _ (outbox_fits _ Ht Hn) (outbox_reread _ Hn)).
  - by rewrite (write_read_ok _ _ _ _ (idempotency_fits _ Ht) (idempotency_reread _)).
  - by rewrite (write_read_ok _ _ _ _ (definition_fits _ Ht) (definition_reread _)).
  - rewrite (write_read_ok _ _ _ (Ret (jexecution (WorkflowStore.workflow_execution_to_domain e)))
      (execution_fits _ Ht)); [done|].
    rewrite steps_written by by apply Forall_fmap in Hts. apply execution_reread.
Qed.

(** An UPDATE writes the mutable columns and nothing else. Reading a request, a
    receipt, an execution or a step after its UPDATE gives what the store
    computes, its payloads as JSONB gives them back, and the columns that identify
    a request keep their values whatever object is written over it. *)
Theorem updates_keep_identity (r row : IntegrationRequest.t) (w receipt : WebhookReceipt.t) :
  storable_request row → storable_receipt receipt →
  request_to_domain (as_read (sql_update (request_update_values r) (request_to_row row))) =
    Ret (jrequest (Store.request_to_domain (Store.request_update_values r row))) ∧
  Forall (λ c, column_of (sql_update (request_update_values r) (request_to_row row)) c = column_of (request_to_row row) c)
    ["id"; "provider"; "operation_type"; "external_reference"; "correlation_id"; "idempotency_key"; "created_at"; "owner_subject"] ∧
  receipt_to_domain (as_read (sql_update (receipt_update_values w) (receipt_to_row receipt))) =
    Ret (jreceipt (Store.receipt_to_domain (Store.receipt_update_values w receipt))) ∧
  (∀ v s old, workflow_step_to_domain (as_read (sql_update (step_assignments v s) (workflow_step_to_row old))) =
     Ret (jstep (WorkflowStore.workflow_step_to_domain (step_update_values v s old)))) ∧
  (∀ v e old, workflow_execution_to_domain (as_read (sql_update (execution_assignments v e) (workflow_execution_to_row old)))
       (map (λ s, as_read (workflow_step_to_row s)) (WorkflowExecution.steps old)) =
     Ret (jexecution (WorkflowStore.workflow_execution_to_domain (execution_update_values v e old)))).
Proof.
  intros Hr Hw. split_and!; [by apply request_updated| |by apply receipt_updated|apply step_updated|apply execution_updated].
  repeat apply Forall_cons_2; try apply Forall_nil_2; apply update_leaves; refine (bool_decide_unpack _ _); vm_compute; exact I.
Qed.
End Theorems.

(** C24. Every INSERT fits its table. Take an object whose value objects are valid, whose
    integers have 32 bits and whose texts and JSON PostgreSQL can hold, and whose free
    texts (the list [free_texts]: those no constructor bounds) are within their
    columns; the steps of an execution name it. Then every row written for it gives
    every column of its table, and no other, a value of the column's type and width,
    NULL only where the models allow it and enumerations by one of their values: in
    particular the bounds of external references and correlation ids and all the
    enumerations are within their columns. And the keys, references and checked columns
    of the row are those the store's constraints are about. *)
Theorem rows_fit_their_tables (n : new_row) :
  storable n → Forall (λ x, tame x = true) (written n) → own_steps n →
  Forall (λ x, ∃ t, metadata !! x.1 = Some t ∧ row_fits t x.2) (written n) ∧
  Forall2 (λ x y, x.1 = y.1 ∧ shows x.2 y.2) (new_rows n) (written n).
Proof.
  intros Hn Ht Hs. split; [|by apply rows_shown].
  destruct n; cbn [written] in *; apply Forall_cons_1 in Ht as [Ht Hts]; apply Forall_cons_2; try apply Forall_nil_2;
    try (eexists; split; [reflexivity|]; first [by apply request_fits | by apply receipt_fits | by apply audit_fits | by apply outbox_fits
      | by apply idempotency_fits | by apply definition_fits | by apply execution_fits]).
  apply Forall_fmap in Hts. apply Forall_fmap. eapply Forall_impl; [exact Hts|]. intros s Hf.
  eexists. split; [reflexivity|by apply step_fits].
Qed.
End MapperTheorems.

Module MapperWitnesses.
Export MapperTheorems.
Definition sample_receipt : WebhookReceipt.t :=
  WebhookReceipt.mk 7 "northstar" "evt-1" "operation.completed" [("state", JStr "complete")]
    (mk_signature_metadata "hmac-sha256" None (Some "1700000000") (Some "sha256") true) (mk_datetime 3600000000 (Some 3600000000)) (Some "op-9") None
    WebhookProcessingStatus.RECEIVED None None None 0 None.
(** A session an hour east of Greenwich, and a JSONB that sorts keys and writes a
    whole float as an integer. *)
#[export] Instance sample_database : Database :=
  {| presented us := mk_datetime (us + 3600 * us_per_second) (Some 3600); jsonb := _normalize |}.
#[export] Instance sample_database_ok : DatabaseOk.
Proof.
  split; try done.
  - intros us. cbn. unfold instant. cbn. lia.
  - intros d. eexists. split; [reflexivity|]. intros _. cbn. apply sort_items_Permutation.
Qed.
(** A driver that shows no zone. *)
Definition naive_database : Database := {| presented us := mk_datetime us None; jsonb := _normalize |}.
Lemma naive_database_ok : @DatabaseOk naive_database.
Proof. split; try done. intros d. eexists. split; [reflexivity|]. intros _. cbn. apply sort_items_Permutation. Qed.

Definition sample_execution : WorkflowExecution.t := SchemaWitnesses.first_execution.
Lemma rows_round_trip_witness :
  reread (NewReceipt sample_receipt) = Ret (NewReceipt (jreceipt (Store.receipt_to_domain sample_receipt))) ∧
  @reread naive_database (NewExecution sample_execution) =
    Ret (NewExecution (@jexecution naive_database (WorkflowStore.workflow_execution_to_domain sample_execution))).
Proof.
  split.
  - apply (rows_round_trip (NewReceipt sample_receipt)); [split_and!; vm_compute; reflexivity|].
    repeat constructor; vm_compute; reflexivity.
  - apply (@rows_round_trip naive_database naive_database_ok (NewExecution sample_execution)); [done|].
    repeat constructor; vm_compute; reflexivity.
Defined.
Lemma updates_keep_identity_witness :
  storable_request sample_request ∧
  request_to_domain (as_read (sql_update (request_update_values (request_after succeeded_calls)) (request_to_row sample_request))) =
    Ret (jrequest (Store.request_to_domain (Store.request_update_values (request_after succeeded_calls) sample_request))).
Proof.
  assert (storable_request sample_request) as Hr by (split_and!; vm_compute; reflexivity).
  assert (storable_receipt sample_receipt) as Hw by (split_and!; vm_compute; reflexivity).
  split; [exact Hr|].
  exact (proj1 (updates_keep_identity (request_after succeeded_calls) sample_request sample_receipt sample_receipt Hr Hw)).
Defined.
Lemma rows_fit_their_tables_witness :
  let n := NewExecution sample_execution in
  length (written n) = 3%nat ∧ Forall2 (λ x y, x.1 = y.1 ∧ shows x.2 y.2) (new_rows n) (written n).
Proof.
  split; [reflexivity|]. apply (rows_fit_their_tables (NewExecution sample_execution)); [done| |repeat constructor].
  repeat constructor; vm_compute; reflexivity.
Defined.
(** What is refused, lost and changed on the way: a reference the constructors refuse
    cannot be read; a correlation id of 65 characters does not fit the workflow table;
    nor does a payload with U+0000 fit any; a whole float comes back as an integer. *)
Example blank_references_cannot_be_read :
  match write_read IntegrationRequestModel
          (request_to_row (sample_request <| IntegrationRequest.external_reference := " " |>)) request_to_domain with
  | Raise _ => true
  | Ret _ => false
  end = true.
Proof. vm_compute. reflexivity. Qed.
Definition long_id : string := String.string_of_list_ascii (replicate 65 (Ascii.ascii_of_nat 120)).
Example long_correlation_refused :
  (CorrelationId.make long_id = Ret long_id) ∧
  reread (NewExecution (sample_execution <| WorkflowExecution.correlation_id := long_id |>)) = Raise (EOther "DataError").
Proof. vm_compute. done. Qed.
Definition carrying (payload : dict) : outcome exn (option dict) :=
  omap_ret (λ r, Some (IntegrationRequest.normalized_payload r))
    (write_read IntegrationRequestModel (request_to_row (sample_request <| IntegrationRequest.normalized_payload := payload |>))
       request_to_domain).
Example payloads_on_the_way :
  carrying [("name", JStr (String Ascii.zero ""))] = Raise (EOther "DataError") ∧
  carrying [("size", JFloat 2); ("b", JNull); ("a", JInt 1)] = Ret (Some [("a", JInt 1); ("b", JNull); ("size", JInt 2)]).
Proof. vm_compute. done. Qed.
End MapperWitnesses.
