(* ===== verification/Redis.v ===== *)
(** What the platform relies on of a Redis server, and the client it uses
    ([infrastructure/redis/client.py]).

    The server is not part of the repository: it is a class of operations
    ([Redis]) with the documented behaviour of the commands as its laws
    ([RedisOk]), and everything built on it is proved from the laws. An
    in-memory server discharges them at the end of the file. One clock serves
    the client and the server; a numeric reply is the number it denotes. *)

From S2P Require Import Prelude PyData PyTime Errors.

(** A field or a reply: text, an integer, or a decimal number. *)
Inductive rvalue : Type :=
  | RStr (s : string)
  | RInt (z : Z)
  | RNum (q : Q).

(** What a key holds. *)
Inductive rdata : Type :=
  | RHash (h : gmap string rvalue)
  | RText (s : string).

(** Lua's [tonumber] of a reply; [None] is [nil]. *)
Definition tonumber (v : option rvalue) : option Q :=
  match v with
  | Some (RInt z) => Some (inject_Z z)
  | Some (RNum q) => Some q
  | _ => None
  end.
Definition tointeger (v : option rvalue) : Z :=
  match v with Some (RInt z) => z | _ => 0 end.

(** The fields of a hash, when the key holds one or nothing. *)
Definition fields (e : option (rdata * option Q)) : option (gmap string rvalue) :=
  match e with
  | None => Some ∅
  | Some (RHash h, _) => Some h
  | Some (RText _, _) => None
  end.
Definition deadline (e : option (rdata * option Q)) : option Q := e ≫= snd.

Definition set_fields (fvs : list (string * rvalue)) (h : gmap string rvalue) : gmap string rvalue :=
  foldl (λ h fv, <[fv.1 := fv.2]> h) h fvs.

(** An entry seen at [t]: gone from its deadline on. *)
Definition alive (t : Q) (e : option (rdata * option Q)) : option (rdata * option Q) :=
  match deadline e with
  | Some d => if Qle_bool d t then None else e
  | None => e
  end.

Class Redis := {
  server : Type;
  (** What the key holds at a time, with its deadline. *)
  entry : server → Q → string → option (rdata * option Q);
  hset : Q → string → list (string * rvalue) → server → server;
  hincrby : Q → string → string → Z → server → Z * server;
  expire : Q → string → Q → server → server;
  del : Q → string → server → server;
  (** [SET key value NX PX ms] *)
  set_nx_px : Q → string → string → Z → server → bool * server;
  (** [SET key value EX seconds] *)
  set_ex : Q → string → string → Z → server → server;
}.

Class RedisOk (R : Redis) : Prop := {
  entry_later s t t' k : (t <= t')%Q → entry s t' k = alive t' (entry s t k);
  entry_hset s t k fvs h : fields (entry s t k) = Some h →
    entry (hset t k fvs s) t k = Some (RHash (set_fields fvs h), deadline (entry s t k));
  entry_hincrby s t k f n h : fields (entry s t k) = Some h →
    (hincrby t k f n s).1 = tointeger (h !! f) + n ∧
    entry (hincrby t k f n s).2 t k =
      Some (RHash (<[f := RInt (tointeger (h !! f) + n)]> h), deadline (entry s t k));
  entry_expire s t k ttl d dl : (0 < ttl)%Q → entry s t k = Some (d, dl) →
    entry (expire t k ttl s) t k = Some (d, Some (t + ttl)%Q);
  entry_del s t k : entry (del t k s) t k = None;
  entry_set_taken s t k v ms e : entry s t k = Some e → set_nx_px t k v ms s = (false, s);
  entry_set_free s t k v ms : (0 < ms)%Z → entry s t k = None →
    (set_nx_px t k v ms s).1 = true ∧
    entry (set_nx_px t k v ms s).2 t k = Some (RText v, Some (t + (ms # 1000))%Q);
  entry_set_ex s t k v n : (0 < n)%Z →
    entry (set_ex t k v n s) t k = Some (RText v, Some (t + inject_Z n)%Q);
  hset_frame s t k k' fvs : k' ≠ k → entry (hset t k fvs s) t k' = entry s t k';
  hincrby_frame s t k k' f n : k' ≠ k → entry (hincrby t k f n s).2 t k' = entry s t k';
  expire_frame s t k k' ttl : k' ≠ k → entry (expire t k ttl s) t k' = entry s t k';
  del_frame s t k k' : k' ≠ k → entry (del t k s) t k' = entry s t k';
  set_nx_frame s t k k' v ms : k' ≠ k → entry (set_nx_px t k v ms s).2 t k' = entry s t k';
  set_ex_frame s t k k' v n : k' ≠ k → entry (set_ex t k v n s) t k' = entry s t k';
}.

(** * The client

    The connection, the time of the call, and whether the server can be reached
    (every call raises [RedisError] when it cannot). *)
Record redis_client `{Redis} := mk_client {
  rc_server : server;
  rc_now : Q;
  rc_up : bool;
}.
Arguments mk_client {_} rc_server rc_now rc_up.
#[export] Instance eta_redis_client `{Redis} : Eta redis_client := λ c,
  mk_client (rc_server c) (rc_now c) (rc_up c).

Definition RedisError : exn := EOther "RedisError".
Definition is_redis_error (e : exn) : bool :=
  match e with EOther s => bool_decide (s = "RedisError") | _ => false end.

Section Client.
Context `{Redis}.

(** One command or one script, run atomically by the server. *)
Definition command {A} (f : Q → server → A * server) : M exn redis_client A := λ c,
  if rc_up c then
    let '(a, s) := f (rc_now c) (rc_server c) in (Ret a, c <| rc_server := s |>)
  else (Raise RedisError, c).

(** [try: ... except RedisError: fallback] *)
Definition or_on_outage {A} (m : M exn redis_client A) (fallback : A) : M exn redis_client A :=
  try_except m (λ e, if is_redis_error e then Some (ret fallback) else None).

(** The fields of a key, and one of them. *)
Definition hgetall (k : string) (t : Q) (s : server) : gmap string rvalue :=
  default ∅ (fields (entry s t k)).
Definition hget (k f : string) (t : Q) (s : server) : option rvalue := hgetall k t s !! f.

(** [t] passes between two calls. *)
Definition at_time (t : Q) (c : redis_client) : redis_client := c <| rc_now := t |>.
(** [m] called at each of the given times, in microseconds. *)
Fixpoint at_times {A} (m : M exn redis_client A) (ns : list Z) : M exn redis_client (list A) :=
  match ns with
  | [] => ret []
  | n :: ns' =>
      modifyS (at_time (total_seconds n)) ;;;
      let* a := m in
      let* l := at_times m ns' in
      ret (a :: l)
  end.
End Client.

(** Times in order from [n] on, all before [stop]. *)
Fixpoint ordered (n stop : Z) (ns : list Z) : Prop :=
  match ns with
  | [] => True
  | n' :: ns' => n ≤ n' ∧ n' < stop ∧ ordered n' stop ns'
  end.

(** [KeyBuilder] *)
Module Keys.
Section Keys.
Context (namespace : string).
Definition colon_char : Ascii.ascii := Ascii.ascii_of_nat 58.
(** [namespace.rstrip(':')]; parts joined by [':']. *)
Fixpoint drop_colons (s : list Ascii.ascii) : list Ascii.ascii :=
  match s with
  | c :: s' => if bool_decide (c = colon_char) then drop_colons s' else s
  | [] => []
  end.
Definition rstrip_colons (s : string) : string :=
  String.string_of_list_ascii (rev (drop_colons (rev (String.list_ascii_of_string s)))).
Definition build (parts : list string) : string :=
  String.concat ":" (rstrip_colons namespace :: parts).
Definition token (provider : string) : string := build ["token"; provider].
Definition circuit (provider : string) : string := build ["circuit"; provider].
Definition rate_limit (provider : string) : string := build ["ratelimit"; provider].
Definition lock (resource : string) : string := build ["lock"; resource].
Definition webhook_replay (provider digest : string) : string :=
  build ["webhook-replay"; provider; digest].
End Keys.
End Keys.

(** * Consequences of the laws *)

Section Laws.
Context `{R : Redis} {HR : RedisOk R}.

Lemma alive_None t : alive t None = None.
Proof. done. Qed.
Lemma alive_idem t t' e : (t <= t')%Q → alive t' (alive t e) = alive t' e.
Proof.
  unfold alive. intros Ht. destruct (deadline e) as [d|] eqn:Hd; [|by rewrite Hd].
  destruct (Qle_bool d t) eqn:Hq; [|by rewrite Hd]. cbn.
  apply Qle_bool_iff in Hq. assert (Qle_bool d t' = true) as -> by (apply Qle_bool_iff; lra). done.
Qed.

(** Entries that are seen at all have not reached their deadline. *)
Lemma entry_alive s t k : alive t (entry s t k) = entry s t k.
Proof. symmetry. apply entry_later. apply Qle_refl. Qed.
Lemma entry_before s t k e d : entry s t k = Some (e, Some d) → (t < d)%Q.
Proof.
  intros He. pose proof (entry_alive s t k) as Ha. rewrite He in Ha. unfold alive in Ha. cbn in Ha.
  destruct (Qle_bool d t) eqn:Hq; [done|]. apply Qnot_le_lt. rewrite <- Qle_bool_iff. congruence.
Qed.
Lemma entry_kept s t t' k e d :
  entry s t k = Some (e, Some d) → (t <= t')%Q → (t' < d)%Q → entry s t' k = Some (e, Some d).
Proof.
  intros He Ht Hd. rewrite (entry_later s t t') by done. rewrite He. unfold alive. cbn.
  destruct (Qle_bool d t') eqn:Hq; [|done]. apply Qle_bool_iff in Hq. lra.
Qed.
Lemma entry_gone s t t' k e d :
  entry s t k = Some (e, Some d) → (d <= t')%Q → entry s t' k = None.
Proof.
  intros He Hd. assert (t <= t')%Q by (apply entry_before in He; lra).
  rewrite (entry_later s t t') by done. rewrite He. unfold alive. cbn.
  apply Qle_bool_iff in Hd. by rewrite Hd.
Qed.
Lemma entry_absent s t t' k : entry s t k = None → (t <= t')%Q → entry s t' k = None.
Proof. intros He Ht. rewrite (entry_later s t t') by done. by rewrite He. Qed.

(** Writing fields and renewing the lease, the way every script ends. *)
Lemma entry_hset_expire s t k fvs ttl h :
  (0 < ttl)%Q → fields (entry s t k) = Some h →
  entry (expire t k ttl (hset t k fvs s)) t k = Some (RHash (set_fields fvs h), Some (t + ttl)%Q).
Proof. intros Httl Hh. eapply entry_expire; [done|]. by apply entry_hset. Qed.
Lemma entry_hincrby_expire s t k f n ttl h :
  (0 < ttl)%Q → fields (entry s t k) = Some h →
  entry (expire t k ttl (hincrby t k f n s).2) t k =
    Some (RHash (<[f := RInt (tointeger (h !! f) + n)]> h), Some (t + ttl)%Q).
Proof. intros Httl Hh. eapply entry_expire; [done|]. by apply entry_hincrby. Qed.
End Laws.

(** * An in-memory server *)

Module MemoryRedis.
#[local] Abbreviation store := (gmap string (rdata * option Q)).
Definition look (s : store) (t : Q) (k : string) : option (rdata * option Q) := alive t (s !! k).
Definition hash_of (e : option (rdata * option Q)) : gmap string rvalue := default ∅ (fields e).
Definition put (t : Q) (k : string) (g : gmap string rvalue → gmap string rvalue) (s : store) : store :=
  <[k := (RHash (g (hash_of (look s t k))), deadline (look s t k))]> s.

#[export] Instance memory : Redis := {|
  server := store;
  entry := look;
  hset t k fvs s := put t k (set_fields fvs) s;
  hincrby t k f n s :=
    let v := tointeger (hash_of (look s t k) !! f) + n in
    (v, put t k (insert f (RInt v)) s);
  expire t k ttl s := match look s t k with
                      | Some (d, _) => <[k := (d, Some (t + ttl)%Q)]> s
                      | None => s
                      end;
  del _ k s := delete k s;
  set_nx_px t k v ms s := match look s t k with
                          | Some _ => (false, s)
                          | None => (true, <[k := (RText v, Some (t + (ms # 1000))%Q)]> s)
                          end;
  set_ex t k v n s := <[k := (RText v, Some (t + inject_Z n)%Q)]> s;
|}.

Lemma look_insert_eq s t k e : (∀ d, deadline (Some e) = Some d → (t < d)%Q) →
  look (<[k := e]> s) t k = Some e.
Proof.
  intros Hd. unfold look. rewrite lookup_insert_eq. unfold alive.
  destruct (deadline (Some e)) as [d|] eqn:He; [|done].
  destruct (Qle_bool d t) eqn:Hq; [|done]. apply Qle_bool_iff in Hq. specialize (Hd d eq_refl). lra.
Qed.
Lemma look_insert_ne s t k k' e : k' ≠ k → look (<[k := e]> s) t k' = look s t k'.
Proof. intros Hk. unfold look. by rewrite lookup_insert_ne. Qed.
Lemma look_before s t k d : deadline (look s t k) = Some d → (t < d)%Q.
Proof.
  unfold look, alive. destruct (deadline (s !! k)) as [d'|] eqn:Hd; [|by rewrite Hd].
  destruct (Qle_bool d' t) eqn:Hq; [done|]. rewrite Hd. intros [= <-].
  apply Qnot_le_lt. rewrite <- Qle_bool_iff. congruence.
Qed.
Lemma look_put s t k g h : fields (look s t k) = Some h →
  look (put t k g s) t k = Some (RHash (g h), deadline (look s t k)).
Proof.
  intros Hh. unfold put, hash_of. rewrite Hh. apply look_insert_eq. cbn.
  intros d Hd. by eapply look_before.
Qed.

#[export] Instance memory_ok : RedisOk memory.
Proof.
  split; cbn.
  - intros s t t' k Ht. unfold look. by rewrite alive_idem.
  - intros s t k fvs h Hh. by apply look_put.
  - intros s t k f n h Hh. unfold hash_of. rewrite Hh. split; [done|]. by rewrite (look_put _ _ _ _ h).
  - intros s t k ttl d dl Httl He. rewrite He. apply look_insert_eq. cbn. intros ? [= <-]. lra.
  - intros s t k. unfold look. by rewrite lookup_delete_eq.
  - intros s t k v ms e He. by rewrite He.
  - intros s t k v ms Hms He. rewrite He. split; [done|]. apply look_insert_eq. cbn. intros ? [= <-].
    assert (0 < ms # 1000)%Q by (unfold Qlt; cbn; lia). lra.
  - intros s t k v n Hn. apply look_insert_eq. cbn. intros ? [= <-].
    assert (0 < inject_Z n)%Q by (change 0%Q with (inject_Z 0); by rewrite <- Zlt_Qlt). lra.
  - intros. by apply look_insert_ne.
  - intros. by apply look_insert_ne.
  - intros. destruct (look s t k) as [[d dl]|]; [by apply look_insert_ne|done].
  - intros. unfold look. by rewrite lookup_delete_ne.
  - intros. destruct (look s t k) as [[d dl]|]; [done|by apply look_insert_ne].
  - intros. by apply look_insert_ne.
Qed.
End MemoryRedis.
