(* ===== verification/CircuitBreaker.v ===== *)
(** The circuit breaker shared through Redis
    ([infrastructure/redis/circuit_breaker.py]): its three Lua scripts, the
    client around them, and how they relate to the pure decisions of
    [domain/policies.py]. *)

From S2P Require Import Prelude PyData PyTime Enums Errors ValueObjects Policies Redis.

Definition _STATE_TTL_MULTIPLIER : Q := 10.
Definition _MIN_STATE_TTL_SECONDS : Z := 300.

(** [max(300, int(open_seconds * 10))] *)
Definition _ttl_seconds (open_seconds : Q) : Z :=
  Z.max _MIN_STATE_TTL_SECONDS (Qfloor (open_seconds * _STATE_TTL_MULTIPLIER)).

(** * The scripts

    [t] is the server's time, [now] the time the client passed. *)

Section Scripts.
Context `{Redis}.
Context (key : string) (now : Q).

Definition _ALLOW_SCRIPT (open_seconds : Q) (half_open_max ttl : Z) (t : Q) (s : server) :
    (Z * string) * server :=
  match hget key "state" t s with
  | None | Some (RStr "closed") => ((1, "closed"), s)
  | Some (RStr "open") =>
      let opened_at := default 0%Q (tonumber (hget key "opened_at" t s)) in
      if Qle_bool open_seconds (now - opened_at) then
        let s := hset t key [("state", RStr "half_open"); ("half_open_probes", RInt 1);
                             ("success_count", RInt 0); ("last_transition_at", RNum now)] s in
        let s := expire t key (inject_Z ttl) s in
        ((1, "half_open"), s)
      else ((0, "open"), s)
  | Some _ =>
      let probes := default 0%Q (tonumber (hget key "half_open_probes" t s)) in
      if Qltb probes (inject_Z half_open_max) then
        let s := (hincrby t key "half_open_probes" 1 s).2 in
        let s := expire t key (inject_Z ttl) s in
        ((1, "half_open"), s)
      else ((0, "half_open"), s)
  end.

(** The fields written when the breaker opens. *)
Definition opening : list (string * rvalue) :=
  [("state", RStr "open"); ("opened_at", RNum now); ("last_transition_at", RNum now);
   ("half_open_probes", RInt 0); ("success_count", RInt 0)].

Definition _FAILURE_SCRIPT (threshold ttl : Z) (t : Q) (s : server) : (string * string) * server :=
  match default (RStr "closed") (hget key "state" t s) with
  | RStr "half_open" =>
      (("open", "half_open"), expire t key (inject_Z ttl) (hset t key opening s))
  | RStr "open" => (("open", "open"), expire t key (inject_Z ttl) s)
  | _ =>
      let '(failures, s) := hincrby t key "failure_count" 1 s in
      let s := expire t key (inject_Z ttl) s in
      if threshold <=? failures then (("open", "closed"), hset t key opening s)
      else (("closed", "closed"), s)
  end.

Definition _SUCCESS_SCRIPT (success_threshold ttl : Z) (t : Q) (s : server) :
    (string * string) * server :=
  match default (RStr "closed") (hget key "state" t s) with
  | RStr "half_open" =>
      let '(successes, s) := hincrby t key "success_count" 1 s in
      if success_threshold <=? successes then
        let s := hset t key [("state", RStr "closed"); ("failure_count", RInt 0);
                             ("success_count", RInt 0); ("half_open_probes", RInt 0);
                             ("last_transition_at", RNum now)] s in
        (("closed", "half_open"), expire t key (inject_Z ttl) s)
      else (("half_open", "half_open"), expire t key (inject_Z ttl) s)
  | RStr "open" => (("open", "open"), expire t key (inject_Z ttl) s)
  | _ =>
      let s := hset t key [("state", RStr "closed"); ("failure_count", RInt 0);
                           ("success_count", RInt 0)] s in
      (("closed", "closed"), expire t key (inject_Z ttl) s)
  end.
End Scripts.

(** * The client *)

(** [datetime.fromtimestamp(float(value), tz=UTC)] *)
Definition _epoch_to_datetime (v : option rvalue) : option datetime :=
  (λ q, utc (round_half_even (q * 1000000))) <$> tonumber v.

Definition _snapshot_from_hash (h : gmap string rvalue) : outcome exn CircuitSnapshot :=
  match match h !! "state" with
        | None => Some CircuitState.CLOSED
        | Some (RStr v) => of_value v
        | Some _ => None
        end with
  | None => Raise (EValueError "not a valid CircuitState")
  | Some st =>
      Ret {| state := st; failure_count := tointeger (h !! "failure_count");
             success_count := tointeger (h !! "success_count");
             opened_at := _epoch_to_datetime (h !! "opened_at");
             last_transition_at := _epoch_to_datetime (h !! "last_transition_at");
             half_open_probes := tointeger (h !! "half_open_probes") |}
  end.

Definition closed_snapshot : CircuitSnapshot := mk_snapshot CircuitState.CLOSED 0 0 None None 0.

Module RedisCircuitBreaker.
Section Client.
Context `{Redis} (namespace : string) (circuit_policy : string → outcome exn CircuitBreakerPolicy.t).

Definition state (provider : string) : M exn redis_client CircuitSnapshot :=
  let* data := or_on_outage (command (λ t s, (hgetall (Keys.circuit namespace provider) t s, s))) ∅ in
  lift (_snapshot_from_hash data).

Definition allow (provider : string) : M exn redis_client bool :=
  let* policy := lift (circuit_policy provider) in
  or_on_outage (
    let* now := gets rc_now in
    let* reply := command (_ALLOW_SCRIPT (Keys.circuit namespace provider) now
      (CircuitBreakerPolicy.open_seconds policy) (CircuitBreakerPolicy.half_open_max_probes policy)
      (_ttl_seconds (CircuitBreakerPolicy.open_seconds policy))) in
    ret (negb (reply.1 =? 0))) true.

(** [CircuitState(new_state)] *)
Definition circuit_state_of (s : string) : outcome exn CircuitState.t :=
  match of_value s with
  | Some st => Ret st
  | None => Raise (EValueError "not a valid CircuitState")
  end.

Definition record_failure (provider : string) : M exn redis_client CircuitState.t :=
  let* policy := lift (circuit_policy provider) in
  let* new_state := or_on_outage (
    let* now := gets rc_now in
    let* reply := command (_FAILURE_SCRIPT (Keys.circuit namespace provider) now
      (CircuitBreakerPolicy.failure_threshold policy)
      (_ttl_seconds (CircuitBreakerPolicy.open_seconds policy))) in
    ret reply.1) "closed" in
  lift (circuit_state_of new_state).

Definition record_success (provider : string) : M exn redis_client CircuitState.t :=
  let* policy := lift (circuit_policy provider) in
  let* new_state := or_on_outage (
    let* now := gets rc_now in
    let* reply := command (_SUCCESS_SCRIPT (Keys.circuit namespace provider) now
      (CircuitBreakerPolicy.success_threshold policy)
      (_ttl_seconds (CircuitBreakerPolicy.open_seconds policy))) in
    ret reply.1) "closed" in
  lift (circuit_state_of new_state).

Definition reset (provider : string) : M exn redis_client unit :=
  or_on_outage (command (λ t s, (tt, del t (Keys.circuit namespace provider) s))) tt.
End Client.
End RedisCircuitBreaker.

(** * The abstract breaker

    One snapshot, changed by the pure decisions of [domain/policies.py]. *)

Module Breaker.
Section Spec.
Context (p : CircuitBreakerPolicy.t).

Definition opened (now : datetime) (s : CircuitSnapshot) : CircuitSnapshot :=
  s <| state := CircuitState.OPEN |> <| opened_at := Some now |> <| last_transition_at := Some now |>
    <| half_open_probes := 0 |> <| success_count := 0 |>.

Definition allow (now : datetime) (s : CircuitSnapshot) : CircuitSnapshot :=
  match evaluate_circuit s now p, state s with
  | CircuitState.HALF_OPEN, CircuitState.OPEN =>
      s <| state := CircuitState.HALF_OPEN |> <| half_open_probes := 1 |> <| success_count := 0 |>
        <| last_transition_at := Some now |>
  | CircuitState.HALF_OPEN, _ =>
      if admits_traffic s now p then s <| half_open_probes ::= (λ n, n + 1) |> else s
  | _, _ => s
  end.

Definition failure (now : datetime) (s : CircuitSnapshot) : CircuitSnapshot :=
  match state s with
  | CircuitState.HALF_OPEN => opened now s
  | CircuitState.OPEN => s
  | CircuitState.CLOSED =>
      let s' := s <| failure_count ::= (λ n, n + 1) |> in
      match next_state_after_failure s now p with
      | CircuitState.OPEN => opened now s'
      | _ => s'
      end
  end.

Definition success (now : datetime) (s : CircuitSnapshot) : CircuitSnapshot :=
  match state s with
  | CircuitState.HALF_OPEN =>
      match next_state_after_success s now p with
      | CircuitState.CLOSED =>
          s <| state := CircuitState.CLOSED |> <| failure_count := 0 |> <| success_count := 0 |>
            <| half_open_probes := 0 |> <| last_transition_at := Some now |>
      | _ => s <| success_count ::= (λ n, n + 1) |>
      end
  | CircuitState.OPEN => s
  | CircuitState.CLOSED => s <| failure_count := 0 |> <| success_count := 0 |>
  end.
End Spec.
End Breaker.

(** * Representation *)

Definition int_field (h : gmap string rvalue) (f : string) (z : Z) : Prop :=
  h !! f = Some (RInt z) ∨ h !! f = None ∧ z = 0.
Definition time_field (h : gmap string rvalue) (f : string) (d : option datetime) : Prop :=
  match d with
  | None => h !! f = None
  | Some d => ∃ us, d = utc us ∧ h !! f = Some (RNum (total_seconds us))
  end.

#[global] Arguments int_field : simpl never.
#[global] Arguments time_field : simpl never.

(** The hash [h] holds the snapshot [s]; an open breaker knows since when, and
    has handed out no probe. *)
Record represents (h : gmap string rvalue) (s : CircuitSnapshot) : Prop := {
  rep_state : h !! "state" = Some (RStr (value (state s))) ∨
              h !! "state" = None ∧ state s = CircuitState.CLOSED;
  rep_failures : int_field h "failure_count" (failure_count s);
  rep_successes : int_field h "success_count" (success_count s);
  rep_opened : time_field h "opened_at" (opened_at s);
  rep_last : time_field h "last_transition_at" (last_transition_at s);
  rep_probes : int_field h "half_open_probes" (half_open_probes s);
  rep_open : state s = CircuitState.OPEN → is_Some (opened_at s) ∧ half_open_probes s = 0;
}.

Lemma tointeger_field h f z : int_field h f z → tointeger (h !! f) = z.
Proof. by intros [-> |[-> ->]]. Qed.
Lemma tonumber_field h f z : int_field h f z → default 0%Q (tonumber (h !! f)) = inject_Z z.
Proof. by intros [-> |[-> ->]]. Qed.

Lemma round_half_even_int z : round_half_even (total_seconds z * 1000000) = z.
Proof.
  assert (total_seconds z * 1000000 == inject_Z z)%Q as Hq by (unfold total_seconds, Qeq; cbn; lia).
  apply Z.le_antisymm; [apply round_half_even_le_int|apply round_half_even_ge_int]; rewrite Hq; apply Qle_refl.
Qed.

Lemma epoch_field h f d : time_field h f d → _epoch_to_datetime (h !! f) = d.
Proof.
  destruct d as [d|]; unfold time_field; [|by intros ->]. intros (us & -> & ->). unfold _epoch_to_datetime. cbn.
  by rewrite round_half_even_int.
Qed.

Lemma represents_snapshot h s : represents h s → _snapshot_from_hash h = Ret s.
Proof.
  intros [Hs Hf Hsu Ho Hl Hp _]. unfold _snapshot_from_hash.
  rewrite (tointeger_field _ _ _ Hf), (tointeger_field _ _ _ Hsu), (tointeger_field _ _ _ Hp).
  rewrite (epoch_field _ _ _ Ho), (epoch_field _ _ _ Hl).
  destruct Hs as [-> |[-> Hc]]; [rewrite of_value_value|]; destruct s; cbn in *; by subst.
Qed.

Lemma represents_empty : represents ∅ closed_snapshot.
Proof. split; try (by right); done. Qed.

(** Writing a field keeps the others. *)
Lemma int_field_ne h f g v z : f ≠ g → int_field h f z → int_field (<[g := v]> h) f z.
Proof. intros Hne. unfold int_field. by rewrite lookup_insert_ne. Qed.
Lemma int_field_eq h f z : int_field (<[f := RInt z]> h) f z.
Proof. left. by rewrite lookup_insert_eq. Qed.
Lemma time_field_ne h f g v d : f ≠ g → time_field h f d → time_field (<[g := v]> h) f d.
Proof. intros Hne. unfold time_field. by rewrite lookup_insert_ne. Qed.
Lemma time_field_eq h f us : time_field (<[f := RNum (total_seconds us)]> h) f (Some (utc us)).
Proof. exists us. by rewrite lookup_insert_eq. Qed.

(** Show that a hash with some fields overwritten represents a snapshot. *)
Ltac fields_go :=
  split; unfold set_fields; cbn;
  lazymatch goal with
  | |- _ ∨ _ => repeat match goal with Hst : state _ = _ |- _ => rewrite Hst end;
      try (left; by simplify_map_eq)
  | |- int_field _ _ _ => repeat first [apply int_field_eq | assumption | apply int_field_ne; [done|]]
  | |- time_field _ _ _ => repeat first [apply time_field_eq | assumption | apply time_field_ne; [done|]]
  | |- _ => try done
  end.

(** * The scripts implement the abstract breaker *)

Lemma ttl_positive q : (0 < inject_Z (_ttl_seconds q))%Q.
Proof. change 0%Q with (inject_Z 0). rewrite <- Zlt_Qlt. unfold _ttl_seconds, _MIN_STATE_TTL_SECONDS. lia. Qed.

(** The key outlives the open window. *)
Lemma open_within_ttl q : (0 < q)%Q → (q <= inject_Z (_ttl_seconds q))%Q.
Proof.
  intros Hq. unfold _ttl_seconds, _MIN_STATE_TTL_SECONDS, _STATE_TTL_MULTIPLIER.
  pose proof (Qlt_floor (q * 10)) as Hf. rewrite inject_Z_plus in Hf. change (inject_Z 1) with 1%Q in Hf.
  destruct (Z.max_spec 300 (Qfloor (q * 10))) as [[Hlt ->]|[Hle ->]].
  - assert (300 < inject_Z (Qfloor (q * 10)))%Q by (change 300%Q with (inject_Z 300); by rewrite <- Zlt_Qlt).
    pose proof (Qfloor_le (q * 10)). lra.
  - assert (inject_Z (Qfloor (q * 10)) <= 300)%Q by (change 300%Q with (inject_Z 300); by rewrite <- Zle_Qle).
    change (inject_Z 300) with 300%Q. lra.
Qed.

Section Refinement.
Context `{R : Redis} {HR : RedisOk R} (key : string).
Context (p : CircuitBreakerPolicy.t) (Hvalid : CircuitBreakerPolicy.valid p).
Context (ttl : Z) (Httl : (0 < inject_Z ttl)%Q).

(** At [t] the key holds the snapshot [snap] (or nothing, and the breaker is
    closed). *)
Definition holds_circuit (s : server) (t : Q) (snap : CircuitSnapshot) : Prop :=
  ∃ h, fields (entry s t key) = Some h ∧ represents h snap.

Lemma hget_fields s t h f : fields (entry s t key) = Some h → hget key f t s = h !! f.
Proof. unfold hget, hgetall. by intros ->. Qed.

Lemma holds_hset_expire s t h fvs snap :
  fields (entry s t key) = Some h → represents (set_fields fvs h) snap →
  holds_circuit (expire t key (inject_Z ttl) (hset t key fvs s)) t snap.
Proof.
  intros Hh Hr. exists (set_fields fvs h). split; [|done]. by rewrite (entry_hset_expire _ _ _ _ _ h).
Qed.

Lemma elapsed_epoch n us : elapsed_seconds (utc n) (utc us) == total_seconds n - total_seconds us.
Proof. unfold elapsed_seconds. rewrite !instant_utc. unfold total_seconds, Qeq. cbn. lia. Qed.

(** The state field read by a script. *)
Lemma state_field h snap :
  represents h snap → default (RStr "closed") (h !! "state") = RStr (value (state snap)).
Proof. intros [[-> |[-> Hc]] _ _ _ _ _ _]; [done|]. by rewrite Hc. Qed.

Lemma holds_hincrby_expire s t h f z n snap :
  fields (entry s t key) = Some h → int_field h f z → represents (<[f := RInt (z + n)]> h) snap →
  holds_circuit (expire t key (inject_Z ttl) (hincrby t key f n s).2) t snap.
Proof.
  intros Hh Hf Hr. exists (<[f := RInt (z + n)]> h). split; [|done].
  rewrite (entry_hincrby_expire _ _ _ _ _ _ h) by done. by rewrite (tointeger_field _ _ _ Hf).
Qed.

Lemma allow_refines n t s snap :
  holds_circuit s t snap →
  let r := _ALLOW_SCRIPT key (total_seconds n) (CircuitBreakerPolicy.open_seconds p)
             (CircuitBreakerPolicy.half_open_max_probes p) ttl t s in
  negb (r.1.1 =? 0) = admits_traffic snap (utc n) p ∧
  holds_circuit r.2 t (Breaker.allow p (utc n) snap).
Proof.
  intros (h & Hh & Hr). unfold _ALLOW_SCRIPT. rewrite !(hget_fields _ _ _ _ Hh).
  unfold Breaker.allow, admits_traffic, evaluate_circuit.
  pose proof Hr as [Hs Hf Hsu Ho Hl Hp Hop]. destruct (state snap) eqn:Hst.
  - destruct Hs as [-> |[-> _]]; cbn; (split; [done|by exists h]).
  - destruct Hs as [Hs|[_ ?]]; [|done]. rewrite Hs. cbn [value CircuitState.str_enum CircuitState.value_of].
    destruct (Hop eq_refl) as [[d Hd] Hz]. pose proof Ho as Ho'. rewrite Hd in Ho |- *.
    destruct Ho as (us & -> & Hou). rewrite Hou. cbn [tonumber default from_option].
    assert (Qle_bool (CircuitBreakerPolicy.open_seconds p) (elapsed_seconds (utc n) (utc us)) =
      Qle_bool (CircuitBreakerPolicy.open_seconds p) (total_seconds n - total_seconds us)) as ->
      by (apply eq_true_iff_eq; rewrite !Qle_bool_iff; by rewrite elapsed_epoch).
    destruct (Qle_bool _ _); [|split; [done|by exists h]]. split.
    + rewrite Hz. symmetry. apply Z.ltb_lt. destruct Hvalid as (_ & _ & _ & ?). lia.
    + eapply holds_hset_expire; [done|]. fields_go.
  - destruct Hs as [Hs|[_ ?]]; [|done]. rewrite Hs. cbn [value CircuitState.str_enum CircuitState.value_of].
    rewrite (tonumber_field _ _ _ Hp).
    assert (Qltb (inject_Z (half_open_probes snap)) (inject_Z (CircuitBreakerPolicy.half_open_max_probes p)) =
      (half_open_probes snap <? CircuitBreakerPolicy.half_open_max_probes p)) as ->
      by (apply eq_true_iff_eq; rewrite Qltb_true, Z.ltb_lt, <- Zlt_Qlt; done).
    destruct (_ <? _); [|split; [done|by exists h]]. split; [done|].
    eapply holds_hincrby_expire; [done|done|]. fields_go. by rewrite Hst.
Qed.

Lemma failure_refines n t s snap :
  holds_circuit s t snap →
  let r := _FAILURE_SCRIPT key (total_seconds n) (CircuitBreakerPolicy.failure_threshold p) ttl t s in
  r.1.1 = value (next_state_after_failure snap (utc n) p) ∧
  holds_circuit r.2 t (Breaker.failure p (utc n) snap).
Proof.
  intros (h & Hh & Hr). unfold _FAILURE_SCRIPT. rewrite (hget_fields _ _ _ _ Hh), (state_field _ _ Hr).
  unfold Breaker.failure, next_state_after_failure, evaluate_circuit.
  pose proof Hr as [Hs Hf Hsu Ho Hl Hp Hop].
  destruct (state snap) eqn:Hst; cbn [value CircuitState.str_enum CircuitState.value_of].
  - destruct (entry_hincrby s t key "failure_count" 1 h Hh) as [Hv He].
    rewrite (tointeger_field _ _ _ Hf) in Hv, He.
    destruct (hincrby t key "failure_count" 1 s) as [v s1]. cbn in Hv, He. subst v.
    eapply entry_expire in He as He2; [|exact Httl].
    set (h1 := <["failure_count" := RInt (failure_count snap + 1)]> h) in *.
    destruct (_ <=? _).
    + split; [done|]. exists (set_fields (opening (total_seconds n)) h1).
      cbn [snd]. rewrite (entry_hset _ _ _ _ h1) by (by rewrite He2). split; [done|]. unfold opening, h1. fields_go.
    + split; [done|]. exists h1. cbn [snd]. rewrite He2. split; [done|]. unfold h1. fields_go; [|by rewrite Hst].
      destruct Hs as [Hs|[Hs _]]; [left|right]; by simplify_map_eq.
  - split; [destruct (opened_at snap); [by destruct (Qle_bool _ _)|done]|].
    destruct Hs as [Hs|[_ ?]]; [|done].
    destruct (entry s t key) as [[d dl]|] eqn:He; [|cbn in Hh; injection Hh as <-; by rewrite lookup_empty in Hs].
    exists h. cbn [snd]. erewrite entry_expire; [|done|exact He]. split; [by destruct d|done].
  - split; [done|]. eapply holds_hset_expire; [done|]. unfold opening. fields_go.
Qed.

Lemma success_refines n t s snap :
  holds_circuit s t snap →
  let r := _SUCCESS_SCRIPT key (total_seconds n) (CircuitBreakerPolicy.success_threshold p) ttl t s in
  r.1.1 = value (match state snap with
                 | CircuitState.OPEN => CircuitState.OPEN
                 | _ => next_state_after_success snap (utc n) p
                 end) ∧
  holds_circuit r.2 t (Breaker.success p (utc n) snap).
Proof.
  intros (h & Hh & Hr). unfold _SUCCESS_SCRIPT. rewrite (hget_fields _ _ _ _ Hh), (state_field _ _ Hr).
  unfold Breaker.success, next_state_after_success, evaluate_circuit.
  pose proof Hr as [Hs Hf Hsu Ho Hl Hp Hop].
  destruct (state snap) eqn:Hst; cbn [value CircuitState.str_enum CircuitState.value_of].
  - split; [done|]. eapply holds_hset_expire; [done|]. fields_go. by rewrite Hst.
  - split; [done|]. destruct Hs as [Hs|[_ ?]]; [|done].
    destruct (entry s t key) as [[d dl]|] eqn:He; [|cbn in Hh; injection Hh as <-; by rewrite lookup_empty in Hs].
    exists h. cbn [snd]. erewrite entry_expire; [|done|exact He]. split; [by destruct d|done].
  - destruct (entry_hincrby s t key "success_count" 1 h Hh) as [Hv He].
    rewrite (tointeger_field _ _ _ Hsu) in Hv, He.
    destruct (hincrby t key "success_count" 1 s) as [v s1]. cbn in Hv, He. subst v.
    set (h1 := <["success_count" := RInt (success_count snap + 1)]> h) in *.
    destruct (_ <=? _).
    + split; [done|]. apply holds_hset_expire with h1; [by rewrite He|]. unfold h1. fields_go.
    + split; [done|]. exists h1. cbn [snd]. erewrite entry_expire; [|done|exact He]. split; [done|].
      destruct Hs as [Hs|[_ ?]]; [|done]. unfold h1. fields_go. by rewrite Hst.
Qed.
End Refinement.

(** The key lives at least until [d]. *)
Section Lease.
Context `{R : Redis} {HR : RedisOk R} (key : string).

Definition leased (s : server) (t : Q) (snap : CircuitSnapshot) (d : Q) : Prop :=
  holds_circuit key s t snap ∧ ∃ d', deadline (entry s t key) = Some d' ∧ (d <= d')%Q.

Lemma leased_later s t t' snap d :
  leased s t snap d → (t <= t')%Q → (t' < d)%Q → leased s t' snap d.
Proof.
  intros [(h & Hh & Hr) (d' & Hd' & Hle)] Ht Hlt. destruct (entry s t key) as [[x dl]|] eqn:He; [|done].
  cbn in Hd'. subst dl. assert (t' < d')%Q by lra.
  pose proof (entry_kept s t t' key x d' He Ht ltac:(done)) as He'. split.
  - exists h. by rewrite He'.
  - exists d'. by rewrite He'.
Qed.

Lemma leased_weaken s t snap d d' : leased s t snap d → (d' <= d)%Q → leased s t snap d'.
Proof. intros [Hh (x & Hx & Hle)] Hd. split; [done|]. exists x. split; [done|lra]. Qed.

(** Without a key the breaker is closed. *)
Lemma absent_closed s t : entry s t key = None → holds_circuit key s t closed_snapshot.
Proof. intros He. exists ∅. rewrite He. split; [done|apply represents_empty]. Qed.

Lemma hset_deadline s t fvs h : fields (entry s t key) = Some h →
  deadline (entry (hset t key fvs s) t key) = deadline (entry s t key).
Proof. intros Hh. by rewrite (entry_hset _ _ _ _ h). Qed.
Lemma expire_deadline s t ttl x : (0 < ttl)%Q → entry s t key = Some x →
  deadline (entry (expire t key ttl s) t key) = Some (t + ttl)%Q.
Proof. destruct x as [d dl]. intros Ht He. by erewrite entry_expire. Qed.

Context (now : Q) (ttl : Z) (Httl : (0 < inject_Z ttl)%Q).

(** A script that wrote anything renewed the lease. *)
Definition renewed (t : Q) (s s' : server) : Prop :=
  s' = s ∨ deadline (entry s' t key) = Some (t + inject_Z ttl)%Q.

Lemma renewed_hset s t fvs h : fields (entry s t key) = Some h →
  renewed t s (expire t key (inject_Z ttl) (hset t key fvs s)).
Proof. intros Hh. right. eapply expire_deadline; [done|by apply entry_hset]. Qed.
Lemma renewed_hincrby s t f n h : fields (entry s t key) = Some h →
  renewed t s (expire t key (inject_Z ttl) (hincrby t key f n s).2).
Proof. intros Hh. right. eapply expire_deadline; [done|by apply entry_hincrby]. Qed.
Lemma renewed_expire s t h snap : fields (entry s t key) = Some h → represents h snap →
  state snap ≠ CircuitState.CLOSED → renewed t s (expire t key (inject_Z ttl) s).
Proof.
  intros Hh [Hs _ _ _ _ _ _] Hc. right. destruct (entry s t key) as [x|] eqn:He; [by eapply expire_deadline|].
  cbn in Hh. injection Hh as <-. destruct Hs as [Hs|[_ ?]]; [by rewrite lookup_empty in Hs|done].
Qed.

Lemma allow_renews open max t s snap :
  holds_circuit key s t snap → renewed t s (_ALLOW_SCRIPT key now open max ttl t s).2.
Proof.
  intros (h & Hh & Hr). unfold _ALLOW_SCRIPT. rewrite (hget_fields _ _ _ _ _ Hh).
  pose proof (rep_state _ _ Hr) as [-> |[-> _]]; [|by left].
  destruct (state snap); cbn [value CircuitState.str_enum CircuitState.value_of]; [by left|..];
    (destruct (_ : bool); [|by left]); [by eapply renewed_hset|by eapply renewed_hincrby].
Qed.

Lemma success_renews thr t s snap :
  holds_circuit key s t snap → renewed t s (_SUCCESS_SCRIPT key now thr ttl t s).2.
Proof.
  intros (h & Hh & Hr). unfold _SUCCESS_SCRIPT.
  rewrite (hget_fields _ _ _ _ _ Hh), (state_field _ _ Hr).
  destruct (state snap) eqn:Hs; cbn [value CircuitState.str_enum CircuitState.value_of].
  - by eapply renewed_hset.
  - eapply renewed_expire; [done|done|congruence].
  - destruct (entry_hincrby s t key "success_count" 1 h Hh) as [_ He].
    destruct (hincrby t key "success_count" 1 s) as [v s1] eqn:Hv. cbn in He.
    destruct (_ <=? _); right; (eapply expire_deadline; [done|]); [|done].
    apply (entry_hset _ _ _ _ (<["success_count" := RInt (tointeger (h !! "success_count") + 1)]> h)).
    by rewrite He.
Qed.

Lemma failure_renews thr t s snap :
  holds_circuit key s t snap → renewed t s (_FAILURE_SCRIPT key now thr ttl t s).2.
Proof.
  intros (h & Hh & Hr). unfold _FAILURE_SCRIPT.
  rewrite (hget_fields _ _ _ _ _ Hh), (state_field _ _ Hr).
  destruct (state snap) eqn:Hs; cbn [value CircuitState.str_enum CircuitState.value_of].
  - destruct (entry_hincrby s t key "failure_count" 1 h Hh) as [_ He].
    destruct (hincrby t key "failure_count" 1 s) as [v s1] eqn:Hv. cbn in He.
    eapply entry_expire in He as He2; [|exact Httl]. right.
    destruct (_ <=? _); cbn [snd]; [|by rewrite He2].
    erewrite hset_deadline; [by rewrite He2|by rewrite He2].
  - eapply renewed_expire; [done|done|congruence].
  - by eapply renewed_hset.
Qed.
End Lease.

(** * Runs of the client *)

Section Runs.
Context `{R : Redis} {HR : RedisOk R} (namespace : string).
Context (circuit_policy : string → outcome exn CircuitBreakerPolicy.t).
Context (provider : string) (p : CircuitBreakerPolicy.t).
Context (Hpolicy : circuit_policy provider = Ret p) (Hvalid : CircuitBreakerPolicy.valid p).
Let key := Keys.circuit namespace provider.
Let ttl := _ttl_seconds (CircuitBreakerPolicy.open_seconds p).

(** The client can reach the server, it is [n] microseconds past the epoch, and
    the breaker of the provider is in state [snap]. *)
Definition sees (c : redis_client) (n : Z) (snap : CircuitSnapshot) : Prop :=
  rc_up c = true ∧ rc_now c = total_seconds n ∧ holds_circuit key (rc_server c) (rc_now c) snap.

(** What an operation leaves behind. *)
Definition leaves (c c' : redis_client) (n : Z) (snap : CircuitSnapshot) : Prop :=
  sees c' n snap ∧ renewed key ttl (total_seconds n) (rc_server c) (rc_server c').

Lemma wp_command {A} (f : Q → server → A * server) (Q : A → redis_client → Prop) X c n snap snap' :
  sees c n snap →
  holds_circuit key (f (total_seconds n) (rc_server c)).2 (total_seconds n) snap' →
  renewed key ttl (total_seconds n) (rc_server c) (f (total_seconds n) (rc_server c)).2 →
  (∀ c', leaves c c' n snap' → Q (f (total_seconds n) (rc_server c)).1 c') →
  wp (command f) Q X c.
Proof.
  intros (Hup & Hnow & _) Hh Hr HQ. unfold wp, command. rewrite Hup, Hnow.
  destruct (f _ _) as [a s'] eqn:Hf. cbn in Hh, Hr, HQ. apply HQ. split; [|done]. split_and!; cbn; try done.
  by rewrite Hnow.
Qed.

Lemma wp_outage {A} (m : M exn redis_client A) d (Q : A → redis_client → Prop) X c :
  wp m Q (λ _ _, False) c → wp (or_on_outage m d) Q X c.
Proof. intros Hm. unfold or_on_outage. wp_step. eapply wp_conseq; [exact Hm|done|done]. Qed.

Lemma wp_allow (Q : bool → redis_client → Prop) X c n snap :
  sees c n snap →
  (∀ c', leaves c c' n (Breaker.allow p (utc n) snap) → Q (admits_traffic snap (utc n) p) c') →
  wp (RedisCircuitBreaker.allow namespace circuit_policy provider) Q X c.
Proof.
  intros Hs HQ. pose proof Hs as (Hup & Hnow & Hh). rewrite Hnow in Hh. unfold RedisCircuitBreaker.allow.
  wp_step. wp_step. rewrite Hpolicy. apply wp_outage. wp_step. wp_step. rewrite Hnow. wp_step.
  destruct (allow_refines key p Hvalid ttl (ttl_positive _) n _ _ _ Hh) as [Hans Hres].
  eapply wp_command; [exact Hs|exact Hres|eapply allow_renews; [apply ttl_positive|exact Hh]|].
  intros c' Hl. wp_step. fold key ttl. rewrite Hans. by apply HQ.
Qed.

Lemma wp_failure (Q : CircuitState.t → redis_client → Prop) X c n snap :
  sees c n snap →
  (∀ c', leaves c c' n (Breaker.failure p (utc n) snap) → Q (next_state_after_failure snap (utc n) p) c') →
  wp (RedisCircuitBreaker.record_failure namespace circuit_policy provider) Q X c.
Proof.
  intros Hs HQ. pose proof Hs as (Hup & Hnow & Hh). rewrite Hnow in Hh.
  unfold RedisCircuitBreaker.record_failure. wp_step. wp_step. rewrite Hpolicy. wp_step. apply wp_outage.
  wp_step. wp_step. rewrite Hnow. wp_step.
  destruct (failure_refines key p ttl (ttl_positive _) n _ _ _ Hh) as [Hans Hres].
  eapply wp_command; [exact Hs|exact Hres|eapply failure_renews; [apply ttl_positive|exact Hh]|].
  intros c' Hl. wp_step. wp_step. fold key ttl. rewrite Hans.
  unfold RedisCircuitBreaker.circuit_state_of. rewrite of_value_value. by apply HQ.
Qed.

Lemma wp_success (Q : CircuitState.t → redis_client → Prop) X c n snap :
  sees c n snap →
  (∀ c', leaves c c' n (Breaker.success p (utc n) snap) →
     Q (match state snap with
        | CircuitState.OPEN => CircuitState.OPEN
        | _ => next_state_after_success snap (utc n) p
        end) c') →
  wp (RedisCircuitBreaker.record_success namespace circuit_policy provider) Q X c.
Proof.
  intros Hs HQ. pose proof Hs as (Hup & Hnow & Hh). rewrite Hnow in Hh.
  unfold RedisCircuitBreaker.record_success. wp_step. wp_step. rewrite Hpolicy. wp_step. apply wp_outage.
  wp_step. wp_step. rewrite Hnow. wp_step.
  destruct (success_refines key p ttl (ttl_positive _) n _ _ _ Hh) as [Hans Hres].
  eapply wp_command; [exact Hs|exact Hres|eapply success_renews; [apply ttl_positive|exact Hh]|].
  intros c' Hl. wp_step. wp_step. fold key ttl. rewrite Hans.
  unfold RedisCircuitBreaker.circuit_state_of. rewrite of_value_value. by apply HQ.
Qed.

(** The clock moves on; the breaker is as it was while its key lives. *)
Lemma sees_later c n n' snap d :
  sees c n snap → leased key (rc_server c) (total_seconds n) snap d → n ≤ n' →
  (total_seconds n' < d)%Q → sees (at_time (total_seconds n') c) n' snap.
Proof.
  intros (Hup & Hnow & _) Hl Hn Hd. split_and!; [done|done|]. cbn.
  apply (leased_later key _ (total_seconds n) (total_seconds n') snap d); try done.
  unfold total_seconds, Qle. cbn. lia.
Qed.
End Runs.

(** * Theorems *)

Module BreakerTheorems.
Section Theorems.
Context `{R : Redis} {HR : RedisOk R} (namespace : string).
Context (circuit_policy : string → outcome exn CircuitBreakerPolicy.t).
Context (provider : string) (p : CircuitBreakerPolicy.t).

(** A call through the breaker to a provider that answers. *)
Definition probe : M exn redis_client bool :=
  let* admitted := RedisCircuitBreaker.allow namespace circuit_policy provider in
  (if admitted : bool then RedisCircuitBreaker.record_success namespace circuit_policy provider ;;; ret tt
   else ret tt) ;;;
  ret admitted.

Let key := Keys.circuit namespace provider.
Let ttl := _ttl_seconds (CircuitBreakerPolicy.open_seconds p).
Let maxp := CircuitBreakerPolicy.half_open_max_probes p.

Lemma before_deadline n n0 : n < n0 + ttl * us_per_second →
  (total_seconds n < total_seconds n0 + inject_Z ttl)%Q.
Proof. unfold total_seconds, us_per_second, Qlt. cbn. lia. Qed.

(** What an operation at [n] leaves behind is leased for as long as before, if
    that is not longer than a fresh lease. *)
Lemma leaves_leased c c' n n0 snap snap' :
  leaves namespace provider p c c' n snap' → n0 ≤ n →
  leased key (rc_server c) (total_seconds n) snap (total_seconds n0 + inject_Z ttl)%Q →
  leased key (rc_server c') (total_seconds n) snap' (total_seconds n0 + inject_Z ttl)%Q.
Proof.
  intros [(Hup & Hnow & Hh) Hr] Hn [_ Hd]. rewrite Hnow in Hh. split; [exact Hh|].
  destruct Hr as [Heq|Hd']; [by rewrite Heq|]. exists (total_seconds n + inject_Z ttl)%Q.
  split; [exact Hd'|]. unfold total_seconds, Qle, Qplus. cbn. lia.
Qed.

(** An operation that changed the breaker has renewed the lease. *)
Lemma leaves_fresh c c' n snap snap' :
  sees namespace provider c n snap → leaves namespace provider p c c' n snap' → snap' ≠ snap →
  leased key (rc_server c') (total_seconds n) snap' (total_seconds n + inject_Z ttl)%Q.
Proof.
  intros (_ & Hnow & h & Hh & Hr) [(_ & Hnow' & Hh') [Heq|Hd]] Hne; rewrite Hnow' in Hh'; (split; [exact Hh'|]).
  - exfalso. destruct Hh' as (h' & Hf' & Hr'). rewrite Heq, <- Hnow, Hh in Hf'. injection Hf' as <-.
    apply represents_snapshot in Hr, Hr'. rewrite Hr in Hr'. injection Hr' as Hr'. done.
  - exists (total_seconds n + inject_Z ttl)%Q. split; [exact Hd|apply Qle_refl].
Qed.

(** A half-open breaker that has handed out [j] probes, all of them successful. *)
Definition probing (j : Z) (snap : CircuitSnapshot) : Prop :=
  state snap = CircuitState.HALF_OPEN ∧ half_open_probes snap = j ∧ success_count snap = j.

Section Starvation.
Context (Hpolicy : circuit_policy provider = Ret p) (Hvalid : CircuitBreakerPolicy.valid p).
Context (Hstarve : maxp < CircuitBreakerPolicy.success_threshold p).

Lemma wp_probe c n snap j (Q : bool → redis_client → Prop) X :
  sees namespace provider c n snap → probing j snap → j ≤ maxp →
  (∀ c' c'' snap' snap'', leaves namespace provider p c c' n snap' →
     leaves namespace provider p c' c'' n snap'' → j < maxp → probing (j + 1) snap'' → Q true c'') →
  (∀ c', leaves namespace provider p c c' n snap → j = maxp → Q false c') →
  wp probe Q X c.
Proof.
  intros Hs (Hst & Hj & Hk) Hle Hyes Hno. unfold probe. wp_step. eapply wp_allow; [done|done|exact Hs|].
  intros c' Hl. unfold Breaker.allow, admits_traffic, evaluate_circuit in *. rewrite Hst, Hj in *.
  fold maxp in Hl |- *. destruct (j <? maxp) eqn:Hlt.
  - apply Z.ltb_lt in Hlt. wp_step. wp_step. eapply wp_success; [done|apply Hl|].
    intros c'' Hl''. wp_step. wp_step. eapply (Hyes _ _ _ _ Hl Hl''); [done|].
    unfold Breaker.success, next_state_after_success, evaluate_circuit. cbn. rewrite Hst, Hk.
    destruct (_ <=? _) eqn:Ht; [apply Z.leb_le in Ht; lia|]. by split_and!; cbn; rewrite ?Hst, ?Hj, ?Hk.
  - apply Z.ltb_ge in Hlt. wp_step. wp_step. wp_step. apply Hno; [done|lia].
Qed.

(** The answers of successive probes when [j] of [m] slots are taken. *)
Definition answers (j m : Z) (k : nat) : list bool :=
  (λ i, j + Z.of_nat i <? m) <$> seq 0 k.

Lemma answers_S j m k : answers j m (S k) = (j <? m) :: answers (j + 1) m k.
Proof.
  unfold answers. cbn. f_equal; [f_equal; lia|]. rewrite <- seq_shift, <- list_fmap_compose.
  apply list_fmap_ext. intros i x _. cbn. f_equal. lia.
Qed.
Lemma answers_stuck m k : answers (m + 1) m k = answers m m k.
Proof.
  apply list_fmap_ext. intros i x Hx. rewrite (proj2 (Z.ltb_ge _ _)) by lia.
  symmetry. apply Z.ltb_ge. lia.
Qed.

Lemma starving n0 ns : ∀ c n j snap,
  sees namespace provider c n snap → probing j snap → j ≤ maxp → n0 ≤ n →
  leased key (rc_server c) (total_seconds n) snap (total_seconds n0 + inject_Z ttl)%Q →
  ordered n (n0 + ttl * us_per_second) ns →
  wp (at_times probe ns)
     (λ l c', l = answers j maxp (length ns) ∧ ∃ n' snap' j', sees namespace provider c' n' snap' ∧ probing j' snap')
     (λ _ _, False) c.
Proof.
  induction ns as [|n' ns IH]; intros c n j snap Hs Hp Hj Hn Hl Hord.
  { cbn. split; [done|]. by exists n, snap, j. }
  destruct Hord as (Hn' & Hstop & Hord). cbn [at_times]. wp_step. wp_step. wp_step.
  pose proof (before_deadline n' n0 Hstop) as Hd.
  pose proof (sees_later _ _ p c n n' snap _ Hs Hl Hn' Hd) as Hs'.
  assert (leased key (rc_server (at_time (total_seconds n') c)) (total_seconds n') snap
            (total_seconds n0 + inject_Z ttl)%Q) as Hl'.
  { eapply leased_later; [exact Hl| |done]. unfold total_seconds, Qle. cbn. lia. }
  eapply wp_probe; [exact Hs'|exact Hp|done| |].
  - intros c1 c2 s1 s2 Hc1 Hc2 Hlt Hp2. wp_step.
    eapply wp_conseq; [eapply (IH c2 n' (j + 1) s2)| |done].
    + apply Hc2.
    + done.
    + lia.
    + lia.
    + eapply leaves_leased; [exact Hc2|lia|]. eapply leaves_leased; [exact Hc1|lia|exact Hl'].
    + done.
    + intros l c' [-> Hfin]. wp_step. cbn [length]. rewrite answers_S. split; [|done].
      by rewrite (proj2 (Z.ltb_lt _ _)).
  - intros c1 Hc1 ->. wp_step. eapply wp_conseq; [eapply (IH c1 n' maxp snap)| |done].
    + apply Hc1.
    + done.
    + lia.
    + lia.
    + eapply leaves_leased; [exact Hc1|lia|exact Hl'].
    + done.
    + intros l c' [-> Hfin]. wp_step. cbn [length]. rewrite answers_S, Z.ltb_irrefl, answers_stuck. done.
Qed.

(** The first probe after the open window. *)
Lemma wp_first_probe c n snap (Q : bool → redis_client → Prop) X :
  sees namespace provider c n snap → state snap = CircuitState.OPEN →
  evaluate_circuit snap (utc n) p = CircuitState.HALF_OPEN →
  (∀ c' snap', sees namespace provider c' n snap' → probing 1 snap' →
     leased key (rc_server c') (total_seconds n) snap' (total_seconds n + inject_Z ttl)%Q → Q true c') →
  wp probe Q X c.
Proof.
  intros Hs Hst He HQ. pose proof Hs as (_ & Hnow & h & Hh & Hr). unfold probe. wp_step.
  destruct (rep_open _ _ Hr Hst) as [_ Hz].
  eapply wp_allow; [done|done|exact Hs|]. intros c' Hl.
  assert (admits_traffic snap (utc n) p = true) as ->.
  { unfold admits_traffic. rewrite He, Hz. apply Z.ltb_lt. destruct Hvalid as (_ & _ & _ & ?). lia. }
  unfold Breaker.allow in Hl. rewrite He, Hst in Hl. wp_step. wp_step. eapply wp_success; [done|apply Hl|].
  intros c'' Hl''. wp_step. wp_step. unfold Breaker.success, next_state_after_success, evaluate_circuit in Hl''.
  cbn in Hl''. destruct (_ <=? _) eqn:Ht in Hl''.
  { exfalso. apply Z.leb_le in Ht. unfold maxp in Hstarve. destruct Hvalid as (_ & _ & _ & ?). lia. }
  eapply HQ; [apply Hl''|done|].
  eapply leaves_leased; [exact Hl''|done|]. eapply leaves_fresh; [exact Hs|exact Hl|].
  intros Heq. by rewrite <- Heq in Hst.
Qed.
End Starvation.

(** Left alone, the breaker stays in [snap] from [n] until [stop]. *)
Definition steady (c : redis_client) (n stop : Z) (snap : CircuitSnapshot) : Prop :=
  ∀ n', n ≤ n' < stop → sees namespace provider (at_time (total_seconds n') c) n' snap.

Lemma fresh_steady c n snap :
  sees namespace provider c n snap →
  leased key (rc_server c) (total_seconds n) snap (total_seconds n + inject_Z ttl)%Q →
  steady c n (n + ttl * us_per_second) snap.
Proof. intros Hs Hl n' [Hn' Hd]. eapply (sees_later _ _ p); [done|done|done|]. by apply before_deadline. Qed.
Lemma absent_steady c n stop :
  rc_up c = true → entry (rc_server c) (total_seconds n) key = None → steady c n stop closed_snapshot.
Proof.
  intros Hup He n' [Hn' _]. split_and!; [done|done|]. apply absent_closed. cbn.
  eapply entry_absent; [exact He|]. unfold total_seconds, Qle. cbn. lia.
Qed.

(** A run of failures against a closed breaker. *)
Lemma failing_run n0 : circuit_policy provider = Ret p →
  ∀ ns c n snap,
  steady c n (n0 + ttl * us_per_second) snap → state snap = CircuitState.CLOSED → n0 ≤ n →
  ordered n (n0 + ttl * us_per_second) ns → ns ≠ [] →
  failure_count snap + Z.of_nat (length ns) = CircuitBreakerPolicy.failure_threshold p →
  wp (at_times (RedisCircuitBreaker.record_failure namespace circuit_policy provider) ns)
     (λ _ c', let m := List.last ns 0 in ∃ snap',
        steady c' m (m + ttl * us_per_second) snap' ∧
        state snap' = CircuitState.OPEN ∧ opened_at snap' = Some (utc m))
     (λ _ _, False) c.
Proof.
  intros Hpol. induction ns as [|n' ns IH]; intros c n snap Hst Hcl Hn Hord Hne Hlen; [done|].
  destruct Hord as (Hn' & Hstop & Hord). cbn [at_times]. wp_step. wp_step. wp_step.
  pose proof (Hst n' (conj Hn' Hstop)) as Hs. eapply wp_failure; [done|exact Hs|]. intros c1 Hl1. wp_step.
  pose proof (leaves_fresh _ _ _ _ _ Hs Hl1) as Hfresh.
  unfold Breaker.failure, next_state_after_failure, evaluate_circuit in *. rewrite Hcl in *.
  destruct ns as [|n2 ns].
  - cbn in Hlen. rewrite (proj2 (Z.leb_le _ _)) in Hl1, Hfresh by lia. cbn [at_times]. wp_step. wp_step. cbn.
    eexists. split_and!; [apply fresh_steady; [apply Hl1|apply Hfresh]|done|done].
    intros Heq. by rewrite <- Heq in Hcl.
  - rewrite (proj2 (Z.leb_gt _ _)) in Hl1, Hfresh by (cbn in Hlen; lia).
    eapply wp_conseq; [eapply (IH c1 n')| |done].
    + intros n3 [Hn3 Hs3]. eapply fresh_steady; [apply Hl1|apply Hfresh|].
      * intros Heq. apply (f_equal failure_count) in Heq. cbn in Heq. lia.
      * split; [done|]. unfold us_per_second in *. lia.
    + done.
    + lia.
    + done.
    + done.
    + cbn in Hlen |- *. lia.
    + intros l c2 Hc2. wp_step. exact Hc2.
Qed.

(** C32. The shared breaker decides as the pure policy does. Whatever state the
    Redis hash of a provider holds, [allow], [record_failure] and
    [record_success] return what [admits_traffic], [next_state_after_failure]
    and [next_state_after_success] say of it and leave the hash holding the
    abstract breaker's next state, with one exception: a success reported while
    the stored state is OPEN leaves the breaker open. *)
Theorem breaker_refines_policy (c : redis_client) (n : Z) (snap : CircuitSnapshot) :
  circuit_policy provider = Ret p → CircuitBreakerPolicy.valid p →
  sees namespace provider c n snap →
  (∃ c', RedisCircuitBreaker.allow namespace circuit_policy provider c =
           (Ret (admits_traffic snap (utc n) p), c') ∧
         sees namespace provider c' n (Breaker.allow p (utc n) snap)) ∧
  (∃ c', RedisCircuitBreaker.record_failure namespace circuit_policy provider c =
           (Ret (next_state_after_failure snap (utc n) p), c') ∧
         sees namespace provider c' n (Breaker.failure p (utc n) snap)) ∧
  (∃ c', RedisCircuitBreaker.record_success namespace circuit_policy provider c =
           (Ret (if bool_decide (state snap = CircuitState.OPEN) then CircuitState.OPEN
                 else next_state_after_success snap (utc n) p), c') ∧
         sees namespace provider c' n (Breaker.success p (utc n) snap)).
Proof.
  intros Hpol Hv Hs.
  assert (∀ {A} (m : M exn redis_client A) a s', wp m (λ x c', x = a ∧ sees namespace provider c' n s')
    (λ _ _, False) c → ∃ c', m c = (Ret a, c') ∧ sees namespace provider c' n s') as Hrun.
  { intros A m a s' (x & c' & Hm & -> & Hc')%wp_total. by exists c'. }
  split_and!; apply Hrun.
  - eapply wp_allow; [done|done|done|]. intros c' [Hc _]. done.
  - eapply wp_failure; [done|done|]. intros c' [Hc _]. done.
  - eapply wp_success; [done|done|]. intros c' [Hc _]. split; [|done]. by destruct (state snap).
Qed.

(** C33. A breaker that wants more successes than it hands out probes cannot close.
    When [success_threshold] exceeds [half_open_max_probes] (the defaults are 2
    and 1), an open breaker whose window has passed admits exactly
    [half_open_max_probes] calls; although every one of them succeeds, it then
    refuses every call, and is still half-open, for as long as the key lives. *)
Theorem half_open_starves (c : redis_client) (n : Z) (ns : list Z) (snap : CircuitSnapshot) :
  circuit_policy provider = Ret p → CircuitBreakerPolicy.valid p →
  CircuitBreakerPolicy.half_open_max_probes p < CircuitBreakerPolicy.success_threshold p →
  sees namespace provider c n snap → state snap = CircuitState.OPEN →
  evaluate_circuit snap (utc n) p = CircuitState.HALF_OPEN →
  ordered n (n + _ttl_seconds (CircuitBreakerPolicy.open_seconds p) * us_per_second) ns →
  ∃ l c' n' snap', at_times probe (n :: ns) c = (Ret l, c') ∧
    l = ((λ i, Z.of_nat i <? CircuitBreakerPolicy.half_open_max_probes p) <$> seq 0 (S (length ns))) ∧
    sees namespace provider c' n' snap' ∧ state snap' = CircuitState.HALF_OPEN.
Proof.
  intros Hpol Hv Hstarve Hs Hst He Hord.
  assert (wp (at_times probe (n :: ns)) (λ l c', l = answers 0 maxp (S (length ns)) ∧
    ∃ n' snap', sees namespace provider c' n' snap' ∧ state snap' = CircuitState.HALF_OPEN)
    (λ _ _, False) c) as (l & c' & Hrun & -> & n' & snap' & Hs' & Hst')%wp_total;
    [|by exists (answers 0 maxp (S (length ns))), c', n', snap'].
  cbn [at_times]. wp_step. wp_step. wp_step.
  assert (at_time (total_seconds n) c = c) as ->.
  { destruct Hs as (_ & Hnow & _). destruct c. cbn in *. by subst. }
  eapply wp_first_probe; [done..|]. intros c1 snap1 Hs1 Hp1 Hl1. wp_step.
  eapply wp_conseq; [eapply (starving Hpol Hv Hstarve n ns c1 n 1 snap1)| |done]; try done.
  - destruct Hv as (_ & _ & _ & ?). done.
  - intros l c' [-> (n' & snap' & j' & Hs' & Hp')]. wp_step. rewrite answers_S.
    split; [|exists n', snap'; split; [done|apply Hp']].
    f_equal. symmetry. apply Z.ltb_lt. destruct Hv as (_ & _ & _ & ?). unfold maxp. lia.
Qed.

(** A provider that keeps failing is left alone. When nothing is known of a
    provider and [failure_threshold] failures are recorded within the key's
    lifetime, the breaker opens with the last of them, and every call is refused
    from then on until [open_seconds] have passed. *)
Theorem breaker_trips (c : redis_client) (n : Z) (ns : list Z) :
  circuit_policy provider = Ret p → CircuitBreakerPolicy.valid p → rc_up c = true →
  entry (rc_server c) (total_seconds n) (Keys.circuit namespace provider) = None →
  ordered n (n + _ttl_seconds (CircuitBreakerPolicy.open_seconds p) * us_per_second) ns →
  Z.of_nat (length ns) = CircuitBreakerPolicy.failure_threshold p →
  ∃ l c', at_times (RedisCircuitBreaker.record_failure namespace circuit_policy provider) ns c = (Ret l, c') ∧
    ∀ m, List.last ns 0 ≤ m →
      (total_seconds (m - List.last ns 0)%Z < CircuitBreakerPolicy.open_seconds p)%Q →
      ∃ c'', RedisCircuitBreaker.allow namespace circuit_policy provider
               (at_time (total_seconds m) c') = (Ret false, c'').
Proof.
  intros Hpol Hv Hup He Hord Hlen.
  destruct (wp_total _ _ _ (failing_run n Hpol ns c n closed_snapshot (absent_steady c n _ Hup He)
    eq_refl (Z.le_refl n) Hord ltac:(intros ->; destruct Hv; cbn in Hlen; lia) Hlen))
    as (l & c' & Hrun & snap & Hst & Hopen & Hat).
  exists l, c'. split; [done|]. set (m0 := List.last ns 0) in *. intros m Hm Hw.
  assert (m < m0 + ttl * us_per_second) as Hlive.
  { assert (CircuitBreakerPolicy.open_seconds p <= inject_Z ttl)%Q as Ho.
    { unfold ttl. apply open_within_ttl. apply Hv. }
    assert (total_seconds (m - m0) < inject_Z ttl)%Q as Hq by lra.
    revert Hq. unfold total_seconds, us_per_second, Qlt. cbn. lia. }
  assert (wp (RedisCircuitBreaker.allow namespace circuit_policy provider) (λ b _, b = false)
    (λ _ _, False) (at_time (total_seconds m) c')) as (b & c'' & Ha & ->)%wp_total; [|by exists c''].
  eapply wp_allow; [done|done|apply (Hst m (conj Hm Hlive))|]. intros c'' _.
  unfold admits_traffic, evaluate_circuit, elapsed_seconds. rewrite Hopen, Hat, !instant_utc.
  destruct (Qle_bool _ _) eqn:Hq; [|done]. apply Qle_bool_iff in Hq. lra.
Qed.
End Theorems.

(** The defaults of [CircuitBreakerPolicy], with two failures to open and thirty
    seconds open, on an in-memory server. *)
#[local] Existing Instance MemoryRedis.memory_ok.
Definition default_policy : CircuitBreakerPolicy.t := CircuitBreakerPolicy.mk 2 30 2 1.
Definition sample_circuit_policy (slug : string) : outcome exn CircuitBreakerPolicy.t := Ret default_policy.
Lemma default_policy_valid : CircuitBreakerPolicy.valid default_policy.
Proof. unfold CircuitBreakerPolicy.valid. cbn. split_and!; (lia || lra). Qed.

Definition fresh_client : @redis_client MemoryRedis.memory := @mk_client MemoryRedis.memory ∅ (total_seconds 0) true.
Definition tripped_client : @redis_client MemoryRedis.memory :=
  at_time (total_seconds 30000000)
    (at_times (RedisCircuitBreaker.record_failure "io" sample_circuit_policy "cobalt") [0; 0] fresh_client).2.
Definition tripped_snapshot : CircuitSnapshot :=
  mk_snapshot CircuitState.OPEN 2 0 (Some (utc 0)) (Some (utc 0)) 0.

Lemma tripped_sees : sees "io" "cobalt" tripped_client 30000000 tripped_snapshot.
Proof.
  split_and!; [reflexivity|reflexivity|].
  exists (hgetall (Keys.circuit "io" "cobalt") (rc_now tripped_client) (rc_server tripped_client)).
  split; [vm_compute; reflexivity|].
  split; first [left; vm_compute; reflexivity | exists 0; split; vm_compute; reflexivity |
                intros _; split; [by eexists|reflexivity]].
Qed.

Lemma breaker_refines_policy_witness :
  ∃ c', RedisCircuitBreaker.allow "io" sample_circuit_policy "cobalt" tripped_client = (Ret true, c') ∧
        sees "io" "cobalt" c' 30000000 (Breaker.allow default_policy (utc 30000000) tripped_snapshot).
Proof.
  destruct (breaker_refines_policy "io" sample_circuit_policy "cobalt" default_policy tripped_client
    30000000 tripped_snapshot) as [Hallow _].
  - reflexivity.
  - apply default_policy_valid.
  - apply tripped_sees.
  - exact Hallow.
Defined.

Lemma half_open_starves_witness :
  ∃ l c' n' snap',
    at_times (probe "io" sample_circuit_policy "cobalt")
      (30000000 :: [30000001; 40000000; 200000000]) tripped_client = (Ret l, c') ∧
    l = [true; false; false; false] ∧
    sees "io" "cobalt" c' n' snap' ∧ state snap' = CircuitState.HALF_OPEN.
Proof.
  apply (half_open_starves "io" sample_circuit_policy "cobalt" default_policy tripped_client 30000000
    [30000001; 40000000; 200000000] tripped_snapshot).
  - reflexivity.
  - apply default_policy_valid.
  - reflexivity.
  - apply tripped_sees.
  - reflexivity.
  - reflexivity.
  - repeat split; vm_compute; congruence.
Defined.

Lemma breaker_trips_witness :
  ∃ l c', at_times (RedisCircuitBreaker.record_failure "io" sample_circuit_policy "cobalt") [5; 10] fresh_client =
            (Ret l, c') ∧
    ∀ m, 10 ≤ m → (total_seconds (m - 10)%Z < 30)%Q →
      ∃ c'', RedisCircuitBreaker.allow "io" sample_circuit_policy "cobalt"
               (at_time (total_seconds m) c') = (Ret false, c'').
Proof.
  apply (breaker_trips "io" sample_circuit_policy "cobalt" default_policy fresh_client 0 [5; 10]).
  - reflexivity.
  - apply default_policy_valid.
  - reflexivity.
  - reflexivity.
  - repeat split; vm_compute; congruence.
  - reflexivity.
Defined.
End BreakerTheorems.
