(* ===== verification/RateLimiter.v ===== *)
(** The token buckets kept in Redis: the limiter in front of each provider
    ([infrastructure/redis/rate_limiter.py]) and the one in front of the API
    ([infrastructure/redis/inbound_rate_limiter.py]), both against one abstract
    bucket that never forgets. *)

From S2P Require Import Prelude PyData PyTime Errors Policies Redis.

(** The limits of [ProviderSettings] ([config/settings.py]); the fields are
    validated to be positive there. *)
Record ProviderLimits := mk_limits {
  max_concurrency : Z;
  acquire_timeout_seconds : Q;
  rate_limit_per_second : Q;
  rate_limit_burst : Z;
}.
Definition limits_valid (config : ProviderLimits) : Prop :=
  1 ≤ max_concurrency config ∧ (0 < acquire_timeout_seconds config)%Q ∧
  (0 < rate_limit_per_second config)%Q ∧ 1 ≤ rate_limit_burst config.

(** [math.max(0, x)], [math.min(a, b)]: [Qmaxb] and [Qminb]. *)

(** * The scripts *)

Section Scripts.
Context `{Redis}.
Context (key : string) (now rate burst : Q).

Definition _TOKEN_BUCKET_SCRIPT (ttl : Z) (t : Q) (s : server) : (Z * Q) * server :=
  let '(tokens, updated_at) :=
    match tonumber (hget key "tokens" t s), tonumber (hget key "updated_at" t s) with
    | Some tokens, Some updated_at => (tokens, updated_at)
    | _, _ => (burst, now)
    end in
  let elapsed := Qmaxb 0 (now - updated_at) in
  let tokens := Qminb burst (tokens + elapsed * rate) in
  let '(tokens, allowed, retry_after) :=
    if Qle_bool 1 tokens then ((tokens - 1)%Q, 1, 0%Q) else (tokens, 0, ((1 - tokens) / rate)%Q) in
  let s := hset t key [("tokens", RNum tokens); ("updated_at", RNum now)] s in
  let s := expire t key (inject_Z ttl) s in
  ((allowed, retry_after), s).

(** Arithmetic on [nil] aborts the script: only [tokens] is tested for it. *)
Definition _TOKEN_BUCKET (cost : Q) (ttl : Z) (t : Q) (s : server) : outcome exn (Z * Q) * server :=
  match match tonumber (hget key "tokens" t s), tonumber (hget key "ts" t s) with
        | None, _ => Some (burst, now)
        | Some tokens, Some ts => Some (tokens, ts)
        | Some _, None => None
        end with
  | None => (Raise RedisError, s)
  | Some (tokens, ts) =>
      let elapsed := Qmaxb 0 (now - ts) in
      let tokens := Qminb burst (tokens + elapsed * rate) in
      let '(tokens, allowed) := if Qle_bool cost tokens then ((tokens - cost)%Q, 1) else (tokens, 0) in
      let s := hset t key [("tokens", RNum tokens); ("ts", RNum now)] s in
      let s := expire t key (inject_Z ttl) s in
      (Ret (allowed, tokens), s)
  end.
End Scripts.

(** [max(60, int((rate_limit_burst / rate_limit_per_second) * 4))] *)
Definition bucket_ttl_seconds (config : ProviderLimits) : Z :=
  Z.max 60 (Qfloor (inject_Z (rate_limit_burst config) / rate_limit_per_second config * 4)).

Module RedisRateLimiter.
Section Client.
Context `{Redis} (namespace : string) (provider_settings : gmap string ProviderLimits).

Definition acquire (provider : string) : M exn redis_client bool :=
  match provider_settings !! provider with
  | None => ret true
  | Some config =>
      or_on_outage (
        let* now := gets rc_now in
        let* reply := command (_TOKEN_BUCKET_SCRIPT (Keys.rate_limit namespace provider) now
          (rate_limit_per_second config) (inject_Z (rate_limit_burst config))
          (bucket_ttl_seconds config)) in
        ret (negb (reply.1 =? 0))) true
  end.

Definition retry_after (provider : string) : M exn redis_client Q :=
  match provider_settings !! provider with
  | None => ret 0%Q
  | Some config =>
      or_on_outage (
        let key := Keys.rate_limit namespace provider in
        let* data := command (λ t s, ((hget key "tokens" t s, hget key "updated_at" t s), s)) in
        let* now := gets rc_now in
        match tonumber data.1, tonumber data.2 with
        | Some tokens_raw, Some updated_raw =>
            let elapsed := Qmaxb 0 (now - updated_raw) in
            let tokens := Qminb (inject_Z (rate_limit_burst config))
                               (tokens_raw + elapsed * rate_limit_per_second config) in
            if Qle_bool 1 tokens then ret 0%Q
            else ret ((1 - tokens) / rate_limit_per_second config)%Q
        | _, _ => ret 0%Q
        end) 0%Q
  end.
End Client.
End RedisRateLimiter.

Module InboundRateLimiter.
(** [InboundLimit] and the presets. *)
Record InboundLimit := mk_limit {
  name : string;
  rate_per_second : Q;
  burst : Z;
  fail_closed : bool;
}.
Definition MUTATION_LIMIT : InboundLimit := mk_limit "mutations" 20 40 true.
Definition WEBHOOK_LIMIT : InboundLimit := mk_limit "webhooks" 50 100 true.
Definition READ_LIMIT : InboundLimit := mk_limit "reads" 100 200 false.

Section Client.
Context `{Redis} (namespace : string).
Definition allow (scope : string) (l : InboundLimit) : M exn redis_client bool :=
  or_on_outage (
    let* now := gets rc_now in
    let* reply := command (_TOKEN_BUCKET (Keys.build namespace ["inbound-rl"; name l; scope]) now
      (rate_per_second l) (inject_Z (burst l)) 1 120) in
    let* result := lift reply in
    ret (negb (result.1 =? 0))) (negb (fail_closed l)).
End Client.
End InboundRateLimiter.

(** * The abstract bucket

    A level at a time. It refills at [rate] up to [burst], and a call takes one
    token when there is one. *)

Module Bucket.
Section Spec.
Context (rate burst : Q).
Definition refilled (level : Q) (us : Z) : Q := Qminb burst (level + total_seconds us * rate).
Definition take (level : Q) : bool * Q :=
  if Qle_bool 1 level then (true, (level - 1)%Q) else (false, level).
(** The answers to calls at the times [ns], from level [level] at [n]. *)
Fixpoint answers (n : Z) (level : Q) (ns : list Z) : list bool :=
  match ns with
  | [] => []
  | n' :: ns' =>
      let '(b, level') := take (refilled level (n' - n)) in
      b :: answers n' level' ns'
  end.
End Spec.
Definition admitted (l : list bool) : Z := Z.of_nat (length (List.filter id l)).
End Bucket.

Section BucketFacts.
Context (rate burst : Q) (Hrate : (0 < rate)%Q) (Hburst : (0 <= burst)%Q).

Lemma Qminb_cases a b : ((b < a)%Q ∧ Qminb a b = b) ∨ ((a <= b)%Q ∧ Qminb a b = a).
Proof. unfold Qminb. destruct (Qltb b a) eqn:H; qbool; auto. Qed.
Lemma Qminb_eq a b b' : (b == b')%Q → (Qminb a b == Qminb a b')%Q.
Proof. intros Hb. unfold Qminb. destruct (Qltb b a) eqn:H1, (Qltb b' a) eqn:H2; qbool; lra. Qed.

#[export] Instance answers_proper n : Proper (Qeq ==> eq ==> eq) (Bucket.answers rate burst n).
Proof.
  intros l l' Hl ns ? <-. revert n l l' Hl. induction ns as [|n' ns IH]; intros n l l' Hl; [done|]. cbn.
  assert (Bucket.refilled rate burst l (n' - n) == Bucket.refilled rate burst l' (n' - n))%Q as Hr
    by (apply Qminb_eq; lra).
  unfold Bucket.take. destruct (Qle_bool 1 (Bucket.refilled rate burst l (n' - n))) eqn:H1,
    (Qle_bool 1 (Bucket.refilled rate burst l' (n' - n))) eqn:H2; qbool; try lra; f_equal; apply IH; lra.
Qed.

Lemma admitted_cons b l : Bucket.admitted (b :: l) = (if b then 1 else 0) + Bucket.admitted l.
Proof. unfold Bucket.admitted. destruct b; cbn; lia. Qed.

Lemma seconds_split a b c : (total_seconds (c - a) == total_seconds (c - b) + total_seconds (b - a))%Q.
Proof. unfold total_seconds, Qeq. cbn. lia. Qed.
Lemma seconds_nonneg n : 0 ≤ n → (0 <= total_seconds n)%Q.
Proof. intros Hn. unfold total_seconds, Qle. cbn. lia. Qed.

(** What is admitted was in the bucket or has been refilled since. *)
Lemma admitted_bound ns : ∀ n stop level,
  ordered n stop ns → n ≤ stop → (0 <= level)%Q →
  (inject_Z (Bucket.admitted (Bucket.answers rate burst n level ns)) <=
     level + rate * total_seconds (stop - n))%Q.
Proof.
  induction ns as [|n' ns IH]; intros n stop level Hord Hn Hl.
  { change (0 <= level + rate * total_seconds (stop - n))%Q.
    pose proof (seconds_nonneg (stop - n) ltac:(lia)). nra. }
  destruct Hord as (Hn' & Hstop & Hord). cbn.
  assert (0 <= total_seconds (n' - n))%Q as Hs by (apply seconds_nonneg; lia).
  pose proof (Qminb_spec burst (level + total_seconds (n' - n) * rate)) as (_ & Hle & Hor).
  pose proof (seconds_split n n' stop) as Hsplit. unfold Bucket.refilled.
  set (lv := Qminb burst (level + total_seconds (n' - n) * rate)) in *.
  assert (0 <= lv)%Q as Hpos by (destruct Hor as [-> | ->]; nra). clearbody lv. unfold Bucket.take.
  destruct (Qle_bool 1 lv) eqn:H1; qbool; rewrite admitted_cons.
  - specialize (IH n' stop (lv - 1)%Q Hord ltac:(lia) ltac:(lra)). rewrite inject_Z_plus, Hsplit.
    change (inject_Z 1) with 1%Q. lra.
  - specialize (IH n' stop lv Hord ltac:(lia) Hpos). rewrite Z.add_0_l, Hsplit. lra.
Qed.
End BucketFacts.

(** * The Redis buckets hold a level

    [tf] and [uf] are the fields of the tokens and of the last update. The key
    may expire, but only once the bucket would be full again. *)

Section Levels.
Context `{R : Redis} {HR : RedisOk R} (key tf uf : string) (Hfields : tf ≠ uf).
Context (rate burst : Q) (Hrate : (0 < rate)%Q) (Hburst : (0 <= burst)%Q).

Definition holds_level (s : server) (n : Z) (level : Q) : Prop :=
  (entry s (total_seconds n) key = None ∧ (level == burst)%Q) ∨
  ∃ h d q u, entry s (total_seconds n) key = Some (RHash h, Some d) ∧
    h !! tf = Some (RNum q) ∧ h !! uf = Some (RNum (total_seconds u)) ∧ u ≤ n ∧ (0 <= q <= burst)%Q ∧
    (burst <= q + (d - total_seconds u) * rate)%Q ∧ (level == Bucket.refilled rate burst q (n - u))%Q.

Lemma seconds_sub a b : (total_seconds (a - b) == total_seconds a - total_seconds b)%Q.
Proof. unfold total_seconds, Qeq. cbn. lia. Qed.

Lemma refilled_refilled q a b :
  0 ≤ a → 0 ≤ b → (0 <= q <= burst)%Q →
  (Bucket.refilled rate burst (Bucket.refilled rate burst q a) b == Bucket.refilled rate burst q (a + b))%Q.
Proof.
  intros Ha Hb Hq. unfold Bucket.refilled.
  pose proof (seconds_nonneg a Ha). pose proof (seconds_nonneg b Hb).
  assert (total_seconds (a + b) == total_seconds a + total_seconds b)%Q as Hab
    by (unfold total_seconds, Qeq; cbn; lia).
  assert (0 <= total_seconds a * rate)%Q by nra. assert (0 <= total_seconds b * rate)%Q by nra.
  rewrite (Qminb_eq _ (q + total_seconds (a + b) * rate) (q + total_seconds a * rate + total_seconds b * rate))
    by (rewrite Hab; ring).
  destruct (Qminb_cases burst (q + total_seconds a * rate)) as [[? ->]|[? ->]]; [done|].
  destruct (Qminb_cases burst (q + total_seconds a * rate + total_seconds b * rate)) as [[? ->]|[? ->]];
    destruct (Qminb_cases burst (burst + total_seconds b * rate)) as [[? ->]|[? ->]]; lra.
Qed.

(** Time passes; if the key expires meanwhile, the bucket was full. *)
Lemma holds_later s n n' level :
  holds_level s n level → n ≤ n' → holds_level s n' (Bucket.refilled rate burst level (n' - n)).
Proof.
  intros Hlv Hn. assert (total_seconds n <= total_seconds n')%Q as Ht by (unfold total_seconds, Qle; cbn; lia).
  pose proof (seconds_nonneg (n' - n) ltac:(lia)) as Hd0.
  destruct Hlv as [[He Hl]|(h & d & q & u & He & Hq & Hu & Hun & Hb & Hfull & Hl)].
  - left. split; [by eapply entry_absent|]. unfold Bucket.refilled, Qminb.
    destruct (Qltb _ _) eqn:Hlt; qbool; [nra|done].
  - assert (Bucket.refilled rate burst level (n' - n) == Bucket.refilled rate burst q (n' - u))%Q as Heq.
    { unfold Bucket.refilled at 1. rewrite (Qminb_eq _ _ (Bucket.refilled rate burst q (n - u) +
        total_seconds (n' - n) * rate)) by (rewrite Hl; done). fold (Bucket.refilled rate burst
        (Bucket.refilled rate burst q (n - u)) (n' - n)).
      rewrite refilled_refilled by (done || lia). by replace (n - u + (n' - n)) with (n' - u) by lia. }
    destruct (Qlt_le_dec (total_seconds n') d) as [Hlive|Hdead].
    + right. exists h, d, q, u. split_and!; try done; [by eapply entry_kept|lia|apply Hb|apply Hb].
    + left. split; [by eapply entry_gone|]. rewrite Heq. unfold Bucket.refilled, Qminb.
      pose proof (seconds_sub n' u). destruct (Qltb _ _) eqn:Hlt; qbool; [nra|done].
Qed.

#[export] Instance holds_level_proper s n : Proper (Qeq ==> iff) (holds_level s n).
Proof.
  intros l l' Hl. unfold holds_level. setoid_rewrite Hl. done.
Qed.

Lemma holds_range s n level : holds_level s n level → (0 <= level <= burst)%Q.
Proof.
  intros [[_ Hl]|(h & d & q & u & _ & _ & _ & Hun & Hb & _ & Hl)]; [lra|]. rewrite Hl.
  pose proof (seconds_nonneg (n - u) ltac:(lia)). unfold Bucket.refilled.
  destruct (Qminb_cases burst (q + total_seconds (n - u) * rate)) as [[? ->]|[? ->]]; nra.
Qed.

(** What a script reads: the tokens and the time, and from them the level. *)
Lemma holds_reads s n level : holds_level s n level →
  ∃ h, fields (entry s (total_seconds n) key) = Some h ∧
    ((h !! tf = None ∧ h !! uf = None ∧ (level == burst)%Q) ∨
     ∃ q u, h !! tf = Some (RNum q) ∧ h !! uf = Some (RNum u) ∧
       (Qminb burst (q + Qmaxb 0 (total_seconds n - u) * rate) == level)%Q).
Proof.
  intros [[He Hl]|(h & d & q & u & He & Hq & Hu & Hun & Hb & _ & Hl)].
  - exists ∅. rewrite He. split; [done|]. left. by rewrite !lookup_empty.
  - exists h. rewrite He. split; [done|]. right. exists q, (total_seconds u). split_and!; [done..|].
    rewrite Hl. apply Qminb_eq. pose proof (seconds_nonneg (n - u) ltac:(lia)) as Hp. rewrite seconds_sub in Hp.
    assert (Qmaxb 0 (total_seconds n - total_seconds u) == total_seconds (n - u))%Q as ->; [|done].
    rewrite seconds_sub. unfold Qmaxb. destruct (Qltb _ _) eqn:?; qbool; lra.
Qed.
Context (ttl : Z) (Httl : (0 < inject_Z ttl)%Q) (Hrefill : (burst <= inject_Z ttl * rate)%Q).

(** Both scripts end by writing the level and the time. *)
Lemma holds_written s n h level :
  fields (entry s (total_seconds n) key) = Some h → (0 <= level <= burst)%Q →
  holds_level (expire (total_seconds n) key (inject_Z ttl)
    (hset (total_seconds n) key [(tf, RNum level); (uf, RNum (total_seconds n))] s)) n level.
Proof.
  intros Hh Hl. right. exists (set_fields [(tf, RNum level); (uf, RNum (total_seconds n))] h),
    (total_seconds n + inject_Z ttl)%Q, level, n.
  split_and!; [by apply entry_hset_expire| | |lia|apply Hl|apply Hl|nra|].
  - cbn. rewrite lookup_insert_ne by done. apply lookup_insert_eq.
  - apply lookup_insert_eq.
  - unfold Bucket.refilled. replace (n - n) with 0 by lia. unfold Qminb.
    destruct (Qltb _ _) eqn:Hlt; qbool; change (total_seconds 0) with (0 # 1000000)%Q in *; lra.
Qed.
End Levels.

Lemma Qle_bool_proper a b b' : (b == b')%Q → Qle_bool a b = Qle_bool a b'.
Proof. intros Hb. apply eq_true_iff_eq. by rewrite !Qle_bool_iff, Hb. Qed.

Section ScriptFacts.
Context `{R : Redis} {HR : RedisOk R} (key : string).
Context (rate burst : Q) (Hrate : (0 < rate)%Q) (Hburst : (1 <= burst)%Q).
Context (ttl : Z) (Httl : (0 < inject_Z ttl)%Q) (Hrefill : (burst <= inject_Z ttl * rate)%Q).

#[local] Lemma burst_pos : (0 <= burst)%Q.
Proof. lra. Qed.

(** The refill both scripts compute. *)
Lemma full_refill n : (Qminb burst (burst + Qmaxb 0 (total_seconds n - total_seconds n) * rate) == burst)%Q.
Proof.
  unfold Qminb, Qmaxb. destruct (Qltb 0 _) eqn:?; qbool; [lra|].
  destruct (Qltb _ _) eqn:?; qbool; lra.
Qed.

Lemma script_takes s n level :
  holds_level key "tokens" "updated_at" rate burst s n level →
  let r := _TOKEN_BUCKET_SCRIPT key (total_seconds n) rate burst ttl (total_seconds n) s in
  negb (r.1.1 =? 0) = (Bucket.take level).1 ∧
  holds_level key "tokens" "updated_at" rate burst r.2 n (Bucket.take level).2.
Proof.
  intros Hl. pose proof (holds_range _ _ _ _ _ Hrate burst_pos _ _ _ Hl) as Hr.
  destruct (holds_reads _ _ _ _ _ _ _ _ Hl) as (h & Hh & Hcase).
  unfold _TOKEN_BUCKET_SCRIPT, hget, hgetall. rewrite Hh. cbn [default from_option id].
  assert (∃ tk, (tk == level)%Q ∧
    (let '(tokens, updated_at) := match tonumber (h !! "tokens"), tonumber (h !! "updated_at") with
       | Some tokens, Some updated_at => (tokens, updated_at) | _, _ => (burst, total_seconds n) end in
     Qminb burst (tokens + Qmaxb 0 (total_seconds n - updated_at) * rate)) = tk) as (tk & Htk & Heq).
  { destruct Hcase as [(-> & -> & Hb)|(q & u & -> & -> & Hb)]; eexists; (split; [|reflexivity]); cbn; [|done].
    by rewrite full_refill, Hb. }
  destruct (match tonumber (h !! "tokens") with Some _ => _ | None => _ end) as [tokens updated_at].
  rewrite Heq. unfold Bucket.take. rewrite (Qle_bool_proper 1 level tk) by done.
  destruct (Qle_bool 1 tk) eqn:H1; qbool; (split; [done|]); cbn [snd].
  - eapply holds_level_proper; [|eapply (holds_written key "tokens" "updated_at" ltac:(done) rate burst)]; try done; lra.
  - eapply holds_level_proper; [symmetry; exact Htk|].
    eapply (holds_written key "tokens" "updated_at" ltac:(done) rate burst); try done; lra.
Qed.

Lemma inbound_takes s n level :
  holds_level key "tokens" "ts" rate burst s n level →
  let r := _TOKEN_BUCKET key (total_seconds n) rate burst 1 ttl (total_seconds n) s in
  (∃ a q, r.1 = Ret (a, q) ∧ negb (a =? 0) = (Bucket.take level).1) ∧
  holds_level key "tokens" "ts" rate burst r.2 n (Bucket.take level).2.
Proof.
  intros Hl. pose proof (holds_range _ _ _ _ _ Hrate burst_pos _ _ _ Hl) as Hr.
  destruct (holds_reads _ _ _ _ _ _ _ _ Hl) as (h & Hh & Hcase).
  unfold _TOKEN_BUCKET, hget, hgetall. rewrite Hh. cbn [default from_option id].
  assert (∃ tokens ts, match tonumber (h !! "tokens"), tonumber (h !! "ts") with
       | None, _ => Some (burst, total_seconds n) | Some tokens, Some ts => Some (tokens, ts)
       | Some _, None => None end = Some (tokens, ts) ∧
     (Qminb burst (tokens + Qmaxb 0 (total_seconds n - ts) * rate) == level)%Q) as (tokens & ts & -> & Htk).
  { destruct Hcase as [(-> & -> & Hb)|(q & u & -> & -> & Hb)]; cbn; (do 2 eexists; split; [reflexivity|]); [|done].
    by rewrite full_refill, Hb. }
  unfold Bucket.take. rewrite (Qle_bool_proper 1 level _ (symmetry Htk)).
  destruct (Qle_bool 1 _) eqn:H1; qbool; cbn [fst snd]; (split; [by do 2 eexists|]).
  - eapply holds_level_proper; [|eapply (holds_written key "tokens" "ts" ltac:(done) rate burst)]; try done; lra.
  - eapply holds_level_proper; [symmetry; exact Htk|].
    eapply (holds_written key "tokens" "ts" ltac:(done) rate burst); try done; lra.
Qed.
End ScriptFacts.

(** * The limiters *)

Lemma bucket_ttl_positive config : (0 < inject_Z (bucket_ttl_seconds config))%Q.
Proof. change 0%Q with (inject_Z 0). rewrite <- Zlt_Qlt. unfold bucket_ttl_seconds. lia. Qed.

(** The key outlives a full refill. *)
Lemma refill_within_ttl config : limits_valid config →
  (inject_Z (rate_limit_burst config) <= inject_Z (bucket_ttl_seconds config) * rate_limit_per_second config)%Q.
Proof.
  intros (_ & _ & Hr & Hb). unfold bucket_ttl_seconds.
  set (r := rate_limit_per_second config) in *. set (b := inject_Z (rate_limit_burst config)).
  assert (b / r * r == b)%Q as Hx by (field; lra). set (x := (b / r)%Q) in *.
  pose proof (Qlt_floor (x * 4)) as Hf. rewrite inject_Z_plus in Hf. change (inject_Z 1) with 1%Q in Hf.
  assert (x <= inject_Z (Z.max 60 (Qfloor (x * 4))))%Q as Hle; [|rewrite <- Hx; nra].
  destruct (Z.max_spec 60 (Qfloor (x * 4))) as [[Hlt ->]|[Hle ->]].
  - assert (60 < inject_Z (Qfloor (x * 4)))%Q by (change 60%Q with (inject_Z 60); by rewrite <- Zlt_Qlt). lra.
  - assert (inject_Z (Qfloor (x * 4)) <= 60)%Q by (change 60%Q with (inject_Z 60); by rewrite <- Zle_Qle).
    change (inject_Z 60) with 60%Q. lra.
Qed.

(** A limiter whose every call takes from the bucket gives the bucket's answers. *)
Section Run.
Context `{R : Redis} {HR : RedisOk R} (key tf uf : string) (rate burst : Q).
Context (Hrate : (0 < rate)%Q) (Hburst : (0 <= burst)%Q).
Context (call : M exn redis_client bool).

Definition at_level (c : redis_client) (n : Z) (level : Q) : Prop :=
  rc_up c = true ∧ rc_now c = total_seconds n ∧ holds_level key tf uf rate burst (rc_server c) n level.

Context (Hcall : ∀ c n level, at_level c n level →
  ∃ c', call c = (Ret (Bucket.take level).1, c') ∧ at_level c' n (Bucket.take level).2).

Lemma at_level_later c n n' level :
  at_level c n level → n ≤ n' →
  at_level (at_time (total_seconds n') c) n' (Bucket.refilled rate burst level (n' - n)).
Proof. intros (Hup & Hnow & Hl) Hn. split_and!; [done|done|]. by apply (holds_later _ _ _ _ _ Hrate). Qed.

Lemma limiter_run ns : ∀ c n stop level,
  at_level c n level → ordered n stop ns →
  ∃ c', at_times call ns c = (Ret (Bucket.answers rate burst n level ns), c').
Proof.
  induction ns as [|n' ns IH]; intros c n stop level Hl Hord; [by exists c|].
  destruct Hord as (Hn' & Hstop & Hord). cbn [at_times Bucket.answers].
  destruct (Hcall _ _ _ (at_level_later _ _ _ _ Hl Hn')) as (c1 & Hc1 & Hl1).
  destruct (IH c1 n' stop _ Hl1 Hord) as (c2 & Hc2). exists c2.
  unfold bind, modifyS. rewrite Hc1, Hc2. by destruct (Bucket.take _).
Qed.
End Run.

Section Clients.
Context `{R : Redis} {HR : RedisOk R} (namespace : string).

Section Provider.
Context (provider_settings : gmap string ProviderLimits) (provider : string) (config : ProviderLimits).
Context (Hconfig : provider_settings !! provider = Some config) (Hvalid : limits_valid config).
#[local] Abbreviation key := (Keys.rate_limit namespace provider).
#[local] Abbreviation rate := (rate_limit_per_second config).
#[local] Abbreviation burst := (inject_Z (rate_limit_burst config)).
#[local] Abbreviation acquire := (RedisRateLimiter.acquire namespace provider_settings provider).
#[local] Abbreviation retry_after := (RedisRateLimiter.retry_after namespace provider_settings provider).

Lemma burst_ge_one : (1 <= burst)%Q.
Proof. change 1%Q with (inject_Z 1). rewrite <- Zle_Qle. apply Hvalid. Qed.

Lemma acquire_takes c n level :
  at_level key "tokens" "updated_at" rate burst c n level →
  ∃ c', acquire c = (Ret (Bucket.take level).1, c') ∧
        at_level key "tokens" "updated_at" rate burst c' n (Bucket.take level).2.
Proof.
  intros (Hup & Hnow & Hl). pose proof Hvalid as (_ & _ & Hr & _).
  destruct (script_takes key rate burst Hr burst_ge_one (bucket_ttl_seconds config) (bucket_ttl_positive config)
    (refill_within_ttl config Hvalid) _ _ _ Hl) as [Hb Hs].
  unfold RedisRateLimiter.acquire, or_on_outage, try_except, bind, gets, command, ret.
  rewrite Hconfig, Hup, Hnow. destruct (_TOKEN_BUCKET_SCRIPT _ _ _ _ _ _ _) as [reply s']. rewrite <- Hb.
  eexists. split; [reflexivity|]. by split_and!.
Qed.

(** The wait a refused caller is told is the time to the next token. *)
Lemma retry_after_waits c n level :
  at_level key "tokens" "updated_at" rate burst c n level → (level < 1)%Q →
  ∃ w, retry_after c = (Ret w, c) ∧ (w * rate == 1 - level)%Q.
Proof.
  intros (Hup & Hnow & Hl) Hlt. pose proof Hvalid as (_ & _ & Hr & _). pose proof burst_ge_one as Hb1.
  destruct (holds_reads _ _ _ _ _ _ _ _ Hl) as (h & Hh & Hcase).
  destruct Hcase as [(_ & _ & Hb)|(q & u & Hq & Hu & Hb)]; [lra|].
  eexists. unfold RedisRateLimiter.retry_after, or_on_outage, try_except, bind, gets, command, ret.
  rewrite Hconfig, Hup, Hnow. unfold hget, hgetall. rewrite Hh. cbn. rewrite Hq, Hu. cbn. rewrite Hnow.
  destruct (Qle_bool 1 _) eqn:H1; qbool; [lra|]. split; [destruct c; cbn in *; by subst|].
  rewrite Hb. field. lra.
Qed.
End Provider.

Section Inbound.
Context (scope : string) (l : InboundRateLimiter.InboundLimit).
Context (Hrate : (0 < InboundRateLimiter.rate_per_second l)%Q) (Hburst : 1 ≤ InboundRateLimiter.burst l).
Context (Hrefill : (inject_Z (InboundRateLimiter.burst l) <= 120 * InboundRateLimiter.rate_per_second l)%Q).
#[local] Abbreviation key := (Keys.build namespace ["inbound-rl"; InboundRateLimiter.name l; scope]).

Lemma allow_takes c n level :
  at_level key "tokens" "ts" (InboundRateLimiter.rate_per_second l) (inject_Z (InboundRateLimiter.burst l)) c n level →
  ∃ c', InboundRateLimiter.allow namespace scope l c = (Ret (Bucket.take level).1, c') ∧
    at_level key "tokens" "ts" (InboundRateLimiter.rate_per_second l) (inject_Z (InboundRateLimiter.burst l))
      c' n (Bucket.take level).2.
Proof.
  intros (Hup & Hnow & Hl).
  assert (1 <= inject_Z (InboundRateLimiter.burst l))%Q as Hb by (change 1%Q with (inject_Z 1); by rewrite <- Zle_Qle).
  destruct (inbound_takes key _ _ Hrate Hb 120 ltac:(done) Hrefill _ _ _ Hl) as [(a & q & Hret & Ha) Hs].
  unfold InboundRateLimiter.allow, or_on_outage, try_except, bind, gets, command, lift, ret.
  rewrite Hup, Hnow. destruct (_TOKEN_BUCKET _ _ _ _ _ _ _ _) as [reply s']. cbn in Hret. rewrite Hret, <- Ha.
  eexists. split; [reflexivity|]. by split_and!.
Qed.
End Inbound.
End Clients.

Module LimiterTheorems.
Section Theorems.
Context `{R : Redis} {HR : RedisOk R} (namespace : string).
Context (provider_settings : gmap string ProviderLimits) (provider : string) (config : ProviderLimits).

(** C35. A provider's rate limit is kept. Whatever the bucket holds, calls to
    [acquire] at any times from [n] to [stop] get exactly the answers of a token
    bucket that is never forgotten, although the Redis key expires, and at most
    [burst + rate * elapsed] of them are admitted. *)
Theorem rate_limit_kept (c : redis_client) (n stop : Z) (level : Q) (ns : list Z) :
  provider_settings !! provider = Some config → limits_valid config →
  at_level (Keys.rate_limit namespace provider) "tokens" "updated_at" (rate_limit_per_second config)
    (inject_Z (rate_limit_burst config)) c n level →
  ordered n stop ns → n ≤ stop →
  ∃ l c', at_times (RedisRateLimiter.acquire namespace provider_settings provider) ns c = (Ret l, c') ∧
    l = Bucket.answers (rate_limit_per_second config) (inject_Z (rate_limit_burst config)) n level ns ∧
    (inject_Z (Bucket.admitted l) <= inject_Z (rate_limit_burst config) +
       rate_limit_per_second config * total_seconds (stop - n))%Q.
Proof.
  intros Hc Hv Hl Hord Hn. pose proof Hv as (_ & _ & Hr & _).
  assert (0 <= inject_Z (rate_limit_burst config))%Q as Hb by (pose proof (burst_ge_one config Hv); lra).
  destruct (limiter_run _ _ _ _ _ Hr _ (acquire_takes namespace _ _ _ Hc Hv) ns c n stop level Hl Hord) as [c' Hrun].
  eexists _, c'. split; [exact Hrun|]. split; [done|].
  pose proof (holds_range _ _ _ _ _ Hr Hb _ _ _ (proj2 (proj2 Hl))) as [Hlo Hhi].
  pose proof (admitted_bound _ (inject_Z (rate_limit_burst config)) Hr Hb ns n stop level Hord Hn Hlo). lra.
Qed.

(** A refused caller is told the right wait. When [acquire] refuses,
    [retry_after] gives a positive time; a call made when that time has passed is
    admitted if nobody took the token first, and one made any earlier is refused. *)
Theorem retry_after_is_exact (c c1 : redis_client) (n : Z) (level : Q) :
  provider_settings !! provider = Some config → limits_valid config →
  at_level (Keys.rate_limit namespace provider) "tokens" "updated_at" (rate_limit_per_second config)
    (inject_Z (rate_limit_burst config)) c n level →
  RedisRateLimiter.acquire namespace provider_settings provider c = (Ret false, c1) →
  ∃ w, RedisRateLimiter.retry_after namespace provider_settings provider c1 = (Ret w, c1) ∧ (0 < w)%Q ∧
    ∀ n', n ≤ n' →
      ∃ c2, RedisRateLimiter.acquire namespace provider_settings provider (at_time (total_seconds n') c1) =
              (Ret (Qle_bool w (total_seconds (n' - n))), c2).
Proof.
  intros Hc Hv Hl Hacq. pose proof Hv as (_ & _ & Hr & _).
  destruct (acquire_takes namespace _ _ _ Hc Hv _ _ _ Hl) as (c1' & Hacq' & Hl1).
  rewrite Hacq in Hacq'. injection Hacq' as Hb <-. unfold Bucket.take in Hb, Hl1.
  destruct (Qle_bool 1 level) eqn:H1; [done|]. qbool. cbn in Hl1.
  destruct (retry_after_waits namespace _ _ _ Hc Hv _ _ _ Hl1 H1) as (w & Hw & Hwr).
  exists w. split_and!; [done|nra|]. intros n' Hn'.
  destruct (acquire_takes namespace _ _ _ Hc Hv _ _ _
    (at_level_later _ _ _ _ _ Hr _ _ n' _ Hl1 Hn')) as (c2 & Hc2 & _).
  exists c2. rewrite Hc2. do 2 f_equal. unfold Bucket.take, Bucket.refilled.
  pose proof (burst_ge_one config Hv) as Hb1. apply eq_true_iff_eq.
  rewrite (Qle_bool_iff w). transitivity (1 <= level + total_seconds (n' - n) * rate_limit_per_second config)%Q.
  - destruct (Qminb_cases (inject_Z (rate_limit_burst config))
      (level + total_seconds (n' - n) * rate_limit_per_second config)) as [[? ->]|[? ->]];
      destruct (Qle_bool 1 _) eqn:?; qbool; cbn; (split; intros; (done || lra)).
  - split; intros Hx; [destruct (Qlt_le_dec (total_seconds (n' - n)) w); [nra|done]|nra].
Qed.

(** The inbound quota cannot be bypassed by an outage. With Redis up, the API
    admits at most [burst + rate * elapsed] calls of a scope; with Redis down it
    admits none of a limit that fails closed (mutations and webhooks) and all of
    one that does not (reads). *)
Theorem inbound_limit_kept (c : redis_client) (scope : string) (l : InboundRateLimiter.InboundLimit)
    (n stop : Z) (level : Q) (ns : list Z) :
  l ∈ [InboundRateLimiter.MUTATION_LIMIT; InboundRateLimiter.WEBHOOK_LIMIT; InboundRateLimiter.READ_LIMIT] →
  at_level (Keys.build namespace ["inbound-rl"; InboundRateLimiter.name l; scope]) "tokens" "ts"
    (InboundRateLimiter.rate_per_second l) (inject_Z (InboundRateLimiter.burst l)) c n level →
  ordered n stop ns → n ≤ stop →
  (∃ answers c', at_times (InboundRateLimiter.allow namespace scope l) ns c = (Ret answers, c') ∧
    (inject_Z (Bucket.admitted answers) <= inject_Z (InboundRateLimiter.burst l) +
       InboundRateLimiter.rate_per_second l * total_seconds (stop - n))%Q) ∧
  InboundRateLimiter.allow namespace scope l (c <| rc_up := false |>) =
    (Ret (negb (InboundRateLimiter.fail_closed l)), c <| rc_up := false |>).
Proof.
  intros Hin Hl Hord Hn. split; [|done].
  assert ((0 < InboundRateLimiter.rate_per_second l)%Q ∧ 1 ≤ InboundRateLimiter.burst l ∧
    (inject_Z (InboundRateLimiter.burst l) <= 120 * InboundRateLimiter.rate_per_second l)%Q) as (Hr & Hb & Hf).
  { rewrite !elem_of_cons in Hin. destruct Hin as [->|[->|[->|Hin%not_elem_of_nil]]]; [..|done];
      unfold Qlt, Qle; cbn; lia. }
  destruct (limiter_run _ _ _ _ _ Hr _ (allow_takes namespace scope l Hr Hb Hf) ns c n stop level Hl Hord) as [c' Hrun].
  eexists _, c'. split; [exact Hrun|].
  assert (0 <= inject_Z (InboundRateLimiter.burst l))%Q as Hb0 by (change 0%Q with (inject_Z 0); rewrite <- Zle_Qle; lia).
  pose proof (holds_range _ _ _ _ _ Hr Hb0 _ _ _ (proj2 (proj2 Hl))) as [Hlo Hhi].
  pose proof (admitted_bound _ (inject_Z (InboundRateLimiter.burst l)) Hr Hb0 ns n stop level Hord Hn Hlo). lra.
Qed.
End Theorems.

(** Two calls a second, three at once, on an in-memory server. *)
#[local] Existing Instance MemoryRedis.memory_ok.
Definition sample_limits : ProviderLimits := mk_limits 10 2 2 3.
Definition sample_settings : gmap string ProviderLimits := {[ "cobalt" := sample_limits ]}.
Lemma sample_limits_valid : limits_valid sample_limits.
Proof. unfold limits_valid. cbn. split_and!; (lia || lra). Qed.
Definition empty_client : @redis_client MemoryRedis.memory := @mk_client MemoryRedis.memory ∅ (total_seconds 0) true.
Lemma empty_at_level key tf uf rate burst : at_level key tf uf rate burst empty_client 0 burst.
Proof. split_and!; [done|done|]. left. done. Qed.

Lemma rate_limit_kept_witness :
  ∃ l c', at_times (RedisRateLimiter.acquire "io" sample_settings "cobalt") [1; 2; 3; 4; 700000] empty_client =
            (Ret l, c') ∧
    l = [true; true; true; false; true] ∧ (inject_Z (Bucket.admitted l) <= 3 + 2 * total_seconds (1000000 - 0))%Q.
Proof.
  apply (rate_limit_kept "io" sample_settings "cobalt" sample_limits empty_client 0 1000000 3 [1; 2; 3; 4; 700000]).
  - reflexivity.
  - apply sample_limits_valid.
  - apply empty_at_level.
  - repeat split; vm_compute; congruence.
  - vm_compute. congruence.
Defined.

Definition drained_client : @redis_client MemoryRedis.memory :=
  at_time (total_seconds 0) (at_times (RedisRateLimiter.acquire "io" sample_settings "cobalt") [0; 0; 0] empty_client).2.
Lemma drained_at_level :
  at_level (Keys.rate_limit "io" "cobalt") "tokens" "updated_at" 2 3 drained_client 0 0.
Proof.
  split_and!; [reflexivity|reflexivity|]. right.
  eexists _, _, _, 0. split; [vm_compute; reflexivity|]. split_and!; try reflexivity; vm_compute; congruence.
Qed.

Lemma retry_after_is_exact_witness :
  ∃ w, RedisRateLimiter.retry_after "io" sample_settings "cobalt"
         (RedisRateLimiter.acquire "io" sample_settings "cobalt" drained_client).2 =
         (Ret w, (RedisRateLimiter.acquire "io" sample_settings "cobalt" drained_client).2) ∧ (0 < w)%Q ∧
    ∀ n', 0 ≤ n' →
      ∃ c2, RedisRateLimiter.acquire "io" sample_settings "cobalt"
              (at_time (total_seconds n') (RedisRateLimiter.acquire "io" sample_settings "cobalt" drained_client).2) =
              (Ret (Qle_bool w (total_seconds (n' - 0))), c2).
Proof.
  apply (retry_after_is_exact "io" sample_settings "cobalt" sample_limits drained_client _ 0 0).
  - reflexivity.
  - apply sample_limits_valid.
  - apply drained_at_level.
  - apply injective_projections; [vm_compute|]; reflexivity.
Defined.

Lemma inbound_limit_kept_witness :
  (∃ answers c', at_times (InboundRateLimiter.allow "io" "tenant" InboundRateLimiter.MUTATION_LIMIT) [1; 2] empty_client =
      (Ret answers, c') ∧
    (inject_Z (Bucket.admitted answers) <= 40 + 20 * total_seconds (1000000 - 0))%Q) ∧
  InboundRateLimiter.allow "io" "tenant" InboundRateLimiter.MUTATION_LIMIT (empty_client <| rc_up := false |>) =
    (Ret false, empty_client <| rc_up := false |>).
Proof.
  apply (inbound_limit_kept "io" empty_client "tenant" InboundRateLimiter.MUTATION_LIMIT 0 1000000 40 [1; 2]).
  - left.
  - apply empty_at_level.
  - repeat split; vm_compute; congruence.
  - vm_compute. congruence.
Defined.
End LimiterTheorems.
