(* ===== verification/Coordination.v ===== *)
(** Coordination between processes and tasks: the Redis lock
    ([infrastructure/redis/locks.py]), the replay guard of webhook signatures
    ([infrastructure/redis/webhook_replay.py]) and the per-provider bulkhead
    ([infrastructure/resilience/bulkhead.py]). *)

From S2P Require Import Prelude PyData PyTime Errors Sha256 ValueObjects Policies Redis RateLimiter.

(** * The lock *)

Definition _ACQUIRE_POLL_SECONDS : Q := 1 # 20.

Module RedisLock.
Section Lock.
Context `{Redis}.
(** [asyncio.sleep]: time passes and other tasks run. *)
Context (sleep : Q → M exn redis_client unit).
Context (key : string) (ttl_seconds wait_seconds : Q) (fail_closed : bool) (token : string).

Definition _ttl_ms : Z := Qfloor (ttl_seconds * 1000).

Definition _RELEASE_SCRIPT (t : Q) (s : server) : Z * server :=
  match entry s t key with
  | Some (RText v, _) => if bool_decide (v = token) then (1, del t key s) else (0, s)
  | _ => (0, s)
  end.

(** One [SET key token NX PX ttl]; [None] when Redis cannot be reached and the
    lock fails open. *)
Definition attempt : M exn redis_client (option bool) :=
  try_except (let* b := command (λ t s, set_nx_px t key token _ttl_ms s) in ret (Some b))
    (λ e, if is_redis_error e then Some (if fail_closed then raise e else ret None) else None).

(** The poll loop; [None] when the fuel ran out. *)
Fixpoint acquire_loop (fuel : nat) (deadline : Q) : M exn redis_client (option bool) :=
  match fuel with
  | O => ret None
  | S fuel' =>
      let* acquired := attempt in
      match acquired with
      | None => ret (Some false)
      | Some true => ret (Some true)
      | Some false =>
          let* now := gets rc_now in
          if Qle_bool deadline now then ret (Some false)
          else sleep _ACQUIRE_POLL_SECONDS ;;; acquire_loop fuel' deadline
      end
  end.
Definition _acquire (fuel : nat) : M exn redis_client (option bool) :=
  let* now := gets rc_now in acquire_loop fuel (now + wait_seconds).

Definition _release : M exn redis_client unit :=
  or_on_outage (let* _ := command _RELEASE_SCRIPT in ret tt) tt.
(** [__aexit__] *)
Definition aexit (held : bool) : M exn redis_client unit := if held then _release else ret tt.

(** Polls until the deadline, and one more. *)
Definition enough_polls : nat := S (S (Z.to_nat (Qceiling (wait_seconds / _ACQUIRE_POLL_SECONDS)))).
End Lock.

(** What other processes do with the lock. *)
Inductive op := Try (token : string) | Release (token : string).
Definition op_token (o : op) : string := match o with Try tk => tk | Release tk => tk end.
Section Others.
Context `{Redis} (key : string) (ttl_seconds : Q).
(** Whether the operation got the lock. *)
Definition run_op (o : op) : M exn redis_client bool :=
  match o with
  | Try tk => let* b := attempt key ttl_seconds true tk in ret (default false b)
  | Release tk => _release key tk ;;; ret false
  end.
Fixpoint run_ops (l : list (Z * op)) : M exn redis_client (list bool) :=
  match l with
  | [] => ret []
  | (n, o) :: l' =>
      modifyS (at_time (total_seconds n)) ;;;
      let* b := run_op o in
      let* bs := run_ops l' in
      ret (b :: bs)
  end.
End Others.
End RedisLock.

(** * The replay guard *)

(** [hashlib.sha256(signature.encode("utf-8")).hexdigest()[:32]] *)
Definition signature_replay_digest (signature : string) : string :=
  Str.take 32 (sha256_hexdigest (utf8 signature)).

Module RedisWebhookReplayGuard.
Section Guard.
Context `{Redis} (namespace : string) (ttl_seconds : Z).
Definition claim (provider signature : string) : M exn redis_client bool :=
  let digest := signature_replay_digest signature in
  let key := Keys.webhook_replay namespace provider digest in
  or_on_outage (command (λ t s, set_nx_px t key "1" (ttl_seconds * 1000) s)) true.
End Guard.
End RedisWebhookReplayGuard.

(** * The bulkhead

    Per provider: the semaphore's counter, the acquisitions granted to a task
    that has not resumed yet, and [_in_flight]. Tasks interleave at every
    [await], so a process is a step relation on these. *)

Module ProviderBulkhead.
Record slots := mk_slots {
  semaphore : Z;
  granted : Z;
  in_flight : Z;
}.
#[export] Instance eta_slots : Eta slots := λ s, mk_slots (semaphore s) (granted s) (in_flight s).

Definition init (provider_settings : gmap string ProviderLimits) : gmap string slots :=
  (λ config, mk_slots (max_concurrency config) 0 0) <$> provider_settings.

(** [semaphore.acquire()] decrements the counter when it is positive. *)
Definition grant (s : slots) : option slots :=
  if 0 <? semaphore s then Some (s <| semaphore ::= (λ v, v - 1) |> <| granted ::= (λ v, v + 1) |>) else None.
(** The task resumes: [self._in_flight[provider] += 1]. *)
Definition enter (s : slots) : option slots :=
  if 0 <? granted s then Some (s <| granted ::= (λ v, v - 1) |> <| in_flight ::= (λ v, v + 1) |>) else None.
(** The wait is cancelled after the grant; the counter is given back. *)
Definition abandon (s : slots) : option slots :=
  if 0 <? granted s then Some (s <| granted ::= (λ v, v - 1) |> <| semaphore ::= (λ v, v + 1) |>) else None.
(** The [finally] of [slot]. *)
Definition leave (s : slots) : option slots :=
  if 0 <? in_flight s then Some (s <| in_flight ::= (λ v, v - 1) |> <| semaphore ::= (λ v, v + 1) |>) else None.

(** A step of one task at one provider. *)
Inductive step (b : gmap string slots) : gmap string slots → Prop :=
  | step_slots provider s s' f :
      f ∈ [grant; enter; abandon; leave] → b !! provider = Some s → f s = Some s' →
      step b (<[provider := s']> b).

(** A slot that is not granted in time. *)
Definition rejected (provider : string) (config : ProviderLimits) : exn :=
  BulkheadRejectedError provider (max_concurrency config) None.

Section Queries.
Context (provider_settings : gmap string ProviderLimits).
Definition in_flight_of (b : gmap string slots) (provider : string) : Z := default 0 (in_flight <$> b !! provider).
Definition capacity (provider : string) : Z := default 0 (max_concurrency <$> provider_settings !! provider).
Definition available (b : gmap string slots) (provider : string) : Z :=
  Z.max 0 (capacity provider - in_flight_of b provider).
End Queries.

(** Every slot is free, granted or in use. *)
Definition accounted (provider_settings : gmap string ProviderLimits) (b : gmap string slots) : Prop :=
  ∀ provider, match b !! provider, provider_settings !! provider with
              | Some s, Some config =>
                  0 ≤ semaphore s ∧ 0 ≤ granted s ∧ 0 ≤ in_flight s ∧
                  semaphore s + granted s + in_flight s = max_concurrency config
              | None, None => True
              | _, _ => False
              end.

Lemma step_accounted provider_settings b b' :
  accounted provider_settings b → step b b' → accounted provider_settings b'.
Proof.
  intros Hb [p s s' f Hf Hs Hf']. intros q. pose proof (Hb p) as Hp. rewrite Hs in Hp.
  destruct (decide (q = p)) as [->|Hne]; [|rewrite lookup_insert_ne by done; apply Hb].
  rewrite lookup_insert_eq. destruct (provider_settings !! p) as [config|]; [|done].
  rewrite !elem_of_cons in Hf. destruct Hf as [->|[->|[->|[->|Hf%not_elem_of_nil]]]]; [..|done];
    unfold grant, enter, abandon, leave in Hf';
    (destruct (0 <? _) eqn:Hlt; [|done]); apply Z.ltb_lt in Hlt; injection Hf' as <-; cbn; lia.
Qed.
End ProviderBulkhead.

(** * Facts about the lock *)

Lemma seconds_le a b : a ≤ b → (total_seconds a <= total_seconds b)%Q.
Proof. intros Hab. unfold total_seconds, Qle. cbn. lia. Qed.
Lemma seconds_lt a b : a < b → (total_seconds a < total_seconds b)%Q.
Proof. intros Hab. unfold total_seconds, Qlt. cbn. lia. Qed.

Section LockFacts.
Context `{R : Redis} {HR : RedisOk R} (key : string) (ttl_seconds : Q).
Context (Hms : 0 < RedisLock._ttl_ms ttl_seconds).
#[local] Abbreviation ttl := (RedisLock._ttl_ms ttl_seconds # 1000).

(** The lock is held with [token] until [d]. *)
Definition held (c : redis_client) (token : string) (d : Q) : Prop :=
  entry (rc_server c) (rc_now c) key = Some (RText token, Some d).

Lemma attempt_free fc token c :
  rc_up c = true → entry (rc_server c) (rc_now c) key = None →
  ∃ c', RedisLock.attempt key ttl_seconds fc token c = (Ret (Some true), c') ∧
    rc_now c' = rc_now c ∧ rc_up c' = true ∧ held c' token (rc_now c + ttl).
Proof.
  intros Hup He. destruct (entry_set_free _ _ _ token _ Hms He) as [Hb Hs].
  unfold RedisLock.attempt, try_except, bind, command, ret. rewrite Hup.
  destruct (set_nx_px _ _ _ _ _) as [b s']. cbn in Hb, Hs. subst b.
  eexists. split; [reflexivity|]. by split_and!.
Qed.
Lemma attempt_taken fc token c e :
  rc_up c = true → entry (rc_server c) (rc_now c) key = Some e →
  RedisLock.attempt key ttl_seconds fc token c = (Ret (Some false), c).
Proof.
  intros Hup He. pose proof (entry_set_taken _ _ _ token (RedisLock._ttl_ms ttl_seconds) _ He) as Hs.
  unfold RedisLock.attempt, try_except, bind, command, ret. rewrite Hup, Hs. by destruct c.
Qed.
Lemma attempt_down fc token c : rc_up c = false →
  RedisLock.attempt key ttl_seconds fc token c = (if fc then Raise RedisError else Ret None, c).
Proof. intros Hup. unfold RedisLock.attempt, try_except, bind, command. rewrite Hup. by destruct fc. Qed.

Lemma release_foreign token holder d c :
  rc_up c = true → held c holder d → token ≠ holder → RedisLock._release key token c = (Ret tt, c).
Proof.
  intros Hup He Hne. unfold RedisLock._release, or_on_outage, try_except, bind, command, ret, RedisLock._RELEASE_SCRIPT.
  rewrite Hup, He, bool_decide_false by congruence. by destruct c.
Qed.
Lemma release_own token d c :
  rc_up c = true → held c token d →
  ∃ c', RedisLock._release key token c = (Ret tt, c') ∧ rc_now c' = rc_now c ∧ rc_up c' = true ∧
        entry (rc_server c') (rc_now c') key = None.
Proof.
  intros Hup He. unfold RedisLock._release, or_on_outage, try_except, bind, command, ret, RedisLock._RELEASE_SCRIPT.
  rewrite Hup, He, bool_decide_true by done. eexists. split; [reflexivity|]. split_and!; [done|done|]. apply entry_del.
Qed.

(** Nobody else gets in, and nobody else can release it. *)
Lemma others_shut_out holder d stop l : ∀ c n,
  rc_up c = true → rc_now c = total_seconds n → held c holder d → (total_seconds stop <= d)%Q →
  Forall (λ o, RedisLock.op_token o ≠ holder) l.*2 → ordered n stop l.*1 → n < stop →
  ∃ c' m, RedisLock.run_ops key ttl_seconds l c = (Ret (replicate (length l) false), c') ∧
    rc_up c' = true ∧ rc_now c' = total_seconds m ∧ n ≤ m < stop ∧ held c' holder d.
Proof.
  induction l as [|[n' o] l IH]; intros c n Hup Hnow He Hd Hall Hord Hn; [exists c, n; by split_and!|].
  destruct Hord as (Hn' & Hstop & Hord). apply Forall_cons in Hall as [Hne Hall]. cbn in Hne, Hn', Hstop.
  set (c1 := at_time (total_seconds n') c).
  assert (held c1 holder d) as He1.
  { unfold held, c1. cbn. eapply entry_kept; [unfold held in He; rewrite Hnow in He; exact He|by apply seconds_le|].
    apply seconds_lt in Hstop. lra. }
  assert (RedisLock.run_op key ttl_seconds o c1 = (Ret false, c1)) as Hop.
  { destruct o as [tk|tk]; cbn; unfold bind.
    - by erewrite attempt_taken.
    - by erewrite release_foreign. }
  destruct (IH c1 n' Hup eq_refl He1 Hd Hall Hord Hstop) as (c' & m & Hrun & Hup' & Hnow' & Hm & He').
  exists c', m. split_and!; [|done|done|lia|lia|done]. cbn [RedisLock.run_ops]. unfold bind, modifyS.
  change (at_time (total_seconds n') c) with c1. by rewrite Hop, Hrun.
Qed.
End LockFacts.

(** The poll loop ends: every round that does not decide moves the clock. *)
Section Polling.
Context `{R : Redis} {HR : RedisOk R} (sleep : Q → M exn redis_client unit).
Context (Hsleep : ∀ d c, (0 < d)%Q → ∃ c', sleep d c = (Ret tt, c') ∧ (rc_now c + d <= rc_now c')%Q).
Context (key : string) (ttl_seconds : Q) (fail_closed : bool) (token : string).
Context (Hms : 0 < RedisLock._ttl_ms ttl_seconds).

(** What the loop may answer. *)
Definition decided (deadline : Q) (o : outcome exn (option bool)) (c : redis_client) : Prop :=
  match o with
  | Ret (Some true) => held key c token (rc_now c + (RedisLock._ttl_ms ttl_seconds # 1000))
  | Ret (Some false) => rc_up c = true ∧ (deadline <= rc_now c)%Q ∨ rc_up c = false ∧ fail_closed = false
  | Ret None => False
  | Raise e => e = RedisError ∧ rc_up c = false ∧ fail_closed = true
  end.

Lemma loop_decides deadline fuel : ∀ c,
  (deadline <= rc_now c + inject_Z (Z.of_nat fuel) * _ACQUIRE_POLL_SECONDS)%Q →
  ∃ o c', RedisLock.acquire_loop sleep key ttl_seconds fail_closed token (S fuel) deadline c = (o, c') ∧
          decided deadline o c'.
Proof.
  induction fuel as [|fuel IH]; intros c Hd; cbn [RedisLock.acquire_loop]; unfold bind, gets.
  all: destruct (rc_up c) eqn:Hup;
    [|rewrite attempt_down by done; destruct fail_closed eqn:Hfc; (do 2 eexists; split; [reflexivity|]); cbn; auto].
  all: destruct (entry (rc_server c) (rc_now c) key) as [e|] eqn:He;
    [|destruct (attempt_free key ttl_seconds Hms fail_closed token c Hup He) as (c' & -> & Hnow & _ & Hh);
      do 2 eexists; (split; [reflexivity|]); cbn; by rewrite Hnow].
  all: erewrite attempt_taken by done; destruct (Qle_bool deadline (rc_now c)) eqn:Hq;
    [apply Qle_bool_iff in Hq; do 2 eexists; (split; [reflexivity|]); by left|].
  - exfalso. assert (¬ (deadline <= rc_now c)%Q) as Hn by (rewrite <- Qle_bool_iff; congruence).
    apply Hn. change (inject_Z (Z.of_nat 0)) with 0%Q in Hd. lra.
  - destruct (Hsleep _ACQUIRE_POLL_SECONDS c ltac:(done)) as (c1 & -> & Hc1). apply IH.
    rewrite Nat2Z.inj_succ, <- Z.add_1_l, inject_Z_plus in Hd. change (inject_Z 1) with 1%Q in Hd. lra.
Qed.
End Polling.

Module CoordinationTheorems.
Section Lock.
Context `{R : Redis} {HR : RedisOk R} (key : string) (ttl_seconds : Q).

(** C36. The lock excludes. Once an attempt with a token succeeds, every attempt of
    another token fails and no release by another token frees it, in any order
    and at any times, until the lease ends; the holder can then release it, and
    the next attempt succeeds. *)
Theorem lock_excludes (c : redis_client) (holder : string) (n stop : Z) (l : list (Z * RedisLock.op)) :
  0 < RedisLock._ttl_ms ttl_seconds →
  rc_up c = true → rc_now c = total_seconds n → entry (rc_server c) (rc_now c) key = None →
  n < stop → (total_seconds stop <= total_seconds n + (RedisLock._ttl_ms ttl_seconds # 1000))%Q →
  Forall (λ o, RedisLock.op_token o ≠ holder) l.*2 → ordered n stop l.*1 →
  ∃ c1 c2 c3,
    RedisLock.attempt key ttl_seconds true holder c = (Ret (Some true), c1) ∧
    RedisLock.run_ops key ttl_seconds l c1 = (Ret (replicate (length l) false), c2) ∧
    RedisLock._release key holder c2 = (Ret tt, c3) ∧
    ∀ other, ∃ c4, RedisLock.attempt key ttl_seconds true other c3 = (Ret (Some true), c4).
Proof.
  intros Hms Hup Hnow He Hn Hstop Hall Hord.
  destruct (attempt_free key ttl_seconds Hms true holder c Hup He) as (c1 & H1 & Hnow1 & Hup1 & Hh1).
  rewrite Hnow in Hnow1, Hh1.
  destruct (others_shut_out key ttl_seconds holder _ stop l c1 n Hup1 Hnow1 Hh1 Hstop Hall Hord Hn)
    as (c2 & m & H2 & Hup2 & Hnow2 & _ & Hh2).
  destruct (release_own key holder _ c2 Hup2 Hh2) as (c3 & H3 & Hnow3 & Hup3 & He3).
  exists c1, c2, c3. split_and!; [done..|]. intros other.
  destruct (attempt_free key ttl_seconds Hms true other c3 Hup3 He3) as (c4 & H4 & _). by exists c4.
Qed.

(** Taking the lock ends. Whatever other tasks do while the caller sleeps,
    [_acquire] decides within [wait_seconds / 0.05 + 2] polls: it holds the lock
    with a full lease, or the wait is over, or Redis is down and the lock's
    policy applies. *)
Theorem lock_acquire_decides (sleep : Q → M exn redis_client unit) (wait_seconds : Q) (fail_closed : bool)
    (token : string) (c : redis_client) :
  0 < RedisLock._ttl_ms ttl_seconds → (0 <= wait_seconds)%Q →
  (∀ d c, (0 < d)%Q → ∃ c', sleep d c = (Ret tt, c') ∧ (rc_now c + d <= rc_now c')%Q) →
  ∃ o c', RedisLock._acquire sleep key ttl_seconds wait_seconds fail_closed token
            (RedisLock.enough_polls wait_seconds) c = (o, c') ∧
    match o with
    | Ret (Some true) =>
        entry (rc_server c') (rc_now c') key =
          Some (RText token, Some (rc_now c' + (RedisLock._ttl_ms ttl_seconds # 1000))%Q)
    | Ret (Some false) => rc_up c' = true ∧ (rc_now c + wait_seconds <= rc_now c')%Q ∨ rc_up c' = false ∧ fail_closed = false
    | Ret None => False
    | Raise e => e = RedisError ∧ rc_up c' = false ∧ fail_closed = true
    end.
Proof.
  intros Hms Hw Hsleep.
  destruct (loop_decides sleep Hsleep key ttl_seconds fail_closed token Hms (rc_now c + wait_seconds)
    (S (Z.to_nat (Qceiling (wait_seconds / _ACQUIRE_POLL_SECONDS)))) c) as (o & c' & Hrun & Hd).
  - set (k := Qceiling (wait_seconds / _ACQUIRE_POLL_SECONDS)).
    pose proof (Qle_ceiling (wait_seconds / _ACQUIRE_POLL_SECONDS)) as Hc. fold k in Hc.
    assert (wait_seconds / _ACQUIRE_POLL_SECONDS == wait_seconds * 20)%Q as Heq
      by (unfold _ACQUIRE_POLL_SECONDS; field). rewrite Heq in Hc.
    assert (inject_Z k <= inject_Z (Z.of_nat (S (Z.to_nat k))))%Q as Hk by (rewrite <- Zle_Qle; lia).
    unfold _ACQUIRE_POLL_SECONDS. lra.
  - exists o, c'. split; [exact Hrun|]. by destruct o as [[[]|]|].
Qed.
End Lock.

Section Replay.
Context `{R : Redis} {HR : RedisOk R} (namespace : string) (ttl_seconds : Z) (provider signature : string).
#[local] Abbreviation claim := (RedisWebhookReplayGuard.claim namespace ttl_seconds provider signature).

Lemma claim_up c : rc_up c = true →
  claim c = let '(b, s) := set_nx_px (rc_now c)
                 (Keys.webhook_replay namespace provider (signature_replay_digest signature))
                 "1" (ttl_seconds * 1000) (rc_server c) in
            (Ret b, c <| rc_server := s |>).
Proof.
  intros Hup. unfold RedisWebhookReplayGuard.claim, or_on_outage, try_except, command. rewrite Hup.
  by destruct (set_nx_px _ _ _ _ _).
Qed.

Lemma claims_refused d stop ns : ∀ c n,
  rc_up c = true → rc_now c = total_seconds n → (total_seconds stop <= d)%Q →
  entry (rc_server c) (rc_now c) (Keys.webhook_replay namespace provider (signature_replay_digest signature)) =
    Some (RText "1", Some d) →
  ordered n stop ns → ∃ c', at_times claim ns c = (Ret (replicate (length ns) false), c').
Proof.
  induction ns as [|n' ns IH]; intros c n Hup Hnow Hd He Hord; [by exists c|].
  destruct Hord as (Hn' & Hstop & Hord).
  assert (entry (rc_server c) (total_seconds n') (Keys.webhook_replay namespace provider
    (signature_replay_digest signature)) = Some (RText "1", Some d)) as He1.
  { rewrite Hnow in He. eapply entry_kept; [exact He|by apply seconds_le|].
    apply seconds_lt in Hstop. lra. }
  destruct (IH (at_time (total_seconds n') c) n' Hup eq_refl Hd He1 Hord) as [c' Hrun]. exists c'.
  cbn [at_times]. unfold bind at 1, modifyS. unfold bind at 1.
  assert (claim (at_time (total_seconds n') c) = (Ret false, at_time (total_seconds n') c)) as ->.
  { rewrite claim_up by done. change (rc_now (at_time (total_seconds n') c)) with (total_seconds n').
    change (rc_server (at_time (total_seconds n') c)) with (rc_server c).
    by rewrite (entry_set_taken _ _ _ "1" (ttl_seconds * 1000) _ He1). }
  unfold bind. by rewrite Hrun.
Qed.

(** A captured signature is good once. The first claim of a signature succeeds
    and every further claim of it within [ttl_seconds] is refused; with Redis
    down every claim succeeds. *)
Theorem signature_claimed_once (c : redis_client) (n : Z) (ns : list Z) :
  0 < ttl_seconds → rc_up c = true → rc_now c = total_seconds n →
  entry (rc_server c) (rc_now c) (Keys.webhook_replay namespace provider (signature_replay_digest signature)) = None →
  ordered n (n + ttl_seconds * us_per_second) ns →
  (∃ c', at_times claim (n :: ns) c = (Ret (true :: replicate (length ns) false), c')) ∧
  claim (c <| rc_up := false |>) = (Ret true, c <| rc_up := false |>).
Proof.
  intros Httl Hup Hnow He Hord. split; [|done].
  destruct (entry_set_free _ _ _ "1" (ttl_seconds * 1000) ltac:(lia) He) as [Hb Hs].
  cbn [at_times]. unfold bind at 1, modifyS. unfold bind at 1.
  assert (at_time (total_seconds n) c = c) as -> by (destruct c; cbn in *; by subst).
  assert (∃ c1, claim c = (Ret true, c1) ∧ rc_up c1 = true ∧ rc_now c1 = total_seconds n ∧
    rc_server c1 = (set_nx_px (rc_now c) (Keys.webhook_replay namespace provider (signature_replay_digest signature))
      "1" (ttl_seconds * 1000) (rc_server c)).2) as (c1 & -> & Hup1 & Hnow1 & Hs1).
  { rewrite claim_up by done. destruct (set_nx_px _ _ _ _ _) as [b s']. cbn in Hb |- *. subst b. eexists. by split_and!. }
  rewrite <- Hs1, Hnow, <- Hnow1 in Hs.
  assert (total_seconds (n + ttl_seconds * us_per_second) <= rc_now c1 + (ttl_seconds * 1000 # 1000))%Q as Hd
    by (rewrite Hnow1; unfold us_per_second, total_seconds, Qle; cbn; lia).
  destruct (claims_refused _ _ ns c1 n Hup1 Hnow1 Hd Hs Hord) as [c' Hrun].
  exists c'. unfold bind. by rewrite Hrun.
Qed.
End Replay.

(** The bulkhead bounds concurrency and leaks no slot. Whatever way tasks of all
    providers interleave, no provider has more calls in flight than its
    [max_concurrency], [available] reports what is left, and the semaphore makes a
    caller wait only while that many slots are granted or in use at this
    provider. *)
Theorem bulkhead_bounded (provider_settings : gmap string ProviderLimits)
    (b : gmap string ProviderBulkhead.slots) (provider : string) (config : ProviderLimits) :
  (∀ p cfg, provider_settings !! p = Some cfg → limits_valid cfg) →
  rtc ProviderBulkhead.step (ProviderBulkhead.init provider_settings) b →
  provider_settings !! provider = Some config →
  0 ≤ ProviderBulkhead.in_flight_of b provider ≤ max_concurrency config ∧
  ProviderBulkhead.available provider_settings b provider =
    max_concurrency config - ProviderBulkhead.in_flight_of b provider ∧
  ∃ s, b !! provider = Some s ∧
    (ProviderBulkhead.grant s = None ↔
     ProviderBulkhead.granted s + ProviderBulkhead.in_flight s = max_concurrency config).
Proof.
  intros Hv Hsteps Hc.
  assert (ProviderBulkhead.accounted provider_settings b) as Hacc.
  { revert b Hsteps. apply (rtc_ind_r (λ b, ProviderBulkhead.accounted provider_settings b)).
    - intros p. unfold ProviderBulkhead.init. rewrite lookup_fmap. destruct (provider_settings !! p) eqn:Hp; [|done].
      cbn. destruct (Hv _ _ Hp). lia.
    - intros b1 b2 _ Hst Hb1. by eapply ProviderBulkhead.step_accounted. }
  pose proof (Hacc provider) as Hp. rewrite Hc in Hp.
  unfold ProviderBulkhead.available, ProviderBulkhead.capacity, ProviderBulkhead.in_flight_of. rewrite Hc.
  destruct (b !! provider) as [s|] eqn:Hb; [|done]. cbn. split; [lia|]. split; [lia|].
  exists s. split; [done|]. unfold ProviderBulkhead.grant. destruct (Z.ltb_spec 0 (ProviderBulkhead.semaphore s)); 
    (split; [done || lia|]); intros; (lia || done).
Qed.

(** An in-memory server, and two workers after one lock. *)
#[local] Existing Instance MemoryRedis.memory_ok.
#[local] Abbreviation memory_client := (@redis_client MemoryRedis.memory).
Definition idle_client : memory_client := @mk_client MemoryRedis.memory ∅ (total_seconds 0) true.
Definition plain_sleep (d : Q) : M exn memory_client unit := modifyS (λ c, at_time (rc_now c + d) c).

Lemma lock_excludes_witness :
  ∃ c1 c2 c3 : memory_client,
    RedisLock.attempt "lock:x" 30 true "a" idle_client = (Ret (Some true), c1) ∧
    RedisLock.run_ops "lock:x" 30 [(5, RedisLock.Try "b"); (6, RedisLock.Release "b"); (7, RedisLock.Try "c")] c1 =
      (Ret [false; false; false], c2) ∧
    RedisLock._release "lock:x" "a" c2 = (Ret tt, c3) ∧
    ∀ other, ∃ c4, RedisLock.attempt "lock:x" 30 true other c3 = (Ret (Some true), c4).
Proof.
  apply (lock_excludes "lock:x" 30 idle_client "a" 0 30000000
    [(5, RedisLock.Try "b"); (6, RedisLock.Release "b"); (7, RedisLock.Try "c")]).
  - reflexivity.
  - reflexivity.
  - reflexivity.
  - reflexivity.
  - reflexivity.
  - vm_compute. congruence.
  - repeat constructor; vm_compute; congruence.
  - repeat split; vm_compute; congruence.
Defined.

Lemma lock_acquire_decides_witness :
  ∃ o c', RedisLock._acquire plain_sleep "lock:x" 30 5 false "a" 102 idle_client = (o, c') ∧
    match o with
    | Ret (Some true) => entry (rc_server c') (rc_now c') "lock:x" = Some (RText "a", Some (rc_now c' + (30000 # 1000))%Q)
    | Ret (Some false) => rc_up c' = true ∧ (rc_now idle_client + 5 <= rc_now c')%Q ∨ rc_up c' = false ∧ false = false
    | Ret None => False
    | Raise e => e = RedisError ∧ rc_up c' = false ∧ false = true
    end.
Proof.
  apply (lock_acquire_decides "lock:x" 30 plain_sleep 5 false "a" idle_client).
  - reflexivity.
  - vm_compute. congruence.
  - intros d c _. eexists. split; [reflexivity|]. apply Qle_refl.
Defined.

Lemma signature_claimed_once_witness :
  (∃ c', at_times (RedisWebhookReplayGuard.claim "io" 300 "cobalt" "t=1,v1=abc") [0; 5; 299999999] idle_client =
      (Ret [true; false; false], c')) ∧
  RedisWebhookReplayGuard.claim "io" 300 "cobalt" "t=1,v1=abc" (idle_client <| rc_up := false |>) =
    (Ret true, idle_client <| rc_up := false |>).
Proof.
  apply (signature_claimed_once "io" 300 "cobalt" "t=1,v1=abc" idle_client 0 [5; 299999999]).
  - reflexivity.
  - reflexivity.
  - reflexivity.
  - reflexivity.
  - repeat split; vm_compute; congruence.
Defined.

Definition one_slot : gmap string ProviderLimits := {[ "cobalt" := mk_limits 1 2 20 40 ]}.
Definition busy : gmap string ProviderBulkhead.slots := {[ "cobalt" := ProviderBulkhead.mk_slots 0 0 1 ]}.
Lemma busy_reachable : rtc ProviderBulkhead.step (ProviderBulkhead.init one_slot) busy.
Proof.
  assert (∀ s s' f, f ∈ [ProviderBulkhead.grant; ProviderBulkhead.enter; ProviderBulkhead.abandon; ProviderBulkhead.leave] →
    f s = Some s' → ProviderBulkhead.step {[ "cobalt" := s ]} {[ "cobalt" := s' ]}) as Hstep.
  { intros s s' f Hf Hs. rewrite <- (insert_singleton_eq "cobalt" s' s).
    apply (ProviderBulkhead.step_slots {[ "cobalt" := s ]} "cobalt" s s' f Hf); [apply lookup_singleton_eq|exact Hs]. }
  unfold ProviderBulkhead.init, one_slot. rewrite map_fmap_singleton.
  eapply rtc_l; [eapply (Hstep _ _ ProviderBulkhead.grant); [set_solver|reflexivity]|].
  eapply rtc_l; [eapply (Hstep _ _ ProviderBulkhead.enter); [set_solver|reflexivity]|]. apply rtc_refl.
Qed.
Lemma bulkhead_bounded_witness :
  0 ≤ ProviderBulkhead.in_flight_of busy "cobalt" ≤ 1 ∧
  ProviderBulkhead.available one_slot busy "cobalt" = 1 - ProviderBulkhead.in_flight_of busy "cobalt" ∧
  ∃ s, busy !! "cobalt" = Some s ∧
    (ProviderBulkhead.grant s = None ↔ ProviderBulkhead.granted s + ProviderBulkhead.in_flight s = 1).
Proof.
  apply (bulkhead_bounded one_slot busy "cobalt" (mk_limits 1 2 20 40)).
  - unfold one_slot. intros p cfg [<- <-]%lookup_singleton_Some. unfold limits_valid. cbn. split_and!; (lia || lra).
  - apply busy_reachable.
  - reflexivity.
Defined.
End CoordinationTheorems.
