(* ===== verification/Resilient.v ===== *)
(** The resilience decorator around a provider adapter
    ([infrastructure/providers/resilient.py]) and the circuit-change callback of
    the container ([composition.py]).

    The decorator is written against an interface, the operations its three
    guards promise, over any state; a process instantiates it with the Redis
    limiter and breaker, its bulkhead and the database. *)

From S2P Require Import Prelude PyData PyTime Enums Errors ValueObjects Policies Entities RequestFacts Workflow.
From S2P Require Import Records Store Journal Ports Samples Redis CircuitBreaker RateLimiter Coordination.

Definition IN_PROCESS_MAX_ATTEMPTS : Z := 2.
Definition IN_PROCESS_BACKOFF_SECONDS : Q := 1 # 4.

Definition _CIRCUIT_FAILURE_CATEGORIES : list ErrorCategory.t :=
  [ErrorCategory.PROVIDER_TIMEOUT; ErrorCategory.PROVIDER_UNAVAILABLE; ErrorCategory.PROVIDER_RATE_LIMIT].

Definition _is_retryable_in_process (error : domain_error) : bool :=
  retryable error &&
  bool_decide (category error ∈ [ErrorCategory.PROVIDER_TIMEOUT; ErrorCategory.PROVIDER_UNAVAILABLE]).

(** What the decorator calls: the ports of [application/ports/resilience.py], its
    own [_last_state], the callback, and the event loop's sleep. *)
Record Guards (S : Type) := mk_guards {
  acquire : string → M exn S bool;
  retry_after : string → M exn S Q;
  allow : string → M exn S bool;
  circuit_state : string → M exn S CircuitSnapshot;
  record_success : string → M exn S CircuitState.t;
  record_failure : string → M exn S CircuitState.t;
  slot_enter : string → M exn S unit;
  slot_exit : string → M exn S unit;
  get_last_state : string → S → CircuitState.t;
  set_last_state : string → CircuitState.t → S → S;
  on_circuit_change : option (string → CircuitState.t → CircuitState.t → M exn S unit);
  sleep : Q → M exn S unit;
}.
Arguments acquire {S}.
Arguments retry_after {S}.
Arguments allow {S}.
Arguments circuit_state {S}.
Arguments record_success {S}.
Arguments record_failure {S}.
Arguments slot_enter {S}.
Arguments slot_exit {S}.
Arguments get_last_state {S}.
Arguments set_last_state {S}.
Arguments on_circuit_change {S}.
Arguments sleep {S}.

(** [async with slot: body] *)
Definition with_slot {S A} (G : Guards S) (slug : string) (body : M exn S A) : M exn S A :=
  slot_enter G slug ;;;
  (λ s, let '(o, s') := body s in
        match slot_exit G slug s' with
        | (Ret _, s'') => (o, s'')
        | (Raise e, s'') => (Raise e, s'')
        end).

Module ResilientProviderGateway.
Section Gateway.
Context {S : Type} (G : Guards S) (slug : string).

Definition _note_state (st : CircuitState.t) : M exn S unit :=
  let* previous := gets (get_last_state G slug) in
  if bool_decide (st = previous) then ret tt
  else
    modifyS (set_last_state G slug st) ;;;
    match on_circuit_change G with
    | Some callback => callback slug previous st
    | None => ret tt
    end.

(** [error] is [None] for a success. *)
Definition _record_outcome (error : option domain_error) : M exn S unit :=
  match error with
  | None => let* st := record_success G slug in _note_state st
  | Some e =>
      if bool_decide (category e ∈ _CIRCUIT_FAILURE_CATEGORIES) then
        let* st := record_failure G slug in _note_state st
      else ret tt
  end.

Definition _check_rate_limit : M exn S unit :=
  let* ok := acquire G slug in
  if ok then ret tt
  else
    let* wait := retry_after G slug in
    raise (EDomain (provider_error ErrorClass.ProviderRateLimitError
      "the client-side rate limit for this provider is exhausted" slug
      (no_kwargs <| k_retry_after_seconds := Some wait |>
         <| k_metadata := [("source", JStr "client_rate_limiter")] |>))).

Definition _check_circuit : M exn S unit :=
  let* ok := allow G slug in
  if ok then ret tt
  else
    let* snapshot := circuit_state G slug in
    _note_state (state snapshot) ;;;
    raise (CircuitOpenError slug None None).

(** [try: result = await call() except ProviderError as exc: ...] *)
Definition catching {T} (call : M exn S T) : M exn S (domain_error + T) :=
  try_except (let* r := call in ret (inr r))
    (λ e, match e with
          | EDomain d => if ErrorClass.subclass (cls d) ErrorClass.ProviderError then Some (ret (inl d)) else None
          | _ => None
          end).

(** One turn of the loop: [None] asks for another. *)
Definition turn {T} (call : M exn S T) (attempt attempts : Z) : M exn S (option T) :=
  with_slot G slug (
    let* r := catching call in
    match r with
    | inl exc =>
        _record_outcome (Some exc) ;;;
        if (attempts <=? attempt) || negb (_is_retryable_in_process exc) then raise (EDomain exc)
        else ret None
    | inr result => _record_outcome None ;;; ret (Some result)
    end).

(** [for attempt in range(attempt, attempts + 1)], [left] turns of it. *)
Fixpoint attempt_loop {T} (call : M exn S T) (attempts attempt : Z) (left : nat) : M exn S T :=
  match left with
  | O => raise (EOther "the provider call produced no result")
  | Datatypes.S left' =>
      let* r := turn call attempt attempts in
      match r with
      | Some result => ret result
      | None =>
          sleep G (IN_PROCESS_BACKOFF_SECONDS * inject_Z attempt) ;;;
          attempt_loop call attempts (attempt + 1) left'
      end
  end.

Definition _guarded {T} (call : M exn S T) (allow_in_process_retry : bool) : M exn S T :=
  _check_rate_limit ;;;
  _check_circuit ;;;
  let attempts := if allow_in_process_retry then IN_PROCESS_MAX_ATTEMPTS else 1 in
  attempt_loop call attempts 1 (Z.to_nat attempts).

Section Operations.
(** The adapter, over the same state. *)
Context (inner_descriptor : ProviderDescriptor).
Context (inner_create : CreateProviderOperationCommand → M exn S ProviderOperationResult).
Context (inner_status : string → M exn S ProviderOperationResult).
Context (inner_cancel : CancelProviderOperationCommand → M exn S ProviderOperationResult).
Context (inner_health : M exn S ProviderHealthProbe).

Definition create_operation (command : CreateProviderOperationCommand) : M exn S ProviderOperationResult :=
  _guarded (inner_create command) (d_supports_provider_idempotency inner_descriptor).
Definition get_operation_status (provider_reference : string) : M exn S ProviderOperationResult :=
  _guarded (inner_status provider_reference) true.
Definition cancel_operation (command : CancelProviderOperationCommand) : M exn S ProviderOperationResult :=
  _guarded (inner_cancel command) true.
Definition health_check : M exn S ProviderHealthProbe := with_slot G slug inner_health.
End Operations.
End Gateway.
End ResilientProviderGateway.

(** * One process *)

Section Process.
Context `{Redis}.
Record process := mk_process {
  p_redis : redis_client;
  p_slots : gmap string ProviderBulkhead.slots;
  p_last : gmap string CircuitState.t;
  p_world : World;
}.
#[export] Instance eta_process : Eta process := λ p,
  mk_process (p_redis p) (p_slots p) (p_last p) (p_world p).

Definition on_redis {A} (m : M exn redis_client A) : M exn process A := λ p,
  let '(o, c) := m (p_redis p) in (o, p <| p_redis := c |>).
Definition on_world {A} (m : H A) : M exn process A := λ p,
  let '(o, w) := m (p_world p) in (o, p <| p_world := w |>).

(** The table of event types and audit actions of [composition.py]. *)
Definition CIRCUIT_EVENT_TYPES (s : CircuitState.t) : string :=
  match s with
  | CircuitState.OPEN => "integration.provider.circuit_opened.v1"
  | CircuitState.CLOSED => "integration.provider.circuit_closed.v1"
  | CircuitState.HALF_OPEN => "integration.provider.circuit_half_opened.v1"
  end.
Definition CIRCUIT_AUDIT_ACTIONS (s : CircuitState.t) : AuditAction.t :=
  match s with
  | CircuitState.OPEN => AuditAction.CIRCUIT_OPENED
  | CircuitState.CLOSED => AuditAction.CIRCUIT_CLOSED
  | CircuitState.HALF_OPEN => AuditAction.CIRCUIT_CLOSED
  end.

Section Wiring.
Context `{Env} (namespace : string) (circuit_policy : string → outcome exn CircuitBreakerPolicy.t).
Context (provider_settings : gmap string ProviderLimits).
(** Other tasks of the process run while this one waits or sleeps. *)
Context (wait_for_slot : Q → M exn process unit) (asyncio_sleep : Q → M exn process unit).

(** The callback of [build_container]; every exception is logged and dropped. *)
Definition container_circuit_change (provider : string) (previous new : CircuitState.t) : M exn process unit :=
  try_except (on_world (with_uow (
    let* u := new_id in
    let* corr := lift (CorrelationId.generate u) in
    record_circuit_transition provider (value previous) (value new) (CIRCUIT_EVENT_TYPES new)
      (CIRCUIT_AUDIT_ACTIONS new) corr 0
      (Some ("the circuit moved from " +:+ value previous +:+ " to " +:+ value new)) ;;;
    commit))) (λ _, Some (ret tt)).

(** [ProviderBulkhead.slot]: take a slot, wait for one, or be rejected. *)
Definition take_slot (provider : string) : M exn process bool :=
  let* p := getS in
  match (p_slots p !! provider ≫= ProviderBulkhead.grant) ≫= ProviderBulkhead.enter with
  | Some s => putS (p <| p_slots := <[provider := s]> (p_slots p) |>) ;;; ret true
  | None => ret false
  end.
Definition enter_bulkhead (provider : string) : M exn process unit :=
  let* p := getS in
  match p_slots p !! provider, provider_settings !! provider with
  | Some _, Some config =>
      let* taken := take_slot provider in
      if taken then ret tt
      else
        wait_for_slot (acquire_timeout_seconds config) ;;;
        let* taken := take_slot provider in
        if taken then ret tt else raise (ProviderBulkhead.rejected provider config)
  | _, _ => ret tt
  end.
Definition leave_bulkhead (provider : string) : M exn process unit :=
  modifyS (λ p, match p_slots p !! provider ≫= ProviderBulkhead.leave with
                | Some s => p <| p_slots := <[provider := s]> (p_slots p) |>
                | None => p
                end).

Definition process_guards : Guards process := {|
  acquire provider := on_redis (RedisRateLimiter.acquire namespace provider_settings provider);
  retry_after provider := on_redis (RedisRateLimiter.retry_after namespace provider_settings provider);
  allow provider := on_redis (RedisCircuitBreaker.allow namespace circuit_policy provider);
  circuit_state provider := on_redis (RedisCircuitBreaker.state namespace provider);
  record_success provider := on_redis (RedisCircuitBreaker.record_success namespace circuit_policy provider);
  record_failure provider := on_redis (RedisCircuitBreaker.record_failure namespace circuit_policy provider);
  slot_enter := enter_bulkhead;
  slot_exit := leave_bulkhead;
  get_last_state provider p := default CircuitState.CLOSED (p_last p !! provider);
  set_last_state provider st p := p <| p_last := <[provider := st]> (p_last p) |>;
  on_circuit_change := Some container_circuit_change;
  sleep := asyncio_sleep;
|}.
End Wiring.
End Process.
Arguments mk_process {_} p_redis p_slots p_last p_world.

(** * Effects

    [keeps R m]: whatever [m] answers, it moves the state along [R]. *)

Definition keeps {E S A} (R : relation S) (m : M E S A) : Prop := ∀ s, R s (m s).2.

Section Keeps.
Context {E S : Type} (R : relation S) `{!PreOrder R}.

Lemma keeps_ret {A} (a : A) : keeps (E := E) R (ret a).
Proof. intros s. reflexivity. Qed.
Lemma keeps_raise {A} (e : E) : keeps (A := A) R (raise e).
Proof. intros s. reflexivity. Qed.
Lemma keeps_gets {A} (f : S → A) : keeps (E := E) R (gets f).
Proof. intros s. reflexivity. Qed.
Lemma keeps_bind {A B} (m : M E S A) (k : A → M E S B) :
  keeps R m → (∀ a, keeps R (k a)) → keeps R (bind m k).
Proof.
  intros Hm Hk s. unfold bind. specialize (Hm s). destruct (m s) as [[a|e] s']; [|done].
  etransitivity; [exact Hm|apply Hk].
Qed.
Lemma keeps_try {A} (m : M E S A) h :
  keeps R m → (∀ e k, h e = Some k → keeps R k) → keeps R (try_except m h).
Proof.
  intros Hm Hh s. unfold try_except. specialize (Hm s). destruct (m s) as [[a|e] s']; [done|].
  destruct (h e) as [k|] eqn:He; [|done]. etransitivity; [exact Hm|by eapply Hh].
Qed.
End Keeps.

Create HintDb keeps_db.
#[export] Hint Extern 0 (keeps _ (ret _)) => apply keeps_ret; apply _ : keeps_db.
#[export] Hint Extern 0 (keeps _ (raise _)) => apply keeps_raise; apply _ : keeps_db.
#[export] Hint Extern 0 (keeps _ (gets _)) => apply keeps_gets; apply _ : keeps_db.
Ltac keeps_step :=
  lazymatch goal with
  | |- keeps _ (bind _ _) => apply keeps_bind; [apply _| |intros ?]
  | |- keeps _ (if ?b then _ else _) => destruct b
  | |- keeps _ (match ?x with _ => _ end) => destruct x eqn:?
  | |- keeps _ _ => solve [eauto with keeps_db]
  end.
Ltac keeps_go := repeat keeps_step.

(** Guards that move the state along [R], the slots apart. *)
Record guards_keep {S} (R : relation S) (G : Guards S) (slug : string) : Prop := {
  keep_acquire : keeps R (acquire G slug);
  keep_retry_after : keeps R (retry_after G slug);
  keep_allow : keeps R (allow G slug);
  keep_state : keeps R (circuit_state G slug);
  keep_success : keeps R (record_success G slug);
  keep_failure : keeps R (record_failure G slug);
  keep_last st s : R s (set_last_state G slug st s);
  keep_change f p n : on_circuit_change G = Some f → keeps R (f slug p n);
  keep_sleep d : keeps R (sleep G d);
}.

Section GuardFacts.
Import ResilientProviderGateway.
Context {S : Type} (R : relation S) `{!PreOrder R} (G : Guards S) (slug : string) (HG : guards_keep R G slug).

Lemma note_state_keeps st : keeps R (_note_state G slug st).
Proof.
  destruct HG. unfold _note_state. keeps_go. intros s. apply keep_last0.
Qed.
Lemma record_outcome_keeps e : keeps R (_record_outcome G slug e).
Proof. pose proof note_state_keeps. destruct HG. unfold _record_outcome. keeps_go. Qed.
Lemma check_rate_keeps : keeps R (_check_rate_limit G slug).
Proof. destruct HG. unfold _check_rate_limit. keeps_go. Qed.
Lemma check_circuit_keeps : keeps R (_check_circuit G slug).
Proof. pose proof note_state_keeps. destruct HG. unfold _check_circuit. keeps_go. Qed.
Lemma catching_keeps {T} (call : M exn S T) : keeps R call → keeps R (catching call).
Proof.
  intros Hc. unfold catching. apply keeps_try; [done|keeps_go|].
  intros [d| | | | | | ] k Hk; try done. destruct (ErrorClass.subclass _ _); [|done]. injection Hk as <-. keeps_go.
Qed.
End GuardFacts.

(** How often the provider is called, by any count [calls] of the state. *)
Section Budget.
Import ResilientProviderGateway.
Context {S : Type} (calls : S → Z) (G : Guards S) (slug : string).

Definition same_calls (s s' : S) : Prop := calls s' = calls s.
#[export] Instance same_calls_preorder : PreOrder same_calls.
Proof. split; [done|]. unfold same_calls. intros ???. congruence. Qed.

Context (HG : guards_keep same_calls G slug).
Context (Henter : keeps same_calls (slot_enter G slug)) (Hexit : keeps same_calls (slot_exit G slug)).
Context {T : Type} (call : M exn S T) (Hcall : ∀ s, calls (call s).2 = calls s + 1).

Lemma with_slot_calls {A} (body : M exn S A) :
  (∀ s, calls (body s).2 = calls s + 1) →
  ∀ s, calls s ≤ calls (with_slot G slug body s).2 ≤ calls s + 1.
Proof.
  intros Hb s. unfold with_slot, bind. specialize (Henter s). unfold same_calls in Henter.
  destruct (slot_enter G slug s) as [[[]|e] s1]; cbn in Henter; [|cbn; lia]. specialize (Hb s1).
  destruct (body s1) as [o s2]. specialize (Hexit s2). unfold same_calls in Hexit.
  destruct (slot_exit G slug s2) as [[[]|e] s3]; cbn in *; lia.
Qed.

Lemma catching_calls s : calls (catching call s).2 = calls s + 1.
Proof.
  unfold catching, try_except, bind. specialize (Hcall s). destruct (call s) as [[r|e] s1]; [done|].
  destruct e as [d| | | | | |]; try done. by destruct (ErrorClass.subclass _ _).
Qed.

Lemma turn_calls attempt attempts s : calls s ≤ calls (turn G slug call attempt attempts s).2 ≤ calls s + 1.
Proof.
  apply with_slot_calls. clear s. intros s. unfold bind at 1. pose proof (catching_calls s) as Hc.
  destruct (catching call s) as [[[exc|r]|e] s1]; [..|done]; cbn in Hc; rewrite <- Hc.
  - assert (keeps same_calls (_record_outcome G slug (Some exc) ;;;
      (if (attempts <=? attempt) || negb (_is_retryable_in_process exc) then raise (EDomain exc) else ret (@None T)))) as Hk.
    { pose proof (record_outcome_keeps same_calls G slug HG (Some exc)). keeps_go. }
    apply Hk.
  - assert (keeps same_calls (_record_outcome G slug None ;;; ret (Some r))) as Hk
      by (pose proof (record_outcome_keeps same_calls G slug HG None); keeps_go). apply Hk.
Qed.

Lemma loop_calls attempts left : ∀ attempt s,
  calls s ≤ calls (attempt_loop G slug call attempts attempt left s).2 ≤ calls s + Z.of_nat left.
Proof.
  induction left as [|left IH]; intros attempt s; [cbn; lia|]. cbn [attempt_loop]. unfold bind.
  pose proof (turn_calls attempt attempts s) as Ht.
  destruct (turn G slug call attempt attempts s) as [[[r|]|e] s1]; rewrite Nat2Z.inj_succ;
    cbn -[attempt_loop] in Ht |- *; [lia| |lia].
  pose proof (keep_sleep _ _ _ HG (IN_PROCESS_BACKOFF_SECONDS * inject_Z attempt)%Q s1) as Hs.
  unfold same_calls in Hs. destruct (sleep G _ s1) as [[[]|e] s2]; cbn [snd] in Hs |- *; [|lia].
  specialize (IH (attempt + 1) s2). lia.
Qed.

Lemma guarded_calls b s :
  calls s ≤ calls (_guarded G slug call b s).2 ≤ calls s + (if b then IN_PROCESS_MAX_ATTEMPTS else 1) ∧
  ((acquire G slug s).1 = Ret false → calls (_guarded G slug call b s).2 = calls s) ∧
  (∀ s1, acquire G slug s = (Ret true, s1) → (allow G slug s1).1 = Ret false →
     calls (_guarded G slug call b s).2 = calls s).
Proof.
  unfold _guarded, bind. pose proof (check_rate_keeps same_calls G slug HG s) as Hr.
  assert (((acquire G slug s).1 = Ret false → ∃ e, (_check_rate_limit G slug s).1 = Raise e) ∧
    (∀ s1, acquire G slug s = (Ret true, s1) → _check_rate_limit G slug s = (Ret tt, s1))) as [Hf Ht].
  { unfold _check_rate_limit, bind. destruct (acquire G slug s) as [[[]|e] s1]; (split; [|intros ? [= <-]]); try done.
    intros _. destruct (retry_after G slug s1) as [[w|e] s2]; by eexists. }
  destruct (_check_rate_limit G slug s) as [[[]|e] s1]; unfold same_calls in Hr; cbn [fst snd] in *.
  2:{ unfold IN_PROCESS_MAX_ATTEMPTS. destruct b; split_and!; intros; lia. }
  pose proof (check_circuit_keeps same_calls G slug HG s1) as Hc.
  assert ((allow G slug s1).1 = Ret false → ∃ e, (_check_circuit G slug s1).1 = Raise e) as Hshut.
  { unfold _check_circuit, bind. destruct (allow G slug s1) as [[[]|e] s2]; try done.
    intros _. destruct (circuit_state G slug s2) as [[w|e] s3]; [|by eexists].
    destruct (_note_state G slug _ s3) as [[[]|e] s4]; by eexists. }
  destruct (_check_circuit G slug s1) as [[[]|e] s2]; unfold same_calls in Hc; cbn [fst snd] in *.
  2:{ unfold IN_PROCESS_MAX_ATTEMPTS. destruct b; split_and!; intros; lia. }
  pose proof (loop_calls (if b then IN_PROCESS_MAX_ATTEMPTS else 1)
    (Z.to_nat (if b then IN_PROCESS_MAX_ATTEMPTS else 1)) 1 s2) as Hl.
  split_and!; [lia|destruct b; unfold IN_PROCESS_MAX_ATTEMPTS in *; lia|..].
  - intros Ha. by destruct (Hf Ha).
  - intros s1' Ha Hal. specialize (Ht s1' Ha) as [= <-]. by destruct (Hshut Hal).
Qed.
End Budget.

(** What the guards, the slots and the call keep, the decorator keeps. *)
Section GuardedKeeps.
Import ResilientProviderGateway.
Context {S : Type} (R : relation S) `{!PreOrder R} (G : Guards S) (slug : string) (HG : guards_keep R G slug).
Context (Hslot : ∀ A (body : M exn S A), keeps R body → keeps R (with_slot G slug body)).

Lemma guarded_keeps {T} (call : M exn S T) b : keeps R call → keeps R (_guarded G slug call b).
Proof.
  intros Hc. pose proof (check_rate_keeps R G slug HG) as H1. pose proof (check_circuit_keeps R G slug HG) as H2.
  pose proof (record_outcome_keeps R G slug HG) as H3. pose proof (keep_sleep _ _ _ HG) as H4.
  unfold _guarded. keeps_go. generalize (if b then IN_PROCESS_MAX_ATTEMPTS else 1). intros attempts.
  generalize (Z.to_nat attempts) as left, 1 as attempt. intros left.
  induction left as [|left IH]; intros attempt; cbn [attempt_loop]; [keeps_go|].
  apply keeps_bind; [done| |intros r; keeps_go]. apply Hslot.
  apply keeps_bind; [done|by apply catching_keeps|intros r; keeps_go].
Qed.
End GuardedKeeps.

Lemma with_slot_keeps {S} (R : relation S) `{!PreOrder R} (G : Guards S) slug A (body : M exn S A) :
  keeps R (slot_enter G slug) → keeps R (slot_exit G slug) → keeps R body → keeps R (with_slot G slug body).
Proof.
  intros He Hx Hb. apply keeps_bind; [done|done|]. intros _ s. specialize (Hb s). destruct (body s) as [o s'].
  specialize (Hx s'). destruct (slot_exit G slug s') as [[u|e] s'']; (etransitivity; [exact Hb|exact Hx]).
Qed.

(** * The process *)

Section ProcessFacts.
Import ResilientProviderGateway.
Context `{R : Redis} {HR : RedisOk R} `{E : Env}.
Context (namespace : string) (circuit_policy : string → outcome exn CircuitBreakerPolicy.t).
Context (provider_settings : gmap string ProviderLimits).
Context (wait_for_slot asyncio_sleep : Q → M exn process unit).
Context (provider : string).
#[local] Abbreviation G := (process_guards namespace circuit_policy provider_settings wait_for_slot asyncio_sleep).

(** The callback never raises. *)
Lemma circuit_change_returns p st st' :
  ∃ p', container_circuit_change provider st st' p = (Ret tt, p') ∧ p_redis p' = p_redis p.
Proof.
  unfold container_circuit_change, try_except, on_world.
  destruct (with_uow _ (p_world p)) as [[[]|e] w]; by eexists.
Qed.
Lemma note_state_returns p st :
  ∃ p', _note_state G provider st p = (Ret tt, p') ∧ p_redis p' = p_redis p.
Proof.
  unfold _note_state, bind, gets, modifyS. cbn. destruct (bool_decide _); [by exists p|].
  edestruct circuit_change_returns as (p' & Hp' & Hr'). exists p'. split; [exact Hp'|exact Hr'].
Qed.

Lemma on_redis_run {A} (m : M exn redis_client A) p o c :
  m (p_redis p) = (o, c) → on_redis m p = (o, p <| p_redis := c |>).
Proof. unfold on_redis. by intros ->. Qed.

(** ** Slots *)

(** The slots of the provider are as [init] made them and steps keep them. *)
Definition slot_ok (p : process) : Prop :=
  match p_slots p !! provider, provider_settings !! provider with
  | Some s, Some _ => 0 ≤ ProviderBulkhead.granted s ∧ 0 ≤ ProviderBulkhead.in_flight s
  | None, None => True
  | _, _ => False
  end.
Definition slots_back (p p' : process) : Prop :=
  slot_ok p → p_slots p' !! provider = p_slots p !! provider.
#[export] Instance slots_back_preorder : PreOrder slots_back.
Proof.
  split; [done|]. intros p1 p2 p3 H12 H23 Hok. rewrite <- (H12 Hok). apply H23.
  unfold slot_ok. by rewrite (H12 Hok).
Qed.

Lemma on_redis_slots {A} (m : M exn redis_client A) : keeps slots_back (on_redis m).
Proof. intros p _. unfold on_redis. by destruct (m (p_redis p)). Qed.
Lemma on_world_slots {A} (m : H A) : keeps slots_back (on_world m).
Proof. intros p _. unfold on_world. by destruct (m (p_world p)). Qed.

Lemma process_guards_slots :
  (∀ d, keeps slots_back (asyncio_sleep d)) → guards_keep slots_back G provider.
Proof.
  intros Hs. split; cbn; try (intros; apply on_redis_slots); [by intros st p| |done].
  intros f st st' [= <-]. apply keeps_try; [apply _|apply on_world_slots|].
  intros e k [= <-]. apply keeps_ret, _.
Qed.

(** Taking a slot and leaving it gives it back. *)
Lemma take_leave s s' :
  0 ≤ ProviderBulkhead.granted s → 0 ≤ ProviderBulkhead.in_flight s →
  ProviderBulkhead.grant s ≫= ProviderBulkhead.enter = Some s' →
  ProviderBulkhead.leave s' = Some s ∧ 0 ≤ ProviderBulkhead.granted s' ∧ 0 ≤ ProviderBulkhead.in_flight s'.
Proof.
  intros Hg Hi. unfold ProviderBulkhead.grant, ProviderBulkhead.enter, ProviderBulkhead.leave.
  destruct (0 <? _) eqn:Hlt; [|done]. cbn. rewrite (proj2 (Z.ltb_lt _ _)) by lia. intros [= <-]. cbn.
  rewrite (proj2 (Z.ltb_lt _ _)) by lia. split; [|lia]. destruct s as [v g i]. cbn. do 2 f_equal; lia.
Qed.

Lemma with_slot_slots {A} (body : M exn process A) :
  (∀ d, keeps slots_back (wait_for_slot d)) → keeps slots_back body →
  keeps slots_back (with_slot G provider body).
Proof.
  intros Hw Hb p Hok. unfold with_slot. cbn [slot_enter slot_exit process_guards].
  pose proof Hok as Hok'. unfold slot_ok in Hok'.
  destruct (p_slots p !! provider) as [s|] eqn:Hs, (provider_settings !! provider) as [config|] eqn:Hc; try done.
  2:{ unfold enter_bulkhead, bind, getS. rewrite Hs. cbn. specialize (Hb p Hok).
      destruct (body p) as [o p1]. cbn in Hb. unfold leave_bulkhead, modifyS. rewrite Hb, Hs. cbn. by rewrite Hb. }
  assert (∀ p1, p_slots p1 !! provider = Some s →
    p_slots (match take_slot provider p1 with
       | (Ret true, p2) => let '(o, p3) := body p2 in (leave_bulkhead provider p3).2
       | (_, p2) => p2 end) !! provider = Some s) as Htake.
  { intros p1 Hs1. unfold take_slot. unfold bind at 1, getS. rewrite Hs1.
    destruct (ProviderBulkhead.grant s ≫= ProviderBulkhead.enter) as [s'|] eqn:Ht.
    2:{ cbn in Ht |- *. rewrite Ht. exact Hs1. }
    destruct (take_leave s s') as (Hl & Hg & Hi); [lia|lia|done|]. cbn [mbind option_bind] in Ht |- *. rewrite Ht.
    set (p2 := p1 <| p_slots := <[provider := s']> (p_slots p1) |>).
    change (p_slots (let '(_, p3) := body p2 in (leave_bulkhead provider p3).2) !! provider = Some s).
    assert (p_slots p2 !! provider = Some s') as Hs2 by apply lookup_insert_eq. clearbody p2.
    assert (slot_ok p2) as Hok2 by (unfold slot_ok; rewrite Hs2, Hc; done).
    specialize (Hb p2 Hok2). destruct (body p2) as [o p3]. cbn in Hb.
    unfold leave_bulkhead, modifyS. rewrite Hb, Hs2. cbn. rewrite Hl. apply lookup_insert_eq. }
  unfold enter_bulkhead. unfold bind at 1 2, getS. rewrite Hs, Hc. unfold bind at 1.
  pose proof (Htake p Hs) as H1. destruct (take_slot provider p) as [[[]|e] p1]; [..|done].
  - cbn. destruct (body p1) as [o p2]. exact H1.
  - unfold bind at 1. cbn in H1.
    assert (slot_ok p1) as Hok1 by (unfold slot_ok; rewrite H1, Hc; done).
    specialize (Hw (acquire_timeout_seconds config) p1 Hok1). rewrite H1 in Hw.
    destruct (wait_for_slot _ p1) as [[[]|e] p2]; cbn in Hw; [|done]. unfold bind.
    pose proof (Htake p2 Hw) as H2. destruct (take_slot provider p2) as [[[]|e] p3]; [|done..].
    cbn. destruct (body p3) as [o p4]. exact H2.
Qed.

(** ** The database *)

Definition world_sound (p p' : process) : Prop :=
  Journaled (db (p_world p)) → sound (p_world p) (p_world p') ∧ sess (p_world p') = sess (p_world p).
#[export] Instance world_sound_preorder : PreOrder world_sound.
Proof.
  split.
  - intros p Hj. split; [by apply sound_refl|done].
  - intros p1 p2 p3 H12 H23 Hj. destruct (H12 Hj) as [Hs1 He1]. destruct (H23 (proj1 Hs1)) as [Hs2 He2].
    split; [by eapply sound_trans|congruence].
Qed.

Lemma on_redis_world {A} (m : M exn redis_client A) : keeps world_sound (on_redis m).
Proof. intros p. unfold on_redis. destruct (m (p_redis p)) as [o c]. change (world_sound p p). reflexivity. Qed.
Lemma on_world_sound {A} (m : H A) : calm m → keeps world_sound (on_world m).
Proof.
  intros Hm p Hj. specialize (Hm (p_world p) Hj). unfold on_world, wp in *.
  by destruct (m (p_world p)) as [[a|e] w].
Qed.

Lemma journaling_circuit_transition prv pst nst ty act corr n reason :
  journaling (record_circuit_transition prv pst nst ty act corr n reason).
Proof.
  unfold record_circuit_transition. apply journaling_bind; [apply journaling_now|intros t].
  apply journaling_bind; [apply journaling_new_id|intros i].
  intros w Hin. wp_step. wp_step.
  destruct (AuditEvent.for_provider _ _ _ _ _ _ _ _ _) as [a|e] eqn:Ha; [|by apply inside_sound].
  revert w Hin. change (journaling (Audit.append a ;;;
    let* oi := new_id in let* ev := new_id in
    let* o := lift (OutboxEvent.fresh oi ev ty CURRENT_EVENT_VERSION "provider" prv
                (build_circuit_event_payload prv pst nst t n reason) corr t None (Some prv)) in
    add_row (NewOutbox o))).
  apply journaling_bind; [|intros _; apply journaling_bind; [apply journaling_new_id|intros oi];
    apply journaling_bind; [apply journaling_new_id|intros ev]; apply journaling_bind; [apply journaling_lift|];
    intros o; by apply journaling_add].
  apply journaling_add. cbn. unfold AuditEvent.for_provider, AuditEvent.make in Ha.
  destruct (negb (is_aware _)); [done|]. destruct (negb (Str.truthy _)); [done|]. by injection Ha as <-.
Qed.

Lemma circuit_change_sound st st' : keeps world_sound (container_circuit_change provider st st').
Proof.
  apply keeps_try; [apply _| |intros e k [= <-]; apply keeps_ret, _].
  apply on_world_sound, calm_uow. apply journaling_bind; [apply journaling_new_id|intros u].
  apply journaling_bind; [apply journaling_lift|intros corr].
  apply journaling_bind; [apply journaling_circuit_transition|intros _; apply journaling_commit].
Qed.

Lemma process_guards_world :
  (∀ d, keeps world_sound (asyncio_sleep d)) → guards_keep world_sound G provider.
Proof.
  intros Hs. split; cbn; try (intros; apply on_redis_world); [by intros st p| |done].
  intros f st st' [= <-]. apply circuit_change_sound.
Qed.
Lemma enter_bulkhead_world :
  (∀ d, keeps world_sound (wait_for_slot d)) → keeps world_sound (slot_enter G provider).
Proof.
  assert (keeps world_sound (take_slot provider)) as Ht.
  { intros p. unfold take_slot, bind, getS, putS, ret. cbn. destruct (_ ≫= _);
      cbn; change (world_sound p p); reflexivity. }
  intros Hw. cbn. unfold enter_bulkhead. apply keeps_bind; [apply _|intros p; reflexivity|intros p; keeps_go].
Qed.
Lemma leave_bulkhead_world : keeps world_sound (slot_exit G provider).
Proof. intros p. cbn. destruct (_ ≫= _); change (world_sound p p); reflexivity. Qed.
End ProcessFacts.

(** ** The limiter and the breaker do not meet *)

Section Frame.
Context `{R : Redis} {HR : RedisOk R}.

Lemma string_app_cancel (s a b : string) : s +:+ a = s +:+ b → a = b.
Proof. induction s as [|c s IH]; [done|]. cbn. intros [= Heq]. by apply IH. Qed.
Lemma circuit_key_apart namespace p q : Keys.circuit namespace p ≠ Keys.rate_limit namespace q.
Proof.
  unfold Keys.circuit, Keys.rate_limit, Keys.build. cbn. intros Heq%string_app_cancel. discriminate Heq.
Qed.

(** A call of the limiter leaves every other key alone. *)
Lemma acquire_frame namespace settings provider c k :
  k ≠ Keys.rate_limit namespace provider →
  let r := RedisRateLimiter.acquire namespace settings provider c in
  (∃ b, r.1 = Ret b) ∧ rc_up r.2 = rc_up c ∧ rc_now r.2 = rc_now c ∧
  entry (rc_server r.2) (rc_now c) k = entry (rc_server c) (rc_now c) k.
Proof.
  intros Hk. unfold RedisRateLimiter.acquire. destruct (settings !! provider) as [config|]; [|by split; [eexists|]].
  unfold or_on_outage, try_except, bind, gets, command, ret.
  destruct (rc_up c) eqn:Hup; [|by split; [eexists|]].
  set (r := _TOKEN_BUCKET_SCRIPT _ _ _ _ _ _ _).
  assert (entry r.2 (rc_now c) k = entry (rc_server c) (rc_now c) k) as Hr.
  { unfold r, _TOKEN_BUCKET_SCRIPT. destruct (match tonumber _ with Some _ => _ | None => _ end).
    destruct (Qle_bool _ _); cbn [snd]; rewrite expire_frame, hset_frame by done; done. }
  destruct r as [reply s']. cbn in Hr |- *. by split; [eexists|].
Qed.
Lemma retry_after_frame namespace settings provider c :
  ∃ w, RedisRateLimiter.retry_after namespace settings provider c = (Ret w, c).
Proof.
  unfold RedisRateLimiter.retry_after. destruct (settings !! provider) as [config|]; [|by eexists].
  unfold or_on_outage, try_except, bind, gets, command, ret. destruct (rc_up c) eqn:Hup; [|by eexists].
  destruct c as [sv nw up]. cbn in *. repeat (destruct (tonumber _); cbn); try (by eexists).
  destruct (Qle_bool _ _); by eexists.
Qed.
Lemma sees_frame namespace settings provider c n snap :
  sees namespace provider c n snap →
  let c' := (RedisRateLimiter.acquire namespace settings provider c).2 in sees namespace provider c' n snap.
Proof.
  intros (Hup & Hnow & h & Hh & Hr).
  destruct (acquire_frame namespace settings provider c _ (circuit_key_apart namespace provider provider))
    as (_ & Hup' & Hnow' & He).
  split_and!; [congruence|congruence|]. exists h. split; [|done]. by rewrite Hnow', He.
Qed.
Lemma state_sees namespace provider c n snap :
  sees namespace provider c n snap → RedisCircuitBreaker.state namespace provider c = (Ret snap, c).
Proof.
  intros (Hup & Hnow & h & Hh & Hr). unfold RedisCircuitBreaker.state, or_on_outage, try_except, bind, command, lift, hgetall.
  rewrite Hup, Hh. cbn. rewrite (represents_snapshot _ _ Hr). by destruct c.
Qed.
End Frame.

Module ResilientTheorems.
Import ResilientProviderGateway.

(** C34. The provider is called within its budget. However the guards behave, one
    [create_operation] calls the adapter at most twice, at most once when the
    provider does not collapse duplicates, and not at all when the rate limiter or
    the circuit breaker refuses. *)
Theorem create_call_budget {S : Type} (calls : S → Z) (G : Guards S) (slug : string)
    (desc : ProviderDescriptor) (inner : CreateProviderOperationCommand → M exn S ProviderOperationResult)
    (command : CreateProviderOperationCommand) (s : S) :
  guards_keep (same_calls calls) G slug →
  keeps (same_calls calls) (slot_enter G slug) → keeps (same_calls calls) (slot_exit G slug) →
  (∀ s, calls (inner command s).2 = calls s + 1) →
  let s' := (create_operation G slug desc inner command s).2 in
  calls s ≤ calls s' ≤ calls s + (if d_supports_provider_idempotency desc then 2 else 1) ∧
  ((acquire G slug s).1 = Ret false → calls s' = calls s) ∧
  (∀ s1, acquire G slug s = (Ret true, s1) → (allow G slug s1).1 = Ret false → calls s' = calls s).
Proof. intros HG He Hx Hi. by apply guarded_calls. Qed.

Section Process.
Context `{R : Redis} {HR : RedisOk R} `{E : Env}.
Context (namespace : string) (circuit_policy : string → outcome exn CircuitBreakerPolicy.t).
Context (provider_settings : gmap string ProviderLimits).
Context (wait_for_slot asyncio_sleep : Q → M exn process unit).
Context (provider : string).
#[local] Abbreviation G := (process_guards namespace circuit_policy provider_settings wait_for_slot asyncio_sleep).

(** A failing provider is shielded. When the shared breaker does not admit
    traffic, every guarded call of a process ends in one and the same retryable
    error, the breaker's or the rate limiter's, whatever the adapter would have
    done: the adapter is never consulted, so the request goes to the durable
    retry path. *)
Theorem open_circuit_shields (p : process) (n : Z) (snap : CircuitSnapshot) (cp : CircuitBreakerPolicy.t) :
  circuit_policy provider = Ret cp → CircuitBreakerPolicy.valid cp →
  sees namespace provider (p_redis p) n snap → admits_traffic snap (utc n) cp = false →
  ∃ d p', (∀ T (call : M exn process T) retry, _guarded G provider call retry p = (Raise (EDomain d), p')) ∧
    retryable d = true ∧ cls d ∈ [ErrorClass.CircuitOpenError; ErrorClass.ProviderRateLimitError].
Proof.
  intros Hpol Hv Hs Hadm.
  destruct (acquire_frame namespace provider_settings provider (p_redis p) _
    (circuit_key_apart namespace provider provider)) as ([b Hb] & _).
  pose proof (sees_frame namespace provider_settings provider _ _ _ Hs) as Hs1.
  destruct (RedisRateLimiter.acquire namespace provider_settings provider (p_redis p)) as [o c1] eqn:Hacq.
  cbn in Hb, Hs1. subst o. set (p1 := p <| p_redis := c1 |>).
  assert (acquire G provider p = (Ret b, p1)) as Ha by (by apply on_redis_run).
  destruct b.
  - assert (wp (RedisCircuitBreaker.allow namespace circuit_policy provider)
      (λ a c2, a = false ∧ ∃ snap', sees namespace provider c2 n snap') (λ _ _, False) c1)
      as (a & c2 & Hal & -> & snap' & Hs2)%wp_total.
    { eapply wp_allow; [exact Hpol|exact Hv|exact Hs1|]. intros c2 [Hc2 _]. split; [done|by eexists]. }
    set (p2 := p1 <| p_redis := c2 |>).
    destruct (note_state_returns namespace circuit_policy provider_settings wait_for_slot asyncio_sleep provider
      p2 (state snap')) as (p3 & Hn & _).
    eexists _, p3. split_and!.
    + intros T call retry. unfold _guarded, _check_rate_limit, _check_circuit, bind. rewrite Ha. cbn [fst snd ret].
      assert (allow G provider p1 = (Ret false, p2)) as -> by (by apply on_redis_run).
      assert (circuit_state G provider p2 = (Ret snap', p2)) as ->
        by (apply (on_redis_run _ p2 _ c2); by eapply state_sees).
      rewrite Hn. reflexivity.
    + done.
    + left.
  - destruct (retry_after_frame namespace provider_settings provider c1) as [w Hw].
    eexists _, p1. split_and!.
    + intros T call retry. unfold _guarded, _check_rate_limit, bind. rewrite Ha.
      assert (retry_after G provider p1 = (Ret w, p1)) as -> by (by apply (on_redis_run _ p1 _ c1)).
      reflexivity.
    + done.
    + right. left.
Qed.

(** No slot leaks. Whatever a guarded call does, returns, raises, is retried or
    is rejected, the provider's slots are afterwards what they were before it,
    provided the other tasks that run while it waits give theirs back. *)
Theorem slots_given_back {T} (call : M exn process T) (retry : bool) (p : process) :
  (∀ d, keeps (slots_back provider_settings provider) (wait_for_slot d)) →
  (∀ d, keeps (slots_back provider_settings provider) (asyncio_sleep d)) →
  keeps (slots_back provider_settings provider) call →
  slot_ok provider_settings provider p →
  p_slots (_guarded G provider call retry p).2 !! provider = p_slots p !! provider.
Proof.
  intros Hw Hsl Hc Hok. apply (guarded_keeps (slots_back provider_settings provider)); [..|done|done].
  - by apply process_guards_slots.
  - intros A body Hb. by apply with_slot_slots.
Qed.

(** The decorator keeps the journal. A guarded call of a calm adapter, the audit
    rows and events of breaker transitions included, leaves the committed tables
    journaled and only grown, whatever the breaker and the limiter answer. *)
Theorem guarded_call_sound {T} (call : H T) (retry : bool) (p : process) :
  (∀ d, keeps world_sound (wait_for_slot d)) → (∀ d, keeps world_sound (asyncio_sleep d)) →
  calm call → Journaled (db (p_world p)) →
  let p' := (_guarded G provider (on_world call) retry p).2 in
  sound (p_world p) (p_world p') ∧ sess (p_world p') = sess (p_world p).
Proof.
  intros Hw Hsl Hc Hj. apply (guarded_keeps world_sound); [..|by apply on_world_sound|done].
  - by apply process_guards_world.
  - intros A body Hb. apply with_slot_keeps; [apply _|by apply enter_bulkhead_world|apply leave_bulkhead_world|done].
Qed.
End Process.

(** A counter for a state, guards that always admit, and an adapter that times
    out every time. *)
Definition open_guards : Guards Z := {|
  acquire _ := ret true;
  retry_after _ := ret 0%Q;
  allow _ := ret true;
  circuit_state _ := ret closed_snapshot;
  record_success _ := ret CircuitState.CLOSED;
  record_failure _ := ret CircuitState.CLOSED;
  slot_enter _ := ret tt;
  slot_exit _ := ret tt;
  get_last_state _ _ := CircuitState.CLOSED;
  set_last_state _ _ s := s;
  on_circuit_change := None;
  sleep _ := ret tt;
|}.
Definition timing_out (command : CreateProviderOperationCommand) : M exn Z ProviderOperationResult := λ s,
  (Raise (EDomain (provider_error ErrorClass.ProviderTimeoutError "timeout" "cobalt" no_kwargs)), s + 1).
Lemma open_guards_keep : guards_keep (same_calls id) open_guards "cobalt".
Proof. split; cbn; try (intros; keeps_go); done. Qed.

(** A provider that does not collapse duplicates. *)
Definition plain_descriptor : ProviderDescriptor :=
  mk_descriptor "cobalt" "Cobalt" "api_key" true [OperationType.ACCESS_GRANT] true true false "hmac" 4 3 10.
Definition sample_create_command : CreateProviderOperationCommand :=
  mk_create_cmd 7 "cobalt" OperationType.ACCESS_GRANT "ext" [] "corr" "key" 1.

Lemma create_call_budget_witness :
  let s' := (create_operation open_guards "cobalt" plain_descriptor timing_out sample_create_command 0).2 in
  0 ≤ s' ≤ 0 + (if d_supports_provider_idempotency plain_descriptor then 2 else 1) ∧
  ((acquire open_guards "cobalt" 0).1 = Ret false → s' = 0) ∧
  (∀ s1, acquire open_guards "cobalt" 0 = (Ret true, s1) → (allow open_guards "cobalt" s1).1 = Ret false → s' = 0).
Proof.
  apply (create_call_budget id open_guards "cobalt" plain_descriptor timing_out sample_create_command 0).
  - apply open_guards_keep.
  - intros s. reflexivity.
  - intros s. reflexivity.
  - intros s. reflexivity.
Defined.

(** A process whose breaker has just opened. *)
#[local] Existing Instance MemoryRedis.memory_ok.
#[local] Abbreviation memory_process := (@process MemoryRedis.memory).
Definition blocked_client : @redis_client MemoryRedis.memory :=
  at_time (total_seconds 1)
    (at_times (RedisCircuitBreaker.record_failure "io" BreakerTheorems.sample_circuit_policy "cobalt") [0; 0]
       BreakerTheorems.fresh_client).2.
Definition blocked_process : memory_process :=
  mk_process blocked_client (ProviderBulkhead.init LimiterTheorems.sample_settings) ∅
    (mk_world empty_tables (open_session empty_tables) 0 0 0).
Definition no_wait (d : Q) : M exn memory_process unit := ret tt.

Lemma blocked_sees : sees "io" "cobalt" blocked_client 1 BreakerTheorems.tripped_snapshot.
Proof.
  split_and!; [reflexivity|reflexivity|].
  exists (hgetall (Keys.circuit "io" "cobalt") (rc_now blocked_client) (rc_server blocked_client)).
  split; [vm_compute; reflexivity|].
  split; first [left; vm_compute; reflexivity | exists 0; split; vm_compute; reflexivity |
                intros _; split; [by eexists|reflexivity]].
Qed.

Lemma open_circuit_shields_witness :
  ∃ d p', (∀ T (call : M exn memory_process T) retry,
      _guarded (process_guards "io" BreakerTheorems.sample_circuit_policy LimiterTheorems.sample_settings no_wait no_wait)
        "cobalt" call retry blocked_process = (Raise (EDomain d), p')) ∧
    retryable d = true ∧ cls d ∈ [ErrorClass.CircuitOpenError; ErrorClass.ProviderRateLimitError].
Proof.
  apply (open_circuit_shields "io" BreakerTheorems.sample_circuit_policy LimiterTheorems.sample_settings no_wait no_wait
    "cobalt" blocked_process 1 BreakerTheorems.tripped_snapshot BreakerTheorems.default_policy).
  - reflexivity.
  - apply BreakerTheorems.default_policy_valid.
  - apply blocked_sees.
  - vm_compute. reflexivity.
Defined.

Lemma slots_given_back_witness :
  p_slots (_guarded (process_guards "io" BreakerTheorems.sample_circuit_policy LimiterTheorems.sample_settings no_wait no_wait)
    "cobalt" (raise (A := unit) (EOther "boom")) true blocked_process).2 !! "cobalt" = p_slots blocked_process !! "cobalt".
Proof.
  apply (slots_given_back "io" BreakerTheorems.sample_circuit_policy LimiterTheorems.sample_settings no_wait no_wait
    "cobalt" (raise (EOther "boom")) true blocked_process).
  - intros d p _. reflexivity.
  - intros d p _. reflexivity.
  - intros p _. reflexivity.
  - vm_compute. split; discriminate.
Defined.

Lemma guarded_call_sound_witness :
  let p' := (_guarded (process_guards "io" BreakerTheorems.sample_circuit_policy LimiterTheorems.sample_settings no_wait no_wait)
    "cobalt" (on_world (ret tt)) true blocked_process).2 in
  sound (p_world blocked_process) (p_world p') ∧ sess (p_world p') = sess (p_world blocked_process).
Proof.
  apply (guarded_call_sound "io" BreakerTheorems.sample_circuit_policy LimiterTheorems.sample_settings no_wait no_wait
    "cobalt" (ret tt) true blocked_process).
  - intros d p. reflexivity.
  - intros d p. reflexivity.
  - apply calm_ret.
  - apply journaled_empty.
Defined.
End ResilientTheorems.
