(* ===== verification/Transport.v ===== *)
(** Talking HTTP to a provider: classification of failures
    ([infrastructure/providers/errors.py]), authentication
    ([infrastructure/providers/auth.py], [application/ports/security.py]), the
    client every adapter calls through ([infrastructure/providers/http.py]) and
    the token cache ([infrastructure/redis/token_cache.py],
    [infrastructure/security/token_crypto.py]).

    The network is an interface ([Net]) over any state: httpx, the clocks and the
    correlation id of the context. An [httpx.HTTPError] is a value on the left of
    what the client answers; anything else it raises propagates. *)

From S2P Require Import Prelude PyData PyTime PyText PyDates JsonText Sha256 Enums Errors.
From S2P Require Import ValueObjects Policies Redis RateLimiter Coordination.

(** * httpx *)

(** The branches of [httpx.HTTPError] that the code tells apart, with the name of
    the class. *)
Inductive http_error : Type :=
  | TimeoutException (name : string)
  | TransportError (name : string)
  | OtherHTTPError (name : string).
Definition error_name (e : http_error) : string :=
  match e with TimeoutException n => n | TransportError n => n | OtherHTTPError n => n end.

Record http_request := mk_http_request {
  hq_method : string;
  hq_url : string;
  hq_json : option dict;
  hq_form : option (list (string * string));
  hq_headers : list (string * string);
}.
(** Headers as [response.headers.items()] yields them: lower case, one entry for
    each name. *)
Record http_response := mk_http_response {
  rs_status_code : Z;
  rs_headers : list (string * string);
  rs_content : list Z;
}.

(** A dictionary from text to text. *)
Definition text_get (k : string) (d : list (string * string)) : option string :=
  match list_find (λ kv, kv.1 = k) d with Some (_, kv) => Some kv.2 | None => None end.
Fixpoint text_set (k v : string) (d : list (string * string)) : list (string * string) :=
  match d with
  | [] => [(k, v)]
  | (k', v') :: d' => if bool_decide (k' = k) then (k, v) :: d' else (k', v') :: text_set k v d'
  end.
Definition text_update (d e : list (string * string)) : list (string * string) :=
  foldl (λ acc kv, text_set kv.1 kv.2 acc) d e.

Record Net (S : Type) := mk_net {
  client_request : http_request → M exn S (http_error + http_response);
  utc_now : M exn S datetime;
  perf_counter : M exn S Q;
  current_correlation_id : S → option string;
  nested_too_deep : list Z → bool;
}.
Arguments client_request {S}.
Arguments utc_now {S}.
Arguments perf_counter {S}.
Arguments current_correlation_id {S}.
Arguments nested_too_deep {S}.

(** [response.json()]: [None] for a [ValueError], which is every failure of it but
    the [RecursionError] of the interpreter, which depends on the depth of the body
    and of the stack ([nested_too_deep]). *)
Definition RecursionError : exn := EOther "RecursionError: maximum recursion depth exceeded".
Definition response_json {S} (N : Net S) (r : http_response) : outcome exn (option json) :=
  if nested_too_deep N (rs_content r) then Raise RecursionError
  else match loads (rs_content r) with
  | inr v => Ret (Some v)
  | inl Unmodelled => Raise (EOther "a character outside the model")
  | inl _ => Ret None
  end.

(** * The configuration of one provider *)

Module AuthenticationType.
Inductive t := API_KEY | OAUTH2_CLIENT_CREDENTIALS.
Definition value (a : t) : string :=
  match a with API_KEY => "api_key" | OAUTH2_CLIENT_CREDENTIALS => "oauth2_client_credentials" end.
End AuthenticationType.

(** The fields of [ProviderSettings] that adapters and their client read. *)
Record ProviderSettings := mk_provider_settings {
  ps_enabled : bool;
  ps_display_name : string;
  ps_authentication_type : AuthenticationType.t;
  ps_base_url : string;
  ps_client_id : option string;
  ps_client_secret : option string;
  ps_oauth_token_url : option string;
  ps_oauth_scope : option string;
  ps_api_key : option string;
  ps_webhook_secret : option string;
  ps_webhook_public_key : option string;
  ps_total_timeout_seconds : Q;
  ps_max_attempts : Z;
  ps_max_concurrency : Z;
  ps_token_refresh_leeway_seconds : Z;
}.

(** * Classification *)

Definition RETRYABLE_STATUS_CODES : list Z := [429; 502; 503; 504].
Definition NON_RETRYABLE_STATUS_CODES : list Z := [400; 401; 403; 404; 409; 422].
Definition _MAX_ERROR_MESSAGE_LENGTH : nat := 500.

Definition _truncate (v : option string) : option string := Str.take _MAX_ERROR_MESSAGE_LENGTH <$> v.

Section Errors.
Context (py_repr : json → string) {S : Type} (N : Net S).

Definition _stringify (v : json) : option string := optional_str py_repr v.

(** Code and message, from the several shapes providers use. *)
Definition _extract_provider_error (r : http_response) : outcome exn (option string * option string) :=
  match response_json N r with
  | Raise e => Raise e
  | Ret (Some (JObj body)) =>
      Ret (match get_item "error" body with
           | JObj error =>
               (_stringify (json_or (get_item "code" error) (get_item "type" error)),
                _truncate (_stringify (json_or (get_item "message" error) (get_item "detail" error))))
           | error =>
               (_stringify (json_or (json_or (get_item "code" body) (get_item "error_code" body))
                              (get_item "errorCode" body)),
                _truncate (_stringify (json_or (json_or (json_or (get_item "message" body) (get_item "detail" body))
                              (get_item "error_description" body))
                              (match error with JStr _ => error | _ => JNull end))))
           end)
  | Ret _ => Ret (None, None)
  end.

(** [max(0.0, x)], which is [0.0] for NaN. *)
Definition at_least_zero (q : Q) : Q := Qmaxb 0 q.
(** Not among the errors that [parse_retry_after] catches. *)
Definition DateOverflow : exn := EOther "OverflowError: Python int too large to convert to C int".
Definition parse_retry_after (v : option string) : M exn S (option Q) :=
  match v with
  | None => ret None
  | Some v =>
      if negb (Str.truthy v) then ret None
      else
        let stripped := Str.strip v in
        match Num.float stripped with
        | Some (Some seconds) => ret (Some (at_least_zero seconds))
        | Some None => ret (Some 0%Q)
        | None =>
            match MailDate.parsedate_to_datetime stripped with
            | MailDate.NoDate => ret None
            | MailDate.Overflows => raise DateOverflow
            | MailDate.Date when =>
                let when := if is_aware when then when else mk_datetime (wall_us when) (Some 0) in
                let* now := utc_now N in
                match dt_sub when now with
                | Some us => ret (Some (at_least_zero (total_seconds us)))
                | None => raise (ETypeError "can't subtract offset-naive and offset-aware datetimes")
                end
            end
        end
  end.

(** The status decides the class, and whether a later attempt may help. *)
Definition classify_response (response : http_response) (provider : string) (correlation_id : option string) :
    M exn S domain_error :=
  let status := rs_status_code response in
  let* (provider_code, message) := lift (_extract_provider_error response) in
  let* retry_after := parse_retry_after (text_get "retry-after" (rs_headers response)) in
  let k := no_kwargs <| k_provider_code := provider_code |> <| k_correlation_id := correlation_id |>
             <| k_metadata := [("http_status", JInt status)] |> in
  ret (
    if status =? 429 then
      provider_error ErrorClass.ProviderRateLimitError (or_else message "the provider applied rate limiting") provider
        (k <| k_retry_after_seconds := retry_after |>)
    else if status =? 401 then
      provider_error ErrorClass.ProviderAuthenticationError (or_else message "the provider rejected our credentials")
        provider k
    else if status =? 403 then
      provider_error ErrorClass.ProviderAuthenticationError
        (or_else message "the provider denied access to this operation") provider k
    else if status =? 404 then
      provider_error ErrorClass.ProviderNotFoundError
        (or_else message "the provider does not recognise this operation") provider k
    else if bool_decide (status ∈ [400; 409; 422]) then
      provider_error ErrorClass.ProviderValidationError (or_else message "the provider rejected the request") provider k
    else if bool_decide (status ∈ RETRYABLE_STATUS_CODES) then
      provider_error ErrorClass.ProviderUnavailableError
        (or_else message ("the provider returned a transient error (" +:+ pretty status +:+ ")")) provider
        (k <| k_retry_after_seconds := retry_after |>)
    else
      provider_error ErrorClass.ProviderUnavailableError
        (or_else message ("the provider returned an unexpected status (" +:+ pretty status +:+ ")")) provider
        (k <| k_retryable := Some (negb (bool_decide (status ∈ [500; 501; 505]))) |>)).
End Errors.

Definition classify_transport_error (e : http_error) (provider : string) (correlation_id : option string) : domain_error :=
  let k := no_kwargs <| k_correlation_id := correlation_id |>
             <| k_metadata := [("transport_error", JStr (error_name e))] |> in
  match e with
  | TimeoutException _ =>
      provider_error ErrorClass.ProviderTimeoutError "the provider did not respond within its timeout budget" provider k
  | TransportError _ =>
      provider_error ErrorClass.ProviderUnavailableError "the provider could not be reached" provider k
  | OtherHTTPError _ =>
      provider_error ErrorClass.ProviderUnavailableError "the provider call failed unexpectedly" provider
        (k <| k_retryable := Some false |>)
  end.

(** * Tokens *)

(** [CachedToken]; the token and its type are what the provider's JSON held. *)
Record CachedToken := mk_token {
  tk_value : json;
  tk_expires_at : datetime;
  tk_token_type : json;
}.
Definition is_fresh (t : CachedToken) (now : datetime) (leeway_seconds : Z) : outcome exn bool :=
  match dt_sub (tk_expires_at t) now with
  | Some us => Ret (negb (Qle_bool (total_seconds us) (inject_Z leeway_seconds)))
  | None => Raise (ETypeError "can't subtract offset-naive and offset-aware datetimes")
  end.
Definition authorization_header (py_repr : json → string) (t : CachedToken) : string :=
  py_str py_repr (tk_token_type t) +:+ " " +:+ py_str py_repr (tk_value t).

(** What a client of the cache and of the lock manager relies on. *)
Record TokenCache (S : Type) := mk_token_cache {
  cache_get : string → M exn S (option CachedToken);
  cache_set : string → CachedToken → M exn S unit;
  cache_invalidate : string → M exn S unit;
}.
Arguments cache_get {S}.
Arguments cache_set {S}.
Arguments cache_invalidate {S}.
(** [async with locks.lock(resource, ttl, wait) as acquired: body] *)
Record LockManager (S : Type) := mk_lock_manager {
  with_lock : string → Q → Q → ∀ A : Type, (bool → M exn S A) → M exn S A;
}.
Arguments with_lock {S} _ _ _ _ {A}.

(** * Authentication *)

Record Authenticator (S : Type) := mk_authenticator {
  auth_headers : M exn S (list (string * string));
  auth_invalidate : M exn S unit;
  can_refresh : bool;
}.
Arguments auth_headers {S}.
Arguments auth_invalidate {S}.
Arguments can_refresh {S}.

Definition _REFRESH_LOCK_WAIT_SECONDS : Q := 3.
Definition _REFRESH_LOCK_TTL_SECONDS : Q := 15.
Definition _DEFAULT_TOKEN_LIFETIME_SECONDS : Z := 3600.

(** [int(v)] *)
Definition int_of (v : json) : outcome exn Z :=
  match v with
  | JInt z => Ret z
  | JBool b => Ret (if b then 1 else 0)
  | JFloat q => if Qle_bool Num.infinity q || Qle_bool q (- Num.infinity)
                then Raise (EOther "OverflowError: cannot convert float infinity to integer")
                else Ret (Z.quot (Qnum q) (Zpos (Qden q)))
  | JStr s => match Num.int s with
              | Some z => Ret z
              | None => Raise (EValueError "invalid literal for int() with base 10")
              end
  | _ => Raise (ETypeError "int() argument must be a string, a bytes-like object or a real number")
  end.
(** [now + timedelta(seconds=n)] *)
Definition after_seconds (now : datetime) (n : Z) : outcome exn datetime :=
  let d := dt_add now (n * us_per_second) in
  if (0 <=? wall_us d) && (wall_us d <? 3652059 * 86400000000) then Ret d
  else Raise (EOther "OverflowError: date value out of range").

Module ApiKeyAuthenticator.
Definition init {S} (slug : string) (config : ProviderSettings) (header : string) : outcome exn (Authenticator S) :=
  match ps_api_key config with
  | None => Raise (EDomain (provider_error ErrorClass.ProviderAuthenticationError
      "no API key is configured for this provider" slug no_kwargs))
  | Some api_key => Ret {| auth_headers := ret [(header, api_key)]; auth_invalidate := ret tt; can_refresh := false |}
  end.
End ApiKeyAuthenticator.

Module OAuth2ClientCredentialsAuthenticator.
Section OAuth2.
Context {S : Type} (py_repr : json → string) (N : Net S) (cache : TokenCache S) (locks : LockManager S).
Context (slug : string) (config : ProviderSettings) (token_url client_id client_secret : string).

Definition auth_error (msg : string) (k : kwargs) : exn :=
  EDomain (provider_error ErrorClass.ProviderAuthenticationError msg slug k).

Definition token_form : list (string * string) :=
  [("grant_type", "client_credentials"); ("client_id", client_id); ("client_secret", client_secret)] ++
  match ps_oauth_scope config with
  | Some scope => if Str.truthy scope then [("scope", scope)] else []
  | None => []
  end.

Definition _request_token : M exn S CachedToken :=
  let* answer := client_request N (mk_http_request "POST" token_url None (Some token_form)
                                     [("Accept", "application/json")]) in
  match answer with
  | inl e => raise (auth_error "could not reach the provider token endpoint"
      (no_kwargs <| k_retryable := Some true |> <| k_metadata := [("transport_error", JStr (error_name e))] |>))
  | inr response =>
      if negb (rs_status_code response =? 200) then
        raise (auth_error "the provider rejected our client credentials"
          (no_kwargs <| k_metadata := [("http_status", JInt (rs_status_code response))] |>))
      else
        let* parsed := lift (response_json N response) in
        match parsed with
        | Some (JObj body) =>
            match dict_get "access_token" body with
            | Some access_token =>
                let* expires_in := lift (int_of (default (JInt _DEFAULT_TOKEN_LIFETIME_SECONDS) (dict_get "expires_in" body))) in
                let* now := utc_now N in
                let* expires_at := lift (after_seconds now expires_in) in
                ret (mk_token access_token expires_at (default (JStr "Bearer") (dict_get "token_type" body)))
            | None => raise (auth_error "the provider returned a token response we could not parse" no_kwargs)
            end
        | _ => raise (auth_error "the provider returned a token response we could not parse" no_kwargs)
        end
  end.

Definition _fetch_and_cache : M exn S CachedToken :=
  let* token := _request_token in
  cache_set cache slug token ;;;
  ret token.

(** [cached is not None and cached.is_fresh(now=..., leeway_seconds=...)] *)
Definition fresh_cached : M exn S (option CachedToken) :=
  let* cached := cache_get cache slug in
  match cached with
  | None => ret None
  | Some t =>
      let* now := utc_now N in
      let* fresh := lift (is_fresh t now (ps_token_refresh_leeway_seconds config)) in
      ret (if fresh : bool then Some t else None)
  end.

Definition _acquire_token : M exn S CachedToken :=
  let* cached := fresh_cached in
  match cached with
  | Some t => ret t
  | None =>
      with_lock locks ("token-refresh:" +:+ slug) _REFRESH_LOCK_TTL_SECONDS _REFRESH_LOCK_WAIT_SECONDS (λ acquired,
        if negb acquired then
          let* recheck := fresh_cached in
          match recheck with
          | Some t => ret t
          | None => _fetch_and_cache
          end
        else
          let* recheck := fresh_cached in
          match recheck with
          | Some t => ret t
          | None => _fetch_and_cache
          end)
  end.

Definition headers : M exn S (list (string * string)) :=
  let* token := _acquire_token in
  ret [("Authorization", authorization_header py_repr token)].
End OAuth2.

Definition init {S} (py_repr : json → string) (N : Net S) (cache : TokenCache S) (locks : LockManager S)
    (slug : string) (config : ProviderSettings) : outcome exn (Authenticator S) :=
  match ps_oauth_token_url config, ps_client_id config, ps_client_secret config with
  | Some url, Some client_id, Some client_secret =>
      if Str.truthy url then
        Ret {| auth_headers := headers py_repr N cache locks slug config url client_id client_secret;
               auth_invalidate := cache_invalidate cache slug;
               can_refresh := true |}
      else Raise (auth_error slug "OAuth2 client credentials are not fully configured for this provider" no_kwargs)
  | _, _, _ => Raise (auth_error slug "OAuth2 client credentials are not fully configured for this provider" no_kwargs)
  end.
End OAuth2ClientCredentialsAuthenticator.

Definition build_authenticator {S} (py_repr : json → string) (N : Net S) (cache : TokenCache S) (locks : LockManager S)
    (slug : string) (config : ProviderSettings) (api_key_header : string) : outcome exn (Authenticator S) :=
  match ps_authentication_type config with
  | AuthenticationType.OAUTH2_CLIENT_CREDENTIALS =>
      OAuth2ClientCredentialsAuthenticator.init py_repr N cache locks slug config
  | AuthenticationType.API_KEY => ApiKeyAuthenticator.init slug config api_key_header
  end.

(** * The client *)

Definition CORRELATION_HEADER : string := "X-Correlation-Id".
Definition IDEMPOTENCY_HEADER : string := "Idempotency-Key".

Record ProviderResponse := mk_provider_response {
  pr_status_code : Z;
  pr_body : dict;
  pr_headers : list (string * string);
  pr_elapsed_ms : Q;
}.
(** [round(x, 2)] *)
Definition round2 (q : Q) : Q := (round_half_even (q * 100) # 100)%Q.
Definition response_metadata (r : ProviderResponse) : dict :=
  let request_id := or_opt (or_opt (text_get "x-request-id" (pr_headers r)) (text_get "x-correlation-id" (pr_headers r)))
                      (text_get "request-id" (pr_headers r)) in
  [("http_status", JInt (pr_status_code r)); ("latency_ms", JFloat (round2 (pr_elapsed_ms r)))] ++
  match request_id with
  | Some i => if Str.truthy i then [("provider_request_id", JStr i)] else []
  | None => []
  end.

Module ProviderHttpClient.
Section Client.
Context {S : Type} (py_repr : json → string) (N : Net S) (auth : Authenticator S) (slug : string) (config : ProviderSettings).

Definition _send (method url : string) (json_body : option dict) (headers : option (list (string * string)))
    (idempotency_key : option string) : M exn S (http_error + http_response) :=
  let* correlation_id := gets (current_correlation_id N) in
  let h0 := [("Accept", "application/json")] in
  let h1 := match correlation_id with
            | Some c => if Str.truthy c then text_set CORRELATION_HEADER c h0 else h0
            | None => h0
            end in
  let h2 := match idempotency_key with
            | Some k => if Str.truthy k then text_set IDEMPOTENCY_HEADER k h1 else h1
            | None => h1
            end in
  let h3 := match headers with Some h => text_update h2 h | None => h2 end in
  let* auth_headers := auth_headers auth in
  client_request N (mk_http_request method url json_body None (text_update h3 auth_headers)).

Definition _parse_body (response : http_response) : M exn S dict :=
  if (rs_status_code response =? 204) || bool_decide (rs_content response = []) then ret []
  else
    let* correlation_id := gets (current_correlation_id N) in
    let k := no_kwargs <| k_correlation_id := correlation_id |>
               <| k_metadata := [("http_status", JInt (rs_status_code response))] |> in
    let* parsed := lift (response_json N response) in
    match parsed with
    | None => raise (EDomain (provider_error ErrorClass.ProviderResponseError
        "the provider returned a body that is not valid JSON" slug k))
    | Some (JObj body) => ret body
    | Some _ => raise (EDomain (provider_error ErrorClass.ProviderResponseError
        "the provider returned a JSON value that is not an object" slug k))
    end.

Definition request (method path : string) (json_body : option dict) (headers : option (list (string * string)))
    (idempotency_key : option string) : M exn S ProviderResponse :=
  let url := ps_base_url config +:+ path in
  let* started := perf_counter N in
  let* first := _send method url json_body headers idempotency_key in
  let* answer := match first with
                 | inr response =>
                     if (rs_status_code response =? 401) && can_refresh auth then
                       auth_invalidate auth ;;;
                       _send method url json_body headers idempotency_key
                     else ret first
                 | inl _ => ret first
                 end in
  let* correlation_id := gets (current_correlation_id N) in
  match answer with
  | inl e => raise (EDomain (classify_transport_error e slug correlation_id))
  | inr response =>
      let* finished := perf_counter N in
      if 400 <=? rs_status_code response then
        let* e := classify_response py_repr N response slug correlation_id in
        raise (EDomain e)
      else
        let* body := _parse_body response in
        ret (mk_provider_response (rs_status_code response) body
               (map (λ kv, (Str.lower kv.1, kv.2)) (rs_headers response)) ((finished - started) * 1000))
  end.
End Client.
End ProviderHttpClient.

(** * The shared token cache *)

Definition _MAX_CACHE_SECONDS : Z := 3600.

Section TokenCrypto.
(** [Fernet.encrypt] as text and [Fernet.decrypt], [None] for [InvalidToken]. *)
Context (encrypt : list Z → string) (decrypt : string → option (list Z)).

Definition encrypt_token_value (v : json) : outcome exn string :=
  match v with
  | JStr s => Ret (encrypt (utf8 s))
  | _ => Raise (EOther "AttributeError: no attribute 'encode'")
  end.
Definition decrypt_token_value (ciphertext : json) : outcome exn (option string) :=
  match ciphertext with
  | JStr s =>
      if negb (Text.isascii s) then Ret None
      else match decrypt s with
           | None => Ret None
           | Some bytes =>
               match Utf8.decode false bytes with
               | None => Ret None
               | Some codes => match Utf8.text codes with
                               | Some t => Ret (Some t)
                               | None => Raise (EOther "a character outside the model")
                               end
               end
           end
  | _ => Raise (EOther "AttributeError: no attribute 'encode'")
  end.

(** What a cached entry says: [Ret None] when it cannot be decrypted. *)
Definition decode_entry (raw : string) : outcome exn (option CachedToken) :=
  match loads_text raw with
  | inl Unmodelled => Raise (EOther "a character outside the model")
  | inl _ => Raise (EValueError "JSONDecodeError")
  | inr (JObj data) =>
      match dict_get "value" data with
      | None => Raise (EKeyError "value")
      | Some ciphertext =>
          match decrypt_token_value ciphertext with
          | Raise e => Raise e
          | Ret None => Ret None
          | Ret (Some plaintext) =>
              match dict_get "expires_at" data with
              | None => Raise (EKeyError "expires_at")
              | Some (JStr text) =>
                  match Iso8601.fromisoformat text with
                  | None => Raise (EValueError "Invalid isoformat string")
                  | Some at_ => Ret (Some (mk_token (JStr plaintext) at_
                                  (default (JStr "Bearer") (dict_get "token_type" data))))
                  end
              | Some _ => Raise (ETypeError "fromisoformat: argument must be str")
              end
          end
      end
  | inr _ => Raise (ETypeError "indices must be integers or slices, not str")
  end.
End TokenCrypto.

(** [except (json.JSONDecodeError, KeyError, TypeError, ValueError)] *)
Definition malformed (e : exn) : bool :=
  match e with EValueError _ | EKeyError _ | ETypeError _ => true | _ => false end.

Module RedisTokenCache.
Section Cache.
Context `{Redis} (namespace : string).
Context (encrypt : list Z → string) (decrypt : string → option (list Z)) (float_repr : Q → string).

(** [datetime.now(tz=UTC)] *)
Definition client_now (c : redis_client) : datetime := utc (round_half_even (rc_now c * 1000000)).
(** [GET key]; a key of another type is a [RedisError]. *)
Definition get_text (key : string) : M exn redis_client (option string) :=
  let* e := command (λ t s, (entry s t key, s)) in
  match e with
  | None => ret None
  | Some (RText v, _) => ret (Some v)
  | Some (RHash _, _) => raise RedisError
  end.

Definition invalidate (provider : string) : M exn redis_client unit :=
  or_on_outage (command (λ t s, (tt, del t (Keys.token namespace provider) s))) tt.

Definition get (provider : string) : M exn redis_client (option CachedToken) :=
  let* raw := or_on_outage (get_text (Keys.token namespace provider)) None in
  match raw with
  | None => ret None
  | Some raw =>
      match decode_entry decrypt raw with
      | Ret (Some t) => ret (Some t)
      | Ret None => invalidate provider ;;; ret None
      | Raise e => if malformed e then invalidate provider ;;; ret None else raise e
      end
  end.

Definition entry_text (ciphertext : string) (token : CachedToken) : string :=
  print float_repr " " (JObj [("value", JStr ciphertext);
                              ("expires_at", JStr (isoformat (tk_expires_at token)));
                              ("token_type", tk_token_type token)]).
Definition set (provider : string) (token : CachedToken) : M exn redis_client unit :=
  let* now := gets client_now in
  match dt_sub (tk_expires_at token) now with
  | None => raise (ETypeError "can't subtract offset-naive and offset-aware datetimes")
  | Some us =>
      let ttl := Z.quot us us_per_second in
      if ttl <=? 0 then ret tt
      else
        let* ciphertext := lift (encrypt_token_value encrypt (tk_value token)) in
        or_on_outage (command (λ t s, (tt, set_ex t (Keys.token namespace provider) (entry_text ciphertext token)
                                             (Z.min ttl _MAX_CACHE_SECONDS) s))) tt
  end.

Definition cache : TokenCache redis_client :=
  {| cache_get := get; cache_set := set; cache_invalidate := invalidate |}.
End Cache.
End RedisTokenCache.

(** [RedisLockManager]: each lock has a token of its own. *)
Module RedisLockManager.
Section Locks.
Context `{Redis} (namespace : string) (sleep : Q → M exn redis_client unit) (token : string).
Definition lock (resource : string) (ttl wait : Q) (A : Type) (body : bool → M exn redis_client A) :
    M exn redis_client A :=
  let key := Keys.lock namespace resource in
  let* acquired := RedisLock._acquire sleep key ttl wait false token (RedisLock.enough_polls wait) in
  match acquired with
  | None => raise (EOther "the poll loop did not end")
  | Some held => λ c,
      let '(o, c') := body held c in
      match RedisLock.aexit key token held c' with
      | (Ret _, c'') => (o, c'')
      | (Raise e, c'') => (Raise e, c'')
      end
  end.
Definition manager : LockManager redis_client := {| with_lock := lock |}.
End Locks.
End RedisLockManager.
