(* ===== verification/TransportFacts.v ===== *)
(** What the HTTP layer promises to the adapters above it: which errors escape
    it, how failures are classified, how often it sends, and which token it
    sends with. *)

From S2P Require Import Prelude PyData PyTime PyText PyDates JsonText Sha256 Enums Errors.
From S2P Require Import ValueObjects Policies Redis RateLimiter Coordination Resilient Transport.

(** * The network *)

(** The clocks answer, the current time has a zone, and the client raises nothing
    but [httpx.HTTPError] and answers with text of the model. *)
Class NetOk {S} (N : Net S) : Prop := {
  utc_now_ok s : ∃ d s', utc_now N s = (Ret d, s') ∧ is_aware d = true;
  perf_counter_ok s : ∃ q s', perf_counter N s = (Ret q, s');
  client_answers q s : ∃ a s', client_request N q s = (Ret a, s');
  client_modelled q s r s' : client_request N q s = (Ret (inr r), s') → loads (rs_content r) ≠ inl Unmodelled;
}.

(** A computation that raises nothing but [X]. *)
Definition raises_only {S A} (X : exn → Prop) (m : M exn S A) : Prop := ∀ s, wp m (λ _ _, True) (λ e _, X e) s.

(** What an answer can provoke that is not turned into a provider error: a body
    that is nested too deep, and a date in Retry-After with a field that is no C
    integer. *)
Definition unclassified (e : exn) : Prop := e = RecursionError ∨ e = DateOverflow.
Definition hint_overflows (v : option string) : bool :=
  match v with
  | Some v => Str.truthy v && bool_decide (Num.float (Str.strip v) = None) &&
              match MailDate.parsedate_to_datetime (Str.strip v) with MailDate.Overflows => true | _ => false end
  | None => false
  end.
Definition escapes {S} (N : Net S) (response : http_response) : option exn :=
  if nested_too_deep N (rs_content response) then Some RecursionError
  else if hint_overflows (text_get "retry-after" (rs_headers response)) then Some DateOverflow
  else None.
(** The errors of a call whose authenticator raises nothing but [A]. *)
Definition call_error (A : exn → Prop) (e : exn) : Prop :=
  isinstance e ErrorClass.ProviderError = true ∨ A e ∨ unclassified e.

Section Errors.
Context {S : Type} (N : Net S) {HN : NetOk N} (py_repr : json → string).

Lemma response_json_ok r : loads (rs_content r) ≠ inl Unmodelled →
  if nested_too_deep N (rs_content r) then response_json N r = Raise RecursionError else ∃ v, response_json N r = Ret v.
Proof. unfold response_json. destruct (nested_too_deep N _), (loads _) as [[]|v]; try done; by eexists. Qed.
Lemma extract_ok r : loads (rs_content r) ≠ inl Unmodelled →
  if nested_too_deep N (rs_content r) then _extract_provider_error py_repr N r = Raise RecursionError
  else ∃ p, _extract_provider_error py_repr N r = Ret p.
Proof.
  intros Hr. pose proof (response_json_ok r Hr) as H. unfold _extract_provider_error.
  destruct (nested_too_deep N _); [by rewrite H|]. destruct H as [[[]|] ->]; by eexists.
Qed.

Lemma at_least_zero_nonneg q : (0 <= at_least_zero q)%Q.
Proof. unfold at_least_zero. by destruct (Qmaxb_spec 0 q) as (? & _). Qed.

Lemma parse_retry_after_ok v s :
  if hint_overflows v then parse_retry_after N v s = (Raise DateOverflow, s)
  else ∃ r s', parse_retry_after N v s = (Ret r, s') ∧ ∀ q, r = Some q → (0 <= q)%Q.
Proof.
  assert (∀ r : option Q, (∀ q, r = Some q → (0 <= q)%Q) →
    ∃ r' s', ret (E := exn) r s = (Ret r', s') ∧ ∀ q, r' = Some q → (0 <= q)%Q) as Hret
    by (intros r Hr; exists r, s; by split).
  unfold parse_retry_after, hint_overflows. destruct v as [v|]; [|by apply Hret].
  destruct (Str.truthy v); cbn [negb andb]; [|by apply Hret].
  destruct (Num.float _) as [[q|]|]; rewrite ?(bool_decide_true (None = None)), ?(bool_decide_false (Some _ = None)) by done; cbn [andb].
  - apply Hret. intros ? [= <-]. apply at_least_zero_nonneg.
  - apply Hret. intros ? [= <-]. apply Qle_refl.
  - destruct (MailDate.parsedate_to_datetime _) as [d| |]; [|by apply Hret|done].
    destruct (utc_now_ok s) as (now & s' & Hnow & Haware). unfold bind. rewrite Hnow.
    set (when := if is_aware d then d else _).
    assert (is_aware when = true) as Hwhen by (unfold when; by destruct (is_aware d) eqn:Hd).
    rewrite dt_sub_aware by done. do 2 eexists. split; [reflexivity|].
    intros ? [= <-]. apply at_least_zero_nonneg.
Qed.
End Errors.

(** How a status is classified. *)
Definition deterministic_statuses : list Z := NON_RETRYABLE_STATUS_CODES ++ [500; 501; 505].
Definition class_of_status (status : Z) : ErrorClass.t :=
  if status =? 429 then ErrorClass.ProviderRateLimitError
  else if bool_decide (status ∈ [401; 403]) then ErrorClass.ProviderAuthenticationError
  else if status =? 404 then ErrorClass.ProviderNotFoundError
  else if bool_decide (status ∈ [400; 409; 422]) then ErrorClass.ProviderValidationError
  else ErrorClass.ProviderUnavailableError.

(** The facts about a classified error. *)
Record classified (provider : string) (status : Z) (e : domain_error) : Prop := {
  cl_class : cls e = class_of_status status;
  cl_retryable : retryable e = negb (bool_decide (status ∈ deterministic_statuses));
  cl_provider : err_provider e = Some provider;
  cl_hint q : retry_after_seconds e = Some q → status ∈ RETRYABLE_STATUS_CODES ∧ (0 <= q)%Q;
  cl_metadata : metadata e = [("http_status", JInt status)];
}.

Lemma in_list_dec (x : Z) (l : list Z) : {x ∈ l} + {x ∉ l}.
Proof. apply decide, _. Defined.

Lemma classified_provider provider status e :
  classified provider status e → isinstance (EDomain e) ErrorClass.ProviderError = true.
Proof.
  intros [Hc _ _ _ _]. cbn. rewrite Hc. unfold class_of_status.
  repeat case_match; reflexivity.
Qed.

Ltac decide_status :=
  repeat match goal with
    | |- context [?a =? ?b] => destruct (Z.eqb_spec a b)
    | |- context [bool_decide (?x ∈ ?l)] => destruct (bool_decide_reflect (x ∈ l))
    end.

Section Classify.
Context {S : Type} (N : Net S) {HN : NetOk N} (py_repr : json → string).

Lemma classify_response_ok response provider corr s :
  loads (rs_content response) ≠ inl Unmodelled →
  match escapes N response with
  | Some e => classify_response py_repr N response provider corr s = (Raise e, s)
  | None => ∃ e s', classify_response py_repr N response provider corr s = (Ret e, s') ∧
      classified provider (rs_status_code response) e
  end.
Proof.
  intros Hr. unfold classify_response, escapes, bind, lift. pose proof (extract_ok N py_repr response Hr) as Hx.
  destruct (nested_too_deep N (rs_content response)); [by rewrite Hx|]. destruct Hx as [[code message] ->].
  pose proof (parse_retry_after_ok N (text_get "retry-after" (rs_headers response)) s) as Ht.
  destruct (hint_overflows _); [by rewrite Ht|]. destruct Ht as (ra & s' & -> & Hra).
  do 2 eexists. split; [reflexivity|]. set (status := rs_status_code response). clearbody status.
  destruct (Z.eqb_spec status 429) as [->|H429]; [by split; try done; cbn; intros q Hq; split; [left|auto]|].
  destruct (Z.eqb_spec status 401) as [->|H401]; [by split|].
  destruct (Z.eqb_spec status 403) as [->|H403]; [by split|].
  destruct (Z.eqb_spec status 404) as [->|H404]; [by split|].
  destruct (bool_decide_reflect (status ∈ [400; 409; 422])) as [Hv|Hv].
  { rewrite !elem_of_cons, elem_of_nil in Hv. destruct Hv as [->|[->|[->|[]]]]; by split. }
  assert (class_of_status status = ErrorClass.ProviderUnavailableError) as Hcls.
  { unfold class_of_status. rewrite (proj2 (Z.eqb_neq _ _)) by done.
    rewrite bool_decide_false by (rewrite !elem_of_cons, elem_of_nil; tauto).
    rewrite (proj2 (Z.eqb_neq _ _)) by done. by rewrite bool_decide_false. }
  assert (status ∈ deterministic_statuses ↔ status ∈ [500; 501; 505]) as Hdet.
  { unfold deterministic_statuses, NON_RETRYABLE_STATUS_CODES. set_solver. }
  destruct (bool_decide_reflect (status ∈ RETRYABLE_STATUS_CODES)) as [Ht|Ht].
  - split; [done| |done| |done].
    + cbn. rewrite bool_decide_false; [done|]. rewrite Hdet. unfold RETRYABLE_STATUS_CODES in Ht.
      rewrite !elem_of_cons in Ht. rewrite !elem_of_cons. intros Hd.
      destruct Ht as [->|[->|[->|[->|[]%elem_of_nil]]]]; set_solver.
    + cbn. auto.
  - split; [done| |done|done|done]. cbn. f_equal. by apply bool_decide_ext.
Qed.

Lemma classify_transport_provider e provider corr :
  isinstance (EDomain (classify_transport_error e provider corr)) ErrorClass.ProviderError = true.
Proof. by destruct e. Qed.

Context (auth : Authenticator S) (slug : string) (config : ProviderSettings).
Context (A : exn → Prop) (Hheaders : raises_only A (auth_headers auth)) (Hinvalidate : raises_only A (auth_invalidate auth)).
Lemma escapes_unclassified r e : escapes N r = Some e → unclassified e.
Proof. unfold escapes, unclassified. repeat case_match; intros [= <-]; auto. Qed.

Lemma send_errors method url body headers key s :
  wp (ProviderHttpClient._send N auth method url body headers key)
    (λ a _, ∀ r, a = inr r → loads (rs_content r) ≠ inl Unmodelled) (λ e _, A e) s.
Proof.
  unfold ProviderHttpClient._send. wp_step. wp_step. wp_step. eapply wp_conseq; [apply Hheaders| |done].
  intros h s1 _. unfold wp.
  match goal with |- context [client_request N ?q s1] => destruct (client_answers q s1) as (a & s2 & Ha); rewrite Ha;
    intros r ->; by eapply client_modelled end.
Qed.

Lemma request_errors method path body headers key s :
  wp (ProviderHttpClient.request py_repr N auth slug config method path body headers key)
    (λ r _, pr_status_code r < 400) (λ e _, call_error A e) s.
Proof.
  assert (∀ e, A e → call_error A e) as HA by (unfold call_error; auto).
  unfold ProviderHttpClient.request. wp_step.
  destruct (perf_counter_ok s) as (t0 & s0 & Hp). unfold wp at 1. rewrite Hp.
  wp_step. eapply wp_conseq; [apply send_errors| |by intros e s' ?%HA]. intros first s1 Hfirst.
  wp_step. apply (wp_conseq _ (λ a _, ∀ r, a = inr r → loads (rs_content r) ≠ inl Unmodelled) _
    (λ e _, A e) _); [| |by intros e s' ?%HA].
  { destruct first as [e|r]; [by apply wp_ret|]. destruct (_ && _); [|by apply wp_ret].
    wp_step. eapply wp_conseq; [apply Hinvalidate| |done]. intros [] s2 _. apply send_errors. }
  intros answer s2 Hans. wp_step. wp_step. destruct answer as [e|r].
  - wp_step. left. apply classify_transport_provider.
  - wp_step. destruct (perf_counter_ok s2) as (t1 & s3 & Hp1). unfold wp at 1. rewrite Hp1.
    destruct (Z.leb_spec 400 (rs_status_code r)) as [Hge|Hlt].
    + wp_step. pose proof (classify_response_ok r slug (current_correlation_id N s2) s3 (Hans r eq_refl)) as Hc.
      destruct (escapes N r) as [e|] eqn:Hx; [unfold wp at 1; rewrite Hc; right; right; by eapply escapes_unclassified|].
      destruct Hc as (e & s4 & He & Hcl). unfold wp at 1. rewrite He. wp_step. left. by eapply classified_provider.
    + wp_step. unfold ProviderHttpClient._parse_body. destruct (_ || _); [wp_step; wp_step; done|].
      wp_step. wp_step. wp_step. wp_step. pose proof (response_json_ok N r (Hans r eq_refl)) as Hj.
      destruct (nested_too_deep N _); [rewrite Hj; right; right; by left|]. destruct Hj as [v ->].
      destruct v as [[]|]; repeat wp_step; by try left.
Qed.
End Classify.

(** * How often it sends *)

Section Sends.
Context {S : Type} (calls : S → Z) (N : Net S) (auth : Authenticator S).
(** [calls] counts the requests sent to the provider; tokens are obtained
    elsewhere. *)
Context (Hsend : ∀ q s, hq_form q = None → calls (client_request N q s).2 = calls s + 1).
Context (Hheaders : keeps (same_calls calls) (auth_headers auth)).
Context (Hinvalidate : keeps (same_calls calls) (auth_invalidate auth)).
Context (Hnow : keeps (same_calls calls) (utc_now N)) (Hperf : keeps (same_calls calls) (perf_counter N)).
Context (py_repr : json → string) (slug : string) (config : ProviderSettings).

Lemma send_calls method url body headers key s :
  calls s ≤ calls (ProviderHttpClient._send N auth method url body headers key s).2 ≤ calls s + 1.
Proof.
  unfold ProviderHttpClient._send, bind, gets. pose proof (Hheaders s) as Hh. unfold same_calls in Hh.
  destruct (auth_headers auth s) as [[h|e] s1]; cbn in Hh; [|cbn; lia]. rewrite Hsend by done. lia.
Qed.

Lemma parse_retry_after_keeps v : keeps (same_calls calls) (parse_retry_after N v).
Proof. unfold parse_retry_after. keeps_go. Qed.
Lemma classify_keeps r p c : keeps (same_calls calls) (classify_response py_repr N r p c).
Proof.
  pose proof parse_retry_after_keeps. unfold classify_response. apply keeps_bind; [apply _|by intros s|].
  intros [code message]. keeps_go.
Qed.
Lemma parse_body_keeps r : keeps (same_calls calls) (ProviderHttpClient._parse_body N slug r).
Proof.
  unfold ProviderHttpClient._parse_body. destruct (_ || _); [keeps_go|].
  apply keeps_bind; [apply _|keeps_go|]. intros c. apply keeps_bind; [apply _|by intros s|]. intros v. keeps_go.
Qed.

(** Everything after the answer. *)
Definition finish (started : Q) (answer : http_error + http_response) : M exn S ProviderResponse :=
  let* correlation_id := gets (current_correlation_id N) in
  match answer with
  | inl e => raise (EDomain (classify_transport_error e slug correlation_id))
  | inr response =>
      let* finished := perf_counter N in
      if 400 <=? rs_status_code response then
        let* e := classify_response py_repr N response slug correlation_id in raise (EDomain e)
      else
        let* body := ProviderHttpClient._parse_body N slug response in
        ret (mk_provider_response (rs_status_code response) body
               (map (λ kv, (Str.lower kv.1, kv.2)) (rs_headers response)) ((finished - started) * 1000))
  end.
Lemma finish_keeps started answer : keeps (same_calls calls) (finish started answer).
Proof. pose proof classify_keeps. pose proof parse_body_keeps. unfold finish. keeps_go. Qed.

Lemma request_calls method path body headers key s o s' :
  ProviderHttpClient.request py_repr N auth slug config method path body headers key s = (o, s') →
  calls s ≤ calls s' ≤ calls s + (if can_refresh auth then 2 else 1) ∧
  (∀ t0 s0 a s1, perf_counter N s = (Ret t0, s0) →
     ProviderHttpClient._send N auth method (ps_base_url config +:+ path) body headers key s0 = (Ret a, s1) →
     (∀ r, a = inr r → rs_status_code r ≠ 401) → calls s' ≤ calls s + 1).
Proof.
  unfold ProviderHttpClient.request. unfold bind at 1. pose proof (Hperf s) as Hp. unfold same_calls in Hp.
  assert (1 ≤ if can_refresh auth then 2 else 1) as Hone by (destruct (can_refresh auth); lia).
  destruct (perf_counter N s) as [[t0|e] s0]; cbn [snd] in Hp; [|intros [= _ <-]; split; [lia|done]].
  set (url := ps_base_url config +:+ path).
  pose proof (send_calls method url body headers key s0) as H1. unfold bind at 1.
  destruct (ProviderHttpClient._send N auth method url body headers key s0) as [[first|e] s1] eqn:Hs; cbn [snd] in H1;
    [|intros [= _ <-]; split; [lia|intros; lia]].
  assert (∀ a s2, finish t0 a s2 = (o, s') → calls s' = calls s2) as Hf.
  { intros a s2 Ha. pose proof (finish_keeps t0 a s2) as Hk. unfold same_calls in Hk. by rewrite Ha in Hk. }
  unfold bind at 1.
  destruct first as [e|r].
  - intros Ha%Hf. rewrite Ha. split; [lia|intros; lia].
  - destruct ((rs_status_code r =? 401) && can_refresh auth) eqn:H401.
    + apply andb_true_iff in H401 as [H401%Z.eqb_eq Hc]. rewrite Hc in Hone |- *. intros Hrun. split.
      * revert Hrun. unfold bind at 1. pose proof (Hinvalidate s1) as Hi. unfold same_calls in Hi.
        destruct (auth_invalidate auth s1) as [[[]|e] s2]; cbn [snd] in Hi; [|intros [= _ <-]; lia].
        pose proof (send_calls method url body headers key s2) as H2.
        destruct (ProviderHttpClient._send N auth method url body headers key s2) as [[a|e] s3]; cbn [snd] in H2;
          [|intros [= _ <-]; lia]. intros Ha%Hf. lia.
      * intros ? ? ? ? [= <- <-] Hs' Hr. rewrite Hs in Hs'. injection Hs' as <- <-. by destruct (Hr r).
    + intros Ha%Hf. rewrite Ha. split; [lia|intros; lia].
Qed.
End Sends.

(** * Which token it sends *)

Section Tokens.
Import OAuth2ClientCredentialsAuthenticator.
Context {S : Type} (N : Net S) (cache : TokenCache S) (locks : LockManager S).
Context (slug : string) (config : ProviderSettings) (url client_id client_secret : string).

(** From [s] to [s'], the cache was read and held a token that outlives the leeway
    at the reading of the clock made after that. *)
Definition read_fresh (s : S) (t : CachedToken) (s' : S) : Prop :=
  ∃ s1 now, cache_get cache slug s = (Ret (Some t), s1) ∧ utc_now N s1 = (Ret now, s') ∧
    instant now + ps_token_refresh_leeway_seconds config * us_per_second < instant (tk_expires_at t).
(** From [s] to [s'], the cache was read and held no token, or one that does not. *)
Definition read_nothing (s s' : S) : Prop :=
  cache_get cache slug s = (Ret None, s') ∨
  ∃ t s1 now, cache_get cache slug s = (Ret (Some t), s1) ∧ utc_now N s1 = (Ret now, s') ∧
    instant (tk_expires_at t) ≤ instant now + ps_token_refresh_leeway_seconds config * us_per_second.
(** From [s] to [s'], the provider was asked for a token, issued [t] and it was
    written to the cache. *)
Definition issued_now (s : S) (t : CachedToken) (s' : S) : Prop :=
  ∃ s1, _request_token N slug config url client_id client_secret s = (Ret t, s1) ∧ cache_set cache slug t s1 = (Ret tt, s').
(** From [s] to [s'], under the lock. *)
Definition refreshed (s : S) (t : CachedToken) (s' : S) : Prop :=
  read_fresh s t s' ∨ ∃ s1, read_nothing s s1 ∧ issued_now s1 t s'.

Lemma is_fresh_spec t now leeway b : is_fresh t now leeway = Ret b →
  if b then instant now + leeway * us_per_second < instant (tk_expires_at t)
  else instant (tk_expires_at t) ≤ instant now + leeway * us_per_second.
Proof.
  unfold is_fresh, dt_sub. destruct (Bool.eqb _ _); [|done]. intros [= Hq].
  assert (Qle_bool (total_seconds (instant (tk_expires_at t) - instant now)) (inject_Z leeway) = true ↔
    instant (tk_expires_at t) ≤ instant now + leeway * us_per_second) as Hi.
  { rewrite Qle_bool_iff. unfold total_seconds, inject_Z, Qle. cbn. unfold us_per_second in *. lia. }
  destruct b; [apply negb_true_iff in Hq|apply negb_false_iff in Hq; by apply Hi].
  apply Z.nle_gt. intros Hle%Hi. congruence.
Qed.

Lemma fresh_cached_spec s r s' : fresh_cached N cache slug config s = (Ret r, s') →
  match r with Some t => read_fresh s t s' | None => read_nothing s s' end.
Proof.
  unfold fresh_cached, bind, lift, ret.
  destruct (cache_get cache slug s) as [[[t'|]|e] s1] eqn:Hget; [|by intros [= <- <-]; left|done].
  destruct (utc_now N s1) as [[now|e] s2] eqn:Hnow; [|done].
  destruct (is_fresh t' now (ps_token_refresh_leeway_seconds config)) as [b|e] eqn:Hf; [|done]. apply is_fresh_spec in Hf.
  destruct b; intros [= <- <-]; [by exists s1, now|right; by exists t', s1, now].
Qed.

Lemma recheck_spec s t s' :
  (let* recheck := fresh_cached N cache slug config in
   match recheck with Some t => ret t | None => _fetch_and_cache N cache slug config url client_id client_secret end) s = (Ret t, s') →
  refreshed s t s'.
Proof.
  unfold bind at 1. destruct (fresh_cached N cache slug config s) as [[[t'|]|e] s1] eqn:Hf; [| |done];
    apply fresh_cached_spec in Hf.
  - intros [= <- <-]. by left.
  - unfold _fetch_and_cache, bind.
    destruct (_request_token N slug config url client_id client_secret s1) as [[t'|e] s2] eqn:Hreq; [|done].
    destruct (cache_set cache slug t' s2) as [[[]|e] s3] eqn:Hset; [|done]. intros [= <- <-]. right. exists s1. split; [done|]. by exists s2.
Qed.
End Tokens.


(** * The token cache *)

(** What the code relies on of Fernet: what was encrypted is decrypted, and the
    ciphertext is ASCII. *)
Class FernetOk (encrypt : list Z → string) (decrypt : string → option (list Z)) : Prop := {
  decrypt_encrypt b : Forall Base64.byte b → decrypt (encrypt b) = Some b;
  encrypt_ascii b : Forall Base64.byte b → Text.isascii (encrypt b) = true;
}.

Section CacheFacts.
Context `{R : Redis} {HR : RedisOk R} (namespace : string).
Context (encrypt : list Z → string) (decrypt : string → option (list Z)) {HF : FernetOk encrypt decrypt}.
Context (float_repr : Q → string).

(** What is written for a token is read back as it. *)
Lemma decode_entry_text value expires token_type :
  Iso.representable expires → readable token_type = true →
  decode_entry decrypt (RedisTokenCache.entry_text float_repr (encrypt (utf8 value))
                          (mk_token (JStr value) expires token_type)) =
    Ret (Some (mk_token (JStr value) expires token_type)).
Proof.
  intros He Ht. unfold decode_entry, RedisTokenCache.entry_text. rewrite loads_print; [|by right|by cbn; rewrite Ht].
  cbn [dict_get tk_token_type tk_expires_at].
  match goal with |- context [dict_get "value" ?d] => change (dict_get "value" d) with (Some (JStr (encrypt (utf8 value)))) end.
  cbv iota. unfold decrypt_token_value. rewrite encrypt_ascii by apply utf8_bytes. cbv iota.
  rewrite decrypt_encrypt by apply utf8_bytes. cbn [negb]. rewrite Utf8.decode_utf8, Utf8.text_codes. cbv iota.
  match goal with |- context [dict_get "expires_at" ?d] => change (dict_get "expires_at" d) with (Some (JStr (isoformat expires))) end.
  cbv iota. by rewrite Iso8601.fromisoformat_text.
Qed.

Lemma get_text_up key (c : redis_client) : rc_up c = true →
  RedisTokenCache.get_text key c =
    (match entry (rc_server c) (rc_now c) key with
     | None => Ret None
     | Some (RText v, _) => Ret (Some v)
     | Some (RHash _, _) => Raise RedisError
     end, c).
Proof.
  intros Hup. unfold RedisTokenCache.get_text, bind, command. rewrite Hup. cbn.
  destruct c. by destruct (entry _ _ key) as [[[]]|].
Qed.
Lemma get_absent provider (c : redis_client) :
  (rc_up c = true → entry (rc_server c) (rc_now c) (Keys.token namespace provider) = None) →
  RedisTokenCache.get namespace decrypt provider c = (Ret None, c).
Proof.
  intros Ha. unfold RedisTokenCache.get, bind, or_on_outage, try_except.
  destruct (rc_up c) eqn:Hup; [by rewrite get_text_up, Ha|].
  unfold RedisTokenCache.get_text, bind, command. rewrite Hup. reflexivity.
Qed.
Lemma get_present provider (c : redis_client) value expires token_type d :
  rc_up c = true → Iso.representable expires → readable token_type = true →
  entry (rc_server c) (rc_now c) (Keys.token namespace provider) =
    Some (RText (RedisTokenCache.entry_text float_repr (encrypt (utf8 value))
                   (mk_token (JStr value) expires token_type)), d) →
  RedisTokenCache.get namespace decrypt provider c = (Ret (Some (mk_token (JStr value) expires token_type)), c).
Proof.
  intros Hup He Ht Hentry. unfold RedisTokenCache.get, bind, or_on_outage, try_except.
  rewrite get_text_up by done. rewrite Hentry. by rewrite decode_entry_text.
Qed.

(** The seconds for which a token is kept. *)
Definition cache_seconds (token : CachedToken) (c : redis_client) : Z :=
  Z.min (Z.quot (instant (tk_expires_at token) - instant (RedisTokenCache.client_now c)) us_per_second) _MAX_CACHE_SECONDS.

Lemma set_writes provider value expires token_type (c : redis_client) :
  let token := mk_token (JStr value) expires token_type in
  is_aware expires = true → 0 < cache_seconds token c → rc_up c = true →
  RedisTokenCache.set namespace encrypt float_repr provider token c =
    (Ret tt, c <| rc_server := set_ex (rc_now c) (Keys.token namespace provider)
                (RedisTokenCache.entry_text float_repr (encrypt (utf8 value)) token) (cache_seconds token c) (rc_server c) |>).
Proof.
  intros token Ha Hs Hup. unfold cache_seconds in *. unfold RedisTokenCache.set, bind, gets.
  change (tk_expires_at token) with expires in *. rewrite dt_sub_aware by done.
  rewrite (proj2 (Z.leb_gt _ _)) by lia. unfold lift, or_on_outage, try_except, command. cbn [encrypt_token_value tk_value token].
  by rewrite Hup.
Qed.
End CacheFacts.

(** * Theorems *)

Module TransportTheorems.
(** C28. Every answer of a provider is classified by its status alone: 429 is a rate
    limit, 401 and 403 are authentication failures, 404 is an unknown operation,
    400, 409 and 422 are rejections of the request, everything else is
    unavailability; an attempt may be repeated unless the status is one of the
    deterministic ones; a retry hint is kept only for 429, 502, 503 and 504 and is
    never negative. For a body whose characters the model has, over a network whose
    clock answers, classifying fails in exactly two cases, which are not turned into
    provider errors: the body is nested too deep for the interpreter, or Retry-After
    is a date with a field that is no C integer. *)
Theorem failure_classification {S} (N : Net S) (py_repr : json → string) response provider corr s :
  NetOk N → loads (rs_content response) ≠ inl Unmodelled →
  match escapes N response with
  | Some e => classify_response py_repr N response provider corr s = (Raise e, s)
  | None => ∃ e s', classify_response py_repr N response provider corr s = (Ret e, s') ∧
      classified provider (rs_status_code response) e
  end.
Proof. intros HN Hr. by apply classify_response_ok. Qed.

(** A call of a provider raises, whatever the provider answers and however the
    transport fails, nothing but provider errors, what the authenticator raises and
    the two errors that are not classified; and it only returns for an answer below
    400. *)
Theorem request_raises_provider_errors {S} (N : Net S) (py_repr : json → string) auth slug config (A : exn → Prop)
    method path body headers key s :
  NetOk N → raises_only A (auth_headers auth) → raises_only A (auth_invalidate auth) →
  match (ProviderHttpClient.request py_repr N auth slug config method path body headers key s).1 with
  | Ret r => pr_status_code r < 400
  | Raise e => call_error A e
  end.
Proof.
  intros HN Hh Hi. pose proof (request_errors N py_repr auth slug config A Hh Hi method path body headers key s) as H.
  unfold wp in H. by destruct (ProviderHttpClient.request _ _ _ _ _ _ _ _ _ _ s) as [[r|e] s'].
Qed.

(** A call sends the request to the provider at most twice, at most once where the
    credentials cannot be refreshed, and a second time only when the first was
    answered with 401. *)
Theorem request_sends_bounded {S} (calls : S → Z) (N : Net S) auth (py_repr : json → string) slug config
    method path body headers key s o s' :
  (∀ q s, hq_form q = None → calls (client_request N q s).2 = calls s + 1) →
  keeps (same_calls calls) (auth_headers auth) → keeps (same_calls calls) (auth_invalidate auth) →
  keeps (same_calls calls) (utc_now N) → keeps (same_calls calls) (perf_counter N) →
  ProviderHttpClient.request py_repr N auth slug config method path body headers key s = (o, s') →
  calls s ≤ calls s' ≤ calls s + (if can_refresh auth then 2 else 1) ∧
  (∀ t0 s0 a s1, perf_counter N s = (Ret t0, s0) →
     ProviderHttpClient._send N auth method (ps_base_url config +:+ path) body headers key s0 = (Ret a, s1) →
     (∀ r, a = inr r → rs_status_code r ≠ 401) → calls s' ≤ calls s + 1).
Proof. intros Hs Hh Hi Hn Hp Hrun. by eapply request_calls. Qed.

(** C29. The token a call authenticates with is fresh or was issued to this very call.
    A run of the OAuth2 authenticator over the shared cache and the refresh lock
    that returns a token has gone one of three ways. The first thing it did was to
    read that token from the cache, and the token outlived the leeway at the clock
    read next. Or it found no such token there, went through the refresh lock (held
    or, after the wait, not) and then read the token, which another process had
    written by then, from the cache, fresh at the clock read next. Or it found none
    there again, was issued the token by the provider right then, wrote it to the
    cache and gave the lock back. *)
Theorem token_fresh_or_issued `{Redis} (N : Net redis_client) namespace encrypt decrypt float_repr sleep owner
    slug config url client_id client_secret s t s' :
  let cache := RedisTokenCache.cache namespace encrypt decrypt float_repr in
  let key := Keys.lock namespace ("token-refresh:" +:+ slug) in
  OAuth2ClientCredentialsAuthenticator._acquire_token N cache (RedisLockManager.manager namespace sleep owner)
    slug config url client_id client_secret s = (Ret t, s') →
  read_fresh N cache slug config s t s' ∨
  ∃ s1 s2 s3 held,
    read_nothing N cache slug config s s1 ∧
    RedisLock._acquire sleep key _REFRESH_LOCK_TTL_SECONDS _REFRESH_LOCK_WAIT_SECONDS false owner
      (RedisLock.enough_polls _REFRESH_LOCK_WAIT_SECONDS) s1 = (Ret (Some held), s2) ∧
    (read_fresh N cache slug config s2 t s3 ∨
     ∃ s4, read_nothing N cache slug config s2 s4 ∧ issued_now N cache slug config url client_id client_secret s4 t s3) ∧
    RedisLock.aexit key owner held s3 = (Ret tt, s').
Proof.
  intros cache key. unfold OAuth2ClientCredentialsAuthenticator._acquire_token. unfold bind at 1.
  destruct (OAuth2ClientCredentialsAuthenticator.fresh_cached N cache slug config s) as [[[t'|]|e] s1] eqn:Hf; [| |done];
    apply fresh_cached_spec in Hf.
  - intros [= <- <-]. by left.
  - cbn [with_lock RedisLockManager.manager]. unfold RedisLockManager.lock. fold key. unfold bind at 1.
    destruct (RedisLock._acquire _ _ _ _ _ _ _ s1) as [[[held|]|e] s2] eqn:Ha; [|done..]. intros Hrun. right.
    assert (∃ s3, refreshed N cache slug config url client_id client_secret s2 t s3 ∧ RedisLock.aexit key owner held s3 = (Ret tt, s'))
      as (s3 & Hr & Hx); [|by exists s1, s2, s3, held].
    destruct held; cbn [negb] in Hrun;
      match type of Hrun with (let '(o, c') := ?m in _) = _ => destruct m as [o s3] eqn:Hb end;
      destruct (RedisLock.aexit key owner _ s3) as [[[]|e] s4] eqn:Hx; try done; injection Hrun as -> ->;
      exists s3; (split; [by apply recheck_spec|done]).
Qed.

(** A token written to the shared cache is read back exactly, encrypted in between,
    until its lifetime or an hour has passed, and is not read from then on; once it
    is invalidated it is not read, and with Redis unreachable nothing is read and
    nothing is raised. *)
Theorem token_cache_roundtrip `{R : Redis} (HR : RedisOk R) namespace encrypt decrypt (HF : FernetOk encrypt decrypt)
    float_repr provider value expires token_type (c : redis_client) (t : Q) :
  let token := mk_token (JStr value) expires token_type in
  let read := RedisTokenCache.get namespace decrypt provider in
  let written := (RedisTokenCache.set namespace encrypt float_repr provider token c).2 in
  is_aware expires = true → Iso.representable expires → readable token_type = true →
  0 < cache_seconds token c → rc_up c = true → (rc_now c <= t)%Q →
  (read (at_time t written)).1 =
    Ret (if Qle_bool (rc_now c + inject_Z (cache_seconds token c)) t then None else Some token) ∧
  (read (RedisTokenCache.invalidate namespace provider (at_time t written)).2).1 = Ret None ∧
  (read (at_time t written <| rc_up := false |>)).1 = Ret None.
Proof.
  intros token read written Ha Hrep Htt Hs Hup Ht. unfold written.
  pose proof (set_writes namespace encrypt float_repr provider value expires token_type c Ha Hs Hup) as Hset.
  fold token in Hset. rewrite Hset. cbn [snd].
  set (sv := set_ex _ _ _ _ _).
  assert (entry sv (rc_now c) (Keys.token namespace provider) =
    Some (RText (RedisTokenCache.entry_text float_repr (encrypt (utf8 value)) token),
          Some (rc_now c + inject_Z (cache_seconds token c))%Q)) as Hentry by (by apply entry_set_ex).
  split_and!.
  - destruct (Qle_bool _ t) eqn:Hq; unfold read.
    + apply Qle_bool_iff in Hq. rewrite get_absent; [done|]. intros _. cbn. by eapply entry_gone.
    + erewrite get_present; [done|done|done|done|done|]. cbn. eapply entry_kept; [exact Hentry|done|].
      apply Qnot_le_lt. intros Hle%Qle_bool_iff. congruence.
  - unfold RedisTokenCache.invalidate, or_on_outage, try_except, command. cbn. rewrite Hup. cbn. unfold read.
    rewrite get_absent; [done|]. intros _. cbn. apply entry_del.
  - unfold read. rewrite get_absent; [done|]. done.
Qed.
End TransportTheorems.

(** * Concrete runs *)

Module TransportWitnesses.
Import TransportTheorems.

(** A provider that always answers the same; the state is what it was sent. *)
Definition canned (r : http_response) : Net (list http_request) :=
  {| client_request q := λ s, (Ret (inr r), s ++ [q]);
     utc_now := ret (utc 63800000000000000);
     perf_counter := ret 0%Q;
     current_correlation_id _ := Some "corr-1";
     nested_too_deep _ := false |}.
Lemma canned_ok r : loads (rs_content r) ≠ inl Unmodelled → NetOk (canned r).
Proof.
  intros Hr. split; cbn.
  - intros s. by do 2 eexists.
  - intros s. by do 2 eexists.
  - intros q s. by do 2 eexists.
  - by intros q s r' s' [= <- _].
Qed.

Definition no_repr : json → string := λ _, "".
Definition busy : http_response := mk_http_response 503 [("retry-after", " 7 ")] (utf8 "{}").
Definition refused : http_response := mk_http_response 401 [] (utf8 "{}").
Definition settings : ProviderSettings :=
  mk_provider_settings true "Cobalt" AuthenticationType.OAUTH2_CLIENT_CREDENTIALS "https://cobalt"
    (Some "id") (Some "secret") (Some "https://cobalt/token") None None None None 10 3 8 60.
Definition fixed_auth (b : bool) : Authenticator (list http_request) :=
  {| auth_headers := ret [("Authorization", "Bearer x")]; auth_invalidate := ret tt; can_refresh := b |}.

Lemma failure_classification_witness : ∃ e s',
  classify_response no_repr (canned busy) busy "cobalt" None [] = (Ret e, s') ∧ classified "cobalt" 503 e.
Proof.
  apply (failure_classification (canned busy) no_repr busy "cobalt" None []); [|by vm_compute].
  apply canned_ok. by vm_compute.
Defined.

Lemma request_raises_provider_errors_witness :
  match (ProviderHttpClient.request no_repr (canned busy) (fixed_auth true) "cobalt" settings "GET" "/x" None None None []).1 with
  | Ret r => pr_status_code r < 400
  | Raise e => call_error (λ _, False) e
  end.
Proof.
  apply (request_raises_provider_errors (canned busy) no_repr (fixed_auth true) "cobalt" settings (λ _, False));
    [apply canned_ok; by vm_compute|by intros s|by intros s].
Defined.

Definition sent (s : list http_request) : Z := Z.of_nat (length s).
Definition twice_refused : outcome exn ProviderResponse * list http_request :=
  ProviderHttpClient.request no_repr (canned refused) (fixed_auth true) "cobalt" settings "GET" "/x" None None None [].
Lemma request_sends_bounded_witness :
  sent twice_refused.2 = 2 ∧ sent [] ≤ sent twice_refused.2 ≤ sent [] + 2.
Proof.
  split; [vm_compute; reflexivity|].
  apply (request_sends_bounded sent (canned refused) (fixed_auth true) no_repr "cobalt" settings "GET" "/x" None None None
           [] twice_refused.1 twice_refused.2).
  - intros q s _. unfold sent. cbn [canned client_request snd]. rewrite length_app. cbn [length]. lia.
  - by intros s.
  - by intros s.
  - by intros s.
  - by intros s.
  - apply surjective_pairing.
Defined.

(** A token endpoint on top of an in-memory Redis. *)
Definition issuing (content : string) : Net (@redis_client MemoryRedis.memory) :=
  {| client_request _ := ret (inr (mk_http_response 200 [] (utf8 content)));
     utc_now := gets RedisTokenCache.client_now;
     perf_counter := gets rc_now;
     current_correlation_id _ := None;
     nested_too_deep _ := false |}.
Definition qt : string := String quote_char EmptyString.
Definition issued : string := "{" +:+ qt +:+ "access_token" +:+ qt +:+ ":" +:+ qt +:+ "abc" +:+ qt +:+ "}".
Definition start : @redis_client MemoryRedis.memory := @mk_client MemoryRedis.memory ∅ (total_seconds 63800000000000000) true.
Definition seal (b : list Z) : string := Base64.rstrip_pad (Base64.encode true b).
Definition unseal (s : string) : option (list Z) := Base64.decode true (s +:+ Base64.padding s).
#[export] Instance seal_ok : FernetOk seal unseal.
Proof.
  split; intros b Hb; pose proof (Base64.decode_encode true b Hb) as H; [exact H|].
  unfold seal. unfold Base64.decode in H. destruct (Text.isascii _) eqn:Ha in H; [|done].
  unfold Text.isascii in *. rewrite all_chars_append in Ha. by apply andb_true_iff in Ha as [? _].
Qed.

Definition first_token : outcome exn CachedToken * @redis_client MemoryRedis.memory :=
  OAuth2ClientCredentialsAuthenticator._acquire_token (issuing issued) (RedisTokenCache.cache "io" seal unseal (λ _, ""))
    (RedisLockManager.manager "io" (λ _, ret tt) "owner") "cobalt" settings "https://cobalt/token" "id" "secret" start.
Definition abc : CachedToken := mk_token (JStr "abc") (utc (63800000000000000 + 3600000000)) (JStr "Bearer").
Lemma token_fresh_or_issued_witness : first_token.1 = Ret abc ∧
  let cache := RedisTokenCache.cache "io" seal unseal (λ _, "") in
  (read_fresh (issuing issued) cache "cobalt" settings start abc first_token.2 ∨
   ∃ s1, read_nothing (issuing issued) cache "cobalt" settings start s1).
Proof.
  assert (first_token.1 = Ret abc) as Hrun by (vm_compute; reflexivity).
  split; [exact Hrun|]. intros cache.
  destruct (token_fresh_or_issued (issuing issued) "io" seal unseal (λ _, "") (λ _, ret tt) "owner" "cobalt" settings
           "https://cobalt/token" "id" "secret" start abc first_token.2) as [Hr|(s1 & s2 & s3 & held & Hn & _)].
  - exact (eq_trans (surjective_pairing first_token) (f_equal (λ o, (o, first_token.2)) Hrun)).
  - by left.
  - right. by exists s1.
Defined.
(** A date no C integer holds, in a header, is not turned into a provider error. *)
Example retry_after_overflows :
  (classify_response no_repr (canned busy)
     (mk_http_response 503 [("retry-after", "Wed, 01 Jan 99999999999 00:00:00 GMT")] (utf8 "{}")) "cobalt" None []).1 =
  Raise DateOverflow.
Proof. vm_compute. reflexivity. Qed.

Lemma token_cache_roundtrip_witness :
  let t := (total_seconds 63800000000000000 + 100)%Q in
  let c := (RedisTokenCache.set "io" seal (λ _, "") "cobalt" abc start).2 in
  Qle_bool (rc_now start + inject_Z (cache_seconds abc start)) t = false ∧
  (RedisTokenCache.get "io" unseal "cobalt" (at_time t c)).1 =
    Ret (if Qle_bool (rc_now start + inject_Z (cache_seconds abc start)) t then None else Some abc).
Proof.
  split; [vm_compute; reflexivity|].
  refine (proj1 (token_cache_roundtrip MemoryRedis.memory_ok "io" seal unseal seal_ok (λ _, "") "cobalt" "abc"
            (utc (63800000000000000 + 3600000000)) (JStr "Bearer") start _ _ _ _ _ _ _)).
  - vm_compute. reflexivity.
  - split; [vm_compute; split; [discriminate|reflexivity]|vm_compute]. all: try done.
  - vm_compute. reflexivity.
  - vm_compute. reflexivity.
  - vm_compute. reflexivity.
  - vm_compute. discriminate.
Defined.
End TransportWitnesses.
