(* ===== verification/Signatures.v ===== *)
(** Verifying webhook signatures ([infrastructure/providers/signatures.py]).

    HMAC-SHA-256 is computed (Sha256); Ed25519 verification belongs to the
    cryptography package and is a parameter. *)

From S2P Require Import Prelude PyData PyTime PyText PyDates Sha256 Errors.

Definition MAX_TIMESTAMP_SKEW_SECONDS : Z := 300.

(** Lowercase hex. *)
Definition compute_hmac_sha256 (secret : string) (message : list Z) : string :=
  hex_of_bytes (hmac_sha256 (utf8 secret) message).

(** [hmac.compare_digest] of two strings *)
Definition compare_digest (a b : string) : outcome exn bool :=
  if Text.isascii a && Text.isascii b then Ret (bool_decide (a = b))
  else Raise (ETypeError "comparing strings with non-ASCII characters is not supported").

(** What is left of a signature header: providers may prefix the algorithm. *)
Definition candidate_digest (signature : string) : string :=
  let candidate := Str.strip signature in
  Str.lower (Str.strip (default candidate (Text.after_first (Text.is_code 61) candidate))).
Definition verify_hmac_sha256 (secret : string) (message : list Z) (signature : string) : outcome exn bool :=
  compare_digest (compute_hmac_sha256 secret message) (candidate_digest signature).

Section Ed25519.
(** [Ed25519PublicKey.from_public_bytes(key).verify(signature, message)] does not
    raise. *)
Context (ed25519_verifies : list Z → list Z → list Z → bool).
Definition verify_ed25519 (public_key_b64 : string) (message : list Z) (signature_b64 : string) : bool :=
  match Base64.decode false public_key_b64 with
  | None => false
  | Some key =>
      match Base64.decode false signature_b64 with
      | None => false
      | Some signature => ed25519_verifies key signature message
      end
  end.
End Ed25519.

(** [datetime.fromtimestamp(float(s), tz=UTC)]; NaN and the infinities raise. *)
Definition unix_timestamp (s : string) : option datetime :=
  match Num.float s with
  | Some (Some q) => fromtimestamp q
  | _ => None
  end.
Definition parse_timestamp (v : option string) : option datetime :=
  match v with
  | None => None
  | Some v =>
      if negb (Str.truthy v) then None
      else
        let stripped := Str.strip v in
        match unix_timestamp stripped with
        | Some d => Some d
        | None =>
            match Iso8601.fromisoformat (Text.replace "Z" "+00:00" stripped) with
            | None => None
            | Some parsed => Some (if is_aware parsed then parsed else mk_datetime (wall_us parsed) (Some 0))
            end
        end
  end.

Definition within_replay_window (timestamp : option datetime) (now : datetime) (window_seconds : Z) : outcome exn bool :=
  match timestamp with
  | None => Ret false
  | Some t =>
      match dt_sub now t with
      | Some us => Ret (Qle_bool (total_seconds (Z.abs us)) (inject_Z window_seconds))
      | None => Raise (ETypeError "can't subtract offset-naive and offset-aware datetimes")
      end
  end.

(** A digest of a signature that is safe to keep as a replay key. *)
Definition signature_digest (signature : string) : string := Str.take 32 (sha256_hexdigest (utf8 signature)).

(** * Digests are lowercase hex *)

Definition is_hex (c : Ascii.ascii) : bool :=
  let n := Str.code c in ((48 <=? n) && (n <=? 57)) || ((97 <=? n) && (n <=? 102)).

Lemma hex_digit_hex n : 0 ≤ n < 16 → is_hex (hex_digit n) = true.
Proof.
  intros Hn. rewrite <- (Z2Nat.id n) by lia. set (k := Z.to_nat n). assert (k < 16)%nat as Hk by lia.
  clearbody k. do 16 (destruct k as [|k]; [reflexivity|]). lia.
Qed.
Lemma hex_of_bytes_hex m : Forall Base64.byte m → Str.all_chars is_hex (hex_of_bytes m) = true.
Proof.
  induction 1 as [|b m Hb _ IH]; [done|]. cbn [hex_of_bytes Str.all_chars]. unfold Base64.byte in Hb.
  rewrite !hex_digit_hex by (Z.to_euclidean_division_equations; lia). by rewrite IH.
Qed.
Lemma bytes_of_bytes k n : Forall Base64.byte (bytes_of k n).
Proof.
  revert n. induction k as [|k IH]; intros n; [constructor|]. cbn [bytes_of]. apply Forall_app. split; [apply IH|].
  constructor; [|constructor]. unfold Base64.byte. Z.to_euclidean_division_equations; lia.
Qed.
Lemma sha256_bytes m : Forall Base64.byte (sha256 m).
Proof.
  unfold sha256. generalize (foldl compress initial_hash (blocks (length (words_of (pad m))) (words_of (pad m)))).
  intros l. induction l as [|x l IH]; [constructor|]. cbn [fmap list_fmap mjoin list_join].
  apply Forall_app. split; [apply bytes_of_bytes|done].
Qed.
Lemma hmac_hex secret m : Str.all_chars is_hex (compute_hmac_sha256 secret m) = true.
Proof. apply hex_of_bytes_hex. unfold hmac_sha256. apply sha256_bytes. Qed.

Lemma is_hex_facts c : is_hex c = true →
  Str.isspace c = false ∧ Str.lower_char c = c ∧ (Str.code c <? 128) = true ∧ Text.is_code 61 c = false.
Proof.
  unfold is_hex, Str.isspace, Str.lower_char, Text.is_code. set (n := Str.code c).
  intros Hn. assert (48 ≤ n ≤ 57 ∨ 97 ≤ n ≤ 102) as Hr by lia. split_and!; [lia| |lia|lia].
  match goal with |- (if ?b then _ else _) = _ => destruct b eqn:Hc end; [exfalso; lia|done].
Qed.
Lemma all_chars_imp (p q : Ascii.ascii → bool) s :
  (∀ c, p c = true → q c = true) → Str.all_chars p s = true → Str.all_chars q s = true.
Proof.
  intros Hpq. induction s as [|c s IH]; [done|]. cbn. rewrite !andb_true_iff. intros [Hc Hs]. split; auto.
Qed.
Lemma hex_strip s : Str.all_chars is_hex s = true → Str.strip s = s.
Proof.
  intros Hs. unfold Str.strip. assert (Str.lstrip s = s) as ->.
  { destruct s as [|c s]; [done|]. cbn in Hs |- *. apply andb_true_iff in Hs as [Hc _].
    destruct (is_hex_facts c Hc) as (-> & _). done. }
  induction s as [|c s IH]; [done|]. cbn in Hs |- *. apply andb_true_iff in Hs as [Hc Hs]. rewrite (IH Hs).
  destruct (is_hex_facts c Hc) as (-> & _). by destruct s.
Qed.
Lemma hex_lower s : Str.all_chars is_hex s = true → Str.lower s = s.
Proof.
  unfold Str.lower. induction s as [|c s IH]; [done|]. cbn. intros [Hc Hs]%andb_true_iff.
  destruct (is_hex_facts c Hc) as (_ & -> & _). by rewrite IH.
Qed.
Lemma hex_ascii s : Str.all_chars is_hex s = true → Text.isascii s = true.
Proof. apply all_chars_imp. intros c Hc. by destruct (is_hex_facts c Hc) as (_ & _ & ? & _). Qed.
Lemma hex_no_equals s : Str.all_chars is_hex s = true → Text.after_first (Text.is_code 61) s = None.
Proof.
  induction s as [|c s IH]; [done|]. cbn. intros [Hc Hs]%andb_true_iff.
  destruct (is_hex_facts c Hc) as (_ & _ & _ & ->). by apply IH.
Qed.

(** A digest is its own candidate. *)
Lemma candidate_hex s : Str.all_chars is_hex s = true → candidate_digest s = s.
Proof.
  intros Hs. unfold candidate_digest. rewrite (hex_strip s Hs), (hex_no_equals s Hs). cbn [default].
  by rewrite (hex_strip s Hs), hex_lower.
Qed.

Lemma verify_hmac_spec secret m signature :
  verify_hmac_sha256 secret m signature = Ret true ↔ candidate_digest signature = compute_hmac_sha256 secret m.
Proof.
  unfold verify_hmac_sha256, compare_digest. pose proof (hmac_hex secret m) as Hh. rewrite (hex_ascii _ Hh). cbn [andb].
  split.
  - destruct (Text.isascii _); [|done]. intros [= Hb%bool_decide_eq_true]. done.
  - intros ->. rewrite (hex_ascii _ Hh). by rewrite bool_decide_true.
Qed.
Lemma verify_hmac_own secret m : verify_hmac_sha256 secret m (compute_hmac_sha256 secret m) = Ret true.
Proof. apply verify_hmac_spec, candidate_hex, hmac_hex. Qed.

(** * Timestamps *)

Lemma parse_timestamp_aware v d : parse_timestamp v = Some d → is_aware d = true.
Proof.
  unfold parse_timestamp, unix_timestamp, fromtimestamp. destruct v as [v|]; [|done].
  destruct (negb _); [done|]. destruct (Num.float _) as [[q|]|]; [destruct (_ && _); [by intros [= <-]|]|..];
    (destruct (Iso8601.fromisoformat _) as [p|]; [|done]; intros [= <-]; by destruct (is_aware p) eqn:Hp).
Qed.
(** In the window in both directions. *)
Lemma within_window_spec t now window : is_aware now = true → is_aware t = true →
  within_replay_window (Some t) now window = Ret (bool_decide (Z.abs (instant now - instant t) ≤ window * us_per_second)).
Proof.
  intros Hn Ht. unfold within_replay_window. rewrite dt_sub_aware by done. f_equal.
  apply Bool.eq_iff_eq_true. rewrite Qle_bool_iff, bool_decide_eq_true.
  unfold total_seconds, inject_Z, Qle, us_per_second. cbn [Qnum Qden]. lia.
Qed.
