(* ===== verification/Adapters.v ===== *)
(** The provider adapters: what they share ([infrastructure/providers/base.py]),
    the three of them ([northstar.py], [meridian.py], [cobalt.py]) and the
    construction of the registry ([registry.py]).

    An adapter talks through [ProviderHttpClient] over the state of the network
    it is given ([Net]). [py_repr] is Python's [repr] of the JSON values the model
    does not print. *)

From S2P Require Import Prelude PyData PyTime PyText PyDates JsonText Sha256 Enums Errors ValueObjects.
From S2P Require Import Policies Entities Workflow Records Store Journal Ports CreateRequest Redaction Redis.
From S2P Require Import RateLimiter Coordination Resilient Transport Signatures.

(** The operations of an adapter; [BaseProviderAdapter] as the resilience layer
    sees it. *)
Record Adapter (S : Type) := mk_adapter {
  ad_descriptor : ProviderDescriptor;
  ad_create : CreateProviderOperationCommand → M exn S ProviderOperationResult;
  ad_status : string → M exn S ProviderOperationResult;
  ad_cancel : CancelProviderOperationCommand → M exn S ProviderOperationResult;
  ad_validate : InboundWebhook → outcome exn WebhookVerification;
  ad_normalize : InboundWebhook → outcome exn NormalizedWebhookEvent;
  ad_health : M exn S ProviderHealthProbe;
}.
Arguments ad_descriptor {S}.
Arguments ad_create {S}.
Arguments ad_status {S}.
Arguments ad_cancel {S}.
Arguments ad_validate {S}.
Arguments ad_normalize {S}.
Arguments ad_health {S}.

(** [WebhookVerification.accepted] and [.rejected] *)
Definition webhook_accepted (m : signature_metadata) : WebhookVerification := mk_verification true m None.
Definition webhook_rejected (m : signature_metadata) (reason : string) : WebhookVerification :=
  mk_verification false m (Some reason).

(** The class attributes of an adapter. *)
Record traits := mk_traits {
  supported_operations : list OperationType.t;
  supports_provider_idempotency : bool;
  supports_cancellation : bool;
  supports_status_lookup : bool;
  webhook_signature_scheme : string;
  health_path : string;
}.

(** [mapping.get(key)] for the tables of the adapters. *)
Definition table_get {A} (k : string) (t : list (string * A)) : option A :=
  match list_find (λ kv, kv.1 = k) t with Some (_, kv) => Some kv.2 | None => None end.

Module BaseProviderAdapter.
Section Base.
Context {S : Type} (N : Net S) (py_repr : json → string) (auth : Authenticator S).
Context (slug : string) (config : ProviderSettings) (T : traits).

Definition descriptor : ProviderDescriptor := {|
  d_slug := slug;
  d_display_name := if Str.truthy (ps_display_name config) then ps_display_name config else slug;
  d_authentication_type := AuthenticationType.value (ps_authentication_type config);
  d_enabled := ps_enabled config;
  d_supported_operations := supported_operations T;
  d_supports_cancellation := supports_cancellation T;
  d_supports_status_lookup := supports_status_lookup T;
  d_supports_provider_idempotency := supports_provider_idempotency T;
  d_webhook_signature_scheme := webhook_signature_scheme T;
  d_max_concurrency := ps_max_concurrency config;
  d_max_attempts := ps_max_attempts config;
  d_total_timeout_seconds := ps_total_timeout_seconds config |}.

Definition http_request : string → string → option dict → option string → M exn S ProviderResponse :=
  λ method path json_body idempotency_key,
    ProviderHttpClient.request py_repr N auth slug config method path json_body None idempotency_key.

Definition get_operation_status (provider_reference : string) : M exn S ProviderOperationResult :=
  raise (UnsupportedOperationError ("provider '" +:+ slug +:+ "' does not expose an operation status endpoint")
    (Some slug) None [("provider_reference", JStr provider_reference)]).

Definition cancel_operation (command : CancelProviderOperationCommand) : M exn S ProviderOperationResult :=
  raise (UnsupportedOperationError ("provider '" +:+ slug +:+ "' does not support cancellation")
    (Some slug) None [("provider_reference", JStr (xc_provider_reference command))]).

Definition health_check : M exn S ProviderHealthProbe :=
  let* started := utc_now N in
  let* r := ResilientProviderGateway.catching (http_request "GET" (health_path T) None None) in
  match r with
  | inl exc =>
      let* at_ := utc_now N in
      ret (mk_probe false at_ None (Some (err_code exc)))
  | inr response =>
      let* at_ := utc_now N in
      let* finished := utc_now N in
      match dt_sub finished started with
      | Some us =>
          ret (mk_probe true at_ (Some (total_seconds us * 1000)%Q)
                 (Some (py_str py_repr (default (JStr "ok") (dict_get "status" (pr_body response))))))
      | None => raise (ETypeError "can't subtract offset-naive and offset-aware datetimes")
      end
  end.

Definition _assert_supported (operation_type : OperationType.t) : M exn S unit :=
  if bool_decide (operation_type ∈ supported_operations T) then ret tt
  else raise (UnsupportedOperationError
    ("provider '" +:+ slug +:+ "' does not support the operation '" +:+ value operation_type +:+ "'") (Some slug) None
    [("supported_operations", JList (JStr <$> sorted_strings (value <$> supported_operations T)))]).
End Base.

Definition _redacted (payload : dict) : dict :=
  match redact 0 (JObj payload) with JObj d => d | _ => [] end.

(** The first present key of several spellings; [JNull] for [None]. *)
Fixpoint _first_present (body : dict) (keys : list string) : json :=
  match keys with
  | [] => JNull
  | key :: keys' =>
      match dict_get key body with
      | Some JNull | None => _first_present body keys'
      | Some v => v
      end
  end.

(** Unrecognised statuses become [UNKNOWN]. *)
Definition _map_status (raw : option string) (mapping : list (string * NormalizedStatus.t)) : NormalizedStatus.t :=
  match raw with
  | None => NormalizedStatus.UNKNOWN
  | Some raw => default NormalizedStatus.UNKNOWN (table_get (Str.lower (Str.strip raw)) mapping)
  end.
End BaseProviderAdapter.
Import BaseProviderAdapter.

(** [_decode_body], the same in the three modules. *)
Definition payload_error (msg : string) (provider : option string) : exn :=
  error ErrorClass.WebhookPayloadError msg (no_kwargs <| k_provider := provider |>).
Definition _decode_body {S} (N : Net S) (raw : list Z) : outcome exn dict :=
  if nested_too_deep N raw then Raise RecursionError
  else match loads raw with
  | inl JSONDecodeError | inl UnicodeDecodeError => Raise (payload_error "the webhook body is not valid JSON" None)
  | inl TooManyDigits => Raise (EValueError "Exceeds the limit (4300 digits) for integer string conversion")
  | inl Unmodelled => Raise (EOther "a character outside the model")
  | inr (JObj body) => Ret body
  | inr _ => Raise (payload_error "the webhook body is not a JSON object" None)
  end.

(** [CorrelationId(str(v)) if v else None] *)
Definition optional_correlation (py_repr : json → string) (v : json) : outcome exn (option string) :=
  if json_truthy v then
    match CorrelationId.make (py_str py_repr v) with
    | Ret c => Ret (Some c)
    | Raise e => Raise e
    end
  else Ret None.

(** A failure the provider reported. *)
Definition reported_failure (message : string) (provider_code : option string) : ProviderErrorInfo :=
  {| ei_code := "provider_reported_failure"; ei_message := message; ei_category := ErrorCategory.PROVIDER_VALIDATION;
     ei_retryable := false; ei_provider_code := provider_code; ei_retry_after_seconds := None |}.

(** [table[operation_type]] *)
Definition operation_name (table : list (OperationType.t * string)) (op : OperationType.t) : outcome exn string :=
  match list_find (λ kv, kv.1 = op) table with
  | Some (_, kv) => Ret kv.2
  | None => Raise (EKeyError (value op))
  end.

(** * Northstar Connect *)

Module NorthstarAdapter.
Definition SIGNATURE_HEADER : string := "x-northstar-signature".
Definition TIMESTAMP_HEADER : string := "x-northstar-timestamp".
Definition _OPERATION_NAMES : list (OperationType.t * string) :=
  [(OperationType.RESOURCE_PROVISION, "provision"); (OperationType.RESOURCE_DEPROVISION, "decommission");
   (OperationType.RESOURCE_UPDATE, "modify")].
Definition _STATUS_MAP : list (string * NormalizedStatus.t) :=
  [("queued", NormalizedStatus.ACCEPTED); ("accepted", NormalizedStatus.ACCEPTED);
   ("running", NormalizedStatus.PENDING); ("in_progress", NormalizedStatus.PENDING);
   ("complete", NormalizedStatus.SUCCEEDED); ("completed", NormalizedStatus.SUCCEEDED);
   ("error", NormalizedStatus.FAILED); ("failed", NormalizedStatus.FAILED)].
Definition _WEBHOOK_EVENT_STATUS : list (string * NormalizedStatus.t) :=
  [("operation.completed", NormalizedStatus.SUCCEEDED); ("operation.failed", NormalizedStatus.FAILED);
   ("operation.progressed", NormalizedStatus.PENDING)].

Definition attributes : traits :=
  mk_traits [OperationType.RESOURCE_PROVISION; OperationType.RESOURCE_DEPROVISION; OperationType.RESOURCE_UPDATE]
    true false false "hmac-sha256-timestamped" "/health".

Section Northstar.
Context {S : Type} (N : Net S) (py_repr : json → string) (auth : Authenticator S).
Context (slug : string) (config : ProviderSettings) (replay_window_seconds : Z).

(** [_map_status(v, ...)] of a JSON value that is passed on as it is: anything but
    text has no [strip]. *)
Definition map_state (v : json) : outcome exn NormalizedStatus.t :=
  match v with
  | JNull => Ret (_map_status None _STATUS_MAP)
  | JStr s => Ret (_map_status (Some s) _STATUS_MAP)
  | _ => Raise (EOther "AttributeError: no attribute 'strip'")
  end.

Definition _build_body (command : CreateProviderOperationCommand) : outcome exn dict :=
  let payload := cc_payload command in
  match operation_name _OPERATION_NAMES (cc_operation_type command) with
  | Raise e => Raise e
  | Ret operation =>
      Ret [("operation", JStr operation);
           ("reference", JStr (cc_external_reference command));
           ("attributes", JObj (dict_merge
              [("resource_type", get_item "resource_type" payload); ("region", get_item "region" payload)]
              (List.filter (λ kv, negb (bool_decide (kv.1 ∈ ["resource_type"; "region"]))) payload)));
           ("client_context", JObj [("correlation_id", JStr (cc_correlation_id command));
                                    ("attempt", JInt (cc_attempt command))])]
  end.

Definition create_operation (command : CreateProviderOperationCommand) : M exn S ProviderOperationResult :=
  _assert_supported slug attributes (cc_operation_type command) ;;;
  let* body := lift (_build_body command) in
  let* response := http_request N py_repr auth slug config "POST" "/operations" (Some body)
                     (Some (cc_idempotency_key command)) in
  let provider_status := get_item "state" (pr_body response) in
  let reference := get_item "operation_id" (pr_body response) in
  if negb (json_truthy reference) then
    let* at_ := utc_now N in
    ret (result_success NormalizedStatus.ACCEPTED None (optional_str py_repr provider_status)
           (dict_merge (response_metadata response) [("missing_provider_reference", JBool true)]) (Some at_))
  else
    let* normalized := lift (map_state provider_status) in
    let* at_ := utc_now N in
    ret (result_success normalized (Some (py_str py_repr reference)) (optional_str py_repr provider_status)
           (dict_merge (response_metadata response)
              [("provider_request", JObj (_redacted body));
               ("deduplicated", JBool (json_truthy (default (JBool false) (dict_get "deduplicated" (pr_body response)))))])
           (Some at_)).

Definition validate_webhook (webhook : InboundWebhook) : outcome exn WebhookVerification :=
  let timestamp_raw := header webhook TIMESTAMP_HEADER in
  let signature := header webhook SIGNATURE_HEADER in
  let metadata := mk_signature_metadata (webhook_signature_scheme attributes) None timestamp_raw (Some "hmac-sha256") false in
  match signature, timestamp_raw with
  | Some signature, Some timestamp_raw =>
      if negb (Str.truthy signature) || negb (Str.truthy timestamp_raw) then
        Ret (webhook_rejected metadata "missing signature or timestamp header")
      else
        match ps_webhook_secret config with
        | None => Ret (webhook_rejected metadata "no webhook secret is configured")
        | Some secret =>
            match within_replay_window (parse_timestamp (Some timestamp_raw)) (in_received_at webhook) replay_window_seconds with
            | Raise e => Raise e
            | Ret false => Ret (webhook_rejected metadata "the timestamp is outside the replay window")
            | Ret true =>
                match verify_hmac_sha256 secret (utf8 timestamp_raw ++ [46] ++ in_body webhook) signature with
                | Raise e => Raise e
                | Ret false => Ret (webhook_rejected metadata "the signature does not match")
                | Ret true => Ret (webhook_accepted (mk_signature_metadata (scheme metadata) None (Some timestamp_raw)
                                                       (algorithm metadata) true))
                end
            end
        end
  | _, _ => Ret (webhook_rejected metadata "missing signature or timestamp header")
  end.

Definition normalize_webhook (webhook : InboundWebhook) : outcome exn NormalizedWebhookEvent :=
  match _decode_body N (in_body webhook) with
  | Raise e => Raise e
  | Ret body =>
      let event_id := get_item "event_id" body in
      let event_type := get_item "event_type" body in
      match get_item "data" body with
      | JObj data =>
          if negb (json_truthy event_id) || negb (json_truthy event_type) then
            Raise (payload_error "the Northstar webhook body is missing required fields" (Some slug))
          else
            match map_state (get_item "state" data) with
            | Raise e => Raise e
            | Ret mapped =>
                let normalized_status := default mapped (table_get (py_str py_repr event_type) _WEBHOOK_EVENT_STATUS) in
                let error := if bool_decide (normalized_status = NormalizedStatus.FAILED) then
                    Some (reported_failure
                      (py_str py_repr (default (JStr "Northstar reported the operation failed") (dict_get "error_message" data)))
                      (optional_str py_repr (get_item "error_code" data)))
                  else None in
                match optional_correlation py_repr (json_or (get_item "correlation_id" data) (get_item "correlation_id" body)) with
                | Raise e => Raise e
                | Ret correlation =>
                    webhook_event_make {|
                      we_provider := slug;
                      we_provider_event_id := py_str py_repr event_id;
                      we_event_type := py_str py_repr event_type;
                      we_normalized_status := normalized_status;
                      we_occurred_at := default (in_received_at webhook)
                        (parse_timestamp (optional_str py_repr (get_item "occurred_at" body)));
                      we_provider_reference := optional_str py_repr (get_item "operation_id" data);
                      we_external_reference := optional_str py_repr (get_item "reference" data);
                      we_correlation_id := correlation;
                      we_payload_metadata := [("event_type", JStr (py_str py_repr event_type));
                                              ("state", jopt (optional_str py_repr (get_item "state" data)));
                                              ("reference", jopt (optional_str py_repr (get_item "reference" data)))];
                      we_error := error |}
                end
            end
      | _ => Raise (payload_error "the Northstar webhook body is missing required fields" (Some slug))
      end
  end.

Definition adapter : Adapter S := {|
  ad_descriptor := descriptor slug config attributes;
  ad_create := create_operation;
  ad_status := get_operation_status slug;
  ad_cancel := cancel_operation slug;
  ad_validate := validate_webhook;
  ad_normalize := normalize_webhook;
  ad_health := health_check N py_repr auth slug config attributes |}.
End Northstar.
End NorthstarAdapter.

(** * Meridian Services *)

Module MeridianAdapter.
Definition SIGNATURE_HEADER : string := "x-meridian-signature".
Definition API_KEY_HEADER : string := "X-Meridian-Key".
Definition _SERVICE_CODES : list (OperationType.t * string) :=
  [(OperationType.RESOURCE_PROVISION, "SVC_PROVISION"); (OperationType.ACCESS_GRANT, "SVC_ACCESS_GRANT");
   (OperationType.ACCESS_REVOKE, "SVC_ACCESS_REVOKE")].
Definition _STATUS_MAP : list (string * NormalizedStatus.t) :=
  [("received", NormalizedStatus.ACCEPTED); ("processing", NormalizedStatus.PENDING);
   ("pending", NormalizedStatus.PENDING); ("fulfilled", NormalizedStatus.SUCCEEDED);
   ("success", NormalizedStatus.SUCCEEDED); ("rejected", NormalizedStatus.FAILED);
   ("failure", NormalizedStatus.FAILED); ("cancelled", NormalizedStatus.CANCELLED)].

Definition attributes : traits :=
  mk_traits [OperationType.RESOURCE_PROVISION; OperationType.ACCESS_GRANT; OperationType.ACCESS_REVOKE]
    false false true "hmac-sha256-body" "/status".

Section Meridian.
Context {S : Type} (N : Net S) (py_repr : json → string) (auth : Authenticator S).
Context (slug : string) (config : ProviderSettings) (replay_window_seconds : Z).

Definition _build_body (command : CreateProviderOperationCommand) : outcome exn dict :=
  match operation_name _SERVICE_CODES (cc_operation_type command) with
  | Raise e => Raise e
  | Ret code =>
      Ret [("serviceCode", JStr code); ("customerRef", JStr (cc_external_reference command));
           ("parameters", JObj (cc_payload command));
           ("meta", JObj [("correlationId", JStr (cc_correlation_id command))])]
  end.

Definition create_operation (command : CreateProviderOperationCommand) : M exn S ProviderOperationResult :=
  _assert_supported slug attributes (cc_operation_type command) ;;;
  let* body := lift (_build_body command) in
  let* response := http_request N py_repr auth slug config "POST" "/service-requests" (Some body) None in
  let reference := _first_present (pr_body response) ["requestId"; "request_id"; "id"; "serviceRequestId"] in
  let provider_status := optional_str py_repr (_first_present (pr_body response) ["status"; "state"; "requestStatus"]) in
  let* at_ := utc_now N in
  ret (
    if negb (json_truthy reference) then
      result_success NormalizedStatus.ACCEPTED None provider_status
        (dict_merge (response_metadata response) [("missing_provider_reference", JBool true)]) (Some at_)
    else
      result_success (_map_status provider_status _STATUS_MAP) (Some (py_str py_repr reference)) provider_status
        (dict_merge (response_metadata response) [("provider_request", JObj (_redacted body))]) (Some at_)).

(** The failure a body reports, the same for a lookup and for a webhook. *)
Definition failure_of (body : dict) : ProviderErrorInfo :=
  reported_failure
    (py_str py_repr (json_or (_first_present body ["reason"; "failureReason"; "message"])
                       (JStr "Meridian reported the request was rejected")))
    (optional_str py_repr (_first_present body ["reasonCode"; "errorCode"])).

Definition get_operation_status (provider_reference : string) : M exn S ProviderOperationResult :=
  let* response := http_request N py_repr auth slug config "GET" ("/service-requests/" +:+ provider_reference) None None in
  let provider_status := optional_str py_repr
    (_first_present (pr_body response) ["status"; "state"; "requestStatus"; "currentState"]) in
  let normalized := _map_status provider_status _STATUS_MAP in
  let error := if bool_decide (normalized = NormalizedStatus.FAILED) then Some (failure_of (pr_body response)) else None in
  lift (result_make {|
    res_accepted := bool_decide (error = None);
    res_normalized_status := normalized;
    res_provider_reference := Some provider_reference;
    res_provider_status := provider_status;
    res_raw_response_metadata := response_metadata response;
    res_error := error;
    res_occurred_at := None |}).

Definition validate_webhook (webhook : InboundWebhook) : outcome exn WebhookVerification :=
  let metadata := mk_signature_metadata (webhook_signature_scheme attributes) None None (Some "hmac-sha256") false in
  match header webhook SIGNATURE_HEADER with
  | None => Ret (webhook_rejected metadata "missing signature header")
  | Some signature =>
      if negb (Str.truthy signature) then Ret (webhook_rejected metadata "missing signature header")
      else
        match ps_webhook_secret config with
        | None => Ret (webhook_rejected metadata "no webhook secret is configured")
        | Some secret =>
            match verify_hmac_sha256 secret (in_body webhook) signature with
            | Raise e => Raise e
            | Ret false => Ret (webhook_rejected metadata "the signature does not match")
            | Ret true => Ret (webhook_accepted (mk_signature_metadata (scheme metadata) None None (algorithm metadata) true))
            end
        end
  end.

Definition normalize_webhook (webhook : InboundWebhook) : outcome exn NormalizedWebhookEvent :=
  match _decode_body N (in_body webhook) with
  | Raise e => Raise e
  | Ret body =>
      let event_id := _first_present body ["notificationId"; "notification_id"; "eventId"] in
      let event_type := _first_present body ["notificationType"; "type"; "eventType"] in
      let reference := _first_present body ["requestId"; "request_id"; "serviceRequestId"] in
      let status := optional_str py_repr (_first_present body ["status"; "state"; "requestStatus"]) in
      if negb (json_truthy event_id) || negb (json_truthy event_type) then
        Raise (payload_error "the Meridian webhook body is missing its notification identity" (Some slug))
      else
        let normalized := _map_status status _STATUS_MAP in
        let error := if bool_decide (normalized = NormalizedStatus.FAILED) then Some (failure_of body) else None in
        let occurred := optional_str py_repr (_first_present body ["occurredAt"; "occurred_at"; "timestamp"]) in
        match optional_correlation py_repr (_first_present body ["correlationId"; "correlation_id"]) with
        | Raise e => Raise e
        | Ret correlation =>
            webhook_event_make {|
              we_provider := slug;
              we_provider_event_id := py_str py_repr event_id;
              we_event_type := py_str py_repr event_type;
              we_normalized_status := normalized;
              we_occurred_at := default (in_received_at webhook) (parse_timestamp occurred);
              we_provider_reference := optional_str py_repr reference;
              we_external_reference := optional_str py_repr (_first_present body ["customerRef"; "customer_ref"]);
              we_correlation_id := correlation;
              we_payload_metadata := [("notification_type", JStr (py_str py_repr event_type)); ("status", jopt status)];
              we_error := error |}
        end
  end.

Definition adapter : Adapter S := {|
  ad_descriptor := descriptor slug config attributes;
  ad_create := create_operation;
  ad_status := get_operation_status;
  ad_cancel := cancel_operation slug;
  ad_validate := validate_webhook;
  ad_normalize := normalize_webhook;
  ad_health := health_check N py_repr auth slug config attributes |}.
End Meridian.
End MeridianAdapter.

(** * Cobalt Network *)

Module CobaltAdapter.
Definition SIGNATURE_HEADER : string := "x-cobalt-signature".
Definition TIMESTAMP_HEADER : string := "x-cobalt-timestamp".
Definition KEY_ID_HEADER : string := "x-cobalt-key-id".
Definition _JOB_KINDS : list (OperationType.t * string) :=
  [(OperationType.RESOURCE_PROVISION, "resource.create"); (OperationType.RESOURCE_DEPROVISION, "resource.destroy");
   (OperationType.RESOURCE_UPDATE, "resource.update"); (OperationType.ACCESS_GRANT, "access.grant");
   (OperationType.ACCESS_REVOKE, "access.revoke")].
Definition _STATUS_MAP : list (string * NormalizedStatus.t) :=
  [("accepted", NormalizedStatus.ACCEPTED); ("scheduled", NormalizedStatus.ACCEPTED);
   ("executing", NormalizedStatus.PENDING); ("succeeded", NormalizedStatus.SUCCEEDED);
   ("failed", NormalizedStatus.FAILED); ("cancelled", NormalizedStatus.CANCELLED);
   ("canceled", NormalizedStatus.CANCELLED)].
Definition _WEBHOOK_EVENT_STATUS : list (string * NormalizedStatus.t) :=
  [("job.succeeded", NormalizedStatus.SUCCEEDED); ("job.failed", NormalizedStatus.FAILED);
   ("job.cancelled", NormalizedStatus.CANCELLED); ("job.started", NormalizedStatus.PENDING)].

Definition attributes : traits := mk_traits members true true true "ed25519-timestamped" "/healthz".

Section Cobalt.
Context (ed25519_verifies : list Z → list Z → list Z → bool).
Context {S : Type} (N : Net S) (py_repr : json → string) (auth : Authenticator S).
Context (slug : string) (config : ProviderSettings) (replay_window_seconds : Z).

Definition _build_body (command : CreateProviderOperationCommand) : outcome exn dict :=
  match operation_name _JOB_KINDS (cc_operation_type command) with
  | Raise e => Raise e
  | Ret kind =>
      Ret [("kind", JStr kind); ("subject", JObj [("external_id", JStr (cc_external_reference command))]);
           ("spec", JObj (cc_payload command));
           ("trace", JObj [("correlation_id", JStr (cc_correlation_id command)); ("attempt", JInt (cc_attempt command))])]
  end.

(** A terminal status on creation is not trusted. *)
Definition trusted_on_create (s : NormalizedStatus.t) : NormalizedStatus.t :=
  if bool_decide (s ∈ [NormalizedStatus.SUCCEEDED; NormalizedStatus.FAILED]) then NormalizedStatus.UNKNOWN else s.

Definition create_operation (command : CreateProviderOperationCommand) : M exn S ProviderOperationResult :=
  _assert_supported slug attributes (cc_operation_type command) ;;;
  let* body := lift (_build_body command) in
  let* response := http_request N py_repr auth slug config "POST" "/jobs" (Some body) (Some (cc_idempotency_key command)) in
  let reference := _first_present (pr_body response) ["job_id"; "jobId"; "id"] in
  let provider_status := optional_str py_repr (_first_present (pr_body response) ["status"; "state"]) in
  let* at_ := utc_now N in
  ret (
    if negb (json_truthy reference) then
      result_success NormalizedStatus.ACCEPTED None provider_status
        (dict_merge (response_metadata response) [("missing_provider_reference", JBool true)]) (Some at_)
    else
      result_success (trusted_on_create (_map_status provider_status _STATUS_MAP)) (Some (py_str py_repr reference))
        provider_status (dict_merge (response_metadata response) [("provider_request", JObj (_redacted body))]) (Some at_)).

(** The failure an object with a [failure] member reports. *)
Definition failure_of (holder : dict) : ProviderErrorInfo :=
  let failure := match get_item "failure" holder with JObj f => f | _ => [] end in
  reported_failure (py_str py_repr (default (JStr "Cobalt reported the job failed") (dict_get "message" failure)))
    (optional_str py_repr (get_item "code" failure)).

Definition get_operation_status (provider_reference : string) : M exn S ProviderOperationResult :=
  let* response := http_request N py_repr auth slug config "GET" ("/jobs/" +:+ provider_reference) None None in
  let provider_status := optional_str py_repr (_first_present (pr_body response) ["status"; "state"]) in
  let normalized := _map_status provider_status _STATUS_MAP in
  let error := if bool_decide (normalized = NormalizedStatus.FAILED) then Some (failure_of (pr_body response)) else None in
  lift (result_make {|
    res_accepted := bool_decide (error = None);
    res_normalized_status := normalized;
    res_provider_reference := Some provider_reference;
    res_provider_status := provider_status;
    res_raw_response_metadata := response_metadata response;
    res_error := error;
    res_occurred_at := None |}).

Definition cancel_operation (command : CancelProviderOperationCommand) : M exn S ProviderOperationResult :=
  let* response := http_request N py_repr auth slug config "POST"
    ("/jobs/" +:+ xc_provider_reference command +:+ "/cancel")
    (Some [("reason", JStr (or_else (xc_reason command) "cancelled by the requesting system"))]) None in
  let provider_status := optional_str py_repr (_first_present (pr_body response) ["status"; "state"]) in
  ret (
    if bool_decide (_map_status provider_status _STATUS_MAP = NormalizedStatus.CANCELLED) then
      result_success NormalizedStatus.CANCELLED (Some (xc_provider_reference command)) provider_status
        (response_metadata response) None
    else
      result_failure
        {| ei_code := "provider_cancellation_refused";
           ei_message := "Cobalt could not cancel the job in its current state";
           ei_category := ErrorCategory.CONFLICT; ei_retryable := false; ei_provider_code := provider_status;
           ei_retry_after_seconds := None |}
        (Some (xc_provider_reference command)) provider_status (response_metadata response)).

Definition validate_webhook (webhook : InboundWebhook) : outcome exn WebhookVerification :=
  let signature := header webhook SIGNATURE_HEADER in
  let timestamp_raw := header webhook TIMESTAMP_HEADER in
  let key_id := header webhook KEY_ID_HEADER in
  let metadata := mk_signature_metadata (webhook_signature_scheme attributes) key_id timestamp_raw (Some "ed25519") false in
  match signature, timestamp_raw, key_id with
  | Some signature, Some timestamp_raw, Some key_id =>
      if negb (Str.truthy signature) || negb (Str.truthy timestamp_raw) || negb (Str.truthy key_id) then
        Ret (webhook_rejected metadata "missing signature, timestamp, or key identifier header")
      else if negb (truthy_opt (ps_webhook_public_key config)) then
        Ret (webhook_rejected metadata "no webhook public key is configured")
      else
        match within_replay_window (parse_timestamp (Some timestamp_raw)) (in_received_at webhook) replay_window_seconds with
        | Raise e => Raise e
        | Ret false => Ret (webhook_rejected metadata "the timestamp is outside the replay window")
        | Ret true =>
            if negb (verify_ed25519 ed25519_verifies (or_else (ps_webhook_public_key config) "")
                       (utf8 key_id ++ [46] ++ utf8 timestamp_raw ++ [46] ++ in_body webhook) signature)
            then Ret (webhook_rejected metadata "the signature does not match")
            else Ret (webhook_accepted (mk_signature_metadata (scheme metadata) (Some key_id) (Some timestamp_raw)
                                          (algorithm metadata) true))
        end
  | _, _, _ => Ret (webhook_rejected metadata "missing signature, timestamp, or key identifier header")
  end.

(** [(job.get("trace") or {}).get("correlation_id") if job else None] *)
Definition job_correlation (job : dict) : outcome exn json :=
  if bool_decide (job = []) then Ret JNull
  else match json_or (get_item "trace" job) (JObj []) with
       | JObj trace => Ret (get_item "correlation_id" trace)
       | _ => Raise (EOther "AttributeError: no attribute 'get'")
       end.

Definition normalize_webhook (webhook : InboundWebhook) : outcome exn NormalizedWebhookEvent :=
  match _decode_body N (in_body webhook) with
  | Raise e => Raise e
  | Ret body =>
      let event_id := _first_present body ["id"; "event_id"] in
      let event_type := _first_present body ["type"; "event_type"] in
      let job := match get_item "job" body with JObj job => job | _ => [] end in
      if negb (json_truthy event_id) || negb (json_truthy event_type) then
        Raise (payload_error "the Cobalt webhook body is missing its event identity" (Some slug))
      else
        let job_status := optional_str py_repr (get_item "status" job) in
        let normalized := default (_map_status job_status _STATUS_MAP)
                            (table_get (py_str py_repr event_type) _WEBHOOK_EVENT_STATUS) in
        let error := if bool_decide (normalized = NormalizedStatus.FAILED) then Some (failure_of job) else None in
        match job_correlation job with
        | Raise e => Raise e
        | Ret correlation =>
            match optional_correlation py_repr correlation with
            | Raise e => Raise e
            | Ret correlation =>
                webhook_event_make {|
                  we_provider := slug;
                  we_provider_event_id := py_str py_repr event_id;
                  we_event_type := py_str py_repr event_type;
                  we_normalized_status := normalized;
                  we_occurred_at := default (in_received_at webhook)
                    (parse_timestamp (optional_str py_repr (get_item "created_at" body)));
                  we_provider_reference := optional_str py_repr (_first_present job ["job_id"; "jobId"; "id"]);
                  we_external_reference := match get_item "subject" job with
                                           | JObj subject => optional_str py_repr (get_item "external_id" subject)
                                           | _ => None
                                           end;
                  we_correlation_id := correlation;
                  we_payload_metadata := [("event_type", JStr (py_str py_repr event_type)); ("job_status", jopt job_status)];
                  we_error := error |}
            end
        end
  end.

Definition adapter : Adapter S := {|
  ad_descriptor := descriptor slug config attributes;
  ad_create := create_operation;
  ad_status := get_operation_status;
  ad_cancel := cancel_operation;
  ad_validate := validate_webhook;
  ad_normalize := normalize_webhook;
  ad_health := health_check N py_repr auth slug config attributes |}.
End Cobalt.
End CobaltAdapter.

(** * The registry *)

Definition API_KEY_HEADERS : list (string * string) := [("meridian", MeridianAdapter.API_KEY_HEADER)].

Section Registry.
Context (ed25519_verifies : list Z → list Z → list Z → bool).
Context {S : Type} (N : Net S) (py_repr : json → string) (cache : TokenCache S) (locks : LockManager S).
Context (replay_window_seconds : Z).

(** [ADAPTER_FACTORIES] *)
Definition adapter_class : Type := Authenticator S → string → ProviderSettings → Adapter S.
Definition ADAPTER_FACTORIES : list (string * adapter_class) :=
  [("northstar", λ auth slug config, NorthstarAdapter.adapter N py_repr auth slug config replay_window_seconds);
   ("meridian", λ auth slug config, MeridianAdapter.adapter N py_repr auth slug config);
   ("cobalt", λ auth slug config, CobaltAdapter.adapter ed25519_verifies N py_repr auth slug config replay_window_seconds)].

Definition _build_adapter (adapter_class : adapter_class) (slug : string) (config : ProviderSettings) :
    outcome exn (Adapter S) :=
  match build_authenticator py_repr N cache locks slug config (default "X-API-Key" (table_get slug API_KEY_HEADERS)) with
  | Ret auth => Ret (adapter_class auth slug config)
  | Raise e => Raise e
  end.

(** [settings.enabled_providers()] *)
Definition enabled_providers (providers : list (string * ProviderSettings)) : list (string * ProviderSettings) :=
  List.filter (λ kv, ps_enabled kv.2) providers.

(** [ResilientProviderGateway(adapter, ...)] around an adapter. *)
Definition guarded (G : Guards S) (slug : string) (a : Adapter S) : Adapter S := {|
  ad_descriptor := ad_descriptor a;
  ad_create := ResilientProviderGateway.create_operation G slug (ad_descriptor a) (ad_create a);
  ad_status := ResilientProviderGateway.get_operation_status G slug (ad_status a);
  ad_cancel := ResilientProviderGateway.cancel_operation G slug (ad_cancel a);
  ad_validate := ad_validate a;
  ad_normalize := ad_normalize a;
  ad_health := ResilientProviderGateway.health_check G slug (ad_health a) |}.

(** The loop over the configured providers: one with no implementation is
    skipped, one that cannot be constructed stops the start. *)
Fixpoint build_gateways (G : Guards S) (providers : list (string * ProviderSettings)) (acc : gmap string (Adapter S)) :
    outcome exn (gmap string (Adapter S)) :=
  match providers with
  | [] => Ret acc
  | (slug_text, config) :: providers' =>
      match table_get slug_text ADAPTER_FACTORIES with
      | None => build_gateways G providers' acc
      | Some adapter_class =>
          match ProviderSlug.make slug_text with
          | Raise e => Raise e
          | Ret slug =>
              match _build_adapter adapter_class slug config with
              | Raise e => Raise e
              | Ret a => build_gateways G providers' (<[slug_text := guarded G slug a]> acc)
              end
          end
      end
  end.
Definition build_provider_registry (G : Guards S) (providers : list (string * ProviderSettings)) :
    outcome exn (gmap string (Adapter S)) :=
  build_gateways G (enabled_providers providers) ∅.
End Registry.
