(* ===== verification/AdapterFacts.v ===== *)
(** What the adapters promise: which webhooks they accept, what they report of an
    operation, which errors they raise, and that the registry they form is a
    platform the rest of the system can run on. *)

From S2P Require Import Prelude PyData PyTime PyText PyDates JsonText Sha256 Enums Errors ValueObjects.
From S2P Require Import Policies Entities Workflow Records Store Journal Ports CreateRequest Redaction Redis.
From S2P Require Import RateLimiter Coordination Resilient Transport TransportFacts Signatures Adapters.
From S2P Require Import StateMachine CircuitBreaker Samples System.
Import BaseProviderAdapter.

(** * Effects

    Whatever moves the state along a preorder [R] in the network, the token
    cache, the locks and the guards does so in every operation of an adapter. *)

Record net_keeps {S} (R : relation S) (N : Net S) : Prop := {
  keep_client q : keeps R (client_request N q);
  keep_now : keeps R (utc_now N);
  keep_perf : keeps R (perf_counter N);
}.
Record cache_keeps {S} (R : relation S) (cache : TokenCache S) : Prop := {
  keep_cache_get p : keeps R (cache_get cache p);
  keep_cache_set p t : keeps R (cache_set cache p t);
  keep_cache_invalidate p : keeps R (cache_invalidate cache p);
}.
Definition locks_keep {S} (R : relation S) (locks : LockManager S) : Prop :=
  ∀ r ttl wait A (body : bool → M exn S A), (∀ b, keeps R (body b)) → keeps R (with_lock locks r ttl wait body).
Record auth_keeps {S} (R : relation S) (auth : Authenticator S) : Prop := {
  keep_headers : keeps R (auth_headers auth);
  keep_invalidate : keeps R (auth_invalidate auth);
}.
Record adapter_keeps {S} (R : relation S) (a : Adapter S) : Prop := {
  keep_create c : keeps R (ad_create a c);
  keep_status r : keeps R (ad_status a r);
  keep_cancel c : keeps R (ad_cancel a c);
  keep_health : keeps R (ad_health a);
}.

Section Effects.
Context {S : Type} (R : relation S) `{!PreOrder R} (N : Net S) (HN : net_keeps R N) (py_repr : json → string).

Lemma keeps_lift {A} (o : outcome exn A) : keeps R (lift o).
Proof. intros s. by destruct o. Qed.
#[local] Hint Resolve keeps_lift : keeps_db.

Section Auth.
Import OAuth2ClientCredentialsAuthenticator.
Context (cache : TokenCache S) (Hc : cache_keeps R cache) (locks : LockManager S) (Hl : locks_keep R locks).
Context (slug : string) (config : ProviderSettings).

Lemma fresh_cached_keeps : keeps R (fresh_cached N cache slug config).
Proof. destruct HN, Hc. unfold fresh_cached. keeps_go. Qed.
Lemma request_token_keeps url i s : keeps R (_request_token N slug config url i s).
Proof. destruct HN. unfold _request_token. keeps_go. Qed.
Lemma fetch_keeps url i s : keeps R (_fetch_and_cache N cache slug config url i s).
Proof. destruct Hc. pose proof (request_token_keeps url i s). unfold _fetch_and_cache. keeps_go. Qed.
Lemma acquire_keeps url i s : keeps R (_acquire_token N cache locks slug config url i s).
Proof.
  pose proof fresh_cached_keeps. pose proof (fetch_keeps url i s). unfold _acquire_token.
  keeps_step; [done|]. destruct a; [keeps_go|]. apply Hl. intros b. keeps_go.
Qed.
Lemma build_authenticator_keeps header auth :
  build_authenticator py_repr N cache locks slug config header = Ret auth → auth_keeps R auth.
Proof.
  unfold build_authenticator, init, ApiKeyAuthenticator.init. destruct (ps_authentication_type config).
  - destruct (ps_api_key config); [|done]. intros [= <-]. split; cbn; keeps_go.
  - destruct (ps_oauth_token_url config) as [url|], (ps_client_id config) as [i|], (ps_client_secret config) as [s|]; try done.
    destruct (Str.truthy url); [|done]. intros [= <-]. destruct Hc. split; cbn; [|done].
    pose proof (acquire_keeps url i s). unfold headers. keeps_go.
Qed.
End Auth.

Section Client.
Context (auth : Authenticator S) (Ha : auth_keeps R auth) (slug : string) (config : ProviderSettings).

Lemma send_keeps m u b h k : keeps R (ProviderHttpClient._send N auth m u b h k).
Proof. destruct HN, Ha. unfold ProviderHttpClient._send. keeps_go. Qed.
Lemma retry_after_keeps v : keeps R (parse_retry_after N v).
Proof. destruct HN. unfold parse_retry_after. keeps_go. Qed.
Lemma classify_response_keeps r p c : keeps R (classify_response py_repr N r p c).
Proof. pose proof retry_after_keeps. unfold classify_response. keeps_go. Qed.
Lemma http_request_keeps m p b k : keeps R (http_request N py_repr auth slug config m p b k).
Proof.
  pose proof send_keeps. pose proof classify_response_keeps. destruct HN, Ha.
  unfold http_request, ProviderHttpClient.request, ProviderHttpClient._parse_body. keeps_go.
Qed.

Lemma northstar_keeps w : adapter_keeps R (NorthstarAdapter.adapter N py_repr auth slug config w).
Proof.
  pose proof http_request_keeps. pose proof (@catching_keeps S R _). destruct HN. split; cbn; intros;
    unfold NorthstarAdapter.create_operation, _assert_supported, get_operation_status, cancel_operation, health_check; keeps_go.
Qed.
Lemma meridian_keeps : adapter_keeps R (MeridianAdapter.adapter N py_repr auth slug config).
Proof.
  pose proof http_request_keeps. pose proof (@catching_keeps S R _). destruct HN. split; cbn; intros;
    unfold MeridianAdapter.create_operation, _assert_supported, MeridianAdapter.get_operation_status, cancel_operation, health_check;
    keeps_go.
Qed.
Lemma cobalt_keeps ed w : adapter_keeps R (CobaltAdapter.adapter ed N py_repr auth slug config w).
Proof.
  pose proof http_request_keeps. pose proof (@catching_keeps S R _). destruct HN. split; cbn; intros;
    unfold CobaltAdapter.create_operation, _assert_supported, CobaltAdapter.get_operation_status,
      CobaltAdapter.cancel_operation, health_check; keeps_go.
Qed.
End Client.

Section Guarded.
Import ResilientProviderGateway.
Context (G : Guards S) (slug : string) (HG : guards_keep R G slug).
Context (Henter : keeps R (slot_enter G slug)) (Hexit : keeps R (slot_exit G slug)).

Lemma slot_body_keeps {A} (m : M exn S A) : keeps R m → keeps R (with_slot G slug m).
Proof.
  intros Hm. unfold with_slot. keeps_step; [done|]. intros s. specialize (Hm s).
  destruct (m s) as [o s1]. specialize (Hexit s1). destruct (slot_exit G slug s1) as [[]];
    (etransitivity; [exact Hm|exact Hexit]).
Qed.
Lemma turn_keeps {A} (m : M exn S A) a n : keeps R m → keeps R (turn G slug m a n).
Proof.
  intros Hm. apply slot_body_keeps. pose proof (record_outcome_keeps R G slug HG).
  keeps_step; [by apply catching_keeps|]. keeps_go.
Qed.
Lemma loop_keeps {A} (m : M exn S A) n a k : keeps R m → keeps R (attempt_loop G slug m n a k).
Proof.
  intros Hm. revert a. induction k as [|k IH]; intros a; cbn [attempt_loop]; [keeps_go|].
  pose proof (turn_keeps m a n Hm). pose proof (keep_sleep _ _ _ HG). keeps_go.
Qed.
Lemma gateway_call_keeps (a : Adapter S) : adapter_keeps R a → adapter_keeps R (guarded G slug a).
Proof.
  intros [H1 H2 H3 H4].
  assert (∀ A (m : M exn S A) b, keeps R m → keeps R (_guarded G slug m b)) as Hg.
  { intros A m b Hm. unfold _guarded. keeps_step; [by apply check_rate_keeps|].
    keeps_step; [by apply check_circuit_keeps|]. by apply loop_keeps. }
  split; cbn; intros; [by apply Hg|by apply Hg|by apply Hg|by apply slot_body_keeps].
Qed.
End Guarded.

(** Every gateway of a registry that could be built. *)
Lemma registry_keeps ed cache locks window G providers gws :
  cache_keeps R cache → locks_keep R locks →
  (∀ slug, guards_keep R G slug) → (∀ slug, keeps R (slot_enter G slug)) → (∀ slug, keeps R (slot_exit G slug)) →
  build_provider_registry ed N py_repr cache locks window G providers = Ret gws →
  ∀ slug a, gws !! slug = Some a → adapter_keeps R a.
Proof.
  intros Hc Hl HG Hin Hout. unfold build_provider_registry. generalize (enabled_providers providers) as ps.
  assert (∀ ps acc, (∀ slug a, acc !! slug = Some a → adapter_keeps R a) →
    build_gateways ed N py_repr cache locks window G ps acc = Ret gws →
    ∀ slug a, gws !! slug = Some a → adapter_keeps R a) as Hgo; [|by intros ps; apply Hgo].
  induction ps as [|[text config] ps IH]; intros acc Hacc; cbn [build_gateways]; [by intros [= <-]|].
  destruct (table_get text _) as [mk|] eqn:Hmk; [|by apply IH].
  destruct (ProviderSlug.make text) as [slug|e]; [|done].
  unfold _build_adapter. destruct (build_authenticator _ _ _ _ _ _ _) as [auth|e] eqn:Ha; [|done].
  apply IH. intros slug' a. destruct (decide (slug' = text)) as [-> |Hne]; [|by rewrite lookup_insert_ne; [apply Hacc|]].
  rewrite lookup_insert_eq. intros [= <-]. apply gateway_call_keeps; [done|done|done|].
  apply build_authenticator_keeps in Ha; [|done|done].
  unfold table_get, ADAPTER_FACTORIES in Hmk. cbn in Hmk.
  repeat (destruct (decide _) as [<-|]; [injection Hmk as <-; eauto using northstar_keeps, meridian_keeps, cobalt_keeps|]).
  done.
Qed.
End Effects.

(** * The registry as the platform of the system *)

(** An adapter over the world is a gateway of the application layer. *)
Definition gateway_of (a : Adapter World) : Gateway := {|
  g_descriptor := ad_descriptor a;
  create_operation := ad_create a;
  Ports.get_operation_status := ad_status a;
  Ports.cancel_operation := ad_cancel a;
  validate_webhook := ad_validate a;
  normalize_webhook := ad_normalize a;
  Ports.health_check := ad_health a |}.
Definition platform_of (gws : gmap string (Adapter World)) (rp : gmap string RetryPolicy.t)
    (cp : gmap string CircuitBreakerPolicy.t) : Platform :=
  {| gateways := gateway_of <$> gws; retry_policies := rp; circuit_policies := cp |}.

(** [calm] as a relation. *)
Definition undisturbed (w w' : World) : Prop := Journaled (db w) → sound w w' ∧ sess w' = sess w.
#[export] Instance undisturbed_preorder : PreOrder undisturbed.
Proof.
  split.
  - intros w Hw. split; [by apply sound_refl|done].
  - intros w1 w2 w3 H1 H2 Hw. destruct (H1 Hw) as [Hs1 He1]. destruct (H2 (proj1 Hs1)) as [Hs2 He2].
    split; [by eapply sound_trans|congruence].
Qed.
Lemma calm_keeps {A} (m : H A) : calm m ↔ keeps undisturbed m.
Proof.
  unfold calm, keeps, wp, undisturbed. split; intros Hm w; specialize (Hm w); [intros Hw; specialize (Hm Hw)|intros Hw; specialize (Hm Hw)];
    by destruct (m w) as [[a|e] w'].
Qed.

Lemma registry_platform_ok ed (N : Net World) py_repr cache locks window (G : Guards World) providers gws rp cp :
  net_keeps undisturbed N → cache_keeps undisturbed cache → locks_keep undisturbed locks →
  (∀ slug, guards_keep undisturbed G slug) → (∀ slug, keeps undisturbed (slot_enter G slug)) →
  (∀ slug, keeps undisturbed (slot_exit G slug)) →
  build_provider_registry ed N py_repr cache locks window G providers = Ret gws →
  PlatformOk (platform_of gws rp cp).
Proof.
  intros HN Hc Hl HG Hin Hout Hb.
  pose proof (registry_keeps undisturbed N HN py_repr ed cache locks window G providers gws Hc Hl HG Hin Hout Hb) as Hk.
  split; intros s g x Hg; cbn in Hg; rewrite lookup_fmap in Hg;
    destruct (gws !! s) as [a|] eqn:Ha; try done; injection Hg as <-; apply calm_keeps, (Hk s a Ha).
Qed.

(** * Webhooks *)

(** The signed material and its age, for each provider. *)
Definition in_window (window : Z) (w : InboundWebhook) (timestamp : string) : Prop :=
  ∃ t, parse_timestamp (Some timestamp) = Some t ∧
    Z.abs (instant (in_received_at w) - instant t) ≤ window * us_per_second.
Definition northstar_genuine (config : ProviderSettings) (window : Z) (w : InboundWebhook) : Prop :=
  ∃ signature timestamp secret,
    header w NorthstarAdapter.SIGNATURE_HEADER = Some signature ∧ signature ≠ "" ∧
    header w NorthstarAdapter.TIMESTAMP_HEADER = Some timestamp ∧ timestamp ≠ "" ∧
    ps_webhook_secret config = Some secret ∧ in_window window w timestamp ∧
    candidate_digest signature = compute_hmac_sha256 secret (utf8 timestamp ++ [46] ++ in_body w).
Definition meridian_genuine (config : ProviderSettings) (w : InboundWebhook) : Prop :=
  ∃ signature secret,
    header w MeridianAdapter.SIGNATURE_HEADER = Some signature ∧ signature ≠ "" ∧
    ps_webhook_secret config = Some secret ∧
    candidate_digest signature = compute_hmac_sha256 secret (in_body w).
Definition cobalt_genuine ed (config : ProviderSettings) (window : Z) (w : InboundWebhook) : Prop :=
  ∃ signature timestamp key_id public_key,
    header w CobaltAdapter.SIGNATURE_HEADER = Some signature ∧ signature ≠ "" ∧
    header w CobaltAdapter.TIMESTAMP_HEADER = Some timestamp ∧ timestamp ≠ "" ∧
    header w CobaltAdapter.KEY_ID_HEADER = Some key_id ∧ key_id ≠ "" ∧
    ps_webhook_public_key config = Some public_key ∧ public_key ≠ "" ∧ in_window window w timestamp ∧
    verify_ed25519 ed public_key (utf8 key_id ++ [46] ++ utf8 timestamp ++ [46] ++ in_body w) signature = true.

(** The adapter vouches for the delivery. *)
Definition vouched (o : outcome exn WebhookVerification) : Prop :=
  ∃ v, o = Ret v ∧ wv_verified v = true ∧ verified (wv_signature_metadata v) = true.

Lemma not_vouched m r : ¬ vouched (Ret (webhook_rejected m r)).
Proof. by intros (v & [= <-] & Hv & _). Qed.
Lemma not_vouched_raise e : ¬ vouched (Raise e).
Proof. by intros (v & ? & _). Qed.
(** A branch that rejects: neither side holds. *)
Ltac rejects := split; [by intros ?%not_vouched|naive_solver].

Lemma window_cases window w ts : is_aware (in_received_at w) = true →
  (in_window window w ts ∧
     within_replay_window (parse_timestamp (Some ts)) (in_received_at w) window = Ret true) ∨
  (¬ in_window window w ts ∧
     within_replay_window (parse_timestamp (Some ts)) (in_received_at w) window = Ret false).
Proof.
  intros Hw. unfold in_window. destruct (parse_timestamp (Some ts)) as [t|] eqn:Ht;
    [|right; split; [by intros (? & ? & _)|done]].
  rewrite within_window_spec by (done || by eapply parse_timestamp_aware).
  destruct (bool_decide_reflect (Z.abs (instant (in_received_at w) - instant t) ≤ window * us_per_second)) as [Hb|Hb];
    [left|right]; (split; [|done]); [by exists t|]. by intros (t' & [= <-] & ?).
Qed.

Lemma truthy_ne s : Str.truthy s = true ↔ s ≠ "".
Proof. unfold Str.truthy. by rewrite negb_true_iff, bool_decide_eq_false. Qed.
Lemma truthy_eq s : Str.truthy s = false ↔ s = "".
Proof. unfold Str.truthy. by rewrite negb_false_iff, bool_decide_eq_true. Qed.
(** [rejects] unless the text is there. *)
Ltac needs s :=
  let H := fresh "H" in
  destruct (Str.truthy s) eqn:H; [apply truthy_ne in H|apply truthy_eq in H; rejects].

Lemma northstar_vouches config window w : is_aware (in_received_at w) = true →
  vouched (NorthstarAdapter.validate_webhook config window w) ↔ northstar_genuine config window w.
Proof.
  intros Hw. unfold NorthstarAdapter.validate_webhook, northstar_genuine.
  destruct (header w NorthstarAdapter.SIGNATURE_HEADER) as [sg|]; [|rejects].
  destruct (header w NorthstarAdapter.TIMESTAMP_HEADER) as [ts|]; [|rejects].
  needs sg. needs ts. cbn [negb orb]. destruct (ps_webhook_secret config) as [secret|]; [|rejects].
  destruct (window_cases window w ts Hw) as [[Hin ->]|[Hout ->]]; [|rejects].
  pose proof (verify_hmac_spec secret (utf8 ts ++ [46] ++ in_body w) sg) as Hv.
  destruct (verify_hmac_sha256 secret (utf8 ts ++ [46] ++ in_body w) sg) as [[]|e].
  - split; [|intros _; by eexists]. intros _. exists sg, ts, secret. split_and!; try done. by apply Hv.
  - split; [by intros ?%not_vouched|]. intros (? & ? & ? & [= <-] & _ & [= <-] & _ & [= <-] & _ & Hd). by apply Hv in Hd.
  - split; [by intros ?%not_vouched_raise|]. intros (? & ? & ? & [= <-] & _ & [= <-] & _ & [= <-] & _ & Hd). by apply Hv in Hd.
Qed.

Lemma meridian_vouches config w :
  vouched (MeridianAdapter.validate_webhook config w) ↔ meridian_genuine config w.
Proof.
  unfold MeridianAdapter.validate_webhook, meridian_genuine.
  destruct (header w MeridianAdapter.SIGNATURE_HEADER) as [sg|]; [|rejects]. needs sg. cbn [negb].
  destruct (ps_webhook_secret config) as [secret|]; [|rejects].
  pose proof (verify_hmac_spec secret (in_body w) sg) as Hv. destruct (verify_hmac_sha256 secret (in_body w) sg) as [[]|e].
  - split; [|intros _; by eexists]. intros _. exists sg, secret. split_and!; try done. by apply Hv.
  - split; [by intros ?%not_vouched|]. intros (? & ? & [= <-] & _ & [= <-] & Hd). by apply Hv in Hd.
  - split; [by intros ?%not_vouched_raise|]. intros (? & ? & [= <-] & _ & [= <-] & Hd). by apply Hv in Hd.
Qed.

Lemma cobalt_vouches ed config window w : is_aware (in_received_at w) = true →
  vouched (CobaltAdapter.validate_webhook ed config window w) ↔ cobalt_genuine ed config window w.
Proof.
  intros Hw. unfold CobaltAdapter.validate_webhook, cobalt_genuine.
  destruct (header w CobaltAdapter.SIGNATURE_HEADER) as [sg|]; [|rejects].
  destruct (header w CobaltAdapter.TIMESTAMP_HEADER) as [ts|]; [|rejects].
  destruct (header w CobaltAdapter.KEY_ID_HEADER) as [ki|]; [|rejects].
  needs sg. needs ts. needs ki. cbn [negb orb].
  destruct (ps_webhook_public_key config) as [pk|]; cbn [truthy_opt or_else]; [|rejects]. needs pk. cbn [negb].
  destruct (window_cases window w ts Hw) as [[Hin ->]|[Hout ->]]; [|rejects].
  destruct (verify_ed25519 ed pk _ sg) eqn:Hv; cbn [negb].
  - split; [|intros _; by eexists]. intros _. by exists sg, ts, ki, pk.
  - split; [by intros ?%not_vouched|]. intros (? & ? & ? & ? & [= <-] & _ & [= <-] & _ & [= <-] & _ & [= <-] & _ & _ & Hd).
    congruence.
Qed.

(** * What an operation is said to have come to *)

(** The words of each provider and what they mean. *)
Definition vocabulary : Type := NormalizedStatus.t → list string.
Definition northstar_words : vocabulary := λ s,
  match s with
  | NormalizedStatus.ACCEPTED => ["queued"; "accepted"]
  | NormalizedStatus.PENDING => ["running"; "in_progress"]
  | NormalizedStatus.SUCCEEDED => ["complete"; "completed"]
  | NormalizedStatus.FAILED => ["error"; "failed"]
  | NormalizedStatus.CANCELLED | NormalizedStatus.UNKNOWN => []
  end.
Definition meridian_words : vocabulary := λ s,
  match s with
  | NormalizedStatus.ACCEPTED => ["received"]
  | NormalizedStatus.PENDING => ["processing"; "pending"]
  | NormalizedStatus.SUCCEEDED => ["fulfilled"; "success"]
  | NormalizedStatus.FAILED => ["rejected"; "failure"]
  | NormalizedStatus.CANCELLED => ["cancelled"]
  | NormalizedStatus.UNKNOWN => []
  end.
Definition cobalt_words : vocabulary := λ s,
  match s with
  | NormalizedStatus.ACCEPTED => ["accepted"; "scheduled"]
  | NormalizedStatus.PENDING => ["executing"]
  | NormalizedStatus.SUCCEEDED => ["succeeded"]
  | NormalizedStatus.FAILED => ["failed"]
  | NormalizedStatus.CANCELLED => ["cancelled"; "canceled"]
  | NormalizedStatus.UNKNOWN => []
  end.
(** The provider said one of the words for [s], spaces and case aside. *)
Definition said_so (V : vocabulary) (said : option string) (s : NormalizedStatus.t) : Prop :=
  ∃ text, said = Some text ∧ Str.lower (Str.strip text) ∈ V s.

(** A result without a reference reports acceptance and nothing else, and says so. *)
Definition unnamed (r : ProviderOperationResult) : Prop :=
  res_normalized_status r = NormalizedStatus.ACCEPTED ∧ res_accepted r = true ∧
  dict_get "missing_provider_reference" (res_raw_response_metadata r) = Some (JBool true).
(** Any other result has exactly the status that the provider's word means, and is
    UNKNOWN when the word is none of the provider's; it carries an error exactly when
    it was not accepted, one that says it failed. *)
Record honest (V : vocabulary) (r : ProviderOperationResult) : Prop := {
  honest_status : is_Some (res_provider_reference r) → ∀ s, s ≠ NormalizedStatus.UNKNOWN →
    (res_normalized_status r = s ↔ said_so V (res_provider_status r) s);
  honest_reference : res_provider_reference r = None → unnamed r;
  honest_error : res_accepted r = true ↔ res_error r = None;
  honest_failure : is_Some (res_error r) → res_normalized_status r = NormalizedStatus.FAILED;
}.
(** A creation that is never taken for finished: the words for success and failure
    are UNKNOWN too. *)
Record cautious (V : vocabulary) (r : ProviderOperationResult) : Prop := {
  cautious_status : is_Some (res_provider_reference r) → ∀ s, s ≠ NormalizedStatus.UNKNOWN →
    (res_normalized_status r = s ↔
     said_so V (res_provider_status r) s ∧ s ∉ [NormalizedStatus.SUCCEEDED; NormalizedStatus.FAILED]);
  cautious_reference : res_provider_reference r = None → unnamed r;
  cautious_accepted : res_accepted r = true ∧ res_error r = None;
}.
(** A cancellation: confirmed by the provider's word for it, or refused. *)
Record cancelled_as_said (V : vocabulary) (reference : string) (r : ProviderOperationResult) : Prop := {
  cancel_reference : res_provider_reference r = Some reference;
  cancel_confirmed : said_so V (res_provider_status r) NormalizedStatus.CANCELLED →
    res_accepted r = true ∧ res_normalized_status r = NormalizedStatus.CANCELLED ∧ res_error r = None;
  cancel_refused : ¬ said_so V (res_provider_status r) NormalizedStatus.CANCELLED →
    res_accepted r = false ∧ res_normalized_status r = NormalizedStatus.FAILED ∧
    ∃ e, res_error r = Some e ∧ ei_code e = "provider_cancellation_refused";
}.

Lemma table_get_in {A} k (t : list (string * A)) a : table_get k t = Some a → (k, a) ∈ t.
Proof.
  unfold table_get. destruct (list_find _ t) as [[i [k' a']]|] eqn:Hf; [|done]. cbn. intros [= <-].
  apply list_find_Some in Hf as (Hi & <- & _). by eapply list_elem_of_lookup_2.
Qed.
(** A table of statuses and a vocabulary say the same. *)
Definition agree (mapping : list (string * NormalizedStatus.t)) (V : vocabulary) : bool :=
  forallb (λ kv, bool_decide (kv.1 ∈ V kv.2)) mapping &&
  forallb (λ s, forallb (λ k, bool_decide (table_get k mapping = Some s)) (V s)) members.
Lemma map_status_means raw mapping V s : agree mapping V = true → s ≠ NormalizedStatus.UNKNOWN →
  _map_status raw mapping = s ↔ said_so V raw s.
Proof.
  unfold agree. rewrite andb_true_iff, !forallb_forall. intros [H1 H2] Hs. unfold said_so. split.
  - destruct raw as [raw|]; cbn; [|by intros <-]. intros Hm. exists raw. split; [done|].
    destruct (table_get _ mapping) as [s'|] eqn:Ht; cbn in Hm; [subst s'|by subst s].
    apply table_get_in, list_elem_of_In in Ht. by apply H1, bool_decide_eq_true in Ht.
  - intros (text & -> & Hin). cbn. assert (In s members) as Hm by (destruct s; cbn; tauto). specialize (H2 s Hm).
    rewrite forallb_forall in H2. apply list_elem_of_In, H2, bool_decide_eq_true in Hin. by rewrite Hin.
Qed.

(** The errors an adapter's operation may raise, when its authenticator raises [A]. *)
Definition adapter_error (A : exn → Prop) (e : exn) : Prop :=
  isinstance e ErrorClass.UnsupportedOperationError = true ∨ call_error A e.
(** What Northstar raises on top, for a state that is not text. *)
Definition state_error : exn := EOther "AttributeError: no attribute 'strip'".

Lemma missing_reference_unnamed r status at_ :
  unnamed (result_success NormalizedStatus.ACCEPTED None status
    (dict_merge (response_metadata r) [("missing_provider_reference", JBool true)]) at_).
Proof.
  split_and!; [done..|]. apply dict_get_set_eq.
Qed.
Lemma missing_reference_honest V r status at_ :
  honest V (result_success NormalizedStatus.ACCEPTED None status
    (dict_merge (response_metadata r) [("missing_provider_reference", JBool true)]) at_).
Proof. split; [by intros [? ?]| |done|by intros [? ?]]. intros _. apply missing_reference_unnamed. Qed.

Section Outcomes.
Context {S : Type} (N : Net S) (py_repr : json → string) (auth : Authenticator S) (slug : string) (config : ProviderSettings).

(** [P] of the results and [X] of the exceptions of a run. *)
Definition yields {A} (m : M exn S A) (P : A → Prop) (X : exn → Prop) : Prop :=
  ∀ s, wp m (λ a _, P a) (λ e _, X e) s.

Lemma results_bind {A B} (m : M exn S A) (k : A → M exn S B) (Q : A → Prop) P X :
  yields m Q X → (∀ a, Q a → yields (k a) P X) → yields (bind m k) P X.
Proof. intros Hm Hk s. wp_step. eapply wp_conseq; [apply Hm| |done]. intros a s' Ha. by apply Hk. Qed.
Lemma results_ret {A} (a : A) (P : A → Prop) X : P a → yields (ret a) P X.
Proof. by intros HP s. Qed.
Lemma yields_lift {A} (o : outcome exn A) (P : A → Prop) (X : exn → Prop) :
  (∀ a, o = Ret a → P a) → (∀ e, o = Raise e → X e) → yields (lift o) P X.
Proof. intros HP HX s. wp_step. destruct o; auto. Qed.

(** What is asked of the exceptions of the parts: every set of exceptions that
    has the errors of [_assert_supported]. *)
Context (X : exn → Prop) (HX : ∀ e, isinstance e ErrorClass.UnsupportedOperationError = true → X e).
Context (Hnow : yields (utc_now N) (λ _, True) X).
Context (Hreq : ∀ m p b k, yields (http_request N py_repr auth slug config m p b k) (λ _, True) X).

Lemma assert_supported_yields T op :
  yields (_assert_supported slug T op) (λ _, op ∈ supported_operations T) X.
Proof.
  unfold _assert_supported. intros s. destruct (bool_decide_reflect (op ∈ supported_operations T)); [by wp_step|].
  wp_step. by apply HX.
Qed.
(** Every supported operation has a name. *)
Lemma operation_named T table op e : Forall (λ op, is_Some (list_find (λ kv, kv.1 = op) table)) (supported_operations T) →
  op ∈ supported_operations T → operation_name table op ≠ Raise e.
Proof.
  rewrite Forall_forall. intros Hall Hop. destruct (Hall op Hop) as [[i kv] Hf].
  unfold operation_name. by rewrite Hf.
Qed.

Lemma meridian_create_yields c :
  yields (MeridianAdapter.create_operation N py_repr auth slug config c) (honest meridian_words) X.
Proof.
  unfold MeridianAdapter.create_operation. eapply results_bind; [apply assert_supported_yields|]. intros [] Hop.
  eapply (results_bind _ _ (λ _, True)).
  { apply yields_lift; [done|]. intros e He. exfalso. unfold MeridianAdapter._build_body in He.
    destruct (operation_name _ _) eqn:Ho; [done|]. eapply operation_named; [|exact Hop|exact Ho].
    repeat constructor; eexists; reflexivity. }
  intros body _. eapply results_bind; [apply Hreq|]. intros r _. eapply results_bind; [apply Hnow|]. intros t _.
  apply results_ret. destruct (negb _); [apply missing_reference_honest|].
  split; cbn; try done. intros _ s'. by apply map_status_means.
Qed.

Lemma trusted_means n s : s ≠ NormalizedStatus.UNKNOWN →
  CobaltAdapter.trusted_on_create n = s ↔ n = s ∧ s ∉ [NormalizedStatus.SUCCEEDED; NormalizedStatus.FAILED].
Proof. intros Hs. unfold CobaltAdapter.trusted_on_create. case_bool_decide; naive_solver. Qed.
Lemma cobalt_create_yields c :
  yields (CobaltAdapter.create_operation N py_repr auth slug config c)
    (cautious cobalt_words) X.
Proof.
  unfold CobaltAdapter.create_operation. eapply results_bind; [apply assert_supported_yields|]. intros [] Hop.
  eapply (results_bind _ _ (λ _, True)).
  { apply yields_lift; [done|]. intros e He. exfalso. unfold CobaltAdapter._build_body in He.
    destruct (operation_name _ _) eqn:Ho; [done|]. eapply operation_named; [|exact Hop|exact Ho].
    repeat constructor; eexists; reflexivity. }
  intros body _. eapply results_bind; [apply Hreq|]. intros r _. eapply results_bind; [apply Hnow|]. intros t _.
  apply results_ret. destruct (negb _); [split; [by intros [? ?]|intros _; apply missing_reference_unnamed|done]|].
  split; cbn; [|done|done]. intros _ s' Hs. rewrite trusted_means by done. by rewrite map_status_means.
Qed.

(** A lookup, for any table of statuses. *)
Lemma lookup_yields mapping V reference said md failure :
  agree mapping V = true →
  let normalized := _map_status said mapping in
  let error := if bool_decide (normalized = NormalizedStatus.FAILED) then Some failure else None in
  yields (lift (result_make (mk_result (bool_decide (error = None)) normalized (Some reference) said md error None)))
    (honest V) X.
Proof.
  intros Hw normalized error. apply yields_lift.
  - intros r Hr. assert (r = mk_result (bool_decide (error = None)) normalized (Some reference) said md error None) as ->.
    { unfold result_make in Hr. cbn in Hr. repeat case_match; congruence. }
    split; cbn; [intros _ s' Hs; by apply map_status_means|done|by rewrite bool_decide_eq_true|].
    unfold error. destruct (bool_decide_reflect (normalized = NormalizedStatus.FAILED)); [done|by intros [? ?]].
  - intros e. unfold result_make, error. cbn. by destruct (bool_decide (normalized = NormalizedStatus.FAILED)).
Qed.
Lemma meridian_status_yields reference :
  yields (MeridianAdapter.get_operation_status N py_repr auth slug config reference) (honest meridian_words) X.
Proof.
  unfold MeridianAdapter.get_operation_status. eapply results_bind; [apply Hreq|]. intros r _. by apply lookup_yields.
Qed.
Lemma cobalt_status_yields reference :
  yields (CobaltAdapter.get_operation_status N py_repr auth slug config reference) (honest cobalt_words) X.
Proof.
  unfold CobaltAdapter.get_operation_status. eapply results_bind; [apply Hreq|]. intros r _. by apply lookup_yields.
Qed.
(** A cancellation is reported only when the provider said the job is cancelled. *)
Lemma cobalt_cancel_yields c :
  yields (CobaltAdapter.cancel_operation N py_repr auth slug config c)
    (cancelled_as_said cobalt_words (xc_provider_reference c)) X.
Proof.
  unfold CobaltAdapter.cancel_operation. eapply results_bind; [apply Hreq|]. intros r _. apply results_ret.
  pose proof (map_status_means (optional_str py_repr (_first_present (pr_body r) ["status"; "state"]))
    CobaltAdapter._STATUS_MAP cobalt_words NormalizedStatus.CANCELLED eq_refl) as Hm. specialize (Hm ltac:(done)).
  case_bool_decide as Hc; split; cbn; rewrite <- ?Hm; try done; eauto.
Qed.

(** Northstar passes its state on as it is: anything but text has no [strip]. *)
Lemma northstar_create_yields c :
  X state_error →
  yields (NorthstarAdapter.create_operation N py_repr auth slug config c) (honest northstar_words) X.
Proof.
  intros HO. unfold NorthstarAdapter.create_operation. eapply results_bind; [apply assert_supported_yields|]. intros [] Hop.
  eapply (results_bind _ _ (λ _, True)).
  { apply yields_lift; [done|]. intros e He. exfalso. unfold NorthstarAdapter._build_body in He.
    destruct (operation_name _ _) eqn:Ho; [done|]. eapply operation_named; [|exact Hop|exact Ho].
    repeat constructor; eexists; reflexivity. }
  intros body _. eapply results_bind; [apply Hreq|]. intros r _.
  destruct (negb _); [eapply results_bind; [apply Hnow|]; intros t _; apply results_ret, missing_reference_honest|].
  eapply (results_bind _ _ (λ n, ∀ s, s ≠ NormalizedStatus.UNKNOWN →
    n = s ↔ said_so northstar_words (optional_str py_repr (get_item "state" (pr_body r))) s)).
  { apply yields_lift; [intros n Hn|intros e He]; unfold NorthstarAdapter.map_state in *;
      destruct (get_item "state" (pr_body r)); try done; try (injection He as <-; exact HO);
      injection Hn as <-; intros s' Hs'.
    - by apply (map_status_means None NorthstarAdapter._STATUS_MAP).
    - by apply (map_status_means (Some _) NorthstarAdapter._STATUS_MAP). }
  intros n Hn. eapply results_bind; [apply Hnow|]. intros t _. apply results_ret.
  split; cbn; try done.
Qed.
End Outcomes.

(** An API key raises nothing. *)
Lemma api_key_silent {S} slug config header (auth : Authenticator S) : ApiKeyAuthenticator.init slug config header = Ret auth →
  raises_only (λ _, False) (auth_headers auth) ∧ raises_only (λ _, False) (auth_invalidate auth).
Proof. unfold ApiKeyAuthenticator.init. destruct (ps_api_key config); [|done]. intros [= <-]. by split; intros ?. Qed.
(** A probe answers unless the call raised something else than a provider error. *)
Lemma health_check_answers {S} (N : Net S) (HN : NetOk N) py_repr auth slug config T A :
  raises_only A (auth_headers auth) → raises_only A (auth_invalidate auth) →
  yields (health_check N py_repr auth slug config T) (λ _, True)
    (λ e, (A e ∨ unclassified e) ∧ isinstance e ErrorClass.ProviderError = false).
Proof.
  intros Hh Hi s. unfold health_check, ResilientProviderGateway.catching, http_request.
  wp_step. destruct (utc_now_ok s) as (d0 & s0 & Hn0 & Ha0). unfold wp at 1. rewrite Hn0.
  wp_step. wp_step. wp_step. eapply wp_conseq; [by apply request_errors|..].
  - intros r s1 _. wp_step. wp_step. destruct (utc_now_ok s1) as (d1 & s2 & Hn1 & Ha1). unfold wp at 1. rewrite Hn1.
    wp_step. destruct (utc_now_ok s2) as (d2 & s3 & Hn2 & Ha2). unfold wp at 1. rewrite Hn2.
    by rewrite dt_sub_aware by done.
  - intros e s1 He. destruct (isinstance e ErrorClass.ProviderError) eqn:Hp.
    + destruct e as [d| | | | | | ]; try done. cbn in Hp. rewrite Hp. wp_step. wp_step.
      destruct (utc_now_ok s1) as (d1 & s2 & Hn1 & Ha1). unfold wp at 1. by rewrite Hn1.
    + destruct He as [He|He]; [congruence|]. destruct e as [d| | | | | | ]; try (split; [exact He|done]).
      cbn in Hp. rewrite Hp. split; [exact He|done].
Qed.

(** The gateways of a registry that could be built. *)
Lemma build_gateways_dom {S} ed (N : Net S) py_repr cache locks window G ps : ∀ acc gws,
  build_gateways ed N py_repr cache locks window G ps acc = Ret gws → ∀ slug,
  is_Some (gws !! slug) ↔ is_Some (acc !! slug) ∨ slug ∈ ps.*1 ∧ slug ∈ ["northstar"; "meridian"; "cobalt"].
Proof.
  assert (∀ text, is_Some (table_get text (ADAPTER_FACTORIES ed N py_repr window)) ↔ text ∈ ["northstar"; "meridian"; "cobalt"]) as Hf.
  { intros text. split.
    - unfold table_get, ADAPTER_FACTORIES. cbn. intros [mk Hmk].
      repeat (destruct (decide _) as [<-|]; [set_solver|]). done.
    - rewrite !elem_of_cons, elem_of_nil. intros [->|[->|[->|[]]]]; by eexists. }
  revert Hf. generalize (["northstar"; "meridian"; "cobalt"] : list string) as known. intros known Hf.
  induction ps as [|[text config] ps IH]; intros acc gws; cbn [build_gateways].
  - intros [= <-] slug. set_solver.
  - intros Hb slug. rewrite fmap_cons, elem_of_cons. cbn [fst]. specialize (Hf text).
    destruct (table_get text _) as [mk|] eqn:Hmk.
    + assert (text ∈ known) as Hk by (by apply Hf).
      destruct (ProviderSlug.make text) as [sl|e]; [|done]. destruct (_build_adapter _ _ _ _ _ _ _) as [a|e]; [|done].
      rewrite (IH _ _ Hb slug). destruct (decide (slug = text)) as [->|Hne].
      * rewrite lookup_insert_eq. split; [intros _; right; by split; [left|]|intros _; left; by eexists].
      * rewrite lookup_insert_ne by done. naive_solver.
    + rewrite (IH _ _ Hb slug). assert (text ∉ known) by (by intros [? ?]%Hf). naive_solver.
Qed.

(** * Theorems *)

Module AdapterTheorems.
(** C7. An adapter vouches for a delivery exactly when the signature header holds the
    HMAC-SHA-256 (Northstar, Meridian) or a valid Ed25519 signature (Cobalt) of the
    received bytes under the configured key, and, for Northstar and Cobalt, the
    signed timestamp is within the replay window of the time of receipt, in either
    direction; without a configured key nothing is accepted. *)
Theorem webhooks_accepted_iff_genuine ed (config : ProviderSettings) (window : Z) (w : InboundWebhook) :
  is_aware (in_received_at w) = true →
  (vouched (NorthstarAdapter.validate_webhook config window w) ↔ northstar_genuine config window w) ∧
  (vouched (MeridianAdapter.validate_webhook config w) ↔ meridian_genuine config w) ∧
  (vouched (CobaltAdapter.validate_webhook ed config window w) ↔ cobalt_genuine ed config window w).
Proof.
  intros Hw. split_and!; [by apply northstar_vouches|apply meridian_vouches|by apply cobalt_vouches].
Qed.



(** The start registers a gateway for exactly the enabled providers that have an
    implementation, unless one of them cannot be constructed. *)
Theorem registry_holds_enabled_providers {S} ed (N : Net S) py_repr cache locks window G providers gws slug :
  build_provider_registry ed N py_repr cache locks window G providers = Ret gws →
  is_Some (gws !! slug) ↔
    (∃ config, (slug, config) ∈ providers ∧ ps_enabled config = true) ∧ slug ∈ ["northstar"; "meridian"; "cobalt"].
Proof.
  intros Hb. rewrite (build_gateways_dom _ _ _ _ _ _ _ _ _ _ Hb slug). rewrite lookup_empty, is_Some_alt.
  assert (slug ∈ (enabled_providers providers).*1 ↔ ∃ config, (slug, config) ∈ providers ∧ ps_enabled config = true) as ->.
  { unfold enabled_providers. rewrite list_elem_of_fmap. split.
    - intros ([s config] & -> & [Hin Hen]%list_elem_of_In%filter_In). exists config. by rewrite list_elem_of_In.
    - intros (config & Hin & Hen). exists (slug, config). split; [done|]. rewrite list_elem_of_In in Hin |- *. by apply filter_In. }
  naive_solver.
Qed.

(** The platform run with the registry the container builds, the real adapters
    behind their resilience layer, keeps its audit trail complete and truthful: in
    every state it reaches, every stored request is well-formed and its status is
    what its audit rows replay to. What is asked of the network, the token cache,
    the locks and the guards is that whatever happens while they are waited for
    changes the tables only through the journal. *)
Theorem real_adapters_keep_the_audit_trail `{Env} `{X : Externals} {HX : ExternalsOk X} ed (N : Net World) repr cache locks
    window (G : Guards World) providers gws rp cp (cfg : Settings) (w : World) :
  net_keeps undisturbed N → cache_keeps undisturbed cache → locks_keep undisturbed locks →
  (∀ slug, guards_keep undisturbed G slug) → (∀ slug, keeps undisturbed (slot_enter G slug)) →
  (∀ slug, keeps undisturbed (slot_exit G slug)) →
  build_provider_registry ed N repr cache locks window G providers = Ret gws →
  reachable (P := platform_of gws rp cp) cfg w → Journaled (db w).
Proof.
  intros HN Hc Hl HG Hin Hout Hb (w0 & Hz & Hr).
  pose proof (registry_platform_ok ed N repr cache locks window G providers gws rp cp HN Hc Hl HG Hin Hout Hb) as HP.
  apply (steps_sound (HP := HP) cfg w0 w); [|done]. rewrite Hz. apply journaled_empty.
Qed.
End AdapterTheorems.

(** * Concrete runs *)

Module AdapterWitnesses.
Import AdapterTheorems TransportWitnesses.

Definition keyed (api_key : option string) : ProviderSettings :=
  mk_provider_settings true "" AuthenticationType.API_KEY "https://provider" None None None None api_key
    (Some "s3cret") None 10 3 8 60.
(** A delivery signed ten seconds before it arrives. *)
Definition signed_at : string := "1700000000".
Definition delivery_body : list Z := utf8 "{}".
Definition delivery : InboundWebhook :=
  mk_inbound "northstar"
    [("x-northstar-timestamp", signed_at);
     ("x-northstar-signature", "sha256=" +:+ compute_hmac_sha256 "s3cret" (utf8 signed_at ++ [46] ++ delivery_body))]
    delivery_body (utc (epoch_us + 1700000010000000)) None.
Lemma webhooks_accepted_iff_genuine_witness :
  vouched (NorthstarAdapter.validate_webhook (keyed None) 300 delivery) ∧
  northstar_genuine (keyed None) 300 delivery ∧
  ¬ vouched (NorthstarAdapter.validate_webhook (keyed None) 5 delivery).
Proof.
  assert (vouched (NorthstarAdapter.validate_webhook (keyed None) 300 delivery)) as Hv
    by (eexists; split; [vm_compute; reflexivity|by split]).
  split; [exact Hv|]. split; [apply (webhooks_accepted_iff_genuine (λ _ _ _, false) (keyed None) 300 delivery eq_refl), Hv|].
  intros (v & Hr & Ht & _). vm_compute in Hr. injection Hr as <-. discriminate Ht.
Defined.


(** Guards that let everything through, and a cache that holds nothing. *)
Definition open_guards (S : Type) : Guards S := {|
  acquire _ := ret true;
  retry_after _ := ret 0%Q;
  allow _ := ret true;
  circuit_state _ := ret closed_snapshot;
  record_success _ := ret CircuitState.CLOSED;
  record_failure _ := ret CircuitState.CLOSED;
  slot_enter _ := ret tt;
  slot_exit _ := ret tt;
  get_last_state _ _ := CircuitState.CLOSED;
  set_last_state _ _ s := s;
  on_circuit_change := None;
  sleep _ := ret tt |}.
Definition no_cache (S : Type) : TokenCache S :=
  {| cache_get _ := ret None; cache_set _ _ := ret tt; cache_invalidate _ := ret tt |}.
Definition no_locks (S : Type) : LockManager S := {| with_lock _ _ _ _ body := body true |}.
Lemma idle_guards_keep {S} (R : relation S) `{!PreOrder R} slug : guards_keep R (open_guards S) slug.
Proof. split; cbn; intros; try keeps_go; [reflexivity|done]. Qed.

Definition configured : list (string * ProviderSettings) :=
  [("cobalt", keyed (Some "k1")); ("ghost", keyed None);
   ("meridian", mk_provider_settings false "" AuthenticationType.API_KEY "" None None None None None None None 10 3 8 60)].
Definition answer : string :=
  "{" +:+ qt +:+ "job_id" +:+ qt +:+ ":" +:+ qt +:+ "op-9" +:+ qt +:+ "," +:+ qt +:+ "status" +:+ qt +:+ ":" +:+
  qt +:+ "accepted" +:+ qt +:+ "}".
Definition world_net : Net World :=
  {| nested_too_deep _ := false; client_request _ := ret (inr (mk_http_response 202 [] (utf8 answer)));
     utc_now := ret (utc 63800000000000000);
     perf_counter := ret 0%Q;
     current_correlation_id _ := Some "corr-1" |}.
Definition registered : gmap string (Adapter World) :=
  match build_provider_registry (λ _ _ _, false) world_net no_repr (no_cache World) (no_locks World) 300
          (open_guards World) configured with
  | Ret gws => gws
  | Raise _ => ∅
  end.
Lemma registry_holds_enabled_providers_witness :
  is_Some (registered !! "cobalt") ∧
  (is_Some (registered !! "meridian") ↔
     (∃ config, ("meridian", config) ∈ configured ∧ ps_enabled config = true) ∧
     "meridian" ∈ ["northstar"; "meridian"; "cobalt"]).
Proof.
  split; [by eexists|].
  apply (registry_holds_enabled_providers (λ _ _ _, false) world_net no_repr (no_cache World) (no_locks World) 300
           (open_guards World) configured registered "meridian"). reflexivity.
Defined.

Definition real_platform : Platform := platform_of registered {[ "cobalt" := sample_policy ]} ∅.
Definition after_create : World :=
  (handle (P := real_platform) (X := SystemTheorems.sample_externals) SystemTheorems.sample_settings
     (Create (CreateTheorems.sample_command [])) CreateTheorems.empty_world).2.
Lemma after_create_reachable :
  reachable (P := real_platform) (X := SystemTheorems.sample_externals) SystemTheorems.sample_settings after_create.
Proof.
  exists CreateTheorems.empty_world. split; [done|]. eapply rtc_l; [|constructor].
  apply (step_handle (P := real_platform) (X := SystemTheorems.sample_externals) _ (Create (CreateTheorems.sample_command []))).
Qed.
Lemma real_adapters_keep_the_audit_trail_witness :
  (IntegrationRequest.status <$> t_requests (db after_create) !! 100%N) = Some RequestStatus.PENDING ∧
  Journaled (db after_create).
Proof.
  split; [vm_compute; reflexivity|].
  apply (real_adapters_keep_the_audit_trail (X := SystemTheorems.sample_externals) (HX := SystemTheorems.sample_externals_ok)
           (λ _ _ _, false) world_net no_repr (no_cache World) (no_locks World) 300 (open_guards World) configured registered
           {[ "cobalt" := sample_policy ]} ∅ SystemTheorems.sample_settings after_create).
  - split; cbn; intros; keeps_go.
  - split; cbn; intros; keeps_go.
  - intros r ttl wait A body Hb. apply Hb.
  - intros slug. apply idle_guards_keep, _.
  - intros slug. cbn. keeps_go.
  - intros slug. cbn. keeps_go.
  - reflexivity.
  - apply after_create_reachable.
Defined.

(** A creation answered with a state that is not text ends in the exception of
    [raw.strip()], after the provider accepted it. *)
Definition odd_answer : string :=
  "{" +:+ qt +:+ "operation_id" +:+ qt +:+ ":" +:+ qt +:+ "op-9" +:+ qt +:+ "," +:+ qt +:+ "state" +:+ qt +:+ ":1}".
Example northstar_state_not_text :
  (NorthstarAdapter.create_operation (canned (mk_http_response 202 [] (utf8 odd_answer))) no_repr (fixed_auth false) "northstar"
     settings (mk_create_cmd 1 "northstar" OperationType.RESOURCE_UPDATE "ref" [] "corr" "key" 1) []).1 =
    Raise (EOther "AttributeError: no attribute 'strip'").
Proof. vm_compute. reflexivity. Qed.
(** A signature header that is not ASCII ends in an exception, not a rejection. *)
Example signature_not_ascii :
  MeridianAdapter.validate_webhook (keyed None)
    (mk_inbound "meridian" [("x-meridian-signature", String (Text.chr 233) "")] delivery_body (utc 0) None) =
    Raise (ETypeError "comparing strings with non-ASCII characters is not supported").
Proof. vm_compute. reflexivity. Qed.
End AdapterWitnesses.
