(* ===== verification/Access.v ===== *)
(** Who may do what: bearer tokens and scopes
    ([infrastructure/security/tokens.py], [api/security.py]), ownership of
    objects ([api/ownership.py]), and how errors are answered
    ([api/errors.py]).

    [jwt.decode] and [jwt.encode] belong to PyJWT: the first is a parameter that
    answers the claims of a token that passed every check it was asked for, or
    [None] for a [PyJWTError]. A set of scopes is a list of which only the
    elements matter. *)

From S2P Require Import Prelude PyData PyTime PyText JsonText Enums Errors ValueObjects CreateRequest.

(** * Scopes *)

Module Scope.
Definition REQUESTS_READ : string := "requests:read".
Definition REQUESTS_WRITE : string := "requests:write".
Definition REQUESTS_RETRY : string := "requests:retry".
Definition REQUESTS_CANCEL : string := "requests:cancel".
Definition PROVIDERS_READ : string := "providers:read".
Definition OPERATIONS_ADMIN : string := "operations:admin".
Definition ALL : list string :=
  [REQUESTS_READ; REQUESTS_WRITE; REQUESTS_RETRY; REQUESTS_CANCEL; PROVIDERS_READ; OPERATIONS_ADMIN].
End Scope.

(** [ROLE_SCOPES.get(role, frozenset())] *)
Definition ROLE_SCOPES (role : string) : list string :=
  if bool_decide (role = "viewer") then [Scope.REQUESTS_READ; Scope.PROVIDERS_READ]
  else if bool_decide (role = "integration-client")
  then [Scope.REQUESTS_READ; Scope.REQUESTS_WRITE; Scope.PROVIDERS_READ]
  else if bool_decide (role = "operator") then Scope.ALL
  else [].

Record Principal := mk_principal {
  subject : string;
  scopes : list string;
  roles : list string;
  token_id : json;
}.
Definition has_scope (p : Principal) (scope : string) : bool := bool_decide (scope ∈ scopes p).
Definition require (p : Principal) (scope : string) (correlation_id : option string) : outcome exn unit :=
  if negb (has_scope p scope) then Raise (AuthorizationError scope correlation_id) else Ret tt.

Section Tokens.
Context (py_repr : json → string) (jwt_decode : string → option dict).

Definition space (c : Ascii.ascii) : bool := Text.is_code 32 c.
Definition _as_list (v : json) : list string :=
  match v with
  | JStr s => List.filter Str.truthy (Text.split space s)
  | JList l => py_str py_repr <$> l
  | _ => []
  end.

(** Unknown scopes are dropped. *)
Definition _resolve_scopes (claims : dict) : list string :=
  List.filter (λ scope, bool_decide (scope ∈ Scope.ALL))
    (_as_list (get_item "scope" claims) ++ _as_list (get_item "scopes" claims) ++
     mjoin (ROLE_SCOPES <$> _as_list (get_item "roles" claims))).

Definition AuthenticationError (msg : string) (correlation_id : option string) : exn :=
  error ErrorClass.AuthenticationError msg (no_kwargs <| k_correlation_id := correlation_id |>).

(** [TokenVerifier.verify] *)
Definition verify (token : string) (correlation_id : option string) : outcome exn Principal :=
  match jwt_decode token with
  | None => Raise (AuthenticationError "the supplied bearer token is not valid" correlation_id)
  | Some claims =>
      match dict_get "sub" claims with
      | None => Raise (EKeyError "sub")
      | Some sub => Ret (mk_principal (py_str py_repr sub) (_resolve_scopes claims)
                           (_as_list (get_item "roles" claims)) (get_item "jti" claims))
      end
  end.

(** [get_principal]: the credentials of the [Authorization] header. *)
Definition get_principal (credentials : option string) (correlation_id : string) : outcome exn Principal :=
  match credentials with
  | Some c => if Str.truthy c then verify c (Some correlation_id)
              else Raise (AuthenticationError "a bearer token is required" (Some correlation_id))
  | None => Raise (AuthenticationError "a bearer token is required" (Some correlation_id))
  end.
Definition require_scope (scope : string) (credentials : option string) (correlation_id : string) : outcome exn Principal :=
  match get_principal credentials correlation_id with
  | Raise e => Raise e
  | Ret principal =>
      match require principal scope (Some correlation_id) with
      | Raise e => Raise e
      | Ret _ => Ret principal
      end
  end.

(** [_scopes_for_roles] and the claims of a token for local development. *)
Definition _scopes_for_roles (roles : list string) : list string := remove_dups (mjoin (ROLE_SCOPES <$> roles)).
Record JWTSettings := mk_jwt_settings {
  js_algorithm : string;
  js_issuer : string;
  js_audience : string;
  js_access_token_ttl_seconds : Z;
}.
Definition local_claims (settings : JWTSettings) (subject : string) (roles : list string) (ttl_seconds : option Z)
    (now : Z) : dict :=
  let lifetime := match ttl_seconds with
                  | Some t => if t =? 0 then js_access_token_ttl_seconds settings else t
                  | None => js_access_token_ttl_seconds settings
                  end in
  [("sub", JStr subject); ("iss", JStr (js_issuer settings)); ("aud", JStr (js_audience settings));
   ("iat", JInt now); ("nbf", JInt now); ("exp", JInt (now + lifetime));
   ("roles", JList (JStr <$> roles));
   ("scope", JStr (String.concat " " (sorted_strings (_scopes_for_roles roles))))].
Definition issue_local_token (jwt_encode : dict → string) (settings : JWTSettings) (subject : string)
    (roles : list string) (ttl_seconds : option Z) (now : Z) : outcome exn string :=
  if negb (bool_decide (js_algorithm settings = "HS256"))
  then Raise (EValueError "local token minting is only supported with HS256")
  else Ret (jwt_encode (local_claims settings subject roles ttl_seconds now)).
End Tokens.

(** * Ownership *)

(** [assert_owner_access] *)
Definition assert_owner_access (principal : Principal) (owner_subject : option string) (enforce : bool)
    (resource_label : string) : outcome exn unit :=
  if negb enforce then Ret tt
  else if has_scope principal Scope.OPERATIONS_ADMIN then Ret tt
  else match owner_subject with
       | None => Ret tt
       | Some owner =>
           if bool_decide (owner = subject principal) then Ret tt
           else Raise (error ErrorClass.NotFoundError (resource_label +:+ " not found") no_kwargs)
       end.

(** * Answers to errors *)

Definition STATUS_BY_CATEGORY (c : ErrorCategory.t) : Z :=
  match c with
  | ErrorCategory.VALIDATION => 400
  | ErrorCategory.AUTHENTICATION => 401
  | ErrorCategory.AUTHORIZATION => 403
  | ErrorCategory.NOT_FOUND => 404
  | ErrorCategory.CONFLICT => 409
  | ErrorCategory.UNSUPPORTED_OPERATION => 422
  | ErrorCategory.PROVIDER_VALIDATION => 502
  | ErrorCategory.PROVIDER_AUTHENTICATION => 502
  | ErrorCategory.PROVIDER_RATE_LIMIT => 429
  | ErrorCategory.PROVIDER_TIMEOUT => 504
  | ErrorCategory.PROVIDER_UNAVAILABLE => 503
  | ErrorCategory.INTERNAL => 500
  end.
Definition status_for (e : domain_error) : Z := STATUS_BY_CATEGORY (category e).

(** [payload.setdefault("correlation_id", ...)] *)
Definition error_payload (current_correlation_id : option string) (e : domain_error) : dict :=
  let payload := detail_to_dict e in
  [("error", JObj (match dict_get "correlation_id" payload with
                   | Some _ => payload
                   | None => payload ++ [("correlation_id", jopt current_correlation_id)]
                   end))].

Definition CORRELATION_HEADER : string := "X-Correlation-ID".
Definition _headers (current_correlation_id : option string) (e : domain_error) : list (string * string) :=
  (match or_opt (err_correlation_id e) current_correlation_id with
   | Some c => if Str.truthy c then [(CORRELATION_HEADER, c)] else []
   | None => []
   end) ++
  (if ErrorClass.subclass (cls e) ErrorClass.ProviderRateLimitError || ErrorClass.subclass (cls e) ErrorClass.CircuitOpenError
   then match retry_after_seconds e with
        | Some q => if Qeq_bool q 0 then [] else [("Retry-After", pretty (Z.quot (Qnum q) (Zpos (Qden q))))]
        | None => []
        end
   else []) ++
  (if bool_decide (category e = ErrorCategory.AUTHENTICATION)
   then [("WWW-Authenticate", "Bearer realm=" +:+ quoted "integration-orchestrator")] else []).

Record reply := mk_reply {
  rep_status : Z;
  rep_body : json;
  rep_headers : list (string * string);
}.

(** An error in the request itself, found by the framework. *)
Definition RequestValidationError : exn := EOther "RequestValidationError".
Definition is_request_validation (e : exn) : bool :=
  match e with EOther s => bool_decide (s = "RequestValidationError") | _ => false end.
Definition error_body (code message category : string) (retryable : bool) (more : dict) : json :=
  JObj [("error", JObj ([("code", JStr code); ("message", JStr message); ("category", JStr category);
                         ("retryable", JBool retryable)] ++ more))].

(** The handlers of [register_exception_handlers]; [violations] summarises what is
    wrong with the request. *)
Definition answer_exception (current_correlation_id : option string) (violations : json) (e : exn) : reply :=
  match e with
  | EDomain d => mk_reply (status_for d) (JObj (error_payload current_correlation_id d)) (_headers current_correlation_id d)
  | _ =>
      if is_request_validation e then
        mk_reply 400 (error_body "request_validation_failed" "the request body or parameters are not valid"
                        (value ErrorCategory.VALIDATION) false
                        [("correlation_id", jopt current_correlation_id); ("metadata", JObj [("violations", violations)])]) []
      else
        mk_reply 500 (error_body "internal_error" "an unexpected error occurred" (value ErrorCategory.INTERNAL) true
                        [("correlation_id", jopt current_correlation_id)]) []
  end.

(** Framework errors such as an unknown route share the envelope. *)
Definition _code_for_status (status : Z) : string :=
  if status =? 400 then "bad_request" else if status =? 401 then "authentication_failed"
  else if status =? 403 then "insufficient_scope" else if status =? 404 then "not_found"
  else if status =? 409 then "conflict" else if status =? 429 then "rate_limited" else "http_error".
Definition _category_for_status (status : Z) : ErrorCategory.t :=
  if status =? 401 then ErrorCategory.AUTHENTICATION else if status =? 403 then ErrorCategory.AUTHORIZATION
  else if status =? 404 then ErrorCategory.NOT_FOUND else if status =? 409 then ErrorCategory.CONFLICT
  else if 500 <=? status then ErrorCategory.INTERNAL else ErrorCategory.VALIDATION.
Definition answer_http_error (current_correlation_id : option string) (status : Z) (detail : string)
    (headers : list (string * string)) : reply :=
  mk_reply status (error_body (_code_for_status status) detail (value (_category_for_status status)) (500 <=? status)
                     [("correlation_id", jopt current_correlation_id)]) headers.

(** * Facts *)

Section Facts.
Context (py_repr : json → string).

(** A scope is granted exactly when the service defines it and the token names it
    or holds a role that implies it. *)
Lemma resolve_scopes_spec claims scope :
  scope ∈ _resolve_scopes py_repr claims ↔
  scope ∈ Scope.ALL ∧
  (scope ∈ _as_list py_repr (get_item "scope" claims) ∨ scope ∈ _as_list py_repr (get_item "scopes" claims) ∨
   ∃ role, role ∈ _as_list py_repr (get_item "roles" claims) ∧ scope ∈ ROLE_SCOPES role).
Proof.
  unfold _resolve_scopes. rewrite list_elem_of_In, filter_In, <- list_elem_of_In, bool_decide_eq_true, !elem_of_app.
  assert (∀ l : list string, scope ∈ mjoin (ROLE_SCOPES <$> l) ↔ ∃ role, role ∈ l ∧ scope ∈ ROLE_SCOPES role) as ->; [|tauto].
  intros l. rewrite list_elem_of_join. setoid_rewrite list_elem_of_fmap. naive_solver.
Qed.

Lemma role_scopes_known role : ∀ scope, scope ∈ ROLE_SCOPES role → scope ∈ Scope.ALL.
Proof. unfold ROLE_SCOPES, Scope.ALL. repeat case_bool_decide; set_solver. Qed.

(** Splitting what was joined. *)
Definition spaceless (s : string) : bool := Str.all_chars (λ c, negb (space c)) s.
Lemma split_spaceless s : spaceless s = true → Text.split space s = [s].
Proof.
  induction s as [|c s IH]; [done|]. unfold spaceless. cbn. intros [Hc Hs]%andb_true_iff.
  apply negb_true_iff in Hc. rewrite Hc. by rewrite IH.
Qed.
Lemma split_join s t : spaceless s = true → Text.split space (s +:+ " " +:+ t) = s :: Text.split space t.
Proof.
  induction s as [|c s IH]; [done|]. unfold spaceless. cbn [Str.all_chars]. intros [Hc Hs]%andb_true_iff.
  apply negb_true_iff in Hc. rewrite append_cons. cbn [Text.split]. rewrite Hc. by rewrite IH.
Qed.
Lemma split_concat l : Forall (λ s, spaceless s = true) l → l ≠ [] →
  Text.split space (String.concat " " l) = l.
Proof.
  induction 1 as [|s l Hs Hl IH]; [done|]. intros _. destruct l as [|s' l]; [by apply split_spaceless|].
  rewrite concat_cons, split_join by done. by rewrite IH.
Qed.
Lemma as_list_concat l : Forall (λ s, spaceless s = true ∧ s ≠ "") l →
  _as_list py_repr (JStr (String.concat " " l)) = l.
Proof.
  intros Hl. destruct (decide (l = [])) as [->|Hne]; [reflexivity|]. unfold _as_list.
  rewrite split_concat; [|eapply Forall_impl; [exact Hl|by intros ? []]|done]. clear Hne.
  induction Hl as [|s l [_ Hs] Hl IH]; [done|]. cbn. unfold Str.truthy at 1. rewrite bool_decide_false by done. cbn. by rewrite IH.
Qed.
Lemma scopes_plain : Forall (λ s, spaceless s = true ∧ s ≠ "") Scope.ALL.
Proof. repeat constructor; done. Qed.

Lemma scopes_for_roles_spec roles scope :
  scope ∈ _scopes_for_roles roles ↔ ∃ role, role ∈ roles ∧ scope ∈ ROLE_SCOPES role.
Proof.
  unfold _scopes_for_roles. rewrite elem_of_remove_dups, list_elem_of_join. setoid_rewrite list_elem_of_fmap. naive_solver.
Qed.
End Facts.

(** * Theorems *)

Module AccessTheorems.
(** A verified token grants exactly the scopes that the service defines and that
    the token names, as text or as a list, or that one of its roles implies; a
    scope of another system is dropped; and without a token that passed the
    checks nobody is authenticated. *)
Theorem scopes_are_exactly_granted (py_repr : json → string) (jwt_decode : string → option dict) credentials corr p scope :
  get_principal py_repr jwt_decode credentials corr = Ret p →
  ∃ token claims, credentials = Some token ∧ jwt_decode token = Some claims ∧
    (has_scope p scope = true ↔
       scope ∈ Scope.ALL ∧
       (scope ∈ _as_list py_repr (get_item "scope" claims) ∨ scope ∈ _as_list py_repr (get_item "scopes" claims) ∨
        ∃ role, role ∈ _as_list py_repr (get_item "roles" claims) ∧ scope ∈ ROLE_SCOPES role)).
Proof.
  unfold get_principal, verify. destruct credentials as [token|]; [|done]. destruct (Str.truthy token); [|done].
  destruct (jwt_decode token) as [claims|] eqn:Hd; [|done]. destruct (dict_get "sub" claims) as [sub|]; [|done].
  intros [= <-]. exists token, claims. split_and!; [done|done|].
  unfold has_scope. cbn [scopes]. rewrite bool_decide_eq_true. apply resolve_scopes_spec.
Qed.

(** A token minted for local development authenticates its subject with exactly
    the scopes of its roles: written by the one side, read by the other. *)
Theorem local_token_roundtrip (py_repr : json → string) jwt_encode jwt_decode settings who roles ttl now token corr :
  let claims := local_claims settings who roles ttl now in
  jwt_decode (jwt_encode claims) = Some claims →
  issue_local_token jwt_encode settings who roles ttl now = Ret token →
  token ≠ "" →
  ∃ p, get_principal py_repr jwt_decode (Some token) corr = Ret p ∧ subject p = who ∧
    ∀ scope, has_scope p scope = true ↔ ∃ role, role ∈ roles ∧ scope ∈ ROLE_SCOPES role.
Proof.
  intros claims Hjwt. unfold issue_local_token. destruct (negb _); [done|]. fold claims. intros [= <-] Hne.
  unfold get_principal, verify. rewrite (proj2 (Str.truthy_true _)) by done. rewrite Hjwt.
  eexists. split; [reflexivity|]. split; [reflexivity|]. intros scope. unfold has_scope. cbn [Access.scopes].
  rewrite bool_decide_eq_true, resolve_scopes_spec.
  change (get_item "roles" claims) with (JList (JStr <$> roles)).
  change (get_item "scopes" claims) with JNull.
  change (get_item "scope" claims) with (JStr (String.concat " " (sorted_strings (_scopes_for_roles roles)))).
  assert (_as_list py_repr (JList (JStr <$> roles)) = roles) as ->.
  { unfold _as_list. rewrite <- list_fmap_compose. rewrite <- (list_fmap_id roles) at 2. by apply list_fmap_ext. }
  rewrite as_list_concat.
  - unfold sorted_strings. rewrite merge_sort_Permutation, scopes_for_roles_spec. split.
    + intros [_ [Hr|[Hr|Hr]]]; [done|by apply elem_of_nil in Hr|done].
    + intros Hr. split; [|by left]. destruct Hr as (role & _ & Hs). by eapply role_scopes_known.
  - unfold sorted_strings. rewrite merge_sort_Permutation. apply Forall_forall. intros s Hs.
    apply scopes_for_roles_spec in Hs as (role & _ & Hs%role_scopes_known).
    pose proof scopes_plain as Hp. rewrite Forall_forall in Hp. by apply Hp.
Qed.

Definition bare_claims : dict := [("sub", JStr "alice"); ("scope", JStr "requests:read billing:write")].
Lemma scopes_are_exactly_granted_witness : ∃ p,
  get_principal (λ _, "") (λ _, Some bare_claims) (Some "t") "corr" = Ret p ∧
  ∃ token claims, Some "t" = Some token ∧ Some bare_claims = Some claims ∧
    (has_scope p "billing:write" = true ↔
       "billing:write" ∈ Scope.ALL ∧
       ("billing:write" ∈ _as_list (λ _, "") (get_item "scope" claims) ∨
        "billing:write" ∈ _as_list (λ _, "") (get_item "scopes" claims) ∨
        ∃ role, role ∈ _as_list (λ _, "") (get_item "roles" claims) ∧ "billing:write" ∈ ROLE_SCOPES role)).
Proof.
  eexists. split; [reflexivity|].
  eapply (scopes_are_exactly_granted (λ _, "") (λ _, Some bare_claims) (Some "t") "corr"). reflexivity.
Defined.


(** A token that is the text of its claims. *)
Definition sample_jwt : JWTSettings := mk_jwt_settings "HS256" "iss" "aud" 3600.
Definition text_encode (claims : dict) : string := print (λ _, "") "" (JObj claims).
Definition text_decode (token : string) : option dict :=
  match loads_text token with inr (JObj claims) => Some claims | _ => None end.
Definition local_token : string := text_encode (local_claims sample_jwt "alice" ["viewer"] None 0).
Lemma local_token_roundtrip_witness : ∃ p,
  get_principal (λ _, "") text_decode (Some local_token) "corr" = Ret p ∧ subject p = "alice" ∧
  ∀ scope, has_scope p scope = true ↔ ∃ role, role ∈ ["viewer"] ∧ scope ∈ ROLE_SCOPES role.
Proof.
  apply (local_token_roundtrip (λ _, "") text_encode text_decode sample_jwt "alice" ["viewer"] None 0 local_token "corr").
  - vm_compute. reflexivity.
  - reflexivity.
  - vm_compute. discriminate.
Defined.
End AccessTheorems.
