(* ===== verification/Api.v ===== *)
(** The HTTP endpoints ([api/routers/integration_requests.py],
    [api/routers/workflows.py], [api/routers/webhooks.py]), the dependencies they
    declare ([api/dependencies.py]), the middleware that binds the correlation id
    ([api/middleware.py]) and the shapes they take and answer
    ([api/schemas/requests.py], [api/schemas/responses.py]).

    FastAPI and pydantic are not part of the repository: a call carries its
    parameters and its body as the typed values they were read as, and the
    declared bounds are checked here. Dependencies run before the bounds are
    looked at. What is answered is the response model, not its bytes. *)

From S2P Require Import Prelude PyData PyTime PyText Enums Errors StateMachine ValueObjects Policies Entities.
From S2P Require Import RequestFacts Workflow Records Store Journal Ports Settlement Dispatcher DispatcherFacts CreateRequest.
From S2P Require Import Samples Operator WebhookIngestion Workers Queries.
From S2P Require Import WorkflowStore Orchestrator OrchestratorFacts System Transport Access.

(** * Responses *)

Record FailureSummary := mk_failure_summary {
  fs_code : string;
  fs_message : string;
  fs_category : option string;
}.
Record IntegrationRequestResponse := mk_request_response {
  rr_id : UUID;
  rr_provider : string;
  rr_operation_type : OperationType.t;
  rr_external_reference : string;
  rr_status : RequestStatus.t;
  rr_correlation_id : string;
  rr_payload : dict;
  rr_provider_reference : option string;
  rr_attempt_count : Z;
  rr_next_retry_at : option datetime;
  rr_completed_at : option datetime;
  rr_manual_review_reason : option string;
  rr_last_failure : option FailureSummary;
  rr_created_at : datetime;
  rr_updated_at : datetime;
}.
(** [IntegrationRequestResponse.from_domain] *)
Definition request_response (r : IntegrationRequest.t) : IntegrationRequestResponse := {|
  rr_id := IntegrationRequest.id r;
  rr_provider := IntegrationRequest.provider r;
  rr_operation_type := IntegrationRequest.operation_type r;
  rr_external_reference := IntegrationRequest.external_reference r;
  rr_status := IntegrationRequest.status r;
  rr_correlation_id := IntegrationRequest.correlation_id r;
  rr_payload := IntegrationRequest.normalized_payload r;
  rr_provider_reference := IntegrationRequest.provider_reference r;
  rr_attempt_count := IntegrationRequest.attempt_count r;
  rr_next_retry_at := IntegrationRequest.next_retry_at r;
  rr_completed_at := IntegrationRequest.completed_at r;
  rr_manual_review_reason := IntegrationRequest.manual_review_reason r;
  rr_last_failure :=
    match IntegrationRequest.last_error_code r with
    | Some code => if Str.truthy code
                   then Some (mk_failure_summary code (or_else (IntegrationRequest.last_error_message r) "")
                                (IntegrationRequest.last_error_category r))
                   else None
    | None => None
    end;
  rr_created_at := IntegrationRequest.created_at r;
  rr_updated_at := IntegrationRequest.updated_at r |}.

Record AuditEventResponse := mk_audit_response {
  ar_id : UUID;
  ar_action : string;
  ar_actor_type : string;
  ar_actor_id : option string;
  ar_previous_state : option string;
  ar_new_state : option string;
  ar_correlation_id : string;
  ar_occurred_at : datetime;
  ar_metadata : dict;
}.
(** [AuditEventResponse.from_domain] *)
Definition audit_response (e : AuditEvent.t) : AuditEventResponse := {|
  ar_id := AuditEvent.id e;
  ar_action := value (AuditEvent.action e);
  ar_actor_type := value (AuditEvent.actor e);
  ar_actor_id := AuditEvent.actor_id e;
  ar_previous_state := AuditEvent.previous_state e;
  ar_new_state := AuditEvent.new_state e;
  ar_correlation_id := AuditEvent.correlation_id e;
  ar_occurred_at := AuditEvent.occurred_at e;
  ar_metadata := AuditEvent.metadata e |}.

Record WorkflowStepResponse := mk_step_response {
  sr_key : string;
  sr_provider : string;
  sr_status : string;
  sr_integration_request_id : option UUID;
  sr_compensation_request_id : option UUID;
  sr_attempt_count : Z;
  sr_completed_at : option string;
}.
Record WorkflowExecutionResponse := mk_workflow_response {
  er_id : UUID;
  er_definition_name : string;
  er_definition_version : Z;
  er_status : string;
  er_correlation_id : string;
  er_steps : list WorkflowStepResponse;
  er_manual_review_reason : option string;
  er_cancel_reason : option string;
  er_deadline_at : option string;
}.
Definition _to_response (e : WorkflowExecution.t) : WorkflowExecutionResponse := {|
  er_id := WorkflowExecution.id e;
  er_definition_name := WorkflowExecution.definition_name e;
  er_definition_version := WorkflowExecution.definition_version e;
  er_status := value (WorkflowExecution.status e);
  er_correlation_id := WorkflowExecution.correlation_id e;
  er_steps := map (λ s, {| sr_key := Step.step_key s; sr_provider := Step.provider s; sr_status := value (Step.status s);
                           sr_integration_request_id := Step.integration_request_id s;
                           sr_compensation_request_id := Step.compensation_request_id s;
                           sr_attempt_count := Step.attempt_count s;
                           sr_completed_at := isoformat <$> Step.completed_at s |}) (WorkflowExecution.steps e);
  er_manual_review_reason := WorkflowExecution.manual_review_reason e;
  er_cancel_reason := WorkflowExecution.cancel_reason e;
  er_deadline_at := isoformat <$> WorkflowExecution.deadline_at e |}.

(** What an endpoint answers when it does not raise: the status and the model. *)
Inductive api_result : Type :=
  | RequestResult (status : Z) (location : option string) (r : IntegrationRequestResponse)
  | PageResult (items : list IntegrationRequestResponse) (next_cursor : option string) (has_more : bool)
  | AuditResult (request_id : UUID) (events : list AuditEventResponse)
  | WorkflowResult (status : Z) (e : WorkflowExecutionResponse)
  | WebhookResult (status : Z) (processing : string) (receipt_id : UUID).

(** * Calls *)

Definition MAX_PAYLOAD_KEYS : nat := 100.
Definition MAX_REASON_LENGTH : Z := 500.

Record CreateIntegrationRequestBody := mk_create_body {
  cb_provider : string;
  cb_operation_type : OperationType.t;
  cb_external_reference : string;
  cb_payload : dict;
}.
Definition create_body_valid (b : CreateIntegrationRequestBody) : bool :=
  (2 <=? Str.len (cb_provider b)) && (Str.len (cb_provider b) <=? 40) &&
  (1 <=? Str.len (cb_external_reference b)) && (Str.len (cb_external_reference b) <=? 255) &&
  (length (cb_payload b) <=? MAX_PAYLOAD_KEYS)%nat.
Definition reason_valid (reason : option string) : bool :=
  match reason with Some r => Str.len r <=? MAX_REASON_LENGTH | None => true end.

Record ListQuery := mk_list_query {
  lq_provider : option string;
  lq_statuses : list RequestStatus.t;
  lq_operation_type : option OperationType.t;
  lq_external_reference : option string;
  lq_created_after : option datetime;
  lq_created_before : option datetime;
  lq_limit : Z;
  lq_cursor : option string;
}.
Definition list_query_valid (q : ListQuery) : bool :=
  (1 <=? lq_limit q) && (lq_limit q <=? MAX_PAGE_SIZE) &&
  match lq_external_reference q with Some r => Str.len r <=? 255 | None => true end.

Record StartWorkflowBody := mk_start_body {
  sb_definition_name : string;
  sb_definition_version : Z;
  sb_payload : dict;
  sb_deadline_seconds : option Z;
}.
Definition start_body_valid (b : StartWorkflowBody) : bool :=
  match sb_deadline_seconds b with Some n => (1 <=? n) && (n <=? 86400) | None => true end.

(** The routes. [reason] is [None] without a body. *)
Inductive route : Type :=
  | CreateIntegrationRequest (body : CreateIntegrationRequestBody) (idempotency_key : option string)
  | ListIntegrationRequests (query : ListQuery)
  | GetIntegrationRequest (request_id : UUID)
  | GetAuditHistory (request_id : UUID)
  | RetryIntegrationRequest (request_id : UUID) (reason : option string)
  | CancelIntegrationRequest (request_id : UUID) (reason : option string)
  | StartWorkflowExecution (body : StartWorkflowBody) (idempotency_key : option string)
  | GetWorkflowExecution (execution_id : UUID)
  | CancelWorkflowExecution (execution_id : UUID) (reason : option string)
  | ReceiveWebhook (provider : string) (headers : list (string * string)) (body : list Z) (remote : option string).

(** The scope each route declares; webhooks are authenticated by their signature. *)
Definition route_scope (r : route) : option string :=
  match r with
  | CreateIntegrationRequest _ _ | StartWorkflowExecution _ _ | CancelWorkflowExecution _ _ => Some Scope.REQUESTS_WRITE
  | ListIntegrationRequests _ | GetIntegrationRequest _ | GetAuditHistory _ | GetWorkflowExecution _ => Some Scope.REQUESTS_READ
  | RetryIntegrationRequest _ _ => Some Scope.REQUESTS_RETRY
  | CancelIntegrationRequest _ _ => Some Scope.REQUESTS_CANCEL
  | ReceiveWebhook _ _ _ _ => None
  end.

(** One HTTP call: the bearer credentials and the correlation header. *)
Record http_call := mk_http_call {
  hc_route : route;
  hc_credentials : option string;
  hc_correlation : option string;
}.

Section Endpoints.
Context `{Env} `{P : Platform} `{X : Externals} (cfg : Settings).
Context (jwt_decode : string → option dict) (enforce_subject_isolation : bool) (max_body_bytes : Z).

(** [CorrelationMiddleware.dispatch] up to the call *)
Definition bind_correlation (header : option string) : H string :=
  let* correlation_id :=
    match header with
    | Some h => if Str.truthy h then ret h else let* u := new_id in ret (uuid_str u)
    | None => let* u := new_id in ret (uuid_str u)
    end in
  ret (Str.take 128 (Str.strip correlation_id)).
Definition get_correlation_id (bound : string) : H string :=
  if Str.truthy (Str.strip bound) then lift (CorrelationId.make (Str.take 128 (Str.strip bound)))
  else let* u := new_id in lift (CorrelationId.generate u).

Definition api_actor (p : Principal) : Actor := mk_actor ActorType.API_CLIENT (Some (subject p)).
Definition request_label : string := "integration request".
Definition execution_label : string := "workflow execution".

Definition create_integration_request (body : CreateIntegrationRequestBody) (idempotency_key : option string)
    (principal : Principal) (correlation_id : string) : H api_result :=
  if negb (create_body_valid body) then raise RequestValidationError
  else
    let* provider := lift (ProviderSlug.parse (cb_provider body)) in
    let* external_reference := lift (ExternalReference.make (Str.strip (cb_external_reference body))) in
    let* key := lift (IdempotencyKey.parse idempotency_key) in
    let* result := CreateRequest.execute float_repr (terminal_hook cfg)
      (mk_create_command provider (cb_operation_type body) external_reference (cb_payload body) correlation_id
         (api_actor principal) key) in
    ret (RequestResult (http_status result)
           (Some ("/api/v1/integration-requests/" +:+ uuid_str (IntegrationRequest.id (cres_request result))))
           (request_response (cres_request result))).

Definition list_integration_requests (q : ListQuery) (principal : Principal) : H api_result :=
  if negb (list_query_valid q) then raise RequestValidationError
  else
    let* provider := match lq_provider q with
                     | Some p => if Str.truthy p then let* s := lift (ProviderSlug.parse p) in ret (Some s) else ret None
                     | None => ret None
                     end in
    let* cursor := match lq_cursor q with
                   | Some c => if Str.truthy c then let* d := lift (Cursor.decode c) in ret (Some d) else ret None
                   | None => ret None
                   end in
    let* criteria := lift (IntegrationRequestFilter.make (IntegrationRequestFilter.mk provider (lq_statuses q)
      (lq_operation_type q) (lq_external_reference q) (lq_created_after q) (lq_created_before q) (lq_limit q) cursor)) in
    let* page := ListIntegrationRequestsUseCase.execute criteria in
    let page :=
      if enforce_subject_isolation && negb (has_scope principal Scope.OPERATIONS_ADMIN)
      then mk_page (List.filter (λ item, bool_decide (IntegrationRequest.owner_subject item = Some (subject principal)))
                      (items page)) None
      else page in
    ret (PageResult (map request_response (items page)) (next_cursor page) (has_more page)).

Definition check_owner (principal : Principal) (owner : option string) (label : string) : H unit :=
  lift (assert_owner_access principal owner enforce_subject_isolation label).

Definition get_integration_request (request_id : UUID) (principal : Principal) : H api_result :=
  let* request := GetIntegrationRequestUseCase.execute request_id in
  check_owner principal (IntegrationRequest.owner_subject request) request_label ;;;
  ret (RequestResult 200 None (request_response request)).

Definition get_audit_history (request_id : UUID) (principal : Principal) : H api_result :=
  let* request := GetIntegrationRequestUseCase.execute request_id in
  check_owner principal (IntegrationRequest.owner_subject request) request_label ;;;
  let* events := GetAuditHistoryUseCase.execute request_id AUDIT_HISTORY_LIMIT in
  ret (AuditResult request_id (map audit_response events)).

Definition retry_integration_request (request_id : UUID) (reason : option string) (principal : Principal)
    (correlation_id : string) : H api_result :=
  if negb (reason_valid reason) then raise RequestValidationError
  else
    let* existing := GetIntegrationRequestUseCase.execute request_id in
    check_owner principal (IntegrationRequest.owner_subject existing) request_label ;;;
    let* request := RetryRequest.execute (mk_operator_command request_id correlation_id (api_actor principal) reason) in
    ret (RequestResult 200 None (request_response request)).

Definition cancel_integration_request (request_id : UUID) (reason : option string) (principal : Principal)
    (correlation_id : string) : H api_result :=
  if negb (reason_valid reason) then raise RequestValidationError
  else
    let* existing := GetIntegrationRequestUseCase.execute request_id in
    check_owner principal (IntegrationRequest.owner_subject existing) request_label ;;;
    let* request := CancelRequest.execute (mk_operator_command request_id correlation_id (api_actor principal) reason) in
    ret (RequestResult 200 None (request_response request)).

(** Here the correlation id is the header's own text. *)
Definition start_workflow_endpoint (body : StartWorkflowBody) (idempotency_key header : option string)
    (principal : Principal) : H api_result :=
  if negb (start_body_valid body) then raise RequestValidationError
  else
    let* correlation_id := match header with
                           | Some h => if Str.truthy h then ret h else let* u := new_id in ret (uuid_str u)
                           | None => let* u := new_id in ret (uuid_str u)
                           end in
    let* execution := start_workflow (terminal_hook cfg) (s_depth cfg)
      (mk_start (sb_definition_name body) (sb_definition_version body) (sb_payload body) correlation_id idempotency_key
         (api_actor principal) (sb_deadline_seconds body)) in
    ret (WorkflowResult 201 (_to_response execution)).

Definition get_workflow_endpoint (execution_id : UUID) (principal : Principal) : H api_result :=
  let* execution := get_workflow execution_id in
  check_owner principal (WorkflowExecution.owner_subject execution) execution_label ;;;
  ret (WorkflowResult 200 (_to_response execution)).

Definition cancel_workflow_endpoint (execution_id : UUID) (reason : option string) (principal : Principal) : H api_result :=
  let* execution := get_workflow execution_id in
  check_owner principal (WorkflowExecution.owner_subject execution) execution_label ;;;
  let* cancelled := cancel (terminal_hook cfg) (s_depth cfg) execution_id (api_actor principal) reason in
  ret (WorkflowResult 200 (_to_response cancelled)).

(** Anything but an error makes the provider stop redelivering. *)
Definition _status_for (s : WebhookProcessingStatus.t) : Z :=
  if bool_decide (s = WebhookProcessingStatus.PROCESSED) then 200
  else if bool_decide (s ∈ [WebhookProcessingStatus.DUPLICATE; WebhookProcessingStatus.DEFERRED;
                            WebhookProcessingStatus.RECEIVED]) then 202
  else 401.

Definition receive_webhook (provider : string) (headers : list (string * string)) (body : list Z) (remote : option string)
    (correlation_id : string) : H api_result :=
  let received := Z.of_nat (length body) in
  if max_body_bytes <? received then
    raise (error ErrorClass.ValidationError "the webhook body exceeds the configured size limit"
      (no_kwargs <| k_correlation_id := Some correlation_id |>
         <| k_metadata := [("limit_bytes", JInt max_body_bytes); ("received_bytes", JInt received)] |>))
  else
    let* slug := lift (ProviderSlug.parse provider) in
    let* at_ := now in
    let webhook := mk_inbound slug (text_update [] (map (λ kv, (Str.lower kv.1, kv.2)) headers)) body at_ remote in
    let* result := IngestWebhook.execute replay_claim (s_webhook_deferred_retry_seconds cfg) (terminal_hook cfg)
                     (mk_ingest_command webhook correlation_id) in
    ret (WebhookResult (_status_for (wr_status result)) (value (wr_status result)) (wr_receipt_id result)).

(** The endpoint behind its dependencies. *)
Definition endpoint (r : route) (header : option string) (principal : Principal) (correlation_id : string) : H api_result :=
  match r with
  | CreateIntegrationRequest body key => create_integration_request body key principal correlation_id
  | ListIntegrationRequests q => list_integration_requests q principal
  | GetIntegrationRequest i => get_integration_request i principal
  | GetAuditHistory i => get_audit_history i principal
  | RetryIntegrationRequest i reason => retry_integration_request i reason principal correlation_id
  | CancelIntegrationRequest i reason => cancel_integration_request i reason principal correlation_id
  | StartWorkflowExecution body key => start_workflow_endpoint body key header principal
  | GetWorkflowExecution i => get_workflow_endpoint i principal
  | CancelWorkflowExecution i reason => cancel_workflow_endpoint i reason principal
  | ReceiveWebhook provider headers body remote => receive_webhook provider headers body remote correlation_id
  end.
Definition nobody : Principal := mk_principal "" [] [] JNull.
Definition dispatch (c : http_call) (bound : string) : H api_result :=
  let* correlation_id := get_correlation_id bound in
  let* principal := match route_scope (hc_route c) with
                    | Some scope => lift (require_scope py_repr jwt_decode scope (hc_credentials c) correlation_id)
                    | None => ret nobody
                    end in
  endpoint (hc_route c) (hc_correlation c) principal correlation_id.

(** A call is always answered: by the endpoint or by an exception handler. The one
    for unexpected exceptions runs outside every middleware, where the correlation
    id is no longer bound. *)
Definition scope_at_handler (bound : string) (e : exn) : option string :=
  match e with
  | EDomain _ => Some bound
  | _ => if is_request_validation e then Some bound else None
  end.
Definition serve (violations : json) (c : http_call) : H (api_result + reply) :=
  let* bound := bind_correlation (hc_correlation c) in
  try_except (let* r := dispatch c bound in ret (inl r))
    (λ e, Some (ret (inr (answer_exception (scope_at_handler bound e) violations e)))).
End Endpoints.

(** * Facts *)

Section ApiFacts.
Context `{Env} `{P : Platform} `{X : Externals} (cfg : Settings).
Context (jwt_decode : string → option dict) (enforce : bool) (max_body_bytes : Z).

(** Identifiers are 128-bit. *)
Definition uuids_fit : Prop := ∀ n, (uuid_at n < 2 ^ 128)%N.

Lemma generate_ok u : (u < 2 ^ 128)%N → CorrelationId.generate u = Ret (uuid_str u).
Proof.
  intros Hu. unfold CorrelationId.generate, CorrelationId.make. pose proof (length_uuid_str u Hu) as Hl.
  unfold Str.len. rewrite Hl. rewrite (proj2 (Str.truthy_true _)); [done|]. intros Heq. by rewrite Heq in Hl.
Qed.
Lemma make_taken s : Str.truthy s = true → CorrelationId.make (Str.take 128 s) = Ret (Str.take 128 s).
Proof.
  intros Hs. unfold CorrelationId.make. destruct s as [|c s]; [done|].
  change (Str.take 128 (String c s)) with (String c (Str.take 127 s)). rewrite (proj2 (Str.truthy_true _)) by done.
  unfold Str.len. cbn [String.length]. rewrite Str.length_take. cbn [negb orb].
  by rewrite (proj2 (Z.ltb_ge _ _)) by lia.
Qed.

(** Binding the identifiers of a call raises nothing and touches no table. *)
Lemma bind_correlation_ok header w :
  ∃ b w', bind_correlation header w = (Ret b, w') ∧ db w' = db w ∧ sess w' = sess w.
Proof.
  unfold bind_correlation, bind, new_id, ret. destruct header as [h|]; [destruct (Str.truthy h)|]; by do 2 eexists.
Qed.
Lemma get_correlation_id_ok bound w : uuids_fit →
  ∃ c w', get_correlation_id bound w = (Ret c, w') ∧ db w' = db w ∧ sess w' = sess w.
Proof.
  intros Hu. unfold get_correlation_id. destruct (Str.truthy (Str.strip bound)) eqn:Hs.
  - unfold lift. rewrite (make_taken _ Hs). by do 2 eexists.
  - unfold bind, new_id, lift. rewrite generate_ok by apply Hu. by do 2 eexists.
Qed.

(** The call holds a token that passed the checks and grants [scope]. *)
Definition permitted (credentials : option string) (scope : string) : Prop :=
  ∃ token claims sub, credentials = Some token ∧ token ≠ "" ∧ jwt_decode token = Some claims ∧
    dict_get "sub" claims = Some sub ∧ scope ∈ _resolve_scopes py_repr claims.

Lemma require_scope_cases scope credentials corr :
  (∀ token claims, jwt_decode token = Some claims → is_Some (dict_get "sub" claims)) →
  (∃ p, require_scope py_repr jwt_decode scope credentials corr = Ret p ∧ permitted credentials scope) ∨
  (∃ d, require_scope py_repr jwt_decode scope credentials corr = Raise (EDomain d) ∧ ¬ permitted credentials scope ∧
        (status_for d = 401 ∨ status_for d = 403)).
Proof.
  intros Hsub. unfold require_scope, get_principal, verify, permitted.
  destruct credentials as [token|]; [|right; eexists; split; [reflexivity|split; [naive_solver|by left]]].
  destruct (Str.truthy token) eqn:Ht.
  2: { right. eexists. split; [reflexivity|]. split; [|by left]. intros (? & ? & ? & [= <-] & Hne & _).
       apply Str.truthy_true in Hne. congruence. }
  apply Str.truthy_true in Ht. destruct (jwt_decode token) as [claims|] eqn:Hd.
  2: { right. eexists. split; [reflexivity|]. split; [|by left]. intros (? & ? & ? & [= <-] & _ & Hd' & _). congruence. }
  destruct (Hsub _ _ Hd) as [sub Hs]. rewrite Hs. unfold require, has_scope. cbn [scopes].
  destruct (bool_decide_reflect (scope ∈ _resolve_scopes py_repr claims)) as [Hin|Hout]; cbn [negb].
  - left. eexists. split; [reflexivity|]. by exists token, claims, sub.
  - right. eexists. split; [reflexivity|]. split; [|by right].
    intros (t & cl & ? & [= <-] & _ & Hd' & _ & Hin). rewrite Hd in Hd'. injection Hd' as <-. done.
Qed.

(** Reading one request. *)
Lemma get_request_run i w :
  ∃ w', GetIntegrationRequestUseCase.execute i w =
    (match t_requests (db w) !! i with
     | Some row => Ret (request_to_domain row)
     | None => Raise (request_missing i)
     end, w') ∧ db w' = db w ∧ sess w' = sess w.
Proof.
  unfold GetIntegrationRequestUseCase.execute, with_uow, Requests.get, reading, bind, gets. cbn.
  destruct (t_requests (db w) !! i) as [row|]; cbn; by eexists.
Qed.
Lemma get_execution_run i w :
  ∃ w', get_workflow i w =
    (match Executions.row_at (db w) i with
     | Some e => Ret (workflow_execution_to_domain e)
     | None => Raise execution_not_found
     end, w') ∧ db w' = db w.
Proof.
  unfold get_workflow, with_uow, Executions.get, Executions._load, reading, bind, gets. cbn.
  destruct (Executions.row_at (db w) i) as [row|]; cbn; by eexists.
Qed.

(** Somebody else's. *)
Definition foreign (p : Principal) (owner : option string) : Prop :=
  has_scope p Scope.OPERATIONS_ADMIN = false ∧ ∃ o, owner = Some o ∧ o ≠ subject p.
Lemma assert_owner_foreign p owner label : foreign p owner →
  assert_owner_access p owner true label = Raise (error ErrorClass.NotFoundError (label +:+ " not found") no_kwargs).
Proof.
  intros (Ha & o & -> & Ho). unfold assert_owner_access. rewrite Ha. cbn. by rewrite bool_decide_false.
Qed.

(** Routes that name one object, and its owner. *)
Definition owner_of (T : tables) (r : route) : option (option string) :=
  match r with
  | GetIntegrationRequest i | GetAuditHistory i | RetryIntegrationRequest i _ | CancelIntegrationRequest i _ =>
      IntegrationRequest.owner_subject <$> t_requests T !! i
  | GetWorkflowExecution i | CancelWorkflowExecution i _ =>
      WorkflowExecution.owner_subject <$> Executions.row_at T i
  | _ => None
  end.
Definition route_valid (r : route) : bool :=
  match r with
  | RetryIntegrationRequest _ reason | CancelIntegrationRequest _ reason => reason_valid reason
  | _ => true
  end.

Lemma foreign_request_run {A} i p label (k : IntegrationRequest.t → H A) row w :
  t_requests (db w) !! i = Some row → foreign p (IntegrationRequest.owner_subject row) →
  ∃ w', bind (GetIntegrationRequestUseCase.execute i) (λ r,
      check_owner true p (IntegrationRequest.owner_subject r) label ;;; k r) w =
    (Raise (error ErrorClass.NotFoundError (label +:+ " not found") no_kwargs), w') ∧ db w' = db w.
Proof.
  intros Hrow Hf. destruct (get_request_run i w) as (w1 & Hrun & Hdb & _). rewrite Hrow in Hrun.
  exists w1. unfold bind at 1. rewrite Hrun. unfold bind, check_owner, lift.
  change (IntegrationRequest.owner_subject (request_to_domain row)) with (IntegrationRequest.owner_subject row).
  by rewrite (assert_owner_foreign p _ label Hf).
Qed.
Lemma foreign_execution_run {A} i p label (k : WorkflowExecution.t → H A) row w :
  Executions.row_at (db w) i = Some row → foreign p (WorkflowExecution.owner_subject row) →
  ∃ w', bind (get_workflow i) (λ e,
      check_owner true p (WorkflowExecution.owner_subject e) label ;;; k e) w =
    (Raise (error ErrorClass.NotFoundError (label +:+ " not found") no_kwargs), w') ∧ db w' = db w.
Proof.
  intros Hrow Hf. destruct (get_execution_run i w) as (w1 & Hrun & Hdb). rewrite Hrow in Hrun.
  exists w1. unfold bind at 1. rewrite Hrun. unfold bind, check_owner, lift.
  change (WorkflowExecution.owner_subject (workflow_execution_to_domain row)) with (WorkflowExecution.owner_subject row).
  by rewrite (assert_owner_foreign p _ label Hf).
Qed.

Lemma endpoint_foreign r header p corr owner w :
  route_valid r = true → owner_of (db w) r = Some owner → foreign p owner →
  ∃ e w', endpoint cfg true max_body_bytes r header p corr w = (Raise e, w') ∧
    isinstance e ErrorClass.NotFoundError = true ∧ db w' = db w.
Proof.
  intros Hv Ho Hf. destruct r as [b k|q|i|i|i reason|i reason|b k|i|i reason|pr hs b rem]; try done; cbn in Ho, Hv;
    match type of Ho with
    | (_ <$> ?x) = _ => destruct x as [row|] eqn:Hrow; [|done]; cbn in Ho; injection Ho as <-
    end; cbn [endpoint];
    unfold get_integration_request, get_audit_history, retry_integration_request, cancel_integration_request,
      get_workflow_endpoint, cancel_workflow_endpoint; rewrite ?Hv; cbn [negb];
    match goal with
    | |- context [bind (GetIntegrationRequestUseCase.execute i) (λ r, bind (check_owner _ _ _ ?l) (λ _, @?k r))] =>
        destruct (foreign_request_run i p l k row w Hrow Hf) as (w' & Hrun & Hdb)
    | |- context [bind (get_workflow i) (λ r, bind (check_owner _ _ _ ?l) (λ _, @?k r))] =>
        destruct (foreign_execution_run i p l k row w Hrow Hf) as (w' & Hrun & Hdb)
    end; do 2 eexists; (split; [exact Hrun|]); by split.
Qed.

Lemma candidate_row T c row : row ∈ RequestListing.candidates T c → ∃ i, t_requests T !! i = Some row.
Proof.
  unfold RequestListing.candidates. rewrite merge_sort_Permutation, list_elem_of_In, filter_In, <- list_elem_of_In.
  intros [Hin _]. apply list_elem_of_fmap in Hin as ([i r] & -> & Hr%elem_of_map_to_list). by exists i.
Qed.
Lemma list_isolated q p w : has_scope p Scope.OPERATIONS_ADMIN = false →
  wp (list_integration_requests true q p) (λ res _, ∃ its, res = PageResult its None false ∧
    ∀ it, it ∈ its → ∃ i row, t_requests (db w) !! i = Some row ∧
      IntegrationRequest.owner_subject row = Some (subject p) ∧ it = request_response (request_to_domain row)) (λ _ _, True) w.
Proof.
  intros Hp. unfold list_integration_requests. destruct (negb _); [by wp_step|].
  assert (∀ A (o : option string) (m : string → outcome exn A) (Q : option A → World → Prop),
    (∀ x, Q x w) → wp (match o with
      | Some x => if Str.truthy x then let* s := lift (m x) in ret (Some s) else ret None
      | None => ret None end) Q (λ _ _, True) w) as Hopt.
  { intros A o m Q HQ. destruct o as [x|]; [destruct (Str.truthy x)|]; try by wp_step. wp_step. wp_step.
    destruct (m x); [wp_step; apply HQ|done]. }
  wp_step. apply Hopt. intros provider. wp_step. apply Hopt. intros cursor. wp_step. wp_step.
  set (c := IntegrationRequestFilter.mk _ _ _ _ _ _ _ _).
  destruct (IntegrationRequestFilter.make c) as [c'|e] eqn:Hmake; [|done].
  assert (c' = c ∧ 1 ≤ IntegrationRequestFilter.limit c) as [-> Hlim].
  { unfold IntegrationRequestFilter.make in Hmake. destruct (Z.leb_spec 1 (IntegrationRequestFilter.limit c)); [|done].
    split; [|done]. repeat case_match; congruence. }
  destruct (fetch_page c w Hlim) as (w' & Hrun). wp_step. unfold wp at 1. rewrite Hrun. cbn [items next_cursor].
  rewrite Hp. cbn [negb andb]. wp_step. eexists. split; [reflexivity|]. intros it Hit.
  rewrite list_elem_of_In, in_map_iff in Hit. destruct Hit as (r & <- & Hr).
  apply filter_In in Hr as [Hr Ho%bool_decide_eq_true].
  apply list_elem_of_In, list_elem_of_fmap in Hr as (row & -> & Hrow).
  assert (row ∈ RequestListing.candidates (db w) c) as (i & Hi)%candidate_row.
  { rewrite <- (take_drop (Z.to_nat (IntegrationRequestFilter.limit c)) (RequestListing.candidates (db w) c)).
    apply elem_of_app. by left. }
  by exists i, row.
Qed.

End ApiFacts.

Section ApiCalm.
Context `{Env} `{P : Platform} `{X : Externals} {HP : PlatformOk P} {HX : ExternalsOk X} (cfg : Settings).
Context (jwt_decode : string → option dict) (enforce : bool) (max_body_bytes : Z).

Lemma get_request_calm i : calm (GetIntegrationRequestUseCase.execute i).
Proof. apply calm_read_only. ro_go. Qed.
Lemma audit_history_calm i n : calm (GetAuditHistoryUseCase.execute i n).
Proof. apply calm_read_only. unfold Audit.list_for_aggregate. ro_go. Qed.
Lemma list_requests_calm c : calm (ListIntegrationRequestsUseCase.execute c).
Proof. apply calm_read_only. unfold RequestListing.list_. ro_go. Qed.
Lemma get_workflow_calm i : calm (get_workflow i).
Proof.
  unfold get_workflow. apply calm_bind; [|intros; calm_go]. apply calm_read_only.
  unfold Executions.get, Executions._load. apply read_only_reading.
Qed.
#[local] Hint Resolve get_request_calm audit_history_calm list_requests_calm get_workflow_calm : calm_db.

Lemma check_owner_calm p o l : calm (check_owner enforce p o l).
Proof. apply calm_lift. Qed.
#[local] Hint Resolve check_owner_calm : calm_db.

Lemma endpoint_calm r header p corr : calm (endpoint cfg enforce max_body_bytes r header p corr).
Proof.
  pose proof replay_claim_calm. assert (calm_hook (terminal_hook cfg)) as Hk by apply orchestrator_hook.
  destruct r; cbn [endpoint];
    unfold create_integration_request, list_integration_requests, get_integration_request, get_audit_history,
      retry_integration_request, cancel_integration_request, start_workflow_endpoint, get_workflow_endpoint,
      cancel_workflow_endpoint, receive_webhook; calm_go;
    eauto using create_calm_execute, cancel_calm_execute, retry_calm, ingest_calm, start_workflow_calm, cancel_workflow_calm.
Qed.

Lemma routed_calm c bound : calm (dispatch cfg jwt_decode enforce max_body_bytes c bound).
Proof.
  pose proof endpoint_calm. unfold dispatch, get_correlation_id. calm_go; auto.
Qed.
Lemma serve_calm violations c : calm (serve cfg jwt_decode enforce max_body_bytes violations c).
Proof.
  pose proof routed_calm. unfold serve. apply calm_bind; [unfold bind_correlation; calm_go|]. intros bound.
  apply calm_try; [calm_go; auto|]. intros e k [= <-]. apply calm_ret.
Qed.
End ApiCalm.

(** * Theorems *)

Module ApiTheorems.
Section Theorems.
Context `{Env} `{P : Platform} `{X : Externals} (cfg : Settings).
Context (jwt_decode : string → option dict) (enforce : bool) (max_body_bytes : Z).

(** C9. A call of the API that does not carry a token which passed the checks and
    grants the scope of its route is answered with 401 or 403 and leaves the
    database as it was, whatever else it asks. *)
Theorem unauthorized_calls_change_nothing (violations : json) (c : http_call) (scope : string) (w : World) :
  uuids_fit → (∀ token claims, jwt_decode token = Some claims → is_Some (dict_get "sub" claims)) →
  route_scope (hc_route c) = Some scope → ¬ permitted jwt_decode (hc_credentials c) scope →
  ∃ rep w', serve cfg jwt_decode enforce max_body_bytes violations c w = (Ret (inr rep), w') ∧
    (rep_status rep = 401 ∨ rep_status rep = 403) ∧ db w' = db w.
Proof.
  intros Hu Hsub Hr Hp. destruct (bind_correlation_ok (hc_correlation c) w) as (b & w1 & Hb & Hdb1 & _).
  destruct (get_correlation_id_ok b w1 Hu) as (corr & w2 & Hc & Hdb2 & _).
  destruct (require_scope_cases jwt_decode scope (hc_credentials c) corr Hsub) as [(p & _ & Hy)|(d & Hd & _ & Hst)]; [done|].
  eexists _, w2. unfold serve, bind. rewrite Hb. unfold try_except, dispatch, bind. rewrite Hc, Hr. unfold lift. rewrite Hd.
  split; [reflexivity|]. split; [exact Hst|congruence].
Qed.

(** C10. With subject isolation on, a client that is no operator cannot reach what
    another client owns by naming it: reading it, its history, retrying or
    cancelling it, or reading or cancelling a workflow are answered as not found
    and change nothing; and a listing shows only requests the client owns. *)
Theorem foreign_objects_are_out_of_reach (r : route) (header : option string) (p : Principal) (corr : string) (w : World) :
  has_scope p Scope.OPERATIONS_ADMIN = false →
  (∀ owner, route_valid r = true → owner_of (db w) r = Some (Some owner) → owner ≠ subject p →
     ∃ e w', endpoint cfg true max_body_bytes r header p corr w = (Raise e, w') ∧
       isinstance e ErrorClass.NotFoundError = true ∧ db w' = db w) ∧
  (∀ q res w', r = ListIntegrationRequests q → endpoint cfg true max_body_bytes r header p corr w = (Ret res, w') →
     ∃ its, res = PageResult its None false ∧
       ∀ it, it ∈ its → ∃ i row, t_requests (db w) !! i = Some row ∧
         IntegrationRequest.owner_subject row = Some (subject p) ∧ it = request_response (request_to_domain row)).
Proof.
  intros Ha. split.
  - intros owner Hv Ho Hne. apply (endpoint_foreign cfg max_body_bytes r header p corr (Some owner) w Hv Ho). split; [done|]. by exists owner.
  - intros q res w' -> Hrun. pose proof (list_isolated q p w Ha) as Hl. unfold wp in Hl. cbn [endpoint] in Hrun. by rewrite Hrun in Hl.
Qed.

(** Every call is answered: no exception leaves the API, and an exception that is
    not one of the domain's is answered with the same reply, status 500 and a
    fixed text, so that nothing about it reaches the caller. *)
Theorem every_call_is_answered (violations : json) (c : http_call) (w : World) :
  ∃ a w', serve cfg jwt_decode enforce max_body_bytes violations c w = (Ret a, w') ∧
    (∀ bound w1 e w2, bind_correlation (hc_correlation c) w = (Ret bound, w1) →
       dispatch cfg jwt_decode enforce max_body_bytes c bound w1 = (Raise e, w2) →
       (∀ d, e ≠ EDomain d) → is_request_validation e = false →
       a = inr (mk_reply 500 (error_body "internal_error" "an unexpected error occurred" "internal" true
                                [("correlation_id", JNull)]) [])).
Proof.
  destruct (bind_correlation_ok (hc_correlation c) w) as (b & w1 & Hb & _ & _).
  unfold serve, bind, try_except. rewrite Hb.
  destruct (dispatch cfg jwt_decode enforce max_body_bytes c b w1) as [[r|e] w2] eqn:Hd.
  - exists (inl r), w2. split; [done|]. intros ? ? ? ? [= <- <-] Hd'. by rewrite Hd in Hd'.
  - eexists _, w2. split; [reflexivity|]. intros ? ? e' ? [= <- <-] Hd' Hne Hv. rewrite Hd in Hd'. injection Hd' as <- _.
    f_equal. unfold answer_exception, scope_at_handler. rewrite Hv. destruct e; [by destruct (Hne e)|reflexivity..].
Qed.

Context {HP : PlatformOk P} {HX : ExternalsOk X}.

(** Any sequence of API calls, by anybody and with whatever content, leaves the
    audit trail complete and truthful and only adds to the history. *)
Theorem api_keeps_the_audit_trail (violations : json) (cs : list http_call) (w : World) :
  Journaled (db w) →
  let w' := foldl (λ w c, (serve cfg jwt_decode enforce max_body_bytes violations c w).2) w cs in
  Journaled (db w') ∧ grows (db w) (db w').
Proof.
  revert w. induction cs as [|c cs IH]; intros w HJ; [by split|]. cbn [foldl].
  pose proof (calm_run _ w (serve_calm cfg jwt_decode enforce max_body_bytes violations c) HJ) as [HJ1 Hg1].
  destruct (IH _ HJ1) as [HJ2 Hg2]. split; [done|]. by etrans.
Qed.
End Theorems.
End ApiTheorems.

(** * Concrete runs *)

Module ApiWitnesses.
Import ApiTheorems.
#[local] Existing Instance SystemTheorems.sample_externals.
#[local] Existing Instance SystemTheorems.sample_externals_ok.
#[local] Instance sample_system : Platform := sample_platform accepted_result.

(** Two clients. *)
Definition claims_of (token : string) : option dict :=
  if bool_decide (token ∈ ["alice"; "bob"])
  then Some [("sub", JStr token); ("roles", JList [JStr "integration-client"])] else None.
Lemma claims_of_sub token claims : claims_of token = Some claims → is_Some (dict_get "sub" claims).
Proof. unfold claims_of. case_bool_decide; [|done]. intros [= <-]. by eexists. Qed.

Definition body : CreateIntegrationRequestBody := mk_create_body "cobalt" OperationType.ACCESS_GRANT "order-1" [].
Definition call_as (who : string) (r : route) : http_call := mk_http_call r (Some who) (Some "corr-1").
Definition run (c : http_call) (w : World) : outcome exn (api_result + reply) * World :=
  serve SystemTheorems.sample_settings claims_of true 1024 JNull c w.
Definition alice_created : World := (run (call_as "alice" (CreateIntegrationRequest body (Some "key-0001"))) CreateTheorems.empty_world).2.
Definition bob_too : World := (run (call_as "bob" (CreateIntegrationRequest body (Some "key-0002"))) alice_created).2.

Definition anonymous : http_call := mk_http_call (CancelIntegrationRequest 100 None) None None.
(** Identifiers of 128 bits. *)
#[local] Instance small_env : Env :=
  {| clock_at n := utc (Z.of_nat n); uuid_at n := (N.of_nat n mod 2 ^ 128)%N; jitter_at _ := (1 # 2)%Q |}.
Lemma unauthorized_calls_change_nothing_witness : ∃ rep w',
  serve (H0 := small_env) SystemTheorems.sample_settings claims_of true 1024 JNull anonymous alice_created = (Ret (inr rep), w') ∧
  (rep_status rep = 401 ∨ rep_status rep = 403) ∧ db w' = db alice_created.
Proof.
  apply (unauthorized_calls_change_nothing (H0 := small_env) SystemTheorems.sample_settings claims_of true 1024 JNull anonymous
           Scope.REQUESTS_CANCEL alice_created).
  - intros n. apply N.mod_lt. discriminate.
  - apply claims_of_sub.
  - reflexivity.
  - intros (? & ? & ? & ? & _). discriminate.
Defined.

Definition bob : Principal := mk_principal "bob" (ROLE_SCOPES "integration-client") ["integration-client"] JNull.
Lemma foreign_objects_are_out_of_reach_witness :
  ∃ e w', endpoint (H0 := sample_env) SystemTheorems.sample_settings true 1024 (GetIntegrationRequest 100) None bob "corr" alice_created = (Raise e, w') ∧
    isinstance e ErrorClass.NotFoundError = true ∧ db w' = db alice_created.
Proof.
  apply (proj1 (foreign_objects_are_out_of_reach (H0 := sample_env) SystemTheorems.sample_settings 1024 (GetIntegrationRequest 100) None bob "corr"
           alice_created eq_refl) "alice").
  - reflexivity.
  - vm_compute. reflexivity.
  - discriminate.
Defined.

Definition calls : list http_call :=
  [call_as "alice" (CreateIntegrationRequest body (Some "key-0001")); anonymous; call_as "bob" (GetAuditHistory 100)].
Lemma api_keeps_the_audit_trail_witness :
  let w' := foldl (λ w c, (serve (H0 := sample_env) SystemTheorems.sample_settings claims_of true 1024 JNull c w).2) CreateTheorems.empty_world calls in
  Journaled (db w') ∧ grows (db CreateTheorems.empty_world) (db w').
Proof.
  apply (api_keeps_the_audit_trail (H0 := sample_env) SystemTheorems.sample_settings claims_of true 1024 JNull calls CreateTheorems.empty_world).
  exact journaled_empty.
Defined.

(** What the ownership rules leave open. A request of somebody else and a request
    that does not exist are both answered with 404, with different bodies. *)
Definition reply_of (o : outcome exn (api_result + reply)) : option reply :=
  match o with Ret (inr r) => Some r | _ => None end.
Definition error_message (r : reply) : json :=
  match rep_body r with JObj [("error", JObj d)] => get_item "message" d | _ => JNull end.
Example foreign_and_missing_differ :
  (λ r, (rep_status r, error_message r)) <$> reply_of (run (call_as "bob" (GetIntegrationRequest 100)) alice_created).1 =
    Some (404, JStr "integration request not found") ∧
  (λ r, (rep_status r, error_message r)) <$> reply_of (run (call_as "bob" (GetIntegrationRequest 999)) alice_created).1 =
    Some (404, JStr ("integration request '" +:+ uuid_str 999 +:+ "' does not exist")).
Proof. split; vm_compute; reflexivity. Qed.

(** A client that lists one request at a time is shown an empty last page when the
    newest request is somebody else's, though it owns one. *)
Definition one_at_a_time : ListQuery := mk_list_query None [] None None None None 1 None.
Example listing_hides_own_requests :
  (run (call_as "alice" (ListIntegrationRequests one_at_a_time)) bob_too).1 = Ret (inl (PageResult [] None false)).
Proof. vm_compute. reflexivity. Qed.

(** A client that repeats another's idempotency key and body is given the other's
    request. *)
Example replay_crosses_owners :
  match (run (call_as "bob" (CreateIntegrationRequest body (Some "key-0001"))) alice_created).1 with
  | Ret (inl (RequestResult status _ r)) => Some (status, rr_id r)
  | _ => None
  end = Some (200, 100%N).
Proof. vm_compute. reflexivity. Qed.
End ApiWitnesses.
