(* ===== verification/Config.v ===== *)
(** Configuration ([config/settings.py]): what a deployment is refused for, the
    defaults it starts from, database URLs, and that a configuration which is
    accepted can be started.

    A field is the value it was read as; the types and ranges that are declared for
    it are in [Fields]. Overlaying what the environment supplies onto the defaults is
    modelled over any set of fields. *)

From S2P Require Import Prelude PyData PyTime PyText Enums Errors ValueObjects Policies Entities.
From S2P Require Import Records Store Journal Ports Redis RateLimiter Coordination Resilient Transport Signatures.
From S2P Require Import Adapters AdapterFacts.

Module Environment.
Inductive t := LOCAL | TEST | DEVELOPMENT | STAGING | PRODUCTION.
Definition value (e : t) : string :=
  match e with
  | LOCAL => "local" | TEST => "test" | DEVELOPMENT => "development" | STAGING => "staging" | PRODUCTION => "production"
  end.
Definition is_production_like (e : t) : bool := match e with STAGING | PRODUCTION => true | _ => false end.
End Environment.

Definition DEFAULT_SANDBOX_ROOT : string := "http://localhost:8000/__sandbox__".
Definition POSTGRESQL_ASYNC_DRIVER : string := "asyncpg".
Definition POSTGRESQL_SYNC_DRIVER : string := "psycopg".
Definition _LOCAL_PLACEHOLDER_MARKERS : list string := ["local-"; "changeme"; "example"; "placeholder"].
Definition _LOCAL_HOST_MARKERS : list string := ["localhost"; "127.0.0.1"; "0.0.0.0"; "::1"].
Definition SANDBOX_COBALT_WEBHOOK_PUBLIC_KEY : string := "lySCb9L+MRe1IRjHP9/7MuZTTxyeIZPaEg6v623YYF4=".

(** * Database URLs *)

(** [s.partition(sep)], [None] where [sep] does not occur. *)
Fixpoint partition_at (sep s : string) : option (string * string) :=
  if String.prefix sep s then Some ("", Text.drop (String.length sep) s)
  else match s with
       | EmptyString => None
       | String c s' => match partition_at sep s' with
                        | Some (a, b) => Some (String c a, b)
                        | None => None
                        end
       end.
Definition postgresql_url_with_driver (url driver : string) : string :=
  match partition_at "://" url with
  | None => url
  | Some (scheme, payload) =>
      let dialect := match partition_at "+" scheme with Some (d, _) => d | None => scheme end in
      if bool_decide (dialect = "postgresql") then "postgresql+" +:+ driver +:+ "://" +:+ payload else url
  end.
(** [value.rstrip("/")] of a URL that is there. *)
Definition _strip_trailing_slash (v : option string) : option string :=
  Text.rstrip_of (Text.is_code 47) <$> v.

(** * Providers *)

Definition _default_providers : list (string * ProviderSettings) :=
  [("northstar",
    {| ps_enabled := true; ps_display_name := "Northstar Connect";
       ps_authentication_type := AuthenticationType.OAUTH2_CLIENT_CREDENTIALS;
       ps_base_url := DEFAULT_SANDBOX_ROOT +:+ "/northstar";
       ps_client_id := Some "northstar-local-client"; ps_client_secret := Some "northstar-local-secret";
       ps_oauth_token_url := Some (DEFAULT_SANDBOX_ROOT +:+ "/northstar/oauth/token");
       ps_oauth_scope := Some "operations.write"; ps_api_key := None;
       ps_webhook_secret := Some "northstar-local-webhook-secret"; ps_webhook_public_key := None;
       ps_total_timeout_seconds := 6; ps_max_attempts := 4; ps_max_concurrency := 16;
       ps_token_refresh_leeway_seconds := 60 |});
   ("meridian",
    {| ps_enabled := true; ps_display_name := "Meridian Services";
       ps_authentication_type := AuthenticationType.API_KEY;
       ps_base_url := DEFAULT_SANDBOX_ROOT +:+ "/meridian";
       ps_client_id := None; ps_client_secret := None; ps_oauth_token_url := None; ps_oauth_scope := None;
       ps_api_key := Some "meridian-local-api-key";
       ps_webhook_secret := Some "meridian-local-webhook-secret"; ps_webhook_public_key := None;
       ps_total_timeout_seconds := 5; ps_max_attempts := 3; ps_max_concurrency := 8;
       ps_token_refresh_leeway_seconds := 60 |});
   ("cobalt",
    {| ps_enabled := true; ps_display_name := "Cobalt Network";
       ps_authentication_type := AuthenticationType.OAUTH2_CLIENT_CREDENTIALS;
       ps_base_url := DEFAULT_SANDBOX_ROOT +:+ "/cobalt";
       ps_client_id := Some "cobalt-local-client"; ps_client_secret := Some "cobalt-local-secret";
       ps_oauth_token_url := Some (DEFAULT_SANDBOX_ROOT +:+ "/cobalt/oauth/token");
       ps_oauth_scope := Some "operations.write operations.cancel"; ps_api_key := None;
       ps_webhook_secret := None; ps_webhook_public_key := Some SANDBOX_COBALT_WEBHOOK_PUBLIC_KEY;
       ps_total_timeout_seconds := 8; ps_max_attempts := 4; ps_max_concurrency := 12;
       ps_token_refresh_leeway_seconds := 60 |})].

Definition _is_local_url (url : string) : bool :=
  existsb (λ marker, Str.contains marker (Str.lower url)) _LOCAL_HOST_MARKERS.
Definition _looks_like_placeholder (secret : string) : bool :=
  existsb (λ marker, Str.contains marker (Str.lower secret)) _LOCAL_PLACEHOLDER_MARKERS.

(** [problems.append(...)] under a condition *)
Definition problem_if (b : bool) (text : string) : list string := if b then [text] else [].

Definition _provider_endpoint_problems (slug : string) (p : ProviderSettings) : list string :=
  problem_if (negb (Str.truthy (ps_base_url p)) || _is_local_url (ps_base_url p))
    ("provider '" +:+ slug +:+ "' still points at a local base URL") ++
  match ps_authentication_type p with
  | AuthenticationType.API_KEY => []
  | AuthenticationType.OAUTH2_CLIENT_CREDENTIALS =>
      if negb (truthy_opt (ps_oauth_token_url p)) then ["provider '" +:+ slug +:+ "' has no OAuth2 token URL"]
      else problem_if (_is_local_url (or_else (ps_oauth_token_url p) ""))
             ("provider '" +:+ slug +:+ "' still points at a local OAuth2 token URL")
  end.

Definition is_none {A} (o : option A) : bool := match o with None => true | Some _ => false end.
Definition placeholder_opt (o : option string) : bool := match o with Some s => _looks_like_placeholder s | None => false end.
Definition _provider_credential_problems (slug : string) (p : ProviderSettings) : list string :=
  let named (text : string) := "provider '" +:+ slug +:+ "' " +:+ text in
  match ps_authentication_type p with
  | AuthenticationType.OAUTH2_CLIENT_CREDENTIALS =>
      problem_if (is_none (ps_client_id p) || is_none (ps_client_secret p)) (named "is missing its OAuth2 client credentials")
  | AuthenticationType.API_KEY => problem_if (is_none (ps_api_key p)) (named "is missing its api_key")
  end ++
  problem_if (is_none (ps_webhook_secret p) && negb (truthy_opt (ps_webhook_public_key p)))
    (named "has no webhook verification material") ++
  problem_if (bool_decide (ps_webhook_public_key p = Some SANDBOX_COBALT_WEBHOOK_PUBLIC_KEY))
    (named "webhook_public_key is still the sandbox key") ++
  mjoin (map (λ '(label, secret), problem_if (placeholder_opt secret) (named (label +:+ " is still a development placeholder")))
           [("client_secret", ps_client_secret p); ("api_key", ps_api_key p); ("webhook_secret", ps_webhook_secret p)]) ++
  problem_if (placeholder_opt (ps_client_id p)) (named "client_id is still a development placeholder").

Definition _provider_problems (slug : string) (p : ProviderSettings) : list string :=
  _provider_endpoint_problems slug p ++ _provider_credential_problems slug p.

(** * The whole configuration *)

Record Configuration := mk_configuration {
  c_environment : Environment.t;
  c_sandbox_enabled : bool;
  c_sandbox_mount_in_app : bool;
  c_persistence_driver : string;
  c_log_console_renderer : bool;
  c_token_encryption_secret : string;
  c_kafka_enabled : bool;
  c_database_echo : bool;
  c_enforce_subject_isolation : bool;
  c_jwt_algorithm : string;
  c_jwt_secret : string;
  c_jwt_public_key_path : option string;
  c_providers : list (string * ProviderSettings);
}.

(** [JWTSettings._validate_key_material] *)
Definition _validate_key_material (c : Configuration) : outcome exn unit :=
  if bool_decide (c_jwt_algorithm c = "RS256") && is_none (c_jwt_public_key_path c)
  then Raise (EValueError "JWT__PUBLIC_KEY_PATH is required when JWT__ALGORITHM=RS256") else Ret tt.

Definition safety_problems (c : Configuration) : list string :=
  problem_if (c_sandbox_mount_in_app c || c_sandbox_enabled c)
    "the provider sandbox must be disabled outside local and test environments" ++
  problem_if (negb (bool_decide (c_persistence_driver c = "postgres")))
    "persistence_driver must be postgres; memory state is not durable" ++
  problem_if (c_log_console_renderer c) "console log rendering must be disabled; deployed logs must be JSON" ++
  problem_if (_looks_like_placeholder (c_token_encryption_secret c))
    "TOKEN_ENCRYPTION__SECRET is still the development placeholder" ++
  problem_if (negb (c_kafka_enabled c)) "Kafka must be enabled; the in-memory publisher is a local-only adapter" ++
  problem_if (c_database_echo c) "database statement echoing must be disabled" ++
  problem_if (negb (c_enforce_subject_isolation c))
    ("SECURITY__ENFORCE_SUBJECT_ISOLATION must be true so API clients " +:+
     "cannot read or mutate each other's workflows by UUID") ++
  problem_if (bool_decide (c_jwt_algorithm c = "HS256") && _looks_like_placeholder (c_jwt_secret c))
    "JWT__SECRET is still the development placeholder" ++
  mjoin (map (λ kv, if ps_enabled kv.2 then _provider_problems kv.1 kv.2 else []) (c_providers c)).

Definition _validate_production_safety (c : Configuration) : outcome exn unit :=
  if negb (Environment.is_production_like (c_environment c)) then Ret tt
  else match safety_problems c with
       | [] => Ret tt
       | problems => Raise (EValueError ("unsafe configuration for environment '" +:+
           Environment.value (c_environment c) +:+ "': " +:+ String.concat "; " problems))
       end.
(** [Settings(...)]: the validators, inner models first. *)
Definition validate_configuration (c : Configuration) : outcome exn unit :=
  match _validate_key_material c with
  | Raise e => Raise e
  | Ret _ => _validate_production_safety c
  end.

(** ** Overrides

    A model of pydantic as its fields, with the names of those that were set. *)
Section Overrides.
Context {V : Type}.

Record supplied := mk_supplied {
  sp_values : gmap string V;
  sp_fields_set : gset string;
}.
(** [supplied.model_dump(exclude_unset=True)] and [base.model_copy(update=...)] *)
Definition model_dump_set (s : supplied) : gmap string V := filter (λ kv, kv.1 ∈ sp_fields_set s) (sp_values s).
Definition model_copy (base update : gmap string V) : gmap string V := update ∪ base.
(** [merged.get(key)] and [merged[key] = v] *)
Fixpoint entry (key : string) (merged : list (string * gmap string V)) : option (gmap string V) :=
  match merged with
  | [] => None
  | (k, v) :: m' => if bool_decide (k = key) then Some v else entry key m'
  end.
Fixpoint put_entry (key : string) (v : gmap string V) (merged : list (string * gmap string V)) : list (string * gmap string V) :=
  match merged with
  | [] => [(key, v)]
  | (k, x) :: m' => if bool_decide (k = key) then (k, v) :: m' else (k, x) :: put_entry key v m'
  end.
Definition overlay (base : option (gmap string V)) (s : supplied) : gmap string V :=
  match base with None => sp_values s | Some base => model_copy base (model_dump_set s) end.
Definition merge_one (merged : list (string * gmap string V)) (kv : string * supplied) : list (string * gmap string V) :=
  let key := Str.lower kv.1 in
  put_entry key (overlay (entry key merged) kv.2) merged.
Definition _merge_provider_defaults (defaults : list (string * gmap string V)) (value : list (string * supplied)) :
    list (string * gmap string V) := foldl merge_one defaults value.

Lemma entry_put key key' v m : entry key (put_entry key' v m) = if bool_decide (key' = key) then Some v else entry key m.
Proof.
  induction m as [|[k x] m IH]; cbn; [done|]. destruct (bool_decide (k = key')) eqn:Hk; cbn.
  - apply bool_decide_eq_true in Hk. subst k. by case_bool_decide.
  - apply bool_decide_eq_false in Hk. rewrite IH. repeat case_bool_decide; naive_solver.
Qed.
(** What was supplied for a provider, in order. *)
Definition supplied_for (key : string) (value : list (string * supplied)) : list supplied :=
  (List.filter (λ kv, bool_decide (Str.lower kv.1 = key)) value).*2.
Lemma entry_merged key value : ∀ defaults,
  entry key (_merge_provider_defaults defaults value) =
  foldl (λ acc s, Some (overlay acc s)) (entry key defaults) (supplied_for key value).
Proof.
  induction value as [|[slug s] value IH]; intros defaults; [done|]. cbn [_merge_provider_defaults foldl].
  change (foldl merge_one (merge_one defaults (slug, s)) value) with (_merge_provider_defaults (merge_one defaults (slug, s)) value).
  rewrite IH. unfold merge_one. cbn [fst snd]. rewrite entry_put. unfold supplied_for. cbn [List.filter fst].
  by case_bool_decide as Hk; [subst key|].
Qed.
Lemma overlay_field base s f :
  (∀ g, g ∈ sp_fields_set s → is_Some (sp_values s !! g)) →
  overlay (Some base) s !! f = if bool_decide (f ∈ sp_fields_set s) then sp_values s !! f else base !! f.
Proof.
  intros Hs. cbn. unfold model_copy, model_dump_set. rewrite lookup_union, map_lookup_filter.
  case_bool_decide as Hf.
  - destruct (Hs f Hf) as [v Hv]. rewrite Hv. cbn. rewrite option_guard_True by done. cbn. by destruct (base !! f).
  - destruct (sp_values s !! f); cbn; [rewrite option_guard_False by done|]; cbn; by destruct (base !! f).
Qed.
End Overrides.
Arguments supplied : clear implicits.

(** * Facts *)

Lemma problem_if_nil b text : problem_if b text = [] → b = false.
Proof. by destruct b. Qed.
Lemma join_map_nil {A B} (f : A → list B) l : mjoin (map f l) = [] → ∀ a, a ∈ l → f a = [].
Proof.
  induction l as [|x l IH]; [by intros _ a ?%elem_of_nil|]. cbn. intros [Hx Hl]%app_nil a [->|Ha]%elem_of_cons; [done|].
  by apply IH.
Qed.

(** What holds of an enabled provider of an accepted deployment. *)
Record provider_ready (p : ProviderSettings) : Prop := {
  ready_endpoint : ps_base_url p ≠ "" ∧ _is_local_url (ps_base_url p) = false;
  ready_oauth : ps_authentication_type p = AuthenticationType.OAUTH2_CLIENT_CREDENTIALS →
    ∃ url i s, ps_oauth_token_url p = Some url ∧ url ≠ "" ∧ _is_local_url url = false ∧
      ps_client_id p = Some i ∧ ps_client_secret p = Some s;
  ready_key : ps_authentication_type p = AuthenticationType.API_KEY → is_Some (ps_api_key p);
  ready_webhook : is_Some (ps_webhook_secret p) ∨ ∃ k, ps_webhook_public_key p = Some k ∧ k ≠ "";
  ready_secrets s : Some s ∈ [ps_client_secret p; ps_api_key p; ps_webhook_secret p; ps_client_id p] →
    _looks_like_placeholder s = false;
}.

Lemma is_none_false {A} (o : option A) : is_none o = false ↔ is_Some o.
Proof. destruct o; cbn; split; done. Qed.
Lemma provider_problems_nil slug p : _provider_problems slug p = [] → provider_ready p.
Proof.
  unfold _provider_problems, _provider_endpoint_problems, _provider_credential_problems.
  intros [[Hurl Hoauth]%app_nil [Hcred [Hweb [_ [Hsec Hid%problem_if_nil]%app_nil]%app_nil]%app_nil]%app_nil]%app_nil.
  apply problem_if_nil, orb_false_iff in Hurl as [Hu1%negb_false_iff%Str.truthy_true Hu2].
  apply problem_if_nil in Hweb. cbn in Hsec. apply app_nil in Hsec as [Hs1%problem_if_nil Hsec].
  apply app_nil in Hsec as [Hs2%problem_if_nil Hsec]. apply app_nil in Hsec as [Hs3%problem_if_nil _].
  split.
  - done.
  - intros Ha. rewrite Ha in *. destruct (truthy_opt (ps_oauth_token_url p)) eqn:Ht; [|done]. cbn in Hoauth.
    apply truthy_opt_true in Ht as (url & Hurl & Hne). rewrite Hurl in Hoauth. cbn in Hoauth.
    rewrite (proj2 (Str.truthy_true _) Hne) in Hoauth. apply problem_if_nil in Hoauth.
    apply problem_if_nil, orb_false_iff in Hcred as [[i Hi]%is_none_false [s Hs]%is_none_false]. by exists url, i, s.
  - intros Ha. rewrite Ha in Hcred. by apply problem_if_nil, is_none_false in Hcred.
  - apply andb_false_iff in Hweb as [Hw|Hw]; [left; by apply is_none_false|right].
    apply negb_false_iff, truthy_opt_true in Hw as (k & Hk & Hne). by exists k.
  - intros s. rewrite !elem_of_cons, elem_of_nil.
    intros [He|[He|[He|[He|[]]]]]; [rewrite <- He in Hs1|rewrite <- He in Hs2|rewrite <- He in Hs3|rewrite <- He in Hid]; done.
Qed.

Record deployable (c : Configuration) : Prop := {
  dep_sandbox : c_sandbox_enabled c = false ∧ c_sandbox_mount_in_app c = false;
  dep_durable : c_persistence_driver c = "postgres" ∧ c_kafka_enabled c = true;
  dep_isolated : c_enforce_subject_isolation c = true;
  dep_secrets : _looks_like_placeholder (c_token_encryption_secret c) = false ∧
    (c_jwt_algorithm c = "HS256" → _looks_like_placeholder (c_jwt_secret c) = false);
  dep_providers slug p : (slug, p) ∈ c_providers c → ps_enabled p = true → provider_ready p;
}.
Lemma accepted_deployable c : Environment.is_production_like (c_environment c) = true →
  validate_configuration c = Ret tt → deployable c.
Proof.
  unfold validate_configuration, _validate_production_safety. intros ->. destruct (_validate_key_material c); [|done]. cbn [negb].
  destruct (safety_problems c) eqn:Hp; [|done]. intros _. revert Hp. unfold safety_problems.
  intros [H1%problem_if_nil [H2%problem_if_nil [_ [H4%problem_if_nil [H5%problem_if_nil [_ [H7%problem_if_nil
    [H8%problem_if_nil H9]%app_nil]%app_nil]%app_nil]%app_nil]%app_nil]%app_nil]%app_nil]%app_nil.
  apply orb_false_iff in H1 as [? ?]. apply negb_false_iff in H2, H5, H7. apply bool_decide_eq_true in H2.
  split; try done.
  - split; [done|]. intros Ha. rewrite Ha, bool_decide_true in H8 by done. done.
  - intros slug p Hin Hen. pose proof (join_map_nil _ _ H9 (slug, p) Hin) as Hp. cbn in Hp. rewrite Hen in Hp.
    by eapply provider_problems_nil.
Qed.

(** Everything that is ready can be constructed. *)
Lemma ready_authenticator {S} py_repr (N : Net S) cache locks slug p header : provider_ready p →
  ∃ auth, build_authenticator py_repr N cache locks slug p header = Ret auth.
Proof.
  intros [_ Ho Hk _ _]. unfold build_authenticator, OAuth2ClientCredentialsAuthenticator.init, ApiKeyAuthenticator.init.
  destruct (ps_authentication_type p).
  - destruct (Hk eq_refl) as [k ->]. by eexists.
  - destruct (Ho eq_refl) as (url & i & s & -> & Hne & _ & -> & ->). rewrite (proj2 (Str.truthy_true _) Hne). by eexists.
Qed.
Lemma ready_gateways {S} ed (N : Net S) py_repr cache locks window G ps : ∀ acc,
  (∀ slug p, (slug, p) ∈ ps → provider_ready p) →
  ∃ gws, build_gateways ed N py_repr cache locks window G ps acc = Ret gws.
Proof.
  induction ps as [|[text p] ps IH]; intros acc Hready; cbn [build_gateways]; [by eexists|].
  assert (∀ slug q, (slug, q) ∈ ps → provider_ready q) as Hps by (intros; eapply Hready; by right).
  destruct (table_get text _) as [mk|] eqn:Hmk; [|by apply IH].
  assert (ProviderSlug.make text = Ret text) as ->.
  { unfold table_get, ADAPTER_FACTORIES in Hmk. cbn in Hmk.
    repeat (destruct (decide _) as [<-|]; [vm_compute; reflexivity|]). done. }
  unfold _build_adapter.
  match goal with |- context [build_authenticator ?a ?b ?c ?d ?e ?f ?g] =>
    destruct (ready_authenticator a b c d e f g) as [auth ->]; [eapply Hready; by left|] end.
  by apply IH.
Qed.

(** * Theorems *)

Module ConfigTheorems.
(** C31. A configuration that a staging or production deployment accepts is one it can
    start with: the sandbox is off, state and events are durable, clients are
    isolated, no enabled provider has a local address, missing credentials or a
    placeholder for a secret, and every gateway can be constructed. *)
Theorem accepted_configuration_starts {S} ed (N : Net S) py_repr cache locks window G (c : Configuration) :
  Environment.is_production_like (c_environment c) = true → validate_configuration c = Ret tt →
  deployable c ∧ ∃ gws, build_provider_registry ed N py_repr cache locks window G (c_providers c) = Ret gws.
Proof.
  intros He Hv. pose proof (accepted_deployable c He Hv) as Hd. split; [done|].
  apply ready_gateways. intros slug p Hin. unfold enabled_providers in Hin.
  apply list_elem_of_In, filter_In in Hin as [Hin Hen]. apply list_elem_of_In in Hin. by eapply (dep_providers c Hd).
Qed.

(** Choosing a driver keeps everything of a database URL after the scheme, forgets
    a driver chosen before, and leaves other URLs alone: the URL the migrations
    use names the same database as the application's. *)
Theorem driver_choice_keeps_the_database (url driver payload scheme : string) :
  postgresql_url_with_driver (postgresql_url_with_driver url POSTGRESQL_ASYNC_DRIVER) driver =
    postgresql_url_with_driver url driver ∧
  (partition_at "://" url = Some (scheme, payload) →
     (∃ prefix, postgresql_url_with_driver url driver = prefix +:+ "://" +:+ payload) ∨
     postgresql_url_with_driver url driver = url).
Proof.
  unfold postgresql_url_with_driver at 2 3 4 5. destruct (partition_at "://" url) as [[sch pay]|] eqn:Hp.
  - destruct (bool_decide_reflect (match partition_at "+" sch with Some (d, _) => d | None => sch end = "postgresql")) as [Hd|Hd].
    + split; [destruct pay; vm_compute; reflexivity|]. intros [= -> ->]. left. exists ("postgresql+" +:+ driver). reflexivity.
    + split; [|intros _; by right]. unfold postgresql_url_with_driver. rewrite Hp. by rewrite bool_decide_false.
  - split; [|done]. unfold postgresql_url_with_driver. by rewrite Hp.
Qed.

(** A deployment. *)
Definition live_provider : ProviderSettings :=
  mk_provider_settings true "Meridian" AuthenticationType.API_KEY "https://api.meridian.io" None None None None
    (Some "7f3a") (Some "c0de") None 5 3 8 60.
Definition live : Configuration :=
  mk_configuration Environment.PRODUCTION false false "postgres" false "b64key" true false true "RS256" "" (Some "/keys/jwt.pem")
    [("meridian", live_provider)].
Lemma accepted_configuration_starts_witness :
  deployable live ∧ ∃ gws, build_provider_registry (λ _ _ _, false) AdapterWitnesses.world_net (λ _, "")
    (AdapterWitnesses.no_cache World) (AdapterWitnesses.no_locks World) 300 (AdapterWitnesses.open_guards World) (c_providers live) = Ret gws.
Proof.
  apply (accepted_configuration_starts (λ _ _ _, false) AdapterWitnesses.world_net (λ _, "")
    (AdapterWitnesses.no_cache World) (AdapterWitnesses.no_locks World) 300 (AdapterWitnesses.open_guards World) live); vm_compute; reflexivity.
Defined.

(** The defaults are refused in production. *)
Example defaults_are_refused :
  match validate_configuration (mk_configuration Environment.PRODUCTION true true "postgres" false
          "local-development-token-encryption-secret-not-for-production" true false false "HS256"
          "local-development-signing-secret-not-for-production" None _default_providers) with
  | Ret _ => false
  | Raise _ => true
  end = true.
Proof. vm_compute. reflexivity. Qed.

(** The check for webhook material does not look at which kind the adapter needs: a
    Northstar with a public key and no secret is accepted, and rejects every
    delivery. *)
Definition keyed_northstar : ProviderSettings :=
  mk_provider_settings true "Northstar" AuthenticationType.API_KEY "https://api.northstar.io" None None None None
    (Some "7f3a") None (Some "cHVibGlj") 5 3 8 60.
Example unusable_material_accepted :
  _provider_problems "northstar" keyed_northstar = [] ∧
  ∀ window w, ¬ vouched (NorthstarAdapter.validate_webhook keyed_northstar window w).
Proof.
  split; [vm_compute; reflexivity|]. intros window w (v & Hv & Ht & _). unfold NorthstarAdapter.validate_webhook in Hv.
  destruct (header w _) as [sg|], (header w _) as [ts|]; cbn in Hv;
    repeat match type of Hv with context [if ?b then _ else _] => destruct b end; injection Hv as <-; done.
Qed.

(** What the environment supplies for a provider is laid over its defaults field by
    field. A provider the defaults know, under any capitalisation, has every field
    that was set as it was set and every other field as the default has it; one
    they do not know is taken as supplied; one that nothing was supplied for keeps
    its defaults. *)
Theorem overrides_keep_the_defaults {V} (defaults : list (string * gmap string V)) (value : list (string * supplied V)) (key : string) :
  (∀ s, s ∈ supplied_for key value → ∀ g, g ∈ sp_fields_set s → is_Some (sp_values s !! g)) →
  match supplied_for key value with
  | [] => entry key (_merge_provider_defaults defaults value) = entry key defaults
  | [s] => match entry key defaults with
           | None => entry key (_merge_provider_defaults defaults value) = Some (sp_values s)
           | Some base => ∃ merged, entry key (_merge_provider_defaults defaults value) = Some merged ∧
               ∀ f, merged !! f = if bool_decide (f ∈ sp_fields_set s) then sp_values s !! f else base !! f
           end
  | _ => is_Some (entry key (_merge_provider_defaults defaults value))
  end.
Proof.
  intros Hs. rewrite entry_merged. destruct (supplied_for key value) as [|s [|s' l]]; [done| |].
  - cbn [foldl]. destruct (entry key defaults) as [base|]; [|done]. eexists. split; [done|]. intros f.
    apply overlay_field. apply Hs. left.
  - cbn [foldl]. generalize (overlay (Some (overlay (entry key defaults) s)) s') as x. clear Hs.
    induction l as [|s2 l IH]; intros x; [by eexists|]. apply IH.
Qed.
Lemma overrides_keep_the_defaults_witness :
  let defaults := [("cobalt", {["display_name" := "Cobalt Network"]} : gmap string string)] in
  let value := [("COBALT", mk_supplied ({["timeout" := "9"]} : gmap string string) {["timeout"]})] in
  ∃ merged, entry "cobalt" (_merge_provider_defaults defaults value) = Some merged ∧
    merged !! "display_name" = Some "Cobalt Network" ∧ merged !! "timeout" = Some "9".
Proof.
  intros defaults value.
  destruct (overrides_keep_the_defaults defaults value "cobalt") as (m & Hm & Hf).
  - intros s Hs. assert (s = mk_supplied {["timeout" := "9"]} {["timeout"]}) as -> by (by apply list_elem_of_singleton in Hs).
    intros g Hg. cbn in *. apply elem_of_singleton in Hg. subst g. by exists "9".
  - exists m. split; [exact Hm|]. split; rewrite Hf; vm_compute; reflexivity.
Defined.
End ConfigTheorems.
