(* ===== verification/Messaging.v ===== *)
(** Publishing events: the Kafka publisher ([infrastructure/messaging/kafka.py],
    the topics of [config/settings.py]) and the in-memory one
    ([infrastructure/messaging/memory.py]).

    The aiokafka producer is not part of the repository: it is an interface over
    any state. [send] hands a record over and answers a future; awaiting the
    future answers when the broker did. A [KafkaError] is the exception of that
    name. *)

From S2P Require Import Prelude PyData PyTime PyText PyDates Sha256 Enums Errors ValueObjects JsonText.
From S2P Require Import Policies Entities RequestFacts Workflow Records Store Journal Ports Outbox Samples.

Definition KafkaError : exn := EOther "KafkaError".
Definition is_kafka_error (e : exn) : bool := match e with EOther s => bool_decide (s = "KafkaError") | _ => false end.
(** [except (TimeoutError, KafkaError, OSError)] *)
Definition is_start_failure (e : exn) : bool :=
  match e with EOther s => bool_decide (s ∈ ["TimeoutError"; "KafkaError"; "OSError"]) | _ => false end.
Definition publication_error (msg : string) : exn := error ErrorClass.EventPublicationError msg no_kwargs.

Record kafka_record := mk_record {
  kr_topic : string;
  kr_value : list Z;
  kr_key : list Z;
  kr_headers : list (string * list Z);
}.
Record Producer (S : Type) := mk_producer {
  producer_start : M exn S unit;
  producer_stop : M exn S unit;
  producer_send : kafka_record → M exn S nat;
  await_future : nat → M exn S unit;
  producer_brokers : M exn S bool;
}.
Arguments producer_start {S}.
Arguments producer_stop {S}.
Arguments producer_send {S}.
Arguments await_future {S}.
Arguments producer_brokers {S}.

(** [KafkaSettings.topic_for] *)
Definition topic_for (topic_prefix event_type : string) : string :=
  let parts := Text.split (Text.is_code 46) event_type in
  if (length parts <? 3)%nat then topic_prefix +:+ "." +:+ event_type
  else String.concat "." (take 2 parts).

Section Kafka.
Context {S : Type} (float_repr : Q → string) (topic_prefix : string) (P : Producer S).

Definition _encode (v : EventEnvelope) : list Z := utf8 (print float_repr "" (JObj (envelope_to_dict v))).
Definition _headers (v : EventEnvelope) : list (string * list Z) :=
  [("event_id", utf8 (uuid_str (env_event_id v))); ("event_type", utf8 (env_event_type v));
   ("event_version", utf8 (pretty (env_event_version v))); ("correlation_id", utf8 (env_correlation_id v));
   ("producer", utf8 (env_producer v))] ++
  match env_causation_id v with
  | Some c => if Str.truthy c then [("causation_id", utf8 c)] else []
  | None => []
  end.
Definition record_of (v : EventEnvelope) : kafka_record :=
  mk_record (topic_for topic_prefix (env_event_type v)) (_encode v) (utf8 (env_aggregate_id v)) (_headers v).

(** [self._producer] is not [None] when [started]. *)
Definition start (started : bool) : M exn S bool :=
  if started then ret true
  else
    try_except (producer_start P) (λ e,
      if is_start_failure e then
        Some (try_except (producer_stop P) (λ _, Some (ret tt)) ;;;
              raise (publication_error ("kafka producer failed to start: " +:+
                match e with EOther s => s | _ => "" end)))
      else None) ;;;
    ret true.
Definition stop (started : bool) : M exn S bool :=
  if negb started then ret false else producer_stop P ;;; ret false.
Definition healthy (started : bool) : M exn S bool :=
  if negb started then ret false
  else try_except (producer_brokers P) (λ e, if is_kafka_error e then Some (ret false) else None).

Fixpoint send_all (vs : list EventEnvelope) : M exn S (list nat) :=
  match vs with
  | [] => ret []
  | v :: vs' =>
      let* f := producer_send P (record_of v) in
      let* fs := send_all vs' in
      ret (f :: fs)
  end.
Fixpoint await_all (fs : list nat) : M exn S unit :=
  match fs with
  | [] => ret tt
  | f :: fs' => await_future P f ;;; await_all fs'
  end.

(** Only the waiting is inside the [try]. *)
Definition publish_batch (started : bool) (envelopes : list EventEnvelope) : M exn S unit :=
  match envelopes with
  | [] => ret tt
  | _ =>
      if negb started then raise (publication_error "the kafka producer has not been started")
      else
        let* futures := send_all envelopes in
        try_except (await_all futures) (λ e,
          if is_kafka_error e then Some (raise (publication_error "kafka rejected the publication: KafkaError")) else None)
  end.
Definition publish (started : bool) (v : EventEnvelope) : M exn S unit := publish_batch started [v].
End Kafka.

(** [InMemoryEventPublisher] *)
Module InMemoryEventPublisher.
Record t := mk {
  published : list EventEnvelope;
  started : bool;
  fail_next : Z;
}.
#[export] Instance eta_memory : Eta t := λ p, mk (published p) (started p) (fail_next p).
Definition publish_batch (vs : list EventEnvelope) : M exn t unit :=
  let* p := getS in
  if 0 <? fail_next p then
    putS (p <| fail_next := fail_next p - 1 |>) ;;;
    raise (publication_error "the in-memory publisher was told to fail")
  else putS (p <| published := published p ++ vs |>).
Definition publish (v : EventEnvelope) : M exn t unit := publish_batch [v].
Definition start (p : t) : t := p <| started := true |>.
Definition stop (p : t) : t := p <| started := false |>.
Definition healthy (p : t) : bool := started p.
(** [fail_next(count)] and [clear()], used by tests *)
Definition set_fail_next (count : Z) (p : t) : t := p <| fail_next := count |>.
Definition clear (p : t) : t := p <| published := [] |>.
Definition types (p : t) : list string := env_event_type <$> published p.
End InMemoryEventPublisher.
Export (hints) InMemoryEventPublisher.

(** * Facts *)

(** An envelope whose own content can be written and read back. *)
Definition envelope_readable (v : EventEnvelope) : bool :=
  (Z.abs (env_event_version v) <? 10 ^ 4300) && readable (JObj (env_payload v)) && readable (JObj (env_metadata v)).

Lemma readable_jopt o : readable (jopt o) = true.
Proof. by destruct o. Qed.
Lemma readable_obj (o : dict) : NoDup o.*1 → Forall (λ kv, readable kv.2 = true) o → readable (JObj o) = true.
Proof.
  intros Hn Hf. cbn [readable]. rewrite bool_decide_true by done. cbn [andb]. apply forallb_forall.
  intros kv Hin. rewrite Forall_forall in Hf. apply Hf. by apply list_elem_of_In.
Qed.
Lemma envelope_dict_readable v : envelope_readable v = true → readable (JObj (envelope_to_dict v)) = true.
Proof.
  intros [[Hv Hp]%andb_true_iff Hm]%andb_true_iff. apply readable_obj.
  - apply (bool_decide_unpack _). vm_compute. done.
  - unfold envelope_to_dict. repeat constructor; cbn [snd]; try done. apply readable_jopt.
Qed.

(** What a consumer reads. *)
Lemma encode_head float_repr v : ∃ rest, _encode float_repr v = 123 :: 34 :: 101 :: 118 :: rest.
Proof.
  unfold _encode, envelope_to_dict. cbn [print map]. rewrite concat_cons. eexists. reflexivity.
Qed.
Lemma encode_decodes float_repr v : envelope_readable v = true →
  loads (_encode float_repr v) = inr (JObj (envelope_to_dict v)).
Proof.
  intros Hv. unfold loads. assert (utf8_input (_encode float_repr v) = Some (_encode float_repr v)) as ->.
  { destruct (encode_head float_repr v) as [rest ->]. reflexivity. }
  unfold _encode. rewrite Utf8.decode_utf8, Utf8.text_codes. apply loads_print; [by left|by apply envelope_dict_readable].
Qed.

Section Order.
Context {S : Type} (float_repr : Q → string) (topic_prefix : string) (P : Producer S) (log : S → list kafka_record).
(** What the producer was handed, in order. *)
Context (Hsend : ∀ r s f s', producer_send P r s = (Ret f, s') → log s' = log s ++ [r]).
Context (Hawait : ∀ f s, log (await_future P f s).2 = log s).

Lemma send_all_log vs : ∀ s fs s', send_all float_repr topic_prefix P vs s = (Ret fs, s') →
  log s' = log s ++ (record_of float_repr topic_prefix <$> vs).
Proof.
  induction vs as [|v vs IH]; intros s fs s'; cbn [send_all]; [intros [= <- <-]; by rewrite app_nil_r|].
  unfold bind. destruct (producer_send P _ s) as [[f|e] s1] eqn:Hs; [|done].
  destruct (send_all _ _ _ vs s1) as [[fs'|e] s2] eqn:Hr; [|done]. intros [= <- <-].
  rewrite (IH _ _ _ Hr), (Hsend _ _ _ _ Hs). by rewrite fmap_cons, <- app_assoc.
Qed.
Lemma await_all_log fs : ∀ s, log (await_all P fs s).2 = log s.
Proof.
  induction fs as [|f fs IH]; intros s; [done|]. cbn [await_all]. unfold bind. specialize (Hawait f s).
  destruct (await_future P f s) as [[[]|e] s1]; [by rewrite IH|done].
Qed.
Lemma publish_batch_log started vs s s' :
  publish_batch float_repr topic_prefix P started vs s = (Ret tt, s') →
  log s' = log s ++ (record_of float_repr topic_prefix <$> vs).
Proof.
  destruct vs as [|v vs]; [intros [= <-]; by rewrite app_nil_r|]. unfold publish_batch. destruct started; [|done]. cbn [negb].
  unfold bind at 1. destruct (send_all _ _ _ (v :: vs) s) as [[fs|e] s1] eqn:Hs; [|done].
  unfold try_except. pose proof (await_all_log fs s1) as Hl. destruct (await_all P fs s1) as [[[]|e] s2].
  - intros [= <-]. cbn in Hl. rewrite Hl. by eapply send_all_log.
  - destruct (is_kafka_error e); [|done]. done.
Qed.
End Order.

(** * Theorems *)

Module MessagingTheorems.
(** A batch that was published was handed to the broker in its order, each event
    once, as a record of the topic of its type, keyed by its aggregate, whose value
    a consumer reads back as exactly the event; so the events of one request share
    topic and key and stay in order. *)
Theorem published_batch_reaches_the_broker {S} (float_repr : Q → string) topic_prefix (P : Producer S) (log : S → list kafka_record)
    started vs s s' :
  (∀ r s f s', producer_send P r s = (Ret f, s') → log s' = log s ++ [r]) →
  (∀ f s, log (await_future P f s).2 = log s) →
  Forall (λ v, envelope_readable v = true) vs →
  publish_batch float_repr topic_prefix P started vs s = (Ret tt, s') →
  ∃ rs, log s' = log s ++ rs ∧
    Forall2 (λ v r, kr_topic r = topic_for topic_prefix (env_event_type v) ∧ kr_key r = utf8 (env_aggregate_id v) ∧
                    loads (kr_value r) = inr (JObj (envelope_to_dict v))) vs rs.
Proof.
  intros Hs Ha Hv Hrun. exists (record_of float_repr topic_prefix <$> vs). split; [by eapply publish_batch_log|].
  clear Hrun. induction Hv as [|v vs Hv _ IH]; constructor; [|done]. cbn [record_of kr_topic kr_key kr_value].
  split_and!; [done|done|by apply encode_decodes].
Qed.

(** A producer that keeps what it is handed, and refuses one type of event. *)
Definition recording (refused : string) : Producer (list kafka_record) := {|
  producer_start := ret tt; producer_stop := ret tt; producer_brokers := ret true; await_future _ := ret tt;
  producer_send r := if bool_decide (kr_topic r = refused) then raise KafkaError
                     else λ s, (Ret (length s), s ++ [r]) |}.
Definition sample_envelope (ty : string) : EventEnvelope :=
  mk_envelope 7 ty 1 "integration_request" "agg-1" (utc 0) "corr" PRODUCER_NAME [("status", JStr "pending")] None [].
Definition two_events : list EventEnvelope :=
  [sample_envelope EventType.REQUEST_RECEIVED; sample_envelope EventType.REQUEST_PENDING].
Lemma published_batch_reaches_the_broker_witness :
  ∃ rs, (publish_batch (λ _, "") "integration" (recording "") true two_events []).2 = [] ++ rs ∧
    Forall2 (λ v r, kr_topic r = topic_for "integration" (env_event_type v) ∧ kr_key r = utf8 (env_aggregate_id v) ∧
                    loads (kr_value r) = inr (JObj (envelope_to_dict v))) two_events rs.
Proof.
  apply (published_batch_reaches_the_broker (λ _, "") "integration" (recording "") (λ s, s) true two_events []).
  - intros r s f s'. cbn. case_bool_decide; [done|]. by intros [= <- <-].
  - done.
  - repeat constructor; vm_compute; reflexivity.
  - vm_compute. reflexivity.
Defined.

(** The events of a request share a topic. *)
Example request_topic : topic_for "integration" EventType.REQUEST_RECEIVED = "integration.request" ∧
  topic_for "integration" EventType.REQUEST_SUCCEEDED = "integration.request".
Proof. split; reflexivity. Qed.

(** A record that the producer itself refuses is not turned into the error the
    outbox publisher handles: the batch that contains it raises, and no event of it
    is tried on its own or marked. *)
Definition world_producer (refused : string) : Producer World := {|
  producer_start := ret tt; producer_stop := ret tt; producer_brokers := ret true; await_future _ := ret tt;
  producer_send r := if bool_decide (kr_topic r = refused) then raise KafkaError else ret O |}.
Definition poisoned (n : N) (ty : string) : OutboxEvent.t :=
  OutboxEvent.mk n n ty 1 "integration_request" "agg-1" [] "corr" (utc 0) None None None 0 None None None.
Example refused_record_blocks_the_batch :
  (Publisher._publish
     (publish (λ _, "") "integration" (world_producer "bad.topic") true)
     (publish_batch (λ _, "") "integration" (world_producer "bad.topic") true)
     [poisoned 1 EventType.REQUEST_RECEIVED; poisoned 2 "bad.topic.v1"]
     (mk_world empty_tables (open_session empty_tables) 0 0 0)).1 = Raise KafkaError.
Proof. vm_compute. reflexivity. Qed.
End MessagingTheorems.
