(* ===== verification/Edge.v ===== *)
(** The edge of the API: size and rate limits on what comes in
    ([api/middleware.py]), the catalogue of providers with their health
    ([application/use_cases/list_providers.py], [api/routers/providers.py]) and
    the probes of the process itself ([api/routers/health.py]). *)

From S2P Require Import Prelude PyData PyTime PyText Enums Errors ValueObjects Policies Entities.
From S2P Require Import Records Redis CircuitBreaker RateLimiter Coordination Resilient Transport Adapters Access.

(** * Middleware *)

(** What the middleware reads of a request; header names are lower case. *)
Record edge_request := mk_edge_request {
  eq_method : string;
  eq_path : string;
  eq_headers : list (string * string);
  eq_client : option string;
}.
(** An answer of the middleware itself, or what the application answers. *)
Definition too_large (max_bytes : Z) : reply :=
  mk_reply 413 (error_body "payload_too_large" ("the request body exceeds the " +:+ pretty max_bytes +:+ " byte limit")
                  (value ErrorCategory.VALIDATION) false []) [].
Definition rate_limited : reply :=
  mk_reply 429 (error_body "rate_limited" "inbound rate limit exceeded; retry shortly" "provider_rate_limit" true []) [].

(** [s.isdigit()]: superscripts are digits that [int] does not read. *)
Definition isdigit (s : string) : bool :=
  Str.truthy s && Str.all_chars (λ c, Text.is_digit c || bool_decide (Str.code c ∈ [178; 179; 185])) s.

Section Middleware.
Context {S : Type} (call_next : M exn S reply).

(** [BodySizeLimitMiddleware.dispatch] *)
Definition limit_body (max_bytes : Z) (r : edge_request) : M exn S reply :=
  match text_get "content-length" (eq_headers r) with
  | Some declared =>
      if isdigit declared then
        match Num.int declared with
        | None => raise (EValueError "invalid literal for int() with base 10")
        | Some n => if max_bytes <? n then ret (too_large max_bytes) else call_next
        end
      else call_next
  | None => call_next
  end.

Context (py_repr : json → string) (jwt_decode : string → option dict).

(** The subject of the bearer token, else the address of the client. *)
Definition _inbound_scope (r : edge_request) : string :=
  let fallback := match eq_client r with Some host => host | None => "anonymous" end in
  let auth := default "" (text_get "authorization" (eq_headers r)) in
  if String.prefix "bearer " (Str.lower auth) then
    match verify py_repr jwt_decode (Str.strip (default "" (Text.after_first space auth))) None with
    | Ret p => if Str.truthy (subject p) then subject p else fallback
    | Raise _ => fallback
    end
  else fallback.

Context (limiter_allow : string → InboundRateLimiter.InboundLimit → M exn S bool).

Definition inbound_limit (r : edge_request) : InboundRateLimiter.InboundLimit :=
  if String.prefix "/webhooks" (eq_path r) then InboundRateLimiter.mk_limit "webhooks" 50 100 true
  else if bool_decide (eq_method r ∈ ["POST"; "PUT"; "PATCH"; "DELETE"]) then InboundRateLimiter.mk_limit "mutations" 20 40 true
  else InboundRateLimiter.mk_limit "reads" 100 200 false.

(** [InboundRateLimitMiddleware.dispatch] of a started process *)
Definition limit_rate (r : edge_request) : M exn S reply :=
  if String.prefix "/health" (eq_path r) || String.prefix "/metrics" (eq_path r) then call_next
  else
    let* allowed := limiter_allow (_inbound_scope r) (inbound_limit r) in
    if negb allowed then ret rate_limited else call_next.
End Middleware.

(** * The catalogue *)

Record ProviderSummary := mk_summary {
  sm_descriptor : ProviderDescriptor;
  sm_circuit_state : CircuitState.t;
  sm_failure_count : Z;
  sm_in_flight : Z;
  sm_capacity : Z;
  sm_reachable : bool;
  sm_detail : option string;
}.
Definition summary_healthy (s : ProviderSummary) : bool :=
  sm_reachable s && bool_decide (sm_circuit_state s = CircuitState.CLOSED).

Definition is_timeout (e : exn) : bool := match e with EOther s => bool_decide (s = "TimeoutError") | _ => false end.

Section Catalogue.
Context {S : Type} (circuit_state : string → M exn S CircuitSnapshot).
Context (in_flight capacity : string → S → Z).
(** [async with asyncio.timeout(n): body], which raises [TimeoutError] *)
Context (with_timeout : M exn S ProviderHealthProbe → M exn S ProviderHealthProbe).

Definition _probe (a : Adapter S) : M exn S (bool * option string) :=
  try_except (let* result := with_timeout (ad_health a) in ret (hp_healthy result, hp_detail result))
    (λ e, Some (ret (false,
       if is_timeout e then Some "the health probe exceeded its timeout"
       else match e with
            | EDomain d => if ErrorClass.subclass (cls d) ErrorClass.ProviderError then Some (err_code d)
                           else Some "the health probe failed unexpectedly"
            | _ => Some "the health probe failed unexpectedly"
            end))).

Definition _summarize (probe : bool) (a : Adapter S) : M exn S ProviderSummary :=
  let slug := d_slug (ad_descriptor a) in
  let* snapshot := circuit_state slug in
  let* (reachable, detail) := if probe then _probe a else ret (true, None) in
  let* flying := gets (in_flight slug) in
  let* room := gets (capacity slug) in
  ret (mk_summary (ad_descriptor a) (state snapshot) (failure_count snapshot) flying room reachable detail).

Fixpoint summarize_all (probe : bool) (gateways : list (Adapter S)) : M exn S (list ProviderSummary) :=
  match gateways with
  | [] => ret []
  | a :: gateways' =>
      let* s := _summarize probe a in
      let* ss := summarize_all probe gateways' in
      ret (s :: ss)
  end.
Definition by_slug (s : ProviderSummary) : string * ProviderSummary := (d_slug (sm_descriptor s), s).
(** [ListProvidersUseCase.execute]; [asyncio.gather] runs the summaries one after
    the other here. *)
Definition list_providers (probe : bool) (gateways : list (Adapter S)) : M exn S (list ProviderSummary) :=
  let* summaries := summarize_all probe gateways in
  ret ((sort_items (by_slug <$> summaries)).*2).

Record ProviderCapabilities := mk_capabilities {
  pc_supported_operations : list OperationType.t;
  pc_supports_cancellation : bool;
  pc_supports_status_lookup : bool;
  pc_supports_provider_idempotency : bool;
  pc_webhook_signature_scheme : string;
}.
Record ProviderHealthResponse := mk_health_response {
  ph_provider : string;
  ph_display_name : string;
  ph_enabled : bool;
  ph_healthy : bool;
  ph_reachable : bool;
  ph_circuit_state : string;
  ph_consecutive_failures : Z;
  ph_in_flight : Z;
  ph_capacity : Z;
  ph_authentication_type : string;
  ph_max_attempts : Z;
  ph_total_timeout_seconds : Q;
  ph_capabilities : ProviderCapabilities;
  ph_detail : option string;
}.
(** [sorted(operations, key=lambda item: item.value)] *)
Definition sorted_operations (ops : list OperationType.t) : list OperationType.t :=
  (sort_items (map (λ op, (value op, op)) ops)).*2.
Definition from_summary (m : ProviderSummary) : ProviderHealthResponse :=
  let d := sm_descriptor m in {|
  ph_provider := d_slug d;
  ph_display_name := d_display_name d;
  ph_enabled := d_enabled d;
  ph_healthy := summary_healthy m;
  ph_reachable := sm_reachable m;
  ph_circuit_state := value (sm_circuit_state m);
  ph_consecutive_failures := sm_failure_count m;
  ph_in_flight := sm_in_flight m;
  ph_capacity := sm_capacity m;
  ph_authentication_type := d_authentication_type d;
  ph_max_attempts := d_max_attempts d;
  ph_total_timeout_seconds := d_total_timeout_seconds d;
  ph_capabilities := mk_capabilities (sorted_operations (d_supported_operations d)) (d_supports_cancellation d)
    (d_supports_status_lookup d) (d_supports_provider_idempotency d) (d_webhook_signature_scheme d);
  ph_detail := sm_detail m |}.

(** [get_provider] *)
Definition get_provider (provider : string) (probe : bool) (gateways : list (Adapter S)) : M exn S ProviderHealthResponse :=
  let* summaries := list_providers probe gateways in
  match List.find (λ m, bool_decide (d_slug (sm_descriptor m) = Str.lower provider)) summaries with
  | Some m => ret (from_summary m)
  | None => raise (error ErrorClass.NotFoundError ("provider '" +:+ provider +:+ "' is not configured")
              (no_kwargs <| k_metadata := [("provider", JStr provider)] |>))
  end.
End Catalogue.

(** * Probes of the process *)

Record DependencyStatus := mk_dependency {
  dep_name : string;
  dep_healthy : bool;
  dep_detail : option string;
}.
Section Probes.
(** The calls, each under its timeout. *)
Context {S : Type} (type_name : exn → string).
Context (select_one redis_ping : M exn S unit) (kafka_enabled : bool) (publisher_healthy : M exn S bool).

Definition _check_database : M exn S DependencyStatus :=
  try_except (select_one ;;; ret (mk_dependency "postgresql" true None))
    (λ e, Some (ret (mk_dependency "postgresql" false (Some (type_name e))))).
Definition _check_redis : M exn S DependencyStatus :=
  try_except (redis_ping ;;; ret (mk_dependency "redis" true None))
    (λ e, if is_timeout e || is_redis_error e
          then Some (ret (mk_dependency "redis" false (Some (type_name e)))) else None).
Definition _check_broker : M exn S DependencyStatus :=
  if negb kafka_enabled
  then ret (mk_dependency "kafka" true (Some "disabled; events are published in process"))
  else
    try_except
      (let* healthy := publisher_healthy in
       ret (mk_dependency "kafka" healthy
              (if healthy : bool then None else Some "the producer has no live broker connection")))
      (λ e, if is_timeout e then Some (ret (mk_dependency "kafka" false (Some "the probe timed out"))) else None).

(** [readiness]; the checks run one after the other. *)
Definition readiness : M exn S (Z * string * list DependencyStatus) :=
  let* d := _check_database in
  let* r := _check_redis in
  let* b := _check_broker in
  let checks := [d; r; b] in
  let ready := forallb dep_healthy checks in
  ret (if ready then 200 else 503, if ready then "ready" else "not_ready", checks).
End Probes.

(** * Facts *)

Lemma probe_answers {S} with_timeout (a : Adapter S) s : ∃ r s', _probe with_timeout a s = (Ret r, s').
Proof.
  unfold _probe, try_except, bind. destruct (with_timeout (ad_health a) s) as [[p|e] s']; by do 2 eexists.
Qed.
(** A provider whose probe fails, hangs or breaks is shown as not reachable. *)
Lemma probe_failure {S} with_timeout (a : Adapter S) s e s' : with_timeout (ad_health a) s = (Raise e, s') →
  ∃ detail, _probe with_timeout a s = (Ret (false, Some detail), s').
Proof.
  intros Hr. unfold _probe, try_except, bind. rewrite Hr. unfold ret.
  destruct (is_timeout e); [by eexists|]. destruct e as [d| | | | | |]; try by eexists.
  destruct (ErrorClass.subclass (cls d) ErrorClass.ProviderError); by eexists.
Qed.
Lemma summarize_answers {S} cs inf cap wt probe (a : Adapter S) s :
  (∀ slug s, ∃ c s', cs slug s = (Ret c, s')) →
  ∃ m s', _summarize cs inf cap wt probe a s = (Ret m, s') ∧ sm_descriptor m = ad_descriptor a.
Proof.
  intros Hc. unfold _summarize, bind, gets. destruct (Hc (d_slug (ad_descriptor a)) s) as (c & s1 & ->).
  destruct probe; [|by do 2 eexists]. destruct (probe_answers wt a s1) as ([reachable detail] & s2 & ->). by do 2 eexists.
Qed.

Section ProbeFacts.
Context {S : Type} (type_name : exn → string).

Lemma check_database_spec (select_one : M exn S unit) s : ∃ d,
  _check_database type_name select_one s = (Ret d, (select_one s).2) ∧
  (dep_healthy d = true ↔ (select_one s).1 = Ret tt).
Proof.
  unfold _check_database, try_except, bind, ret. destruct (select_one s) as [[[]|e] s1]; by eexists.
Qed.
Lemma check_redis_spec (redis_ping : M exn S unit) s :
  (∀ e s', redis_ping s = (Raise e, s') → is_timeout e || is_redis_error e = true) →
  ∃ d, _check_redis type_name redis_ping s = (Ret d, (redis_ping s).2) ∧
    (dep_healthy d = true ↔ (redis_ping s).1 = Ret tt).
Proof.
  intros Hr. unfold _check_redis, try_except, bind, ret. destruct (redis_ping s) as [[[]|e] s1]; [by eexists|].
  rewrite (Hr e s1 eq_refl). by eexists.
Qed.
Lemma check_broker_spec kafka_enabled (publisher_healthy : M exn S bool) s :
  (∀ e s', publisher_healthy s = (Raise e, s') → is_timeout e = true) →
  ∃ d s', _check_broker kafka_enabled publisher_healthy s = (Ret d, s') ∧
    (dep_healthy d = true ↔ (kafka_enabled = true → (publisher_healthy s).1 = Ret true)).
Proof.
  intros Hb. unfold _check_broker, try_except, bind, ret. destruct kafka_enabled; cbn [negb]; [|by do 2 eexists].
  destruct (publisher_healthy s) as [[[]|e] s1].
  - do 2 eexists. split; [reflexivity|]. cbn. tauto.
  - do 2 eexists. split; [reflexivity|]. cbn. split; [done|]. intros Hk. by specialize (Hk eq_refl).
  - rewrite (Hb e s1 eq_refl). do 2 eexists. split; [reflexivity|]. cbn. split; [done|]. intros Hk. by specialize (Hk eq_refl).
Qed.
End ProbeFacts.

(** * Theorems *)

Module EdgeTheorems.
(** When Redis cannot be reached, changes and webhooks are turned away with 429
    before the application sees them, reads are let through, and the health
    endpoints never ask. *)
Theorem limits_fail_closed `{Redis} (call_next : M exn redis_client reply) py_repr jwt_decode namespace r (c : redis_client) :
  rc_up c = false →
  let served := limit_rate call_next py_repr jwt_decode (InboundRateLimiter.allow namespace) r c in
  let exempt := String.prefix "/health" (eq_path r) || String.prefix "/metrics" (eq_path r) in
  let guarded := String.prefix "/webhooks" (eq_path r) || bool_decide (eq_method r ∈ ["POST"; "PUT"; "PATCH"; "DELETE"]) in
  served = if negb exempt && guarded then (Ret rate_limited, c) else call_next c.
Proof.
  intros Hup served exempt guarded. unfold served, limit_rate. fold exempt. destruct exempt; [done|]. cbn [negb andb].
  assert (∀ scope l, InboundRateLimiter.allow namespace scope l c = (Ret (negb (InboundRateLimiter.fail_closed l)), c)) as Ha.
  { intros scope l. unfold InboundRateLimiter.allow, or_on_outage, try_except, bind, gets, command. rewrite Hup. reflexivity. }
  unfold bind. rewrite Ha. unfold inbound_limit, guarded. destruct (String.prefix "/webhooks" (eq_path r)); [done|].
  by destruct (bool_decide (eq_method r ∈ ["POST"; "PUT"; "PATCH"; "DELETE"])).
Qed.

(** The catalogue answers whatever the providers do: every registered provider is
    in it exactly once, in the order of the slugs. *)
Theorem catalogue_is_complete {S} cs inf cap wt probe (gateways : list (Adapter S)) s :
  (∀ slug s, ∃ c s', cs slug s = (Ret c, s')) →
  ∃ l s', list_providers cs inf cap wt probe gateways s = (Ret l, s') ∧
    sm_descriptor <$> l ≡ₚ ad_descriptor <$> gateways ∧
    StronglySorted key_le (by_slug <$> l).
Proof.
  intros Hc.
  assert (∀ s, ∃ l s', summarize_all cs inf cap wt probe gateways s = (Ret l, s') ∧
    sm_descriptor <$> l = ad_descriptor <$> gateways) as Hall.
  { induction gateways as [|a gs IH]; intros s1; cbn [summarize_all]; [by do 2 eexists|].
    unfold bind. destruct (summarize_answers cs inf cap wt probe a s1 Hc) as (m & s2 & -> & Hm).
    destruct (IH s2) as (l & s3 & -> & Hl). exists (m :: l), s3. split; [done|]. cbn. by rewrite Hm, Hl. }
  destruct (Hall s) as (l & s' & Hrun & Hl). unfold list_providers, bind. rewrite Hrun.
  do 2 eexists. split; [reflexivity|].
  assert (Forall (λ kv, kv = by_slug kv.2) (sort_items (by_slug <$> l))) as Hf.
  { unfold sort_items. rewrite merge_sort_Permutation. by apply Forall_fmap, Forall_true. }
  assert (by_slug <$> (sort_items (by_slug <$> l)).*2 = sort_items (by_slug <$> l)) as Heq.
  { rewrite <- list_fmap_compose. induction Hf as [|kv kvs Hkv _ IH]; [done|]. cbn. rewrite IH. by rewrite <- Hkv. }
  split.
  - rewrite <- Hl. apply fmap_Permutation. unfold sort_items. rewrite merge_sort_Permutation.
    rewrite <- list_fmap_compose. by rewrite (list_fmap_ext _ id l), list_fmap_id.
  - rewrite Heq. apply StronglySorted_merge_sort; apply _.
Qed.

(** The process says it is ready exactly when the database, Redis and the broker
    (where one is used) all answered, and says so even when they do not, as long as
    Redis and the broker fail in the ways the probes expect. *)
Theorem readiness_is_truthful {S} type_name (select_one redis_ping : M exn S unit) kafka_enabled publisher_healthy s :
  (∀ s e s', redis_ping s = (Raise e, s') → is_timeout e || is_redis_error e = true) →
  (∀ s e s', publisher_healthy s = (Raise e, s') → is_timeout e = true) →
  let s1 := (select_one s).2 in
  let s2 := (redis_ping s1).2 in
  ∃ status text checks s', readiness type_name select_one redis_ping kafka_enabled publisher_healthy s = (Ret (status, text, checks), s') ∧
    (status = 200 ∨ status = 503) ∧
    (status = 200 ↔ (select_one s).1 = Ret tt ∧ (redis_ping s1).1 = Ret tt ∧
       (kafka_enabled = true → (publisher_healthy s2).1 = Ret true)).
Proof.
  intros Hr Hb s1 s2. unfold readiness, bind.
  destruct (check_database_spec type_name select_one s) as (d & -> & Hd).
  destruct (check_redis_spec type_name redis_ping s1 (Hr s1)) as (r & Hrr & Hr'). fold s1. rewrite Hrr.
  destruct (check_broker_spec kafka_enabled publisher_healthy s2 (Hb s2)) as (b & s3 & Hbb & Hb'). fold s2. rewrite Hbb.
  do 4 eexists. split; [reflexivity|]. cbn [forallb].
  destruct (dep_healthy d), (dep_healthy r), (dep_healthy b); cbn; (split; [by auto|]); intuition congruence.
Qed.

Definition posting : edge_request := mk_edge_request "POST" "/api/v1/integration-requests" [] (Some "10.0.0.9").
Definition down : @redis_client MemoryRedis.memory := @mk_client MemoryRedis.memory ∅ 0 false.
Lemma limits_fail_closed_witness :
  limit_rate (ret (too_large 1)) (λ _, "") (λ _, None) (InboundRateLimiter.allow "io") posting down =
    (if negb (String.prefix "/health" (eq_path posting) || String.prefix "/metrics" (eq_path posting)) &&
        (String.prefix "/webhooks" (eq_path posting) || bool_decide (eq_method posting ∈ ["POST"; "PUT"; "PATCH"; "DELETE"]))
     then (Ret rate_limited, down) else ret (too_large 1) down).
Proof. apply (limits_fail_closed (ret (too_large 1)) (λ _, "") (λ _, None) "io" posting down). reflexivity. Defined.

(** Two providers, the second of which cannot be probed. *)
Definition bare (slug : string) (health : M exn unit ProviderHealthProbe) : Adapter unit := {|
  ad_descriptor := mk_descriptor slug slug "api_key" true [] false false false "none" 1 1 1;
  ad_create _ := raise (EOther "unused"); ad_status _ := raise (EOther "unused"); ad_cancel _ := raise (EOther "unused");
  ad_validate _ := Raise (EOther "unused"); ad_normalize _ := Raise (EOther "unused"); ad_health := health |}.
Definition two_providers : list (Adapter unit) :=
  [bare "meridian" (ret (mk_probe true (utc 0) None None)); bare "cobalt" (raise (EOther "TimeoutError"))].
Lemma catalogue_is_complete_witness :
  ∃ l s', list_providers (λ _, ret closed_snapshot) (λ _ _, 0) (λ _ _, 1) (λ m, m) true two_providers tt = (Ret l, s') ∧
    sm_descriptor <$> l ≡ₚ ad_descriptor <$> two_providers ∧ StronglySorted key_le (by_slug <$> l).
Proof.
  apply (catalogue_is_complete (λ _, ret closed_snapshot) (λ _ _, 0) (λ _ _, 1) (λ m, m) true two_providers tt).
  intros slug s. by do 2 eexists.
Defined.
End EdgeTheorems.
