(* ===== verification/Sandbox.v ===== *)
(** The provider sandbox ([infrastructure/providers/sandbox/]): three fake
    providers with their failure scenarios ([scenarios.py]), their stores
    ([store.py]), their signed webhooks ([signing.py], [webhooks.py]) and their
    HTTP endpoints ([app.py]).

    Operations are objects: the store, the index of keys and a scheduled delivery
    hold the same one, so they live in a heap ([sb_objects]) and are named by
    their address. A handler that sleeps is a value ([Sleep]) holding what it does
    when it wakes, so anything may run in between. *)

From stdpp Require Import functions.
From S2P Require Import Prelude PyData PyTime PyText PyDates JsonText Sha256 Enums Errors ValueObjects.
From S2P Require Import Transport Signatures.

(** * Scenarios *)

Module Scenario.
Inductive t : Type :=
  | HEALTHY
  | TIMEOUT
  | SLOW
  | RATE_LIMIT
  | UNAVAILABLE_THEN_OK
  | ALWAYS_UNAVAILABLE
  | REJECT
  | AUTH_CHALLENGE
  | ASYNC_FAILURE
  | NO_REFERENCE
  | UNKNOWN_STATUS
  | WEBHOOK_FIRST.
#[global] Instance eq_dec : EqDecision t.
Proof. solve_decision. Defined.
#[global, refine] Instance str_enum : StrEnum t := {
  members := [HEALTHY; TIMEOUT; SLOW; RATE_LIMIT; UNAVAILABLE_THEN_OK; ALWAYS_UNAVAILABLE; REJECT; AUTH_CHALLENGE;
              ASYNC_FAILURE; NO_REFERENCE; UNKNOWN_STATUS; WEBHOOK_FIRST];
  value s := match s with
    | HEALTHY => "healthy"
    | TIMEOUT => "scenario-timeout"
    | SLOW => "scenario-slow"
    | RATE_LIMIT => "scenario-rate-limit"
    | UNAVAILABLE_THEN_OK => "scenario-unavailable-once"
    | ALWAYS_UNAVAILABLE => "scenario-unavailable"
    | REJECT => "scenario-reject"
    | AUTH_CHALLENGE => "scenario-auth-challenge"
    | ASYNC_FAILURE => "scenario-async-failure"
    | NO_REFERENCE => "scenario-no-reference"
    | UNKNOWN_STATUS => "scenario-unknown-status"
    | WEBHOOK_FIRST => "scenario-webhook-first"
    end }.
Proof. - solve_members. - solve_value_inj. Defined.

Definition prefix (s : t) : string := if bool_decide (s = HEALTHY) then "" else value s +:+ "-".

(** [sorted(cls, key=len, reverse=True)]: longest first, members of one length in
    their order. *)
Fixpoint place (x : t) (l : list t) : list t :=
  match l with
  | [] => [x]
  | y :: l' => if Str.len (value y) <=? Str.len (value x) then x :: l else y :: place x l'
  end.
Definition longest_first : list t := foldr place [] members.

Fixpoint first_match (lowered : string) (l : list t) : t :=
  match l with
  | [] => HEALTHY
  | scenario :: l' =>
      if bool_decide (scenario = HEALTHY) then first_match lowered l'
      else if String.prefix (value scenario) lowered then scenario
      else first_match lowered l'
  end.
Definition detect (external_reference : option string) : t :=
  match external_reference with
  | None => HEALTHY
  | Some text => if Str.truthy text then first_match (Str.lower (Str.strip text)) longest_first else HEALTHY
  end.
End Scenario.

Module AttemptCounter.
Definition counts : Type := gmap string Z.
Definition record (key : string) (c : counts) : Z * counts :=
  let n := default 0 (c !! key) + 1 in (n, <[key := n]> c).
Definition reset (c : counts) : counts := ∅.
End AttemptCounter.

Definition SLOW_RESPONSE_SECONDS : Q := 4 # 10.
Definition TIMEOUT_RESPONSE_SECONDS : Q := 30.
Definition RATE_LIMIT_RETRY_AFTER_SECONDS : Z := 2.
Definition UNAVAILABLE_ATTEMPTS : Z := 2.

(** * Signing material *)

Definition COBALT_SIGNING_SEED : list Z := utf8 "cobalt-network-sandbox-seed-0001".
Definition COBALT_KEY_ID : string := "cobalt-sandbox-2026-01".
Definition NORTHSTAR_WEBHOOK_SECRET : string := "northstar-local-webhook-secret".
Definition MERIDIAN_WEBHOOK_SECRET : string := "meridian-local-webhook-secret".
Definition NORTHSTAR_CLIENT_ID : string := "northstar-local-client".
Definition NORTHSTAR_CLIENT_SECRET : string := "northstar-local-secret".
Definition MERIDIAN_API_KEY : string := "meridian-local-api-key".
Definition COBALT_CLIENT_ID : string := "cobalt-local-client".
Definition COBALT_CLIENT_SECRET : string := "cobalt-local-secret".

(** * State *)

(** The three providers; [slug] is the key of [app.state.providers]. *)
Inductive fake := Northstar | Meridian | Cobalt.
#[export] Instance fake_eq_dec : EqDecision fake.
Proof. solve_decision. Defined.
Definition slug (p : fake) : string :=
  match p with Northstar => "northstar" | Meridian => "meridian" | Cobalt => "cobalt" end.

(** [payload] is what [dict(...)] was given, item by item, and is never read;
    [correlation_id] is whatever the body held. *)
Record SandboxOperation := mk_operation {
  op_id : string;
  op_external_reference : string;
  op_kind : string;
  op_status : string;
  op_scenario : Scenario.t;
  op_payload : list (json * json);
  op_correlation_id : json;
  op_created_at : datetime;
  op_updated_at : datetime;
  op_idempotency_key : option string;
  op_failure_code : option string;
  op_failure_message : option string;
  emitted_events : list string;
}.
#[export] Instance eta_SandboxOperation : Eta SandboxOperation := λ o,
  mk_operation (op_id o) (op_external_reference o) (op_kind o) (op_status o) (op_scenario o) (op_payload o)
    (op_correlation_id o) (op_created_at o) (op_updated_at o) (op_idempotency_key o) (op_failure_code o)
    (op_failure_message o) (emitted_events o).

Record SandboxStore := mk_store {
  st_prefix : string;
  st_operations : list (string * nat);
  st_by_idempotency_key : gmap string string;
  st_sequence : Z;
  st_attempts : AttemptCounter.counts;
}.
#[export] Instance eta_SandboxStore : Eta SandboxStore := λ t,
  mk_store (st_prefix t) (st_operations t) (st_by_idempotency_key t) (st_sequence t) (st_attempts t).
Definition new_store (prefix : string) : SandboxStore := mk_store prefix [] ∅ 1 ∅.

Record SandboxProvider := mk_provider {
  sp_store : SandboxStore;
  sp_callback_base_url : option string;
}.
#[export] Instance eta_SandboxProvider : Eta SandboxProvider := λ p,
  mk_provider (sp_store p) (sp_callback_base_url p).

(** A webhook ready to be delivered. *)
Record SignedWebhook := mk_signed {
  sw_path : string;
  sw_headers : list (string * string);
  sw_body : list Z;
}.
(** A task of [_deliver_later]: the operation's address, and the provider whose
    builder it calls. *)
Record delivery := mk_delivery {
  dl_provider : fake;
  dl_operation : nat;
  dl_event_type : string;
  dl_delay_seconds : Q;
}.

(** [sb_posts] are the webhooks sent so far, with their URLs; [sb_ticks] and
    [sb_drawn] count the readings of the clock and the identifiers drawn. *)
Record Sandbox := mk_sandbox {
  sb_providers : fake → SandboxProvider;
  sb_objects : list SandboxOperation;
  sb_tokens : gmap string datetime;
  sb_tasks : list delivery;
  sb_posts : list (string * SignedWebhook);
  sb_ticks : nat;
  sb_drawn : nat;
}.
#[export] Instance eta_Sandbox : Eta Sandbox := λ s,
  mk_sandbox (sb_providers s) (sb_objects s) (sb_tokens s) (sb_tasks s) (sb_posts s) (sb_ticks s) (sb_drawn s).
Definition Sim (A : Type) : Type := M exn Sandbox A.

(** What a handler has come to: it is done, or it sleeps and has this left to do. *)
Inductive progress (A : Type) : Type :=
  | Done (a : A)
  | Sleep (seconds : Q) (rest : Sim A).
Arguments Done {A}.
Arguments Sleep {A}.
Definition after {A B} (m : Sim (progress A)) (k : A → Sim B) : Sim (progress B) :=
  let* r := m in
  match r with
  | Done a => let* b := k a in ret (Done b)
  | Sleep q rest => ret (Sleep q (let* a := rest in k a))
  end.

(** The clock (UTC, in microseconds from year 1) and [uuid4] as streams; [repr] of
    the JSON values and floats the model does not print; and the cryptography
    package's [sign] and [public_key], given the seed. *)
Class Machine := {
  machine_clock : nat → Z;
  machine_uuid : nat → UUID;
  machine_repr : json → string;
  machine_float_repr : Q → string;
  ed25519_sign : list Z → list Z → list Z;
  ed25519_public : list Z → list Z;
}.

Definition store_of (p : fake) (s : Sandbox) : SandboxStore := sp_store (sb_providers s p).
Definition on_store (p : fake) (f : SandboxStore → SandboxStore) (s : Sandbox) : Sandbox :=
  s <| sb_providers ::= λ ps, <[p := (ps p) <| sp_store ::= f |>]> ps |>.

Section Sandbox.
Context `{Machine}.

Definition wall_clock : Sim datetime := λ s, (Ret (utc (machine_clock (sb_ticks s))), s <| sb_ticks ::= S |>).
Definition uuid4 : Sim UUID := λ s, (Ret (machine_uuid (sb_drawn s)), s <| sb_drawn ::= S |>).
(** [int(now.timestamp())] *)
Definition unix_seconds (d : datetime) : Z := Z.quot (instant d - epoch_us) us_per_second.

(** * The store *)

(** [f"{n:08d}"] *)
Fixpoint zeros (n : nat) : string := match n with O => "" | S n' => String (Text.chr 48) (zeros n') end.
Definition padded (n : Z) : string := let t := pretty n in zeros (8 - String.length t) +:+ t.
Definition numbered_id (prefix : string) (n : Z) (u : UUID) : string :=
  prefix +:+ "-" +:+ padded n +:+ "-" +:+ uuid_hex8 u.

Definition next_id (p : fake) : Sim string :=
  let* n := gets (λ s, st_sequence (store_of p s)) in
  modifyS (on_store p (λ t, t <| st_sequence ::= Z.succ |>)) ;;;
  let* u := uuid4 in
  let* t := gets (store_of p) in
  ret (numbered_id (st_prefix t) n u).

(** [d[k] = v] *)
Fixpoint assoc_set {A} (k : string) (v : A) (d : list (string * A)) : list (string * A) :=
  match d with
  | [] => [(k, v)]
  | (k', v') :: d' => if bool_decide (k' = k) then (k, v) :: d' else (k', v') :: assoc_set k v d'
  end.
Definition assoc_get {A} (k : string) (d : list (string * A)) : option A :=
  match list_find (λ kv, kv.1 = k) d with Some (_, kv) => Some kv.2 | None => None end.

Definition get (p : fake) (operation_id : string) : Sim (option nat) :=
  gets (λ s, assoc_get operation_id (st_operations (store_of p s))).
Definition all (p : fake) : Sim (list nat) := gets (λ s, (st_operations (store_of p s)).*2).

(** Reading and assigning the attributes of an object. *)
Definition deref (a : nat) : Sim SandboxOperation := λ s,
  match sb_objects s !! a with
  | Some o => (Ret o, s)
  | None => (Raise (EOther "no such object"), s)
  end.
Definition assign (a : nat) (f : SandboxOperation → SandboxOperation) : Sim unit :=
  modifyS (λ s, s <| sb_objects ::= alter f a |>).

Definition touch (a : nat) (status : string) : Sim unit :=
  assign a (λ o, o <| op_status := status |>) ;;;
  let* now := wall_clock in
  assign a (λ o, o <| op_updated_at := now |>).

Definition create (p : fake) (external_reference kind status : string) (scenario : Scenario.t)
    (payload : list (json * json)) (correlation_id : json) (idempotency_key : option string)
    (honour_idempotency : bool) : Sim (nat * bool) :=
  let keyed := honour_idempotency && truthy_opt idempotency_key in
  let key := or_else idempotency_key "" in
  let* existing := gets (λ s, if keyed then st_by_idempotency_key (store_of p s) !! key else None) in
  match existing with
  | Some existing_id =>
      let* found := get p existing_id in
      match found with
      | Some a => ret (a, true)
      | None => raise (EKeyError existing_id)
      end
  | None =>
      let* now := wall_clock in
      let* id := next_id p in
      let* a := gets (λ s, length (sb_objects s)) in
      modifyS (λ s, s <| sb_objects ::= λ l, l ++ [mk_operation id external_reference kind status scenario payload
                                                     correlation_id now now idempotency_key None None []] |>) ;;;
      modifyS (on_store p (λ t, t <| st_operations ::= assoc_set id a |>)) ;;;
      (if keyed then modifyS (on_store p (λ t, t <| st_by_idempotency_key ::= <[key := id]> |>)) else ret tt) ;;;
      ret (a, false)
  end.

Definition reset_store (t : SandboxStore) : SandboxStore :=
  mk_store (st_prefix t) [] ∅ 1 (AttemptCounter.reset (st_attempts t)).

Definition record_attempt (p : fake) (key : string) : Sim Z := λ s,
  let '(n, c) := AttemptCounter.record key (st_attempts (store_of p s)) in
  (Ret n, on_store p (λ t, t <| st_attempts := c |>) s).

(** * Webhooks *)

Definition cobalt_public_key_b64 : string := Base64.encode false (ed25519_public COBALT_SIGNING_SEED).
Definition cobalt_sign (key_id timestamp : string) (body : list Z) : string :=
  let message := utf8 key_id ++ [46] ++ utf8 timestamp ++ [46] ++ body in
  Base64.encode false (ed25519_sign COBALT_SIGNING_SEED message).

(** [sort_keys=True] *)
Fixpoint sort_keys (v : json) : json :=
  match v with
  | JObj o => JObj (sort_items (map (λ kv, (kv.1, sort_keys kv.2)) o))
  | JList l => JList (map sort_keys l)
  | _ => v
  end.
Definition _canonical (body : dict) : list Z := utf8 (print machine_float_repr "" (sort_keys (JObj body))).

(** The [n] of an event's identifier. *)
Definition event_number (o : SandboxOperation) : string := pretty (Z.of_nat (length (emitted_events o)) + 1).

Definition northstar_body (o : SandboxOperation) (event_type : string) (now : datetime) : dict :=
  [("event_id", JStr ("nsevt-" +:+ op_id o +:+ "-" +:+ event_number o));
   ("event_type", JStr event_type);
   ("occurred_at", JStr (Iso.isoformat now));
   ("correlation_id", op_correlation_id o);
   ("data", JObj [("operation_id", JStr (op_id o));
                  ("reference", JStr (op_external_reference o));
                  ("state", JStr (op_status o));
                  ("error_code", jopt (op_failure_code o));
                  ("error_message", jopt (op_failure_message o))])].
Definition northstar_webhook (o : SandboxOperation) (event_type : string) : Sim SignedWebhook :=
  let* now := wall_clock in
  let body := _canonical (northstar_body o event_type now) in
  let* signed_at := wall_clock in
  let timestamp := pretty (unix_seconds signed_at) in
  let signature := compute_hmac_sha256 NORTHSTAR_WEBHOOK_SECRET (utf8 timestamp ++ [46] ++ body) in
  ret (mk_signed "/webhooks/northstar"
         [("content-type", "application/json"); ("x-northstar-timestamp", timestamp);
          ("x-northstar-signature", "sha256=" +:+ signature)] body).

Definition meridian_body (o : SandboxOperation) (event_type : string) (now : datetime) : dict :=
  [("notificationId", JStr ("mnotif-" +:+ op_id o +:+ "-" +:+ event_number o));
   ("notificationType", JStr event_type);
   ("requestId", JStr (op_id o));
   ("customer_ref", JStr (op_external_reference o));
   ("status", JStr (op_status o));
   ("reason", jopt (op_failure_message o));
   ("reasonCode", jopt (op_failure_code o));
   ("correlationId", op_correlation_id o);
   ("occurredAt", JStr (Iso.isoformat now))].
Definition meridian_webhook (o : SandboxOperation) (event_type : string) : Sim SignedWebhook :=
  let* now := wall_clock in
  let body := _canonical (meridian_body o event_type now) in
  let signature := compute_hmac_sha256 MERIDIAN_WEBHOOK_SECRET body in
  ret (mk_signed "/webhooks/meridian"
         [("content-type", "application/json"); ("x-meridian-signature", signature)] body).

Definition cobalt_body (o : SandboxOperation) (event_type : string) (now : datetime) : dict :=
  let failure := if truthy_opt (op_failure_code o) || truthy_opt (op_failure_message o)
                 then JObj [("code", jopt (op_failure_code o)); ("message", jopt (op_failure_message o))]
                 else JNull in
  [("id", JStr ("cbevt-" +:+ op_id o +:+ "-" +:+ event_number o));
   ("type", JStr event_type);
   ("created_at", JStr (Iso.isoformat now));
   ("job", JObj [("job_id", JStr (op_id o));
                 ("kind", JStr (op_kind o));
                 ("status", JStr (op_status o));
                 ("subject", JObj [("external_id", JStr (op_external_reference o))]);
                 ("trace", JObj [("correlation_id", op_correlation_id o)]);
                 ("failure", failure)])].
Definition cobalt_webhook (o : SandboxOperation) (event_type : string) : Sim SignedWebhook :=
  let* now := wall_clock in
  let body := _canonical (cobalt_body o event_type now) in
  let* signed_at := wall_clock in
  let timestamp := pretty (unix_seconds signed_at) in
  let signature := cobalt_sign COBALT_KEY_ID timestamp body in
  ret (mk_signed "/webhooks/cobalt"
         [("content-type", "application/json"); ("x-cobalt-timestamp", timestamp);
          ("x-cobalt-key-id", COBALT_KEY_ID); ("x-cobalt-signature", signature)] body).

(** The builder each provider is given. *)
Definition builder (p : fake) : SandboxOperation → string → Sim SignedWebhook :=
  match p with Northstar => northstar_webhook | Meridian => meridian_webhook | Cobalt => cobalt_webhook end.

(** [SignedWebhook.as_dict]; the bodies are UTF-8, [None] is text beyond the
    model. *)
Definition as_dict (w : SignedWebhook) : option dict :=
  match Utf8.decode false (sw_body w) with
  | Some codes =>
      match Utf8.text codes with
      | Some text => Some [("path", JStr (sw_path w)); ("headers", JObj (map (λ kv, (kv.1, JStr kv.2)) (sw_headers w)));
                           ("body", JStr text)]
      | None => None
      end
  | None => None
  end.

(** * Replies and requests *)

Record reply := mk_reply {
  rp_status_code : Z;
  rp_headers : list (string * string);
  rp_content : dict;
}.
(** [JSONResponse(content, status_code=...)] *)
Definition JSONResponse (content : dict) (status_code : Z) : reply := mk_reply status_code [] content.
Definition error_content (fields : list (string * string)) : dict :=
  [("error", JObj (map (λ kv, (kv.1, JStr kv.2)) fields))].

(** A request as a handler sees it: header names in lower case. *)
Record request := mk_request {
  rq_headers : list (string * string);
  rq_body : list Z;
}.
Definition rq_header (name : string) (r : request) : option string := text_get name (rq_headers r).

(** [await request.json()], then [.get]: anything but an object has none. *)
Definition request_object (r : request) : Sim dict :=
  match loads (rq_body r) with
  | inr (JObj body) => ret body
  | inr _ => raise (EOther "AttributeError: no attribute 'get'")
  | inl Unmodelled => raise (EOther "a character outside the model")
  | inl _ => raise (EValueError "the body is not valid JSON")
  end.
(** [str(body.get(key, d))] *)
Definition text_of (key d : string) (body : dict) : string :=
  py_str machine_repr (default (JStr d) (dict_get key body)).
(** [body.get(key) or {}], of which [.get] is asked next *)
Definition object_or_empty (v : json) : Sim dict :=
  match json_or v (JObj []) with
  | JObj o => ret o
  | _ => raise (EOther "AttributeError: no attribute 'get'")
  end.
(** [dict(body.get(key) or {})]: an object, or a list of pairs with hashable
    first components. *)
Definition hashable (v : json) : bool := match v with JList _ | JObj _ => false | _ => true end.
Definition pair_of (v : json) : outcome exn (json * json) :=
  match v with
  | JList [k; x] => if hashable k then Ret (k, x) else Raise (ETypeError "unhashable type")
  | JStr (String a (String b EmptyString)) => Ret (JStr (String a ""), JStr (String b ""))
  | JObj [(k, _); (k', _)] => Ret (JStr k, JStr k')
  | JList _ | JStr _ | JObj _ => Raise (EValueError "dictionary update sequence element: length 2 is required")
  | _ => Raise (ETypeError "cannot convert dictionary update sequence element to a sequence")
  end.
Fixpoint pairs_of (l : list json) : outcome exn (list (json * json)) :=
  match l with
  | [] => Ret []
  | v :: l' =>
      match pair_of v with
      | Raise e => Raise e
      | Ret kv => match pairs_of l' with Ret items => Ret (kv :: items) | Raise e => Raise e end
      end
  end.
Definition dict_of (v : json) : Sim (list (json * json)) :=
  match json_or v (JObj []) with
  | JObj o => ret (map (λ kv, (JStr kv.1, kv.2)) o)
  | JList l => lift (pairs_of l)
  | JStr _ => raise (EValueError "dictionary update sequence element: length 2 is required")
  | _ => raise (ETypeError "object is not iterable")
  end.

(** * [SandboxProvider] *)

Definition TOKEN_LIFETIME_SECONDS : Z := 300.
Definition WEBHOOK_DELAY_SECONDS : Q := 2 # 10.
Definition WEBHOOK_FIRST_DELAY_SECONDS : Q := 0.

Definition apply_pre_response_scenario (p : fake) (scenario : Scenario.t) (reference : string) :
    Sim (progress (option reply)) :=
  match scenario with
  | Scenario.TIMEOUT =>
      ret (Sleep TIMEOUT_RESPONSE_SECONDS (ret (Some (JSONResponse (error_content [("code", "timeout")]) 504))))
  | Scenario.SLOW => ret (Sleep SLOW_RESPONSE_SECONDS (ret None))
  | Scenario.RATE_LIMIT =>
      ret (Done (Some (mk_reply 429 [("Retry-After", pretty RATE_LIMIT_RETRY_AFTER_SECONDS)]
        (error_content [("code", "rate_limited"); ("message", "too many requests")]))))
  | Scenario.ALWAYS_UNAVAILABLE =>
      ret (Done (Some (JSONResponse (error_content [("code", "service_unavailable")]) 503)))
  | Scenario.UNAVAILABLE_THEN_OK =>
      let* attempt := record_attempt p ("unavailable:" +:+ reference) in
      if attempt <=? UNAVAILABLE_ATTEMPTS then
        ret (Done (Some (JSONResponse (error_content
          [("code", "service_unavailable");
           ("message", "attempt " +:+ pretty attempt +:+ " of " +:+ pretty (UNAVAILABLE_ATTEMPTS + 1))]) 503)))
      else ret (Done None)
  | Scenario.REJECT =>
      ret (Done (Some (JSONResponse (error_content
        [("code", "invalid_request"); ("message", "the request was rejected by the provider")]) 400)))
  | Scenario.AUTH_CHALLENGE =>
      let* attempt := record_attempt p ("auth:" +:+ reference) in
      if attempt =? 1 then ret (Done (Some (JSONResponse (error_content [("code", "token_expired")]) 401)))
      else ret (Done None)
  | _ => ret (Done None)
  end.

Definition schedule_webhook (p : fake) (a : nat) (event_type : string) (delay_seconds : Q) : Sim unit :=
  let* base := gets (λ s, sp_callback_base_url (sb_providers s p)) in
  if truthy_opt base then modifyS (λ s, s <| sb_tasks ::= λ l, l ++ [mk_delivery p a event_type delay_seconds] |>)
  else ret tt.

(** [_deliver_later] from when it wakes: the answer to the POST is only logged. *)
Definition _deliver_later (d : delivery) : Sim unit :=
  let* base := gets (λ s, sp_callback_base_url (sb_providers s (dl_provider d))) in
  if negb (truthy_opt base) then ret tt
  else
    let* o := deref (dl_operation d) in
    let* signed := builder (dl_provider d) o (dl_event_type d) in
    assign (dl_operation d) (λ o, o <| emitted_events ::= λ l, l ++ [dl_event_type d] |>) ;;;
    let url := Text.rstrip_of (Text.is_code 47) (or_else base "") +:+ sw_path signed in
    modifyS (λ s, s <| sb_posts ::= λ l, l ++ [(url, signed)] |>).

(** * Authentication *)

Definition _issue_token (subject : string) : Sim dict :=
  let* now := wall_clock in
  let token := "sandbox." +:+ subject +:+ "." +:+ pretty (unix_seconds now) in
  let* now' := wall_clock in
  let* expiry := lift (after_seconds now' TOKEN_LIFETIME_SECONDS) in
  modifyS (λ s, s <| sb_tokens ::= <[token := expiry]> |>) ;;;
  ret [("access_token", JStr token); ("token_type", JStr "Bearer"); ("expires_in", JInt TOKEN_LIFETIME_SECONDS)].

Definition _bearer_is_valid (r : request) (subject : string) : Sim bool :=
  let header := default "" (rq_header "authorization" r) in
  if negb (String.prefix "bearer " (Str.lower header)) then ret false
  else
    let token := Str.strip (Text.drop 7 header) in
    let* expiry := gets (λ s, sb_tokens s !! token) in
    match expiry with
    | None => ret false
    | Some expiry =>
        let* now := wall_clock in
        if instant expiry <? instant now then ret false
        else ret (String.prefix ("sandbox." +:+ subject +:+ ".") token)
    end.

Definition _unauthorized (message : string) : reply :=
  JSONResponse (error_content [("code", "unauthorized"); ("message", message)]) 401.

(** [urllib.parse.unquote]: bytes escaped in a run of ASCII are decoded together;
    [None] is text beyond the model, a replacement character among it. *)
Fixpoint unquote_to_bytes (s : string) : list Z :=
  match s with
  | EmptyString => []
  | String c s1 =>
      if Text.is_code 37 c then
        match s1 with
        | String a (String b s') =>
            match Num.digit_in 16 a, Num.digit_in 16 b with
            | Some x, Some y => (16 * x + y) :: unquote_to_bytes s'
            | _, _ => Str.code c :: unquote_to_bytes s1
            end
        | _ => Str.code c :: unquote_to_bytes s1
        end
      else Str.code c :: unquote_to_bytes s1
  end.
(** The ASCII run at the start, and what follows it. *)
Fixpoint ascii_run (s : string) : string * string :=
  match s with
  | EmptyString => ("", "")
  | String c s' => if Str.code c <? 128 then let '(a, b) := ascii_run s' in (String c a, b) else ("", s)
  end.
Definition decoded (l : list Z) : option string :=
  match Utf8.decode false l with Some codes => Utf8.text codes | None => None end.
Fixpoint unquote_runs (fuel : nat) (s : string) : option string :=
  match fuel, s with
  | _, EmptyString => Some ""
  | O, _ => None
  | S fuel', String c s' =>
      if Str.code c <? 128 then
        let '(run, rest) := ascii_run s in
        match decoded (unquote_to_bytes run), unquote_runs fuel' rest with
        | Some a, Some b => Some (a +:+ b)
        | _, _ => None
        end
      else (String c) <$> unquote_runs fuel' s'
  end.
Definition unquote (s : string) : option string := unquote_runs (S (String.length s)) s.
(** [parse_qsl(text, keep_blank_values=True)] *)
Definition parse_field (field : string) : option string * option string :=
  let plain t := unquote (Text.replace "+" " " t) in
  match Text.find (Text.is_code 61) field with
  | Some i => (plain (Str.take i field), plain (Text.drop (S i) field))
  | None => (plain field, Some "")
  end.
Definition parse_qsl (text : string) : list (option string * option string) :=
  map parse_field (List.filter Str.truthy (Text.split (Text.is_code 38) text)).
(** [dict(...).get(name)]: the last field of that name. *)
Definition form_get (name : string) (form : list (option string * option string)) : option (option string) :=
  match list_find (λ kv, kv.1 = Some name) (rev form) with Some (_, kv) => Some kv.2 | None => None end.

(** A body that is not UTF-8 is read with replacement characters. *)
Definition _read_form (r : request) : Sim (list (option string * option string)) :=
  match decoded (rq_body r) with
  | Some text => ret (parse_qsl text)
  | None => raise (EOther "a character outside the model")
  end.

Definition _token_response (r : request) (client_id secret subject : string) : Sim reply :=
  let* form := _read_form r in
  if bool_decide (form_get "client_id" form ≠ Some (Some client_id)) ||
     bool_decide (form_get "client_secret" form ≠ Some (Some secret)) then
    ret (_unauthorized "invalid client credentials")
  else if bool_decide (form_get "grant_type" form ≠ Some (Some "client_credentials")) then
    ret (JSONResponse (error_content [("code", "unsupported_grant_type")]) 400)
  else
    let* content := _issue_token subject in
    ret (JSONResponse content 200).

(** * Completion *)

Definition _succeeded_status (p : fake) : string :=
  match p with Northstar => "complete" | Meridian => "fulfilled" | Cobalt => "succeeded" end.
Definition _failed_status (p : fake) : string :=
  match p with Northstar => "error" | Meridian => "rejected" | Cobalt => "failed" end.
Definition _success_event (p : fake) : string :=
  match p with Northstar => "operation.completed" | Meridian => "request.fulfilled" | Cobalt => "job.succeeded" end.
Definition _failure_event (p : fake) : string :=
  match p with Northstar => "operation.failed" | Meridian => "request.rejected" | Cobalt => "job.failed" end.

Definition _schedule_completion (p : fake) (a : nat) (delay_seconds : Q) : Sim unit :=
  let* o := deref a in
  if bool_decide (op_scenario o = Scenario.ASYNC_FAILURE) then
    touch a (_failed_status p) ;;;
    assign a (λ o, o <| op_failure_code := Some "downstream_rejected" |>) ;;;
    assign a (λ o, o <| op_failure_message := Some "the downstream system rejected the operation" |>) ;;;
    schedule_webhook p a (_failure_event p) delay_seconds
  else
    touch a (_succeeded_status p) ;;;
    schedule_webhook p a (_success_event p) delay_seconds.

(** [return early] when the scenario demands it, and what follows otherwise. *)
Definition unless_early (m : Sim (progress (option reply))) (k : Sim reply) : Sim (progress reply) :=
  after m (λ early, match early with Some r => ret r | None => k end).

(** * Northstar Connect *)

Definition northstar_health : Sim reply :=
  ret (JSONResponse [("status", JStr "ok"); ("provider", JStr "northstar-connect")] 200).
Definition northstar_token (r : request) : Sim reply :=
  _token_response r NORTHSTAR_CLIENT_ID NORTHSTAR_CLIENT_SECRET "northstar".

(** The reply, once the operation is created or found; [deduplicated] says which. *)
Definition northstar_answer (scenario : Scenario.t) (a : nat) (deduplicated : bool) (o : SandboxOperation) : Sim reply :=
  match scenario with
  | Scenario.NO_REFERENCE => ret (JSONResponse [("state", JStr "queued")] 201)
  | Scenario.UNKNOWN_STATUS =>
      ret (JSONResponse [("operation_id", JStr (op_id o)); ("state", JStr "awaiting_downstream_review")] 201)
  | _ =>
      let accepted_status := op_status o in
      (if negb deduplicated then _schedule_completion Northstar a WEBHOOK_DELAY_SECONDS else ret tt) ;;;
      ret (JSONResponse [("operation_id", JStr (op_id o)); ("state", JStr accepted_status);
                         ("deduplicated", JBool deduplicated)] 201)
  end.
(** From when no scenario has answered early. *)
Definition northstar_accept (r : request) (body : dict) (reference : string) (scenario : Scenario.t) : Sim reply :=
  let* payload := dict_of (get_item "attributes" body) in
  let* context := object_or_empty (get_item "client_context" body) in
  let* (a, deduplicated) := create Northstar reference (text_of "operation" "provision" body) "queued" scenario payload
                              (get_item "correlation_id" context) (rq_header "idempotency-key" r) true in
  let* o := deref a in
  northstar_answer scenario a deduplicated o.
Definition northstar_create_operation (r : request) : Sim (progress reply) :=
  let* valid := _bearer_is_valid r "northstar" in
  if negb valid then ret (Done (_unauthorized "a valid bearer token is required"))
  else
    let* body := request_object r in
    let reference := text_of "reference" "" body in
    let scenario := Scenario.detect (Some reference) in
    unless_early (apply_pre_response_scenario Northstar scenario reference) (northstar_accept r body reference scenario).

(** * Meridian Services *)

Definition meridian_status : Sim reply :=
  ret (JSONResponse [("status", JStr "operational"); ("provider", JStr "meridian-services")] 200).

(** Meridian completes every operation it accepts. *)
Definition meridian_answer (scenario : Scenario.t) (a : nat) (o : SandboxOperation) : Sim reply :=
  match scenario with
  | Scenario.UNKNOWN_STATUS =>
      ret (JSONResponse [("requestId", JStr (op_id o)); ("status", JStr "held_for_review")] 201)
  | _ =>
      let accepted_status := op_status o in
      _schedule_completion Meridian a WEBHOOK_DELAY_SECONDS ;;;
      ret (JSONResponse [("requestId", JStr (op_id o)); ("status", JStr accepted_status)] 201)
  end.
(** From when no scenario has answered early. *)
Definition meridian_accept (r : request) (body : dict) (reference : string) (scenario : Scenario.t) : Sim reply :=
  let* payload := dict_of (get_item "parameters" body) in
  let* meta := object_or_empty (get_item "meta" body) in
  let* (a, _) := create Meridian reference (text_of "serviceCode" "SVC_PROVISION" body) "processing" scenario payload
                     (get_item "correlationId" meta) (rq_header "idempotency-key" r) false in
  let* o := deref a in
  meridian_answer scenario a o.
Definition meridian_create_service_request (r : request) : Sim (progress reply) :=
  if bool_decide (rq_header "x-meridian-key" r ≠ Some MERIDIAN_API_KEY) then
    ret (Done (_unauthorized "a valid API key is required"))
  else
    let* body := request_object r in
    let reference := text_of "customerRef" "" body in
    let scenario := Scenario.detect (Some reference) in
    unless_early (apply_pre_response_scenario Meridian scenario reference) (meridian_accept r body reference scenario).

Definition meridian_get_service_request (r : request) (request_id : string) : Sim reply :=
  if bool_decide (rq_header "x-meridian-key" r ≠ Some MERIDIAN_API_KEY) then
    ret (_unauthorized "a valid API key is required")
  else
    let* found := get Meridian request_id in
    match found with
    | None => ret (JSONResponse [("code", JStr "not_found"); ("message", JStr "no such service request")] 404)
    | Some a =>
        let* o := deref a in
        ret (JSONResponse [("request_id", JStr (op_id o)); ("state", JStr (op_status o));
                           ("customerRef", JStr (op_external_reference o)); ("reason", jopt (op_failure_message o));
                           ("reasonCode", jopt (op_failure_code o))] 200)
    end.

(** * Cobalt Network *)

Definition cobalt_healthz : Sim reply :=
  ret (JSONResponse [("status", JStr "ok"); ("provider", JStr "cobalt-network")] 200).
Definition cobalt_token (r : request) : Sim reply := _token_response r COBALT_CLIENT_ID COBALT_CLIENT_SECRET "cobalt".

Definition cobalt_answer (scenario : Scenario.t) (a : nat) (deduplicated : bool) (o : SandboxOperation) : Sim reply :=
  match scenario with
  | Scenario.UNKNOWN_STATUS => ret (JSONResponse [("job_id", JStr (op_id o)); ("status", JStr "quarantined")] 202)
  | _ =>
      let accepted_status := op_status o in
      (if bool_decide (scenario = Scenario.WEBHOOK_FIRST) && negb deduplicated
       then _schedule_completion Cobalt a WEBHOOK_FIRST_DELAY_SECONDS
       else if negb deduplicated then _schedule_completion Cobalt a WEBHOOK_DELAY_SECONDS
       else ret tt) ;;;
      ret (JSONResponse [("job_id", JStr (op_id o)); ("status", JStr accepted_status)] 202)
  end.
(** From when no scenario has answered early. *)
Definition cobalt_accept (r : request) (body : dict) (reference : string) (scenario : Scenario.t) : Sim reply :=
  let* payload := dict_of (get_item "spec" body) in
  let* trace := object_or_empty (get_item "trace" body) in
  let* (a, deduplicated) := create Cobalt reference (text_of "kind" "resource.create" body) "accepted" scenario payload
                              (get_item "correlation_id" trace) (rq_header "idempotency-key" r) true in
  let* o := deref a in
  cobalt_answer scenario a deduplicated o.
Definition cobalt_create_job (r : request) : Sim (progress reply) :=
  let* valid := _bearer_is_valid r "cobalt" in
  if negb valid then ret (Done (_unauthorized "a valid bearer token is required"))
  else
    let* body := request_object r in
    let* subject := object_or_empty (get_item "subject" body) in
    let reference := text_of "external_id" "" subject in
    let scenario := Scenario.detect (Some reference) in
    unless_early (apply_pre_response_scenario Cobalt scenario reference) (cobalt_accept r body reference scenario).

Definition no_such_job : reply :=
  JSONResponse (error_content [("code", "not_found"); ("message", "no such job")]) 404.
Definition cobalt_get_job (r : request) (job_id : string) : Sim reply :=
  let* valid := _bearer_is_valid r "cobalt" in
  if negb valid then ret (_unauthorized "a valid bearer token is required")
  else
    let* found := get Cobalt job_id in
    match found with
    | None => ret no_such_job
    | Some a =>
        let* o := deref a in
        let failure := if truthy_opt (op_failure_code o)
                       then JObj [("code", jopt (op_failure_code o)); ("message", jopt (op_failure_message o))]
                       else JNull in
        ret (JSONResponse [("job_id", JStr (op_id o)); ("status", JStr (op_status o)); ("kind", JStr (op_kind o));
                           ("failure", failure)] 200)
    end.

Definition cobalt_cancel_job (r : request) (job_id : string) : Sim reply :=
  let* valid := _bearer_is_valid r "cobalt" in
  if negb valid then ret (_unauthorized "a valid bearer token is required")
  else
    let* found := get Cobalt job_id in
    match found with
    | None => ret no_such_job
    | Some a =>
        let* o := deref a in
        (if bool_decide (op_status o ∈ ["succeeded"; "failed"]) then ret tt else touch a "cancelled") ;;;
        let* o := deref a in
        ret (JSONResponse [("job_id", JStr (op_id o)); ("status", JStr (op_status o))] 200)
    end.

(** * Control *)

Definition provider_named (name : string) : option fake :=
  if bool_decide (name = "northstar") then Some Northstar
  else if bool_decide (name = "meridian") then Some Meridian
  else if bool_decide (name = "cobalt") then Some Cobalt
  else None.

Definition control_reset : Sim reply :=
  modifyS (λ s, s <| sb_providers ::= λ ps p, (ps p) <| sp_store ::= reset_store |> |>) ;;;
  modifyS (λ s, s <| sb_tokens := ∅ |>) ;;;
  ret (JSONResponse [("status", JStr "reset")] 200).

Definition control_emit (name operation_id : string) (event_type : option string) : Sim reply :=
  match provider_named name with
  | None => ret (JSONResponse [("error", JStr "unknown provider")] 404)
  | Some p =>
      let* found := get p operation_id in
      match found with
      | None => ret (JSONResponse [("error", JStr "unknown operation")] 404)
      | Some a =>
          let event := or_else event_type (_success_event p) in
          let* o := deref a in
          let* signed := builder p o event in
          assign a (λ o, o <| emitted_events ::= λ l, l ++ [event] |>) ;;;
          match as_dict signed with
          | Some content => ret (JSONResponse content 200)
          | None => raise (EOther "a character outside the model")
          end
      end
  end.

Fixpoint listed (l : list nat) : Sim (list json) :=
  match l with
  | [] => ret []
  | a :: l' =>
      let* o := deref a in
      let* rest := listed l' in
      ret (JObj [("id", JStr (op_id o)); ("external_reference", JStr (op_external_reference o));
                 ("status", JStr (op_status o)); ("scenario", JStr (value (op_scenario o)));
                 ("emitted_events", JList (JStr <$> emitted_events o))] :: rest)
  end.
Definition control_list_operations (name : string) : Sim reply :=
  match provider_named name with
  | None => ret (JSONResponse [("error", JStr "unknown provider")] 404)
  | Some p =>
      let* l := all p in
      let* operations := listed l in
      ret (JSONResponse [("operations", JList operations)] 200)
  end.

(** * The application *)

Definition create_sandbox_app (callback_base_url : option string) : Sandbox :=
  mk_sandbox (λ p, mk_provider (new_store (match p with
                                           | Northstar => "ns-op"
                                           | Meridian => "mrd-req"
                                           | Cobalt => "cbl-job"
                                           end)) callback_base_url) [] ∅ [] [] 0 0.

(** Every endpoint, and the handler the routers give it. *)
Inductive call : Type :=
  | NorthstarHealth
  | NorthstarToken (r : request)
  | NorthstarCreate (r : request)
  | MeridianStatus
  | MeridianCreate (r : request)
  | MeridianGet (r : request) (request_id : string)
  | CobaltHealth
  | CobaltToken (r : request)
  | CobaltCreate (r : request)
  | CobaltGet (r : request) (job_id : string)
  | CobaltCancel (r : request) (job_id : string)
  | ControlReset
  | ControlEmit (name operation_id : string) (event_type : option string)
  | ControlList (name : string).
Definition done {A} (m : Sim A) : Sim (progress A) := let* a := m in ret (Done a).
Definition endpoint (c : call) : Sim (progress reply) :=
  match c with
  | NorthstarHealth => done northstar_health
  | NorthstarToken r => done (northstar_token r)
  | NorthstarCreate r => northstar_create_operation r
  | MeridianStatus => done meridian_status
  | MeridianCreate r => meridian_create_service_request r
  | MeridianGet r i => done (meridian_get_service_request r i)
  | CobaltHealth => done cobalt_healthz
  | CobaltToken r => done (cobalt_token r)
  | CobaltCreate r => cobalt_create_job r
  | CobaltGet r i => done (cobalt_get_job r i)
  | CobaltCancel r i => done (cobalt_cancel_job r i)
  | ControlReset => done control_reset
  | ControlEmit name i e => done (control_emit name i e)
  | ControlList name => done (control_list_operations name)
  end.

(** The routes, with the prefixes the routers are included under; a parameter of a
    path is a segment that is not empty. [event_type] is the query parameter. *)
Definition matches (pattern : list (option string)) (segments : list string) : option (list string) :=
  (fix go pattern segments :=
     match pattern, segments with
     | [], [] => Some []
     | Some w :: pattern', x :: segments' => if bool_decide (x = w) then go pattern' segments' else None
     | None :: pattern', x :: segments' => if Str.truthy x then (cons x) <$> go pattern' segments' else None
     | _, _ => None
     end) pattern segments.
Definition fixed (l : list string) : list (option string) := Some <$> l.
Definition routes (r : request) (event_type : option string) :
    list (string * list (option string) * (list string → option call)) :=
  let plain (c : call) : list string → option call := λ _, Some c in
  let one (f : string → call) : list string → option call := λ l, match l with [x] => Some (f x) | _ => None end in
  [("GET", fixed ["northstar"; "health"], plain NorthstarHealth);
   ("POST", fixed ["northstar"; "oauth"; "token"], plain (NorthstarToken r));
   ("POST", fixed ["northstar"; "operations"], plain (NorthstarCreate r));
   ("GET", fixed ["meridian"; "status"], plain MeridianStatus);
   ("POST", fixed ["meridian"; "service-requests"], plain (MeridianCreate r));
   ("GET", fixed ["meridian"; "service-requests"] ++ [None], one (MeridianGet r));
   ("GET", fixed ["cobalt"; "healthz"], plain CobaltHealth);
   ("POST", fixed ["cobalt"; "oauth"; "token"], plain (CobaltToken r));
   ("POST", fixed ["cobalt"; "jobs"], plain (CobaltCreate r));
   ("GET", fixed ["cobalt"; "jobs"] ++ [None], one (CobaltGet r));
   ("POST", fixed ["cobalt"; "jobs"] ++ [None; Some "cancel"], one (CobaltCancel r));
   ("POST", fixed ["_control"; "reset"], plain ControlReset);
   ("POST", [Some "_control"; None; Some "emit"; None],
     λ l, match l with [name; i] => Some (ControlEmit name i event_type) | _ => None end);
   ("GET", [Some "_control"; None; Some "operations"], one ControlList)].
Fixpoint dispatch (method : string) (segments : list string)
    (l : list (string * list (option string) * (list string → option call))) : option call :=
  match l with
  | [] => None
  | (m, pattern, f) :: l' =>
      if bool_decide (m = method) then
        match matches pattern segments with
        | Some params => f params
        | None => dispatch method segments l'
        end
      else dispatch method segments l'
  end.
Definition route (method path : string) (r : request) (event_type : option string) : option call :=
  match Text.split (Text.is_code 47) path with
  | "" :: segments => dispatch method segments (routes r event_type)
  | _ => None
  end.
End Sandbox.
