(* ===== verification/Process.v ===== *)
(** The processes: the container's life cycle ([composition.py]), the supervisor of
    the workers ([workers/runner.py]), the heartbeat ([workers/heartbeat.py]), the
    assembly of the API ([api/app.py]) and the command line ([cli.py]).

    The supervisor is a transition system. Its own moves are the ones the code
    makes; the moves of its surroundings are the ones asyncio allows: a task ends,
    a signal arrives, time passes. *)

From S2P Require Import Prelude PyData PyTime PyText Enums Errors StateMachine ValueObjects Policies Entities RequestFacts.
From S2P Require Import Workflow Records Store Journal Ports Settlement Samples Outbox Access Config.
From S2P Require Import Transport Adapters Sandbox.

(** * The container *)

(** What becomes of the resources of a process. *)
Inductive event : Type :=
  | PublisherStarted
  | PublisherFailed
  | StopAsked (task : string)
  | CancelRequested (task : string)
  | ResourceClosed (label : string)
  | CloseFailed (label : string)
  | TracingShutDown.
#[export] Instance event_eq_dec : EqDecision event.
Proof. solve_decision. Defined.

Definition RESOURCES : list string := ["kafka"; "http"; "redis"; "database"].

Section Container.
(** Whether a call into a client returns or raises. *)
Context (start_publisher : outcome exn unit) (close : string → outcome exn unit).

(** [Container.startup]: a publisher that does not start is only reported. *)
Definition startup : list event :=
  match start_publisher with Ret _ => [PublisherStarted] | Raise _ => [PublisherFailed] end.
(** [Container.shutdown]: every resource in turn, whatever happens to the others. *)
Definition close_one (label : string) : event :=
  match close label with Ret _ => ResourceClosed label | Raise _ => CloseFailed label end.
Definition container_shutdown : list event := map close_one RESOURCES ++ [TracingShutDown].
End Container.

(** [_build_publisher] *)
Inductive publisher := KafkaEventPublisher | InMemoryEventPublisher.
Definition _build_publisher (c : Configuration) : publisher :=
  if c_kafka_enabled c then KafkaEventPublisher else InMemoryEventPublisher.
(** [build_container], as far as it can refuse a configuration. *)
Definition check_persistence_driver (c : Configuration) : outcome exn unit :=
  if bool_decide (c_persistence_driver c ≠ "postgres")
  then Raise (EOther "RuntimeError: persistence_driver is not supported at runtime") else Ret tt.

(** * The workers of a process *)

Definition WORKER_NAMES : list string := ["outbox"; "retry"; "webhooks"; "reconciliation"; "workflow"].

(** [build_workers]: the names of the workers it returns; [SystemExit] otherwise. *)
Definition build_workers (only : option (list string)) : outcome string (list string) :=
  let selected := match only with Some (_ :: _ as l) => l | _ => WORKER_NAMES end in
  let unknown := List.filter (λ name, negb (bool_decide (name ∈ WORKER_NAMES))) selected in
  match unknown with
  | [] => Ret selected
  | _ => Raise ("unknown worker(s): " +:+ String.concat ", " unknown +:+ ". Choose from: " +:+ String.concat ", " WORKER_NAMES)
  end.

(** * The supervisor *)

Inductive task_state : Type :=
  | Running
  | Returned
  | Raised
  | Cancelled.
#[export] Instance task_state_eq_dec : EqDecision task_state.
Proof. solve_decision. Defined.
(** Waiting for the first task to end; waiting for the rest, up to the grace period;
    waiting for the cancelled ones; done. *)
Inductive phase := Supervising | Draining | Cancelling | Stopped.
#[export] Instance phase_eq_dec : EqDecision phase.
Proof. solve_decision. Defined.

Record Runner := mk_runner {
  rn_phase : phase;
  rn_tasks : list (string * task_state);
  rn_asked : list string;
  rn_waited : Q;
  rn_events : list event;
}.
#[export] Instance eta_Runner : Eta Runner := λ r, mk_runner (rn_phase r) (rn_tasks r) (rn_asked r) (rn_waited r) (rn_events r).

(** What happens next: a move of the surroundings or of [WorkerRunner]. *)
Inductive move : Type :=
  | TaskReturns (i : nat)
  | TaskRaises (i : nat)
  | TaskIsCancelled (i : nat)
  | Signal
  | Elapse (seconds : Q)
  | Interrupted
  | FirstCompleted
  | GraceExpired
  | CloseContainer.

Section Runner.
Context (workers : list string) (shutdown_grace_seconds : Q) (start_publisher : outcome exn unit)
  (close : string → outcome exn unit).

(** [run] up to [asyncio.wait]: one task per worker, and the heartbeat. *)
Definition started : Runner :=
  mk_runner Supervising (map (λ name, (name, Running)) (workers ++ ["heartbeat"])) [] 0%Q (startup start_publisher).

Definition running (t : string * task_state) : bool := bool_decide (t.2 = Running).
Definition set_task (i : nat) (st : task_state) (r : Runner) : Runner :=
  r <| rn_tasks ::= alter (λ t, (t.1, st)) i |>.
(** [worker.stop()] of each, once more if it was asked before. *)
Definition ask (names : list string) (r : Runner) : Runner :=
  r <| rn_asked ::= λ l, l ++ names |> <| rn_events ::= λ l, l ++ map StopAsked names |>.
(** [heartbeat.stop()], then [shutdown] up to [asyncio.wait(pending, timeout=grace)] *)
Definition begin_shutdown (r : Runner) : Runner :=
  ask workers (ask ["heartbeat"] (r <| rn_phase := Draining |> <| rn_waited := 0%Q |>)).
Definition cancel_pending (r : Runner) : Runner :=
  r <| rn_phase := Cancelling |>
    <| rn_events ::= λ l, l ++ map (λ t, CancelRequested t.1) (List.filter running (rn_tasks r)) |>.
Definition close_container (r : Runner) : Runner :=
  r <| rn_phase := Stopped |> <| rn_events ::= λ l, l ++ container_shutdown close |>.

(** [None]: the move is not possible now. A worker's loop returns only when it was
    asked to stop and does not raise ([worker_never_dies]); the heartbeat may raise,
    when its file cannot be written. A task is cancelled only when that was
    requested. *)
Definition runner_step (m : move) (r : Runner) : option Runner :=
  match m with
  | TaskReturns i =>
      match rn_tasks r !! i with
      | Some (name, Running) => if bool_decide (name ∈ rn_asked r) then Some (set_task i Returned r) else None
      | _ => None
      end
  | TaskRaises i =>
      match rn_tasks r !! i with
      | Some ("heartbeat", Running) => Some (set_task i Raised r)
      | _ => None
      end
  | TaskIsCancelled i =>
      match rn_tasks r !! i with
      | Some (name, Running) =>
          if bool_decide (rn_phase r = Cancelling) then Some (set_task i Cancelled r) else None
      | _ => None
      end
  | Signal => match rn_phase r with Stopped => None | _ => Some (ask workers r) end
  | Elapse q => match rn_phase r with
                | Stopped => None
                | _ => if Qle_bool 0%Q q then Some (r <| rn_waited ::= Qplus q |>) else None
                end
  | Interrupted => match rn_phase r with Supervising => Some (begin_shutdown r) | _ => None end
  | FirstCompleted =>
      match rn_phase r with
      | Supervising => if forallb running (rn_tasks r) then None else Some (begin_shutdown r)
      | _ => None
      end
  | GraceExpired =>
      match rn_phase r with
      | Draining => if existsb running (rn_tasks r) && Qle_bool shutdown_grace_seconds (rn_waited r)
                    then Some (cancel_pending r) else None
      | _ => None
      end
  | CloseContainer =>
      match rn_phase r with
      | Draining | Cancelling => if existsb running (rn_tasks r) then None else Some (close_container r)
      | _ => None
      end
  end.
Definition runner_moves (r r' : Runner) : Prop := ∃ m, runner_step m r = Some r'.
End Runner.

(** ** Facts *)

Definition closes (e : event) : bool := match e with ResourceClosed _ | CloseFailed _ | TracingShutDown => true | _ => false end.
Definition idle (m : move) : bool := match m with Signal | Elapse _ => true | _ => false end.

Section RunnerFacts.
Context (workers : list string) (grace : Q) (start_publisher : outcome exn unit) (close : string → outcome exn unit).
Abbreviation step := (runner_step workers grace close).
Abbreviation supervised := (workers ++ ["heartbeat"]).

(** Cancellation was requested of a task, after it was asked to stop. *)
Definition cancelled_after_asked (l : list event) (name : string) : Prop :=
  ∃ l1 l2, l = l1 ++ CancelRequested name :: l2 ∧ StopAsked name ∈ l1.
Record runner_inv (r : Runner) : Prop := {
  inv_names : (rn_tasks r).*1 = supervised;
  inv_asked name : name ∈ rn_asked r → StopAsked name ∈ rn_events r;
  inv_begun : rn_phase r ≠ Supervising → Forall (λ name, name ∈ rn_asked r) supervised;
  inv_cancel name : CancelRequested name ∈ rn_events r → (grace <= rn_waited r)%Q ∧ cancelled_after_asked (rn_events r) name;
  inv_calm : rn_phase r = Supervising ∨ rn_phase r = Draining → Forall (λ t, t.2 ≠ Cancelled) (rn_tasks r) ∧
               ∀ name, CancelRequested name ∉ rn_events r;
  inv_open : rn_phase r ≠ Stopped → Forall (λ e, closes e = false) (rn_events r);
  inv_stopped : rn_phase r = Stopped →
    Forall (λ t, t.2 ≠ Running) (rn_tasks r) ∧
    ∃ l, rn_events r = l ++ container_shutdown close ∧ Forall (λ e, closes e = false) l;
}.

Lemma started_inv : runner_inv (started workers start_publisher).
Proof.
  constructor; cbn; try done.
  - induction supervised as [|n l IH]; [done|]. cbn. by rewrite IH.
  - by intros name ?%not_elem_of_nil.
  - unfold startup. destruct start_publisher; intros name; set_solver.
  - intros _. split; [|unfold startup; destruct start_publisher; intros name; set_solver].
    apply Forall_fmap, Forall_forall. done.
  - intros _. unfold startup. destruct start_publisher; by repeat constructor.
Qed.

Lemma cancelled_app l k name : cancelled_after_asked l name → cancelled_after_asked (l ++ k) name.
Proof. intros (l1 & l2 & -> & H). exists l1, (l2 ++ k). by rewrite <- app_assoc. Qed.
Lemma set_task_names i st r : (rn_tasks (set_task i st r)).*1 = (rn_tasks r).*1.
Proof.
  cbn. generalize (rn_tasks r) as l. revert i. induction i as [|i IH]; intros [|t l]; cbn; try done. by rewrite IH.
Qed.
Lemma Forall_set_task (P : string * task_state → Prop) i st r :
  Forall P (rn_tasks r) → (∀ name, P (name, st)) → Forall P (rn_tasks (set_task i st r)).
Proof. intros Hl Hp. cbn. apply Forall_alter; [done|]. intros t _ _. apply Hp. Qed.

Lemma set_task_inv i st r name :
  rn_tasks r !! i = Some (name, Running) → st ≠ Running → (st = Cancelled → rn_phase r = Cancelling) →
  runner_inv r → runner_inv (set_task i st r).
Proof.
  intros Hi Hst Hc [Hn Ha Hb Hca Hcm Ho Hs]. constructor; try done.
  - by rewrite set_task_names.
  - intros Hp. destruct (Hcm Hp) as [Hf Hx]. split; [|done]. apply Forall_set_task; [done|]. intros n Hn'. cbn in Hn'.
    specialize (Hc Hn'). cbn in Hp. destruct Hp; congruence.
  - intros Hp. cbn in Hp. destruct (Hs Hp) as [Hf Hx]. exfalso. rewrite Forall_lookup in Hf. by apply (Hf _ _ Hi).
Qed.
Lemma ask_inv names r : rn_phase r ≠ Stopped → runner_inv r → runner_inv (ask names r).
Proof.
  intros Hp [Hn Ha Hb Hca Hcm Ho Hs]. constructor; cbn; try done.
  - intros name [Hx|Hx]%elem_of_app; apply elem_of_app; [left; by apply Ha|right; by apply list_elem_of_fmap_2].
  - intros Hq. eapply Forall_impl; [exact (Hb Hq)|]. intros name Hx. apply elem_of_app. by left.
  - intros name [Hx|(n & ? & _)%list_elem_of_fmap]%elem_of_app; [|done]. destruct (Hca _ Hx) as [? ?].
    split; [done|by apply cancelled_app].
  - intros Hq. destruct (Hcm Hq) as [Hf Hx]. split; [done|]. intros name [Hy|(n & ? & _)%list_elem_of_fmap]%elem_of_app; [|done].
    by apply (Hx name).
  - intros Hq. apply Forall_app. split; [by apply Ho|]. apply Forall_fmap, Forall_forall. done.
Qed.
Lemma begin_shutdown_inv r : rn_phase r = Supervising → runner_inv r → runner_inv (begin_shutdown workers r).
Proof.
  intros Hp [Hn Ha Hb Hca Hcm Ho Hs]. unfold begin_shutdown.
  destruct (Hcm (or_introl Hp)) as [Hf Hx].
  assert (runner_inv (r <| rn_phase := Draining |> <| rn_waited := 0%Q |> <| rn_asked ::= λ l, (l ++ ["heartbeat"]) ++ workers |>
     <| rn_events ::= λ l, (l ++ [StopAsked "heartbeat"]) ++ map StopAsked workers |>)) as Hr; [|exact Hr].
  assert (∀ e, e ∈ (rn_events r ++ [StopAsked "heartbeat"]) ++ map StopAsked workers ↔
            e ∈ rn_events r ∨ ∃ n, e = StopAsked n ∧ n ∈ supervised) as He.
  { intros e. rewrite !elem_of_app, list_elem_of_singleton. setoid_rewrite elem_of_app. setoid_rewrite list_elem_of_singleton.
    change (map StopAsked workers) with (StopAsked <$> workers). rewrite list_elem_of_fmap. naive_solver. }
  constructor; cbn; try done.
  - intros name Hy. apply He. rewrite !elem_of_app in Hy. destruct Hy as [[Hy|Hy]|Hy]; [left; by apply Ha|right; exists name; set_solver..].
  - intros _. apply Forall_forall. intros name. set_solver.
  - intros name [Hy|(n & ? & _)]%He; [by apply Hx in Hy|done].
  - intros _. split; [done|]. intros name [Hy|(n & ? & _)]%He; [by apply (Hx name)|done].
  - intros _. apply Forall_forall. intros e [Hy|(n & -> & _)]%He; [|done].
    rewrite Hp in Ho. specialize (Ho ltac:(done)). rewrite Forall_forall in Ho. by apply Ho.
Qed.
Lemma cancel_pending_inv r :
  rn_phase r = Draining → (grace <= rn_waited r)%Q → runner_inv r → runner_inv (cancel_pending r).
Proof.
  intros Hp Hg [Hn Ha Hb Hca Hcm Ho Hs]. rewrite Hp in Hb, Hcm, Ho. specialize (Hb ltac:(done)). specialize (Ho ltac:(done)).
  destruct (Hcm (or_intror eq_refl)) as [_ Hx].
  assert (∀ t, t ∈ List.filter running (rn_tasks r) → StopAsked t.1 ∈ rn_events r) as Ht.
  { intros t Hin. apply Ha. rewrite Forall_forall in Hb. apply Hb. rewrite <- Hn. apply list_elem_of_fmap_2.
    by apply list_elem_of_In, filter_In in Hin as [Hin%list_elem_of_In _]. }
  constructor; cbn; try done.
  - intros name Hy. apply elem_of_app. left. by apply Ha.
  - intros name [Hy|(t & [= ->] & Hin)%list_elem_of_fmap]%elem_of_app; [by apply Hx in Hy|]. split; [done|].
    apply list_elem_of_split in Hin as Hsp. destruct Hsp as (l1 & l2 & ->).
    exists (rn_events r ++ map (λ t, CancelRequested t.1) l1), (map (λ t, CancelRequested t.1) l2).
    rewrite map_app, <- app_assoc. split; [done|]. apply elem_of_app. left. by apply Ht.
  - by intros [|].
  - intros _. apply Forall_app. split; [done|]. apply Forall_fmap, Forall_forall. done.
Qed.
Lemma close_container_inv r :
  rn_phase r = Draining ∨ rn_phase r = Cancelling → existsb running (rn_tasks r) = false →
  runner_inv r → runner_inv (close_container close r).
Proof.
  intros Hp He [Hn Ha Hb Hca Hcm Ho Hs].
  assert (rn_phase r ≠ Supervising ∧ rn_phase r ≠ Stopped) as [Hp1 Hp2] by (destruct Hp; split; congruence).
  assert (∀ name, CancelRequested name ∉ container_shutdown close) as Hc.
  { intros name. unfold container_shutdown, RESOURCES. cbn. unfold close_one. repeat destruct (close _); set_solver. }
  constructor; cbn; try done.
  - intros name Hy. apply elem_of_app. left. by apply Ha.
  - intros _. by apply Hb.
  - intros name [Hy|Hy]%elem_of_app; [|by apply Hc in Hy]. destruct (Hca _ Hy). split; [done|by apply cancelled_app].
  - by intros [|].
  - intros _. split.
    + apply Forall_forall. intros t Ht Hr. assert (existsb running (rn_tasks r) = true) as Hx; [|congruence].
      apply existsb_exists. exists t. split; [by apply list_elem_of_In|by apply bool_decide_eq_true].
    + exists (rn_events r). split; [done|by apply Ho].
Qed.

Lemma runner_step_inv m r r' : runner_inv r → step m r = Some r' → runner_inv r'.
Proof.
  intros Hr. destruct m as [i|i|i| |q| | | |]; cbn [runner_step idle].
  - destruct (rn_tasks r !! i) as [[name []]|] eqn:Hi; try done. case_bool_decide; [|done]. intros [= <-]. by eapply set_task_inv.
  - intros Hs. assert (∃ name, rn_tasks r !! i = Some (name, Running) ∧ r' = set_task i Raised r) as (name & Hi & ->);
      [|by eapply set_task_inv].
    destruct (rn_tasks r !! i) as [[name st]|]; [|done]. exists name. repeat case_match; naive_solver.
  - destruct (rn_tasks r !! i) as [[name []]|] eqn:Hi; try done. case_bool_decide; [|done]. intros [= <-]. by eapply set_task_inv.
  - destruct (rn_phase r) eqn:Hp; try done; intros [= <-]; apply ask_inv; congruence.
  - assert ((0 <= q)%Q → runner_inv (r <| rn_waited ::= Qplus q |>)) as He.
    { intros Hq. destruct Hr as [Hn Ha Hb Hca Hcm Ho Hs]. constructor; cbn; try done. intros name Hy.
      destruct (Hca _ Hy) as [Hg ?]. split; [|done]. rewrite <- (Qplus_0_l grace). by apply Qplus_le_compat. }
    destruct (rn_phase r); try done; destruct (Qle_bool 0 q) eqn:Hq; try done; intros [= <-]; by apply He, Qle_bool_iff.
  - destruct (rn_phase r) eqn:Hp; try done. intros [= <-]. by apply begin_shutdown_inv.
  - destruct (rn_phase r) eqn:Hp; try done. destruct (forallb _ _); [done|]. intros [= <-]. by apply begin_shutdown_inv.
  - destruct (rn_phase r) eqn:Hp; try done. destruct (existsb _ _ && _) eqn:He; [|done]. intros [= <-].
    apply andb_true_iff in He as [_ Hg%Qle_bool_iff]. by apply cancel_pending_inv.
  - destruct (rn_phase r) eqn:Hp; try done; (destruct (existsb _ _) eqn:He; [done|]); intros [= <-];
      apply close_container_inv; auto.
Qed.
Lemma runs_inv r r' : rtc (runner_moves workers grace close) r r' → runner_inv r → runner_inv r'.
Proof. induction 1 as [|r1 r2 r3 [m Hm] _ IH]; [done|]. intros Hr. apply IH. by eapply runner_step_inv. Qed.

(** Every move but the idle ones uses something up. *)
Definition phase_rank (p : phase) : nat := match p with Supervising => 3 | Draining => 2 | Cancelling => 1 | Stopped => 0 end.
Definition rank (r : Runner) : nat := (length (List.filter running (rn_tasks r)) + phase_rank (rn_phase r))%nat.
Lemma set_task_rank i st r name :
  rn_tasks r !! i = Some (name, Running) → st ≠ Running → (rank (set_task i st r) < rank r)%nat.
Proof.
  intros Hi Hst. unfold rank. cbn.
  enough (length (List.filter running (alter (λ t, (t.1, st)) i (rn_tasks r))) < length (List.filter running (rn_tasks r)))%nat by lia.
  revert i Hi. generalize (rn_tasks r) as l. induction l as [|t l IH]; intros [|i]; cbn; try done.
  - intros [= ->]. assert (running (name, st) = false) as Hf by by apply bool_decide_eq_false.
    change ((name, Running).1) with name. rewrite Hf. change (running (name, Running)) with true. cbn. lia.
  - intros Hi. specialize (IH _ Hi). destruct (running t); cbn; lia.
Qed.
Lemma step_rank m r r' : idle m = false → step m r = Some r' → (rank r' < rank r)%nat.
Proof.
  destruct m as [i|i|i| |q| | | |]; cbn [runner_step idle]; try done; intros _.
  - destruct (rn_tasks r !! i) as [[name []]|] eqn:Hi; try done. case_bool_decide; [|done]. intros [= <-]. by eapply set_task_rank.
  - intros Hs. assert (∃ name, rn_tasks r !! i = Some (name, Running) ∧ r' = set_task i Raised r) as (name & Hi & ->);
      [|by eapply set_task_rank].
    destruct (rn_tasks r !! i) as [[name st]|]; [|done]. exists name. repeat case_match; naive_solver.
  - destruct (rn_tasks r !! i) as [[name []]|] eqn:Hi; try done. case_bool_decide; [|done]. intros [= <-]. by eapply set_task_rank.
  - unfold rank. destruct (rn_phase r); try done. intros [= <-]. cbn. lia.
  - unfold rank. destruct (rn_phase r); try done. destruct (forallb _ _); [done|]. intros [= <-]. cbn. lia.
  - unfold rank. destruct (rn_phase r); try done. destruct (_ && _); [|done]. intros [= <-]. cbn. lia.
  - unfold rank. destruct (rn_phase r); try done; (destruct (existsb _ _); [done|]); intros [= <-]; cbn; lia.
Qed.
(** Once the grace period is over nothing but the tasks' own ends holds it up. *)
Lemma step_enabled r :
  rn_phase r = Draining ∨ rn_phase r = Cancelling → (grace <= rn_waited r)%Q → ∃ m r', idle m = false ∧ step m r = Some r'.
Proof.
  intros Hp Hg. destruct (existsb running (rn_tasks r)) eqn:He.
  - destruct Hp as [Hp|Hp].
    + exists GraceExpired. cbn. rewrite Hp, He, (proj2 (Qle_bool_iff _ _) Hg). cbn. eauto.
    + apply existsb_exists in He as ([name st] & Hin & Hr). apply bool_decide_eq_true in Hr. cbn in Hr. subst st.
      apply list_elem_of_In, list_elem_of_lookup in Hin as [i Hi]. exists (TaskIsCancelled i). cbn -[bool_decide].
      rewrite Hi, bool_decide_true by done. eauto.
  - exists CloseContainer. cbn. rewrite He. destruct Hp as [-> | ->]; eauto.
Qed.
End RunnerFacts.

(** * The heartbeat *)

Section Heartbeat.
(** [str] of a float and [float] of a text; [None] is [ValueError]. *)
Context (str_float : Q → string) (float_of : string → option Q).

(** The file, [None] while it does not exist. *)
Definition heartbeat_file : Type := option string.
Definition beat (time : Q) (f : heartbeat_file) : heartbeat_file := Some (str_float time).
(** [run] for [n] rounds from [start]: a beat, then a wait of the interval. *)
Fixpoint beats (interval : Q) (n : nat) (start : Q) (f : heartbeat_file) : heartbeat_file * Q :=
  match n with
  | O => (f, start)
  | S n' => beats interval n' (start + interval)%Q (beat start f)
  end.
Definition heartbeat_is_fresh (stale_after_seconds now : Q) (f : heartbeat_file) : bool :=
  match f with
  | None => false
  | Some content =>
      match float_of (Str.strip content) with
      | None => false
      | Some stamped => Qle_bool (now - stamped) stale_after_seconds
      end
  end.
End Heartbeat.

(** * The API process *)

(** [lifespan]: who built the container starts it and closes it. What
    [instrument_application] raises ends the start. *)
Definition lifespan (owns_container : bool) (start_publisher instrument served : outcome exn unit)
    (close : string → outcome exn unit) : list event * outcome exn unit :=
  let opening := if owns_container then startup start_publisher else [] in
  match instrument with
  | Raise e => (opening, Raise e)
  | Ret _ => (opening ++ if owns_container then container_shutdown close else [], served)
  end.

(** The middleware classes in the order they are added, and in the order they see a
    request: each is put in front of the ones before it. *)
Definition ADDED_MIDDLEWARE : list string :=
  ["BodySizeLimitMiddleware"; "InboundRateLimitMiddleware"; "AccessLogMiddleware"; "CorrelationMiddleware"].
Definition middleware_order : list string := foldl (λ stack m, m :: stack) [] ADDED_MIDDLEWARE.

Definition _mount_sandbox (c : Configuration) (callback_base_url api_root_path : string) : option Sandbox :=
  if negb (c_sandbox_enabled c && c_sandbox_mount_in_app c) then None
  else if Environment.is_production_like (c_environment c) then None
  else Some (create_sandbox_app (Some (Text.rstrip_of (Text.is_code 47) callback_base_url +:+ api_root_path))).

(** * The command line *)

Inductive command : Type :=
  | Serve (reload : bool)
  | WorkerCommand (only : option (list string))
  | TokenCommand (subject : string) (roles : list string) (ttl : option Z)
  | OutboxRedrive (outbox_ids : list string)
  | ReconcileOnce
  | ConfigCommand.

Section Cli.
Context `{Env} (c : Configuration).
(** What is beyond the process: PyJWT's [encode], the clock in seconds, and the
    batch of the reconciliation worker. *)
Context (jwt_encode : dict → string) (jwt : JWTSettings) (unix_time : Z) (reconcile_batch : H nat).

(** The roles of [ROLE_SCOPES]. *)
Definition known_role (role : string) : bool := bool_decide (role ∈ ["viewer"; "integration-client"; "operator"]).

(** Exit codes; uvicorn is served until it is stopped. *)
Definition _serve (reload : bool) : Z :=
  if reload && Environment.is_production_like (c_environment c) then 2 else 0.
Definition _worker (only : option (list string)) : Z := match build_workers only with Ret _ => 0 | Raise _ => 1 end.
(** The code and what is printed; the error of [issue_local_token] is not caught. *)
Definition _token (subject : string) (roles : list string) (ttl : option Z) : outcome exn (Z * option string) :=
  if Environment.is_production_like (c_environment c) then Ret (2, None)
  else if existsb (λ role, negb (known_role role)) roles then Ret (2, None)
  else match issue_local_token jwt_encode jwt subject roles ttl unix_time with
       | Ret token => Ret (0, Some token)
       | Raise e => Raise e
       end.
Definition _outbox_redrive (outbox_ids : list string) : H Z :=
  match mapM uuid_of outbox_ids with
  | None => ret 2
  | Some ids =>
      try_except
        (with_uow (let* t := now in
                   let* n := Outbox.redrive_dead_lettered ids t in
                   commit ;;;
                   ret n) ;;; ret 0)
        (λ e, Some (ret (match e with EValueError _ => 2 | _ => 1 end)))
  end.
Definition _reconcile_once : H Z := try_except (reconcile_batch ;;; ret 0) (λ _, Some (ret 1)).

Definition main (cmd : command) : H Z :=
  match cmd with
  | Serve reload => ret (_serve reload)
  | WorkerCommand only => ret (_worker only)
  | TokenCommand subject roles ttl => let* r := lift (_token subject roles ttl) in ret r.1
  | OutboxRedrive ids => _outbox_redrive ids
  | ReconcileOnce => _reconcile_once
  | ConfigCommand => ret 0
  end.
End Cli.

(** When the beats happen. *)
Fixpoint beat_time (interval : Q) (n : nat) (start : Q) : Q :=
  match n with O => start | S n' => beat_time interval n' (start + interval)%Q end.
Lemma beat_time_next interval n : ∀ start, (beat_time interval (S n) start == beat_time interval n start + interval)%Q.
Proof. induction n as [|n IH]; intros start; [done|]. change (beat_time interval (S (S n)) start) with (beat_time interval (S n) (start + interval)%Q). by rewrite IH. Qed.
Lemma beats_last str_float interval n : ∀ start f,
  beats str_float interval (S n) start f = (Some (str_float (beat_time interval n start)), beat_time interval (S n) start).
Proof. induction n as [|n IH]; intros start f; [done|]. exact (IH (start + interval)%Q (beat str_float start f)). Qed.

(** ** Redriving *)

(** A dead letter that is tried again. *)
Definition rearm (t : datetime) (e : OutboxEvent.t) : OutboxEvent.t :=
  e <| OutboxEvent.dead_lettered_at := None |> <| OutboxEvent.next_attempt_at := Some t |> <| OutboxEvent.last_error := None |>.
Lemma rearm_claimable ids e t t' : Outbox.redrivable ids e = true → instant t ≤ instant t' → Outbox.claimable t' (rearm t e) = true.
Proof.
  unfold Outbox.redrivable, Outbox.claimable. rewrite !andb_true_iff. intros [_ Hp] Ht.
  change (OutboxEvent.is_published (rearm t e)) with (OutboxEvent.is_published e). rewrite Hp. split_and!; [done..|]. by apply Z.leb_le.
Qed.
Lemma redrive_none t l : map (λ e, if Outbox.redrivable [] e then rearm t e else e) l = l.
Proof.
  rewrite <- (map_id l) at 2. apply map_ext. intros e. unfold Outbox.redrivable, Outbox.has_id.
  by rewrite bool_decide_false by apply not_elem_of_nil.
Qed.
(** The whole unit of work. *)
Lemma redrive_run `{Env} ids w :
  ∃ n w', with_uow (let* t := now in let* n := Outbox.redrive_dead_lettered ids t in commit ;;; ret n) w = (Ret n, w') ∧
    sess w' = sess w ∧
    db w' = (db w) <| t_outbox ::= map (λ e, if Outbox.redrivable ids e then rearm (clock_at (ticks w)) e else e) |>.
Proof.
  unfold with_uow, Outbox.redrive_dead_lettered. destruct (bool_decide (ids = [])) eqn:Hids.
  - apply bool_decide_eq_true in Hids. subst ids. do 2 eexists. split_and!; [reflexivity|done|].
    unfold set. rewrite redrive_none. by destruct (db w).
  - cbn. do 2 eexists. by split_and!.
Qed.

(** * Theorems *)

Module ProcessTheorems.
Section Theorems.
Context (workers : list string) (grace : Q) (start_publisher : outcome exn unit) (close : string → outcome exn unit).

(** C23. Shutting the workers down is orderly. Whatever ends first, however the signals
    and the ends of the tasks are interleaved and whichever clients fail to close:
    the container is closed only when no task runs any more, after every worker
    was asked to stop, every resource once and in order even if another one fails,
    and as the very last thing; and a task is cancelled only if it was asked to
    stop and the whole grace period has passed since. *)
Theorem shutdown_is_orderly (r : Runner) :
  rtc (runner_moves workers grace close) (started workers start_publisher) r →
  (rn_phase r = Stopped →
     Forall (λ t, t.2 ≠ Running) (rn_tasks r) ∧ Forall (λ w, StopAsked w ∈ rn_events r) workers ∧
     ∃ l, rn_events r = l ++ map (close_one close) ["kafka"; "http"; "redis"; "database"] ++ [TracingShutDown] ∧
          Forall (λ e, closes e = false) l) ∧
  (rn_phase r ≠ Stopped → Forall (λ e, closes e = false) (rn_events r)) ∧
  (∀ name, CancelRequested name ∈ rn_events r →
     (grace <= rn_waited r)%Q ∧ ∃ l1 l2, rn_events r = l1 ++ CancelRequested name :: l2 ∧ StopAsked name ∈ l1).
Proof.
  intros Hr. pose proof (runs_inv _ grace close _ _ Hr (started_inv _ grace start_publisher close)) as [Hn Ha Hb Hc _ Ho Hs].
  split_and!; [|done|done]. intros Hp. destruct (Hs Hp) as [Ht Hl]. split_and!; [done| |done].
  apply Forall_forall. intros w Hw. apply Ha. rewrite Hp in Hb. specialize (Hb ltac:(done)). rewrite Forall_forall in Hb.
  apply Hb, elem_of_app. by left.
Qed.

(** C37. Shutting down always comes to an end. Apart from signals and the passing of
    time a process makes only finitely many moves; and once it is shutting down
    and the grace period has passed, some move is possible until the container is
    closed, so that no task that ignores its stop can hold the process up. *)
Theorem shutdown_completes (r : Runner) :
  (∀ m r', idle m = false → runner_step workers grace close m r = Some r' → (rank r' < rank r)%nat) ∧
  (rn_phase r = Draining ∨ rn_phase r = Cancelling → (grace <= rn_waited r)%Q →
     ∃ m r', idle m = false ∧ runner_step workers grace close m r = Some r').
Proof. split; [intros m r'; apply step_rank|apply step_enabled]. Qed.
End Theorems.

(** A deployment that is accepted runs the durable adapters and none of the local
    conveniences: events go to Kafka, rows to PostgreSQL, the provider sandbox is
    not mounted, no token can be minted from the command line and the server does
    not reload. *)
Theorem deployed_process_is_safe (c : Configuration) (callback root subject : string) (roles : list string) (ttl : option Z)
    (jwt_encode : dict → string) (jwt : JWTSettings) (t : Z) :
  validate_configuration c = Ret tt → Environment.is_production_like (c_environment c) = true →
  _build_publisher c = KafkaEventPublisher ∧ check_persistence_driver c = Ret tt ∧ _mount_sandbox c callback root = None ∧
  _token c jwt_encode jwt t subject roles ttl = Ret (2, None) ∧ _serve c true = 2.
Proof.
  intros Hv Hp. destruct (accepted_deployable c Hp Hv) as [[He Hm] [Hd Hk] _ _ _].
  unfold _build_publisher, check_persistence_driver, _mount_sandbox, _token, _serve. rewrite Hp, Hk, Hd, He.
  by rewrite bool_decide_false by (intros Hne; by destruct Hne).
Qed.

(** Redriving re-arms the dead letters that were named and nothing else. With ids
    that are UUIDs the command exits with 0: every event among them that was dead
    and not published loses its mark and its error and can be claimed from that
    moment on; every other event and every other table stays as it was. With a text
    that is no UUID it exits with 2 and nothing is touched. *)
Theorem redrive_rearms_dead_letters `{Env} (outbox_ids : list string) (w : World) :
  let '(o, w') := _outbox_redrive outbox_ids w in
  match mapM uuid_of outbox_ids with
  | None => o = Ret 2 ∧ w' = w
  | Some ids =>
      o = Ret 0 ∧ sess w' = sess w ∧
      db w' = (db w) <| t_outbox ::= map (λ e, if Outbox.redrivable ids e then rearm (clock_at (ticks w)) e else e) |> ∧
      ∀ e, e ∈ t_outbox (db w) → Outbox.redrivable ids e = true →
        ∃ e', e' ∈ t_outbox (db w') ∧ OutboxEvent.id e' = OutboxEvent.id e ∧ OutboxEvent.attempt_count e' = OutboxEvent.attempt_count e ∧
          ∀ t, instant (clock_at (ticks w)) ≤ instant t → Outbox.claimable t e' = true
  end.
Proof.
  unfold _outbox_redrive. destruct (mapM uuid_of outbox_ids) as [ids|]; [|done].
  destruct (redrive_run ids w) as (n & w' & Hrun & Hs & Hdb). unfold try_except. unfold bind at 1. rewrite Hrun.
  change (ret 0 w') with (@Ret exn Z 0, w'). cbv iota beta.
  split_and!; [done..|]. intros e He Hr. exists (rearm (clock_at (ticks w)) e). split_and!; [|done..|].
  - rewrite Hdb. cbn. apply list_elem_of_fmap. exists e. by rewrite Hr.
  - intros t Ht. by eapply rearm_claimable.
Qed.

(** A heartbeat tells a live process from a dead one. While the loop runs, with an
    interval within the limit, the file is fresh from each beat to the next; once
    more than the limit has passed since the last beat it is not. *)
Theorem heartbeat_shows_life (str_float : Q → string) (float_of : string → option Q) (interval stale : Q) (n : nat) (start now : Q)
    (f : heartbeat_file) :
  (let last := beat_time interval n start in float_of (Str.strip (str_float last)) = Some last) → (interval <= stale)%Q →
  let '(f', next) := beats str_float interval (S n) start f in
  ((now <= next)%Q → heartbeat_is_fresh float_of stale now f' = true) ∧
  ((next - interval + stale < now)%Q → heartbeat_is_fresh float_of stale now f' = false).
Proof.
  intros Hf Hi. rewrite beats_last. unfold heartbeat_is_fresh. cbv zeta in Hf. rewrite Hf.
  pose proof (beat_time_next interval n start) as Hn. split; intros Ht.
  - apply Qle_bool_iff. lra.
  - apply not_true_is_false. rewrite Qle_bool_iff. lra.
Qed.
End ProcessTheorems.

Module ProcessWitnesses.
Export ProcessTheorems.
Fixpoint run_moves (ms : list move) (r : Runner) : option Runner :=
  match ms with
  | [] => Some r
  | m :: ms' => match runner_step ["outbox"; "retry"] 15 (λ _, Ret tt) m r with Some r' => run_moves ms' r' | None => None end
  end.
Lemma run_moves_rtc ms : ∀ r r', run_moves ms r = Some r' → rtc (runner_moves ["outbox"; "retry"] 15 (λ _, Ret tt)) r r'.
Proof.
  induction ms as [|m ms IH]; intros r r'; cbn; [by intros [= ->]|].
  destruct (runner_step _ _ _ m r) as [r1|] eqn:Hm; [|done]. intros Hr. eapply rtc_l; [by exists m|by apply IH].
Qed.
Definition begun : Runner := started ["outbox"; "retry"] (Ret tt).
(** A signal; the outbox worker and the heartbeat finish, the retry worker does not
    and is cancelled when its time is up. *)
Definition stuck_worker : list move :=
  [Signal; TaskReturns 0; FirstCompleted; TaskReturns 2; Elapse 15; GraceExpired; TaskIsCancelled 1; CloseContainer].
Definition stopped : Runner := default begun (run_moves stuck_worker begun).
Lemma shutdown_is_orderly_witness :
  rn_phase stopped = Stopped ∧ rn_tasks stopped = [("outbox", Returned); ("retry", Cancelled); ("heartbeat", Returned)] ∧
  Forall (λ w, StopAsked w ∈ rn_events stopped) ["outbox"; "retry"].
Proof.
  split; [reflexivity|]. split; [reflexivity|].
  apply (shutdown_is_orderly ["outbox"; "retry"] 15 (Ret tt) (λ _, Ret tt) stopped); [|reflexivity].
  apply (run_moves_rtc stuck_worker). vm_compute. reflexivity.
Defined.
Lemma deployed_process_is_safe_witness :
  _build_publisher ConfigTheorems.live = KafkaEventPublisher ∧ _mount_sandbox ConfigTheorems.live "http://localhost" "" = None.
Proof.
  destruct (deployed_process_is_safe ConfigTheorems.live "http://localhost" "" "me" ["operator"] None (λ _, "")
    (mk_jwt_settings "HS256" "" "" 60) 0) as (Hk & _ & Hm & _); [vm_compute; reflexivity..|]. by split.
Defined.
Lemma heartbeat_shows_life_witness :
  let float_of := λ s, if String.eqb s "5.0" then Some 5%Q else None in
  heartbeat_is_fresh float_of 30 20 (Some "5.0") = true ∧ heartbeat_is_fresh float_of 30 36 (Some "5.0") = false.
Proof.
  intros float_of. split.
  - apply (heartbeat_shows_life (λ _, "5.0") float_of 15 30 0 5 20 None); vm_compute; (reflexivity || discriminate).
  - apply (heartbeat_shows_life (λ _, "5.0") float_of 15 30 0 5 36 None); vm_compute; (reflexivity || discriminate).
Defined.
(** A heartbeat whose file cannot be written brings the workers down. *)
Example heartbeat_failure_stops_the_workers :
  (rn_phase <$> run_moves [TaskRaises 2; FirstCompleted; TaskReturns 0; TaskReturns 1; CloseContainer] begun) = Some Stopped.
Proof. vm_compute. reflexivity. Qed.
Example correlation_runs_first :
  middleware_order = ["CorrelationMiddleware"; "AccessLogMiddleware"; "InboundRateLimitMiddleware"; "BodySizeLimitMiddleware"].
Proof. reflexivity. Qed.
End ProcessWitnesses.
