(* ===== verification/SandboxWebhooks.v ===== *)
(** The webhooks of the sandbox, as the adapters read them: what a fake provider
    signs is accepted by the adapter of that provider and normalises to the
    operation it is about. *)

From S2P Require Import Prelude PyData PyTime PyText PyDates JsonText Sha256 Enums Errors ValueObjects.
From S2P Require Import Policies Entities Workflow Records Store Journal Ports CreateRequest Redaction Redis.
From S2P Require Import RateLimiter Coordination Resilient Transport TransportFacts Signatures Adapters AdapterFacts.
From S2P Require Import Config Ed25519 Sandbox.
Import BaseProviderAdapter.

(** * Timestamps *)

(** Characters of a number or of an ISO 8601 text: [strip], [replace] and the
    handling of underscores leave them alone. *)
Definition stamp_char (c : Ascii.ascii) : bool :=
  Text.is_digit c || existsb (λ n, Text.is_code n c) [43; 45; 46; 58; 84].
Definition stamp (s : string) : Prop := Str.all_chars stamp_char s = true.

Lemma stamp_char_facts c : stamp_char c = true →
  Str.isspace c = false ∧ Text.is_code 95 c = false ∧ Text.is_code 90 c = false.
Proof.
  unfold stamp_char, Text.is_digit, Text.is_code, Str.isspace. cbn [existsb]. set (n := Str.code c). intros Hc.
  assert (48 ≤ n ≤ 57 ∨ n = 43 ∨ n = 45 ∨ n = 46 ∨ n = 58 ∨ n = 84) as Hn by lia. split_and!; lia.
Qed.
Lemma stamp_cons c s : stamp (String c s) ↔ stamp_char c = true ∧ stamp s.
Proof. unfold stamp. cbn. apply andb_true_iff. Qed.
Lemma stamp_app s t : stamp s → stamp t → stamp (s +:+ t).
Proof. unfold stamp. rewrite all_chars_append. intros -> ->. done. Qed.
Lemma digit_stamp c : Text.is_digit c = true → stamp_char c = true.
Proof. unfold stamp_char. by intros ->. Qed.

Lemma stamp_strip s : stamp s → Str.strip s = s.
Proof.
  intros Hs. unfold Str.strip. assert (Str.lstrip s = s) as ->.
  { destruct s as [|c s]; [done|]. apply stamp_cons in Hs as [Hc _]. cbn. by destruct (stamp_char_facts c Hc) as (-> & _). }
  induction s as [|c s IH]; [done|]. apply stamp_cons in Hs as [Hc Hs]. cbn. rewrite (IH Hs).
  destruct (stamp_char_facts c Hc) as (-> & _). by destruct s.
Qed.
Lemma stamp_underscores s prev : stamp s → (∀ p, prev = Some p → Text.is_code 95 p = false) →
  Num.underscores_ok prev s = true.
Proof.
  revert prev. induction s as [|c s IH]; intros prev Hs Hp.
  - cbn. destruct prev as [p|]; [|done]. by rewrite (Hp p eq_refl).
  - apply stamp_cons in Hs as [Hc Hs]. cbn. destruct (stamp_char_facts c Hc) as (_ & H95 & _). rewrite H95.
    rewrite IH by (done || by intros p [= <-]). rewrite andb_true_r. destruct prev as [p|]; [|done]. by rewrite (Hp p eq_refl).
Qed.
Lemma stamp_without s : stamp s → Num.without_underscores s = s.
Proof.
  induction s as [|c s IH]; [done|]. intros [Hc Hs]%stamp_cons. cbn.
  destruct (stamp_char_facts c Hc) as (_ & -> & _). by rewrite (IH Hs).
Qed.
Lemma stamp_replace s : stamp s → Text.replace "Z" "+00:00" s = s.
Proof.
  intros Hs. eapply UuidFacts.replace_none; [reflexivity|]. revert Hs. apply all_chars_imp. intros c Hc.
  destruct (stamp_char_facts c Hc) as (_ & _ & Hz). unfold Text.is_code in Hz. apply negb_true_iff, Ascii.eqb_neq.
  intros <-. done.
Qed.

Lemma float_stamp c t : stamp (String c t) → Text.is_digit c = true →
  Num.float (String c t) =
    match Num.decimal (String c t) with Some q => Some (Some (Num.clamp (inject_Z 1 * q))) | None => None end.
Proof.
  intros Hs Hd. unfold Num.float. rewrite stamp_strip by done. cbn zeta.
  rewrite stamp_underscores, stamp_without by done. cbn [negb].
  assert (48 ≤ Str.code c ≤ 57) as Hn by (unfold Text.is_digit in Hd; lia).
  assert (Num.signed (String c t) = (1, String c t)) as ->.
  { cbn. unfold Text.is_code. rewrite !(proj2 (Z.eqb_neq _ _)) by lia. done. }
  assert (Str.lower_char c = c) as Hl.
  { unfold Str.lower_char. match goal with |- (if ?b then _ else _) = _ => destruct b eqn:Hb end; [exfalso; lia|done]. }
  assert (∀ w a, w = String a (Text.drop 1 w) → 57 < Str.code a → bool_decide (Str.lower (String c t) = w) = false) as Hw.
  { intros w a -> Ha. apply bool_decide_false. unfold Str.lower. cbn. rewrite Hl. intros [= -> _]. lia. }
  rewrite (Hw "inf" (Text.chr 105)), (Hw "infinity" (Text.chr 105)), (Hw "nan" (Text.chr 110)) by done. done.
Qed.

(** Whole seconds. *)
Lemma unsigned_digits x : Str.all_chars Text.is_digit (unsigned_text x) = true.
Proof.
  unfold unsigned_text. case_decide; [done|].
  assert (∀ s, Str.all_chars Text.is_digit s = true → Str.all_chars Text.is_digit (pretty_N_go x s) = true) as Hgo; [|by apply Hgo].
  clear H. induction (N.lt_wf_0 x) as [x _ IH]; intros s Hs.
  destruct (decide (x = 0%N)) as [->|Hx]; [by rewrite pretty_N_go_0|]. rewrite pretty_N_go_step by lia.
  apply IH; [apply N.div_lt; lia|]. cbn. rewrite Hs.
  by destruct (pretty_N_char_digit (x mod 10) (N.mod_lt x 10 ltac:(lia))) as (_ & -> & _).
Qed.
Lemma pretty_digits n : 0 ≤ n → ∃ c t, pretty n = String c t ∧ Text.is_digit c = true ∧ stamp (String c t) ∧
  ∃ k, 1 ≤ k ∧ Num.span_digits 0 0 (String c t) = (n, k, "").
Proof.
  intros Hn. rewrite pretty_int. destruct (Z.ltb_spec n 0); [lia|]. rewrite append_nil_l, Z.abs_eq by done.
  pose proof (unsigned_digits (Z.to_N n)) as Hd. unfold unsigned_text in *. case_decide as H0.
  - exists (Text.chr 48), "". assert (n = 0) as -> by lia. split_and!; try done. by exists 1.
  - destruct (pretty_N_go_spec (Z.to_N n) ltac:(lia)) as (k & Hk & _ & Hs).
    destruct (Hs "") as (Hspan & c & t & Heq & Hc & _). exists c, t. split_and!; [done|done| |].
    + rewrite <- Heq. revert Hd. apply all_chars_imp, digit_stamp.
    + exists k. split; [lia|]. rewrite <- Heq, Hspan. cbn [Num.span_digits].
      rewrite Z.mul_0_l, !Z.add_0_l, Z2N.id by done. done.
Qed.
Definition last_second : Z := 253402300799.
Lemma fromtimestamp_whole q n : (q == inject_Z n)%Q → 0 ≤ n ≤ last_second → 
  fromtimestamp q = Some (utc (epoch_us + n * us_per_second)).
Proof.
  intros Hq Hn. unfold fromtimestamp.
  assert (round_half_even (q * 1000000) = n * us_per_second) as ->.
  { assert (q * 1000000 == inject_Z (n * us_per_second))%Q as He by (rewrite Hq, inject_Z_mult; reflexivity).
    apply Z.le_antisymm; [apply round_half_even_le_int|apply round_half_even_ge_int]; rewrite He; apply Qle_refl. }
  unfold epoch_us, us_per_second, last_second in *.
  rewrite (proj2 (andb_true_iff _ _)); [done|]. split; lia.
Qed.
Lemma clamp_small q n : (q == inject_Z n)%Q → 0 ≤ n ≤ last_second → Num.clamp q = q.
Proof.
  intros Hq Hn. assert (inject_Z n < Num.overflow ∧ - Num.overflow < inject_Z n)%Q as [Hlo Hhi].
  { unfold Num.overflow. assert (last_second < 2 ^ 1024 - 2 ^ 970) as Hc by by vm_compute. 
    rewrite <- inject_Z_opp, <- !Zlt_Qlt. generalize dependent (2 ^ 1024 - 2 ^ 970). lia. }
  unfold Num.clamp. destruct (Qle_bool Num.overflow q) eqn:H1; [apply Qle_bool_iff in H1; rewrite Hq in H1; by apply Qlt_not_le in Hlo|].
  destruct (Qle_bool q _) eqn:H2; [apply Qle_bool_iff in H2; rewrite Hq in H2; by apply Qlt_not_le in Hhi|done].
Qed.
Lemma parse_seconds n : 0 ≤ n ≤ last_second →
  parse_timestamp (Some (pretty n)) = Some (utc (epoch_us + n * us_per_second)) ∧ pretty n ≠ "".
Proof.
  intros Hn. destruct (pretty_digits n) as (c & t & -> & Hd & Hs & k & Hk & Hspan); [lia|]. split; [|done].
  unfold parse_timestamp. unfold Str.truthy. rewrite bool_decide_false by done. cbn [negb].
  rewrite stamp_strip by done. cbn zeta. unfold unix_timestamp. rewrite float_stamp by done.
  unfold Num.decimal. rewrite Hspan. rewrite Z.add_0_r. destruct (Z.ltb_spec 0 k); [|lia].
  cbn [Num.exponent].
  assert (inject_Z 1 * (inject_Z n * Num.power10 (0 - 0)) == inject_Z n)%Q as Hq.
  { unfold Num.power10. change (0 - 0) with 0. cbn [Qpower]. rewrite !Qmult_1_r, Qmult_1_l. reflexivity. }
  rewrite (clamp_small _ n) by done. by rewrite (fromtimestamp_whole _ n).
Qed.

(** ISO 8601 text. *)
Lemma digits_stamp k n : stamp (Iso.digits k n).
Proof.
  apply Iso8601.all_chars_digits. intros m. apply digit_stamp. unfold Text.is_digit. pose proof (Iso8601.digit_code m).
  apply andb_true_iff. lia.
Qed.
Lemma digits4 y r : ∃ c1 c2 c3 c4, Iso.digits 4 y +:+ r = String c1 (String c2 (String c3 (String c4 r))) ∧
  Forall (λ c, Text.is_digit c = true) [c1; c2; c3; c4].
Proof.
  do 4 eexists. split; [cbn; reflexivity|].
  repeat constructor; unfold Text.is_digit; (match goal with |- context [Iso.digit ?n] => pose proof (Iso8601.digit_code n) end);
    apply andb_true_iff; lia.
Qed.
Lemma isoformat_head us : stamp (Iso.isoformat (utc us)) ∧
  ∃ c1 c2 c3 c4 t, Iso.isoformat (utc us) = String c1 (String c2 (String c3 (String c4 (String (Text.chr 45) t)))) ∧
    Forall (λ c, Text.is_digit c = true) [c1; c2; c3; c4].
Proof.
  unfold Iso.isoformat. cbn [wall_us utc utc_offset]. destruct (Iso.ymd_of_day _) as [[y m] d]. split.
  - repeat first [apply digits_stamp | done | case_match; [done|] | apply stamp_app].
  - edestruct (digits4 y) as (c1 & c2 & c3 & c4 & -> & Hd). do 5 eexists. split; [reflexivity|done].
Qed.
Lemma iso_not_a_number c1 c2 c3 c4 t : let s := String c1 (String c2 (String c3 (String c4 (String (Text.chr 45) t)))) in
  stamp s → Forall (λ c, Text.is_digit c = true) [c1; c2; c3; c4] → Num.float s = None.
Proof.
  intros s Hs Hd. assert (∀ c, Text.is_digit c = true → ∃ d, Num.digit_in 10 c = Some d) as Hdig.
  { intros c Hc. unfold Num.digit_in, Num.digit_value. unfold Text.is_digit in Hc. rewrite Hc.
    destruct (Z.ltb_spec (Str.code c - 48) 10); [by eexists|lia]. }
  apply Forall_cons in Hd as [H1 Hd]. unfold s in *. rewrite float_stamp by done.
  apply Forall_cons in Hd as [H2 Hd]. apply Forall_cons in Hd as [H3 Hd]. apply Forall_cons in Hd as [H4 _].
  destruct (Hdig _ H1) as [? E1], (Hdig _ H2) as [? E2], (Hdig _ H3) as [? E3], (Hdig _ H4) as [? E4].
  unfold Num.decimal. cbn [Num.span_digits]. rewrite E1, E2, E3, E4. done.
Qed.
Lemma parse_isoformat us : 0 ≤ us < 3652059 * 86400000000 →
  parse_timestamp (Some (Iso.isoformat (utc us))) = Some (utc us).
Proof.
  intros Hus. destruct (isoformat_head us) as [Hs (c1 & c2 & c3 & c4 & t & He & Hd)].
  unfold parse_timestamp. rewrite He in Hs |- *. unfold Str.truthy. rewrite bool_decide_false by done. cbn [negb].
  rewrite stamp_strip by done. cbn zeta. unfold unix_timestamp.
  pose proof (iso_not_a_number _ _ _ _ _ Hs Hd) as ->. rewrite stamp_replace by done. rewrite <- He.
  rewrite Iso8601.fromisoformat_text; [done|]. split; cbn; lia.
Qed.

(** * Base64 as it is sent *)

Lemma restored_padding url l : Forall Base64.byte l →
  Base64.rstrip_pad (Base64.encode url l) +:+ Base64.padding (Base64.rstrip_pad (Base64.encode url l)) = Base64.encode url l.
Proof.
  assert (∀ n s, 0 ≤ n < 64 → Base64.rstrip_pad (String (Base64.digit url n) s) = String (Base64.digit url n) (Base64.rstrip_pad s)) as Hr.
  { intros n s Hn. apply Base64.rstrip_pad_cons, (Base64.digit_ok url n Hn). }
  revert l. apply Base64.bytes_ind; [done|..].
  - intros a Ha. cbn [Base64.encode]. rewrite !Hr by Base64.digit_bounds. reflexivity.
  - intros a b Ha Hb. cbn [Base64.encode]. rewrite !Hr by Base64.digit_bounds. reflexivity.
  - intros a b c l Ha Hb Hc _ IH. cbn [Base64.encode]. rewrite !Hr by Base64.digit_bounds.
    rewrite Base64.padding_cons4, !append_cons. by rewrite IH.
Qed.
Lemma decode_sent url l : Forall Base64.byte l → Base64.decode url (Base64.encode url l) = Some l.
Proof. intros Hl. rewrite <- restored_padding by done. by apply Base64.decode_encode. Qed.
Lemma encode_nonempty url l : l ≠ [] → Base64.encode url l ≠ "".
Proof. by destruct l as [|a [|b [|c l]]]. Qed.

(** * Canonical bodies *)

Lemma dict_get_sorted k (o : dict) : NoDup o.*1 →
  dict_get k (sort_items (map (λ kv, (kv.1, sort_keys kv.2)) o)) = sort_keys <$> dict_get k o.
Proof.
  intros Hnd. rewrite (dict_get_perm k _ (map (λ kv, (kv.1, sort_keys kv.2)) o)).
  - clear. induction o as [|[k' v] o IH]; [done|]. cbn [map]. rewrite !dict_get_cons. cbn [fst snd].
    by case_bool_decide.
  - apply sort_items_Permutation.
  - by rewrite sort_items_Permutation, fst_map_snd.
Qed.
Lemma sort_keys_readable v : readable v = true → readable (sort_keys v) = true.
Proof.
  pattern v. apply json_ind'; clear v.
  - by intros [].
  - intros l Hl. cbn [readable sort_keys]. rewrite !forallb_forall. intros Hr x Hx.
    apply in_map_iff in Hx as (y & <- & Hy). rewrite Forall_forall in Hl. apply Hl; [by apply list_elem_of_In|by apply Hr].
  - intros o Ho. cbn [readable sort_keys]. rewrite !andb_true_iff, !bool_decide_eq_true, !forallb_forall. intros [Hnd Hr].
    split; [by rewrite sort_items_Permutation, fst_map_snd|].
    intros kv Hin. apply list_elem_of_In in Hin. rewrite sort_items_Permutation in Hin. apply list_elem_of_In in Hin.
    apply in_map_iff in Hin as (kv' & <- & Hin). cbn. rewrite Forall_forall in Ho.
    apply Ho; [by apply list_elem_of_In|by apply Hr].
Qed.

Section Canonical.
Context `{Machine}.
Lemma canonical_head body : body ≠ [] → ∃ rest, _canonical body = 123 :: 34 :: rest.
Proof.
  intros Hb. unfold _canonical. cbn [sort_keys print].
  destruct (sort_items _) as [|kv o] eqn:Hs.
  - exfalso. pose proof (sort_items_Permutation (map (λ kv, (kv.1, sort_keys kv.2)) body)) as Hp. rewrite Hs in Hp.
    apply Permutation_nil_l in Hp. by destruct body.
  - destruct o as [|kv' o]; cbn [map]; rewrite ?concat_cons; eexists; reflexivity.
Qed.
(** What is signed and sent is read back, key by key. *)
Lemma canonical_loads body : body ≠ [] → readable (JObj body) = true →
  loads (_canonical body) = inr (JObj (sort_items (map (λ kv, (kv.1, sort_keys kv.2)) body))).
Proof.
  intros Hb Hr. unfold loads. assert (utf8_input (_canonical body) = Some (_canonical body)) as ->.
  { destruct (canonical_head body Hb) as [rest ->]. by destruct rest as [|a [|b rest]]. }
  unfold _canonical. rewrite Utf8.decode_utf8, Utf8.text_codes. rewrite loads_print; [done|by left|].
  by apply sort_keys_readable.
Qed.
End Canonical.

(** * Deliveries *)

(** What is relied on of the machine: its clock is past the epoch and within the
    years of [datetime]; of Ed25519, that a signature verifies under the public key
    of its seed and that a key is derived from its seed as RFC 8032 says. *)
Class MachineOk `{Machine} (ed : list Z → list Z → list Z → bool) : Prop := {
  clock_range n : epoch_us ≤ machine_clock n < 3652059 * 86400000000;
  signs seed m : ed (ed25519_public seed) (ed25519_sign seed m) m = true;
  signature_bytes seed m : Forall Base64.byte (ed25519_sign seed m) ∧ ed25519_sign seed m ≠ [];
  derived seed : length seed = 32%nat → ed25519_public seed = Rfc8032.public_key seed;
}.

(** The key the settings pin is the public key of the sandbox's seed. *)
Lemma pinned_key : Base64.encode false (Rfc8032.public_key COBALT_SIGNING_SEED) = SANDBOX_COBALT_WEBHOOK_PUBLIC_KEY.
Proof. vm_compute. reflexivity. Qed.
Lemma public_key_pinned `{HM : Machine} ed {HMo : MachineOk ed} :
  ed25519_public COBALT_SIGNING_SEED = Rfc8032.public_key COBALT_SIGNING_SEED ∧
  cobalt_public_key_b64 = SANDBOX_COBALT_WEBHOOK_PUBLIC_KEY.
Proof.
  assert (ed25519_public COBALT_SIGNING_SEED = Rfc8032.public_key COBALT_SIGNING_SEED) as Hk by by apply derived.
  split; [done|]. unfold cobalt_public_key_b64. rewrite Hk. apply pinned_key.
Qed.

(** The delivery of a signed webhook, and the instant it was signed at: the last
    reading of the clock. *)
Definition arriving (p : fake) (signed : SignedWebhook) (received : datetime) (remote : option string) : InboundWebhook :=
  mk_inbound (slug p) (sw_headers signed) (sw_body signed) received remote.
Definition prompt `{Machine} (window : Z) (ticks : nat) (received : datetime) : Prop :=
  is_aware received = true ∧ Z.abs (instant received - machine_clock ticks) ≤ (window - 1) * us_per_second.

(** An operation that has come to its end, the event that says so, and what the
    platform is to make of it. *)
Definition failed (o : SandboxOperation) : bool := bool_decide (op_scenario o = Scenario.ASYNC_FAILURE).
Definition final (p : fake) (o : SandboxOperation) : Prop :=
  if failed o then
    op_status o = _failed_status p ∧ op_failure_code o = Some "downstream_rejected" ∧
    op_failure_message o = Some "the downstream system rejected the operation"
  else op_status o = _succeeded_status p ∧ op_failure_code o = None ∧ op_failure_message o = None.
Definition final_event (p : fake) (o : SandboxOperation) : string :=
  if failed o then _failure_event p else _success_event p.
Record reports (p : fake) (o : SandboxOperation) (correlation : option string) (at_ : datetime)
    (e : NormalizedWebhookEvent) : Prop := {
  reports_provider : we_provider e = slug p;
  reports_reference : we_provider_reference e = Some (op_id o);
  reports_external : we_external_reference e = Some (op_external_reference o);
  reports_type : we_event_type e = final_event p o;
  reports_status : we_normalized_status e = if failed o then NormalizedStatus.FAILED else NormalizedStatus.SUCCEEDED;
  reports_error : we_error e = if failed o
    then Some (reported_failure "the downstream system rejected the operation" (Some "downstream_rejected")) else None;
  reports_correlation : we_correlation_id e = if truthy_opt correlation then correlation else None;
  reports_time : we_occurred_at e = at_;
}.

(** What the builders produce, given the two readings of the clock. *)
Definition signed_by `{Machine} (p : fake) (o : SandboxOperation) (event : string) (t t' : Z) : SignedWebhook :=
  let stamp := pretty (unix_seconds (utc t')) in
  match p with
  | Northstar =>
      let body := _canonical (northstar_body o event (utc t)) in
      mk_signed "/webhooks/northstar"
        [("content-type", "application/json"); ("x-northstar-timestamp", stamp);
         ("x-northstar-signature", "sha256=" +:+ compute_hmac_sha256 NORTHSTAR_WEBHOOK_SECRET (utf8 stamp ++ [46] ++ body))] body
  | Meridian =>
      let body := _canonical (meridian_body o event (utc t)) in
      mk_signed "/webhooks/meridian"
        [("content-type", "application/json"); ("x-meridian-signature", compute_hmac_sha256 MERIDIAN_WEBHOOK_SECRET body)] body
  | Cobalt =>
      let body := _canonical (cobalt_body o event (utc t)) in
      mk_signed "/webhooks/cobalt"
        [("content-type", "application/json"); ("x-cobalt-timestamp", stamp); ("x-cobalt-key-id", COBALT_KEY_ID);
         ("x-cobalt-signature", cobalt_sign COBALT_KEY_ID stamp body)] body
  end.
Definition readings (p : fake) : nat := match p with Meridian => 1 | _ => 2 end.
Lemma builder_signs `{Machine} p o event s :
  builder p o event s = (Ret (signed_by p o event (machine_clock (sb_ticks s)) (machine_clock (S (sb_ticks s)))),
                         s <| sb_ticks ::= λ n, (readings p + n)%nat |>).
Proof. by destruct p. Qed.

Section Deliveries.
Context `{HM : Machine} (ed : list Z → list Z → list Z → bool) {HMo : MachineOk ed}.

Lemma signed_seconds n : let t := machine_clock n in let k := unix_seconds (utc t) in
  0 ≤ k ≤ last_second ∧ t - us_per_second < epoch_us + k * us_per_second ≤ t.
Proof.
  cbn zeta. pose proof (clock_range n) as Hr. unfold unix_seconds. rewrite instant_utc.
  set (t := machine_clock n) in *. unfold epoch_us, us_per_second, last_second in *.
  rewrite Z.quot_div_nonneg by lia. Z.div_mod_to_equations. lia.
Qed.
Lemma signed_in_window window n w : prompt window n (in_received_at w) →
  in_window window w (pretty (unix_seconds (utc (machine_clock n)))).
Proof.
  intros [Ha Hw]. destruct (signed_seconds n) as [Hk Ht]. destruct (parse_seconds _ Hk) as [Hp _]. eexists. split; [exact Hp|]. rewrite instant_utc.
  unfold us_per_second in *. lia.
Qed.

(** The prefix of the algorithm is dropped. *)
Lemma prefixed_strip a h : Str.all_chars (λ c, negb (Str.isspace c)) a = true → Str.all_chars is_hex h = true →
  Str.strip (a +:+ h) = a +:+ h.
Proof.
  intros Ha Hh. assert (Str.all_chars (λ c, negb (Str.isspace c)) (a +:+ h) = true) as Hs.
  { rewrite all_chars_append, Ha. revert Hh. apply all_chars_imp. intros c Hc. by destruct (is_hex_facts c Hc) as (-> & _). }
  revert Hs. generalize (a +:+ h). clear. intros s Hs. unfold Str.strip. assert (Str.lstrip s = s) as ->.
  { destruct s as [|c s]; [done|]. cbn in *. by apply andb_true_iff in Hs as [->%negb_true_iff _]. }
  induction s as [|c s IH]; [done|]. cbn in *. apply andb_true_iff in Hs as [Hc%negb_true_iff Hs].
  rewrite (IH Hs), Hc. by destruct s.
Qed.
Lemma candidate_prefixed h : Str.all_chars is_hex h = true → candidate_digest ("sha256=" +:+ h) = h.
Proof.
  intros Hh. unfold candidate_digest. rewrite prefixed_strip by done. cbn zeta.
  change (Text.after_first (Text.is_code 61) ("sha256=" +:+ h)) with (Some h). cbn [default].
  by rewrite hex_strip, hex_lower.
Qed.

Lemma hmac_nonempty secret m : compute_hmac_sha256 secret m ≠ "".
Proof.
  intros Hempty. apply (f_equal String.length) in Hempty. unfold compute_hmac_sha256, hmac_sha256 in Hempty.
  by rewrite length_hex_of_bytes, length_sha256 in Hempty.
Qed.

Lemma northstar_delivered o event window t n received remote config :
  table_get "northstar" _default_providers = Some config → prompt window n received →
  vouched (NorthstarAdapter.validate_webhook config window
    (arriving Northstar (signed_by Northstar o event t (machine_clock n)) received remote)).
Proof.
  intros [= <-] Hp. apply northstar_vouches; [apply Hp|]. set (stamp := pretty (unix_seconds (utc (machine_clock n)))).
  assert (stamp ≠ "") as Hne by apply (parse_seconds _ (proj1 (signed_seconds n))).
  eexists _, stamp, _. split_and!; [reflexivity|done|reflexivity|done|reflexivity|by apply signed_in_window|].
  by apply candidate_prefixed, hmac_hex.
Qed.
Lemma meridian_delivered o event t t' received remote config :
  table_get "meridian" _default_providers = Some config →
  vouched (MeridianAdapter.validate_webhook config (arriving Meridian (signed_by Meridian o event t t') received remote)).
Proof.
  intros [= <-]. apply meridian_vouches. eexists _, _.
  split_and!; [reflexivity|apply hmac_nonempty|reflexivity|by apply candidate_hex, hmac_hex].
Qed.
Lemma cobalt_delivered o event window t n received remote config :
  table_get "cobalt" _default_providers = Some config → prompt window n received →
  vouched (CobaltAdapter.validate_webhook ed config window
    (arriving Cobalt (signed_by Cobalt o event t (machine_clock n)) received remote)).
Proof.
  intros [= <-] Hp. apply cobalt_vouches; [apply Hp|]. set (stamp := pretty (unix_seconds (utc (machine_clock n)))).
  assert (stamp ≠ "") as Hne by apply (parse_seconds _ (proj1 (signed_seconds n))).
  exists (cobalt_sign COBALT_KEY_ID stamp (_canonical (cobalt_body o event (utc t)))), stamp, COBALT_KEY_ID,
    SANDBOX_COBALT_WEBHOOK_PUBLIC_KEY.
  split_and!; [reflexivity| |reflexivity|done|reflexivity|done|reflexivity|done|by apply signed_in_window|].
  - apply encode_nonempty, signature_bytes.
  - destruct (public_key_pinned ed) as [Hkey Hpin].
    unfold verify_ed25519. rewrite <- Hpin. unfold cobalt_public_key_b64, cobalt_sign.
    rewrite !decode_sent by ((rewrite Hkey; apply Rfc8032.public_key_bytes) || apply signature_bytes). apply signs.
Qed.

(** The correlation id of an operation is text or none, and what the adapters make
    of it: they refuse one over 128 characters. *)
Definition correlated (o : SandboxOperation) (correlation : option string) : Prop :=
  op_correlation_id o = jopt correlation.
Definition too_long (correlation : option string) : bool := from_option (λ c, 128 <? Str.len c) false correlation.
Definition correlation_refused : exn :=
  error ErrorClass.ValidationError "a correlation id must be 1 to 128 characters" no_kwargs.
Lemma optional_correlation_ok o correlation repr : correlated o correlation →
  optional_correlation repr (sort_keys (op_correlation_id o)) =
    if too_long correlation then Raise correlation_refused else Ret (if truthy_opt correlation then correlation else None).
Proof.
  intros ->. unfold optional_correlation. destruct correlation as [c|]; [|done].
  cbn [jopt sort_keys json_truthy truthy_opt too_long from_option].
  destruct (Str.truthy c) eqn:Ht; [|by destruct (proj1 (truthy_opt_false (Some c)) Ht) as [|[= ->]]].
  cbn [py_str]. unfold CorrelationId.make. rewrite Ht. cbn [negb orb]. by destruct (128 <? Str.len c).
Qed.
Lemma correlated_readable o correlation : correlated o correlation → readable (op_correlation_id o) = true.
Proof. intros ->. by destruct correlation. Qed.
(** What comes of a webhook: a report, or the refusal of its correlation id. *)
Definition understood (p : fake) (o : SandboxOperation) (correlation : option string) (at_ : datetime)
    (answer : outcome exn NormalizedWebhookEvent) : Prop :=
  if too_long correlation then answer = Raise correlation_refused
  else ∃ e, answer = Ret e ∧ reports p o correlation at_ e.
Lemma jopt_readable x : readable (jopt x) = true.
Proof. by destruct x. Qed.

Lemma decode_canonical {S} (N : Net S) body : nested_too_deep N (_canonical body) = false →
  body ≠ [] → readable (JObj body) = true →
  _decode_body N (_canonical body) = Ret (sort_items (map (λ kv, (kv.1, sort_keys kv.2)) body)).
Proof. intros Hn Hb Hr. unfold _decode_body. by rewrite Hn, canonical_loads. Qed.
Lemma get_sorted k (o : dict) : NoDup o.*1 →
  get_item k (sort_items (map (λ kv, (kv.1, sort_keys kv.2)) o)) = default JNull (sort_keys <$> dict_get k o).
Proof. intros Hnd. unfold get_item. by rewrite dict_get_sorted. Qed.
Lemma sorted_nonempty (o : dict) : o ≠ [] → sort_items (map (λ kv, (kv.1, sort_keys kv.2)) o) ≠ [].
Proof.
  intros Ho Hs. pose proof (sort_items_Permutation (map (λ kv, (kv.1, sort_keys kv.2)) o)) as Hp. rewrite Hs in Hp.
  apply Permutation_nil_l in Hp. by destruct o.
Qed.
Lemma first_present_sorted keys (o : dict) : NoDup o.*1 →
  _first_present (sort_items (map (λ kv, (kv.1, sort_keys kv.2)) o)) keys = sort_keys (_first_present o keys).
Proof.
  intros Hnd. induction keys as [|k keys IH]; [done|]. cbn. rewrite dict_get_sorted by done.
  by destruct (dict_get k o) as [[]|].
Qed.


(** Reads a canonical body back: [get_item] and [_first_present] on literal keys. *)
Ltac canonical_go :=
  repeat first
    [ rewrite get_sorted by (apply (bool_decide_unpack _); vm_compute; done)
    | rewrite dict_get_sorted by (apply (bool_decide_unpack _); vm_compute; done)
    | rewrite first_present_sorted by (apply (bool_decide_unpack _); vm_compute; done)
    | progress dict_simpl
    | progress cbn [fmap option_fmap option_map from_option sort_keys id jopt json_truthy py_str optional_str _first_present] ].

Lemma northstar_reported {S} (N : Net S) o t w correlation repr :
  nested_too_deep N (in_body w) = false →
  final Northstar o → correlated o correlation → 0 ≤ t < 3652059 * 86400000000 →
  in_body w = _canonical (northstar_body o (final_event Northstar o) (utc t)) →
  understood Northstar o correlation (utc t) (NorthstarAdapter.normalize_webhook N repr "northstar" w).
Proof.
  intros Hn Hf Hc Ht Hw. unfold understood, NorthstarAdapter.normalize_webhook. rewrite Hw in Hn |- *. rewrite decode_canonical; [|done|done|].
  2: { cbn. rewrite (correlated_readable _ _ Hc), !jopt_readable. done. }
  unfold northstar_body. canonical_go.
  change (Str.truthy ("nsevt-" +:+ _)) with true. change (json_or JNull ?x) with x.
  rewrite (optional_correlation_ok _ _ _ Hc), parse_isoformat by done. unfold final, final_event in *.
  destruct (too_long correlation); [by destruct (failed o); destruct Hf as (Hs & _); rewrite ?Hs|].
  destruct (failed o) eqn:Hfail; destruct Hf as (-> & -> & ->); cbn; (eexists; split; [reflexivity|]); split; cbn; unfold final_event; rewrite ?Hfail; done.
Qed.
Lemma meridian_fields o event now : let body := meridian_body o event now in
  _first_present body ["notificationId"; "notification_id"; "eventId"] =
    JStr ("mnotif-" +:+ op_id o +:+ "-" +:+ event_number o) ∧
  _first_present body ["notificationType"; "type"; "eventType"] = JStr event ∧
  _first_present body ["requestId"; "request_id"; "serviceRequestId"] = JStr (op_id o) ∧
  _first_present body ["status"; "state"; "requestStatus"] = JStr (op_status o) ∧
  _first_present body ["occurredAt"; "occurred_at"; "timestamp"] = JStr (Iso.isoformat now) ∧
  _first_present body ["correlationId"; "correlation_id"] = op_correlation_id o ∧
  _first_present body ["customerRef"; "customer_ref"] = JStr (op_external_reference o) ∧
  _first_present body ["reason"; "failureReason"; "message"] = jopt (op_failure_message o) ∧
  _first_present body ["reasonCode"; "errorCode"] = jopt (op_failure_code o).
Proof.
  intros body. unfold body, meridian_body. cbn [_first_present]. dict_simpl. split_and!; try done.
  - by destruct (op_correlation_id o).
  - by destruct (op_failure_message o).
  - by destruct (op_failure_code o).
Qed.
Lemma meridian_reported {S} (N : Net S) o t w correlation repr :
  nested_too_deep N (in_body w) = false →
  final Meridian o → correlated o correlation → 0 ≤ t < 3652059 * 86400000000 →
  in_body w = _canonical (meridian_body o (final_event Meridian o) (utc t)) →
  understood Meridian o correlation (utc t) (MeridianAdapter.normalize_webhook N repr "meridian" w).
Proof.
  intros Hn Hf Hc Ht Hw. unfold understood, MeridianAdapter.normalize_webhook. rewrite Hw in Hn |- *. rewrite decode_canonical; [|done|done|].
  2: { cbn. rewrite (correlated_readable _ _ Hc), !jopt_readable. done. }
  unfold MeridianAdapter.failure_of. rewrite !first_present_sorted by (apply (bool_decide_unpack _); vm_compute; done).
  destruct (meridian_fields o (final_event Meridian o) (utc t)) as (-> & -> & -> & -> & -> & -> & -> & -> & ->).
  rewrite (optional_correlation_ok _ _ _ Hc). cbn [sort_keys json_truthy optional_str py_str].
  change (Str.truthy ("mnotif-" +:+ _)) with true. rewrite parse_isoformat by done. unfold final, final_event in *.
  destruct (too_long correlation); [by destruct (failed o); destruct Hf as (Hs & _); rewrite ?Hs|].
  destruct (failed o) eqn:Hfail; destruct Hf as (-> & -> & ->); cbn; (eexists; split; [reflexivity|]); split; cbn; unfold final_event; rewrite ?Hfail; done.
Qed.
Lemma cobalt_reported {S} (N : Net S) o t w correlation repr :
  nested_too_deep N (in_body w) = false →
  final Cobalt o → correlated o correlation → 0 ≤ t < 3652059 * 86400000000 →
  in_body w = _canonical (cobalt_body o (final_event Cobalt o) (utc t)) →
  understood Cobalt o correlation (utc t) (CobaltAdapter.normalize_webhook N repr "cobalt" w).
Proof.
  intros Hn Hf Hc Ht Hw. unfold understood, CobaltAdapter.normalize_webhook. rewrite Hw in Hn |- *. rewrite decode_canonical; [|done|done|].
  2: { unfold cobalt_body. destruct (_ || _); cbn; by rewrite (correlated_readable _ _ Hc), ?jopt_readable. }
  rewrite !first_present_sorted by (apply (bool_decide_unpack _); vm_compute; done).
  match goal with |- if _ then ?x = _ else _ => set (answer := x) end.
  assert (∃ y, answer = y) as [y Hy] by by eexists. rewrite Hy. subst answer. revert Hy.
  unfold cobalt_body. canonical_go. set (job := sort_items _).
  assert (CobaltAdapter.job_correlation job = Ret (sort_keys (op_correlation_id o))) as ->.
  { unfold CobaltAdapter.job_correlation. rewrite bool_decide_false by by apply sorted_nonempty. subst job. canonical_go. done. }
  rewrite (optional_correlation_ok _ _ _ Hc), parse_isoformat by done.
  change (Str.truthy ("cbevt-" +:+ _)) with true. unfold final, final_event in *.
  intros <-. destruct (too_long correlation); [by destruct (failed o); destruct Hf as (Hs & _); rewrite ?Hs|].
  destruct (failed o) eqn:Hfail; destruct Hf as (Hs & Hcode & Hmsg); rewrite Hs.
  - assert (CobaltAdapter.failure_of repr job =
      reported_failure "the downstream system rejected the operation" (Some "downstream_rejected")) as ->.
    { unfold CobaltAdapter.failure_of. subst job. rewrite Hcode, Hmsg. canonical_go. done. }
    eexists. split; [reflexivity|]. split; cbn; unfold final_event; rewrite ?Hfail; done.
  - eexists. split; [reflexivity|]. split; cbn; unfold final_event; rewrite ?Hfail; done.
Qed.

(** What a fake provider signs of a finished operation, the platform's adapter of
    that provider accepts and understands. *)
Lemma signed_understood {S} (N : Net S) auth repr window p o t n received remote config adapter_class correlation :
  table_get (slug p) _default_providers = Some config →
  table_get (slug p) (ADAPTER_FACTORIES ed N repr window) = Some adapter_class →
  final p o → correlated o correlation → 0 ≤ t < 3652059 * 86400000000 → prompt window n received →
  let a := adapter_class auth (slug p) config in
  let signed := signed_by p o (final_event p o) t (machine_clock n) in
  let w := arriving p signed received remote in
  nested_too_deep N (sw_body signed) = false →
  vouched (ad_validate a w) ∧ understood p o correlation (utc t) (ad_normalize a w).
Proof.
  intros Hcfg Hcls Hf Hc Ht Hp. destruct p; injection Hcls as <-; cbn zeta; cbn [ad_validate ad_normalize]; intros Hn.
  - split; [by apply northstar_delivered|by apply northstar_reported].
  - split; [by apply meridian_delivered|by apply meridian_reported].
  - split; [by apply cobalt_delivered|by apply cobalt_reported].
Qed.
End Deliveries.
