(* ===== verification/SandboxFacts.v ===== *)
(** What the sandbox promises: the scenario a reference selects, the invariant of
    its stores, objects and deliveries in every state it can reach, and the
    idempotency of each provider. *)

From stdpp Require Import functions.
From S2P Require Import Prelude PyData PyTime PyText PyDates JsonText Sha256 Enums Errors ValueObjects.
From S2P Require Import Policies Records Resilient Transport Signatures Adapters AdapterFacts Config Sandbox SandboxWebhooks.

(** * Identifiers *)

Lemma span_zeros k j s : Num.span_digits 0 j (zeros k +:+ s) = Num.span_digits 0 (j + Z.of_nat k) s.
Proof.
  revert j. induction k as [|k IH]; intros j; [cbn; by rewrite Z.add_0_r|].
  change (zeros (S k) +:+ s) with (String (Text.chr 48) (zeros k +:+ s)). cbn [Num.span_digits].
  change (Num.digit_in 10 (Text.chr 48)) with (Some 0). cbv iota. rewrite IH. f_equal. lia.
Qed.
Lemma span_pretty n j rest : 0 ≤ n → ends rest → ∃ k, Num.span_digits 0 j (pretty n +:+ rest) = (n, k, rest).
Proof.
  intros Hn Hr. rewrite pretty_int. destruct (Z.ltb_spec n 0); [lia|]. rewrite append_nil_l, Z.abs_eq by done.
  unfold unsigned_text. case_decide as H0.
  - assert (n = 0) as -> by lia. exists (j + 1). change ("0" +:+ rest) with (String (Text.chr 48) rest). cbn [Num.span_digits].
    change (Num.digit_in 10 (Text.chr 48)) with (Some 0). cbv iota. by rewrite span_stops.
  - destruct (pretty_N_go_spec (Z.to_N n) ltac:(lia)) as (k & _ & _ & Hs). rewrite pretty_N_go_append, append_nil_l.
    destruct (Hs rest) as [-> _]. rewrite span_stops by done. exists (j + k). by rewrite Z2N.id.
Qed.
Lemma padded_span n rest : 0 ≤ n → ends rest → ∃ k, Num.span_digits 0 0 (padded n +:+ rest) = (n, k, rest).
Proof. intros Hn Hr. unfold padded. rewrite Iso.string_app_assoc, span_zeros. by apply span_pretty. Qed.
(** The number is read back from an identifier. *)
Lemma numbered_id_inj pr n m u v : 0 ≤ n → 0 ≤ m → numbered_id pr n u = numbered_id pr m v → n = m.
Proof.
  intros Hn Hm He. unfold numbered_id in He. apply (inj (String.append pr)) in He.
  apply (inj (String.append "-")) in He.
  destruct (padded_span n ("-" +:+ uuid_hex8 u)) as [k Hk]; [done|by vm_compute|].
  destruct (padded_span m ("-" +:+ uuid_hex8 v)) as [k' Hk']; [done|by vm_compute|]. congruence.
Qed.

(** * Scenarios *)

(** A scenario whose name starts the reference. *)
Definition selects (reference : string) (x : Scenario.t) : Prop :=
  x ≠ Scenario.HEALTHY ∧ String.prefix (value x) (Str.lower (Str.strip reference)) = true.
Definition shorter (x y : Scenario.t) : Prop := Str.len (value y) ≤ Str.len (value x).

Lemma longest_first_sorted : StronglySorted shorter Scenario.longest_first ∧ ∀ x, x ∈ Scenario.longest_first.
Proof.
  assert (Scenario.longest_first = ltac:(let l := eval vm_compute in Scenario.longest_first in exact l)) as -> by by vm_compute.
  split; [|intros []; set_unfold; tauto]. unfold shorter.
  repeat (constructor; [|repeat (constructor; [by vm_compute|]); constructor]); constructor.
Qed.
Lemma first_match_spec text l : StronglySorted shorter l →
  let sel x := x ≠ Scenario.HEALTHY ∧ String.prefix (value x) text = true in
  let d := Scenario.first_match text l in
  (d = Scenario.HEALTHY ∧ ∀ x, x ∈ l → ¬ sel x) ∨ (sel d ∧ ∀ x, x ∈ l → sel x → shorter d x).
Proof.
  intros Hs. cbn zeta. induction Hs as [|x l Hs IH Hx]; [left; split; [done|]; by intros x ?%elem_of_nil|]. cbn [Scenario.first_match].
  rewrite Forall_forall in Hx. case_bool_decide as Hh; [|destruct (String.prefix (value x) text) eqn:Hp].
  - destruct IH as [[-> Hno]|[Hsel Hall]]; [left; split; [done|]|right; split; [done|]];
      intros y [->|Hy]%elem_of_cons; try naive_solver.
  - right. split; [done|]. intros y [->|Hy]%elem_of_cons _; [unfold shorter; lia|by apply Hx].
  - destruct IH as [[-> Hno]|[Hsel Hall]]; [left; split; [done|]|right; split; [done|]];
      intros y [->|Hy]%elem_of_cons; try naive_solver congruence.
Qed.
Lemma prefix_same_length a b t : String.prefix a t = true → String.prefix b t = true → String.length a = String.length b → a = b.
Proof.
  revert b t. induction a as [|x a IH]; intros [|y b] [|z t]; try done.
  rewrite !UuidFacts.prefix_cons, !andb_true_iff, !Ascii.eqb_eq. intros [-> Ha] [-> Hb] [= Hl]. f_equal. by eapply IH.
Qed.
Lemma detect_spec reference :
  let d := Scenario.detect (Some reference) in
  (d = Scenario.HEALTHY ∧ ∀ x, ¬ selects reference x) ∨ (selects reference d ∧ ∀ x, selects reference x → shorter d x).
Proof.
  destruct longest_first_sorted as [Hs Hall]. cbn zeta. unfold Scenario.detect.
  destruct (Str.truthy reference) eqn:Ht.
  - destruct (first_match_spec (Str.lower (Str.strip reference)) _ Hs) as [[-> Hno]|[Hsel Hx]]; [left|right]; (split; [done|]);
      intros x; [by apply Hno|by apply Hx].
  - left. split; [done|]. apply truthy_eq in Ht as ->. intros [] [Hne Hp]; done.
Qed.

(** * The invariant *)

(** Scenarios whose operations are accepted and never completed. *)
Definition parked (p : fake) : list Scenario.t :=
  match p with Northstar => [Scenario.NO_REFERENCE; Scenario.UNKNOWN_STATUS] | _ => [Scenario.UNKNOWN_STATUS] end.
Definition accepted_status (p : fake) : string :=
  match p with Northstar => "queued" | Meridian => "processing" | Cobalt => "accepted" end.
(** An operation at rest: it came to its end when it was accepted, or it waits for
    ever, and then only a Cobalt job can be cancelled. *)
Inductive stage (p : fake) (o : SandboxOperation) : Prop :=
  | Finished (_ : op_scenario o ∉ parked p) (_ : final p o)
  | Waiting (_ : op_scenario o ∈ parked p) (_ : op_failure_code o = None)
      (_ : op_status o = accepted_status p ∨ p = Cobalt ∧ op_status o = "cancelled").

Definition id_prefix (p : fake) : string :=
  match p with Northstar => "ns-op" | Meridian => "mrd-req" | Cobalt => "cbl-job" end.

(** The store of one provider: identifiers are distinct and lead to their objects;
    the index leads to an operation created under that key, and Meridian has
    none. *)
Record store_ok (p : fake) (s : Sandbox) : Prop := {
  so_prefix : st_prefix (store_of p s) = id_prefix p;
  so_sequence : 1 ≤ st_sequence (store_of p s);
  so_operation i a : (i, a) ∈ st_operations (store_of p s) → ∃ n u o,
    i = numbered_id (id_prefix p) n u ∧ 1 ≤ n < st_sequence (store_of p s) ∧
    sb_objects s !! a = Some o ∧ op_id o = i ∧ stage p o;
  so_distinct : NoDup (st_operations (store_of p s)).*1;
  so_key k i : st_by_idempotency_key (store_of p s) !! k = Some i → p ≠ Meridian ∧ ∃ a o,
    (i, a) ∈ st_operations (store_of p s) ∧ sb_objects s !! a = Some o ∧ op_idempotency_key o = Some k;
}.
(** A task or a post is about an operation that has come to its end, and says
    so. *)
Definition task_ok (s : Sandbox) (d : delivery) : Prop :=
  ∃ o, sb_objects s !! dl_operation d = Some o ∧ final (dl_provider d) o ∧ dl_event_type d = final_event (dl_provider d) o.
Definition same_operation (o o' : SandboxOperation) : Prop := ∃ l, o' = o <| emitted_events := l |>.
Definition post_ok `{Machine} (s : Sandbox) (w : SignedWebhook) : Prop :=
  ∃ p a o o' n, sb_objects s !! a = Some o ∧ final p o ∧ same_operation o o' ∧
    w = signed_by p o' (final_event p o') (machine_clock n) (machine_clock (S n)).
Record SandboxInv `{Machine} (s : Sandbox) : Prop := {
  inv_store p : store_ok p s;
  inv_tasks d : d ∈ sb_tasks s → task_ok s d;
  inv_posts url w : (url, w) ∈ sb_posts s → post_ok s w;
}.

Lemma same_operation_refl o : same_operation o o.
Proof. exists (emitted_events o). by destruct o. Qed.
Lemma same_operation_trans o1 o2 o3 : same_operation o1 o2 → same_operation o2 o3 → same_operation o1 o3.
Proof. intros [l ->] [l' ->]. by exists l'. Qed.
Lemma same_operation_sym o1 o2 : same_operation o1 o2 → same_operation o2 o1.
Proof. intros [l ->]. exists (emitted_events o1). by destruct o1. Qed.
Lemma final_same p o o' : same_operation o o' → final p o → final p o' ∧ final_event p o' = final_event p o.
Proof. intros [l ->]. done. Qed.

(** How objects change once they are at rest. *)
Record evolves (o o' : SandboxOperation) : Prop := {
  ev_id : op_id o' = op_id o;
  ev_key : op_idempotency_key o' = op_idempotency_key o;
  ev_final p : final p o → same_operation o o';
  ev_stage p : stage p o → stage p o';
}.
Lemma evolves_same o o' : same_operation o o' → evolves o o'.
Proof.
  intros Hs. pose proof Hs as [l ->]. split; [done|done|by intros|]. intros p [H1 H2|H1 H2 H3]; [by left|by right].
Qed.
(** Objects stay where they are, and new ones come after them. *)
Definition grows (s s' : Sandbox) : Prop :=
  ∀ a o, sb_objects s !! a = Some o → ∃ o', sb_objects s' !! a = Some o' ∧ evolves o o'.
Lemma grows_same s s' : sb_objects s' = sb_objects s → grows s s'.
Proof. intros He a o Ho. exists o. rewrite He. split; [done|]. apply evolves_same, same_operation_refl. Qed.
Lemma grows_app s s' l : sb_objects s' = sb_objects s ++ l → grows s s'.
Proof.
  intros He a o Ho. exists o. rewrite He. split; [by apply lookup_app_l_Some|]. apply evolves_same, same_operation_refl.
Qed.
Lemma grows_alter s s' a f : sb_objects s' = alter f a (sb_objects s) →
  (∀ o, sb_objects s !! a = Some o → evolves o (f o)) → grows s s'.
Proof.
  intros He Hf a' o Ho. rewrite He. destruct (decide (a' = a)) as [->|Hne].
  - exists (f o). rewrite list_lookup_alter_eq, Ho. split; [done|by apply Hf].
  - exists o. rewrite list_lookup_alter_ne by done. split; [done|]. apply evolves_same, same_operation_refl.
Qed.

Section Inv.
Context `{Machine}.

Lemma task_grows s s' d : grows s s' → task_ok s d → task_ok s' d.
Proof.
  intros Hg (o & Ho & Hf & He). destruct (Hg _ _ Ho) as (o' & Ho' & [_ _ Hev _]). specialize (Hev _ Hf).
  destruct (final_same _ _ _ Hev Hf) as [Hf' He']. exists o'. split_and!; [done|done|congruence].
Qed.
Lemma post_grows s s' w : grows s s' → post_ok s w → post_ok s' w.
Proof.
  intros Hg (p & a & o & o' & n & Ho & Hf & Hs & ->). destruct (Hg _ _ Ho) as (o2 & Ho2 & [_ _ Hev _]). specialize (Hev _ Hf).
  exists p, a, o2, o', n. split_and!; [done|by eapply final_same| |done].
  eapply same_operation_trans; [by apply same_operation_sym|done].
Qed.
Lemma store_counts p s s' : grows s s' →
  st_prefix (store_of p s') = st_prefix (store_of p s) → st_operations (store_of p s') = st_operations (store_of p s) →
  st_by_idempotency_key (store_of p s') = st_by_idempotency_key (store_of p s) →
  st_sequence (store_of p s') = st_sequence (store_of p s) → store_ok p s → store_ok p s'.
Proof.
  intros Hg E1 E2 E3 E4 [H1 H2 H3 H4 H5]. split; rewrite ?E1, ?E2, ?E3, ?E4; try done.
  - intros i a Hin. destruct (H3 i a Hin) as (n & u & o & -> & Hn & Ho & Hi & Hst). destruct (Hg _ _ Ho) as (o' & Ho' & [Hev _ _ Hs]).
    exists n, u, o'. split_and!; try done; [lia|lia|congruence|by apply Hs].
  - intros k i Hk. destruct (H5 k i Hk) as (Hp & a & o & Hin & Ho & Hkey). split; [done|].
    destruct (Hg _ _ Ho) as (o' & Ho' & [_ Hk' _ _]). exists a, o'. split_and!; [done|done|congruence].
Qed.

(** Steps that only read the clock, draw identifiers, issue tokens, count attempts
    or note an event. *)
Record quiet (s s' : Sandbox) : Prop := {
  q_objects : grows s s';
  q_prefix p : st_prefix (store_of p s') = st_prefix (store_of p s);
  q_operations p : st_operations (store_of p s') = st_operations (store_of p s);
  q_keys p : st_by_idempotency_key (store_of p s') = st_by_idempotency_key (store_of p s);
  q_sequence p : st_sequence (store_of p s') = st_sequence (store_of p s);
  q_callback p : sp_callback_base_url (sb_providers s' p) = sp_callback_base_url (sb_providers s p);
  q_tasks : sb_tasks s' = sb_tasks s;
  q_posts : sb_posts s' = sb_posts s;
}.
#[export] Instance evolves_trans : Transitive evolves.
Proof.
  intros o1 o2 o3 [A1 A2 A3 A4] [B1 B2 B3 B4]. split; [congruence|congruence| |by intros; apply B4, A4].
  intros p Hf. pose proof (A3 p Hf) as Hs. destruct (final_same p _ _ Hs Hf) as [Hf2 _].
  eapply same_operation_trans; [exact Hs|by eapply B3].
Qed.
#[export] Instance grows_preorder : PreOrder grows.
Proof.
  split.
  - intros s. by apply grows_same.
  - intros s1 s2 s3 H12 H23 a o Ho. destruct (H12 a o Ho) as (o2 & Ho2 & He2). destruct (H23 a o2 Ho2) as (o3 & Ho3 & He3).
    exists o3. split; [done|by etransitivity].
Qed.
#[export] Instance quiet_preorder : PreOrder quiet.
Proof.
  split.
  - intros s. by split.
  - intros s1 s2 s3 [] []. split; try congruence; [by etransitivity|..]; intros p; etransitivity; eauto.
Qed.
Lemma quiet_inv s s' : quiet s s' → SandboxInv s → SandboxInv s'.
Proof.
  intros [Hg Hp Ho Hk Hs Hc Ht Hq] [I1 I2 I3]. split.
  - intros p. eapply store_counts; eauto.
  - rewrite Ht. intros d Hd. eapply task_grows; eauto.
  - rewrite Hq. intros url w Hw. eapply post_grows; eauto.
Qed.

Lemma quiet_clock : keeps quiet wall_clock.
Proof. intros s. by split; [apply grows_same|..]. Qed.
Lemma quiet_uuid : keeps quiet uuid4.
Proof. intros s. by split; [apply grows_same|..]. Qed.
Lemma quiet_deref a : keeps quiet (deref a).
Proof. intros s. unfold deref. by destruct (_ !! _). Qed.
Lemma quiet_record p key : keeps quiet (record_attempt p key).
Proof.
  intros s. cbn. split; try done; [by apply grows_same|..]; intros q; unfold store_of, on_store; cbn;
    (destruct (decide (q = p)) as [->|]; [rewrite fn_lookup_insert|rewrite fn_lookup_insert_ne by done]; done).
Qed.
Lemma quiet_builder p o e : keeps quiet (builder p o e).
Proof. intros s. rewrite builder_signs. by split; [apply grows_same|..]. Qed.
Lemma quiet_emitted a e : keeps quiet (assign a (λ o, o <| emitted_events ::= λ l, l ++ [e] |>)).
Proof.
  intros s. cbn. split; try done. eapply grows_alter; [reflexivity|]. intros o _. apply evolves_same. by eexists.
Qed.

(** ** A new operation *)

Lemma assoc_set_fresh {A} k (v : A) d : k ∉ d.*1 → assoc_set k v d = d ++ [(k, v)].
Proof.
  induction d as [|[k' v'] d IH]; [done|]. cbn. rewrite not_elem_of_cons. intros [Hne Hk].
  rewrite bool_decide_false by congruence. by rewrite IH.
Qed.
Lemma assoc_get_in {A} k (v : A) d : NoDup d.*1 → assoc_get k d = Some v ↔ (k, v) ∈ d.
Proof.
  unfold assoc_get. induction d as [|[k' v'] d IH]; intros Hnd; [by cbn; rewrite elem_of_nil|]. cbn in Hnd |- *.
  apply NoDup_cons in Hnd as [Hk Hnd]. rewrite elem_of_cons. case_decide as He; cbn.
  - subst k'. split; [intros [= ->]; by left|]. intros [[= ->]|Hin]; [done|]. destruct Hk. by apply (list_elem_of_fmap_2 fst) in Hin.
  - specialize (IH Hnd). destruct (list_find _ d) as [[j [k2 v2]]|]; cbn in *; rewrite IH; (split; [by right|]); by intros [[= ]|].
Qed.

(** What creating an operation, and then scheduling [ds], leaves. *)
Record added (p : fake) (s : Sandbox) (o : SandboxOperation) (ds : list delivery) (key : option string) (s' : Sandbox) : Prop := {
  ad_objects : sb_objects s' = sb_objects s ++ [o];
  ad_operations : st_operations (store_of p s') = assoc_set (op_id o) (length (sb_objects s)) (st_operations (store_of p s));
  ad_keys : st_by_idempotency_key (store_of p s') =
    match key with Some k => <[k := op_id o]> (st_by_idempotency_key (store_of p s)) | None => st_by_idempotency_key (store_of p s) end;
  ad_sequence : st_sequence (store_of p s') = st_sequence (store_of p s) + 1;
  ad_prefix : st_prefix (store_of p s') = st_prefix (store_of p s);
  ad_id : ∃ u, op_id o = numbered_id (st_prefix (store_of p s)) (st_sequence (store_of p s)) u;
  ad_others q : q ≠ p → store_of q s' = store_of q s;
  ad_callback q : sp_callback_base_url (sb_providers s' q) = sp_callback_base_url (sb_providers s q);
  ad_tasks : sb_tasks s' = sb_tasks s ++ ds;
  ad_posts : sb_posts s' = sb_posts s;
}.

(** The new identifier is new. *)
Lemma fresh_id p s u : store_ok p s →
  numbered_id (st_prefix (store_of p s)) (st_sequence (store_of p s)) u ∉ (st_operations (store_of p s)).*1.
Proof.
  intros [H1 H2 H3 _ _] Hin. rewrite H1 in Hin. apply list_elem_of_fmap in Hin as ([i a] & Hi & Hin). cbn in Hi. subst i.
  destruct (H3 _ _ Hin) as (n & v & o & He & Hn & _). apply numbered_id_inj in He; lia.
Qed.
Lemma store_added p s o ds key s' : added p s o ds key s' → stage p o →
  (∀ k, key = Some k → p ≠ Meridian ∧ op_idempotency_key o = Some k) → store_ok p s → store_ok p s'.
Proof.
  intros A Hst Hkey Hok. pose proof (grows_app _ _ _ (ad_objects _ _ _ _ _ _ A)) as Hg.
  destruct (ad_id _ _ _ _ _ _ A) as [u Hid].
  assert (op_id o ∉ (st_operations (store_of p s)).*1) as Hfresh by (rewrite Hid; by apply fresh_id).
  assert (sb_objects s' !! length (sb_objects s) = Some o) as Hnew.
  { rewrite (ad_objects _ _ _ _ _ _ A). by apply list_lookup_middle. }
  destruct A as [Ho Hops Hk Hs Hp _ _ _ _ _]. rewrite assoc_set_fresh in Hops by done. pose proof Hok as [H1 H2 H3 H4 H5].
  split; rewrite ?Hp, ?Hs, ?Hops; [done|lia|..].
  - intros i a [Hin|[= -> ->]%list_elem_of_singleton]%elem_of_app.
    + destruct (H3 i a Hin) as (n & v & x & -> & Hn & Hx & Hi & Hsx). destruct (Hg _ _ Hx) as (x' & Hx' & [Hev _ _ He]).
      exists n, v, x'. split_and!; try done; [lia|lia|congruence|by apply He].
    + exists (st_sequence (store_of p s)), u, o. rewrite <- H1. split_and!; try done; lia.
  - rewrite fmap_app. apply NoDup_app. split_and!; [done| |apply NoDup_singleton]. intros x Hx ->%list_elem_of_singleton. done.
  - rewrite Hk. intros k i Hlook. assert (key = Some k ∧ i = op_id o ∨ st_by_idempotency_key (store_of p s) !! k = Some i) as [[-> ->]|Hold].
    { destruct key as [k0|]; [|by right]. destruct (decide (k0 = k)) as [->|Hne].
      - rewrite lookup_insert_eq in Hlook. injection Hlook as <-. by left.
      - rewrite lookup_insert_ne in Hlook by done. by right. }
    + destruct (Hkey k eq_refl) as [Hm Hko]. split; [done|]. exists (length (sb_objects s)), o. split_and!; try done.
      apply elem_of_app. right. by apply list_elem_of_singleton.
    + destruct (H5 k i Hold) as (Hm & a & x & Hin & Hx & Hkx). split; [done|]. destruct (Hg _ _ Hx) as (x' & Hx' & [_ Hk' _ _]).
      exists a, x'. split_and!; [apply elem_of_app; by left|done|congruence].
Qed.
Lemma inv_added p s o ds key s' : SandboxInv s → added p s o ds key s' → stage p o →
  (∀ k, key = Some k → p ≠ Meridian ∧ op_idempotency_key o = Some k) →
  (∀ d, d ∈ ds → dl_operation d = length (sb_objects s) ∧ dl_provider d = p ∧ final p o ∧ dl_event_type d = final_event p o) →
  SandboxInv s'.
Proof.
  intros [I1 I2 I3] A Hst Hkey Hds. pose proof (grows_app _ _ _ (ad_objects _ _ _ _ _ _ A)) as Hg. split.
  - intros q. destruct (decide (q = p)) as [->|Hne]; [by eapply store_added|].
    eapply store_counts; [done|..]; rewrite ?(ad_others _ _ _ _ _ _ A q Hne); done.
  - rewrite (ad_tasks _ _ _ _ _ _ A). intros d [Hd|Hd]%elem_of_app; [eapply task_grows; eauto|].
    destruct (Hds d Hd) as (Ha & <- & Hf & He). exists o. split_and!; try done. rewrite Ha, (ad_objects _ _ _ _ _ _ A).
    by apply list_lookup_middle.
  - rewrite (ad_posts _ _ _ _ _ _ A). intros url w Hw. eapply post_grows; eauto.
Qed.

Lemma store_on p f s : store_of p (on_store p f s) = f (store_of p s).
Proof. unfold store_of, on_store. cbn. by rewrite fn_lookup_insert. Qed.
Lemma store_on_ne p q f s : q ≠ p → store_of q (on_store p f s) = store_of q s.
Proof. intros Hne. unfold store_of, on_store. cbn. by rewrite fn_lookup_insert_ne. Qed.
Lemma callback_on p q f s : sp_callback_base_url (sb_providers (on_store p f s) q) = sp_callback_base_url (sb_providers s q).
Proof.
  unfold on_store. cbn. destruct (decide (q = p)) as [->|]; [by rewrite fn_lookup_insert|by rewrite fn_lookup_insert_ne].
Qed.

(** The key an operation is indexed under. *)
Definition index_key (honour : bool) (key : option string) : option string :=
  if honour && truthy_opt key then key else None.
Lemma index_key_some honour key k : index_key honour key = Some k →
  honour = true ∧ key = Some k ∧ truthy_opt key = true ∧ or_else key "" = k.
Proof.
  unfold index_key. destruct honour; [|done]. destruct key as [x|]; cbn; [|done]. destruct (Str.truthy x) eqn:Hx; [|done].
  by intros [= ->].
Qed.
Lemma index_key_keyed honour key : honour && truthy_opt key = true → index_key honour key = Some (or_else key "").
Proof.
  intros Hk. unfold index_key. rewrite Hk. apply andb_true_iff in Hk as [_ Hk]. destruct key as [k|]; [|done].
  cbn in *. by rewrite Hk.
Qed.

Definition just_created (p : fake) (status : string) (scenario : Scenario.t) (key : option string) (o : SandboxOperation) : Prop :=
  op_status o = status ∧ op_scenario o = scenario ∧ op_idempotency_key o = key ∧ op_failure_code o = None ∧ op_failure_message o = None.
Lemma next_id_spec p s : ∃ u s', next_id p s = (Ret (numbered_id (st_prefix (store_of p s)) (st_sequence (store_of p s)) u), s') ∧
  store_of p s' = (store_of p s) <| st_sequence ::= Z.succ |> ∧ (∀ q, q ≠ p → store_of q s' = store_of q s) ∧
  (∀ q, sp_callback_base_url (sb_providers s' q) = sp_callback_base_url (sb_providers s q)) ∧
  sb_objects s' = sb_objects s ∧ sb_tasks s' = sb_tasks s ∧ sb_posts s' = sb_posts s.
Proof.
  set (s1 := on_store p (λ t, t <| st_sequence ::= Z.succ |>) s).
  exists (machine_uuid (sb_drawn s1)), (s1 <| sb_drawn ::= S |>). split.
  - change (next_id p s) with (Ret (E := exn) (numbered_id (st_prefix (store_of p s1)) (st_sequence (store_of p s)) (machine_uuid (sb_drawn s1))),
      s1 <| sb_drawn ::= S |>). subst s1. by rewrite store_on.
  - change (store_of p (s1 <| sb_drawn ::= S |>)) with (store_of p s1). subst s1. split; [apply store_on|].
    split; [intros q Hq; exact (store_on_ne p q _ s Hq)|]. split; [intros q; exact (callback_on p q _ s)|done].
Qed.
Lemma create_new p reference kind status scenario payload correlation key honour s :
  (∀ k, index_key honour key = Some k → st_by_idempotency_key (store_of p s) !! k = None) →
  ∃ o s', create p reference kind status scenario payload correlation key honour s = (Ret (length (sb_objects s), false), s') ∧
    just_created p status scenario key o ∧ op_external_reference o = reference ∧ added p s o [] (index_key honour key) s'.
Proof.
  intros Hnone. unfold create. set (now := utc (machine_clock (sb_ticks s))).
  destruct (next_id_spec p (s <| sb_ticks ::= S |>)) as (u & s2 & Hid & Hst & Hne & Hcb & Hob & Hta & Hpo).
  unfold bind at 1, gets at 1.
  assert ((if honour && truthy_opt key then st_by_idempotency_key (store_of p s) !! or_else key "" else None) = None) as ->.
  { destruct (honour && truthy_opt key) eqn:Hk; [|done]. by apply Hnone, index_key_keyed. }
  unfold bind at 1, wall_clock at 1. unfold bind at 1. rewrite Hid. clear Hid.
  set (i := numbered_id _ _ u). change (store_of p (s <| sb_ticks ::= S |>)) with (store_of p s) in *.
  set (o := mk_operation i reference kind status scenario payload correlation now now key None None []).
  unfold bind at 1, gets at 1. unfold bind at 1, modifyS at 1. unfold bind at 1, modifyS at 1.
  set (s3 := s2 <| sb_objects ::= _ |>). set (s4 := on_store p _ s3). exists o.
  assert (added p s o [] None s4) as A.
  { subst s4 s3. split; rewrite ?store_on, ?app_nil_r; change (store_of p (s2 <| sb_objects ::= ?f |>)) with (store_of p s2); rewrite ?Hst.
    - change (sb_objects s2 ++ [o] = sb_objects s ++ [o]). by rewrite Hob.
    - cbn [st_operations set]. by rewrite Hob.
    - done.
    - done.
    - done.
    - by exists u.
    - intros q Hq. rewrite store_on_ne by done. exact (Hne q Hq).
    - intros q. rewrite callback_on. exact (Hcb q).
    - exact Hta.
    - exact Hpo. }
  rewrite Hob. change (sb_objects (s <| sb_ticks ::= S |>)) with (sb_objects s).
  destruct (honour && truthy_opt key) eqn:Hk.
  - eexists. split; [reflexivity|]. split; [done|]. split; [done|]. rewrite (index_key_keyed _ _ Hk).
    destruct A as [A1 A2 A3 A4 A5 A6 A7 A8 A9 A10]. split; rewrite ?store_on; try done.
    + change (<[or_else key "" := i]> (st_by_idempotency_key (store_of p s4)) =
        <[or_else key "" := i]> (st_by_idempotency_key (store_of p s))). by rewrite A3.
    + intros q Hq. rewrite store_on_ne by done. by apply A7.
    + intros q. by rewrite callback_on.
  - eexists. split; [reflexivity|]. split; [done|]. split; [done|]. unfold index_key. by rewrite Hk.
Qed.

(** ** Completion *)

Lemma alter_new {A} (f : A → A) l x : alter f (length l) (l ++ [x]) = l ++ [f x].
Proof. induction l as [|y l IH]; [done|]. cbn. by f_equal. Qed.
Lemma added_assign p s o ds key s1 f : added p s o ds key s1 → op_id (f o) = op_id o →
  added p s (f o) ds key (s1 <| sb_objects ::= alter f (length (sb_objects s)) |>).
Proof.
  intros [A1 A2 A3 A4 A5 A6 A7 A8 A9 A10] Hf. split; try done.
  - cbn. by rewrite A1, alter_new.
  - by rewrite Hf.
  - destruct key; [|done]. by rewrite Hf.
  - by rewrite Hf.
Qed.
Lemma added_ticks p s o ds key s1 f : added p s o ds key s1 → added p s o ds key (s1 <| sb_ticks ::= f |>).
Proof. by intros []. Qed.
Lemma added_task p s o ds key s1 d : added p s o ds key s1 → added p s o (ds ++ [d]) key (s1 <| sb_tasks ::= λ l, l ++ [d] |>).
Proof. intros [A1 A2 A3 A4 A5 A6 A7 A8 A9 A10]. split; try done. cbn. by rewrite A9, app_assoc. Qed.
Lemma added_lookup p s o ds key s1 : added p s o ds key s1 → sb_objects s1 !! length (sb_objects s) = Some o.
Proof. intros []. rewrite ad_objects0. by apply list_lookup_middle. Qed.

Lemma wp_deref a o (Q : SandboxOperation → Sandbox → Prop) X s : sb_objects s !! a = Some o → Q o s → wp (deref a) Q X s.
Proof. intros Ho HQ. unfold wp, deref. by rewrite Ho. Qed.
Lemma wp_clock (Q : datetime → Sandbox → Prop) X s :
  Q (utc (machine_clock (sb_ticks s))) (s <| sb_ticks ::= S |>) → wp wall_clock Q X s.
Proof. done. Qed.

Ltac sim_go := repeat lazymatch goal with
  | |- wp wall_clock _ _ _ => apply wp_clock
  | |- wp (match _ with _ => _ end) _ _ _ => fail
  | _ => wp_step
  end.

(** The status an operation is given, and the task that will tell. *)
Lemma schedule_added p s o key event delay s1 : added p s o [] key s1 → final p o → event = final_event p o →
  wp (schedule_webhook p (length (sb_objects s)) event delay)
    (λ _ s', ∃ ds, added p s o ds key s' ∧
       ∀ d, d ∈ ds → dl_operation d = length (sb_objects s) ∧ dl_provider d = p ∧ final p o ∧ dl_event_type d = final_event p o)
    (λ _ _, False) s1.
Proof.
  intros A Hf ->. unfold schedule_webhook. wp_line. destruct (truthy_opt _); wp_line.
  - eexists. split; [by apply added_task|]. by intros d ->%list_elem_of_singleton.
  - exists []. split; [done|]. by intros d ?%elem_of_nil.
Qed.
Lemma complete_added p s o key delay scenario status k s1 : added p s o [] key s1 → just_created p status scenario k o →
  wp (_schedule_completion p (length (sb_objects s)) delay)
    (λ _ s', ∃ o' ds, added p s o' ds key s' ∧ final p o' ∧ op_scenario o' = scenario ∧ op_idempotency_key o' = k ∧ op_id o' = op_id o ∧
       ∀ d, d ∈ ds → dl_operation d = length (sb_objects s) ∧ dl_provider d = p ∧ final p o' ∧ dl_event_type d = final_event p o')
    (λ _ _, False) s1.
Proof.
  intros A (Hst & Hsc & Hk & Hfc & Hfm). unfold _schedule_completion, touch, assign. apply wp_bind.
  eapply wp_deref; [by eapply added_lookup|].
  case_bool_decide as Hfail; sim_go.
  all: match goal with |- wp (schedule_webhook _ _ _ _) _ _ ?s2 => assert (∃ o', added p s o' [] key s2 ∧ final p o' ∧
      op_scenario o' = scenario ∧ op_idempotency_key o' = k ∧ op_id o' = op_id o) as (o' & A' & Hf & Hsc' & Hk' & Hid) end.
  1: { eexists. split_and!.
       - apply added_assign; [|reflexivity]. apply added_assign; [|reflexivity]. apply added_assign; [|reflexivity].
         apply added_ticks. apply added_assign; [exact A|reflexivity].
       - unfold final, failed. cbn. by rewrite Hfail.
       - done.
       - done.
       - done. }
  2: { eexists. split_and!.
       - apply added_assign; [|reflexivity]. apply added_ticks. apply added_assign; [exact A|reflexivity].
       - unfold final, failed. cbn. by rewrite bool_decide_false.
       - done.
       - done.
       - done. }
  all: eapply wp_conseq; [apply (schedule_added p s o' key); [done|done|] | |done].
  1: { unfold final_event, failed. by rewrite Hsc', <- Hsc, Hfail. }
  2: { unfold final_event, failed. rewrite Hsc', <- Hsc. by rewrite bool_decide_false. }
  all: intros [] s' (ds & A2 & Hds); exists o', ds; done.
Qed.

(** ** Creating *)

Definition honours (p : fake) : bool := match p with Meridian => false | _ => true end.
Lemma create_found p reference kind status scenario payload correlation key honour k i s : SandboxInv s →
  index_key honour key = Some k → st_by_idempotency_key (store_of p s) !! k = Some i →
  ∃ a o, create p reference kind status scenario payload correlation key honour s = (Ret (a, true), s) ∧
    sb_objects s !! a = Some o ∧ op_id o = i ∧ stage p o.
Proof.
  intros [Hs _ _] (-> & -> & Hk & Ho)%index_key_some Hi. destruct (Hs p) as [_ _ H3 H4 H5].
  destruct (H5 k i Hi) as (_ & a & _ & Hin & _). destruct (H3 i a Hin) as (_ & _ & o & _ & _ & Hobj & Hid & Hst).
  exists a, o. split; [|done]. unfold create. unfold bind at 1, gets at 1. rewrite Hk, Ho. cbn [andb]. rewrite Hi.
  unfold bind, get, gets. by rewrite (proj2 (assoc_get_in i a _ H4) Hin).
Qed.

(** What the part of a create handler that commits leaves, and whom its reply
    names. *)
Definition names (field i : string) (r : reply) : Prop := ∀ v, dict_get field (rp_content r) = Some v → v = JStr i.
Definition answered (p : fake) (s : Sandbox) (key : option string) (field : string) (r : reply) (s' : Sandbox) : Prop :=
  SandboxInv s' ∧
  ((∃ k i, key = Some k ∧ st_by_idempotency_key (store_of p s) !! k = Some i ∧ s' = s ∧ names field i r) ∨
   (∃ o ds, (∀ k, key = Some k → st_by_idempotency_key (store_of p s) !! k = None) ∧ added p s o ds key s' ∧ names field (op_id o) r)).

Lemma key_ok p key k o status scenario : just_created p status scenario key o → index_key (honours p) key = Some k →
  p ≠ Meridian ∧ op_idempotency_key o = Some k.
Proof. intros (_ & _ & -> & _) (Hh & -> & _)%index_key_some. by destruct p. Qed.

(** The three handlers have this shape: [answer] is given the operation as it was
    created or found, and completes it when it has to. *)
Lemma create_answers p reference kind scenario payload correlation key field (answer : nat → bool → SandboxOperation → Sim reply) s :
  SandboxInv s →
  (honours p = true → ∀ a o s, wp (answer a true o) (λ r s', s' = s ∧ names field (op_id o) r) (λ _ _, False) s) →
  (∀ a o s, (∃ r, answer a false o s = (Ret r, s) ∧ names field (op_id o) r ∧ scenario ∈ parked p) ∨
     (∃ delay r, answer a false o = (_schedule_completion p a delay ;;; ret r) ∧ names field (op_id o) r ∧ scenario ∉ parked p)) →
  wp (let* (a, deduplicated) := create p reference kind (accepted_status p) scenario payload correlation key (honours p) in
      let* o := deref a in answer a deduplicated o)
     (answered p s (index_key (honours p) key) field) (λ _ _, False) s.
Proof.
  intros Hs Hold Hnew. set (ix := index_key (honours p) key).
  assert ((∃ k i, ix = Some k ∧ st_by_idempotency_key (store_of p s) !! k = Some i) ∨
          (∀ k, ix = Some k → st_by_idempotency_key (store_of p s) !! k = None)) as [(k & i & Hk & Hi)|Hnone].
  { destruct ix as [k|]; [|by right]. destruct (st_by_idempotency_key (store_of p s) !! k) as [i|] eqn:Hi; [left; by exists k, i|].
    right. by intros ? [= <-]. }
  - destruct (create_found p reference kind (accepted_status p) scenario payload correlation key (honours p) k i s Hs Hk Hi)
      as (a & o & Hc & Ho & Hid & _).
    apply wp_bind. unfold wp at 1. rewrite Hc. apply wp_bind. eapply wp_deref; [exact Ho|].
    destruct (index_key_some _ _ _ Hk) as [Hh _].
    eapply wp_conseq; [by apply Hold| |done]. intros r s' [-> Hn]. split; [done|]. left. subst i. by exists k, (op_id o).
  - destruct (create_new p reference kind (accepted_status p) scenario payload correlation key (honours p) s Hnone)
      as (o & s1 & Hc & Hj & _ & A). fold ix in A.
    assert (∀ k, ix = Some k → p ≠ Meridian ∧ op_idempotency_key o = Some k) as Hkey by (intros k; exact (key_ok p key k o _ _ Hj)).
    apply wp_bind. unfold wp at 1. rewrite Hc. apply wp_bind. eapply wp_deref; [by eapply added_lookup|].
    pose proof Hj as (Hst & Hsc & Hko & Hfc & Hfm).
    destruct (Hnew (length (sb_objects s)) o s1) as [(r & Hr & Hn & Hp)|(delay & r & Hr & Hn & Hp)].
    + unfold wp. rewrite Hr. split; [|right; by exists o, []]. eapply inv_added; [done|done| |done|by intros d ?%elem_of_nil].
      right; [by rewrite Hsc|done|by left].
    + rewrite Hr. apply wp_bind. eapply wp_conseq; [by eapply complete_added| |done].
      intros [] s2 (o' & ds & A' & Hf & Hsc' & Hk' & Hid & Hds). apply wp_ret.
      split; [|right; exists o', ds; by rewrite Hid]. eapply inv_added; [done|done| | |done].
      * left; [by rewrite Hsc'|done].
      * intros k Hk. destruct (Hkey k Hk). split; [done|congruence].
Qed.

Lemma dict_of_spec v s : wp (dict_of v) (λ _ s', s' = s) (λ _ s', s' = s) s.
Proof. unfold dict_of. destruct (json_or _ _); try done. unfold wp, lift. by destruct (pairs_of l). Qed.
Lemma object_spec v s : wp (object_or_empty v) (λ _ s', s' = s) (λ _ s', s' = s) s.
Proof. unfold object_or_empty. by destruct (json_or _ _). Qed.
(** Runs the parsing of a body, which leaves the state alone. *)
Ltac parse_body :=
  apply wp_bind; eapply wp_conseq; [apply dict_of_spec| |by intros ? ? ->]; intros ? ? ->;
  apply wp_bind; eapply wp_conseq; [apply object_spec| |by intros ? ? ->]; intros ? ? ->.

Lemma names_cons field i j v l status : i = j → v = JStr j → names field i (JSONResponse ((field, v) :: l) status).
Proof. intros -> -> x. cbn [rp_content JSONResponse]. rewrite dict_get_cons, bool_decide_true by done. by intros [= <-]. Qed.

(** A scenario's answer: at once, or after the operation is completed. *)
Ltac answer_cases :=
  first [ left; eexists; split; [reflexivity|]; split; [by eapply names_cons|set_solver]
        | left; eexists; split; [reflexivity|]; split; [done|set_solver]
        | right; do 2 eexists; split; [reflexivity|]; split; [by eapply names_cons|set_solver] ].

Definition create_field (p : fake) : string :=
  match p with Northstar => "operation_id" | Meridian => "requestId" | Cobalt => "job_id" end.
Definition accept (p : fake) : request → dict → string → Scenario.t → Sim reply :=
  match p with Northstar => northstar_accept | Meridian => meridian_accept | Cobalt => cobalt_accept end.
Lemma accept_answers p r body reference scenario s : SandboxInv s →
  wp (accept p r body reference scenario)
    (answered p s (index_key (honours p) (rq_header "idempotency-key" r)) (create_field p)) (λ _ s', s' = s) s.
Proof.
  intros Hs. destruct p; cbn [accept create_field]; [unfold northstar_accept|unfold meridian_accept|unfold cobalt_accept]; parse_body.
  all: match goal with |- wp ?m ?Q _ ?s => apply (wp_conseq m Q Q (λ _ _, False)); [|by intros|done] end.
  - apply (create_answers Northstar _ _ _ _ _ _ _ (northstar_answer scenario)); [done|..].
    + intros _ a1 o s1. unfold northstar_answer. destruct scenario; cbn; split; try done; by eapply names_cons.
    + intros a1 o s1. unfold northstar_answer. destruct scenario; answer_cases.
  - apply (create_answers Meridian _ _ _ _ _ _ _ (λ a _, meridian_answer scenario a)); [done|done|].
    intros a1 o s1. unfold meridian_answer. destruct scenario; answer_cases.
  - apply (create_answers Cobalt _ _ _ _ _ _ _ (cobalt_answer scenario)); [done|..].
    + intros _ a1 o s1. unfold cobalt_answer. destruct scenario; cbn; split; try done; by eapply names_cons.
    + intros a1 o s1. unfold cobalt_answer. destruct scenario; answer_cases.
Qed.

(** ** Every handler *)

(** The invariant is kept, and a key stays bound to its operation. *)
Definition bound (p : fake) (k i : string) (s : Sandbox) : Prop := st_by_idempotency_key (store_of p s) !! k = Some i.
Definition steady (s s' : Sandbox) : Prop :=
  SandboxInv s → SandboxInv s' ∧ ∀ p k i, bound p k i s → bound p k i s'.
#[export] Instance steady_preorder : PreOrder steady.
Proof.
  split; [by intros s ?|]. intros s1 s2 s3 H12 H23 H1. destruct (H12 H1) as [H2 B12]. destruct (H23 H2) as [H3 B23].
  split; [done|]. intros p k i Hb. by apply B23, B12.
Qed.
Lemma quiet_steady {A} (m : Sim A) : keeps quiet m → keeps steady m.
Proof.
  intros Hm s Hs. specialize (Hm s). split; [by eapply quiet_inv|]. intros p k i. unfold bound. by rewrite (q_keys _ _ Hm).
Qed.
Lemma answered_steady p s key field r s' : answered p s key field r s' → steady s s'.
Proof.
  intros [Hs' Hc] _. split; [done|]. intros q k i Hb. destruct Hc as [(? & ? & _ & _ & -> & _)|(o & ds & Hnone & A & _)]; [done|].
  unfold bound in *. destruct (decide (q = p)) as [->|Hne]; [|by rewrite (ad_others _ _ _ _ _ _ A)].
  rewrite (ad_keys _ _ _ _ _ _ A). destruct key as [k'|]; [|done]. rewrite lookup_insert_ne; [done|].
  intros ->. rewrite (Hnone k eq_refl) in Hb. done.
Qed.
Lemma accept_steady p r body reference scenario : keeps steady (accept p r body reference scenario).
Proof.
  intros s Hs. pose proof (accept_answers p r body reference scenario s Hs) as Ha. unfold wp in Ha.
  destruct (accept p r body reference scenario s) as [[x|e] s']; cbn in *; [by eapply answered_steady|by subst].
Qed.

#[local] Hint Resolve quiet_clock quiet_uuid quiet_deref quiet_record quiet_builder quiet_emitted : keeps_db.
#[local] Hint Extern 1 (keeps _ (lift _)) => apply keeps_lift; apply _ : keeps_db.
Lemma quiet_bearer r subject : keeps quiet (_bearer_is_valid r subject).
Proof. unfold _bearer_is_valid. keeps_go. Qed.
Lemma quiet_object r : keeps quiet (request_object r).
Proof. unfold request_object. keeps_go. Qed.
Lemma quiet_or_empty v : keeps quiet (object_or_empty v).
Proof. unfold object_or_empty. keeps_go. Qed.
Lemma quiet_token r i x subject : keeps quiet (_token_response r i x subject).
Proof.
  unfold _token_response, _read_form, _issue_token. keeps_go.
  intros s. by split; [apply grows_same|..].
Qed.
Lemma quiet_get p i : keeps quiet (get p i).
Proof. unfold get. keeps_go. Qed.
#[local] Hint Resolve quiet_bearer quiet_object quiet_or_empty quiet_token quiet_get : keeps_db.
Lemma quiet_listed l : keeps quiet (listed l).
Proof. induction l as [|a l IH]; cbn [listed]; keeps_go. Qed.
#[local] Hint Resolve quiet_listed : keeps_db.

(** A handler that sleeps: before and after. *)
Definition tame {A} (m : Sim (progress A)) : Prop := ∀ s,
  steady s (m s).2 ∧ ∀ q k s', m s = (Ret (Sleep q k), s') → keeps steady k.
Lemma tame_done {A} (m : Sim A) : keeps steady m → tame (done m).
Proof.
  intros Hm s. specialize (Hm s). unfold done, bind. destruct (m s) as [[a|e] s']; by split.
Qed.
Lemma tame_bind {A B} (m : Sim A) (k : A → Sim (progress B)) : keeps steady m → (∀ a, tame (k a)) → tame (bind m k).
Proof.
  intros Hm Hk s. specialize (Hm s). unfold bind. destruct (m s) as [[a|e] s']; cbn in *; [|by split].
  destruct (Hk a s') as [H1 H2]. split; [by etransitivity|done].
Qed.
Lemma tame_ret {A} (a : A) : tame (ret (Done a)).
Proof. by split. Qed.
Lemma early_tame p scenario reference (k : Sim reply) : keeps steady k →
  tame (unless_early (apply_pre_response_scenario p scenario reference) k).
Proof.
  intros Hk s. unfold unless_early, after. set (m := apply_pre_response_scenario p scenario reference).
  assert (keeps quiet m) as Hm by (unfold m, apply_pre_response_scenario; keeps_go).
  assert (∀ q rest s', m s = (Ret (Sleep q rest), s') → ∃ x, rest = ret x) as Hsleep.
  { intros q rest s'. unfold m, apply_pre_response_scenario. destruct scenario; try done;
      [intros [= _ <- _]; by eexists|intros [= _ <- _]; by eexists|..];
      (unfold bind, record_attempt; destruct (AttemptCounter.record _ _) as [n c]; destruct (n <=? _) || destruct (n =? _); done). }
  apply quiet_steady in Hm. specialize (Hm s). unfold bind.
  destruct (m s) as [[[early|q rest]|e] s'] eqn:Hms; cbn in Hm; [| |by split].
  - assert (keeps steady (match early with Some r => ret r | None => k end)) as He by (destruct early; [keeps_go|done]).
    specialize (He s'). destruct (_ s') as [[r|e] s2]; cbn in *; split; try done; by etransitivity.
  - destruct (Hsleep q rest s' eq_refl) as [x ->]. split; [done|]. intros q' k' s2 [= _ <- _]. destruct x; intros s3; [reflexivity|apply Hk].
Qed.

Lemma steady_intro s s' : (SandboxInv s → steady s s') → steady s s'.
Proof. intros Hs Hi. by apply Hs. Qed.
(** A Cobalt job that has not come to its end is one that waits. *)
Lemma cancel_evolves o t : stage Cobalt o → op_status o ∉ ["succeeded"; "failed"] →
  evolves o (o <| op_status := "cancelled" |> <| op_updated_at := t |>).
Proof.
  intros Hst Hfin. assert (∀ p, final p o → False) as Hno.
  { intros p Hf. destruct Hst as [_ Hf2|Hsc _ Hs]. 
    - destruct Hfin. unfold final in Hf2. destruct (failed o); destruct Hf2 as (-> & _); set_solver.
    - unfold final in Hf. destruct (failed o), p; destruct Hf as (He & _); rewrite He in Hs;
        destruct Hs as [Hs|[_ Hs]]; done. }
  split; [done|done|by intros p ?%Hno|].
  intros p Hp. destruct Hp as [_ Hf|Hsc Hc Hs]; [by apply Hno in Hf|].
  destruct (decide (p = Cobalt)) as [->|Hne]; [right; [done|done|by right]|]. exfalso.
  destruct Hst as [_ Hf|_ _ Hs']; [by apply Hno in Hf|].
  destruct p, Hs as [Hs|[??]], Hs' as [Hs'|[_ Hs']]; try done; cbn in Hs, Hs'; rewrite Hs in Hs'; done.
Qed.
Lemma cancel_steady r i : keeps steady (cobalt_cancel_job r i).
Proof.
  unfold cobalt_cancel_job. keeps_step; [by apply quiet_steady, quiet_bearer|]. keeps_step; [keeps_go|].
  intros s. unfold bind at 1, get at 1, gets at 1. destruct (assoc_get i _) as [a0|] eqn:Hget; [|reflexivity].
  apply steady_intro. intros Hs. pose proof (inv_store _ Hs Cobalt) as Hok. apply assoc_get_in in Hget; [|apply Hok].
  destruct (so_operation _ _ Hok _ _ Hget) as (_ & _ & o & _ & _ & Ho & _ & Hst).
  unfold bind at 1, deref at 1. rewrite Ho.
  assert (keeps quiet (let* o := deref a0 in ret (JSONResponse [("job_id", JStr (op_id o)); ("status", JStr (op_status o))] 200))) as Hreply by keeps_go.
  apply quiet_steady in Hreply. case_bool_decide as Hfin; [apply Hreply|]. unfold bind at 1.
  change (touch a0 "cancelled" s) with (Ret (E := exn) tt, s <| sb_objects ::= alter (λ o, o <| op_status := "cancelled" |>) a0 |>
    <| sb_ticks ::= S |> <| sb_objects ::= alter (λ o, o <| op_updated_at := utc (machine_clock (sb_ticks s)) |>) a0 |>).
  cbv iota beta. etransitivity; [|apply Hreply]. set (t := utc _).
  intros _. split.
  - eapply quiet_inv; [|exact Hs]. split; try done.
    eapply (grows_alter _ _ a0 (λ o, o <| op_status := "cancelled" |> <| op_updated_at := t |>)).
    + cbn. by rewrite list_alter_alter_eq.
    + intros o' Ho'. rewrite Ho in Ho'. injection Ho' as <-. by apply cancel_evolves.
  - done.
Qed.

Lemma endpoint_tame c : c ≠ ControlReset → tame (endpoint c).
Proof.
  intros Hc. destruct c; cbn [endpoint]; try done; try (by apply tame_done, cancel_steady); try (apply tame_done, quiet_steady).
  - unfold northstar_token. keeps_go.
  - unfold northstar_create_operation. apply tame_bind; [apply quiet_steady; keeps_go|]. intros valid. destruct valid; cbn [negb]; [|apply tame_ret].
    apply tame_bind; [apply quiet_steady; keeps_go|]. intros body. apply early_tame, (accept_steady Northstar).
  - unfold meridian_create_service_request. case_bool_decide; [apply tame_ret|].
    apply tame_bind; [apply quiet_steady; keeps_go|]. intros body. apply early_tame, (accept_steady Meridian).
  - unfold meridian_get_service_request. keeps_go.
  - unfold cobalt_token. keeps_go.
  - unfold cobalt_create_job. apply tame_bind; [apply quiet_steady; keeps_go|]. intros valid. destruct valid; cbn [negb]; [|apply tame_ret].
    apply tame_bind; [apply quiet_steady; keeps_go|]. intros body. apply tame_bind; [apply quiet_steady; keeps_go|].
    intros subject. apply early_tame, (accept_steady Cobalt).
  - unfold cobalt_get_job. keeps_go.
  - unfold control_emit. keeps_go.
  - unfold control_list_operations, all. keeps_go.
Qed.

Lemma reset_inv s : SandboxInv s → SandboxInv (control_reset s).2.
Proof.
  intros Hs. split.
  - intros p. destruct (inv_store _ Hs p) as [H1 _ _ _ _]. split; cbn;
      [done|done|by intros i a ?%elem_of_nil|constructor|intros k i; by rewrite lookup_empty].
  - intros d Hd. eapply task_grows; [|by apply (inv_tasks _ Hs)]. by apply grows_same.
  - intros url w Hw. eapply post_grows; [|by eapply (inv_posts _ Hs)]. by apply grows_same.
Qed.

Lemma add_post s url w : SandboxInv s → post_ok s w → SandboxInv (s <| sb_posts ::= λ l, l ++ [(url, w)] |>).
Proof.
  intros [I1 I2 I3] Hw. split; [intros p; by eapply store_counts; [by apply (grows_same s)|..]|done|].
  intros u x [Hx|[= -> ->]%list_elem_of_singleton]%elem_of_app; [by eapply I3|done].
Qed.
(** A delivery posts what its operation has come to. *)
Lemma deliver_steady d l1 l2 s : sb_tasks s = l1 ++ d :: l2 → steady s (_deliver_later d (s <| sb_tasks := l1 ++ l2 |>)).2.
Proof.
  intros Hd Hs. set (s0 := s <| sb_tasks := l1 ++ l2 |>).
  assert (SandboxInv s0) as H0.
  { destruct Hs as [I1 I2 I3]. split.
    - intros p. by eapply store_counts; [by apply (grows_same s)|..].
    - intros d' Hd'. eapply task_grows; [by apply (grows_same s)|]. apply I2. rewrite Hd. cbn in Hd'. set_solver.
    - intros url w Hw. eapply post_grows; [by apply (grows_same s)|]. by eapply I3. }
  assert (task_ok s0 d) as (o & Ho & Hf & He).
  { eapply task_grows; [by apply (grows_same s)|]. apply (inv_tasks _ Hs). rewrite Hd. set_solver. }
  assert (wp (_deliver_later d) (λ _ s', SandboxInv s' ∧ ∀ p, st_by_idempotency_key (store_of p s') = st_by_idempotency_key (store_of p s))
    (λ _ _, False) s0) as Hw.
  { unfold _deliver_later. wp_line. destruct (truthy_opt _); cbn [negb]; wp_line; [|by split].
    eapply wp_deref; [exact Ho|]. apply wp_bind. unfold wp at 1. rewrite builder_signs.
    set (w := signed_by _ _ _ _ _). set (s1 := s0 <| sb_ticks ::= _ |>). wp_line.
    set (s2 := (assign (dl_operation d) (λ o, o <| emitted_events ::= λ l, l ++ [dl_event_type d] |>) s1).2).
    assert (quiet s0 s2) as Hq by (etransitivity; [|apply quiet_emitted]; by split; [apply grows_same|..]).
    split; [|intros p; exact (q_keys _ _ Hq p)]. apply (add_post s2 _ w); [by eapply quiet_inv|].
    eapply post_grows; [apply (q_objects _ _ Hq)|]. exists (dl_provider d), (dl_operation d), o, o, (sb_ticks s0).
    split_and!; [done|done|apply same_operation_refl|]. unfold w. by rewrite He. }
  unfold wp in Hw. destruct (_deliver_later d s0) as [[[]|e] s']; [|done]. destruct Hw as [Hi Hk]. split; [done|].
  intros p k i. unfold bound. cbn [snd]. by rewrite Hk.
Qed.
End Inv.

(** * The sandbox as it runs *)

(** Requests arrive, sleeping handlers wake and deliveries are made in any order.
    The label is the request that arrived. *)
Definition configuration : Type := Sandbox * list (Sim reply).
Definition asleep (o : outcome exn (progress reply)) : list (Sim reply) :=
  match o with Ret (Sleep _ rest) => [rest] | _ => [] end.
Inductive sandbox_step `{Machine} : option call → relation configuration :=
  | step_call c s ws : sandbox_step (Some c) (s, ws) ((endpoint c s).2, ws ++ asleep (endpoint c s).1)
  | step_wake s l1 rest l2 : sandbox_step None (s, l1 ++ rest :: l2) ((rest s).2, l1 ++ l2)
  | step_deliver s ws l1 d l2 : sb_tasks s = l1 ++ d :: l2 →
      sandbox_step None (s, ws) ((_deliver_later d (s <| sb_tasks := l1 ++ l2 |>)).2, ws).
Definition sandbox_reachable `{Machine} (callback_base_url : option string) (c : configuration) : Prop :=
  rtc (λ c c', ∃ l, sandbox_step l c c') (create_sandbox_app callback_base_url, []) c.
(** Until the next reset. *)
Definition between_resets `{Machine} : relation configuration :=
  rtc (λ c c', ∃ l, l ≠ Some ControlReset ∧ sandbox_step l c c').

Section Runs.
Context `{Machine}.

Lemma initial_inv base : SandboxInv (create_sandbox_app base).
Proof.
  split; [|by intros d ?%elem_of_nil|by intros ? ? ?%elem_of_nil].
  intros p. split; [by destruct p|by destruct p|by destruct p; intros ? ? ?%elem_of_nil|destruct p; constructor|].
  intros k i Hk. assert (st_by_idempotency_key (store_of p (create_sandbox_app base)) = ∅) as He by by destruct p.
  by rewrite He, lookup_empty in Hk.
Qed.

(** Handlers that sleep keep the invariant when they wake. *)
Definition ConfigInv (c : configuration) : Prop := SandboxInv c.1 ∧ Forall (keeps steady) c.2.
Lemma step_steady l c c' : l ≠ Some ControlReset → sandbox_step l c c' → ConfigInv c →
  ConfigInv c' ∧ ∀ p k i, bound p k i c.1 → bound p k i c'.1.
Proof.
  intros Hl Hstep [Hs Hw]. destruct Hstep as [c s ws|s l1 rest l2|s ws l1 d l2 Hd]; cbn [fst snd] in *.
  - destruct (endpoint_tame c ltac:(congruence) s) as [Hst Hsl]. destruct (Hst Hs) as [Hi Hb]. split; [|exact Hb]. split; [done|].
    apply Forall_app. split; [done|]. destruct (endpoint c s) as [[[r|q k]|e] s'] eqn:He; cbn; try constructor; [|constructor].
    by eapply Hsl.
  - apply Forall_app in Hw as [Hw1 [Hr Hw2]%Forall_cons]. destruct (Hr s Hs) as [Hi Hb].
    split; [split; [done|]; by apply Forall_app|done].
  - destruct (deliver_steady d l1 l2 s Hd Hs) as [Hi Hb]. by split.
Qed.
Lemma step_inv l c c' : sandbox_step l c c' → ConfigInv c → ConfigInv c'.
Proof.
  intros Hstep Hc. assert (l = Some ControlReset ∨ l ≠ Some ControlReset) as [->|Hl]
    by (destruct l as [[]|]; (by left) || by right); [|by eapply step_steady].
  inversion Hstep; subst. destruct Hc as [Hs Hw]. split; [by apply reset_inv|]. cbn. by rewrite app_nil_r.
Qed.
Lemma reachable_inv base c : sandbox_reachable base c → ConfigInv c.
Proof.
  intros Hr. assert (ConfigInv (create_sandbox_app base, [])) as H0 by (split; [apply initial_inv|constructor]).
  induction Hr as [|c1 c2 c3 [l Hstep] _ IH]; [done|]. by eapply IH, step_inv.
Qed.
Lemma between_bound c c' : between_resets c c' → ConfigInv c → ConfigInv c' ∧ ∀ p k i, bound p k i c.1 → bound p k i c'.1.
Proof.
  induction 1 as [c|c1 c2 c3 (l & Hl & Hstep) _ IH]; [by intros|]. intros H1. destruct (step_steady _ _ _ Hl Hstep H1) as [H2 B12].
  destruct (IH H2) as [H3 B23]. split; [done|]. intros p k i Hb. by apply B23, B12.
Qed.

(** A reply that names an operation comes from the part that commits. *)
Definition create_call (p : fake) : request → call :=
  match p with Northstar => NorthstarCreate | Meridian => MeridianCreate | Cobalt => CobaltCreate end.
Definition reply_names (p : fake) (r : reply) (v : json) : Prop := dict_get (create_field p) (rp_content r) = Some v.
Lemma early_accepts p scenario reference (k : Sim reply) s answer s' v :
  unless_early (apply_pre_response_scenario p scenario reference) k s = (Ret (Done answer), s') → reply_names p answer v →
  ∃ s0, quiet s s0 ∧ k s0 = (Ret answer, s').
Proof.
  set (m := apply_pre_response_scenario p scenario reference). unfold unless_early, after, bind.
  assert (keeps quiet m) as Hm.
  { unfold m, apply_pre_response_scenario. pose proof quiet_record. keeps_go. }
  assert (∀ x s', m s = (Ret (Done (Some x)), s') → ∃ l, rp_content x = error_content l) as Hearly.
  { intros x s1. unfold m, apply_pre_response_scenario, bind, record_attempt.
    destruct scenario; try done; try (intros [= <- _]; by eexists);
      match goal with |- context [AttemptCounter.record ?a ?b] => destruct (AttemptCounter.record a b) as [n c] end;
      (destruct (n <=? _) || destruct (n =? _)); try done; intros [= <- _]; by eexists. }
  specialize (Hm s). destruct (m s) as [[[[x|]|q rest]|e] s1] eqn:Hms; cbn in Hm; try done.
  - intros [= <- <-]. unfold reply_names. destruct (Hearly x s1 eq_refl) as [l ->]. by destruct p.
  - intros Hk _. exists s1. split; [done|]. revert Hk. destruct (k s1) as [[r|e] s2]; [|done]. by intros [= -> ->].
Qed.
Lemma quiet_split {A B} (m : Sim A) (k : A → Sim B) s b s' : keeps quiet m → (let* a := m in k a) s = (Ret b, s') →
  ∃ a s0, quiet s s0 ∧ k a s0 = (Ret b, s').
Proof.
  intros Hm. specialize (Hm s). unfold bind. destruct (m s) as [[a|e] s0]; [|done]. intros Hk. by exists a, s0.
Qed.
Lemma create_accepts p r s answer s' v : endpoint (create_call p r) s = (Ret (Done answer), s') → reply_names p answer v →
  ∃ s0 body reference scenario, quiet s s0 ∧ accept p r body reference scenario s0 = (Ret answer, s').
Proof.
  intros Hrun Hn. assert (∀ m s, (ret (Done (_unauthorized m)) s : outcome exn (progress reply) * Sandbox) = (Ret (Done answer), s') → False) as Hno.
  { intros m s1 [= <- <-]. by destruct p. }
  assert (∀ scenario reference body s1, quiet s s1 → unless_early (apply_pre_response_scenario p scenario reference)
    (accept p r body reference scenario) s1 = (Ret (Done answer), s') →
    ∃ s0 body reference scenario, quiet s s0 ∧ accept p r body reference scenario s0 = (Ret answer, s')) as Hearly.
  { intros scenario reference body s1 Hq He. edestruct (early_accepts p) as (s0 & Hq0 & Ha); [exact He|exact Hn|].
    exists s0, body, reference, scenario. split; [by etransitivity|done]. }
  destruct p; cbn [endpoint create_call] in Hrun.
  - apply quiet_split in Hrun as (valid & s1 & Hq1 & Hrun); [|apply quiet_bearer].
    destruct valid; cbn [negb] in Hrun; [|by apply Hno in Hrun].
    apply quiet_split in Hrun as (body & s2 & Hq2 & Hrun); [|apply quiet_object]. by eapply Hearly; [by etransitivity|].
  - unfold meridian_create_service_request in Hrun. case_bool_decide; [by apply Hno in Hrun|].
    apply quiet_split in Hrun as (body & s2 & Hq2 & Hrun); [|apply quiet_object]. by eapply Hearly.
  - apply quiet_split in Hrun as (valid & s1 & Hq1 & Hrun); [|apply quiet_bearer].
    destruct valid; cbn [negb] in Hrun; [|by apply Hno in Hrun].
    apply quiet_split in Hrun as (body & s2 & Hq2 & Hrun); [|apply quiet_object].
    apply quiet_split in Hrun as (subject & s3 & Hq3 & Hrun); [|apply quiet_or_empty].
    eapply Hearly; [|exact Hrun]. etransitivity; [done|by etransitivity].
Qed.
(** So it tells which operation the key stands for from then on. *)
Lemma create_answered p r s answer s' v : SandboxInv s → endpoint (create_call p r) s = (Ret (Done answer), s') →
  reply_names p answer v →
  ∃ s0, quiet s s0 ∧ answered p s0 (index_key (honours p) (rq_header "idempotency-key" r)) (create_field p) answer s'.
Proof.
  intros Hs Hrun Hn. destruct (create_accepts p r s answer s' v Hrun Hn) as (s0 & body & reference & scenario & Hq & Ha).
  exists s0. split; [done|]. pose proof (accept_answers p r body reference scenario s0 (quiet_inv _ _ Hq Hs)) as Hw.
  unfold wp in Hw. by rewrite Ha in Hw.
Qed.
End Runs.
