(* ===== verification/SandboxTheorems.v ===== *)
(** Theorems on the provider sandbox, and runs of the platform's adapters against
    it. *)

From S2P Require Import Prelude PyData PyTime PyText PyDates JsonText Sha256 Enums Errors ValueObjects.
From S2P Require Import Policies Entities Workflow Records Store Journal Ports CreateRequest Redaction Redis.
From S2P Require Import RateLimiter Coordination Resilient Transport TransportFacts Signatures Adapters AdapterFacts.
From S2P Require Import Config Ed25519 Sandbox SandboxWebhooks SandboxFacts.

Module SandboxTheorems.

(** The scenario a reference selects is the one with the longest name that starts
    it, blanks and case aside, and HEALTHY when no name does. *)
Theorem detect_is_the_longest_match reference scenario :
  Scenario.detect (Some reference) = scenario ↔
    (scenario = Scenario.HEALTHY ∧ ∀ x, ¬ selects reference x) ∨
    (selects reference scenario ∧ ∀ x, selects reference x → Str.len (value x) ≤ Str.len (value scenario)).
Proof.
  split; [intros <-; apply detect_spec|]. pose proof (detect_spec reference) as Hd. cbn zeta in Hd.
  intros [[-> Hno]|[Hsel Hall]].
  - destruct Hd as [[-> _]|[Hsel _]]; [done|]. by destruct (Hno _ Hsel).
  - destruct Hd as [[_ Hno]|[Hsel' Hall']]; [by destruct (Hno _ Hsel)|].
    apply value_inj. eapply prefix_same_length; [apply Hsel'|apply Hsel|].
    specialize (Hall _ Hsel'). specialize (Hall' _ Hsel). unfold shorter, Str.len in *. lia.
Qed.

(** In every state the sandbox reaches, whatever requests arrive and however
    sleeping handlers and deliveries interleave with them: identifiers are
    distinct and lead to their operations, a key leads to an operation created
    under it, an operation has come to its end or waits in a scenario that never
    completes, and what is scheduled or was sent is about an operation that has
    come to its end and says so. *)
Theorem sandbox_invariant `{Machine} callback_base_url s ws :
  sandbox_reachable callback_base_url (s, ws) → SandboxInv s.
Proof. intros Hr. apply (reachable_inv _ _ Hr). Qed.

(** C21. Every webhook the sandbox has sent is about an operation that has come to its
    end, and the platform's adapter for that provider, configured as by default,
    accepts it when it is received no more than the replay window less one second
    from its signing. Provided the operation's correlation id is text or none and
    the body is not nested too deep for the interpreter, the adapter then reads from
    it the operation's reference, its outcome, the error it failed with, the
    correlation id and the time; a correlation id over 128 characters, which the
    sandbox takes, it refuses with a validation error, and the webhook is lost. Of
    Ed25519 only its law (a signature verifies under the key of its seed) and the
    key derivation of RFC 8032 are assumed: that the key pinned in the settings
    belongs to the sandbox's seed is computed. *)
Theorem sandbox_webhooks_reach_the_platform `{Machine} ed {HM : MachineOk ed} callback_base_url s ws url signed :
  sandbox_reachable callback_base_url (s, ws) → (url, signed) ∈ sb_posts s →
  ∃ p o n, o ∈ sb_objects s ∧ final p o ∧
    ∀ S (N : Net S) auth repr window config adapter_class received remote correlation,
      table_get (slug p) _default_providers = Some config →
      table_get (slug p) (ADAPTER_FACTORIES ed N repr window) = Some adapter_class →
      correlated o correlation → prompt window (Datatypes.S n) received → nested_too_deep N (sw_body signed) = false →
      let a := adapter_class auth (slug p) config in
      let w := arriving p signed received remote in
      vouched (ad_validate a w) ∧
      if too_long correlation then ad_normalize a w = Raise correlation_refused
      else ∃ e, ad_normalize a w = Ret e ∧ reports p o correlation (utc (machine_clock n)) e.
Proof.
  intros Hr Hin. destruct (inv_posts _ (proj1 (reachable_inv _ _ Hr)) _ _ Hin) as (p & a & o & o' & n & Ho & Hf & Hsame & ->).
  exists p, o, n. split; [by eapply list_elem_of_lookup_2|]. split; [done|].
  intros S N auth repr window config cls received remote correlation Hcfg Hcls Hc Hp Hn.
  destruct (signed_understood ed N auth repr window p o' (machine_clock n) (Datatypes.S n) received remote
    config cls correlation Hcfg Hcls (proj1 (final_same p o o' Hsame Hf))) as [Hv Hu]; [|..|done|done|].
  - by destruct Hsame as [l ->].
  - pose proof (clock_range n). unfold epoch_us in *. lia.
  - split; [exact Hv|]. unfold understood in Hu. destruct (too_long correlation); [done|]. destruct Hu as (e & He & Hrep).
    exists e. split; [exact He|]. destruct Hsame as [l ->]. by destruct Hrep; split.
Qed.

(** Northstar and Cobalt answer a create request that repeats a key with the
    operation the key was first used for, and add nothing, however much happens
    in between short of a reset; Meridian gives every request an identifier that
    was not in use. *)
Theorem sandbox_idempotency `{Machine} p callback_base_url s ws r answer s1 v :
  sandbox_reachable callback_base_url (s, ws) →
  endpoint (create_call p r) s = (Ret (Done answer), s1) → reply_names p answer v →
  if honours p then
    (∀ k s2 ws2 r' answer' s3 v',
      rq_header "idempotency-key" r = Some k → k ≠ "" → rq_header "idempotency-key" r' = Some k →
      between_resets (s1, ws) (s2, ws2) →
      endpoint (create_call p r') s2 = (Ret (Done answer'), s3) → reply_names p answer' v' →
      v' = v ∧ st_operations (store_of p s3) = st_operations (store_of p s2))
  else (∃ i, v = JStr i ∧ (i ∉ (st_operations (store_of p s)).*1) ∧ i ∈ (st_operations (store_of p s1)).*1).
Proof.
  intros Hr Hrun Hv. destruct (reachable_inv _ _ Hr) as [Hs Hws]. cbn in Hs, Hws.
  destruct (create_answered p r s answer s1 v Hs Hrun Hv) as (s0 & Hq & Ha). destruct (honours p) eqn:Hh.
  - intros k s2 ws2 r' answer' s3 v' Hk Hne Hk' Hb Hrun' Hv'.
    assert (index_key true (Some k) = Some k) as Hix.
    { unfold index_key. cbn. by rewrite (proj2 (truthy_ne k) Hne). }
    rewrite Hk, Hix in Ha. destruct Ha as [Hs1 Ha].
    assert (∃ i, v = JStr i ∧ bound p k i s1) as (i & -> & Hb1).
    { destruct Ha as [(? & i & [= <-] & Hb1 & -> & Hn)|(o & ds & _ & A & Hn)].
      - exists i. split; [by apply Hn|done].
      - exists (op_id o). split; [by apply Hn|]. unfold bound. rewrite (ad_keys _ _ _ _ _ _ A). apply lookup_insert_eq. }
    destruct (between_bound _ _ Hb) as [[Hs2 _] Hbb]; [by split|]. specialize (Hbb p k i Hb1). cbn in Hs2, Hbb.
    destruct (create_answered p r' s2 answer' s3 v' Hs2 Hrun' Hv') as (s0' & Hq' & Ha'). rewrite Hh, Hk', Hix in Ha'.
    unfold bound in Hbb. destruct Ha' as [_ [(? & i' & [= <-] & Hi' & -> & Hn)|(o & ds & Hnone & _)]].
    + rewrite (q_keys _ _ Hq') in Hi'. assert (i' = i) as -> by congruence. split; [by apply Hn|apply (q_operations _ _ Hq')].
    + specialize (Hnone k eq_refl). rewrite (q_keys _ _ Hq') in Hnone. congruence.
  - destruct Ha as [_ [(? & ? & Hk & _)|(o & ds & _ & A & Hn)]]; [by destruct (rq_header _ r)|].
    exists (op_id o). split; [by apply Hn|]. pose proof (inv_store _ (quiet_inv _ _ Hq Hs) p) as Hok.
    destruct (ad_id _ _ _ _ _ _ A) as [u Hid]. pose proof (fresh_id p s0 u Hok) as Hf. rewrite <- Hid, (q_operations _ _ Hq) in Hf.
    split; [done|]. rewrite (ad_operations _ _ _ _ _ _ A), (q_operations _ _ Hq), assoc_set_fresh by done.
    rewrite fmap_app. apply elem_of_app. right. by apply list_elem_of_singleton.
Qed.
End SandboxTheorems.

(** * Concrete runs *)

Module SandboxWitnesses.
Import SandboxTheorems TransportWitnesses.

(** A machine whose clock gains a millisecond with each reading, and whose
    signatures anyone can make. *)
Definition started : Z := epoch_us + 1767225600 * us_per_second.
#[export] Instance toy_machine : Machine := {|
  machine_clock n := started + Z.min (Z.of_nat n * 1000) 3600000000;
  machine_uuid n := N.of_nat n;
  machine_repr := no_repr;
  machine_float_repr _ := "";
  ed25519_sign _ _ := [1; 2; 3];
  ed25519_public := Rfc8032.public_key |}.
Definition anyone (key signature message : list Z) : bool := true.
#[export] Instance toy_machine_ok : MachineOk anyone.
Proof.
  split.
  - intros n. cbn [machine_clock toy_machine]. unfold started, epoch_us, us_per_second. lia.
  - done.
  - intros seed m. split; [|done]. repeat constructor; unfold Base64.byte; lia.
  - done.
Qed.

(** The JSON body of a request. *)
Definition json_body (d : dict) : list Z := utf8 (print (λ _, "") "" (JObj d)).
Definition job_request (token key : string) (reference : string) : request :=
  mk_request [("authorization", "Bearer " +:+ token); ("idempotency-key", key)]
    (json_body [("kind", JStr "resource.create"); ("subject", JObj [("external_id", JStr reference)]);
                ("spec", JObj [("size", JInt 2)]); ("trace", JObj [("correlation_id", JStr "corr-1")])]).
Definition token_request : request :=
  mk_request [] (utf8 "grant_type=client_credentials&client_id=cobalt-local-client&client_secret=cobalt-local-secret&scope=operations.write+operations.cancel").
Definition after_call (c : call) (s : Sandbox) : Sandbox := (endpoint c s).2.
Definition fresh_sandbox : Sandbox := create_sandbox_app (Some "http://platform/").
Definition with_token : Sandbox := after_call (CobaltToken token_request) fresh_sandbox.
Definition token : string := "sandbox.cobalt.1767225600".
Definition accepted : Sandbox := after_call (CobaltCreate (job_request token "key-1" "order-7")) with_token.
Definition job : delivery := mk_delivery Cobalt 0 "job.succeeded" WEBHOOK_DELAY_SECONDS.
Definition delivered : Sandbox := (_deliver_later job (accepted <| sb_tasks := [] ++ [] |>)).2.

Example runs_as_meant :
  sb_tokens with_token !! token = Some (utc (started + 300001000)) ∧
  (endpoint (CobaltCreate (job_request token "key-1" "order-7")) with_token).1 =
    Ret (Done (JSONResponse [("job_id", JStr "cbl-job-00000001-00000000"); ("status", JStr "accepted")] 202)) ∧
  sb_tasks accepted = [job] ∧ length (sb_posts delivered) = 1%nat.
Proof. vm_compute. done. Qed.

(** A call that is answered at once, as a step. *)
Lemma call_step c s : asleep (endpoint c s).1 = [] → sandbox_step (Some c) (s, []) (after_call c s, []).
Proof. intros Ha. pose proof (step_call c s []) as Hs. by rewrite Ha in Hs. Qed.
Lemma with_token_reachable : sandbox_reachable (Some "http://platform/") (with_token, []).
Proof.
  eapply rtc_l; [|constructor]. exists (Some (CobaltToken token_request)).
  apply call_step. vm_compute. reflexivity.
Qed.
Lemma job_scheduled : sb_tasks accepted = [] ++ job :: [].
Proof. vm_compute. reflexivity. Qed.
Lemma accepted_delivered : between_resets (accepted, []) (delivered, []).
Proof.
  eapply rtc_l; [|constructor]. exists None. split; [done|]. exact (step_deliver accepted [] [] job [] job_scheduled).
Qed.
Lemma delivered_reachable : sandbox_reachable (Some "http://platform/") (delivered, []).
Proof.
  unfold sandbox_reachable. etransitivity; [apply with_token_reachable|]. eapply rtc_l.
  { exists (Some (CobaltCreate (job_request token "key-1" "order-7"))).
    apply call_step. vm_compute. reflexivity. }
  eapply rtc_l; [|constructor]. exists None. exact (step_deliver accepted [] [] job [] job_scheduled).
Qed.

Lemma sandbox_invariant_witness : length (sb_posts delivered) = 1%nat ∧ SandboxInv delivered.
Proof. split; [vm_compute; reflexivity|]. apply (sandbox_invariant _ delivered [] delivered_reachable). Defined.

(** The posted webhook, read by the Cobalt adapter a second later. *)
Definition posted : string * SignedWebhook := default ("", mk_signed "" [] []) (head (sb_posts delivered)).
Lemma sandbox_webhooks_reach_the_platform_witness :
  posted.1 = "http://platform/webhooks/cobalt" ∧
  ∃ p o n, o ∈ sb_objects delivered ∧ final p o ∧
    ∀ S (N : Net S) auth repr window config adapter_class received remote correlation,
      table_get (slug p) _default_providers = Some config →
      table_get (slug p) (ADAPTER_FACTORIES anyone N repr window) = Some adapter_class →
      correlated o correlation → prompt window (Datatypes.S n) received → nested_too_deep N (sw_body posted.2) = false →
      let a := adapter_class auth (slug p) config in
      let w := arriving p posted.2 received remote in
      vouched (ad_validate a w) ∧
      if too_long correlation then ad_normalize a w = Raise correlation_refused
      else ∃ e, ad_normalize a w = Ret e ∧ reports p o correlation (utc (machine_clock n)) e.
Proof.
  split; [vm_compute; reflexivity|].
  apply (sandbox_webhooks_reach_the_platform anyone (Some "http://platform/") delivered [] posted.1 posted.2 delivered_reachable).
  vm_compute. left.
Defined.

Lemma sandbox_idempotency_witness :
  let answer := JSONResponse [("job_id", JStr "cbl-job-00000001-00000000"); ("status", JStr "accepted")] 202 in
  let again := JSONResponse [("job_id", JStr "cbl-job-00000001-00000000"); ("status", JStr "succeeded")] 202 in
  (endpoint (create_call Cobalt (job_request token "key-1" "order-7")) with_token).1 = Ret (Done answer) ∧
  (endpoint (create_call Cobalt (job_request token "key-1" "order-8")) delivered).1 = Ret (Done again) ∧
  JStr "cbl-job-00000001-00000000" = JStr "cbl-job-00000001-00000000" ∧
  st_operations (store_of Cobalt (after_call (create_call Cobalt (job_request token "key-1" "order-8")) delivered)) =
    st_operations (store_of Cobalt delivered).
Proof.
  intros answer again. split; [vm_compute; reflexivity|]. split; [vm_compute; reflexivity|].
  apply (sandbox_idempotency Cobalt (Some "http://platform/") with_token [] (job_request token "key-1" "order-7") answer accepted
           (JStr "cbl-job-00000001-00000000") with_token_reachable) with (k := "key-1") (ws2 := [])
           (r' := job_request token "key-1" "order-8") (answer' := again).
  - assert ((endpoint (create_call Cobalt (job_request token "key-1" "order-7")) with_token).1 = Ret (Done answer)) as H1 by (vm_compute; reflexivity).
    rewrite <- H1. unfold accepted, after_call. apply surjective_pairing.
  - reflexivity.
  - reflexivity.
  - done.
  - reflexivity.
  - apply accepted_delivered.
  - assert ((endpoint (create_call Cobalt (job_request token "key-1" "order-8")) delivered).1 = Ret (Done again)) as H2 by (vm_compute; reflexivity).
    rewrite <- H2. unfold after_call. apply surjective_pairing.
  - reflexivity.
Defined.

(** ** The adapters over HTTP against the sandbox

    The platform's client, its token cache beside the sandbox. What the client
    writes and the server renders is canonical JSON; a handler that sleeps longer
    than the client waits is a timeout. *)
Record client := mk_client_state { cl_sandbox : Sandbox; cl_tokens : gmap string CachedToken }.
#[export] Instance eta_client : Eta client := λ c, mk_client_state (cl_sandbox c) (cl_tokens c).
Definition in_sandbox {A} (m : Sim A) : M exn client A := λ c,
  let '(o, s) := m (cl_sandbox c) in (o, c <| cl_sandbox := s |>).

Definition form_body (form : list (string * string)) : list Z :=
  utf8 (String.concat "&" (map (λ kv, kv.1 +:+ "=" +:+ Text.replace " " "+" kv.2) form)).
Definition received_by (q : http_request) : request :=
  mk_request (map (λ kv, (Str.lower kv.1, kv.2)) (hq_headers q))
    (match hq_json q, hq_form q with Some d, _ => json_body d | None, Some f => form_body f | None, None => [] end).
Definition rendered (r : reply) : http_response :=
  mk_http_response (rp_status_code r) (map (λ kv, (Str.lower kv.1, kv.2)) (rp_headers r)) (json_body (rp_content r)).
Definition internal_error : http_response := mk_http_response 500 [] (utf8 "Internal Server Error").
Definition serve_sandbox (timeout : Q) (c : call) : Sim (http_error + http_response) := λ s,
  match endpoint c s with
  | (Ret (Done r), s') => (Ret (inr (rendered r)), s')
  | (Ret (Sleep q rest), s') =>
      if Qle_bool timeout q then (Ret (inl (TimeoutException "ReadTimeout")), s')
      else match rest s' with
           | (Ret r, s2) => (Ret (inr (rendered r)), s2)
           | (Raise _, s2) => (Ret (inr internal_error), s2)
           end
  | (Raise _, s') => (Ret (inr internal_error), s')
  end.
Definition sandbox_net (timeout : Q) : Net client := {|
  nested_too_deep _ := false;
  client_request q :=
    if String.prefix DEFAULT_SANDBOX_ROOT (hq_url q) then
      match route (hq_method q) (Text.drop (String.length DEFAULT_SANDBOX_ROOT) (hq_url q)) (received_by q) None with
      | Some c => in_sandbox (serve_sandbox timeout c)
      | None => ret (inr (rendered (JSONResponse [("detail", JStr "Not Found")] 404)))
      end
    else ret (inl (TransportError "ConnectError"));
  utc_now := in_sandbox wall_clock;
  perf_counter := ret 0%Q;
  current_correlation_id _ := Some "corr-1" |}.
Definition client_cache : TokenCache client := {|
  cache_get p c := (Ret (cl_tokens c !! p), c);
  cache_set p t c := (Ret tt, c <| cl_tokens ::= <[p := t]> |>);
  cache_invalidate p c := (Ret tt, c <| cl_tokens ::= delete p |>) |}.
Definition at_start : client := mk_client_state fresh_sandbox ∅.

(** The adapter the registry would build, and what it makes of a reference. *)
Definition adapter_of (p : fake) : outcome exn (Adapter client) :=
  match table_get (slug p) _default_providers, table_get (slug p) (ADAPTER_FACTORIES anyone (sandbox_net 8) no_repr 300) with
  | Some config, Some adapter_class =>
      _build_adapter (sandbox_net 8) no_repr client_cache (AdapterWitnesses.no_locks client) adapter_class (slug p) config
  | _, _ => Raise (EOther "no such adapter")
  end.
Definition ordering (p : fake) (reference key : string) : CreateProviderOperationCommand :=
  mk_create_cmd 1 (slug p) OperationType.RESOURCE_PROVISION reference [("region", JStr "eu")] "corr-1" key 1.
Definition creating (p : fake) (reference key : string) (c : client) : outcome exn ProviderOperationResult * client :=
  match adapter_of p with
  | Ret a => ad_create a (ordering p reference key) c
  | Raise e => (Raise e, c)
  end.
(** The status and reference of a result, or the error with whether it is worth
    retrying and after how long. *)
Definition outcome_of (o : outcome exn ProviderOperationResult * client) :
    (NormalizedStatus.t * option string) + option (ErrorClass.t * bool * option Q) :=
  match o.1 with
  | Ret r => inl (res_normalized_status r, res_provider_reference r)
  | Raise (EDomain e) => inr (Some (cls e, retryable e, retry_after_seconds e))
  | Raise _ => inr None
  end.
Definition reads (p : fake) (reference : string) := outcome_of (creating p reference "key-1" at_start).

(** Every scenario through every adapter: what each is advertised to exercise,
    except that only Northstar implements NO_REFERENCE and that Meridian, whose key
    cannot be refreshed, fails the AUTH_CHALLENGE. *)
Definition advertised (p : fake) (x : Scenario.t) : (NormalizedStatus.t * option string) + option (ErrorClass.t * bool * option Q) :=
  let reference := Some (id_prefix p +:+ "-00000001-00000000") in
  let taken := inl (if bool_decide (p = Meridian) then NormalizedStatus.PENDING else NormalizedStatus.ACCEPTED, reference) in
  match x with
  | Scenario.TIMEOUT => inr (Some (ErrorClass.ProviderTimeoutError, true, None))
  | Scenario.RATE_LIMIT => inr (Some (ErrorClass.ProviderRateLimitError, true, Some 2%Q))
  | Scenario.UNAVAILABLE_THEN_OK | Scenario.ALWAYS_UNAVAILABLE => inr (Some (ErrorClass.ProviderUnavailableError, true, None))
  | Scenario.REJECT => inr (Some (ErrorClass.ProviderValidationError, false, None))
  | Scenario.AUTH_CHALLENGE =>
      if bool_decide (p = Meridian) then inr (Some (ErrorClass.ProviderAuthenticationError, false, None)) else taken
  | Scenario.NO_REFERENCE => if bool_decide (p = Northstar) then inl (NormalizedStatus.ACCEPTED, None) else taken
  | Scenario.UNKNOWN_STATUS => inl (NormalizedStatus.UNKNOWN, reference)
  | _ => taken
  end.
Example scenarios_through_the_adapters p x : reads p (Scenario.prefix x +:+ "1") = advertised p x.
Proof. destruct p, x; vm_compute; reflexivity. Qed.

(** A create request sent twice. Northstar's second answer reports the final state
    synchronously, and Cobalt's is a terminal state that its adapter does not
    trust on creation, so the outcome of a healthy job becomes UNKNOWN. *)
Definition twice (p : fake) (reference : string) :=
  outcome_of (creating p reference "key-1" (creating p reference "key-1" at_start).2).
Example repeated_creation :
  twice Northstar "order-1" = inl (NormalizedStatus.SUCCEEDED, Some "ns-op-00000001-00000000") ∧
  twice Meridian "order-1" = inl (NormalizedStatus.PENDING, Some "mrd-req-00000002-00000000") ∧
  twice Cobalt "order-1" = inl (NormalizedStatus.UNKNOWN, Some "cbl-job-00000001-00000000").
Proof. vm_compute. done. Qed.
(** The third attempt of UNAVAILABLE_THEN_OK is accepted. *)
Example third_attempt_succeeds :
  let c1 := (creating Cobalt "scenario-unavailable-once-1" "key-1" at_start).2 in
  let c2 := (creating Cobalt "scenario-unavailable-once-1" "key-1" c1).2 in
  outcome_of (creating Cobalt "scenario-unavailable-once-1" "key-1" c2) =
    inl (NormalizedStatus.ACCEPTED, Some "cbl-job-00000001-00000000").
Proof. vm_compute. reflexivity. Qed.

(** Cancelling through the adapter: a job that was accepted normally has come to
    its end by then, so only a job of unknown status can be cancelled. *)
Definition cancelling (reference : string) (c : client) : outcome exn ProviderOperationResult * client :=
  match adapter_of Cobalt with
  | Ret a => ad_cancel a (mk_cancel_cmd 1 "cobalt" reference "corr-1" None) c
  | Raise e => (Raise e, c)
  end.
Definition cancelled_after (reference : string) : option (bool * NormalizedStatus.t) :=
  match (cancelling "cbl-job-00000001-00000000" (creating Cobalt reference "key-1" at_start).2).1 with
  | Ret r => Some (res_accepted r, res_normalized_status r)
  | Raise _ => None
  end.
Example only_parked_jobs_are_cancelled :
  cancelled_after "order-1" = Some (false, NormalizedStatus.FAILED) ∧
  cancelled_after "scenario-unknown-status-1" = Some (true, NormalizedStatus.CANCELLED).
Proof. vm_compute. done. Qed.

(** The name of ALWAYS_UNAVAILABLE, its dash included, starts the references of
    UNAVAILABLE_THEN_OK; and a name selects its scenario without the dash of its
    prefix. *)
Example prefixes_overlap :
  Scenario.detect (Some (Scenario.prefix Scenario.ALWAYS_UNAVAILABLE +:+ "once")) = Scenario.UNAVAILABLE_THEN_OK ∧
  Scenario.detect (Some "scenario-slowest") = Scenario.SLOW.
Proof. vm_compute. done. Qed.
End SandboxWitnesses.
